(* ===== verification/_CoqProject ===== *)
-Q . S2P
Prelude.v
Effects.v
CString.v
Infiltratr.v
Sys.v
GenericLayout.v
CoreIO.v
Path.v
DeviceTopology.v
Device.v
TestMediaCore.v
TestMediaRaw.v
TestMediaJson.v
TestMediaState.v
TestMediaDevice.v
TestMediaWorker.v
Exceptions.v
NativeJson.v
Runtime.v
RuntimeManifest.v
HelperPath.v
HelperPolicy.v
DesktopPolicy.v
DesktopMap.v
ModuleHost.v
ModuleList.v
ModuleTarget.v
ModuleLoaders.v
FatLoader.v
TestMediaFat.v
OperationEngine.v
MapRanges.v
AllocationMap.v
ProcessRunner.v
Mapper.v
LiveMap.v
HelperProcess.v
DesktopTransport.v
DesktopSession.v
DesktopSafety.v
DesktopRaces.v
DesktopHelper.v
