(* ===== verification/Prelude.v ===== *)
(** * Defragmenter: a verification library

    Defragmenter packs the files of an unmounted volume.  A desktop process
    decides, a privileged helper authorises, and workers and format modules
    write.  This library models the parts of that chain whose sources are in the
    repository and hold its own logic; paths below are under [src/defragger/].

    ** The program and the files of the library

    - The desktop.  Its policy ([native/desktop_policy.cpp]: DesktopPolicy) discovers
      volumes from the lsblk tree, names their journals, checks the identity an
      analyser reports and builds the command line of a mutation.  Its operations
      ([native/desktop.cpp]: DesktopSession) hold the volumes, the operation in
      progress and the dialogs; they talk to the analysis and to the helper through
      the two process sessions of [native/desktop_process_session.cpp]
      (DesktopTransport).  [native/desktop_map_geometry.cpp] (DesktopMap) groups map
      cells to pixels and [native/desktop_live_map.cpp] (LiveMap) applies the events
      of a running operation to them.  DesktopSafety holds the theorems about every
      session, DesktopRaces three interleavings its guards let through.
    - The helper.  Its policy ([native/helper_policy.cpp]: HelperPolicy, on the
      [std::filesystem] paths of HelperPath) admits or refuses a command line and
      finds the caller's user; its process ([native/privileged_helper.cpp]:
      HelperProcess) is three threads that read requests, run one operation and stop
      it.  DesktopHelper composes the desktop with it.
    - The engine and the mapper, which the helper or the desktop starts:
      [native/operation_engine.cpp] (OperationEngine) checks a mutation and starts its
      worker or module; [native/map.cpp] (MapRanges for the ranges, AllocationMap for
      the adapters, the common map and the qualification) and [native/mapper.cpp]
      (Mapper) analyse a volume and print its map, with what other programs print,
      which the runner of [native/process.cpp] (ProcessRunner) captures.
    - The module host ([native/filesystem_module_host.c]): finding, loading and
      running a format module (ModuleHost), the printed list of modules (ModuleList)
      and the target, staging and journal files a module is given (ModuleTarget).  The
      workers [native/*_module_loader.c] load one format's module through it
      (ModuleLoaders), but the FAT worker, which loads its own (FatLoader).
    - They read the format registry ([native/runtime.cpp]: Runtime for the
      registry, its validation, the lookups, the option filter and the
      program resolution; RuntimeManifest for the printed manifest) and exchange
      JSON ([native/json.cpp]: NativeJson).
    - The C core under [src/core/]: the placement planners ([ld_generic_layout.c]:
      GenericLayout), exact I/O, bitmaps and limits ([ld_io.c]: CoreIO), recovery
      paths ([ld_path.c]: Path), block-device topology and mounts, and the
      binding of a target ([ld_device.c]: DeviceTopology and Device).
    - Test Media ([test_media/]) builds a disk with one fragmented filesystem per
      format and verifies it afterwards: the catalogue and preflight
      ([test_media_core.c]: TestMediaCore), the corpus ([test_media_raw.c]:
      TestMediaRaw), and the privileged worker ([test_media_worker.c]):
      its JSON reader (TestMediaJson), its text formats (TestMediaState), the
      guards on the selected disk (TestMediaDevice) and the workers prepare, verify
      and qualify (TestMediaWorker).  The FAT fixtures ([test_media_fat_module.c]:
      TestMediaFat) put the corpus on a volume through the FAT module.

    Shared layers: this file (machine integers, tactics, the hint database
    [defrag], lemmas on lists and integers); Effects (programs as trees of calls,
    their runs, and the logic [wp] in which safety is proved; [interp] composes
    layers); Exceptions (C++ functions that may throw); CString (C strings and
    [<string.h>], [<ctype.h>], [snprintf]); Sys (one effect per system call);
    Infiltratr (the functions of the Common library, a git submodule whose
    sources are not here, as a class with the laws the code relies on and a
    reference instance that satisfies them).

    ** How state and operations correspond

    A C or C++ function is a Coq function of the same name.  A pointer
    argument that is read is a value, an output is a component of the answer, a
    buffer is the text it holds with its capacity where the code has one.
    Integers are [Z] with wrap-around written out.  A function that calls the
    operating system, another process or a component modelled in another file is
    a program ([prog]) over an effect type; the environment may give any
    answer at every call, so a theorem about all runs covers other processes
    that act in between.  Code that waits for several things at once is a step
    relation: the threads of the helper ([main_step], [worker_step],
    [watchdog_step]), the calls in flight of a process session ([local_step],
    [helper_step]) and the callbacks of the desktop's main loop ([desktop_step]),
    each taken in any order.  A modal dialog of the desktop runs the main loop
    inside the function that raised it: what is left of that function is kept in a
    frame, and the steps before the answer are nested ones.  Exceptions are a sum
    ([exc]), error numbers a [result], the process exit of [ld_die] the outcome
    [Died].

    ** What is shown

    - Placement (GenericLayout): the planner refines a reference on unbounded
      integers, overflow included; a plan is aligned, in bounds and disjoint
      with its reserves, leftmost among all, and refused only when none exists.
    - Authority (DesktopPolicy, HelperPolicy, Runtime): the helper accepts exactly
      the command lines of a stated grammar; every mutation the desktop builds is
      one of them; a mutation is built exactly when its guards hold; discovery and
      identity checks never grant a qualification; the registry is unambiguous.
    - The desktop (DesktopTransport, DesktopSession, DesktopSafety, DesktopHelper):
      in every session, whatever the user, the helper and the analysis do, a request
      for the engine carries a command the policy built and the user accepted;
      operations follow one another; a volume is qualified only for what an exact map
      presented for its path grants, and only once its identity was verified (the map
      may have been made for another volume all the same: DesktopRaces); a reply about
      another request does nothing; closing is not forgotten; the end of an analysis is reported once; and the helper reads,
      understands and authorises every request that is sent.
    - The helper's threads (HelperProcess): a stop waits for the engine's readiness, a
      hard kill comes a grace period after a delivered stop, only authorised commands
      are spawned, and the helper ends with no child left.
    - Engine and modules (OperationEngine, ModuleHost, ModuleList, ModuleTarget): a
      mutation starts only after its checks, a module runs within its capabilities,
      and writes land in the bound target.
    - Workers (ModuleLoaders, FatLoader): each runs only the trusted module of its
      format, after it accepted its table; the EXT, UFS and FAT workers run only a
      module that just recognised the target.
    - Captured programs (ProcessRunner): in any interleaving of the readers, the wait,
      the limit and the cancellation, a result carries everything that was read and
      the status of the child, a failure is what happened, and no signal follows the
      wait that reaped the child.
    - Maps (MapRanges, AllocationMap, Mapper, LiveMap): the maps the adapters build
      are exact, a native map is accepted exactly when it is consistent, the mapper
      prints only founded maps, and live events conserve what a cell holds.
    - JSON (NativeJson, RuntimeManifest, TestMediaJson): both readers are total and
      exact, numbers follow the grammar; what is printed of a well-formed value without
      NUL bytes, nested at most 64 deep, parses back to it; the skipper of Test Media passes
      exactly one value of the grammar; and the registry manifest parses to the
      registry.
    - Targets (DeviceTopology, Device, Path, TestMediaDevice): the topology walk
      ends and is closed; a device found free was looked for in the mount table, as
      far as it could be read, and in the whole swap table; an opened object is the one
      inspected; a recovery directory is reached only through trusted components; only
      mounts of the selected disk are released.
    - Test Media (TestMediaCore, TestMediaRaw, TestMediaState, TestMediaWorker):
      the corpus is written at its planned addresses and verified bytewise; prepare
      writes nothing but what was confirmed, and its state file is read back by the
      other workers; qualify fails closed.
    - FAT fixtures (TestMediaFat): a created volume holds exactly the corpus, each file
      in two parts; the verification accepts exactly that; and it accepts what the
      creation made.
    - Behaviour that differs from what is meant is stated by theorems or lemmas too
      ([mount_check_blind_spots], [dump_cuts_at_nul], [journal_not_normal],
      [without_options_correct], [qualify_never_succeeds], [tuning_value_escapes],
      [stop_may_signal_reaped], [descendant_outlives_timeout], and in DesktopRaces [map_qualifies_other_volume],
      [completion_without_run] and [unmount_uses_replaced_volume]).

    ** Bounds and fuel

    Recursion follows the data where it can.  The loops that do not have fuel
    taken from what they consume: [fgets_lines], [json_skip_value],
    [field_loop], [string_loop], [array_loop] and [object_loop] the length of
    their text, each step using at least one byte ([skip_value_total],
    [parse_total_well_formed]); [parse_value] the nesting limit of the code (65
    levels); [collect_related_from] the capacity of its table, each round one entry
    ([related_walk_closed]); [visit] the depth of its tree; the retry loops of
    Test Media (unmount, settle, format) the attempt limits of the code.  The fsync
    retry, unbounded in the code, is proved for every number of interruptions
    ([sync_fd_retries_interruptions]).
    Step relations need no fuel: a run is any finite sequence of steps.  The counter of
    requests of the desktop, a 32-bit [int], is a [Z]: it would take 2^31 requests in
    one session to leave it, and the theorem that needs the bound states it.

    ** Not modelled

    run_process and capture_process of the test-media worker are pipes and polling;
    their callers, as those of ProcessRunner, take what they give from the
    environment.  What the interfaces draw: the widgets, captions, themes
    and log of [native/desktop.cpp], [native/desktop_map_render.cpp], and
    [test_media_gui.c] with its command line.  The
    headers of the module interfaces declare what a module is given; the format
    modules are not in the repository, and the test-media adapters of the formats
    other than FAT are not modelled.  The C core's start-up, output and stop flag ([ld_runtime.c], [ld_protocol.c],
    [ld_stop.c]) hold no state the rest depends on.  Parameters: SHA-256 ([Sha256]),
    the double arithmetic of the maps ([Doubles], [Rounding]), the expression that
    reads a percentage, the text of an error number, the version of the program,
    and what GLib and the kernel answer.  [Json::real] is outside. *)
From Stdlib Require Export ZArith Lia Bool Ascii String.
From stdpp Require Export base list decidable option numbers tactics.

#[global] Open Scope Z_scope.

(** ** Machine integers

    An unsigned integer of [w] bits is a [Z] in [0, 2^w).  The literals are
    notations, so that [lia] sees them. *)

Declare Scope defrag_scope.
Delimit Scope defrag_scope with defrag.

Abbreviation TWO8 := 256%Z.
Abbreviation TWO32 := 4294967296%Z.
Abbreviation TWO64 := 18446744073709551616%Z.
Abbreviation UINT64_MAX := 18446744073709551615%Z.
Abbreviation UINT32_MAX := 4294967295%Z.
Abbreviation SIZE_MAX := 18446744073709551615%Z.
Abbreviation SSIZE_MAX := 9223372036854775807%Z.
Abbreviation INT64_MAX := 9223372036854775807%Z.

(** Wrap-around of an unsigned computation. *)
Definition u64 (x : Z) : Z := x mod TWO64.
Definition u32 (x : Z) : Z := x mod TWO32.
Definition u8 (x : Z) : Z := x mod TWO8.

Notation "x +64 y" := (u64 (x + y)) (at level 50, left associativity) : defrag_scope.
Notation "x -64 y" := (u64 (x - y)) (at level 50, left associativity) : defrag_scope.
Notation "x *64 y" := (u64 (x * y)) (at level 40, left associativity) : defrag_scope.
#[global] Open Scope defrag_scope.

(** The range predicate of each width. *)
Definition is_u64 (x : Z) : Prop := 0 <= x < TWO64.
Definition is_u32 (x : Z) : Prop := 0 <= x < TWO32.
Definition is_u8 (x : Z) : Prop := 0 <= x < TWO8.

#[export] Instance is_u64_dec x : Decision (is_u64 x).
Proof. unfold is_u64. apply _. Defined.
#[export] Instance is_u32_dec x : Decision (is_u32 x).
Proof. unfold is_u32. apply _. Defined.
#[export] Instance is_u8_dec x : Decision (is_u8 x).
Proof. unfold is_u8. apply _. Defined.

Create HintDb defrag.

Lemma u64_small x : is_u64 x -> u64 x = x.
Proof. unfold is_u64, u64. intros. by apply Z.mod_small. Qed.

Lemma u64_range x : is_u64 (u64 x).
Proof. unfold is_u64, u64. apply Z.mod_pos_bound. lia. Qed.

Lemma u32_small x : is_u32 x -> u32 x = x.
Proof. unfold is_u32, u32. intros. by apply Z.mod_small. Qed.

Lemma u32_range x : is_u32 (u32 x).
Proof. unfold is_u32, u32. apply Z.mod_pos_bound. lia. Qed.

Lemma u8_small x : is_u8 x -> u8 x = x.
Proof. unfold is_u8, u8. intros. by apply Z.mod_small. Qed.

Lemma u8_range x : is_u8 (u8 x).
Proof. unfold is_u8, u8. apply Z.mod_pos_bound. lia. Qed.

#[export] Hint Resolve u64_range u32_range u8_range : defrag.

(** Replace every wrapped computation that [lia] proves in range by the
    unwrapped one. *)
Ltac unwrap64 :=
  repeat match goal with
  | |- context [u64 ?x] => rewrite (u64_small x) by (unfold is_u64 in *; lia)
  | H : context [u64 ?x] |- _ =>
      rewrite (u64_small x) in H by (unfold is_u64 in *; lia)
  end.

(** Turn the boolean tests of the code into propositions. *)
Ltac breflect :=
  repeat match goal with
  | H : (_ && _) = true |- _ => apply andb_true_iff in H as [? ?]
  | H : (_ || _) = false |- _ => apply orb_false_iff in H as [? ?]
  | H : negb _ = true |- _ => apply negb_true_iff in H
  | H : negb _ = false |- _ => apply negb_false_iff in H
  | H : (_ =? _)%Z = true |- _ => apply Z.eqb_eq in H
  | H : (_ =? _)%Z = false |- _ => apply Z.eqb_neq in H
  | H : (_ <? _)%Z = true |- _ => apply Z.ltb_lt in H
  | H : (_ <? _)%Z = false |- _ => apply Z.ltb_ge in H
  | H : (_ <=? _)%Z = true |- _ => apply Z.leb_le in H
  | H : (_ <=? _)%Z = false |- _ => apply Z.leb_gt in H
  end.

(** Evaluate a decidable goal on concrete data. *)
Ltac vm_decide := apply (bool_decide_unpack _); vm_compute; exact I.

(** Case analysis on the innermost comparisons of the goal. *)
Ltac case_ltb :=
  repeat match goal with
  | |- context [if ?x <? ?y then _ else _] =>
      lazymatch x with
      | context [if _ then _ else _] => fail
      | _ => lazymatch y with
             | context [if _ then _ else _] => fail
             | _ => destruct (Z.ltb_spec x y)
             end
      end
  end.

(** C pointers that may be NULL. *)
Definition is_null {A} (p : option A) : bool :=
  match p with None => true | Some _ => false end.

(** ** Alignment *)

(** The least multiple of [a] that is at least [c]. *)
Definition align_up (c a : Z) : Z := c + (- c) mod a.

Lemma align_up_ge c a : 0 < a -> c <= align_up c a.
Proof. intros. unfold align_up. pose proof (Z.mod_pos_bound (- c) a). lia. Qed.

Lemma align_up_aligned c a : 0 < a -> align_up c a mod a = 0.
Proof.
  intros. unfold align_up.
  rewrite Zplus_mod_idemp_r. by replace (c + - c) with 0 by lia.
Qed.

Lemma align_up_least c a x : 0 < a -> c <= x -> x mod a = 0 -> align_up c a <= x.
Proof.
  intros Ha Hc Hx. unfold align_up.
  assert ((- c) mod a <= x - c); [|lia].
  assert (Hm : (x - c) mod a = (- c) mod a).
  { replace (x - c) with (- c + (x / a) * a).
    - by rewrite Z_mod_plus_full.
    - pose proof (Z_div_mod_eq_full x a). lia. }
  rewrite <- Hm. apply Z.mod_le; lia.
Qed.

Lemma align_up_mono c d a : 0 < a -> c <= d -> align_up c a <= align_up d a.
Proof.
  intros. apply align_up_least; [done| |by apply align_up_aligned].
  etrans; [eassumption|]. by apply align_up_ge.
Qed.

(** The padding the code computes from the remainder is the distance to
    [align_up]. *)
Lemma pad_align_up c a :
  0 < a -> (if c mod a =? 0 then 0 else a - c mod a) = align_up c a - c.
Proof.
  intros Ha. unfold align_up. destruct (Z.eqb_spec (c mod a) 0) as [E|E].
  - rewrite Z_mod_zero_opp_full; lia.
  - rewrite Z_mod_nz_opp_full; lia.
Qed.

#[export] Hint Resolve align_up_ge align_up_aligned align_up_least align_up_mono : defrag.

(** ** Lists as C arrays *)

(** [out[i] = x]: an in-range store; a store out of range is outside every
    theorem (undefined behaviour in C). *)
Lemma take_insert_S {A} (l : list A) i x :
  (i < length l)%nat -> take (S i) (<[i:=x]> l) = take i l ++ [x].
Proof.
  intros. rewrite (take_S_r _ _ x).
  - by rewrite take_insert_ge.
  - by apply list_lookup_insert_eq.
Qed.

Lemma drop_insert_S {A} (l : list A) i x :
  drop (S i) (<[i:=x]> l) = drop (S i) l.
Proof. apply drop_insert_lt. lia. Qed.

(** The array [o] after the stores [o[i..] = xs]. *)
Definition write_at {A} (i : nat) (xs o : list A) : list A :=
  take i o ++ xs ++ drop (i + length xs) o.

Lemma write_at_cons {A} i (x : A) xs o :
  (i < length o)%nat -> write_at (S i) xs (<[i:=x]> o) = write_at i (x :: xs) o.
Proof.
  intros H. unfold write_at. rewrite take_insert_S by done.
  rewrite <- app_assoc. simpl. do 3 f_equal.
  rewrite drop_insert_lt by lia. f_equal; lia.
Qed.

Lemma write_at_nil {A} i (o : list A) : write_at i [] o = o.
Proof. unfold write_at. simpl. by rewrite Nat.add_0_r, take_drop. Qed.

Lemma write_at_one {A} i (x : A) o :
  (i < length o)%nat -> <[i:=x]> o = write_at i [x] o.
Proof. intros. by rewrite <- write_at_cons, write_at_nil. Qed.

Lemma length_write_at {A} i (xs o : list A) :
  (i + length xs <= length o)%nat -> length (write_at i xs o) = length o.
Proof. intros. unfold write_at. rewrite !length_app, length_take, length_drop. lia. Qed.

(** The first element with a property is unique. *)
Lemma first_satisfying_unique {A} (P : A -> Prop) pre pre' x x' post post' :
  pre ++ x :: post = pre' ++ x' :: post' ->
  Forall (fun y => ~ P y) pre -> P x -> Forall (fun y => ~ P y) pre' -> P x' ->
  pre = pre' /\ x = x'.
Proof.
  revert pre'. induction pre as [|y pre IH]; intros [|y' pre'] E Hpre Hx Hpre' Hx';
    simpl in E; injection E as -> E.
  - done.
  - by apply Forall_cons_iff in Hpre' as [? _].
  - by apply Forall_cons_iff in Hpre as [? _].
  - apply Forall_cons_iff in Hpre as [_ Hpre], Hpre' as [_ Hpre'].
    by destruct (IH pre' E Hpre Hx Hpre' Hx') as [-> ->].
Qed.

Lemma sum_list_Z_nonneg (l : list Z) : Forall (fun x => 0 <= x) l -> 0 <= foldr Z.add 0 l.
Proof. induction 1; simpl; lia. Qed.
