(* ===== verification/Effects.v ===== *)
(** The effect monad of the development: programs that call the operating
    system or a component modelled elsewhere, the traces they produce, and the
    program logic in which their safety is proved. *)
From S2P Require Import Prelude.

(** ** Error numbers and results *)

(** The error numbers the code names; [Errno n] is any other one and [Enone]
    is errno 0. *)
Inductive errno :=
| Enone | EINVAL | EIO | ENAMETOOLONG | EOVERFLOW | ENODEV | ENOTBLK | ENOENT
| EBUSY | ESTALE | EPERM | ENOSPC | EINTR | EEXIST | ENOSYS | E2BIG | ENOMEM
| ETIMEDOUT | ECHILD | EAGAIN | ESRCH | Errno (n : Z).

#[export] Instance errno_eq_dec : EqDecision errno.
Proof. solve_decision. Defined.

(** A C function that returns -1 or false with errno set, or a value. *)
Inductive result (A : Type) :=
| Ok (a : A)
| Err (e : errno).
Arguments Ok {A} a.
Arguments Err {A} e.

Definition is_ok {A} (r : result A) : bool :=
  match r with Ok _ => true | Err _ => false end.

(** [errno == 0 ? fallback : errno] *)
Definition errno_or (e fallback : errno) : errno :=
  if decide (e = Enone) then fallback else e.

(** ** Programs

    [Ret] is a normal return, [Die] the process exit of [ld_die] and
    [ld_die_errno], [Vis e k] a call of the environment. *)

Inductive prog (E : Type -> Type) (A : Type) : Type :=
| Ret (a : A)
| Die (message : string)
| Vis {X : Type} (e : E X) (k : X -> prog E A).
Arguments Ret {E A} a.
Arguments Die {E A} message.
Arguments Vis {E A X} e k.

Fixpoint pbind {E A B} (p : prog E A) (f : A -> prog E B) : prog E B :=
  match p with
  | Ret a => f a
  | Die m => Die m
  | Vis e k => Vis e (fun x => pbind (k x) f)
  end.

Definition call {E X} (e : E X) : prog E X := Vis e Ret.

Declare Scope prog_scope.
Delimit Scope prog_scope with prog.
Bind Scope prog_scope with prog.

Notation "'let*' x ':=' p 'in' q" := (pbind p (fun x => q))
  (at level 10, x pattern, p at level 100, q at level 200, only parsing) : prog_scope.
Notation "p ';;;' q" := (pbind p (fun _ => q))
  (at level 199, right associativity) : prog_scope.
#[global] Open Scope prog_scope.

(** Bind of a result: an error is returned to the caller at once. *)
Definition rbind {E A B} (p : prog E (result A)) (f : A -> prog E (result B)) :
    prog E (result B) :=
  pbind p (fun r => match r with Ok a => f a | Err e => Ret (Err e) end).

Notation "'try*' x ':=' p 'in' q" := (rbind p (fun x => q))
  (at level 10, x pattern, p at level 100, q at level 200, only parsing) : prog_scope.

(** ** Traces *)

Inductive event (E : Type -> Type) : Type :=
| Event {X : Type} (e : E X) (x : X).
Arguments Event {E X} e x.

Inductive outcome (A : Type) :=
| Returned (a : A)
| Died (message : string).
Arguments Returned {A} a.
Arguments Died {A} message.

Section Runs.
  Context {E : Type -> Type} {A : Type}.

  (** [runs p t o]: with the answers recorded in [t], [p] ends in [o]. *)
Inductive runs : prog E A -> list (event E) -> outcome A -> Prop :=
  | runs_ret a : runs (Ret a) [] (Returned a)
  | runs_die m : runs (Die m) [] (Died m)
  | runs_vis X (e : E X) k x t o :
      runs (k x) t o -> runs (Vis e k) (Event e x :: t) o.

Lemma runs_inv p t o :
    runs p t o ->
    match p with
    | Ret a => t = [] /\ o = Returned a
    | Die m => t = [] /\ o = Died m
    | Vis e k => exists x t', t = Event e x :: t' /\ runs (k x) t' o
    end.
  Proof. destruct 1; eauto. Qed.

  (** A deterministic environment with a state of its own. *)
Fixpoint execute {S} (h : forall X, E X -> S -> X * S) (p : prog E A) (s : S) :
      outcome A * list (event E) :=
    match p with
    | Ret a => (Returned a, [])
    | Die m => (Died m, [])
    | Vis e k =>
        let '(x, s) := h _ e s in
        let '(o, t) := execute h (k x) s in
        (o, Event e x :: t)
    end.

Lemma execute_runs {S} (h : forall X, E X -> S -> X * S) p s :
    runs p (snd (execute h p s)) (fst (execute h p s)).
  Proof.
    revert s. induction p as [a|m|X e k IH]; intros s; simpl; try constructor.
    destruct (h X e s) as [x s'] eqn:Hh. specialize (IH x s').
    destruct (execute h (k x) s') as [o t]. by constructor.
  Qed.
End Runs.

(** ** The program logic

    [wp P Q p t]: continued after the trace [t], every call of [p] is allowed
    by [P] (which sees the history) and every end satisfies [Q]. *)

Section Wp.
  Context {E : Type -> Type}.
  Implicit Types (t : list (event E)).

Definition call_pred := list (event E) -> forall X, E X -> Prop.

Fixpoint wp {A} (P : call_pred) (Q : outcome A -> list (event E) -> Prop)
      (p : prog E A) (t : list (event E)) : Prop :=
    match p with
    | Ret a => Q (Returned a) t
    | Die m => Q (Died m) t
    | Vis e k => P t _ e /\ forall x, wp P Q (k x) (t ++ [Event e x])
    end.

Lemma wp_mono {A} (P P' : call_pred) (Q Q' : outcome A -> list (event E) -> Prop) p t :
    wp P Q p t ->
    (forall t X (e : E X), P t X e -> P' t X e) ->
    (forall o t, Q o t -> Q' o t) ->
    wp P' Q' p t.
  Proof.
    intros H HP HQ. revert t H. induction p as [a|m|X e k IH]; simpl; intros t H; auto.
    destruct H as [H1 H2]. split; auto.
  Qed.

Lemma wp_bind {A B} P (Q : outcome B -> list (event E) -> Prop) (p : prog E A) f t :
    wp P (fun o t => match o with Returned a => wp P Q (f a) t | Died m => Q (Died m) t end)
      p t ->
    wp P Q (pbind p f) t.
  Proof.
    revert t. induction p as [a|m|X e k IH]; simpl; intros t H; auto.
    destruct H as [H1 H2]. split; auto.
  Qed.

Lemma wp_and {A} P P' (Q Q' : outcome A -> list (event E) -> Prop) p t :
    wp P Q p t -> wp P' Q' p t ->
    wp (fun t X e => P t X e /\ P' t X e) (fun o t => Q o t /\ Q' o t) p t.
  Proof.
    revert t. induction p as [a|m|X e k IH]; simpl; intros t H H'; auto.
    destruct H, H'. auto.
  Qed.

Lemma wp_any {A} (p : prog E A) t : wp (fun _ _ _ => True) (fun _ _ => True) p t.
  Proof. revert t. induction p; simpl; auto. Qed.

  (** Soundness for traces: every call in a run is allowed after the calls
      before it, and the run ends as stated. *)
Lemma wp_runs {A} P (Q : outcome A -> list (event E) -> Prop) p t0 t o :
    wp P Q p t0 -> runs p t o ->
    Q o (t0 ++ t) /\
    forall pre X (e : E X) x post, t = pre ++ Event e x :: post -> P (t0 ++ pre) X e.
  Proof.
    intros H Hr. revert t0 H. induction Hr as [a|m|X e k x t o Hr IH];
      intros t0 H; simpl in H.
    - rewrite app_nil_r. split; [done|]. by intros [].
    - rewrite app_nil_r. split; [done|]. by intros [].
    - destruct H as [H1 H2]. destruct (IH _ (H2 x)) as [IH1 IH2].
      rewrite <- app_assoc in IH1. split; [done|].
      intros [|ev pre] Y e' y post Heq; simpl in Heq.
      + rewrite app_nil_r.
        assert (H1' : match Event e x :: t with
          | Event e0 _ :: _ => P t0 _ e0 | [] => True end) by exact H1.
        by rewrite Heq in H1'.
      + pose proof (f_equal (hd ev) Heq) as Hev. pose proof (f_equal tail Heq) as Ht.
        simpl in Hev, Ht. rewrite <- Hev. specialize (IH2 pre _ _ _ _ Ht).
        by rewrite <- app_assoc in IH2.
  Qed.
End Wp.

#[export] Hint Resolve wp_mono : defrag.

(** ** Layers

    [interp h p] replaces every call of [p] by the program that implements it
    one layer down. *)
Fixpoint interp {E F A} (h : forall X, E X -> prog F X) (p : prog E A) : prog F A :=
  match p with
  | Ret a => Ret a
  | Die m => Die m
  | Vis e k => pbind (h _ e) (fun x => interp h (k x))
  end.

(** A simulation of the calls carries a safety proof down a layer. *)
Lemma interp_wp {E F A} (h : forall X, E X -> prog F X) (PE : call_pred (E := E))
    (PF : call_pred (E := F)) (Q : outcome A -> Prop) (p : prog E A) te tf :
  (forall te tf X (e : E X), PE te X e ->
    wp PF (fun o _ => match o with Returned _ => True | Died m => Q (Died m) end) (h X e) tf) ->
  wp PE (fun o _ => Q o) p te -> wp PF (fun o _ => Q o) (interp h p) tf.
Proof.
  intros Hh. revert te tf. induction p as [a|m|X e k IH]; simpl; intros te tf H; auto.
  destruct H as [H1 H2]. apply wp_bind. eapply wp_mono; [by apply (Hh te)|done|].
  intros [x|m] t; simpl; [|done]. intros _. by eapply IH.
Qed.

(** Runs of a sequence. *)
Lemma pbind_runs {E A B} (p : prog E A) (f : A -> prog E B) t o :
  runs (pbind p f) t o ->
  (exists m, runs p t (Died m) /\ o = Died m) \/
  (exists a t1 t2, t = t1 ++ t2 /\ runs p t1 (Returned a) /\ runs (f a) t2 o).
Proof.
  revert t. induction p as [a|m|X e k IH]; simpl; intros t H.
  - right. exists a, [], t. repeat split; [constructor|done].
  - apply runs_inv in H as [-> ->]. left. exists m. split; [constructor|done].
  - apply runs_inv in H as (x & t' & -> & H).
    apply IH in H as [(m & H & ->)|(a & t1 & t2 & -> & H1 & H2)].
    + left. exists m. split; [by constructor|done].
    + right. exists a, (Event e x :: t1), t2. repeat split; [by constructor|done].
Qed.

Lemma runs_bind {E A B} (p : prog E A) (f : A -> prog E B) t1 t2 a o :
  runs p t1 (Returned a) -> runs (f a) t2 o -> runs (pbind p f) (t1 ++ t2) o.
Proof.
  revert t1. induction p as [b|m|X e k IH]; simpl; intros t1 H1 H2.
  - by apply runs_inv in H1 as [-> [= ->]].
  - by apply runs_inv in H1 as [_ ?].
  - apply runs_inv in H1 as (x & t' & -> & H1). constructor. eauto.
Qed.

Lemma rbind_runs {E A B} (p : prog E (result A)) (f : A -> prog E (result B)) t o :
  runs (rbind p f) t o ->
  (exists m, runs p t (Died m) /\ o = Died m) \/
  (exists e, runs p t (Returned (Err e)) /\ o = Returned (Err e)) \/
  (exists a t1 t2, t = t1 ++ t2 /\ runs p t1 (Returned (Ok a)) /\ runs (f a) t2 o).
Proof.
  intros H. apply pbind_runs in H as [?|([a|e] & t1 & t2 & -> & H1 & H2)]; [by left|right..].
  - right. eauto 10.
  - left. apply runs_inv in H2 as [-> ->]. rewrite app_nil_r. eauto.
Qed.

Lemma call_runs {E X} (e : E X) t o :
  runs (call e) t o -> exists x, t = [Event e x] /\ o = Returned x.
Proof.
  intros H. apply runs_inv in H as (x & t' & -> & H). apply runs_inv in H as [-> ->]. eauto.
Qed.

(** ** The calls of a program

    [calls_in P p]: every call [p] can make satisfies [P], whatever the
    answers. *)
Fixpoint calls_in {E A} (P : forall X, E X -> Prop) (p : prog E A) : Prop :=
  match p with
  | Ret _ | Die _ => True
  | Vis e k => P _ e /\ forall x, calls_in P (k x)
  end.

Lemma calls_bind {E A B} (P : forall X, E X -> Prop) (p : prog E A) (f : A -> prog E B) :
  calls_in P p -> (forall a, calls_in P (f a)) -> calls_in P (pbind p f).
Proof.
  intros Hp Hf. induction p as [a|m|X e k IH]; simpl in *; auto.
  destruct Hp as [H1 H2]. split; auto.
Qed.

Lemma calls_rbind {E A B} (P : forall X, E X -> Prop) (p : prog E (result A)) (f : A -> prog E (result B)) :
  calls_in P p -> (forall a, calls_in P (f a)) -> calls_in P (rbind p f).
Proof. intros Hp Hf. apply calls_bind; [done|]. intros [a|e]; simpl; auto. Qed.

Lemma calls_runs {E A} (P : forall X, E X -> Prop) (p : prog E A) t o :
  calls_in P p -> runs p t o -> Forall (fun ev => match ev with Event e _ => P _ e end) t.
Proof.
  intros Hc Hr. induction Hr as [| |X e k x t o Hr IH]; simpl in Hc;
  [constructor..|]. destruct Hc. constructor; auto.
Qed.

Lemma calls_impl {E A} (P Q : forall X, E X -> Prop) (p : prog E A) :
  (forall X (e : E X), P X e -> Q X e) -> calls_in P p -> calls_in Q p.
Proof. intros H. induction p as [a|m|X e k IH]; simpl; [done..|]. intros [H1 H2]. auto. Qed.

Create HintDb calls.

(** Walk a program's structure; the loops come from the hint database. *)
Ltac calls_step :=
  match goal with
  | |- calls_in _ (Ret _) => exact I
  | |- calls_in _ (Die _) => exact I
  | |- calls_in _ (call _) => split; [exact I|intros; exact I]
  | |- calls_in _ (pbind _ _) => apply calls_bind; [|intros ?]
  | |- calls_in _ (rbind _ _) => apply calls_rbind; [|intros ?]
  | |- calls_in _ (let '_ := ?x in _) => destruct x
  | |- calls_in _ (match ?x with _ => _ end) => destruct x
  | |- calls_in _ (if ?x then _ else _) => destruct x
  | |- _ => solve [auto with calls nocore]
  end.
Ltac calls := repeat (cbv zeta; calls_step).

(** The answer of a program is in a set, whatever the calls answer. *)
Fixpoint returns {E A} (P : A -> Prop) (p : prog E A) : Prop :=
  match p with
  | Ret a => P a
  | Die _ => True
  | Vis e k => forall x, returns P (k x)
  end.

Lemma returns_bind {E A B} (P : B -> Prop) (Q : A -> Prop) (p : prog E A) (f : A -> prog E B) :
  returns Q p -> (forall a, Q a -> returns P (f a)) -> returns P (pbind p f).
Proof. intros Hp Hf. induction p as [a|m|X e k IH]; simpl in *; auto. Qed.

Lemma returns_bind_any {E A B} (P : B -> Prop) (p : prog E A) (f : A -> prog E B) :
  (forall a, returns P (f a)) -> returns P (pbind p f).
Proof. intros Hf. induction p as [a|m|X e k IH]; simpl in *; auto. Qed.

Lemma returns_runs {E A} (P : A -> Prop) (p : prog E A) t a :
  returns P p -> runs p t (Returned a) -> P a.
Proof.
  intros Hp Hr. remember (Returned a) as o eqn:Ho. induction Hr as [b| |X e k x t o Hr IH]; simpl in *.
  - by injection Ho as ->.
  - done.
  - by apply IH.
Qed.

Lemma returns_impl {E A} (P Q : A -> Prop) (p : prog E A) :
  (forall a, P a -> Q a) -> returns P p -> returns Q p.
Proof. intros H. induction p as [a|m|X e k IH]; simpl; auto. Qed.

(** Case analysis of a program whose answer is to be in a set. *)
Ltac returns_step :=
  match goal with
  | |- returns _ (Ret _) => cbn [returns]
  | |- returns _ (Die _) => exact I
  | |- returns _ (pbind _ _) => apply returns_bind_any; intros ?
  | |- returns _ (match ?x with _ => _ end) => destruct x
  | |- returns _ (if ?x then _ else _) => destruct x
  end.

(** Safety from the calls a program can make and the runs it can have. *)
Lemma wp_of_runs {E A} (P : call_pred (E := E)) (Q : outcome A -> list (event E) -> Prop)
    (p : prog E A) t :
  calls_in (fun X e => forall t, P t X e) p ->
  (forall t' o, runs p t' o -> Q o (t ++ t')) ->
  wp P Q p t.
Proof.
  revert t. induction p as [a|m|X e k IH]; intros t Hc HQ; simpl in *.
  - rewrite <- (app_nil_r t). apply HQ. constructor.
  - rewrite <- (app_nil_r t). apply HQ. constructor.
  - destruct Hc as [H1 H2]. split; [done|]. intros x. apply IH; [done|].
    intros t' o Hr. rewrite <- app_assoc. apply HQ. by constructor.
Qed.

(** The calls of an interpreted program are those of the handler. *)
Lemma calls_interp {E F A} (h : forall X, E X -> prog F X) (P : forall X, F X -> Prop)
    (p : prog E A) :
  (forall X (e : E X), calls_in P (h X e)) -> calls_in P (interp h p).
Proof.
  intros Hh. induction p as [a|m|X e k IH]; simpl; auto. apply calls_bind; auto.
Qed.

Lemma runs_bind_died {E A B} (p : prog E A) (f : A -> prog E B) t m :
  runs p t (Died m) -> runs (pbind p f) t (Died m).
Proof.
  revert t. induction p as [b|m'|X e k IH]; simpl; intros t H.
  - by apply runs_inv in H as [_ ?].
  - apply runs_inv in H as [-> [= ->]]. constructor.
  - apply runs_inv in H as (x & t' & -> & H). constructor. eauto.
Qed.

(** The runs of an interpreted sequence are sequences of interpreted runs. *)
Lemma interp_bind_runs {E F A B} (h : forall X, E X -> prog F X) (p : prog E A) (f : A -> prog E B) t o :
  runs (interp h (pbind p f)) t o ->
  (exists m, runs (interp h p) t (Died m) /\ o = Died m) \/
  (exists a t1 t2, t = t1 ++ t2 /\ runs (interp h p) t1 (Returned a) /\ runs (interp h (f a)) t2 o).
Proof.
  revert t. induction p as [a|m|X e k IH]; simpl; intros t H.
  - right. exists a, [], t. repeat split; [constructor|done].
  - apply runs_inv in H as [-> ->]. left. exists m. split; [constructor|done].
  - apply pbind_runs in H as [(m & H & ->)|(x & t1 & t2 & -> & H1 & H2)].
    + left. exists m. split; [by apply runs_bind_died|done].
    + apply IH in H2 as [(m & H2 & ->)|(a & u1 & u2 & -> & H3 & H4)].
      * left. exists m. split; [by eapply runs_bind|done].
      * right. exists a, (t1 ++ u1), u2. rewrite <- app_assoc.
        repeat split; [by eapply runs_bind|done].
Qed.

(** Calls of a known kind, allowed by any history that extends the present one. *)
Lemma wp_calls {E A} (C : forall X, E X -> Prop) (P : call_pred (E := E)) (p : prog E A) t :
  calls_in C p -> (forall t' X (e : E X), C X e -> P (t ++ t') X e) -> wp P (fun _ _ => True) p t.
Proof.
  revert t. induction p as [a|m|X e k IH]; intros t Hc HP; simpl in *; [done..|]. destruct Hc as [H1 H2]. split.
  - specialize (HP [] X e H1). by rewrite app_nil_r in HP.
  - intros x. apply IH; [done|]. intros t' Y e' He'. rewrite <- app_assoc. by apply HP.
Qed.

(** A fact about the answers of a program is one about its ends. *)
Lemma wp_returns {E A} (Q : A -> Prop) (p : prog E A) t :
  returns Q p -> wp (fun _ _ _ => True) (fun o _ => match o with Returned a => Q a | Died _ => True end) p t.
Proof. revert t. induction p as [a|m|X e k IH]; intros t H; simpl in *; auto. Qed.

(** A measure of the trace that the calls of a program leave alone. *)
Lemma wp_measure {E A B} (C : forall X, E X -> Prop) (m : list (event E) -> B) (p : prog E A) t b :
  (forall t X (e : E X) x, C X e -> m (t ++ [Event e x]) = m t) -> calls_in C p -> m t = b ->
  wp (fun _ _ _ => True) (fun o t => match o with Returned _ => m t = b | Died _ => True end) p t.
Proof.
  intros Hm. revert t. induction p as [a|w|X e k IH]; intros t Hc Hb; simpl in *; [done..|].
  destruct Hc as [H1 H2]. split; [done|]. intros x. apply IH; [done|]. by rewrite Hm.
Qed.
