(* ===== verification/CString.v ===== *)
(** C strings and the [<string.h>], [<ctype.h>] and [snprintf] behaviour the
    code relies on.  A C string is a [string] without NUL; a [char *] cursor is
    the suffix it points at. *)
From S2P Require Import Prelude.
From Stdlib Require Import DecimalString DecimalN.

#[global] Open Scope string_scope.
#[global] Open Scope list_scope.
#[global] Open Scope Z_scope.

(** ** Characters *)

Definition code (c : ascii) : Z := Z.of_N (N_of_ascii c).
Definition chr (z : Z) : ascii := ascii_of_N (Z.to_N z).

Definition NUL : ascii := chr 0.
Definition TAB : ascii := chr 9.
Definition LF : ascii := chr 10.
Definition CR : ascii := chr 13.
Definition QUOTE : ascii := chr 34.
Definition BACKSLASH : ascii := chr 92.

Lemma code_range c : 0 <= code c < 256.
Proof.
  unfold code. pose proof (N_ascii_bounded c). lia.
Qed.

Lemma chr_code c : chr (code c) = c.
Proof. unfold chr, code. rewrite N2Z.id. apply ascii_N_embedding. Qed.

Lemma code_chr z : 0 <= z < 256 -> code (chr z) = z.
Proof.
  intros. unfold chr, code. rewrite N_ascii_embedding by lia. lia.
Qed.

Lemma code_inj c d : code c = code d -> c = d.
Proof. intros H. by rewrite <- (chr_code c), <- (chr_code d), H. Qed.

Definition isdigit (c : ascii) : bool := (48 <=? code c) && (code c <=? 57).
Definition isxdigit (c : ascii) : bool :=
  isdigit c || ((97 <=? code c) && (code c <=? 102)) ||
  ((65 <=? code c) && (code c <=? 70)).
Definition isspace (c : ascii) : bool :=
  (code c =? 32) || ((9 <=? code c) && (code c <=? 13)).
Definition isoctal (c : ascii) : bool := (48 <=? code c) && (code c <=? 55).
Definition tolower (c : ascii) : ascii :=
  if (65 <=? code c) && (code c <=? 90) then chr (code c + 32) else c.

#[export] Instance ascii_eq_dec : EqDecision ascii := ascii_dec.
#[export] Instance string_eq_decision : EqDecision string := string_dec.

(** A fact about one character, decided over all of them. *)
Lemma ascii_forall (P : ascii -> bool) :
  forallb P (map (fun n => chr (Z.of_nat n)) (List.seq 0 256)) = true ->
  forall c, P c = true.
Proof.
  intros H c. rewrite forallb_forall in H. apply H.
  apply in_map_iff. exists (Z.to_nat (code c)).
  pose proof (code_range c). split.
  - rewrite Z2Nat.id by lia. apply chr_code.
  - apply in_seq. lia.
Qed.

(** ** Strings *)

Definition strlen (s : string) : Z := Z.of_nat (String.length s).

(** [*s], the NUL at the end included. *)
Definition head_char (s : string) : ascii :=
  match s with EmptyString => NUL | String c _ => c end.

Definition is_empty (s : string) : bool :=
  match s with EmptyString => true | _ => false end.

(** [strchr]: what precedes the first [c] and what follows it. *)
Fixpoint split_char (c : ascii) (s : string) : option (string * string) :=
  match s with
  | EmptyString => None
  | String d s' =>
      if ascii_dec d c then Some (EmptyString, s')
      else match split_char c s' with
           | Some (before, after) => Some (String d before, after)
           | None => None
           end
  end.

(** [strrchr]: what precedes the last [c] and what follows it. *)
Fixpoint rsplit_char (c : ascii) (s : string) : option (string * string) :=
  match s with
  | EmptyString => None
  | String d s' =>
      match rsplit_char c s' with
      | Some (before, after) => Some (String d before, after)
      | None => if ascii_dec d c then Some (EmptyString, s') else None
      end
  end.

Fixpoint has_char (c : ascii) (s : string) : bool :=
  match s with
  | EmptyString => false
  | String d s' => if ascii_dec d c then true else has_char c s'
  end.

(** [strstr]: the suffix that starts with the first occurrence. *)
Fixpoint strstr (s needle : string) : option string :=
  if String.prefix needle s then Some s
  else match s with EmptyString => None | String _ s' => strstr s' needle end.

Fixpoint forall_char (P : ascii -> bool) (s : string) : bool :=
  match s with EmptyString => true | String c s' => P c && forall_char P s' end.

Fixpoint map_char (f : ascii -> ascii) (s : string) : string :=
  match s with EmptyString => EmptyString | String c s' => String (f c) (map_char f s') end.

(** The fields of [s] between single delimiters, as repeated [strchr] finds
    them. *)
Fixpoint fields_on (c : ascii) (s : string) : list string :=
  match s with
  | EmptyString => [EmptyString]
  | String d s' =>
      if ascii_dec d c then EmptyString :: fields_on c s'
      else match fields_on c s' with
           | f :: fs => String d f :: fs
           | [] => [String d EmptyString]
           end
  end.

(** The tokens [strtok_r] yields for one delimiter: the non-empty fields. *)
Definition strtok (c : ascii) (s : string) : list string :=
  List.filter (fun f => negb (is_empty f)) (fields_on c s).

(** The C string that starts a buffer: it ends before the first NUL. *)
Fixpoint cut_nul (s : string) : string :=
  match s with
  | EmptyString => EmptyString
  | String c s => if ascii_dec c NUL then EmptyString else String c (cut_nul s)
  end.

(** ** Numbers *)

(** [%u], [%llu], [PRIu64]. *)
Definition utoa (n : Z) : string := NilZero.string_of_uint (N.to_uint (Z.to_N n)).

Lemma utoa_inj m n : 0 <= m -> 0 <= n -> utoa m = utoa n -> m = n.
Proof.
  intros Hm Hn H. unfold utoa in H.
  assert (Hnil : forall p, N.to_uint p <> Decimal.Nil).
  { intros p Hp. destruct p as [|p]; [done|].
    pose proof (DecimalPos.Unsigned.to_uint_nonnil p). done. }
  apply (f_equal NilZero.uint_of_string) in H.
  rewrite !NilZero.usu in H by done. injection H as H.
  apply DecimalN.Unsigned.to_uint_inj in H. lia.
Qed.

(** [%016x]-style output is not used; [snprintf(buffer, size, ...)] of a text
    stores it whole exactly when it fits with its terminator. *)
Definition fits (s : string) (size : Z) : bool := strlen s <? size.

(** What an [snprintf] of [s] leaves in a buffer of [size > 0] bytes. *)
Definition truncated (s : string) (size : Z) : string :=
  String.substring 0 (Z.to_nat (size - 1)) s.

(** ** Lemmas *)

Lemma strlen_app s t : strlen (s ++ t) = strlen s + strlen t.
Proof.
  unfold strlen. induction s; simpl; [done|]. lia.
Qed.

Lemma strlen_nonneg s : 0 <= strlen s.
Proof. unfold strlen. lia. Qed.

Lemma append_assoc (s t u : string) : ((s ++ t) ++ u = s ++ (t ++ u))%string.
Proof. induction s; simpl; [done|]. by rewrite IHs. Qed.

Lemma append_nil_r (s : string) : (s ++ "" = s)%string.
Proof. induction s; simpl; [done|]. by rewrite IHs. Qed.

Lemma append_inj_l (s t u : string) : (s ++ t = s ++ u)%string -> t = u.
Proof. induction s; simpl; [done|]. intros H. injection H. auto. Qed.

Lemma append_inj_r (s t u : string) : (s ++ u = t ++ u)%string -> s = t.
Proof.
  revert t. induction s as [|c s IH]; intros [|d t] H; simpl in H.
  - done.
  - apply (f_equal strlen) in H. change (String d (t ++ u)) with (String d t ++ u)%string in H.
    rewrite strlen_app in H. unfold strlen in H. simpl in H. lia.
  - apply (f_equal strlen) in H. change (String c (s ++ u)) with (String c s ++ u)%string in H.
    rewrite strlen_app in H. unfold strlen in H. simpl in H. lia.
  - injection H as -> H. f_equal. by apply IH.
Qed.

Lemma prefix_append (s t : string) : String.prefix s (s ++ t) = true.
Proof.
  induction s as [|c s IH]; simpl; [by destruct t|].
  destruct (ascii_dec c c); [done|done].
Qed.

Lemma prefix_inv (s t : string) : String.prefix s t = true -> exists u, t = (s ++ u)%string.
Proof.
  revert t. induction s as [|c s IH]; intros t; simpl; [by exists t|].
  destruct t as [|d t]; simpl; [done|]. destruct (ascii_dec c d) as [->|]; [|done].
  intros H. destruct (IH _ H) as [u ->]. by exists u.
Qed.

Lemma forall_char_app P s t :
  forall_char P (s ++ t) = forall_char P s && forall_char P t.
Proof. induction s; simpl; [done|]. by rewrite IHs, andb_assoc. Qed.

Lemma has_char_app c s t : has_char c (s ++ t) = has_char c s || has_char c t.
Proof. induction s; simpl; [done|]. destruct (ascii_dec _ _); simpl; auto. Qed.

Lemma split_char_app c s t :
  has_char c s = false -> split_char c (s ++ String c t) = Some (s, t).
Proof.
  induction s as [|d s IH]; simpl.
  - destruct (ascii_dec c c); done.
  - destruct (ascii_dec d c); [done|]. intros H. by rewrite IH.
Qed.

Lemma split_char_none c s : has_char c s = false -> split_char c s = None.
Proof.
  induction s as [|d s IH]; simpl; [done|].
  destruct (ascii_dec d c); [done|]. intros H. by rewrite IH.
Qed.

Lemma rsplit_char_app c s t :
  has_char c t = false -> rsplit_char c (s ++ String c t) = Some (s, t).
Proof.
  intros Ht. induction s as [|d s IH]; simpl.
  - assert (rsplit_char c t = None) as ->.
    { induction t as [|d t IH]; simpl in *; [done|].
      destruct (ascii_dec d c); [done|]. by rewrite IH. }
    destruct (ascii_dec c c); done.
  - by rewrite IH.
Qed.

Lemma fields_on_nonempty c s : fields_on c s <> [].
Proof. destruct s; simpl; [done|]. destruct (ascii_dec _ _); [done|]. by destruct (fields_on _ _). Qed.

Lemma fields_on_none c s : has_char c s = false -> fields_on c s = [s].
Proof.
  induction s as [|d s IH]; simpl; [done|].
  destruct (ascii_dec d c); [done|]. intros H. by rewrite IH.
Qed.

Lemma fields_on_app c s t :
  has_char c s = false -> fields_on c (s ++ String c t) = s :: fields_on c t.
Proof.
  induction s as [|d s IH]; simpl.
  - destruct (ascii_dec c c); done.
  - destruct (ascii_dec d c); [done|]. intros H. by rewrite IH.
Qed.

(** Decimal texts hold only digits. *)
Lemma utoa_digits n : forall_char isdigit (utoa n) = true.
Proof.
  assert (H : forall u, forall_char isdigit (NilEmpty.string_of_uint u) = true)
    by (induction u; simpl; done).
  unfold utoa, NilZero.string_of_uint.
  destruct (N.to_uint (Z.to_N n)) eqn:E; [done|..]; rewrite <- E; apply H.
Qed.

Lemma forall_char_has P c s : forall_char P s = true -> P c = false -> has_char c s = false.
Proof.
  intros Hs Hc. induction s as [|d s IH]; simpl in *; [done|].
  apply andb_true_iff in Hs as [Hd Hs]. destruct (ascii_dec d c); [congruence|auto].
Qed.

Lemma utoa_no_char c n : isdigit c = false -> has_char c (utoa n) = false.
Proof. intros. eapply forall_char_has; [apply utoa_digits|done]. Qed.

Lemma substring_all s : String.substring 0 (String.length s) s = s.
Proof. induction s as [|c s IH]; simpl; [done|]. by rewrite IH. Qed.

Lemma substring_app s t : String.substring 0 (String.length s) (s ++ t) = s.
Proof. induction s as [|c s IH]; simpl; [by destruct t|]. by rewrite IH. Qed.

Lemma substring_after s t : String.substring (String.length s) (String.length t) (s ++ t) = t.
Proof. induction s as [|c s IH]; simpl; [apply substring_all|done]. Qed.

Lemma cut_nul_none s : has_char NUL s = false -> cut_nul s = s.
Proof.
  induction s as [|c s IH]; simpl; [done|]. destruct (ascii_dec c NUL); [done|].
  intros H. by rewrite IH.
Qed.

Lemma utoa_nonempty n : utoa n <> EmptyString.
Proof.
  unfold utoa, DecimalString.NilZero.string_of_uint.
  destruct (N.to_uint (Z.to_N n)) eqn:E; simpl; done.
Qed.

Lemma head_append s r : s <> EmptyString -> head_char (s ++ r) = head_char s.
Proof. by destruct s. Qed.

Lemma utoa_head_digit n : isdigit (head_char (utoa n)) = true.
Proof.
  pose proof (utoa_digits n) as H. pose proof (utoa_nonempty n).
  destruct (utoa n); [done|]. cbn [forall_char] in H. by apply andb_true_iff in H as [? _].
Qed.

(** ** The order of [std::string] *)

Definition string_lt (s t : string) : Prop := String.compare s t = Lt.

Lemma string_compare_gt s t : String.compare s t = Gt <-> string_lt t s.
Proof. unfold string_lt. rewrite String.compare_antisym. by destruct (String.compare t s). Qed.

Lemma string_lt_trans s t u : string_lt s t -> string_lt t u -> string_lt s u.
Proof.
  unfold string_lt. revert t u. induction s as [|a s IH]; intros [|b t] [|c u]; simpl; try done.
  unfold Ascii.compare.
  destruct (N.compare_spec (N_of_ascii a) (N_of_ascii b)) as [Hab|Hab|Hab]; [| |done];
    destruct (N.compare_spec (N_of_ascii b) (N_of_ascii c)) as [Hbc|Hbc|Hbc]; try done; intros H1 H2.
  - rewrite Hab, Hbc, N.compare_refl. by apply (IH t).
  - by rewrite (proj2 (N.compare_lt_iff _ _)) by lia.
  - by rewrite (proj2 (N.compare_lt_iff _ _)) by lia.
  - by rewrite (proj2 (N.compare_lt_iff _ _)) by lia.
Qed.
