(* ===== verification/Infiltratr.v ===== *)
(** The pure functions of the Common library (the [infiltratr_*] calls, a git
    submodule whose sources are not in the repository), as an interface: a class
    of operations that the components take as parameter, a class of the laws
    the code relies on, and an instance that satisfies them. *)
From S2P Require Import Prelude CString.
From Stdlib Require Import DecimalString DecimalN.

(** Operations.  A [_checked] operation returns [None] where the C function
    returns false; a token parser returns the value and the cursor it leaves. *)
Class Infiltratr := {
  infiltratr_size_add_checked : Z -> Z -> option Z;
  infiltratr_u64_multiply_checked : Z -> Z -> option Z;
  infiltratr_string_starts_with : string -> string -> bool;
  infiltratr_parse_u64_token : string -> Z -> option (Z * string);
  infiltratr_parse_u64 : string -> Z -> option Z;
  infiltratr_path_basename : string -> string;
  infiltratr_path_concat : Z -> string -> string -> option string;
  infiltratr_path_join : Z -> string -> string -> option string;
  infiltratr_escape_json : string -> option string;
  infiltratr_trim_line_end : string -> string;
  infiltratr_trim : string -> string;
  infiltratr_copy_string : Z -> string -> string;
  infiltratr_utf8_encode_codepoint : Z -> option string;
}.

(** *** JSON string bodies (RFC 8259, section 7)

    [json_text utf8 body text]: what stands between the quotes of a JSON string
    denotes [text], code points above ASCII being encoded by [utf8]. *)
Definition hex_value (c : ascii) : Z :=
  if isdigit c then code c - 48
  else if (97 <=? code c) && (code c <=? 102) then code c - 87 else code c - 55.

Definition short_escape (c : ascii) : option ascii :=
  if ascii_dec c QUOTE then Some QUOTE
  else if ascii_dec c BACKSLASH then Some BACKSLASH
  else if ascii_dec c "/" then Some "/"%char
  else if ascii_dec c "b" then Some (chr 8)
  else if ascii_dec c "f" then Some (chr 12)
  else if ascii_dec c "n" then Some LF
  else if ascii_dec c "r" then Some CR
  else if ascii_dec c "t" then Some TAB
  else None.

(** The code unit [\uXXXX] names. *)
Inductive hex4 : string -> Z -> Prop :=
| hex4_intro a b c d :
    isxdigit a = true -> isxdigit b = true -> isxdigit c = true -> isxdigit d = true ->
    hex4 (String a (String b (String c (String d EmptyString))))
      (4096 * hex_value a + 256 * hex_value b + 16 * hex_value c + hex_value d).

Definition high_surrogate (u : Z) : bool := (55296 <=? u) && (u <=? 56319).
Definition low_surrogate (u : Z) : bool := (56320 <=? u) && (u <=? 57343).

Inductive json_text (utf8 : Z -> option string) : string -> string -> Prop :=
| json_text_nil : json_text utf8 EmptyString EmptyString
| json_text_plain c e s :
    32 <= code c -> c <> QUOTE -> c <> BACKSLASH -> json_text utf8 e s ->
    json_text utf8 (String c e) (String c s)
| json_text_short x c e s :
    short_escape x = Some c -> json_text utf8 e s ->
    json_text utf8 (String BACKSLASH (String x e)) (String c s)
| json_text_unit h u t e s :
    hex4 h u -> high_surrogate u = false -> low_surrogate u = false -> utf8 u = Some t ->
    json_text utf8 e s -> json_text utf8 (String BACKSLASH (String "u" (h ++ e))) (t ++ s)
| json_text_pair h u l v t e s :
    hex4 h u -> high_surrogate u = true -> hex4 l v -> low_surrogate v = true ->
    utf8 (65536 + (u - 55296) * 1024 + (v - 56320)) = Some t ->
    json_text utf8 e s ->
    json_text utf8
      (String BACKSLASH (String "u" (h ++ String BACKSLASH (String "u" (l ++ e))))) (t ++ s).

(** The digits a base-10 token starts with. *)
Fixpoint leading_digits (s : string) : string * string :=
  match s with
  | EmptyString => (EmptyString, EmptyString)
  | String c s' =>
      if isdigit c then let '(d, r) := leading_digits s' in (String c d, r)
      else (EmptyString, s)
  end.

Fixpoint decimal_value_from (acc : Z) (s : string) : Z :=
  match s with
  | EmptyString => acc
  | String c s' => decimal_value_from (10 * acc + (code c - 48)) s'
  end.

Definition decimal_value (s : string) : Z := decimal_value_from 0 s.

(** Laws, named after what the code relies on. *)
Class InfiltratrLaws (I : Infiltratr) := {
  size_add_spec a b : is_u64 a -> is_u64 b ->
    infiltratr_size_add_checked a b = if a + b <=? SIZE_MAX then Some (a + b) else None;
  multiply_spec a b : is_u64 a -> is_u64 b ->
    infiltratr_u64_multiply_checked a b =
      if a * b <=? UINT64_MAX then Some (a * b) else None;
  path_concat_spec size a b : infiltratr_path_concat size a b =
    if fits (a ++ b) size then Some (a ++ b)%string else None;
  copy_string_spec size s : 0 < size -> infiltratr_copy_string size s = truncated s size;
  starts_with_spec s p : infiltratr_string_starts_with s p = String.prefix p s;
  parse_token_digits s d r :
    leading_digits s = (d, r) -> d <> EmptyString ->
    infiltratr_parse_u64_token s 10 =
      if decimal_value d <=? UINT64_MAX then Some (decimal_value d, r) else None;
  parse_token_none s :
    isdigit (head_char s) = false -> infiltratr_parse_u64_token s 10 = None;
  escape_json_spec s e :
    has_char NUL s = false -> infiltratr_escape_json s = Some e ->
    json_text infiltratr_utf8_encode_codepoint e s;
}.

(** ** A reference instance *)

Definition basename_of (s : string) : string :=
  match rsplit_char "/"%char s with Some (_, t) => t | None => s end.

(** The control characters of the two-character escapes. *)
Definition control_letter (c : ascii) : option ascii :=
  if code c =? 8 then Some "b"%char
  else if code c =? 9 then Some "t"%char
  else if code c =? 10 then Some "n"%char
  else if code c =? 12 then Some "f"%char
  else if code c =? 13 then Some "r"%char
  else None.

Definition hex_letter (z : Z) : ascii := if z <? 10 then chr (z + 48) else chr (z + 87).

Definition escape_json_char (c : ascii) : string :=
  if bool_decide (c = QUOTE) || bool_decide (c = BACKSLASH) then String BACKSLASH (String c "")
  else match control_letter c with
       | Some x => String BACKSLASH (String x "")
       | None =>
           if code c <? 32 then
             String BACKSLASH (String "u" (String "0" (String "0"
               (String (hex_letter (code c / 16)) (String (hex_letter (code c mod 16)) "")))))
           else String c ""
       end.

Fixpoint escape_json_text (s : string) : string :=
  match s with EmptyString => EmptyString | String c s => escape_json_char c ++ escape_json_text s end.

Definition utf8_encode (cp : Z) : option string :=
  let tail k := String (chr (128 + (cp / k) mod 64)) in
  if (cp <? 0) || (1114111 <? cp) || high_surrogate cp || low_surrogate cp then None
  else if cp <? 128 then Some (String (chr cp) "")
  else if cp <? 2048 then Some (String (chr (192 + cp / 64)) (tail 1 ""))
  else if cp <? 65536 then Some (String (chr (224 + cp / 4096)) (tail 64 (tail 1 "")))
  else Some (String (chr (240 + cp / 262144)) (tail 4096 (tail 64 (tail 1 "")))).

Fixpoint strip_line_end (s : string) : string :=
  match s with
  | EmptyString => EmptyString
  | String c s' =>
      let r := strip_line_end s' in
      if is_empty r && (bool_decide (c = LF) || bool_decide (c = CR)) then EmptyString
      else String c r
  end.

(** Without the blanks at both ends. *)
Fixpoint strip_blanks_end (s : string) : string :=
  match s with
  | EmptyString => EmptyString
  | String c s' =>
      let r := strip_blanks_end s' in
      if is_empty r && isspace c then EmptyString else String c r
  end.

Fixpoint strip_blanks (s : string) : string :=
  match s with
  | EmptyString => EmptyString
  | String c s' => if isspace c then strip_blanks s' else strip_blanks_end s
  end.

#[export] Instance infiltratr_reference : Infiltratr := {
  infiltratr_size_add_checked a b := if a + b <=? SIZE_MAX then Some (a + b) else None;
  infiltratr_u64_multiply_checked a b :=
    if a * b <=? UINT64_MAX then Some (a * b) else None;
  infiltratr_string_starts_with s p := String.prefix p s;
  infiltratr_parse_u64_token s base :=
    let '(d, r) := leading_digits s in
    if is_empty d then None
    else if decimal_value d <=? UINT64_MAX then Some (decimal_value d, r) else None;
  infiltratr_parse_u64 s base :=
    if is_empty s || negb (forall_char isxdigit s) then None
    else Some (foldl (fun a c => base * a + hex_value c) 0 (list_ascii_of_string s));
  infiltratr_path_basename s := basename_of s;
  infiltratr_path_concat size a b :=
    let s := (a ++ b)%string in if fits s size then Some s else None;
  infiltratr_path_join size a b :=
    let s := (a ++ "/" ++ b)%string in if fits s size then Some s else None;
  infiltratr_escape_json s := Some (escape_json_text s);
  infiltratr_utf8_encode_codepoint := utf8_encode;
  infiltratr_trim_line_end s := strip_line_end s;
  infiltratr_trim s := strip_blanks s;
  infiltratr_copy_string size s := truncated s size;
}.

(** Facts about single characters, decided over all of them. *)
Definition letter_ok (c : ascii) : bool :=
  match control_letter c with
  | Some x => match short_escape x with Some d => code d =? code c | None => false end
  | None => true
  end.

Definition unit_ok (c : ascii) : bool :=
  if code c <? 32 then
    isxdigit (hex_letter (code c / 16)) && isxdigit (hex_letter (code c mod 16)) &&
    (16 * hex_value (hex_letter (code c / 16)) + hex_value (hex_letter (code c mod 16)) =? code c)
  else true.

Lemma letter_ok_all c : letter_ok c = true.
Proof. apply (ascii_forall letter_ok). vm_compute. done. Qed.

Lemma unit_ok_all c : unit_ok c = true.
Proof. apply (ascii_forall unit_ok). vm_compute. done. Qed.

Lemma escape_json_char_spec c e s :
  c <> NUL -> json_text utf8_encode e s ->
  json_text utf8_encode (escape_json_char c ++ e) (String c s).
Proof.
  intros Hc H. unfold escape_json_char. case_bool_decide as Hq; simpl.
  { subst. by apply json_text_short. }
  case_bool_decide as Hb; simpl.
  { subst. by apply json_text_short. }
  destruct (control_letter c) as [x|] eqn:Hx; simpl.
  { apply json_text_short; [|done].
    pose proof (letter_ok_all c) as E. unfold letter_ok in E. rewrite Hx in E.
    destruct (short_escape x) as [d|]; [|done]. breflect. f_equal. by apply code_inj. }
  destruct (code c <? 32) eqn:H32; simpl.
  - set (a := hex_letter (code c / 16)). set (b := hex_letter (code c mod 16)).
    pose proof (unit_ok_all c) as E. unfold unit_ok in E.
    rewrite H32 in E. breflect. pose proof (code_range c).
    apply (json_text_unit _ (String "0" (String "0" (String a (String b "")))) (code c) (String c "") e s);
      [|unfold high_surrogate, low_surrogate; lia..| |done].
    + assert (Hv : code c = 4096 * hex_value "0" + 256 * hex_value "0" + 16 * hex_value a + hex_value b)
        by (change (hex_value "0") with 0; unfold a, b; lia).
      rewrite Hv. by constructor.
    + unfold utf8_encode, high_surrogate, low_surrogate.
      rewrite (proj2 (Z.ltb_ge _ 0)), (proj2 (Z.ltb_ge 1114111 _)), (proj2 (Z.ltb_lt _ 128)) by lia.
      rewrite (proj2 (Z.leb_gt 55296 _)), (proj2 (Z.leb_gt 56320 _)) by lia. simpl. by rewrite chr_code.
  - breflect. by apply json_text_plain.
Qed.

Lemma escape_json_text_spec s :
  has_char NUL s = false -> json_text utf8_encode (escape_json_text s) s.
Proof.
  induction s as [|c s IH]; simpl; intros H; [constructor|].
  destruct (ascii_dec c NUL); [done|]. by apply escape_json_char_spec; [|apply IH].
Qed.

#[export] Instance infiltratr_reference_laws : InfiltratrLaws infiltratr_reference.
Proof.
  split; simpl; intros; try done.
  - rewrite H. destruct d; done.
  - destruct s as [|c s]; simpl in *; [done|]. by rewrite H.
  - injection H0 as <-. by apply escape_json_text_spec.
Qed.

(** ** Consequences of the laws *)

Lemma leading_digits_app d r :
  forall_char isdigit d = true -> isdigit (head_char r) = false ->
  leading_digits (d ++ r) = (d, r).
Proof.
  intros Hd Hr. induction d as [|c d IH]; simpl in *.
  - destruct r; simpl in *; [done|]. by rewrite Hr.
  - apply andb_true_iff in Hd as [-> Hd]. by rewrite (IH Hd).
Qed.

Lemma leading_digits_spec s :
  let '(d, r) := leading_digits s in
  s = (d ++ r)%string /\ forall_char isdigit d = true /\ isdigit (head_char r) = false.
Proof.
  induction s as [|c s IH]; simpl; [done|]. destruct (isdigit c) eqn:Hc; [|done].
  destruct (leading_digits s) as [d r]. destruct IH as (-> & Hd & Hr). simpl. by rewrite Hc.
Qed.

Lemma leading_digits_head s :
  isdigit (head_char s) = true -> fst (leading_digits s) <> EmptyString.
Proof.
  destruct s as [|c s]; [done|]. simpl. intros ->. by destruct (leading_digits s).
Qed.

(** Evaluate the codes of literal characters. *)
Ltac eval_code :=
  repeat match goal with
  | |- context [code ?c] => let v := eval vm_compute in (code c) in change (code c) with v
  end.

Lemma decimal_value_from_pos u p :
  decimal_value_from (Zpos p) (NilEmpty.string_of_uint u) = Zpos (Pos.of_uint_acc u p).
Proof.
  revert p. induction u; intros p;
    cbn [NilEmpty.string_of_uint decimal_value_from Pos.of_uint_acc]; [done|..];
    rewrite <- IHu; f_equal; eval_code; rewrite ?Pos2Z.inj_add, ?Pos2Z.inj_mul; ring.
Qed.

Lemma decimal_value_uint u :
  decimal_value (NilEmpty.string_of_uint u) = Z.of_N (Pos.of_uint u).
Proof.
  unfold decimal_value.
  induction u; cbn [NilEmpty.string_of_uint decimal_value_from Pos.of_uint]; [done|exact IHu|..];
    apply (decimal_value_from_pos u).
Qed.

Lemma decimal_value_utoa n : 0 <= n -> decimal_value (utoa n) = n.
Proof.
  intros Hn. unfold utoa, NilZero.string_of_uint.
  pose proof (DecimalN.Unsigned.of_to (Z.to_N n)) as H. unfold N.of_uint in H.
  destruct (N.to_uint (Z.to_N n)) eqn:E; rewrite <- E in *;
    [rewrite E in H; simpl in H; change (0 = n); lia|..];
    rewrite decimal_value_uint, H; lia.
Qed.

Section Laws.
  Context `{L : InfiltratrLaws}.

  (** A decimal text followed by a non-digit is one token. *)
Lemma parse_token_utoa n r :
    is_u64 n -> isdigit (head_char r) = false ->
    infiltratr_parse_u64_token (utoa n ++ r) 10 = Some (n, r).
  Proof.
    intros Hn Hr. rewrite (parse_token_digits _ (utoa n) r).
    - unfold is_u64 in *. rewrite decimal_value_utoa by lia.
      by rewrite (proj2 (Z.leb_le _ _)) by lia.
    - apply leading_digits_app; [apply utoa_digits|done].
    - unfold utoa, NilZero.string_of_uint.
      destruct (N.to_uint (Z.to_N n)) eqn:E; simpl; done.
  Qed.

Lemma starts_with_append p s : infiltratr_string_starts_with (p ++ s) p = true.
  Proof. rewrite starts_with_spec. apply prefix_append. Qed.

Lemma starts_with_inv s p :
    infiltratr_string_starts_with s p = true -> exists r, s = (p ++ r)%string.
  Proof. rewrite starts_with_spec. apply prefix_inv. Qed.
End Laws.
