(* ===== verification/Sys.v ===== *)
(** The operating-system interface of the C core: one effect per system call or
    I/O primitive of the Common library.  Every answer is arbitrary, and two
    calls with the same arguments may answer differently: the environment runs
    concurrently with the program. *)
From S2P Require Import Prelude Effects CString.

(** ** [struct stat] *)

Record stat := mkStat {
  st_mode : Z;
  st_dev : Z;
  st_ino : Z;
  st_rdev : Z;
  st_size : Z;
  st_uid : Z;
  st_nlink : Z;
}.

Definition S_IFMT : Z := 61440.
Definition S_IFDIR : Z := 16384.
Definition S_IFREG : Z := 32768.
Definition S_IFBLK : Z := 24576.
Definition S_ISVTX : Z := 512.
Definition S_IWGRP : Z := 16.
Definition S_IWOTH : Z := 2.

Definition S_ISDIR (m : Z) : bool := Z.land m S_IFMT =? S_IFDIR.
Definition S_ISREG (m : Z) : bool := Z.land m S_IFMT =? S_IFREG.
Definition S_ISBLK (m : Z) : bool := Z.land m S_IFMT =? S_IFBLK.

(** glibc's [makedev], [major] and [minor] on 64-bit device numbers. *)
Definition makedev (mj mn : Z) : Z :=
  Z.lor (Z.lor (Z.shiftl (Z.land mj 4095) 8) (Z.shiftl (Z.land mj 4294963200) 32))
        (Z.lor (Z.land mn 255) (Z.shiftl (Z.land mn 4294967040) 12)).
Definition major (d : Z) : Z :=
  Z.lor (Z.land (Z.shiftr d 8) 4095) (Z.land (Z.shiftr d 32) 4294963200).
Definition minor (d : Z) : Z :=
  Z.lor (Z.land d 255) (Z.land (Z.shiftr d 12) 4294967040).

Definition PATH_MAX : Z := 4096.

Inductive oflag :=
| O_RDONLY | O_WRONLY | O_RDWR | O_CREAT | O_EXCL | O_TRUNC | O_NOFOLLOW | O_CLOEXEC
| O_DIRECTORY | O_NONBLOCK.

#[export] Instance oflag_eq_dec : EqDecision oflag.
Proof. solve_decision. Defined.

Record statvfs := mkStatvfs { f_frsize : Z; f_bsize : Z; f_bavail : Z }.

(** [struct open_how.resolve] of the one [openat2] call. *)
Inductive resolve_flag := RESOLVE_BENEATH | RESOLVE_NO_SYMLINKS | RESOLVE_NO_MAGICLINKS.

Inductive sysE : Type -> Type :=
| Geteuid : sysE Z
| Stat (path : string) : sysE (result stat)
| Lstat (path : string) : sysE (result stat)
| Fstat (fd : Z) : sysE (result stat)
| Access (path : string) : sysE (result unit)
| Realpath (path : string) : sysE (result string)
| RealpathCopy (path : string) (size : Z) : sysE (result string)
| Open (path : string) (flags : list oflag) : sysE (result Z)
| Openat (dir : Z) (name : string) (flags : list oflag) : sysE (result Z)
| Openat2 (dir : Z) (name : string) (flags : list oflag) (resolve : list resolve_flag) :
    sysE (result Z)
| Mkdirat (dir : Z) (name : string) (mode : Z) : sysE (result unit)
| Close (fd : Z) : sysE (result unit)
| Flock (fd : Z) (exclusive : bool) : sysE (result unit)
| Fsync (fd : Z) : sysE (result unit)
| Ftruncate (fd : Z) (length : Z) : sysE (result unit)
| BlkGetSize64 (fd : Z) : sysE (result Z)
| Statvfs (path : string) : sysE (result statvfs)
| PreadFull (fd length offset : Z) : sysE (result (list Z))
| PwriteFull (fd : Z) (data : list Z) (offset : Z) : sysE (result unit)
(** [opendir]/[readdir]: the entry names, and the errno that ended the walk
    ([Enone] at the end of the directory). *)
| ReadDir (path : string) : sysE (result (list string * errno))
(** [fopen] and [getline]/[fgets]: the lines, and the errno of [ferror]. *)
| ReadLines (path : string) : sysE (result (list string * errno))
| ReadText (path : string) (size : Z) : sysE (result string)
| ReadU64 (path : string) : sysE (option Z)
| UnlinkDurable (path : string) : sysE (result unit)
| AtomicWrite (path : string) (data : list Z) : sysE (result unit)
| MemInfo : sysE (option (list (string * Z * string)))
| AvailablePages : sysE (Z * Z)
| OnlineCpus : sysE Z
| StderrWrite (text : string) : sysE unit.

Definition sys := prog sysE.

(** [ld_die_errno] and [ld_warn_errno]: the message names the failed step. *)
Definition ld_die_errno {A} (what : string) : sys A := Die what.
Definition ld_die {A} (message : string) : sys A := Die message.

(** The answer of a system where nothing exists. *)
Definition sys_default {X} (e : sysE X) : X :=
  match e in sysE X return X with
  | Geteuid => 0
  | Stat _ | Lstat _ | Fstat _ => Err ENOENT
  | Access _ => Err ENOENT
  | Realpath _ | RealpathCopy _ _ => Err ENOENT
  | Open _ _ | Openat _ _ _ | Openat2 _ _ _ _ => Err ENOENT
  | Mkdirat _ _ _ | Close _ | Flock _ _ | Fsync _ | Ftruncate _ _ => Err ENOENT
  | BlkGetSize64 _ => Err ENOENT
  | Statvfs _ => Err ENOENT
  | PreadFull _ _ _ => Err EIO
  | PwriteFull _ _ _ => Err EIO
  | ReadDir _ => Err ENOENT
  | ReadLines _ => Err ENOENT
  | ReadText _ _ => Err ENOENT
  | ReadU64 _ => None
  | UnlinkDurable _ | AtomicWrite _ _ => Err ENOENT
  | MemInfo => None
  | AvailablePages => (0, 0)
  | OnlineCpus => 1
  | StderrWrite _ => tt
  end.

(** ** Descriptors of a trace *)

(** The descriptors a trace opens and the ones it closes. *)
Definition fd_opened (ev : event sysE) : list Z :=
  match ev with
  | Event e x =>
      match e in sysE X return X -> list Z with
      | Open _ _ | Openat _ _ _ | Openat2 _ _ _ _ =>
          fun x => match x with Ok fd => [fd] | Err _ => [] end
      | _ => fun _ => []
      end x
  end.

Definition fd_closed (ev : event sysE) : list Z :=
  match ev with Event (Close fd) _ => [fd] | _ => [] end.

Definition fds_opened (t : list (event sysE)) : list Z := flat_map fd_opened t.
Definition fds_closed (t : list (event sysE)) : list Z := flat_map fd_closed t.

Lemma fds_opened_app t1 t2 : fds_opened (t1 ++ t2) = fds_opened t1 ++ fds_opened t2.
Proof. apply flat_map_app. Qed.
Lemma fds_closed_app t1 t2 : fds_closed (t1 ++ t2) = fds_closed t1 ++ fds_closed t2.
Proof. apply flat_map_app. Qed.

#[export] Hint Extern 0 (calls_in _ (ld_die_errno _)) => exact I : calls.
#[export] Hint Extern 0 (calls_in _ (ld_die _)) => exact I : calls.
