(* ===== verification/GenericLayout.v ===== *)
(** Placement policy of [src/defragger/src/core/ld_generic_layout.c]: the
    two-pass canonical layout planner and the single-file extent planner, with
    the reference placement they implement. *)
From S2P Require Import Prelude.

(** ** Data: the exchange structures of [native/filesystem_defrag_abi.h] *)

Record LdGenericLayoutObject := mkObject {
  object_id : Z;
  allocated_units : Z;
  alignment_units : Z;
  flags : Z;
}.

Record LdGenericLayoutPlacement := mkPlacement {
  p_object_id : Z;
  p_first_unit : Z;
  p_allocated_units : Z;
  p_gap_after_units : Z;
}.

Record LdGenericFreeExtent := mkFree {
  f_first_unit : Z;
  f_allocated_units : Z;
}.

Record LdGenericPlannedExtent := mkExtent {
  e_first_unit : Z;
  e_allocated_units : Z;
  e_gap_after_units : Z;
}.

(** The field widths of the structures. *)
Definition object_typed (o : LdGenericLayoutObject) : Prop :=
  is_u64 (object_id o) /\ is_u64 (allocated_units o) /\
  is_u64 (alignment_units o) /\ is_u32 (flags o).

Definition free_typed (r : LdGenericFreeExtent) : Prop :=
  is_u64 (f_first_unit r) /\ is_u64 (f_allocated_units r).

#[export] Instance object_typed_dec o : Decision (object_typed o).
Proof. unfold object_typed. apply _. Defined.
#[export] Instance free_typed_dec r : Decision (free_typed r).
Proof. unfold free_typed. apply _. Defined.

(** ** Status codes *)

Definition LD_LAYOUT_OK : Z := 0.
Definition LD_LAYOUT_INVALID : Z := -1.
Definition LD_LAYOUT_NO_SPACE : Z := -2.
Definition LD_LAYOUT_UNSUPPORTED : Z := -3.
Definition LD_LAYOUT_OUTPUT_TOO_SMALL : Z := -4.

(** ** The growth reserve *)

(** [reserve_units]: [inl] is a status other than OK, [inr] the reserve. *)
Definition reserve_units (units percent : Z) : Z + Z :=
  let whole := units / 100 in
  let remainder := units mod 100 in
  if UINT64_MAX / percent <? whole then inl LD_LAYOUT_INVALID
  else
    let first := whole *64 percent in
    let last := (remainder *64 percent +64 99) / 100 in
    if UINT64_MAX - last <? first then inl LD_LAYOUT_INVALID
    else inr (first +64 last).

(** [if (growth_percent != 0u && reserve_units(...) != LD_LAYOUT_OK) return
    LD_LAYOUT_INVALID;], the reserve starting at zero. *)
Definition growth_reserve (units growth_percent : Z) : option Z :=
  if growth_percent =? 0 then Some 0
  else match reserve_units units growth_percent with
       | inr reserve => Some reserve
       | inl _ => None
       end.

(** ** The canonical planner *)

(** The loop of [layout_pass] from position [index] on.  [out] is the output
    pointer: [None] for NULL, otherwise the array as it is at this point. *)
Fixpoint layout_pass_loop (objects : list LdGenericLayoutObject) (index : nat)
    (cursor previous_id limit_unit growth_percent : Z)
    (out : option (list LdGenericLayoutPlacement)) :
    Z * option (list LdGenericLayoutPlacement) :=
  match objects with
  | [] => (LD_LAYOUT_OK, out)
  | object :: rest =>
      if (object_id object =? 0) || (object_id object <=? previous_id) ||
         (allocated_units object =? 0) || (alignment_units object =? 0)
      then (LD_LAYOUT_INVALID, out)
      else if negb (flags object =? 0) then (LD_LAYOUT_UNSUPPORTED, out)
      else
        let remainder := cursor mod alignment_units object in
        let pad := if remainder =? 0 then 0
                   else alignment_units object -64 remainder in
        if (limit_unit <? cursor) || (limit_unit -64 cursor <? pad)
        then (LD_LAYOUT_NO_SPACE, out)
        else
          let cursor := cursor +64 pad in
          if limit_unit -64 cursor <? allocated_units object
          then (LD_LAYOUT_NO_SPACE, out)
          else match growth_reserve (allocated_units object) growth_percent with
          | None => (LD_LAYOUT_INVALID, out)
          | Some reserve =>
              let out := match out with
                | None => None
                | Some o => Some (<[index :=
                    mkPlacement (object_id object) cursor
                      (allocated_units object) reserve]> o)
                end in
              let cursor := cursor +64 allocated_units object in
              if limit_unit -64 cursor <? reserve
              then (LD_LAYOUT_NO_SPACE, out)
              else layout_pass_loop rest (S index) (cursor +64 reserve)
                     (object_id object) limit_unit growth_percent out
          end
  end.

Definition layout_pass (objects : list LdGenericLayoutObject) (count : nat)
    (first_unit limit_unit growth_percent : Z)
    (out : option (list LdGenericLayoutPlacement)) :=
  layout_pass_loop (take count objects) 0 first_unit 0 limit_unit
    growth_percent out.

(** [ld_generic_layout_plan]: the status and the output array afterwards.
    The [objects] and [placements] pointers may be NULL. *)
Definition ld_generic_layout_plan
    (objects : option (list LdGenericLayoutObject)) (count : nat)
    (first_unit limit_unit growth_percent : Z)
    (placements : option (list LdGenericLayoutPlacement)) :
    Z * option (list LdGenericLayoutPlacement) :=
  if (negb (Nat.eqb count 0) && (is_null objects || is_null placements)) ||
     (limit_unit <? first_unit) ||
     (negb (growth_percent =? 0) && negb (growth_percent =? 10))
  then (LD_LAYOUT_INVALID, placements)
  else
    let objs := default [] objects in
    let valid := fst (layout_pass objs count first_unit limit_unit
                        growth_percent None) in
    if negb (valid =? LD_LAYOUT_OK) then (valid, placements)
    else layout_pass objs count first_unit limit_unit growth_percent placements.

(** ** The file extent planner *)

Fixpoint check_free_ranges_loop (ranges : list LdGenericFreeExtent) (i : nat)
    (previous_end : Z) : Z :=
  match ranges with
  | [] => LD_LAYOUT_OK
  | r :: rest =>
      let first := f_first_unit r in
      let length := f_allocated_units r in
      if (length =? 0) || (UINT64_MAX - length <? first) ||
         (negb (Nat.eqb i 0) && (first <? previous_end))
      then LD_LAYOUT_INVALID
      else check_free_ranges_loop rest (S i) (first +64 length)
  end.

Definition check_free_ranges (ranges : list LdGenericFreeExtent) (count : nat) : Z :=
  check_free_ranges_loop (take count ranges) 0 0.

(** [usable_range]: the pair of the two out-parameters. *)
Definition usable_range (range : LdGenericFreeExtent) (alignment : Z) : Z * Z :=
  let modulo := f_first_unit range mod alignment in
  let padding := if modulo =? 0 then 0 else alignment -64 modulo in
  if f_allocated_units range <? padding
  then (f_first_unit range, 0)
  else (f_first_unit range +64 padding, f_allocated_units range -64 padding).

(** The first loop of [plan_file_extent_pass]: the earliest range that takes
    the whole file and its reserve. *)
Fixpoint single_fit (object : LdGenericLayoutObject)
    (free_extents : list LdGenericFreeExtent) (gap : Z) :
    option LdGenericPlannedExtent :=
  match free_extents with
  | [] => None
  | r :: rest =>
      let '(first, capacity) := usable_range r (alignment_units object) in
      if (allocated_units object <=? capacity) &&
         (gap <=? capacity -64 allocated_units object)
      then Some (mkExtent first (allocated_units object) gap)
      else single_fit object rest gap
  end.

(** [if (output) output[i] = x;] *)
Definition store {A} (output : option (list A)) (i : nat) (x : A) : option (list A) :=
  match output with None => None | Some o => Some (<[i := x]> o) end.

(** The second loop: [inl] is a failure status, [inr] the number of extents. *)
Fixpoint split_loop (object : LdGenericLayoutObject)
    (free_extents : list LdGenericFreeExtent) (gap remaining : Z) (count : nat)
    (output : option (list LdGenericPlannedExtent)) :
    (Z + nat) * option (list LdGenericPlannedExtent) :=
  match free_extents with
  | [] => (inl LD_LAYOUT_NO_SPACE, output)
  | r :: rest =>
      if remaining =? 0 then (inl LD_LAYOUT_NO_SPACE, output)
      else
        let '(first, capacity) := usable_range r (alignment_units object) in
        if capacity =? 0 then split_loop object rest gap remaining count output
        else
          let finish := (remaining <=? capacity) &&
                        (gap <=? capacity -64 remaining) in
          let take := if capacity <? remaining then capacity else remaining in
          let emit take :=
            if take =? 0 then split_loop object rest gap remaining count output
            else if Z.of_nat count =? SIZE_MAX
            then (inl LD_LAYOUT_INVALID, output)
            else
              let output := store output count
                (mkExtent first take (if finish then gap else 0)) in
              if finish then (inr (S count), output)
              else split_loop object rest gap (remaining -64 take) (S count) output in
          if negb finish && (take =? remaining)
          then if take =? 1 then split_loop object rest gap remaining count output
               else emit (take -64 1)
          else emit take
  end.

Definition plan_file_extent_pass (object : LdGenericLayoutObject)
    (free_extents : list LdGenericFreeExtent) (free_count : nat) (gap : Z)
    (output : option (list LdGenericPlannedExtent)) :
    (Z + nat) * option (list LdGenericPlannedExtent) :=
  match single_fit object (take free_count free_extents) gap with
  | Some e => (inr 1%nat, store output 0 e)
  | None => split_loop object (take free_count free_extents) gap
              (allocated_units object) 0 output
  end.

(** [ld_generic_layout_plan_file_extents]: the status, the output array and
    the written counter afterwards. *)
Definition ld_generic_layout_plan_file_extents
    (object : option LdGenericLayoutObject)
    (free_extents : option (list LdGenericFreeExtent)) (free_count : nat)
    (growth_percent : Z)
    (output : option (list LdGenericPlannedExtent)) (output_capacity : nat)
    (written : option nat) :
    Z * option (list LdGenericPlannedExtent) * option nat :=
  match object, written with
  | Some obj, Some _ =>
      if (negb (Nat.eqb free_count 0) && is_null free_extents) ||
         (negb (growth_percent =? 0) && negb (growth_percent =? 10)) ||
         (negb (Nat.eqb output_capacity 0) && is_null output) ||
         (object_id obj =? 0) || (allocated_units obj =? 0) ||
         (alignment_units obj =? 0)
      then (LD_LAYOUT_INVALID, output, written)
      else if negb (flags obj =? 0) then (LD_LAYOUT_UNSUPPORTED, output, written)
      else
        let ranges := default [] free_extents in
        if negb (check_free_ranges ranges free_count =? LD_LAYOUT_OK)
        then (LD_LAYOUT_INVALID, output, written)
        else match growth_reserve (allocated_units obj) growth_percent with
        | None => (LD_LAYOUT_INVALID, output, written)
        | Some gap =>
            match fst (plan_file_extent_pass obj ranges free_count gap None) with
            | inl first => (first, output, written)
            | inr required =>
                if Nat.ltb output_capacity required
                then (LD_LAYOUT_OUTPUT_TOO_SMALL, output, written)
                else match plan_file_extent_pass obj ranges free_count gap output with
                | (inr actual, output') =>
                    if negb (Nat.eqb actual required)
                    then (LD_LAYOUT_INVALID, output', written)
                    else (LD_LAYOUT_OK, output', Some required)
                | (inl _, output') => (LD_LAYOUT_INVALID, output', written)
                end
            end
        end
  | _, _ => (LD_LAYOUT_INVALID, output, written)
  end.

(** ** Reference definitions on unbounded integers *)

(** Ten percent (or any percentage), rounded up to whole units. *)
Definition reserve_of (growth_percent units : Z) : Z :=
  (units * growth_percent + 99) / 100.

Definition object_start (cursor : Z) (o : LdGenericLayoutObject) : Z :=
  align_up cursor (alignment_units o).

Definition object_end (growth cursor : Z) (o : LdGenericLayoutObject) : Z :=
  object_start cursor o + allocated_units o + reserve_of growth (allocated_units o).

(** The canonical placement: each object at the first aligned unit after the
    previous object and its reserve. *)
Fixpoint canonical (growth cursor : Z) (objs : list LdGenericLayoutObject) :
    list LdGenericLayoutPlacement :=
  match objs with
  | [] => []
  | o :: rest =>
      mkPlacement (object_id o) (object_start cursor o) (allocated_units o)
        (reserve_of growth (allocated_units o)) ::
      canonical growth (object_end growth cursor o) rest
  end.

Definition bad_object (previous_id : Z) (o : LdGenericLayoutObject) : bool :=
  (object_id o =? 0) || (object_id o <=? previous_id) ||
  (allocated_units o =? 0) || (alignment_units o =? 0).

(** The status the planner owes: the first object that is malformed,
    immovable or does not fit decides. *)
Fixpoint layout_status (growth limit cursor previous_id : Z)
    (objs : list LdGenericLayoutObject) : Z :=
  match objs with
  | [] => LD_LAYOUT_OK
  | o :: rest =>
      if bad_object previous_id o then LD_LAYOUT_INVALID
      else if negb (flags o =? 0) then LD_LAYOUT_UNSUPPORTED
      else if limit <? object_end growth cursor o then LD_LAYOUT_NO_SPACE
      else layout_status growth limit (object_end growth cursor o) (object_id o) rest
  end.

(** A layout of the objects, in order, inside [cursor, limit). *)
Inductive valid_layout (growth limit : Z) :
    Z -> list LdGenericLayoutObject -> list LdGenericLayoutPlacement -> Prop :=
| valid_layout_nil cursor : valid_layout growth limit cursor [] []
| valid_layout_cons cursor o objs p ps :
    p_object_id p = object_id o ->
    p_allocated_units p = allocated_units o ->
    p_gap_after_units p = reserve_of growth (allocated_units o) ->
    p_first_unit p mod alignment_units o = 0 ->
    cursor <= p_first_unit p ->
    p_first_unit p + p_allocated_units p + p_gap_after_units p <= limit ->
    valid_layout growth limit
      (p_first_unit p + p_allocated_units p + p_gap_after_units p) objs ps ->
    valid_layout growth limit cursor (o :: objs) (p :: ps).

(** ** The growth reserve *)

Lemma reserve_of_bounds growth units :
  0 <= growth <= 10 -> 0 <= units -> 0 <= reserve_of growth units <= units.
Proof.
  intros Hg Hu. unfold reserve_of. split.
  - apply Z.div_pos; nia.
  - apply Z.lt_succ_r, Z.div_lt_upper_bound; [lia|].
    destruct (Z.eq_dec units 0); nia.
Qed.

Lemma reserve_of_split growth units :
  reserve_of growth units =
  units / 100 * growth + (units mod 100 * growth + 99) / 100.
Proof.
  unfold reserve_of.
  replace (units * growth + 99)
    with ((units mod 100 * growth + 99) + (units / 100 * growth) * 100).
  - rewrite Z.div_add by lia. lia.
  - pose proof (Z_div_mod_eq_full units 100). nia.
Qed.

Lemma reserve_units_exact units percent :
  is_u64 units -> 0 < percent < TWO32 ->
  reserve_units units percent =
  if reserve_of percent units <=? UINT64_MAX then inr (reserve_of percent units)
  else inl LD_LAYOUT_INVALID.
Proof.
  intros Hu Hp. unfold reserve_units, is_u64 in *.
  rewrite reserve_of_split.
  pose proof (Z.mod_pos_bound units 100 ltac:(lia)) as Hm.
  pose proof (Z.div_pos units 100 ltac:(lia) ltac:(lia)) as Hw.
  set (w := units / 100) in *. set (m := units mod 100) in *.
  assert (Hl : 0 <= (m * percent + 99) / 100 <= percent).
  { split; [apply Z.div_pos; nia|]. apply Z.lt_succ_r, Z.div_lt_upper_bound; nia. }
  rewrite (u64_small (m * percent)) by (unfold is_u64; nia).
  rewrite (u64_small (m * percent + 99)) by (unfold is_u64; nia).
  set (l := (m * percent + 99) / 100) in *.
  destruct (Z.ltb_spec (UINT64_MAX / percent) w) as [H|H].
  - assert (UINT64_MAX < w * percent).
    { assert (UINT64_MAX / percent + 1 <= w) by lia.
      pose proof (Z.mul_succ_div_gt UINT64_MAX percent). nia. }
    destruct (Z.leb_spec (w * percent + l) UINT64_MAX); [lia|done].
  - assert (w * percent <= UINT64_MAX).
    { pose proof (Z.mul_div_le UINT64_MAX percent). nia. }
    rewrite (u64_small (w * percent)) by (unfold is_u64; nia).
    destruct (Z.ltb_spec (UINT64_MAX - l) (w * percent)),
      (Z.leb_spec (w * percent + l) UINT64_MAX); try lia; [done|].
    rewrite u64_small; [done|unfold is_u64; nia].
Qed.

Lemma growth_reserve_exact units growth :
  is_u64 units -> growth = 0 \/ growth = 10 ->
  growth_reserve units growth = Some (reserve_of growth units).
Proof.
  intros Hu [->| ->].
  { unfold growth_reserve, reserve_of. simpl. by rewrite Z.mul_0_r. }
  unfold growth_reserve; simpl.
  rewrite reserve_units_exact by (done || lia).
  pose proof (reserve_of_bounds 10 units ltac:(lia) ltac:(apply Hu)).
  unfold is_u64 in Hu. by rewrite (proj2 (Z.leb_le _ _)) by lia.
Qed.

(** ** Refinement of the planner loop *)

(** The status does not depend on the output pointer. *)
Lemma layout_pass_loop_status objs i j cursor prev limit growth out out' :
  fst (layout_pass_loop objs i cursor prev limit growth out) =
  fst (layout_pass_loop objs j cursor prev limit growth out').
Proof.
  revert i j cursor prev out out'.
  induction objs as [|o objs IH]; intros; simpl; [done|].
  repeat case_match; simpl; eauto.
Qed.

Lemma growth_cases growth :
  growth = 0 \/ growth = 10 -> 0 <= growth <= 10.
Proof. lia. Qed.

(** One step of the loop, on unbounded integers. *)
Lemma layout_pass_loop_refines objs i cursor prev limit growth o :
  Forall object_typed objs -> is_u64 cursor -> is_u64 limit ->
  growth = 0 \/ growth = 10 ->
  (i + length objs <= length o)%nat ->
  let r := layout_pass_loop objs i cursor prev limit growth (Some o) in
  fst r = layout_status growth limit cursor prev objs /\
  (fst r = LD_LAYOUT_OK ->
   snd r = Some (write_at i (canonical growth cursor objs) o)).
Proof.
  intros Ht. revert i cursor prev o.
  induction Ht as [|ob objs (Hid & Hal & Hag & Hfl) Ht IH];
    intros i cursor prev o Hc Hlim Hg Hlen; simpl.
  { split; [done|]. intros _. unfold write_at. simpl.
    by rewrite Nat.add_0_r, take_drop. }
  unfold bad_object. destruct (_ || _) eqn:Hbad; [done|]. breflect.
  destruct (flags ob =? 0); simpl; [|done].
  pose proof (growth_cases _ Hg). unfold is_u64 in *.
  pose proof (Z.mod_pos_bound cursor (alignment_units ob) ltac:(lia)).
  assert (Hpad : (if cursor mod alignment_units ob =? 0 then 0
    else alignment_units ob -64 cursor mod alignment_units ob) =
    align_up cursor (alignment_units ob) - cursor).
  { rewrite <- pad_align_up by lia.
    destruct (_ =? 0); [done|]. by unwrap64. }
  rewrite Hpad.
  rewrite growth_reserve_exact by (done || unfold is_u64; lia).
  pose proof (reserve_of_bounds growth (allocated_units ob) ltac:(done) ltac:(lia)).
  pose proof (align_up_ge cursor (alignment_units ob) ltac:(lia)).
  unfold object_end, object_start.
  set (s := align_up cursor (alignment_units ob)) in *.
  set (rs := reserve_of growth (allocated_units ob)) in *.
  destruct (Z.ltb_spec limit cursor); simpl.
  { rewrite (proj2 (Z.ltb_lt _ _)) by lia. done. }
  rewrite (u64_small (limit - cursor)) by (unfold is_u64; lia).
  destruct (Z.ltb_spec (limit - cursor) (s - cursor)).
  { rewrite (proj2 (Z.ltb_lt _ _)) by lia. done. }
  rewrite (u64_small (cursor + (s - cursor))) by (unfold is_u64; lia).
  replace (cursor + (s - cursor)) with s by lia.
  rewrite (u64_small (limit - s)) by (unfold is_u64; lia).
  destruct (Z.ltb_spec (limit - s) (allocated_units ob)).
  { rewrite (proj2 (Z.ltb_lt _ _)) by lia. done. }
  rewrite (u64_small (s + _)) by (unfold is_u64; lia).
  rewrite (u64_small (limit - _)) by (unfold is_u64; lia).
  destruct (Z.ltb_spec (limit - (s + allocated_units ob)) rs),
    (Z.ltb_spec limit (s + allocated_units ob + rs)); try lia; [done|].
  rewrite (u64_small (s + _ + _)) by (unfold is_u64; lia).
  simpl in Hlen.
  destruct (IH (S i) (s + allocated_units ob + rs) (object_id ob)
    (<[i:=mkPlacement (object_id ob) s (allocated_units ob) rs]> o)) as [E1 E2];
    [lia|lia|done|rewrite length_insert; lia|].
  split; [done|]. intros Hok. rewrite E2 by done.
  by rewrite write_at_cons by lia.
Qed.

(** ** The canonical placement is valid and leftmost *)

Definition object_ok (o : LdGenericLayoutObject) : Prop :=
  0 < object_id o /\ 0 < allocated_units o /\ 0 < alignment_units o /\ flags o = 0.

#[export] Instance object_ok_dec o : Decision (object_ok o).
Proof. unfold object_ok. apply _. Defined.

Lemma layout_status_ok_cons growth limit cursor prev o objs :
  object_typed o ->
  layout_status growth limit cursor prev (o :: objs) = LD_LAYOUT_OK ->
  object_ok o /\ prev < object_id o /\ object_end growth cursor o <= limit /\
  layout_status growth limit (object_end growth cursor o) (object_id o) objs
    = LD_LAYOUT_OK.
Proof.
  intros (Hid & Hal & Hag & _) H. simpl in H. unfold bad_object in H.
  unfold is_u64 in *.
  destruct (_ || _) eqn:Hbad; [done|]. breflect.
  destruct (Z.eqb_spec (flags o) 0); simpl in H; [|done].
  destruct (Z.ltb_spec limit (object_end growth cursor o)); [done|].
  split_and!; [split_and!|..]; (done || lia).
Qed.

Lemma canonical_valid growth limit cursor prev objs :
  Forall object_typed objs ->
  layout_status growth limit cursor prev objs = LD_LAYOUT_OK ->
  valid_layout growth limit cursor objs (canonical growth cursor objs).
Proof.
  intros Ht. revert cursor prev.
  induction Ht as [|o objs Ho Ht IH]; intros cursor prev H; simpl; [constructor|].
  apply layout_status_ok_cons in H as ((Hid & Hal & Hag & Hfl) & Hp & He & H); [|done].
  constructor; simpl; try done.
  - by apply align_up_aligned.
  - by apply align_up_ge.
  - by eapply IH.
Qed.

(** Any other layout of the same objects starts each object no earlier. *)
Lemma canonical_leftmost growth limit cursor c' objs qs :
  Forall object_ok objs -> c' <= cursor ->
  valid_layout growth limit cursor objs qs ->
  Forall2 (fun p q => p_first_unit p <= p_first_unit q) (canonical growth c' objs) qs.
Proof.
  intros Hok Hc Hv. revert c' Hc. induction Hv as [|cursor o objs q qs Hqid Hqa Hqg Hal Hcur Hlim Hv IH];
    intros c' Hc; simpl; [constructor|].
  apply Forall_cons_iff in Hok as [(Hid & Ha & Hag & Hfl) Hok].
  assert (object_start c' o <= p_first_unit q).
  { apply align_up_least; [done|lia|done]. }
  constructor; [done|]. apply IH; [done|].
  unfold object_end. lia.
Qed.

(** If the planner lacks space although every object is well formed, no
    layout exists. *)
Lemma no_space_no_layout growth limit cursor c' prev objs qs :
  Forall object_typed objs ->
  layout_status growth limit c' prev objs = LD_LAYOUT_NO_SPACE -> c' <= cursor ->
  valid_layout growth limit cursor objs qs -> False.
Proof.
  intros Ht Hs Hc Hv. revert c' prev Hs Hc.
  induction Hv as [|cursor o objs q qs Hqid Hqa Hqg Hal Hcur Hlim Hv IH];
    intros c' prev Hs Hc; simpl in Hs; [done|].
  apply Forall_cons_iff in Ht as [(Hid & Ha & Hag & Hfl) Ht].
  unfold bad_object in Hs. destruct (_ || _) eqn:Hbad; [done|]. breflect.
  unfold is_u64 in *.
  destruct (negb _); [done|].
  assert (object_start c' o <= p_first_unit q).
  { apply align_up_least; [lia|lia|done]. }
  destruct (Z.ltb_spec limit (object_end growth c' o)).
  - unfold object_end in *. lia.
  - eapply IH; [done|exact Hs|unfold object_end in *; lia].
Qed.

(** The placements of a valid layout never overlap, reserves included. *)
Lemma valid_layout_disjoint growth limit cursor objs ps :
  Forall object_ok objs -> 0 <= growth <= 10 ->
  valid_layout growth limit cursor objs ps ->
  Forall (fun q => cursor <= p_first_unit q /\
    p_first_unit q + p_allocated_units q + p_gap_after_units q <= limit) ps /\
  ForallOrdPairs (fun p q =>
    p_first_unit p + p_allocated_units p + p_gap_after_units p <= p_first_unit q) ps.
Proof.
  intros Hok Hg Hv.
  induction Hv as [|cursor o objs q qs Hqid Hqa Hqg Hal Hcur Hlim Hv IH];
    [split; constructor|].
  apply Forall_cons_iff in Hok as [(Hid & Ha & Hag & Hfl) Hok].
  destruct (IH Hok) as [IH1 IH2].
  pose proof (reserve_of_bounds growth (allocated_units o) Hg ltac:(lia)).
  split; constructor; [lia| | |done];
    (eapply Forall_impl; [|exact IH1]; simpl; intros; lia).
Qed.

(** ** The planner as a whole *)

Definition plan_status (growth limit first : Z) (objs : list LdGenericLayoutObject) : Z :=
  if (limit <? first) || (negb (growth =? 0) && negb (growth =? 10))
  then LD_LAYOUT_INVALID else layout_status growth limit first 0 objs.

Lemma plan_refines objs first limit growth out :
  Forall object_typed objs -> is_u64 first -> is_u64 limit ->
  length out = length objs ->
  ld_generic_layout_plan (Some objs) (length objs) first limit growth (Some out) =
  (plan_status growth limit first objs,
   Some (if plan_status growth limit first objs =? LD_LAYOUT_OK
         then canonical growth first objs else out)).
Proof.
  intros Ht Hf Hl Hlen. unfold ld_generic_layout_plan, plan_status, is_null; simpl.
  rewrite andb_false_r. simpl.
  destruct (limit <? first); simpl; [done|].
  destruct (negb (growth =? 0) && negb (growth =? 10)) eqn:Hg; [done|].
  assert (growth = 0 \/ growth = 10) by (apply andb_false_iff in Hg; destruct Hg; breflect; lia).
  unfold layout_pass. rewrite firstn_all.
  destruct (layout_pass_loop_refines objs 0 first 0 limit growth out)
    as [E1 E2]; [done..|lia|].
  rewrite (layout_pass_loop_status _ 0 0 _ _ _ _ None (Some out)).
  rewrite E1 in *.
  destruct (Z.eqb_spec (layout_status growth limit first 0 objs) LD_LAYOUT_OK) as [E|E];
    simpl; [|done].
  rewrite (surjective_pairing (layout_pass_loop _ _ _ _ _ _ _)), E1, E2 by done.
  unfold write_at. simpl. do 2 f_equal.
  assert (length (canonical growth first objs) = length objs) as ->.
  { clear. revert first. induction objs; intros; simpl; auto. }
  by rewrite drop_ge, app_nil_r by lia.
Qed.

(** ** Extent plans on unbounded integers *)

Definition f_end (r : LdGenericFreeExtent) : Z := f_first_unit r + f_allocated_units r.

(** Sorted, disjoint, non-empty ranges whose ends are representable. *)
Fixpoint ranges_ok (previous_end : Z) (ranges : list LdGenericFreeExtent) : Prop :=
  match ranges with
  | [] => True
  | r :: rest =>
      0 < f_allocated_units r /\ f_end r <= UINT64_MAX /\
      previous_end <= f_first_unit r /\ ranges_ok (f_end r) rest
  end.

#[export] Instance ranges_ok_dec previous_end ranges :
  Decision (ranges_ok previous_end ranges).
Proof. revert previous_end; induction ranges; simpl; intros; apply _. Defined.

Definition f_capacity (a : Z) (r : LdGenericFreeExtent) : Z :=
  Z.max 0 (f_end r - align_up (f_first_unit r) a).

(** [extent_plan a gap ranges n es]: the extents [es] hold [n] units in
    ascending free ranges, at most one extent in a range, each aligned to [a];
    only the last one has a reserve, of [gap] units, inside its own range. *)
Inductive extent_plan (a gap : Z) :
    list LdGenericFreeExtent -> Z -> list LdGenericPlannedExtent -> Prop :=
| extent_plan_skip r rs n es :
    extent_plan a gap rs n es -> extent_plan a gap (r :: rs) n es
| extent_plan_take r rs n e es :
    f_first_unit r <= e_first_unit e -> e_first_unit e mod a = 0 ->
    0 < e_allocated_units e < n -> e_gap_after_units e = 0 ->
    e_first_unit e + e_allocated_units e <= f_end r ->
    extent_plan a gap rs (n - e_allocated_units e) es ->
    extent_plan a gap (r :: rs) n (e :: es)
| extent_plan_last r rs n e :
    f_first_unit r <= e_first_unit e -> e_first_unit e mod a = 0 ->
    0 < e_allocated_units e -> e_allocated_units e = n -> e_gap_after_units e = gap ->
    e_first_unit e + e_allocated_units e + gap <= f_end r ->
    extent_plan a gap (r :: rs) n [e].

#[export] Hint Constructors extent_plan : defrag.

(** The whole file and its reserve fit in one range. *)
Definition fits_whole (a n gap : Z) (r : LdGenericFreeExtent) : Prop :=
  n + gap <= f_capacity a r.

#[export] Instance fits_whole_dec a n gap r : Decision (fits_whole a n gap r).
Proof. unfold fits_whole. apply _. Defined.

Lemma usable_range_exact r a :
  free_typed r -> 0 < a < TWO64 -> f_end r <= UINT64_MAX ->
  snd (usable_range r a) = f_capacity a r /\
  (0 < f_capacity a r -> fst (usable_range r a) = align_up (f_first_unit r) a).
Proof.
  intros [Hf Hl] Ha He. unfold usable_range, f_capacity, f_end, is_u64 in *.
  pose proof (Z.mod_pos_bound (f_first_unit r) a ltac:(lia)).
  assert (Hpad : (if f_first_unit r mod a =? 0 then 0
      else a -64 f_first_unit r mod a) =
    align_up (f_first_unit r) a - f_first_unit r).
  { rewrite <- pad_align_up by lia. destruct (_ =? 0); [done|]. by unwrap64. }
  rewrite Hpad. pose proof (align_up_ge (f_first_unit r) a ltac:(lia)).
  destruct (Z.ltb_spec (f_allocated_units r) (align_up (f_first_unit r) a - f_first_unit r));
    simpl; [lia|]. unwrap64. lia.
Qed.

(** Where an aligned extent can start bounds what it can hold. *)
Lemma extent_within_capacity a r x n :
  0 < a -> f_first_unit r <= x -> x mod a = 0 -> 0 <= n -> x + n <= f_end r ->
  n <= f_capacity a r.
Proof.
  intros Ha Hx Hm Hn He. unfold f_capacity.
  pose proof (align_up_least (f_first_unit r) a x Ha Hx Hm). lia.
Qed.

Lemma ranges_ok_weaken p q ranges : q <= p -> ranges_ok p ranges -> ranges_ok q ranges.
Proof. destruct ranges; simpl; intros; intuition lia. Qed.

Section FileExtents.
  Context (obj : LdGenericLayoutObject) (gap : Z).
  Context (Htyped : object_typed obj) (Halign : 0 < alignment_units obj)
    (Hgap : is_u64 gap).

#[local] Abbreviation a := (alignment_units obj).

Lemma single_fit_refines ranges prev :
    Forall free_typed ranges -> ranges_ok prev ranges -> 0 < allocated_units obj ->
    match single_fit obj ranges gap with
    | Some e => exists pre r post, ranges = pre ++ r :: post /\
        Forall (fun r => ~ fits_whole a (allocated_units obj) gap r) pre /\
        fits_whole a (allocated_units obj) gap r /\
        e = mkExtent (align_up (f_first_unit r) a) (allocated_units obj) gap
    | None => Forall (fun r => ~ fits_whole a (allocated_units obj) gap r) ranges
    end.
  Proof.
    intros Ht. revert prev. induction Ht as [|r ranges Hr Ht IH];
      intros prev Hok Hal; simpl; [constructor|].
    destruct Hok as (Hlen & Hend & Hprev & Hok).
    destruct Htyped as (_ & Hu & Hua & _). unfold is_u64 in *.
    destruct (usable_range_exact r a Hr ltac:(lia) Hend) as [E1 E2].
    destruct (usable_range r a) as [first capacity] eqn:Hus. simpl in E1, E2.
    assert (f_capacity a r <= UINT64_MAX).
    { unfold f_capacity. pose proof (align_up_ge (f_first_unit r) a Halign).
      destruct Hr as [Hr1 Hr2]. unfold is_u64 in *. lia. }
    destruct (Z.leb_spec (allocated_units obj) capacity); simpl.
    - unwrap64.
      destruct (Z.leb_spec gap (capacity - allocated_units obj)).
      + exists [], r, ranges. unfold fits_whole.
        split_and!; [done|constructor|lia|]. by rewrite E2 by lia.
      + specialize (IH _ Hok Hal). destruct (single_fit obj ranges gap).
        * destruct IH as (pre & r' & post & -> & Hpre & Hfit & ->).
          exists (r :: pre), r', post. split_and!; [done| |done|done].
          constructor; [unfold fits_whole; lia|done].
        * constructor; [unfold fits_whole; lia|done].
    - specialize (IH _ Hok Hal). destruct (single_fit obj ranges gap).
      + destruct IH as (pre & r' & post & -> & Hpre & Hfit & ->).
        exists (r :: pre), r', post. split_and!; [done| |done|done].
        constructor; [unfold fits_whole; lia|done].
      + constructor; [unfold fits_whole; lia|done].
  Qed.

  (** One iteration of the split loop, on unbounded integers. *)
Lemma split_loop_step r rs remaining count out :
    free_typed r -> f_end r <= UINT64_MAX -> 0 < remaining < TWO64 ->
    Z.of_nat count < SIZE_MAX ->
    let c := f_capacity a r in
    let s := align_up (f_first_unit r) a in
    split_loop obj (r :: rs) gap remaining count out =
    if decide (c = 0) then split_loop obj rs gap remaining count out
    else if decide (remaining + gap <= c)
    then (inr (S count), store out count (mkExtent s remaining gap))
    else if decide (c < remaining)
    then split_loop obj rs gap (remaining - c) (S count)
           (store out count (mkExtent s c 0))
    else if decide (remaining = 1) then split_loop obj rs gap remaining count out
    else split_loop obj rs gap 1 (S count)
           (store out count (mkExtent s (remaining - 1) 0)).
  Proof.
    intros Hr Hend Hrem Hcount c s. simpl.
    destruct Htyped as (_ & Hu & Hua & _). unfold is_u64 in *.
    destruct (usable_range_exact r a Hr ltac:(lia) Hend) as [E1 E2].
    destruct (usable_range r a) as [first capacity] eqn:Hus. simpl in E1, E2.
    fold c in E1, E2. fold s in E2.
    assert (0 <= c <= UINT64_MAX).
    { unfold c, f_capacity. pose proof (align_up_ge (f_first_unit r) a Halign).
      destruct Hr as [Hr1 Hr2]. unfold is_u64 in *. lia. }
    rewrite (proj2 (Z.eqb_neq remaining 0)) by lia.
    rewrite (proj2 (Z.eqb_neq (Z.of_nat count) SIZE_MAX)) by lia.
    rewrite E1. destruct (Z.eqb_spec c 0); case_decide; try done.
    rewrite E2 by lia.
    destruct (Z.leb_spec remaining c); simpl.
    - unwrap64. rewrite (proj2 (Z.ltb_ge c remaining)) by lia.
      rewrite Z.eqb_refl.
      destruct (Z.leb_spec gap (c - remaining)); simpl; case_decide; try lia.
      + by rewrite (proj2 (Z.eqb_neq remaining 0)) by lia.
      + rewrite (decide_False (P := c < remaining)) by lia.
        destruct (Z.eqb_spec remaining 1); case_decide; try lia; try done.
        unwrap64. rewrite (proj2 (Z.eqb_neq (remaining - 1) 0)) by lia.
        do 2 f_equal. lia.
    - rewrite (proj2 (Z.ltb_lt c remaining)) by lia.
      rewrite (proj2 (Z.eqb_neq c remaining)) by lia.
      rewrite (proj2 (Z.eqb_neq c 0)) by lia.
      rewrite decide_False by lia. rewrite decide_True by lia. by unwrap64.
  Qed.

  (** The extents stored from [count] on form an extent plan. *)
Lemma split_loop_sound ranges prev remaining count o :
    Forall free_typed ranges -> ranges_ok prev ranges -> 0 < remaining < TWO64 ->
    Z.of_nat (count + length ranges) <= SIZE_MAX ->
    match split_loop obj ranges gap remaining count (Some o) with
    | (inr k, out) => exists es, extent_plan a gap ranges remaining es /\
        k = (count + length es)%nat /\
        ((k <= length o)%nat -> out = Some (write_at count es o))
    | (inl st, _) => st = LD_LAYOUT_NO_SPACE
    end.
  Proof.
    intros Ht. revert prev remaining count o.
    induction Ht as [|r rs Hr Ht IH]; intros prev remaining count o Hok Hrem Hcount; [done|].
    destruct Hok as (Hlen & Hend & Hprev & Hok). simpl in Hcount.
    rewrite split_loop_step by (done || lia). cbv zeta.
    pose proof (align_up_ge (f_first_unit r) a Halign).
    pose proof (align_up_aligned (f_first_unit r) a Halign).
    assert (Hskip : match split_loop obj rs gap remaining count (Some o) with
      | (inr k, out) => exists es, extent_plan a gap (r :: rs) remaining es /\
          k = (count + length es)%nat /\
          ((k <= length o)%nat -> out = Some (write_at count es o))
      | (inl st, _) => st = LD_LAYOUT_NO_SPACE end).
    { specialize (IH _ remaining count o Hok Hrem ltac:(lia)).
      destruct (split_loop obj rs gap remaining count (Some o)) as [[st|k] out]; [done|].
      destruct IH as (es & ? & ? & ?). exists es. auto with defrag. }
    assert (Htake : forall n, 0 < n < remaining -> n <= f_capacity a r ->
      match split_loop obj rs gap (remaining - n) (S count)
          (store (Some o) count (mkExtent (align_up (f_first_unit r) a) n 0)) with
      | (inr k, out) => exists es, extent_plan a gap (r :: rs) remaining es /\
          k = (count + length es)%nat /\
          ((k <= length o)%nat -> out = Some (write_at count es o))
      | (inl st, _) => st = LD_LAYOUT_NO_SPACE end).
    { intros n Hn Hcap. simpl.
      specialize (IH _ (remaining - n) (S count)
        (<[count:=mkExtent (align_up (f_first_unit r) a) n 0]> o) Hok ltac:(lia) ltac:(lia)).
      destruct (split_loop obj rs gap (remaining - n) _ _) as [[st|k] out]; [done|].
      destruct IH as (es & Hplan & -> & Ho).
      exists (mkExtent (align_up (f_first_unit r) a) n 0 :: es). split_and!.
      - apply extent_plan_take; simpl; try done; unfold f_capacity in *; lia.
      - simpl. lia.
      - intros Hk. rewrite length_insert in Ho. rewrite Ho by (simpl in *; lia).
        by rewrite write_at_cons by (simpl in *; lia). }
    repeat case_decide; try done.
    - exists [mkExtent (align_up (f_first_unit r) a) remaining gap]. split_and!.
      + apply extent_plan_last; simpl; try done; unfold f_capacity in *; lia.
      + simpl. lia.
      + intros Hk. simpl. by rewrite write_at_one by lia.
    - apply Htake; unfold f_capacity in *; lia.
    - specialize (Htake (remaining - 1) ltac:(lia) ltac:(lia)).
      by replace (remaining - (remaining - 1)) with 1 in Htake by lia.
  Qed.

  (** Whenever some extent plan exists for the amount or more, the greedy loop
      finds one. *)
Lemma split_loop_complete ranges prev n es remaining count out :
    Forall free_typed ranges -> ranges_ok prev ranges ->
    extent_plan a gap ranges n es -> 0 < remaining <= n -> n < TWO64 ->
    Z.of_nat (count + length ranges) <= SIZE_MAX ->
    exists k out', split_loop obj ranges gap remaining count out = (inr k, out').
  Proof.
    intros Ht Hok Hplan. revert prev remaining count out Ht Hok.
    induction Hplan as [r rs n es Hplan IH|r rs n e es Hx Hm He Hg Hin Hplan IH
      |r rs n e Hx Hm He Hn Hg Hin];
      intros prev remaining count out [Hr Ht]%Forall_cons_iff
        (Hlen & Hend & Hprev & Hok) Hrem Hlt Hcount; simpl in Hcount;
      rewrite split_loop_step by (done || lia); cbv zeta;
      assert (0 <= f_capacity a r) by (unfold f_capacity; lia).
    - repeat case_decide; eauto; (eapply IH; [done|done|lia..]).
    - assert (e_allocated_units e <= f_capacity a r)
        by (apply (extent_within_capacity _ _ (e_first_unit e)); (done || lia)).
      repeat case_decide; eauto; try lia; (eapply IH; [done|done|lia..]).
    - unfold is_u64 in *.
      assert (n + gap <= f_capacity a r)
        by (apply (extent_within_capacity _ _ (e_first_unit e)); (done || lia)).
      rewrite decide_False by lia. rewrite decide_True by lia. eauto.
  Qed.

Lemma single_fit_plan ranges e :
    0 < allocated_units obj ->
    (exists pre r post, ranges = pre ++ r :: post /\
      fits_whole a (allocated_units obj) gap r /\
      e = mkExtent (align_up (f_first_unit r) a) (allocated_units obj) gap) ->
    extent_plan a gap ranges (allocated_units obj) [e].
  Proof.
    intros Hal (pre & r & post & -> & Hfit & ->).
    induction pre as [|r' pre IH]; simpl; [|by constructor].
    pose proof (align_up_ge (f_first_unit r) a Halign).
    unfold is_u64, fits_whole, f_capacity in *.
    apply extent_plan_last; simpl; try done; try lia. by apply align_up_aligned.
  Qed.
End FileExtents.

(** What an extent plan promises to the caller. *)
Record extents_correct (a gap n : Z) (ranges : list LdGenericFreeExtent)
    (es : list LdGenericPlannedExtent) : Prop := {
  ec_total : foldr (fun e s => e_allocated_units e + s) 0 es = n;
  ec_nonempty : Forall (fun e => 0 < e_allocated_units e) es;
  ec_aligned : Forall (fun e => e_first_unit e mod a = 0) es;
  ec_inside : Forall (fun e => Exists (fun r => f_first_unit r <= e_first_unit e /\
    e_first_unit e + e_allocated_units e + e_gap_after_units e <= f_end r) ranges) es;
  ec_ascending : ForallOrdPairs (fun e e' =>
    e_first_unit e + e_allocated_units e + e_gap_after_units e <= e_first_unit e') es;
  ec_reserve : exists init last, es = init ++ [last] /\
    Forall (fun e => e_gap_after_units e = 0) init /\ e_gap_after_units last = gap;
  ec_count : (length es <= length ranges)%nat;
}.

Lemma extent_plan_after a gap prev ranges n es :
  ranges_ok prev ranges -> extent_plan a gap ranges n es ->
  Forall (fun e => prev <= e_first_unit e) es.
Proof.
  intros Hok Hp. revert prev Hok.
  induction Hp as [r rs n es Hp IH|r rs n e es Hx Hm He Hg Hin Hp IH
    |r rs n e Hx Hm He Hn Hg Hin]; intros prev (Hlen & Hend & Hprev & Hok).
  - apply IH. eapply ranges_ok_weaken; [|done]. unfold f_end. lia.
  - constructor; [lia|]. apply IH. eapply ranges_ok_weaken; [|done]. unfold f_end. lia.
  - constructor; [lia|constructor].
Qed.

Lemma extent_plan_correct a gap prev ranges n es :
  ranges_ok prev ranges -> extent_plan a gap ranges n es ->
  extents_correct a gap n ranges es.
Proof.
  intros Hok Hp. revert prev Hok.
  induction Hp as [r rs n es Hp IH|r rs n e es Hx Hm He Hg Hin Hp IH
    |r rs n e Hx Hm He Hn Hg Hin]; intros prev (Hlen & Hend & Hprev & Hok).
  - destruct (IH _ Hok) as [H1 H2 H3 H4 H5 H6 H7].
    constructor; try done; simpl; [|lia].
    eapply Forall_impl; [|exact H4]. simpl. auto.
  - destruct (IH _ Hok) as [H1 H2 H3 H4 H5 (init & last & -> & Hi & Hl) H7].
    pose proof (extent_plan_after _ _ _ _ _ _ Hok Hp) as Hafter.
    constructor; simpl.
    + lia.
    + constructor; [lia|done].
    + by constructor.
    + constructor; [left; lia|]. eapply Forall_impl; [|exact H4]. simpl. auto.
    + constructor; [|done]. eapply Forall_impl; [|exact Hafter]. simpl. intros. lia.
    + exists (e :: init), last. split_and!; [done|by constructor|done].
    + simpl in H7. lia.
  - constructor; simpl; try (by repeat constructor); [lia| | |lia].
    + constructor; [left; subst; lia|constructor].
    + exists [], e. by split_and!.
Qed.

Lemma check_free_ranges_exact ranges :
  Forall free_typed ranges ->
  check_free_ranges ranges (length ranges) = LD_LAYOUT_OK <-> ranges_ok 0 ranges.
Proof.
  intros Ht. unfold check_free_ranges. rewrite firstn_all.
  assert (Hgen : forall i prev, 0 <= prev -> (i = 0%nat -> prev = 0) ->
    check_free_ranges_loop ranges i prev = LD_LAYOUT_OK <-> ranges_ok prev ranges);
    [|by apply Hgen].
  induction Ht as [|r rs [Hf Hl] Ht IH]; intros i prev Hp Hi; simpl; [done|].
  unfold is_u64, f_end in *.
  assert (Hb : negb (Nat.eqb i 0) && (f_first_unit r <? prev) = (f_first_unit r <? prev)).
  { destruct (Nat.eqb_spec i 0); simpl; [|done]. symmetry. apply Z.ltb_ge. lia. }
  rewrite Hb. destruct (_ || _) eqn:Hbad.
  - split; [done|]. intros (H1 & H2 & H3 & _). exfalso.
    apply orb_true_iff in Hbad as [[?|?]%orb_true_iff|?];
      [apply Z.eqb_eq in H|apply Z.ltb_lt in H|apply Z.ltb_lt in H]; lia.
  - breflect. rewrite u64_small by (unfold is_u64; lia).
    rewrite IH by lia. unfold f_end. split; intros; intuition lia.
Qed.

(** The status of a pass does not depend on the output pointer. *)
Lemma split_loop_status obj ranges gap remaining count o o' :
  fst (split_loop obj ranges gap remaining count o) =
  fst (split_loop obj ranges gap remaining count o').
Proof.
  revert remaining count o o'. induction ranges as [|r rs IH]; intros; simpl; [done|].
  destruct (usable_range _ _). repeat case_match; simpl; auto.
Qed.

Lemma plan_file_extent_pass_status obj ranges n gap o o' :
  fst (plan_file_extent_pass obj ranges n gap o) =
  fst (plan_file_extent_pass obj ranges n gap o').
Proof.
  unfold plan_file_extent_pass. destruct (single_fit _ _ _); [done|].
  apply split_loop_status.
Qed.

(** The reserve of a growth mode the entry point accepts. *)
Lemma growth_mode_reserve obj growth :
  object_typed obj -> growth = 0 \/ growth = 10 ->
  growth_reserve (allocated_units obj) growth =
    Some (reserve_of growth (allocated_units obj)) /\
  is_u64 (reserve_of growth (allocated_units obj)).
Proof.
  intros (_ & Hu & _) Hg. split; [by apply growth_reserve_exact|].
  pose proof (reserve_of_bounds growth (allocated_units obj) ltac:(lia) ltac:(apply Hu)).
  unfold is_u64 in *. lia.
Qed.

(** A pass over valid ranges: the extents of a plan, or no space. *)
Lemma plan_file_extent_pass_refines obj ranges gap o :
  object_typed obj -> 0 < alignment_units obj -> 0 < allocated_units obj ->
  is_u64 gap -> Forall free_typed ranges -> ranges_ok 0 ranges ->
  Z.of_nat (length ranges) <= SIZE_MAX ->
  match plan_file_extent_pass obj ranges (length ranges) gap (Some o) with
  | (inr k, out) => exists es,
      extent_plan (alignment_units obj) gap ranges (allocated_units obj) es /\
      k = length es /\
      ((k <= length o)%nat -> out = Some (es ++ drop (length es) o))
  | (inl st, _) => st = LD_LAYOUT_NO_SPACE /\ forall es,
      ~ extent_plan (alignment_units obj) gap ranges (allocated_units obj) es
  end.
Proof.
  intros Ho Ha Hal Hg Ht Hok Hn. unfold plan_file_extent_pass. rewrite firstn_all.
  pose proof (single_fit_refines obj gap Ho Ha Hg ranges 0 Ht Hok Hal) as Hs.
  destruct (single_fit obj ranges gap) as [e|].
  - exists [e]. split_and!; [|done|].
    + apply single_fit_plan; [done..|]. destruct Hs as (?&?&?&?&?&?&?); eauto 10.
    + intros Hk. simpl in *. by rewrite write_at_one by lia.
  - assert (Hu : 0 < allocated_units obj < TWO64) by (destruct Ho as (_&Hu&_); unfold is_u64 in *; lia).
    pose proof (split_loop_sound obj gap Ho Ha Hg ranges 0 (allocated_units obj) 0 o
      Ht Hok Hu Hn) as H.
    destruct (split_loop obj ranges gap (allocated_units obj) 0 (Some o)) as [[st|k] out] eqn:E.
    + split; [done|]. intros es Hp.
      destruct (split_loop_complete obj gap Ho Ha Hg ranges 0 _ es (allocated_units obj) 0
        (Some o) Ht Hok Hp ltac:(lia) ltac:(lia) Hn) as (? & ? & ?). congruence.
    + destruct H as (es & Hp & -> & Hout). exists es. by split_and!.
Qed.

Lemma growth_mode_of growth :
  negb (growth =? 0) && negb (growth =? 10) = false -> growth = 0 \/ growth = 10.
Proof. intros H%andb_false_iff. destruct H; breflect; lia. Qed.

Lemma plan_status_ok growth limit first objs :
  plan_status growth limit first objs = LD_LAYOUT_OK ->
  first <= limit /\ (growth = 0 \/ growth = 10) /\
  layout_status growth limit first 0 objs = LD_LAYOUT_OK.
Proof.
  unfold plan_status. destruct (limit <? first) eqn:?; simpl; [done|].
  destruct (_ && _) eqn:Hg; [done|]. breflect. intros. split_and!; [lia| |done].
  by apply growth_mode_of.
Qed.

Lemma layout_status_objects_ok growth limit cursor prev objs :
  Forall object_typed objs ->
  layout_status growth limit cursor prev objs = LD_LAYOUT_OK ->
  Forall object_ok objs.
Proof.
  intros Ht. revert cursor prev. induction Ht as [|o objs Ho Ht IH]; intros cursor prev H;
    constructor; apply layout_status_ok_cons in H as (? & ? & ? & ?); eauto.
Qed.

(** What the extent planner does once its guards are passed. *)
Lemma plan_file_extents_guarded obj ranges growth out cap w :
  object_typed obj -> Forall free_typed ranges -> Z.of_nat (length ranges) <= SIZE_MAX ->
  length out = cap -> object_ok obj -> ranges_ok 0 ranges -> growth = 0 \/ growth = 10 ->
  exists res, ld_generic_layout_plan_file_extents (Some obj) (Some ranges) (length ranges)
    growth (Some out) cap (Some w) = res /\
  let gap := reserve_of growth (allocated_units obj) in
  match plan_file_extent_pass obj ranges (length ranges) gap (Some out) with
  | (inl _, _) => res = (LD_LAYOUT_NO_SPACE, Some out, Some w) /\ forall es,
      ~ extent_plan (alignment_units obj) gap ranges (allocated_units obj) es
  | (inr k, out') =>
      res = (if Nat.ltb cap k then (LD_LAYOUT_OUTPUT_TOO_SMALL, Some out, Some w)
             else (LD_LAYOUT_OK, out', Some k)) /\
      exists es, k = length es /\
        extent_plan (alignment_units obj) gap ranges (allocated_units obj) es /\
        ((k <= cap)%nat -> out' = Some (es ++ drop k out))
  end.
Proof.
  intros Ho Ht Hn Hlen (Hid & Hal & Hag & Hfl) Hok Hg. eexists. split; [reflexivity|].
  unfold ld_generic_layout_plan_file_extents, is_null; simpl.
  rewrite !andb_false_r. simpl.
  assert (Hgb : negb (growth =? 0) && negb (growth =? 10) = false)
    by (destruct Hg as [->| ->]; done).
  rewrite Hgb, !(proj2 (Z.eqb_neq _ 0)) by lia. simpl. rewrite Hfl. simpl.
  rewrite (proj2 (check_free_ranges_exact ranges Ht) Hok). simpl.
  destruct (growth_mode_reserve obj growth Ho Hg) as [-> Hgap].
  pose proof (plan_file_extent_pass_refines obj ranges _ out Ho Hag Hal Hgap Ht Hok Hn) as H.
  rewrite (plan_file_extent_pass_status _ _ _ _ None (Some out)).
  destruct (plan_file_extent_pass obj ranges (length ranges) _ (Some out)) as [[st|k] o'];
    simpl.
  - destruct H as [-> H]. done.
  - destruct H as (es & Hp & -> & Hout). split.
    + destruct (Nat.ltb_spec cap (length es)); [done|]. by rewrite Nat.eqb_refl.
    + exists es. split_and!; [done|done|]. intros. apply Hout. lia.
Qed.

(** Success passes every guard. *)
Lemma plan_file_extents_guards obj ranges growth out cap w out' w' st :
  object_typed obj -> Forall free_typed ranges ->
  ld_generic_layout_plan_file_extents (Some obj) (Some ranges) (length ranges)
    growth (Some out) cap (Some w) = (st, out', w') ->
  st <> LD_LAYOUT_INVALID -> st <> LD_LAYOUT_UNSUPPORTED ->
  object_ok obj /\ ranges_ok 0 ranges /\ (growth = 0 \/ growth = 10).
Proof.
  intros (Hid & Hal & Hag & Hfl) Ht H Hi Hu.
  unfold ld_generic_layout_plan_file_extents, is_null in H; simpl in H.
  rewrite !andb_false_r in H. simpl in H.
  destruct (negb (growth =? 0) && negb (growth =? 10)) eqn:Hg; simpl in H; [congruence|].
  destruct (object_id obj =? 0) eqn:?; simpl in H; [congruence|].
  destruct (allocated_units obj =? 0) eqn:?; simpl in H; [congruence|].
  destruct (alignment_units obj =? 0) eqn:?; simpl in H; [congruence|].
  destruct (flags obj =? 0) eqn:?; simpl in H; [|congruence].
  destruct (Z.eqb_spec (check_free_ranges ranges (length ranges)) LD_LAYOUT_OK) as [E|E];
    simpl in H; [|congruence].
  breflect. unfold is_u64 in *. split_and!; [split_and!; lia| |by apply growth_mode_of].
  by apply check_free_ranges_exact.
Qed.

(** ** Properties *)

(** C1: for arguments of the structures' field widths, [ld_generic_layout_plan]
    returns exactly the status of the reference planner on unbounded integers
    (malformed or unordered object, immovable object, no space, or success,
    the first offending object deciding) and, exactly on success, has replaced
    the output array by the canonical placement: no 64-bit computation wraps. *)
Theorem layout_plan_refines_canonical objs first limit growth out :
  Forall object_typed objs -> is_u64 first -> is_u64 limit ->
  length out = length objs ->
  ld_generic_layout_plan (Some objs) (length objs) first limit growth (Some out) =
  (plan_status growth limit first objs,
   Some (if plan_status growth limit first objs =? LD_LAYOUT_OK
         then canonical growth first objs else out)).
Proof. apply plan_refines. Qed.

Definition demo_objects : list LdGenericLayoutObject :=
  [mkObject 1 5 4 0; mkObject 7 25 8 0; mkObject 9 1 1 0].

Definition demo_out : list LdGenericLayoutPlacement := replicate 3 (mkPlacement 0 0 0 0).

Lemma layout_plan_refines_canonical_witness :
  ld_generic_layout_plan (Some demo_objects) 3 3 100 10 (Some demo_out) =
  (0, Some [mkPlacement 1 4 5 1; mkPlacement 7 16 25 3; mkPlacement 9 44 1 1]).
Proof.
  etrans; [apply (layout_plan_refines_canonical demo_objects 3 100 10 demo_out)|].
  - vm_decide.
  - vm_decide.
  - vm_decide.
  - reflexivity.
  - vm_compute. reflexivity.
Defined.

(** A successful plan gives every object, in input order, exactly its size
    and its reserve (zero for Defrag, ten percent rounded up for Growth) at a
    unit aligned to the object's alignment; every placement with its reserve
    lies inside the relocatable region, and no two of them overlap. *)
Theorem layout_plan_placements_correct objs first limit growth out ps :
  Forall object_typed objs -> is_u64 first -> is_u64 limit ->
  length out = length objs ->
  ld_generic_layout_plan (Some objs) (length objs) first limit growth (Some out) =
    (LD_LAYOUT_OK, Some ps) ->
  Forall2 (fun o p => p_object_id p = object_id o /\
    p_allocated_units p = allocated_units o /\
    p_gap_after_units p = reserve_of growth (allocated_units o) /\
    p_first_unit p mod alignment_units o = 0) objs ps /\
  Forall (fun p => first <= p_first_unit p /\
    p_first_unit p + p_allocated_units p + p_gap_after_units p <= limit) ps /\
  ForallOrdPairs (fun p q =>
    p_first_unit p + p_allocated_units p + p_gap_after_units p <= p_first_unit q) ps.
Proof.
  intros Ht Hf Hl Hlen H. rewrite plan_refines in H by done.
  injection H as Hst Hps. rewrite Hst in Hps. simpl in Hps. subst ps.
  apply plan_status_ok in Hst as (_ & Hg%growth_cases & Hst).
  pose proof (canonical_valid _ _ _ _ _ Ht Hst) as Hv.
  apply layout_status_objects_ok in Hst; [|done].
  split; [|by eapply valid_layout_disjoint].
  clear -Hv. induction Hv; constructor; auto.
Qed.

Lemma layout_plan_placements_correct_witness :
  ForallOrdPairs (fun p q =>
    p_first_unit p + p_allocated_units p + p_gap_after_units p <= p_first_unit q)
    [mkPlacement 1 4 5 1; mkPlacement 7 16 25 3; mkPlacement 9 44 1 1].
Proof.
  apply (layout_plan_placements_correct demo_objects 3 100 10 demo_out).
  - vm_decide.
  - vm_decide.
  - vm_decide.
  - reflexivity.
  - vm_compute. reflexivity.
Defined.

(** The plan is canonical: whatever valid in-order layout of the same
    objects exists in the region, the planner succeeds and starts each object
    at or before the unit where that layout starts it; a report of no space is
    therefore a proof that no in-order layout exists. *)
Theorem layout_plan_leftmost objs first limit growth out qs :
  Forall object_typed objs -> is_u64 first -> is_u64 limit ->
  length out = length objs ->
  valid_layout growth limit first objs qs ->
  fst (ld_generic_layout_plan (Some objs) (length objs) first limit growth (Some out))
    <> LD_LAYOUT_NO_SPACE /\
  forall ps, ld_generic_layout_plan (Some objs) (length objs) first limit growth
      (Some out) = (LD_LAYOUT_OK, Some ps) ->
    Forall2 (fun p q => p_first_unit p <= p_first_unit q) ps qs.
Proof.
  intros Ht Hf Hl Hlen Hv. rewrite plan_refines by done. split; simpl.
  - unfold plan_status. destruct (_ || _); [done|]. intros Hst.
    by eapply (no_space_no_layout growth limit first first 0 objs qs).
  - intros ps H. injection H as Hst Hps. rewrite Hst in Hps. simpl in Hps. subst ps.
    apply plan_status_ok in Hst as (_ & _ & Hst).
    eapply canonical_leftmost; [|reflexivity|done].
    by eapply layout_status_objects_ok.
Qed.

Lemma layout_plan_leftmost_witness :
  Forall2 (fun p q => p_first_unit p <= p_first_unit q)
    [mkPlacement 1 4 5 1; mkPlacement 7 16 25 3; mkPlacement 9 44 1 1]
    [mkPlacement 1 8 5 1; mkPlacement 7 24 25 3; mkPlacement 9 90 1 1].
Proof.
  eapply (layout_plan_leftmost demo_objects 3 100 10 demo_out).
  - vm_decide.
  - vm_decide.
  - vm_decide.
  - reflexivity.
  - repeat (constructor; try (vm_compute; done)).
  - vm_compute. reflexivity.
Defined.

(** For every input whatever, a planner call that does not return OK leaves
    the output array exactly as it was (the two-pass preflight). *)
Theorem layout_plan_failure_unchanged objects count first limit growth out :
  fst (ld_generic_layout_plan objects count first limit growth out) <> LD_LAYOUT_OK ->
  snd (ld_generic_layout_plan objects count first limit growth out) = out.
Proof.
  unfold ld_generic_layout_plan, layout_pass. destruct (_ || _); [done|].
  rewrite (layout_pass_loop_status _ 0 0 _ _ _ _ None out).
  destruct (Z.eqb_spec (fst (layout_pass_loop (take count (default [] objects)) 0 first 0
    limit growth out)) LD_LAYOUT_OK) as [E|E]; simpl; [|done].
  intros H. by rewrite E in H.
Qed.

Lemma layout_plan_failure_unchanged_witness :
  snd (ld_generic_layout_plan (Some demo_objects) 3 3 45 10 (Some demo_out)) = Some demo_out.
Proof. apply layout_plan_failure_unchanged. vm_compute. done. Defined.

(** The growth reserve of any 64-bit size is computed without overflow and
    is the least number of whole units that is at least ten percent. *)
Theorem growth_reserve_ceiling units :
  is_u64 units ->
  exists r, reserve_units units 10 = inr r /\ is_u64 r /\
    10 * units <= 100 * r /\ forall r', 10 * units <= 100 * r' -> r <= r'.
Proof.
  intros Hu. rewrite reserve_units_exact by (done || lia).
  pose proof (reserve_of_bounds 10 units ltac:(lia) ltac:(apply Hu)).
  unfold is_u64 in *. rewrite (proj2 (Z.leb_le _ _)) by lia.
  exists (reserve_of 10 units). unfold reserve_of in *.
  pose proof (Z.div_mod (units * 10 + 99) 100 ltac:(lia)).
  pose proof (Z.mod_pos_bound (units * 10 + 99) 100 ltac:(lia)).
  split_and!; [done|lia|lia|lia|]. intros r' Hr'.
  apply Z.lt_succ_r, Z.div_lt_upper_bound; lia.
Qed.

Lemma growth_reserve_ceiling_witness :
  exists r, reserve_units UINT64_MAX 10 = inr r /\ is_u64 r /\
    10 * UINT64_MAX <= 100 * r /\ forall r', 10 * UINT64_MAX <= 100 * r' -> r <= r'.
Proof. apply growth_reserve_ceiling. vm_compute. done. Defined.

(** A successful file plan stores in the output array, and counts in
    [*written], data extents that hold exactly the file, each aligned and with
    its reserve inside one certified free range, in ascending order without
    overlap, the whole growth reserve directly after the final extent and no
    reserve anywhere else; the array beyond the extents is untouched. *)
Theorem file_extents_sound obj ranges growth out w out' w' :
  object_typed obj -> Forall free_typed ranges -> Z.of_nat (length ranges) <= SIZE_MAX ->
  ld_generic_layout_plan_file_extents (Some obj) (Some ranges) (length ranges)
    growth (Some out) (length out) (Some w) = (LD_LAYOUT_OK, out', w') ->
  exists es, w' = Some (length es) /\ out' = Some (es ++ drop (length es) out) /\
    (length es <= length out)%nat /\
    extents_correct (alignment_units obj) (reserve_of growth (allocated_units obj))
      (allocated_units obj) ranges es.
Proof.
  intros Ho Ht Hn H.
  destruct (plan_file_extents_guards _ _ _ _ _ _ _ _ _ Ho Ht H ltac:(done) ltac:(done))
    as (Hok & Hr & Hg).
  destruct (plan_file_extents_guarded obj ranges growth out _ w Ho Ht Hn eq_refl Hok Hr Hg)
    as (res & Hres & Hcase).
  rewrite H in Hres. subst res. cbv zeta in Hcase.
  destruct (plan_file_extent_pass _ _ _ _ _) as [[st|k] o'].
  - by destruct Hcase as [Hcase _].
  - destruct Hcase as (Hcase & es & -> & Hp & Hout).
    destruct (Nat.ltb_spec (length out) (length es)); [done|].
    injection Hcase as -> ->. exists es. split_and!; [done|by apply Hout|done|].
    by eapply extent_plan_correct.
Qed.

Definition demo_file : LdGenericLayoutObject := mkObject 4 12 2 0.
Definition demo_ranges : list LdGenericFreeExtent := [mkFree 1 8; mkFree 20 1; mkFree 31 9].
Definition demo_extents : list LdGenericPlannedExtent := replicate 3 (mkExtent 0 0 0).

Lemma file_extents_sound_witness :
  exists es, Some 3%nat = Some (length es) /\
    Some [mkExtent 2 7 0; mkExtent 20 1 0; mkExtent 32 4 2] =
      Some (es ++ drop (length es) demo_extents) /\
    (length es <= 3)%nat /\ extents_correct 2 2 12 demo_ranges es.
Proof.
  apply (file_extents_sound demo_file demo_ranges 10 demo_extents 0%nat).
  - vm_decide.
  - vm_decide.
  - vm_decide.
  - vm_compute. reflexivity.
Defined.

(** A single extent that takes the whole file and its reserve always wins:
    if some free range can hold both, the plan is exactly one extent, at the
    first aligned unit of the earliest such range. *)
Theorem file_extents_first_fit obj pre r post growth out w :
  object_typed obj -> object_ok obj -> Forall free_typed (pre ++ r :: post) ->
  ranges_ok 0 (pre ++ r :: post) -> Z.of_nat (length (pre ++ r :: post)) <= SIZE_MAX ->
  growth = 0 \/ growth = 10 -> (0 < length out)%nat ->
  let gap := reserve_of growth (allocated_units obj) in
  Forall (fun r' => ~ fits_whole (alignment_units obj) (allocated_units obj) gap r') pre ->
  fits_whole (alignment_units obj) (allocated_units obj) gap r ->
  ld_generic_layout_plan_file_extents (Some obj) (Some (pre ++ r :: post))
    (length (pre ++ r :: post)) growth (Some out) (length out) (Some w) =
  (LD_LAYOUT_OK,
   Some (mkExtent (align_up (f_first_unit r) (alignment_units obj))
           (allocated_units obj) gap :: drop 1 out),
   Some 1%nat).
Proof.
  intros Ho Hok Ht Hr Hn Hg Hout gap Hpre Hfit.
  destruct (plan_file_extents_guarded obj _ growth out _ w Ho Ht Hn eq_refl Hok Hr Hg)
    as (res & -> & Hcase). cbv zeta in Hcase. fold gap in Hcase.
  destruct (growth_mode_reserve obj growth Ho Hg) as [_ Hgap]. fold gap in Hgap.
  destruct Hok as (Hid & Hal & Hag & Hfl).
  pose proof (single_fit_refines obj gap Ho Hag Hgap _ 0 Ht Hr Hal) as Hs.
  unfold plan_file_extent_pass in Hcase. rewrite firstn_all in Hcase.
  destruct (single_fit obj (pre ++ r :: post) gap) as [e|].
  - destruct Hs as (pre' & r' & post' & Heq & Hpre' & Hfit' & ->).
    destruct (first_satisfying_unique _ _ _ _ _ _ _ Heq Hpre Hfit Hpre' Hfit') as [_ <-].
    destruct Hcase as [-> _]. rewrite (proj2 (Nat.ltb_ge _ _)) by lia.
    destruct out as [|e0 out]; [simpl in Hout; lia|done].
  - exfalso. apply Forall_app in Hs as [_ Hs]. by apply Forall_cons_iff in Hs as [? _].
Qed.

Lemma file_extents_first_fit_witness :
  ld_generic_layout_plan_file_extents (Some demo_file)
    (Some [mkFree 1 8; mkFree 11 16; mkFree 40 100]) 3 10 (Some demo_extents) 3 (Some 0%nat) =
  (0, Some [mkExtent 12 12 2; mkExtent 0 0 0; mkExtent 0 0 0], Some 1%nat).
Proof.
  apply (file_extents_first_fit demo_file [mkFree 1 8] (mkFree 11 16) [mkFree 40 100]
    10 demo_extents 0%nat); (lia || vm_decide || (right; reflexivity)).
Defined.

(** The greedy split is complete: for a movable object and certified ranges
    the planner reports no space exactly when no ascending plan (one extent per
    range, aligned, the reserve after the last extent in its range) exists, and
    otherwise only the output capacity decides between success and
    OUTPUT_TOO_SMALL. *)
Theorem file_extents_complete obj ranges growth out w :
  object_typed obj -> object_ok obj -> Forall free_typed ranges -> ranges_ok 0 ranges ->
  Z.of_nat (length ranges) <= SIZE_MAX -> growth = 0 \/ growth = 10 ->
  let gap := reserve_of growth (allocated_units obj) in
  let plan es := extent_plan (alignment_units obj) gap ranges (allocated_units obj) es in
  let status := fst (fst (ld_generic_layout_plan_file_extents (Some obj) (Some ranges)
    (length ranges) growth (Some out) (length out) (Some w))) in
  (status = LD_LAYOUT_NO_SPACE <-> forall es, ~ plan es) /\
  (status = LD_LAYOUT_OUTPUT_TOO_SMALL -> exists es, plan es /\ (length out < length es)%nat) /\
  (status = LD_LAYOUT_OK -> exists es, plan es /\ (length es <= length out)%nat) /\
  (status = LD_LAYOUT_NO_SPACE \/ status = LD_LAYOUT_OUTPUT_TOO_SMALL \/ status = LD_LAYOUT_OK).
Proof.
  intros Ho Hok Ht Hr Hn Hg gap plan status.
  destruct (plan_file_extents_guarded obj ranges growth out _ w Ho Ht Hn eq_refl Hok Hr Hg)
    as (res & Hres & Hcase).
  cbv zeta in Hcase. fold gap in Hcase. unfold status. rewrite Hres. clear Hres status.
  destruct (plan_file_extent_pass _ _ _ _ _) as [[st|k] o'].
  - destruct Hcase as [-> Hno]. simpl. split_and!; try done; by left.
  - destruct Hcase as (-> & es & -> & Hp & _).
    destruct (Nat.ltb_spec (length out) (length es)); simpl; split_and!; try done; eauto;
      (split; [done|]; intros Hno; by edestruct Hno).
Qed.

Lemma file_extents_complete_witness :
  ld_generic_layout_plan_file_extents (Some demo_file) (Some demo_ranges) 3 10
    (Some demo_extents) 1 (Some 0%nat) = ((-4)%Z, Some demo_extents, Some 0%nat) /\
  (forall es, ~ extent_plan 2 2 [mkFree 1 8; mkFree 20 4] 12 es).
Proof.
  split; [vm_compute; done|].
  refine (proj1 (proj1 (file_extents_complete demo_file [mkFree 1 8; mkFree 20 4] 10
    demo_extents 0%nat _ _ _ _ _ _)) _); (lia || vm_decide || (right; reflexivity)).
Defined.

(** For every input whatever, a file-extent call that does not return OK
    leaves both the output array and the written counter as they were. *)
Theorem file_extents_failure_unchanged obj ranges count growth out cap w st out' w' :
  ld_generic_layout_plan_file_extents obj ranges count growth out cap w = (st, out', w') ->
  st <> LD_LAYOUT_OK -> out' = out /\ w' = w.
Proof.
  unfold ld_generic_layout_plan_file_extents. intros H Hst.
  destruct obj as [obj|], w as [w|]; [|by simplify_eq..].
  destruct (_ || _); [by simplify_eq|].
  destruct (negb _); [by simplify_eq|].
  destruct (negb _); [by simplify_eq|].
  destruct (growth_reserve _ _) as [gap|]; [|by simplify_eq].
  pose proof (plan_file_extent_pass_status obj (default [] ranges) count gap None out) as E.
  destruct (fst (plan_file_extent_pass obj (default [] ranges) count gap None)) as [s|k];
    [by simplify_eq|].
  destruct (Nat.ltb _ _); [by simplify_eq|].
  destruct (plan_file_extent_pass obj (default [] ranges) count gap out) as [[s|k'] o'];
    simpl in E; [done|]. injection E as <-.
  rewrite Nat.eqb_refl in H. simpl in H. congruence.
Qed.

Lemma file_extents_failure_unchanged_witness :
  Some demo_extents = Some demo_extents /\ Some 0%nat = Some 0%nat.
Proof.
  apply (file_extents_failure_unchanged (Some demo_file) (Some demo_ranges) 3 10
    (Some demo_extents) 1 (Some 0%nat) (-4)); [vm_compute; reflexivity|done].
Defined.
