(* ===== verification/CoreIO.v ===== *)
(** I/O adapters and resource policy of [src/defragger/src/core/ld_io.c]: packed
    bitmaps, exact positioned I/O, the fsync retry, memory and worker limits. *)
From S2P Require Import Prelude Effects CString Sys.

(** ** Exact positioned I/O *)

(** [ld_pread_full]: the count and the data read. *)
Definition ld_pread_full (fd length offset : Z) : sys (result (Z * list Z)) :=
  if SSIZE_MAX <? length then Ret (Err EOVERFLOW)
  else let* r := call (PreadFull fd length offset) in
       Ret (match r with Ok data => Ok (length, data) | Err e => Err e end).

Definition ld_pwrite_full (fd : Z) (buffer : list Z) (length offset : Z) : sys (result Z) :=
  if SSIZE_MAX <? length then Ret (Err EOVERFLOW)
  else let* r := call (PwriteFull fd buffer offset) in
       Ret (match r with Ok _ => Ok length | Err e => Err e end).

Definition ld_pread_exact (fd length offset : Z) (what : string) : sys (list Z) :=
  let* r := ld_pread_full fd length offset in
  match r with
  | Err _ => ld_die_errno what
  | Ok (count, data) => if count =? length then Ret data else ld_die_errno what
  end.

Definition ld_pwrite_exact (fd : Z) (buffer : list Z) (length offset : Z)
    (what : string) : sys unit :=
  let* r := ld_pwrite_full fd buffer length offset in
  match r with
  | Ok count => if count =? length then Ret tt else ld_die_errno what
  | Err _ => ld_die_errno what
  end.

(** [ld_sync_fd]: [fuel] bounds the interrupted attempts; [None] when the
    environment interrupts [fuel] times in a row. *)
Fixpoint ld_sync_fd (fuel : nat) (fd : Z) : sys (option (result unit)) :=
  match fuel with
  | O => Ret None
  | S fuel =>
      let* r := call (Fsync fd) in
      match r with
      | Err EINTR => ld_sync_fd fuel fd
      | r => Ret (Some r)
      end
  end.

(** ** Packed bitmaps *)

Definition ld_bitmap_size (bits : Z) : result Z :=
  if UINT64_MAX - 7 <? bits then Err EOVERFLOW
  else
    let packed := (bits +64 7) / 8 in
    if SIZE_MAX <? packed then Err EOVERFLOW else Ok packed.

(** [ld_bitmap_calloc]: [allocated] says whether [calloc] found the memory. *)
Definition ld_bitmap_calloc (allocated : bool) (bits : Z) : option (list Z) :=
  match ld_bitmap_size bits with
  | Err _ => None
  | Ok bytes =>
      if allocated then Some (replicate (Z.to_nat (if bytes =? 0 then 1 else bytes)) 0)
      else None
  end.

(** A byte out of the array is undefined behaviour in C; it reads as zero here
    and every theorem asks for an index in range. *)
Definition ld_bitmap_get (bitmap : option (list Z)) (bit : Z) : bool :=
  match bitmap with
  | None => false
  | Some b =>
      negb (Z.land (nth (Z.to_nat (Z.shiftr bit 3)) b 0)
                   (u8 (Z.shiftl 1 (Z.land bit 7))) =? 0)
  end.

Definition ld_bitmap_set (bitmap : list Z) (bit : Z) (value : bool) : list Z :=
  let mask := u8 (Z.shiftl 1 (Z.land bit 7)) in
  let i := Z.to_nat (Z.shiftr bit 3) in
  let old := nth i bitmap 0 in
  <[i := if value then Z.lor old mask else Z.land old (u8 (Z.lnot mask))]> bitmap.

Arguments ld_bitmap_get : simpl never.
Arguments ld_bitmap_set : simpl never.

(** ** Resource policy *)

Definition ld_available_memory_bytes : sys Z :=
  let* info := call MemInfo in
  let fallback :=
    let* (pages, page_size) := call AvailablePages in
    Ret (if (0 <? pages) && (0 <? page_size) then pages *64 page_size
         else 512 * 1024 * 1024) in
  match info with
  | Some entries =>
      match List.find (fun '(key, _, _) => String.eqb key "MemAvailable:") entries with
      | Some (_, value, _) => Ret (value *64 1024)
      | None => fallback
      end
  | None => fallback
  end.

Definition ld_default_ram_limit : sys Z :=
  let* available := ld_available_memory_bytes in
  let minimum := 64 * 1024 * 1024 in
  let reserve := 8 * 1024 * 1024 * 1024 in
  let maximum := 16 * 1024 * 1024 * 1024 in
  let selected := if reserve + minimum <? available then available -64 reserve
                  else available / 4 in
  let selected := if selected <? minimum then minimum else selected in
  let selected := if maximum <? selected then maximum else selected in
  Ret (if SIZE_MAX <? selected then SIZE_MAX else selected).

Definition ld_online_cpu_count : sys Z :=
  let* count := call OnlineCpus in
  Ret (if 0 <? count then count else 1).

Definition ld_default_worker_count (rotational serial_flash : bool) : sys Z :=
  let* cpus := ld_online_cpu_count in
  let cpu_budget := if 1 <? cpus then cpus - 1 else 1 in
  Ret (if rotational then 1
       else if serial_flash then (if 2 <? cpu_budget then 2 else cpu_budget)
       else cpu_budget).

(** ** Lemmas on bitmaps *)

Lemma land_7_range b : 0 <= Z.land b 7 < 8.
Proof. change 7 with (Z.ones 3). rewrite Z.land_ones by lia. apply Z.mod_pos_bound. lia. Qed.

Lemma land_7_mod b : Z.land b 7 = b mod 8.
Proof. change 7 with (Z.ones 3). by rewrite Z.land_ones by lia. Qed.

Lemma shiftr_3_div b : Z.shiftr b 3 = b / 8.
Proof. by rewrite Z.shiftr_div_pow2 by lia. Qed.

Lemma bit_mask_eq b : u8 (Z.shiftl 1 (Z.land b 7)) = 2 ^ (Z.land b 7).
Proof.
  pose proof (land_7_range b). rewrite Z.shiftl_1_l. apply u8_small. unfold is_u8.
  split; [lia|]. change TWO8 with (2 ^ 8). apply Z.pow_lt_mono_r; lia.
Qed.

Lemma land_pow2_testbit x k : 0 <= k -> (Z.land x (2 ^ k) =? 0) = negb (Z.testbit x k).
Proof.
  intros Hk. destruct (Z.testbit x k) eqn:E; simpl.
  - apply Z.eqb_neq. intros H. apply (f_equal (fun y => Z.testbit y k)) in H.
    by rewrite Z.land_spec, E, Z.pow2_bits_true, Z.bits_0 in H by lia.
  - apply Z.eqb_eq. apply Z.bits_inj'. intros i Hi. rewrite Z.land_spec, Z.bits_0.
    destruct (Z.eq_dec i k) as [->|]; [by rewrite E|].
    by rewrite Z.pow2_bits_false, andb_false_r by lia.
Qed.

Lemma ld_bitmap_get_testbit b bit :
  ld_bitmap_get (Some b) bit = Z.testbit (nth (Z.to_nat (bit / 8)) b 0) (bit mod 8).
Proof.
  unfold ld_bitmap_get. pose proof (land_7_range bit).
  rewrite bit_mask_eq, land_pow2_testbit by lia.
  by rewrite negb_involutive, land_7_mod, shiftr_3_div.
Qed.

(** Clearing with the complemented mask of a byte clears that bit only. *)
Lemma land_u8_lnot_testbit x k i :
  0 <= k < 8 -> 0 <= i < 8 ->
  Z.testbit (Z.land x (u8 (Z.lnot (2 ^ k)))) i = Z.testbit x i && negb (i =? k).
Proof.
  intros Hk Hi. unfold u8. change TWO8 with (2 ^ 8).
  rewrite Z.land_spec, Z.mod_pow2_bits_low, Z.lnot_spec by lia. f_equal. f_equal.
  destruct (Z.eqb_spec i k) as [->|]; [by apply Z.pow2_bits_true; lia|].
  by apply Z.pow2_bits_false; lia.
Qed.

Lemma lor_pow2_testbit x k i :
  0 <= k -> 0 <= i ->
  Z.testbit (Z.lor x (2 ^ k)) i = Z.testbit x i || (i =? k).
Proof.
  intros Hk Hi. rewrite Z.lor_spec. f_equal.
  destruct (Z.eqb_spec i k) as [->|]; [by apply Z.pow2_bits_true; lia|].
  by apply Z.pow2_bits_false; lia.
Qed.

Lemma ld_bitmap_set_get b bit v j :
  0 <= bit -> 0 <= j -> (Z.to_nat (bit / 8) < length b)%nat ->
  ld_bitmap_get (Some (ld_bitmap_set b bit v)) j =
  if bit =? j then v else ld_bitmap_get (Some b) j.
Proof.
  intros Hb Hj Hlen. rewrite !ld_bitmap_get_testbit. unfold ld_bitmap_set.
  rewrite bit_mask_eq, shiftr_3_div, land_7_mod.
  pose proof (Z.mod_pos_bound bit 8 ltac:(lia)).
  pose proof (Z.mod_pos_bound j 8 ltac:(lia)).
  pose proof (Z.div_mod bit 8 ltac:(lia)). pose proof (Z.div_mod j 8 ltac:(lia)).
  pose proof (Z.div_pos bit 8 ltac:(lia) ltac:(lia)).
  pose proof (Z.div_pos j 8 ltac:(lia) ltac:(lia)).
  rewrite !nth_lookup. destruct (Z.eq_dec (bit / 8) (j / 8)) as [E|E].
  - rewrite <- E, list_lookup_insert_eq by done. simpl.
    rewrite <- !nth_lookup.
    destruct v.
    + rewrite lor_pow2_testbit by lia.
      destruct (Z.eqb_spec (j mod 8) (bit mod 8)), (Z.eqb_spec bit j);
        try lia; by rewrite ?orb_true_r, ?orb_false_r.
    + rewrite land_u8_lnot_testbit by lia.
      destruct (Z.eqb_spec (j mod 8) (bit mod 8)), (Z.eqb_spec bit j);
        try lia; by rewrite ?andb_false_r, ?andb_true_r.
  - rewrite list_lookup_insert_ne by lia.
    destruct (Z.eqb_spec bit j) as [->|]; [done|done].
Qed.

Lemma ld_bitmap_calloc_length bits b :
  is_u64 bits -> ld_bitmap_calloc true bits = Some b ->
  (forall bit, 0 <= bit < bits -> (Z.to_nat (bit / 8) < length b)%nat) /\
  Forall is_u8 b /\ forall bit, 0 <= bit -> ld_bitmap_get (Some b) bit = false.
Proof.
  intros Hb. unfold ld_bitmap_calloc, ld_bitmap_size, is_u64 in *.
  destruct (Z.ltb_spec (UINT64_MAX - 7) bits); [done|]. unwrap64.
  destruct (_ <? _) eqn:E; [done|]. breflect. intros H1. injection H1 as <-.
  pose proof (Z.div_pos (bits + 7) 8 ltac:(lia) ltac:(lia)).
  split_and!.
  - intros bit Hbit. rewrite length_replicate.
    pose proof (Z.div_pos bit 8 ltac:(lia) ltac:(lia)).
    assert (bit / 8 < (bits + 7) / 8).
    { apply Z.div_lt_upper_bound; [lia|].
      pose proof (Z.mul_succ_div_gt (bits + 7) 8 ltac:(lia)).
      pose proof (Z.div_mod (bits + 7) 8 ltac:(lia)).
      pose proof (Z.mod_pos_bound (bits + 7) 8 ltac:(lia)). lia. }
    destruct (Z.eqb_spec ((bits + 7) / 8) 0); lia.
  - apply Forall_replicate. unfold is_u8. lia.
  - intros bit Hbit. rewrite ld_bitmap_get_testbit, nth_lookup.
    destruct (replicate _ 0 !! _) eqn:El; simpl; [|by rewrite Z.bits_0].
    apply lookup_replicate in El as [-> _]. by rewrite Z.bits_0.
Qed.

Lemma ld_bitmap_set_length b bit v : length (ld_bitmap_set b bit v) = length b.
Proof. unfold ld_bitmap_set. by rewrite length_insert. Qed.

(** The value last stored for bit [j] by a sequence of stores. *)
Fixpoint last_store (ops : list (Z * bool)) (j : Z) (initial : bool) : bool :=
  match ops with
  | [] => initial
  | (bit, v) :: ops => last_store ops j (if bit =? j then v else initial)
  end.

Definition apply_stores (ops : list (Z * bool)) (b : list Z) : list Z :=
  fold_left (fun b op => ld_bitmap_set b (fst op) (snd op)) ops b.

Lemma apply_stores_get ops b bits j :
  (forall bit, 0 <= bit < bits -> (Z.to_nat (bit / 8) < length b)%nat) ->
  Forall (fun op => 0 <= fst op < bits) ops -> 0 <= j ->
  ld_bitmap_get (Some (apply_stores ops b)) j =
  last_store ops j (ld_bitmap_get (Some b) j).
Proof.
  intros Hlen Hops Hj. revert b Hlen.
  induction Hops as [|[bit v] ops Hop Hops IH]; intros b Hlen; [done|].
  change (apply_stores ((bit, v) :: ops) b) with (apply_stores ops (ld_bitmap_set b bit v)).
  simpl in *. rewrite IH.
  - rewrite ld_bitmap_set_get by (try lia; by apply Hlen). done.
  - intros. rewrite ld_bitmap_set_length. by apply Hlen.
Qed.

(** ** Properties *)

(** C40: a bitmap allocated for [bits] allocation units behaves as a map from
    unit numbers to booleans, all false at first: after any sequence of
    in-range stores a read returns the value last stored for that unit, and no
    store disturbs another unit. *)
Theorem bitmap_refines_boolean_map bits b ops j :
  is_u64 bits -> ld_bitmap_calloc true bits = Some b ->
  Forall (fun op => 0 <= fst op < bits) ops -> 0 <= j < bits ->
  ld_bitmap_get (Some (apply_stores ops b)) j = last_store ops j false.
Proof.
  intros Hb Hc Hops Hj.
  destruct (ld_bitmap_calloc_length bits b Hb Hc) as (Hlen & _ & Hzero).
  rewrite (apply_stores_get ops b bits j) by (done || lia). by rewrite Hzero by lia.
Qed.

Lemma bitmap_refines_boolean_map_witness :
  ld_bitmap_get (Some (apply_stores [(3, true); (11, true); (3, false); (12, true)]
    (replicate 3 0))) 11 = true.
Proof.
  apply (bitmap_refines_boolean_map 20 (replicate 3 0)
    [(3, true); (11, true); (3, false); (12, true)] 11); try vm_decide; done.
Defined.

(** For every interruption pattern [ld_sync_fd] repeats [fsync] exactly as
    long as it is interrupted: with [n] interruptions before the answer [r],
    any fuel above [n] returns [r] after [n + 1] calls, and the value it
    returns is never the interruption itself. *)
Theorem sync_fd_retries_interruptions fd n fuel r :
  (n < fuel)%nat -> r <> Err EINTR ->
  runs (ld_sync_fd fuel fd)
    (replicate n (Event (Fsync fd) (Err EINTR)) ++ [Event (Fsync fd) r])
    (Returned (Some r)) /\
  forall fuel' t r', runs (ld_sync_fd fuel' fd) t (Returned (Some r')) -> r' <> Err EINTR.
Proof.
  intros Hn Hr. split.
  - revert n Hn. induction fuel as [|fuel IH]; intros n Hn; [lia|]. simpl.
    destruct n as [|n]; simpl; constructor.
    + destruct r as [[]|[]]; try constructor; done.
    + apply IH. lia.
  - intros fuel'. clear n Hn fuel Hr r.
    assert (H : forall t, wp (fun _ _ _ => True)
      (fun o _ => match o with Returned (Some r') => r' <> Err EINTR | _ => True end)
      (ld_sync_fd fuel' fd) t).
    { induction fuel' as [|fuel' IH]; intros t; simpl; [done|].
      split; [done|]. intros [[]|[]]; simpl; try done; apply IH. }
    intros t r' Hrun. by destruct (wp_runs _ _ _ _ _ _ (H []) Hrun).
Qed.

Lemma sync_fd_retries_interruptions_witness :
  runs (ld_sync_fd 5 7)
    [Event (Fsync 7) (Err EINTR); Event (Fsync 7) (Err EINTR); Event (Fsync 7) (Err EIO)]
    (Returned (Some (Err EIO))).
Proof. apply (sync_fd_retries_interruptions 7 2 5 (Err EIO)); [lia|done]. Defined.

(** Whatever memory and processor counts the system reports, the default
    RAM limit lies between 64 MiB and 16 GiB, and the default worker count is
    at least one, at most one on rotational media, at most two on serial flash
    and never above the processor budget of [N - 1] (one on a single
    processor). *)
Theorem resource_policy_bounds rotational serial_flash tm tw limit workers :
  runs ld_default_ram_limit tm (Returned limit) ->
  runs (ld_default_worker_count rotational serial_flash) tw (Returned workers) ->
  64 * 1024 * 1024 <= limit <= 16 * 1024 * 1024 * 1024 /\
  exists cpus, tw = [Event OnlineCpus cpus] /\
    1 <= workers <= Z.max 1 (cpus - 1) /\
    (rotational = true -> workers = 1) /\ (serial_flash = true -> workers <= 2).
Proof.
  intros Hm Hw. split.
  - assert (H : forall t, wp (fun _ _ _ => True)
      (fun o _ => match o with
        | Returned r => 64 * 1024 * 1024 <= r <= 16 * 1024 * 1024 * 1024
        | Died _ => True end) ld_default_ram_limit t).
    { intros t. unfold ld_default_ram_limit. apply wp_bind.
      eapply wp_mono; [apply wp_any|done|].
      intros [available|m] t' _; simpl; [|done].
      generalize (available -64 8589934592) as a, (available / 4) as b. intros a b.
      case_ltb; lia. }
    by destruct (wp_runs _ _ _ _ _ _ (H []) Hm).
  - apply runs_inv in Hw as (cpus & t' & -> & Hw). apply runs_inv in Hw as [-> Hw].
    injection Hw as ->. exists cpus. split; [done|].
    destruct rotational, serial_flash; case_ltb; split_and!; try done; lia.
Qed.

Lemma resource_policy_bounds_witness :
  64 * 1024 * 1024 <= 17179869184 <= 16 * 1024 * 1024 * 1024.
Proof.
  refine (proj1 (resource_policy_bounds false true
    [Event MemInfo (Some [("MemAvailable:", 33554432, "kB")])] [Event OnlineCpus 8]
    17179869184 2 _ _)); apply runs_vis; apply runs_ret.
Defined.
