(* ===== verification/Path.v ===== *)
(** Recovery-state paths of [src/defragger/src/core/ld_path.c]: suffix
    derivation, the walk that creates a trusted directory tree, and the staging
    capacity preflight. *)
From S2P Require Import Prelude Effects CString Infiltratr Sys.

Section Path.
Context {common : Infiltratr}.

(** ** Names *)

Definition ld_path_append_suffix (base suffix : string) : sys string :=
  match infiltratr_size_add_checked (strlen base) (strlen suffix) with
  | None => ld_die "path suffix length overflow"
  | Some combined_length =>
      match infiltratr_size_add_checked combined_length 1 with
      | None => ld_die "path suffix length overflow"
      | Some allocation_size =>
          match infiltratr_path_concat allocation_size base suffix with
          | None => ld_die "cannot append path suffix"
          | Some result => Ret result
          end
      end
  end.

Definition ld_path_is_derived_from (candidate base suffix : option string) : bool :=
  match candidate, base, suffix with
  | Some candidate, Some base, Some suffix =>
      match infiltratr_size_add_checked (strlen base) (strlen suffix) with
      | None => false
      | Some expected_length =>
          if negb (strlen candidate =? expected_length) then false
          else
            String.eqb (String.substring 0 (String.length base) candidate) base &&
            String.eqb (String.substring (String.length base) (String.length suffix) candidate)
              suffix
      end
  | _, _, _ => false
  end.

Definition ld_path_parent_directory (path : string) : string :=
  match rsplit_char "/" path with
  | None => "."
  | Some (before, _) => if is_empty before then "/" else before
  end.

(** ** The trusted walk *)

Definition child_flags : list oflag := [O_RDONLY; O_DIRECTORY; O_CLOEXEC].
Definition child_resolve : list resolve_flag :=
  [RESOLVE_BENEATH; RESOLVE_NO_SYMLINKS; RESOLVE_NO_MAGICLINKS].

Definition open_child_directory (parent : Z) (component : string) : sys (result Z) :=
  let* r := call (Openat2 parent component child_flags child_resolve) in
  match r with
  | Ok fd => Ret (Ok fd)
  | Err e =>
      if bool_decide (e <> ENOSYS) && bool_decide (e <> EINVAL) && bool_decide (e <> E2BIG)
      then Ret (Err e)
      else call (Openat parent component (child_flags ++ [O_NOFOLLOW]))
  end.

Definition trusted_directory (status : stat) (effective_uid : Z) : bool :=
  if negb (S_ISDIR (st_mode status)) then false
  else
    let shared_write := Z.land (st_mode status) (Z.lor S_IWGRP S_IWOTH) in
    let sticky := negb (Z.land (st_mode status) S_ISVTX =? 0) in
    if effective_uid =? 0
    then (st_uid status =? 0) && ((shared_write =? 0) || sticky)
    else if st_uid status =? effective_uid then shared_write =? 0
    else if st_uid status =? 0 then
      if shared_write =? 0 then true else sticky
    else false.

(** The child, created with mode 0755 when it does not exist. *)
Definition open_or_create_child (directory : Z) (component : string) : sys (result Z) :=
  let* first := open_child_directory directory component in
  let retry (_ : unit) := open_child_directory directory component in
  match first with
  | Err ENOENT =>
      let* m := call (Mkdirat directory component 493) in
      match m with
      | Ok _ => retry tt
      | Err e => if bool_decide (e <> EEXIST) then Ret (Err e) else retry tt
      end
  | _ => Ret first
  end.

(** The loop over the components; it ends with the directory to close and the
    errno of a failure. *)
Fixpoint trusted_walk_loop (effective_uid directory : Z) (components : list string) :
    sys (Z * option errno) :=
  match components with
  | [] => Ret (directory, None)
  | component :: rest =>
      if String.eqb component "." || is_empty component
      then trusted_walk_loop effective_uid directory rest
      else if String.eqb component ".." then Ret (directory, Some EINVAL)
      else
        let* next := open_or_create_child directory component in
        match next with
        | Err e => Ret (directory, Some e)
        | Ok next =>
            let* s := call (Fstat next) in
            match s with
            | Err e => call (Close next) ;;; Ret (directory, Some e)
            | Ok status =>
                if negb (trusted_directory status effective_uid)
                then call (Close next) ;;; Ret (directory, Some EPERM)
                else call (Close directory) ;;; trusted_walk_loop effective_uid next rest
            end
        end
  end.

Definition ld_path_ensure_trusted_directory_tree (path : option string) : sys (result unit) :=
  match path with
  | None => Ret (Err EINVAL)
  | Some path =>
      if negb (bool_decide (head_char path = "/"%char)) then Ret (Err EINVAL)
      else
        let* d := call (Open "/" child_flags) in
        match d with
        | Err e => Ret (Err e)
        | Ok directory =>
            let* effective_uid := call Geteuid in
            let* (directory, failure) :=
              trusted_walk_loop effective_uid directory (strtok "/" path) in
            call (Close directory) ;;;
            Ret (match failure with None => Ok tt | Some e => Err e end)
        end
  end.

(** ** Staging capacity *)

(** The errno or success, and the two outputs when they were stored. *)
Definition ld_path_require_staging_capacity (path : option string) (payload_bytes : Z)
    (outputs_null : bool) : sys (result unit * option (Z * Z)) :=
  match path with
  | None => Ret (Err EINVAL, None)
  | Some path =>
      if (payload_bytes =? 0) || outputs_null then Ret (Err EINVAL, None)
      else
        let* s := call (Statvfs (ld_path_parent_directory path)) in
        match s with
        | Err e => Ret (Err e, None)
        | Ok info =>
            let unit := if negb (f_frsize info =? 0) then f_frsize info else f_bsize info in
            match infiltratr_u64_multiply_checked (f_bavail info) unit with
            | None => Ret (Err EOVERFLOW, None)
            | Some available =>
                let reserve := payload_bytes / 20 in
                if UINT64_MAX - reserve <? payload_bytes then Ret (Err EOVERFLOW, None)
                else
                  let required := payload_bytes +64 reserve in
                  Ret (if available <? required then Err ENOSPC else Ok tt,
                       Some (available, required))
            end
        end
  end.

(** ** What a successful walk did *)

(** [fd] is the child [component] of [parent], reached without following a
    symbolic link. *)
Definition child_opened (parent : Z) (component : string) (fd : Z) (ev : event sysE) : Prop :=
  ev = Event (Openat2 parent component child_flags child_resolve) (Ok fd) \/
  ev = Event (Openat parent component (child_flags ++ [O_NOFOLLOW])) (Ok fd).

Inductive trusted_walk (effective_uid : Z) :
    Z -> list string -> list (event sysE) -> Z -> Prop :=
| walk_done directory : trusted_walk effective_uid directory [] [] directory
| walk_skip directory component rest t last :
    component = "." \/ component = "" ->
    trusted_walk effective_uid directory rest t last ->
    trusted_walk effective_uid directory (component :: rest) t last
| walk_step directory component rest opening ev fd status r t last :
    component <> "." -> component <> ".." -> component <> "" ->
    child_opened directory component fd ev ->
    trusted_directory status effective_uid = true ->
    trusted_walk effective_uid fd rest t last ->
    trusted_walk effective_uid directory (component :: rest)
      (opening ++ ev :: Event (Fstat fd) (Ok status) :: Event (Close directory) r :: t) last.

(** ** Lemmas *)

Lemma substring_split n s : (n <= String.length s)%nat ->
  s = (String.substring 0 n s ++ String.substring n (String.length s - n) s)%string.
Proof.
  assert (Hall : forall v, String.substring 0 (String.length v) v = v)
    by (induction v as [|c v IH]; simpl; congruence).
  revert s. induction n as [|n IH]; intros s Hn.
  - rewrite Nat.sub_0_r, Hall. by destruct s.
  - destruct s as [|c s]; simpl in *; [lia|]. f_equal. apply IH. lia.
Qed.

Lemma open_child_runs parent component t o :
  runs (open_child_directory parent component) t o ->
  exists r, o = Returned r /\ fds_closed t = [] /\
  match r with
  | Ok fd => fds_opened t = [fd] /\
      exists pre ev, t = pre ++ [ev] /\ child_opened parent component fd ev
  | Err _ => fds_opened t = []
  end.
Proof.
  unfold open_child_directory. intros H. apply runs_inv in H as (r & t' & -> & H). cbn [pbind] in H.
  destruct r as [fd|e].
  - apply runs_inv in H as [-> ->]. eexists. split; [done|]. split; [done|]. split; [done|].
    eexists [], _. split; [done|]. by left.
  - destruct (_ && _ && _).
    + apply runs_inv in H as [-> ->]. by eexists.
    + apply runs_inv in H as (r & t'' & -> & H). apply runs_inv in H as [-> ->].
      exists r. split; [done|]. split; [done|]. destruct r as [fd|e']; [|done]. split; [done|].
      eexists [_], _. split; [done|]. by right.
Qed.

(** The lookup with its creation: the descriptor is the child, and nothing
    else stays open. *)
Lemma open_or_create_runs directory component t o :
  runs (open_or_create_child directory component) t o ->
  exists r, o = Returned r /\ fds_closed t = [] /\
  match r with
  | Ok fd => fds_opened t = [fd] /\
      exists pre ev, t = pre ++ [ev] /\ child_opened directory component fd ev
  | Err _ => fds_opened t = []
  end.
Proof.
  unfold open_or_create_child. intros H. apply pbind_runs in H as [(m & H & ->)|(first & t1 & t2 & -> & H1 & H)].
  { by apply open_child_runs in H as (? & ? & _). }
  apply open_child_runs in H1 as (r & [= <-] & C1 & R1). cbv zeta in H.
  assert (Hret : forall (r : result Z) t o, fds_opened t1 = [] ->
    runs (open_child_directory directory component) t o -> forall ev, fd_opened ev = [] -> fd_closed ev = [] ->
    exists r, o = Returned r /\ fds_closed (t1 ++ ev :: t) = [] /\
    match r with
    | Ok fd => fds_opened (t1 ++ ev :: t) = [fd] /\
        exists pre ev', t1 ++ ev :: t = pre ++ [ev'] /\ child_opened directory component fd ev'
    | Err _ => fds_opened (t1 ++ ev :: t) = []
    end).
  { intros _ t0 o0 O1 Hr ev Ho Hc. apply open_child_runs in Hr as (r & -> & C & R). exists r.
    rewrite fds_closed_app, fds_opened_app, C1, O1. unfold fds_opened, fds_closed in *. cbn [flat_map].
    rewrite Ho, Hc. split; [done|]. split; [done|]. destruct r as [fd|e]; [|done].
    destruct R as (R & pre & ev' & -> & ?). split; [done|]. exists (t1 ++ ev :: pre), ev'.
    by rewrite <- app_assoc. }
  destruct first as [fd|e].
  - apply runs_inv in H as [-> ->]. rewrite app_nil_r. eauto.
  - destruct e; try (apply runs_inv in H as [-> ->]; rewrite app_nil_r; by eexists).
    apply runs_inv in H as (m & t' & -> & H). cbn [pbind] in H. destruct m as [u|e].
    + by eapply (Hret (Ok 0)).
    + destruct (bool_decide (e <> EEXIST)); [|by eapply (Hret (Ok 0))].
      apply runs_inv in H as [-> ->]. eexists. split; [done|].
      rewrite fds_closed_app, fds_opened_app, C1, R1. done.
Qed.

Lemma trusted_walk_loop_runs effective_uid directory components t o :
  runs (trusted_walk_loop effective_uid directory components) t o ->
  exists last failure, o = Returned (last, failure) /\
  Permutation (directory :: fds_opened t) (last :: fds_closed t) /\
  (failure = None -> ~ In ".." components /\
     trusted_walk effective_uid directory components t last).
Proof.
  revert directory t. induction components as [|c rest IH]; intros directory t H; cbn [trusted_walk_loop] in H.
  { apply runs_inv in H as [-> ->]. exists directory, None. split_and!; [done|done|].
    intros _. split; [by intros []|constructor]. }
  destruct (String.eqb c "." || is_empty c) eqn:Hskip.
  { apply IH in H as (last & f & -> & HP & HW). exists last, f. split; [done|]. split; [done|].
    assert (c = "." \/ c = "") as Hc.
    { apply orb_true_iff in Hskip as [Hs|Hs]; [left; by apply String.eqb_eq|right; by destruct c]. }
    intros Hf. destruct (HW Hf). split; [|by constructor].
    intros [->|]; [destruct Hc; done|done]. }
  apply orb_false_iff in Hskip as [Hdot Hemp]. apply String.eqb_neq in Hdot.
  assert (c <> "") by (by destruct c).
  destruct (String.eqb_spec c "..") as [->|Hdd].
  { apply runs_inv in H as [-> ->]. by exists directory, (Some EINVAL). }
  apply pbind_runs in H as [(m & H & ->)|(next & t1 & t2 & -> & H1 & H)].
  { by apply open_or_create_runs in H as (? & ? & _). }
  apply open_or_create_runs in H1 as (r & [= <-] & C1 & R1).
  rewrite fds_opened_app, fds_closed_app, C1. destruct next as [fd|e].
  2: { apply runs_inv in H as [-> ->]. rewrite R1. by exists directory, (Some e). }
  destruct R1 as (O1 & pre & ev & -> & Hev). rewrite O1.
  apply runs_inv in H as (s & t' & -> & H). cbn [pbind] in H.
  assert (Hclose : forall f, runs (Vis (Close fd) (fun _ => Ret (directory, Some f))) t' o ->
    exists last failure, o = Returned (last, failure) /\
      Permutation (directory :: [fd] ++ fds_opened (Event (Fstat fd) s :: t'))
        (last :: [] ++ fds_closed (Event (Fstat fd) s :: t')) /\
      (failure = None -> ~ In ".." (c :: rest) /\ trusted_walk effective_uid directory (c :: rest)
         ((pre ++ [ev]) ++ Event (Fstat fd) s :: t') last)).
  { intros f Hr. apply runs_inv in Hr as (x & t'' & -> & Hr). apply runs_inv in Hr as [-> ->].
    by exists directory, (Some f). }
  destruct s as [status|e]; [|by apply (Hclose e)].
  destruct (trusted_directory status effective_uid) eqn:Htr; [|by apply (Hclose EPERM)].
  clear Hclose. simpl negb in H. cbv iota in H. apply runs_inv in H as (x & t'' & -> & H).
  cbn [pbind] in H. apply IH in H as (last & f & -> & HP & HW). exists last, f. split; [done|]. split.
  - simpl. change (flat_map fd_opened t'') with (fds_opened t'').
    change (flat_map fd_closed t'') with (fds_closed t''). rewrite HP. apply perm_swap.
  - intros Hf. destruct (HW Hf) as [Hn Hw]. split; [by intros [?|?]|].
    rewrite <- app_assoc. simpl. by eapply walk_step.
Qed.
End Path.

(** ** Properties *)

(** The trusted walk reports success only for an absolute path without
    [..], after reaching every component from the root one directory at a time,
    each one opened without following a symbolic link and, through that very
    descriptor, found to be a directory that the effective user (or root) owns
    and that others cannot write unless it is sticky. *)
Theorem trusted_tree_every_component path t :
  runs (ld_path_ensure_trusted_directory_tree (Some path)) t (Returned (Ok tt)) ->
  head_char path = "/"%char /\ ~ In ".." (strtok "/" path) /\
  exists root effective_uid t' last r,
    t = Event (Open "/" child_flags) (Ok root) :: Event Geteuid effective_uid ::
        t' ++ [Event (Close last) r] /\
    trusted_walk effective_uid root (strtok "/" path) t' last.
Proof.
  unfold ld_path_ensure_trusted_directory_tree. intros H.
  case_bool_decide as Hh; [|by apply runs_inv in H as [_ ?]]. simpl negb in H. cbv iota in H.
  apply runs_inv in H as (d & t1 & -> & H). cbn [pbind] in H.
  destruct d as [root|e]; [|by apply runs_inv in H as [_ ?]].
  apply runs_inv in H as (uid & t2 & -> & H). cbn [pbind] in H.
  apply pbind_runs in H as [(m & H & ?)|([last f] & t3 & t4 & -> & H1 & H)]; [done|].
  apply trusted_walk_loop_runs in H1 as (last' & f' & [= <- <-] & _ & HW).
  apply runs_inv in H as (r & t5 & -> & H). cbn [pbind] in H. apply runs_inv in H as [-> H].
  destruct f as [e|]; [done|]. destruct (HW eq_refl). split; [done|]. split; [done|].
  by exists root, uid, t3, last, r.
Qed.

(** The trusted walk closes exactly the descriptors it opened, in success
    and in every failure, whatever the system answers. *)
Theorem trusted_tree_closes_descriptors path t o :
  runs (ld_path_ensure_trusted_directory_tree path) t o ->
  Permutation (fds_opened t) (fds_closed t) /\ exists r, o = Returned r.
Proof.
  unfold ld_path_ensure_trusted_directory_tree. intros H.
  destruct path as [path|]; [|apply runs_inv in H as [-> ->]; eauto].
  destruct (negb _); [apply runs_inv in H as [-> ->]; eauto|].
  apply runs_inv in H as (d & t1 & -> & H). cbn [pbind] in H.
  destruct d as [root|e]; [|apply runs_inv in H as [-> ->]; eauto].
  apply runs_inv in H as (uid & t2 & -> & H). cbn [pbind] in H.
  apply pbind_runs in H as [(m & H & ?)|([last f] & t3 & t4 & -> & H1 & H)].
  { by apply trusted_walk_loop_runs in H as (? & ? & ? & _). }
  apply trusted_walk_loop_runs in H1 as (last' & f' & [= <- <-] & HP & _).
  apply runs_inv in H as (r & t5 & -> & H). cbn [pbind] in H. apply runs_inv in H as [-> ->].
  split; [|eauto]. simpl. change (flat_map fd_opened ?x) with (fds_opened x).
  change (flat_map fd_closed ?x) with (fds_closed x).
  rewrite fds_opened_app, fds_closed_app. simpl. rewrite app_nil_r, HP.
  apply Permutation_cons_append.
Qed.

(** An environment for the witnesses: a root that owns everything, and
    descriptors in order. *)
Definition demo_trace : list (event sysE) :=
  [Event (Open "/" child_flags) (Ok 3); Event Geteuid 0;
   Event (Openat2 3 "var" child_flags child_resolve) (Ok 4);
   Event (Fstat 4) (Ok (mkStat 16877 1 2 0 0 0 1)); Event (Close 3) (Ok tt);
   Event (Close 4) (Ok tt)].

Lemma demo_trace_runs :
  runs (ld_path_ensure_trusted_directory_tree (Some "/var")) demo_trace (Returned (Ok tt)).
Proof.
  apply (runs_vis _ (Open _ _) _ (Ok 3)). apply (runs_vis _ Geteuid _ 0).
  apply (runs_vis _ (Openat2 _ _ _ _) _ (Ok 4)).
  apply (runs_vis _ (Fstat _) _ (Ok (mkStat 16877 1 2 0 0 0 1))).
  apply (runs_vis _ (Close _) _ (Ok tt)). apply (runs_vis _ (Close _) _ (Ok tt)).
  apply runs_ret.
Qed.

Lemma trusted_tree_every_component_witness :
  head_char "/var" = "/"%char /\ ~ In ".." (strtok "/" "/var") /\
  exists root effective_uid t' last r,
    demo_trace = Event (Open "/" child_flags) (Ok root) :: Event Geteuid effective_uid ::
        t' ++ [Event (Close last) r] /\
    trusted_walk effective_uid root (strtok "/" "/var") t' last.
Proof. exact (trusted_tree_every_component "/var" demo_trace demo_trace_runs). Defined.

Lemma trusted_tree_closes_descriptors_witness :
  Permutation (fds_opened demo_trace) (fds_closed demo_trace) /\
  exists r : result unit, Returned (Ok tt) = Returned r.
Proof. exact (trusted_tree_closes_descriptors (Some "/var") demo_trace _ demo_trace_runs). Defined.

Section Suffix.
Context {common : Infiltratr} {L : InfiltratrLaws common}.

(** Suffix derivation is exact: a candidate is accepted as derived exactly
    when it is the base followed by the suffix, byte for byte, and this is the
    text [ld_path_append_suffix] builds for every base and suffix that fit the
    address space. *)
Theorem derived_suffix_exact base suffix :
  strlen base + strlen suffix + 1 <= SIZE_MAX ->
  ld_path_append_suffix base suffix = Ret (base ++ suffix)%string /\
  forall candidate, ld_path_is_derived_from (Some candidate) (Some base) (Some suffix) = true <->
    candidate = (base ++ suffix)%string.
Proof.
  intros Hlen. pose proof (strlen_nonneg base). pose proof (strlen_nonneg suffix).
  assert (Hadd : infiltratr_size_add_checked (strlen base) (strlen suffix) =
    Some (strlen base + strlen suffix)).
  { rewrite size_add_spec by (unfold is_u64; lia). by rewrite (proj2 (Z.leb_le _ _)) by lia. }
  split.
  - unfold ld_path_append_suffix. rewrite Hadd, size_add_spec by (unfold is_u64; lia).
    rewrite (proj2 (Z.leb_le _ _)), path_concat_spec by lia. unfold fits.
    rewrite strlen_app, (proj2 (Z.ltb_lt _ _)) by lia. done.
  - intros candidate. unfold ld_path_is_derived_from. rewrite Hadd. split.
    + destruct (Z.eqb_spec (strlen candidate) (strlen base + strlen suffix)) as [E|]; [|done].
      simpl negb. cbv iota. intros [H1 H2]%andb_true_iff.
      apply String.eqb_eq in H1, H2. unfold strlen in E.
      rewrite (substring_split (String.length base) candidate) by lia. rewrite H1. f_equal.
      replace (String.length candidate - String.length base)%nat with (String.length suffix) by lia.
      exact H2.
    + intros ->. rewrite strlen_app, Z.eqb_refl. simpl negb. cbv iota.
      rewrite substring_app, substring_after. by rewrite !String.eqb_refl.
Qed.

(** The staging preflight decides exactly: with the free space the available
    blocks times their unit and the requirement the payload and a twentieth of
    it, it succeeds when the requirement is covered, answers ENOSPC when it is
    not and EOVERFLOW when one of the two exceeds 64 bits; the outputs are the
    two numbers, stored exactly when neither overflows. *)
Theorem staging_capacity_exact path payload info r out :
  is_u64 payload -> payload <> 0 ->
  is_u64 (f_bavail info) -> is_u64 (f_frsize info) -> is_u64 (f_bsize info) ->
  runs (ld_path_require_staging_capacity (Some path) payload false)
    [Event (Statvfs (ld_path_parent_directory path)) (Ok info)] (Returned (r, out)) ->
  let unit := if f_frsize info =? 0 then f_bsize info else f_frsize info in
  let available := f_bavail info * unit in
  let required := payload + payload / 20 in
  (r = Ok tt <-> required <= available <= UINT64_MAX) /\
  (r = Err ENOSPC <-> available < required <= UINT64_MAX) /\
  (r = Err EOVERFLOW <-> UINT64_MAX < available \/ UINT64_MAX < required) /\
  (out = if (available <=? UINT64_MAX) && (required <=? UINT64_MAX)
         then Some (available, required) else None).
Proof.
  intros Hp Hp0 Hb Hf Hs H. unfold ld_path_require_staging_capacity in H.
  rewrite (proj2 (Z.eqb_neq payload 0)) in H by done. simpl orb in H. cbv iota in H.
  cbv zeta. remember (if f_frsize info =? 0 then f_bsize info else f_frsize info) as unit eqn:Hu.
  assert (Hu' : (if negb (f_frsize info =? 0) then f_frsize info else f_bsize info) = unit)
    by (rewrite Hu; by destruct (f_frsize info =? 0)).
  assert (Hunit : is_u64 unit) by (rewrite Hu; by destruct (_ =? _)). clear Hu.
  apply runs_inv in H as (x & t' & Ht & H). cbn [pbind] in H.
  assert (x = Ok info /\ t' = []) as [-> ->].
  { split; [|by injection Ht].
    apply (f_equal (fun l => match l with
      | Event e x :: _ => match e in sysE X return X -> result statvfs with
                          | Statvfs _ => fun x => x | _ => fun _ => Err EIO end x
      | [] => Err EIO end)) in Ht. simpl in Ht. congruence. }
  cbv zeta in H. rewrite Hu', multiply_spec in H by done.
  assert (Hd : 0 <= payload / 20 <= payload)
    by (unfold is_u64 in *; split; [apply Z.div_pos; lia|apply Z.div_le_upper_bound; lia]).
  assert (0 <= f_bavail info * unit) by (unfold is_u64 in *; nia).
  destruct (Z.leb_spec (f_bavail info * unit) UINT64_MAX) as [Ha|Ha].
  2: { apply runs_inv in H as [_ [= -> ->]]. try rewrite (proj2 (Z.leb_gt _ _) Ha). simpl. split_and!; try done; split; intros; first [done | exfalso; lia | lia]. }
  destruct (Z.ltb_spec (UINT64_MAX - payload / 20) payload) as [Hr|Hr].
  { apply runs_inv in H as [_ [= -> ->]]. rewrite (proj2 (Z.leb_gt _ _)) by lia. simpl.
    split_and!; try done; split; intros; first [done | exfalso; lia | lia]. }
  unfold is_u64 in Hp. unwrap64. apply runs_inv in H as [_ [= -> ->]].
  rewrite (proj2 (Z.leb_le (payload + _) _)) by lia. simpl.
  destruct (Z.ltb_spec (f_bavail info * unit) (payload + payload / 20)); split_and!; try done;
    split; intros; first [done | exfalso; lia | lia].
Qed.
End Suffix.

Lemma derived_suffix_exact_witness :
  ld_path_append_suffix (common := infiltratr_reference) "/a/b" ".journal" =
    Ret ("/a/b" ++ ".journal")%string /\
  forall candidate, ld_path_is_derived_from (common := infiltratr_reference)
    (Some candidate) (Some "/a/b") (Some ".journal") = true <->
    candidate = ("/a/b" ++ ".journal")%string.
Proof.
  apply (derived_suffix_exact (L := infiltratr_reference_laws)). vm_compute. discriminate.
Defined.

Lemma staging_capacity_exact_witness :
  exists r out, runs (ld_path_require_staging_capacity (common := infiltratr_reference)
    (Some "/var/j") 1000 false)
    [Event (Statvfs "/var") (Ok (mkStatvfs 4096 512 1))] (Returned (r, out)) /\
  (r = Ok tt <-> 1000 + 1000 / 20 <= 1 * 4096 <= UINT64_MAX).
Proof.
  exists (Ok tt), (Some (4096, 1050)).
  assert (Hr : runs (ld_path_require_staging_capacity (common := infiltratr_reference)
    (Some "/var/j") 1000 false)
    [Event (Statvfs "/var") (Ok (mkStatvfs 4096 512 1))] (Returned (Ok tt, Some (4096, 1050)))).
  { apply (runs_vis _ (Statvfs _) _ (Ok (mkStatvfs 4096 512 1))). apply runs_ret. }
  split; [exact Hr|].
  refine (proj1 (staging_capacity_exact (L := infiltratr_reference_laws) "/var/j" 1000
    (mkStatvfs 4096 512 1) (Ok tt) (Some (4096, 1050)) _ _ _ _ _ Hr)); vm_decide || discriminate.
Defined.
