(* ===== verification/DeviceTopology.v ===== *)
(** Overlap safety of [src/defragger/src/core/ld_device.c]: the walk over the
    block-device topology of sysfs, and the mount and swap checks built on it. *)
From S2P Require Import Prelude Effects CString Infiltratr Sys.

Definition LD_MAX_RELATED_DEVICES : nat := 1024.

Record LdRelatedDevice := mkRelated {
  value : Z;
  exact_mapping : bool;
  relations_scanned : bool;
  children_scanned : bool;
}.

(** ** The related set *)

(** The first entry with the value, marked exact on request. *)
Fixpoint mark_related (devices : list LdRelatedDevice) (v : Z) (exact : bool) :
    option (list LdRelatedDevice) :=
  match devices with
  | [] => None
  | d :: rest =>
      if value d =? v
      then Some ((if exact then mkRelated (value d) true (relations_scanned d) (children_scanned d)
                  else d) :: rest)
      else match mark_related rest v exact with
           | Some rest => Some (d :: rest)
           | None => None
           end
  end.

Definition ld_add_related_device (devices : list LdRelatedDevice) (v : Z) (exact : bool) :
    result (list LdRelatedDevice) :=
  match mark_related devices v exact with
  | Some devices => Ok devices
  | None =>
      if Nat.leb LD_MAX_RELATED_DEVICES (length devices) then Err EOVERFLOW
      else Ok (devices ++ [mkRelated v exact false false])
  end.

Definition ld_related_contains (devices : list LdRelatedDevice) (v : Z) : bool :=
  existsb (fun d => value d =? v) devices.

(** ** Mount fields *)

Definition octal_value (a b c : ascii) : Z :=
  (code a - 48) * 64 + (code b - 48) * 8 + (code c - 48).

Fixpoint decode_octal (s : string) : string :=
  match s with
  | EmptyString => EmptyString
  | String a (String b (String c (String d rest)) as tail) =>
      if bool_decide (a = BACKSLASH) && isoctal b && isoctal c && isoctal d
      then String (chr (u8 (octal_value b c d))) (decode_octal rest)
      else String a (decode_octal tail)
  | String a tail => String a (decode_octal tail)
  end.

Definition ld_decode_mount_field (value : option string) : option string :=
  match value with
  | None => None
  | Some s => Some (cut_nul (decode_octal s))
  end.

(** ** [sscanf] words *)

Fixpoint skip_space (s : string) : string :=
  match s with
  | EmptyString => EmptyString
  | String c s' => if isspace c then skip_space s' else s
  end.

(** At most [limit] characters up to white space, and the rest. *)
Fixpoint take_word (limit : nat) (s : string) : string * string :=
  match limit, s with
  | O, _ => (EmptyString, s)
  | _, EmptyString => (EmptyString, EmptyString)
  | S limit, String c s' =>
      if isspace c then (EmptyString, s)
      else let '(w, r) := take_word limit s' in (String c w, r)
  end.

(** One [%<limit>s] conversion. *)
Definition scan_word (limit : nat) (s : string) : option (string * string) :=
  let '(w, r) := take_word limit (skip_space s) in
  if is_empty w then None else Some (w, r).

(** [%s] without a width: the whole word. *)
Definition scan_any (s : string) : option (string * string) :=
  scan_word (String.length s) s.

Section Topology.
Context {common : Infiltratr}.

(** ** Reading sysfs *)

Definition ld_parse_device_number (text : option string) : option Z :=
  match text with
  | None => None
  | Some text =>
      match infiltratr_parse_u64_token text 10 with
      | None => None
      | Some (found_major, cursor) =>
          if (UINT32_MAX <? found_major) || negb (bool_decide (head_char cursor = ":"%char))
          then None
          else match cursor with
               | EmptyString => None
               | String _ cursor =>
                   match infiltratr_parse_u64_token cursor 10 with
                   | None => None
                   | Some (found_minor, cursor) =>
                       if (UINT32_MAX <? found_minor) || negb (is_empty cursor) then None
                       else Some (makedev found_major found_minor)
                   end
               end
      end
  end.

Definition ld_read_sysfs_device (path : string) : sys (result Z) :=
  try* text := call (ReadText path 64) in
  Ret (match ld_parse_device_number (Some text) with
       | Some d => Ok d
       | None => Err EIO
       end).

(** [snprintf] into a [PATH_MAX] buffer. *)
Definition path_text (s : string) : result string :=
  if fits s PATH_MAX then Ok s else Err ENAMETOOLONG.

Definition device_text (device : Z) : string :=
  (utoa (major device) ++ ":" ++ utoa (minor device))%string.

Definition ld_resolve_sysfs_device (device size : Z) : sys (result string) :=
  match path_text ("/sys/dev/block/" ++ device_text device) with
  | Err e => Ret (Err e)
  | Ok link_path => call (RealpathCopy link_path size)
  end.

Definition ld_sysfs_is_partition (sysfs_path : option string) : sys (result bool) :=
  match sysfs_path with
  | None => Ret (Err EINVAL)
  | Some sysfs_path =>
      match path_text (sysfs_path ++ "/partition") with
      | Err e => Ret (Err e)
      | Ok path =>
          let* r := call (Stat path) in
          Ret (match r with
               | Ok _ => Ok true
               | Err e => if decide (e = ENOENT) then Ok false else Err e
               end)
      end
  end.

(** ** The walk *)

(** The entries of one relation directory. *)
Fixpoint collect_entries (path : string) (names : list string) (devices : list LdRelatedDevice)
    (exact require : bool) : sys (result (list LdRelatedDevice)) :=
  match names with
  | [] => Ret (Ok devices)
  | name :: names =>
      if String.eqb name "." || String.eqb name ".."
      then collect_entries path names devices exact require
      else match path_text (path ++ "/" ++ name ++ "/dev") with
      | Err e => Ret (Err e)
      | Ok device_path =>
          let* r := ld_read_sysfs_device device_path in
          match r with
          | Err e =>
              if require then Ret (Err (errno_or e EIO))
              else collect_entries path names devices exact require
          | Ok related =>
              match ld_add_related_device devices related exact with
              | Err e => Ret (Err (errno_or e EOVERFLOW))
              | Ok devices => collect_entries path names devices exact require
              end
          end
      end
  end.

Definition ld_collect_sysfs_directory (path : string) (devices : list LdRelatedDevice)
    (exact require : bool) : sys (result (list LdRelatedDevice)) :=
  try* (names, failure) := call (ReadDir path) in
  try* devices := collect_entries path names devices exact require in
  Ret (if decide (failure = Enone) then Ok devices else Err failure).

Definition ld_add_partition_parent_device (sysfs_path : string) (is_partition : bool)
    (devices : list LdRelatedDevice) : sys (result (list LdRelatedDevice)) :=
  if negb is_partition then Ret (Ok devices)
  else match path_text sysfs_path with
  | Err e => Ret (Err e)
  | Ok parent_path =>
      match rsplit_char "/" parent_path with
      | None => Ret (Err EIO)
      | Some (parent_path, _) =>
          if PATH_MAX <? strlen parent_path + 5 then Ret (Err ENAMETOOLONG)
          else
            try* parent := ld_read_sysfs_device (parent_path ++ "/dev") in
            Ret (ld_add_related_device devices parent false)
      end
  end.

(** The relation directories that exist by contract. *)
Fixpoint collect_relations (sysfs_path : string) (relations : list string)
    (devices : list LdRelatedDevice) : sys (result (list LdRelatedDevice)) :=
  match relations with
  | [] => Ret (Ok devices)
  | name :: relations =>
      match path_text (sysfs_path ++ "/" ++ name) with
      | Err e => Ret (Err e)
      | Ok relation_path =>
          try* devices := ld_collect_sysfs_directory relation_path devices true true in
          collect_relations sysfs_path relations devices
      end
  end.

Definition relation_names (is_partition : bool) : list string :=
  if is_partition then ["holders"] else ["holders"; "slaves"].

Definition set_relations_scanned (d : LdRelatedDevice) : LdRelatedDevice :=
  mkRelated (value d) (exact_mapping d) true (children_scanned d).
Definition set_children_scanned (d : LdRelatedDevice) : LdRelatedDevice :=
  mkRelated (value d) (exact_mapping d) (relations_scanned d) true.

(** One iteration of the walk, at the device [d] of position [index]. *)
Definition visit_related (index : nat) (d : LdRelatedDevice) (devices : list LdRelatedDevice) :
    sys (result (list LdRelatedDevice)) :=
  try* sysfs_path := ld_resolve_sysfs_device (value d) PATH_MAX in
  try* is_partition := ld_sysfs_is_partition (Some sysfs_path) in
  try* devices :=
    (if negb (relations_scanned d) then
       let devices := alter set_relations_scanned index devices in
       try* devices := ld_add_partition_parent_device sysfs_path is_partition devices in
       collect_relations sysfs_path (relation_names is_partition) devices
     else Ret (Ok devices)) in
  match devices !! index with
  | None => Ret (Ok devices)
  | Some d =>
      if exact_mapping d && negb is_partition && negb (children_scanned d)
      then ld_collect_sysfs_directory sysfs_path (alter set_children_scanned index devices)
             true false
      else Ret (Ok devices)
  end.

(** The walk from [index] on; [None] when the fuel runs out. *)
Fixpoint collect_related_from (fuel index : nat) (devices : list LdRelatedDevice) :
    sys (option (result (list LdRelatedDevice))) :=
  match fuel with
  | O => Ret None
  | S fuel =>
      match devices !! index with
      | None => Ret (Some (Ok devices))
      | Some d =>
          let* r := visit_related index d devices in
          match r with
          | Err e => Ret (Some (Err e))
          | Ok devices => collect_related_from fuel (S index) devices
          end
      end
  end.

Definition ld_collect_related_devices (target : Z) :
    sys (option (result (list LdRelatedDevice))) :=
  match ld_add_related_device [] target true with
  | Err e => Ret (Some (Err e))
  | Ok devices => collect_related_from (S LD_MAX_RELATED_DEVICES) 0 devices
  end.

(** The callers' view: the fuel is enough ([related_fuel_enough] below), so
    that the [None] branch is never taken. *)
Definition related_devices (target : Z) : sys (result (list LdRelatedDevice)) :=
  let* r := ld_collect_related_devices target in
  match r with
  | Some r => Ret r
  | None => Ret (Err EOVERFLOW)
  end.

(** ** Mounted or swapped on *)

(** The third field of a mountinfo line, as the loop over spaces finds it. *)
Definition mountinfo_device (line : string) : option Z :=
  match nth_error (strtok " " line) 2 with
  | Some field => ld_parse_device_number (Some field)
  | None => None
  end.

Definition line_mounts (related : list LdRelatedDevice) (line : string) : bool :=
  match mountinfo_device line with
  | Some found => ld_related_contains related found
  | None => false
  end.

(** The device a swap source lives on. *)
Definition swap_device (status : stat) : Z :=
  if S_ISBLK (st_mode status) then st_rdev status else st_dev status.

(** The first word of a line of [/proc/swaps]. *)
Definition swap_source (line : string) : option string := fst <$> scan_word 4095 line.

Definition decoded (s : string) : string := default EmptyString (ld_decode_mount_field (Some s)).

Fixpoint swaps_on_related (related : list LdRelatedDevice) (lines : list string)
    (failure : errno) : sys bool :=
  match lines with
  | [] => if decide (failure = Enone) then Ret false else ld_die_errno "read /proc/swaps"
  | line :: lines =>
      match swap_source line with
      | None => swaps_on_related related lines failure
      | Some source =>
          let* r := call (Stat (decoded source)) in
          match r with
          | Err _ => ld_die_errno "stat active swap"
          | Ok swap_status =>
              if ld_related_contains related (swap_device swap_status) then Ret true
              else swaps_on_related related lines failure
          end
      end
  end.

Definition ld_device_number_is_mounted (device_number : Z) : sys bool :=
  let* r := related_devices device_number in
  match r with
  | Err _ => ld_die_errno "validate block-device topology"
  | Ok related =>
      let* m := call (ReadLines "/proc/self/mountinfo") in
      match m with
      | Err _ => ld_die_errno "open /proc/self/mountinfo"
      | Ok (lines, _) =>
          if existsb (line_mounts related) lines then Ret true
          else
            let* s := call (ReadLines "/proc/swaps") in
            match s with
            | Err _ => ld_die_errno "open /proc/swaps"
            | Ok ([], _) => ld_die_errno "read /proc/swaps"
            | Ok (_ :: lines, failure) => swaps_on_related related lines failure
            end
      end
  end.

(** ** System use of a whole disk *)

Definition ld_mount_target_is_user_media (target : option string) : bool :=
  match target with
  | None => false
  | Some target =>
      String.eqb target "/mnt" || infiltratr_string_starts_with target "/mnt/" ||
      infiltratr_string_starts_with target "/media/" ||
      infiltratr_string_starts_with target "/run/media/"
  end.

(** [sscanf(line, "%*s %*s %63s %*s %4095s", ...)] *)
Definition scan_mountinfo (line : string) : option (string * string) :=
  match scan_any line with
  | None => None
  | Some (_, s) =>
      match scan_any s with
      | None => None
      | Some (_, s) =>
          match scan_word 63 s with
          | None => None
          | Some (device_text, s) =>
              match scan_any s with
              | None => None
              | Some (_, s) =>
                  match scan_word 4095 s with
                  | None => None
                  | Some (mountpoint, _) => Some (device_text, mountpoint)
                  end
              end
          end
      end
  end.

Definition line_uses_system (related : list LdRelatedDevice) (line : string) : bool :=
  match scan_mountinfo line with
  | None => false
  | Some (device_text, mountpoint) =>
      match ld_parse_device_number (Some device_text) with
      | None => false
      | Some mounted =>
          ld_related_contains related mounted &&
          negb (ld_mount_target_is_user_media (Some mountpoint))
      end
  end.

Fixpoint swaps_use_related (related : list LdRelatedDevice) (lines : list string)
    (failure : errno) : sys (result bool) :=
  match lines with
  | [] => Ret (if decide (failure = Enone) then Ok false else Err failure)
  | line :: lines =>
      match swap_source line with
      | None => swaps_use_related related lines failure
      | Some source =>
          let* r := call (Stat source) in
          match r with
          | Err e => Ret (Err e)
          | Ok swap_stat =>
              if ld_related_contains related (swap_device swap_stat) then Ret (Ok true)
              else swaps_use_related related lines failure
          end
      end
  end.

(** [*in_use], or the errno of -1 ([*in_use] is then true, or not stored when
    an argument is NULL). *)
Definition ld_block_device_has_system_use (path : option string) : sys (result bool) :=
  match path with
  | None => Ret (Err EINVAL)
  | Some path =>
      try* target := call (Stat path) in
      if negb (S_ISBLK (st_mode target)) then Ret (Err ENOTBLK)
      else
        let* r := related_devices (st_rdev target) in
        match r with
        | Err e => Ret (Err (errno_or e EIO))
        | Ok related =>
            try* (lines, failure) := call (ReadLines "/proc/self/mountinfo") in
            if existsb (line_uses_system related) lines then Ret (Ok true)
            else if negb (bool_decide (failure = Enone)) then Ret (Err failure)
            else
              try* (lines, failure) := call (ReadLines "/proc/swaps") in
              match lines with
              | [] => Ret (Err EIO)
              | _ :: lines => swaps_use_related related lines failure
              end
        end
  end.
End Topology.

(** ** Lemmas: the related set *)

Definition values (devices : list LdRelatedDevice) : list Z := map value devices.

(** The entries from [index] on have not been scanned. *)
Definition unscanned (index : nat) (devices : list LdRelatedDevice) : Prop :=
  forall j d, (index <= j)%nat -> devices !! j = Some d ->
    relations_scanned d = false /\ children_scanned d = false.

(** Positions, values and exactness survive. *)
Definition keeps_exact (a b : list LdRelatedDevice) : Prop :=
  forall j d, a !! j = Some d -> exists d', b !! j = Some d' /\ value d' = value d /\
    (exact_mapping d = true -> exact_mapping d' = true).

Lemma keeps_exact_refl a : keeps_exact a a.
Proof. intros j d Hd. eauto. Qed.

Lemma keeps_exact_trans a b c : keeps_exact a b -> keeps_exact b c -> keeps_exact a c.
Proof.
  intros H1 H2 j d Hd. destruct (H1 j d Hd) as (d' & Hd' & Hv & He).
  destruct (H2 j d' Hd') as (d'' & Hd'' & Hv' & He'). exists d''. split_and!; [done|congruence|auto].
Qed.

(** No child flag changes. *)
Definition keeps_children (a b : list LdRelatedDevice) : Prop :=
  forall j d, a !! j = Some d -> exists d', b !! j = Some d' /\
    children_scanned d' = children_scanned d.

Lemma keeps_children_refl a : keeps_children a a.
Proof. intros j d Hd. eauto. Qed.

Lemma keeps_children_trans a b c : keeps_children a b -> keeps_children b c -> keeps_children a c.
Proof.
  intros H1 H2 j d Hd. destruct (H1 j d Hd) as (d' & Hd' & Hv).
  destruct (H2 j d' Hd') as (d'' & Hd'' & Hv'). exists d''. split; congruence.
Qed.

Lemma mark_related_keeps_children devices v exact devices' :
  mark_related devices v exact = Some devices' -> keeps_children devices devices'.
Proof.
  revert devices'. induction devices as [|d rest IH]; intros devices'; simpl; [done|].
  destruct (value d =? v).
  - intros [= <-] [|j] d' Hd'; [|by exists d']. injection Hd' as <-.
    eexists. split; [done|]. by destruct exact.
  - destruct (mark_related rest v exact) as [rest'|]; [|done]. intros [= <-] [|j] d' Hd'.
    + exists d'. auto.
    + by apply (IH rest' eq_refl j).
Qed.

Lemma mark_related_keeps devices v exact devices' :
  mark_related devices v exact = Some devices' -> keeps_exact devices devices'.
Proof.
  revert devices'. induction devices as [|d rest IH]; intros devices'; simpl; [done|].
  destruct (value d =? v).
  - intros [= <-] [|j] d' Hd'; [|by exists d']. injection Hd' as <-.
    eexists. split; [done|]. by destruct exact.
  - destruct (mark_related rest v exact) as [rest'|]; [|done]. intros [= <-] [|j] d' Hd'.
    + exists d'. auto.
    + by apply (IH rest' eq_refl j).
Qed.

Lemma mark_related_spec devices v exact :
  match mark_related devices v exact with
  | Some devices' => v ∈ values devices /\ values devices' = values devices /\
      (forall k, unscanned k devices -> unscanned k devices')
  | None => v ∉ values devices
  end.
Proof.
  induction devices as [|d rest IH]; simpl; [by apply not_elem_of_nil|].
  destruct (Z.eqb_spec (value d) v) as [<-|Hne].
  - split; [left|]. split; [by destruct exact|]. intros k Hk j d' Hj Hd'.
    destruct j as [|j]; [|by apply (Hk (S j))]. injection Hd' as <-.
    destruct (Hk O d Hj eq_refl). by destruct exact.
  - destruct (mark_related rest v exact) as [rest'|]; [|by intros [?|?]%elem_of_cons].
    destruct IH as (Hin & Hv & Hs). split; [by right|]. split; [by rewrite <- Hv|].
    intros k Hk j d' Hj Hd'. destruct j as [|j]; [by apply (Hk O)|].
    apply (Hs (Nat.pred k)) with (j := j); [|lia|done].
    intros j' d'' Hj' Hd''. apply (Hk (S j')); [lia|done].
Qed.

Lemma related_contains_spec devices v : ld_related_contains devices v = true <-> v ∈ values devices.
Proof.
  unfold ld_related_contains, values. rewrite existsb_exists, list_elem_of_In, in_map_iff.
  split; intros (d & H1 & H2); exists d; (split; [by (done || apply Z.eqb_eq)|by (done || apply Z.eqb_eq)]).
Qed.

Lemma related_contains_false devices v : ld_related_contains devices v = false <-> v ∉ values devices.
Proof. rewrite <- related_contains_spec. by destruct (ld_related_contains devices v). Qed.

Section TopologyLemmas.
Context {common : Infiltratr}.
Implicit Types (t : list (event sysE)).

(** A device number was read from the [dev] file [path]. *)
Definition device_read t (path : string) (v : Z) : Prop :=
  exists text, Event (ReadText path 64) (Ok text) ∈ t /\ ld_parse_device_number (Some text) = Some v.

Lemma device_read_app t1 t2 p v :
  device_read (t1 ++ t2) p v <-> device_read t1 p v \/ device_read t2 p v.
Proof.
  unfold device_read. split.
  - intros (x & [H|H]%elem_of_app & ?); [left|right]; eauto.
  - intros [(x & H & ?)|(x & H & ?)]; exists x; (split; [apply elem_of_app; auto|done]).
Qed.

Section Walk.
Context (n : nat) (c : bool).

(** What a part of the walk does to the set: it only appends, keeps the set
    duplicate free and bounded, marks no position from [n] on as scanned (no
    position's children when [c]), and adds exactly the device numbers it read. *)
Record grows t (a b : list LdRelatedDevice) : Prop := {
  grows_prefix : exists new, values b = values a ++ new;
  grows_nodup : NoDup (values a) -> NoDup (values b);
  grows_bound : (length a <= LD_MAX_RELATED_DEVICES)%nat -> (length b <= LD_MAX_RELATED_DEVICES)%nat;
  grows_unscanned : forall k, (n <= k)%nat -> unscanned k a -> unscanned k b;
  grows_exact : keeps_exact a b;
  grows_children : c = true -> keeps_children a b;
  grows_complete : forall p v, device_read t p v -> v ∈ values b;
  grows_sound : forall v, v ∈ values b -> v ∈ values a \/ exists p, device_read t p v;
}.

Lemma grows_subset t a b v : grows t a b -> v ∈ values a -> v ∈ values b.
Proof. intros [[new ->] _ _ _ _ _ _ _] H. apply elem_of_app. by left. Qed.

Lemma grows_trans t1 t2 a b d : grows t1 a b -> grows t2 b d -> grows (t1 ++ t2) a d.
Proof.
  intros G1 G2.
  destruct G1 as [[n1 P1] N1 B1 U1 E1 K1 C1 S1], G2 as [[n2 P2] N2 B2 U2 E2 K2 C2 S2].
  split; eauto using keeps_exact_trans, keeps_children_trans.
  - exists (n1 ++ n2). by rewrite P2, P1, app_assoc.
  - intros p v [H|H]%device_read_app; eauto. rewrite P2. apply elem_of_app. left. eauto.
  - intros v Hv. setoid_rewrite device_read_app. destruct (S2 v Hv) as [H|[p H]]; [|eauto].
    destruct (S1 v H) as [?|[p ?]]; eauto.
Qed.

Lemma grows_same t a b :
  values b = values a -> length b = length a -> (forall k, (n <= k)%nat -> unscanned k a -> unscanned k b) ->
  keeps_exact a b -> (c = true -> keeps_children a b) -> (forall p v, ~ device_read t p v) ->
  grows t a b.
Proof.
  intros Hv Hl Hu He Hk Hr. split; auto.
  - exists []. by rewrite app_nil_r.
  - by rewrite Hv.
  - by rewrite Hl.
  - intros p v H. by destruct (Hr p v).
  - intros v. rewrite Hv. auto.
Qed.

Lemma no_device_read_nil p v : ~ device_read [] p v.
Proof. intros (text & H & _). by apply not_elem_of_nil in H. Qed.

Lemma add_related_grows devices v exact devices' path text :
  ld_parse_device_number (Some text) = Some v ->
  ld_add_related_device devices v exact = Ok devices' ->
  grows [Event (ReadText path 64) (Ok text)] devices devices' /\ v ∈ values devices'.
Proof.
  intros Hp. unfold ld_add_related_device. pose proof (mark_related_spec devices v exact) as Hm.
  assert (Hread : forall p w, device_read [Event (ReadText path 64) (Ok text)] p w -> w = v).
  { intros p w (x & Hx & Hw). apply list_elem_of_singleton in Hx.
    assert (x = text) as ->; [|congruence].
    pose proof (f_equal (fun ev : event sysE => match ev with Event e y =>
      match e in sysE X return X -> result string with ReadText _ _ => fun y => y | _ => fun _ => Err EIO end y end) Hx) as E.
    simpl in E. congruence. }
  destruct (mark_related devices v exact) as [ds|] eqn:Hmark.
  - destruct Hm as (Hin & Hv & Hs). intros [= Eds]. subst ds. rename devices' into ds. rewrite Hv. split; [|done].
    assert (Hl : length ds = length devices)
      by (apply (f_equal length) in Hv; unfold values in Hv; by rewrite !length_map in Hv).
    split; auto.
    + exists []. by rewrite app_nil_r.
    + by rewrite Hv.
    + by rewrite Hl.
    + by eapply mark_related_keeps.
    + intros _. by eapply mark_related_keeps_children.
    + intros p w ->%Hread. by rewrite Hv.
    + rewrite Hv. auto.
  - destruct (Nat.leb_spec LD_MAX_RELATED_DEVICES (length devices)) as [|Hlt]; [done|]. intros [= <-].
    assert (Hv : values (devices ++ [mkRelated v exact false false]) = values devices ++ [v])
      by (unfold values; by rewrite map_app).
    rewrite Hv. split; [|apply elem_of_app; right; left]. split.
    + by exists [v].
    + rewrite Hv. intros Hnd. apply list.NoDup_app. split; [done|]. split; [|apply list.NoDup_singleton].
      intros x Hx ->%list_elem_of_singleton. done.
    + rewrite length_app. simpl. lia.
    + intros k _ Hk j d Hj Hd. apply lookup_app_Some in Hd as [Hd|[Hd1 Hd2]]; [by apply (Hk j)|].
      destruct (j - length devices)%nat; simplify_eq/=; done.
    + intros j d Hd. exists d. split; [|done]. by apply lookup_app_l_Some.
    + intros _ j d Hd. exists d. split; [|done]. by apply lookup_app_l_Some.
    + intros p w ->%Hread. rewrite Hv. apply elem_of_app; right; left.
    + intros w. rewrite Hv, elem_of_app, list_elem_of_singleton. intros [Hw|Hw]; [by left|right; subst w].
      exists path, text. split; [left|done].
Qed.

(** ** Lemmas: the walk *)

(** A directory was listed to its end and the [dev] file of every entry read. *)
Definition listed t (path : string) : Prop :=
  exists names, Event (ReadDir path) (Ok (names, Enone)) ∈ t /\
    forall name, name ∈ names -> name <> "." -> name <> ".." ->
      exists v, device_read t (path ++ "/" ++ name ++ "/dev")%string v.

(** A program of the walk: it returns, and on success the set has grown by what
    it read and [P] holds of its trace. *)
Definition walks (p : sys (result (list LdRelatedDevice))) (a : list LdRelatedDevice)
    (P : list (event sysE) -> Prop) : Prop :=
  forall t o, runs p t o -> exists r, o = Returned r /\
    forall b, r = Ok b -> grows t a b /\ P t.

Lemma walks_ret_err e a P : walks (Ret (Err e)) a P.
Proof. intros t o H. apply runs_inv in H as [-> ->]. by eexists. Qed.

Lemma walks_ret a b (P : list (event sysE) -> Prop) :
  values b = values a -> (forall k, (n <= k)%nat -> unscanned k a -> unscanned k b) -> keeps_exact a b ->
  (c = true -> keeps_children a b) -> P [] ->
  walks (Ret (Ok b)) a P.
Proof.
  intros Hv Hu He Hk HP t o H. apply runs_inv in H as [-> ->]. eexists. split; [done|].
  intros b' [= <-]. split; [|done]. apply grows_same; [done| |done|done|done|apply no_device_read_nil].
  apply (f_equal length) in Hv. unfold values in Hv. by rewrite !length_map in Hv.
Qed.

Lemma grows_refl a : grows [] a a.
Proof. apply grows_same; auto using keeps_exact_refl, keeps_children_refl. apply no_device_read_nil. Qed.

Lemma walks_bind p f a (P : list (event sysE) -> Prop) (Q : list (event sysE) -> Prop) :
  walks p a P ->
  (forall b t1, grows t1 a b -> P t1 -> walks (f b) b (fun t2 => Q (t1 ++ t2))) ->
  walks (rbind p f) a Q.
Proof.
  intros Hp Hf t o H. apply rbind_runs in H as [(m & H & ->)|[(e & H & ->)|(b & t1 & t2 & -> & H1 & H2)]].
  - by apply Hp in H as (? & ? & _).
  - by eexists.
  - apply Hp in H1 as (r & [= <-] & HG). destruct (HG b eq_refl) as [G1 HP1].
    apply (Hf b t1 G1 HP1) in H2 as (r & -> & HG2). eexists. split; [done|].
    intros x ->. destruct (HG2 x eq_refl) as [G2 HQ]. split; [by eapply grows_trans|done].
Qed.

(** A system call that reads no device number. *)
Lemma walks_call {X} (e : sysE (result X)) f a (Q : list (event sysE) -> Prop) :
  (forall p, match e with ReadText _ _ => False | _ => p end = p :> Prop) ->
  (forall x, walks (f x) a (fun t => Q (Event e (Ok x) :: t))) ->
  walks (rbind (call e) f) a Q.
Proof.
  intros He Hf t o H. apply rbind_runs in H as [(m & H & ->)|[(er & H & ->)|(x & t1 & t2 & -> & H1 & H2)]].
  - by apply call_runs in H as (? & _ & ?).
  - by eexists.
  - apply call_runs in H1 as (y & -> & [= <-]). apply Hf in H2 as (r & -> & HG).
    eexists. split; [done|]. intros b ->. destruct (HG b eq_refl) as [G HQ]. split; [|done].
    apply (grows_trans [_] t2 a a b); [|done]. apply grows_same; auto using keeps_exact_refl, keeps_children_refl.
    intros p v (text & Hin & _). apply list_elem_of_singleton in Hin.
    pose proof (f_equal (fun ev : event sysE => match ev with Event e' _ =>
      match e' with ReadText _ _ => False | _ => True end end) Hin) as E. simpl in E.
    rewrite (He True) in E. by rewrite E.
Qed.

Lemma read_sysfs_device_runs path t o :
  runs (ld_read_sysfs_device path) t o -> exists r, o = Returned r /\
  match r with
  | Ok v => exists text, t = [Event (ReadText path 64) (Ok text)] /\
      ld_parse_device_number (Some text) = Some v
  | Err _ => forall p v, ~ device_read t p v
  end.
Proof.
  unfold ld_read_sysfs_device. intros H.
  apply rbind_runs in H as [(m & H & ->)|[(e & H & ->)|(text & t1 & t2 & -> & H1 & H2)]].
  - by apply call_runs in H as (? & _ & ?).
  - apply call_runs in H as (y & -> & [= <-]). eexists. split; [done|].
    intros p v (text & Hin & _). apply list_elem_of_singleton in Hin.
    pose proof (f_equal (fun ev : event sysE => match ev with Event e y =>
      match e in sysE X return X -> bool with ReadText _ _ => fun y => is_ok y | _ => fun _ => true end y end) Hin) as E.
    done.
  - apply call_runs in H1 as (y & -> & [= <-]). apply runs_inv in H2 as [-> ->].
    destruct (ld_parse_device_number (Some text)) as [v|] eqn:Hp; eexists; (split; [done|]).
    + by exists text.
    + intros p v (text' & Hin & Hp'). apply list_elem_of_singleton in Hin.
      pose proof (f_equal (fun ev : event sysE => match ev with Event e y =>
        match e in sysE X return X -> result string with ReadText _ _ => fun y => y | _ => fun _ => Err EIO end y end) Hin) as E.
      simpl in E. congruence.
Qed.

Lemma device_read_one path text v :
  ld_parse_device_number (Some text) = Some v ->
  device_read [Event (ReadText path 64) (Ok text)] path v.
Proof. intros. exists text. split; [left|done]. Qed.

Lemma collect_entries_walks path names devices exact require :
  walks (collect_entries path names devices exact require) devices (fun t =>
    require = true -> forall name, name ∈ names -> name <> "." -> name <> ".." ->
      exists v, device_read t (path ++ "/" ++ name ++ "/dev")%string v).
Proof.
  revert devices. induction names as [|name names IH]; intros devices; cbn [collect_entries].
  { apply walks_ret; auto using keeps_exact_refl, keeps_children_refl. intros _ name H. by apply not_elem_of_nil in H. }
  destruct (String.eqb name "." || String.eqb name "..") eqn:Hdot.
  { intros t o H. apply IH in H as (r & -> & HG). eexists. split; [done|].
    intros b Hb. destruct (HG b Hb) as [G HP]. split; [done|]. intros Hr name' Hin H1 H2.
    apply elem_of_cons in Hin as [->|Hin]; [|by apply HP].
    apply orb_true_iff in Hdot as [E|E]; apply String.eqb_eq in E; done. }
  destruct (path_text _) as [device_path|e] eqn:Hpath; [|apply walks_ret_err].
  assert (device_path = (path ++ "/" ++ name ++ "/dev")%string) as ->
    by (unfold path_text in Hpath; destruct (fits _ _); [by injection Hpath|done]).
  intros t o H. apply pbind_runs in H as [(m & H & ->)|(r & t1 & t2 & -> & H1 & H2)].
  { by apply read_sysfs_device_runs in H as (? & ? & _). }
  apply read_sysfs_device_runs in H1 as (r' & [= <-] & Hr).
  destruct r as [v|e].
  - destruct Hr as (text & -> & Hp).
    destruct (ld_add_related_device devices v exact) as [ds|e] eqn:Hadd;
      [|apply runs_inv in H2 as [-> ->]; by eexists].
    destruct (add_related_grows _ _ _ _ (path ++ "/" ++ name ++ "/dev")%string _ Hp Hadd) as [G1 _].
    apply IH in H2 as (r & -> & HG). eexists. split; [done|]. intros b Hb.
    destruct (HG b Hb) as [G2 HP]. split; [by apply (grows_trans [_] t2 devices ds b)|].
    intros Hreq name' Hin H1 H2. apply elem_of_cons in Hin as [->|Hin].
    + exists v. apply (device_read_app [_]). left. by apply device_read_one.
    + destruct (HP Hreq name' Hin H1 H2) as [w Hw]. exists w. apply (device_read_app [_]). by right.
  - destruct require; [apply runs_inv in H2 as [-> ->]; by eexists|].
    apply IH in H2 as (r & -> & HG). eexists. split; [done|]. intros b Hb.
    destruct (HG b Hb) as [G2 HP]. split; [|done]. eapply grows_trans; [|exact G2].
    by apply grows_same; auto using keeps_exact_refl, keeps_children_refl.
Qed.

Lemma path_text_ok s p : path_text s = Ok p -> p = s.
Proof. unfold path_text. destruct (fits _ _); [by intros [= ->]|done]. Qed.

Lemma collect_directory_walks path devices exact require :
  walks (ld_collect_sysfs_directory path devices exact require) devices (fun t =>
    (require = true -> listed t path) /\ exists names, Event (ReadDir path) (Ok (names, Enone)) ∈ t).
Proof.
  apply walks_call; [done|]. intros [names failure].
  apply (walks_bind _ _ _ _ _ (collect_entries_walks path names devices exact require)).
  intros b t1 G HP. destruct (decide (failure = Enone)) as [->|]; [|apply walks_ret_err].
  apply walks_ret; auto using keeps_exact_refl, keeps_children_refl. rewrite app_nil_r. split; [|exists names; left].
  intros Hr. exists names. split; [left|]. intros name Hin H1 H2.
  destruct (HP Hr name Hin H1 H2) as [v Hv]. exists v. apply (device_read_app [_]). by right.
Qed.

Lemma walks_mono p a (P Q : list (event sysE) -> Prop) :
  (forall t, P t -> Q t) -> walks p a P -> walks p a Q.
Proof.
  intros HPQ Hp t o H. apply Hp in H as (r & -> & HG). eexists. split; [done|].
  intros b Hb. destruct (HG b Hb). auto.
Qed.

Lemma listed_app t1 t2 path : listed t1 path \/ listed t2 path -> listed (t1 ++ t2) path.
Proof.
  intros [(names & Hin & Hn)|(names & Hin & Hn)]; exists names; (split; [apply elem_of_app; auto|]);
    intros name H1 H2 H3; destruct (Hn name H1 H2 H3) as [v Hv]; exists v; apply device_read_app; auto.
Qed.

(** The device file of the directory that holds a partition. *)
Definition parent_device_path (sysfs_path : string) : option string :=
  match rsplit_char "/" sysfs_path with
  | Some (parent, _) => Some (parent ++ "/dev")%string
  | None => None
  end.

Lemma add_parent_walks sysfs_path is_partition devices :
  walks (ld_add_partition_parent_device sysfs_path is_partition devices) devices (fun t =>
    is_partition = true -> exists p v, parent_device_path sysfs_path = Some p /\ device_read t p v).
Proof.
  unfold ld_add_partition_parent_device. destruct is_partition; simpl negb; cbv iota;
    [|by apply walks_ret; auto using keeps_exact_refl, keeps_children_refl].
  destruct (path_text sysfs_path) as [pp|e] eqn:E; [|apply walks_ret_err].
  apply path_text_ok in E as ->. unfold parent_device_path.
  destruct (rsplit_char "/" sysfs_path) as [[parent leaf]|]; [|apply walks_ret_err].
  destruct (PATH_MAX <? _); [apply walks_ret_err|].
  intros t o H. apply rbind_runs in H as [(m & H & ->)|[(er & H & ->)|(v & t1 & t2 & -> & H1 & H2)]].
  - by apply read_sysfs_device_runs in H as (? & ? & _).
  - by eexists.
  - apply read_sysfs_device_runs in H1 as (r & [= <-] & text & -> & Hp).
    apply runs_inv in H2 as [-> ->]. eexists. split; [done|]. intros b Hadd. rewrite app_nil_r.
    destruct (add_related_grows _ _ _ _ (parent ++ "/dev")%string _ Hp Hadd) as [G _].
    split; [done|]. intros _. exists (parent ++ "/dev")%string, v. split; [done|].
    by apply device_read_one.
Qed.

Lemma collect_relations_walks sysfs_path relations devices :
  walks (collect_relations sysfs_path relations devices) devices (fun t =>
    forall name, name ∈ relations -> listed t (sysfs_path ++ "/" ++ name)%string).
Proof.
  revert devices. induction relations as [|name relations IH]; intros devices; cbn [collect_relations].
  { apply walks_ret; auto using keeps_exact_refl, keeps_children_refl. intros name H. by apply not_elem_of_nil in H. }
  destruct (path_text _) as [rp|e] eqn:E; [|apply walks_ret_err]. apply path_text_ok in E as ->.
  apply (walks_bind _ _ _ _ _ (collect_directory_walks _ _ _ _)). intros b t1 G [HL _].
  eapply walks_mono; [|apply IH]. intros t HP name' [->|Hin]%elem_of_cons; apply listed_app; auto.
Qed.

End Walk.

Lemma alter_values f i devices :
  (forall d, value (f d) = value d) -> values (alter f i devices) = values devices.
Proof.
  intros Hf. unfold values. revert i. induction devices as [|d rest IH]; intros [|i]; simpl; auto.
  - by rewrite Hf.
  - f_equal. apply IH.
Qed.

Lemma alter_unscanned f i k devices :
  (i < k)%nat -> unscanned k devices -> unscanned k (alter f i devices).
Proof.
  intros Hi Hu j d Hj Hd. rewrite list_lookup_alter_ne in Hd by lia. by apply (Hu j).
Qed.

Lemma alter_keeps f i devices :
  (forall d, value (f d) = value d /\ exact_mapping (f d) = exact_mapping d) ->
  keeps_exact devices (alter f i devices).
Proof.
  intros Hf j d Hd. destruct (decide (i = j)) as [->|Hne].
  - exists (f d). rewrite list_lookup_alter_eq, Hd. destruct (Hf d) as [-> ->]. auto.
  - exists d. by rewrite list_lookup_alter_ne.
Qed.

(** What the walk saw of one member of the set: its sysfs directory, whether
    it is a partition, its relation directories, its containing disk when it
    is a partition, and its children when it is an exact mapping of a disk. *)
Definition member_visited t (d : Z) (exact : bool) : Prop :=
  exists sysfs is_partition r,
    Event (RealpathCopy ("/sys/dev/block/" ++ device_text d)%string PATH_MAX) (Ok sysfs) ∈ t /\
    Event (Stat (sysfs ++ "/partition")%string) r ∈ t /\
    (if is_partition : bool then is_ok r = true else r = Err ENOENT) /\
    (forall name, name ∈ relation_names is_partition -> listed t (sysfs ++ "/" ++ name)%string) /\
    (is_partition = true -> exists p v, parent_device_path sysfs = Some p /\ device_read t p v) /\
    (exact = true -> is_partition = false ->
       exists names, Event (ReadDir sysfs) (Ok (names, Enone)) ∈ t).

Lemma device_read_mono t t' p v : t ⊆ t' -> device_read t p v -> device_read t' p v.
Proof. intros Ht (text & H & ?). exists text. auto. Qed.

Lemma listed_mono t t' path : t ⊆ t' -> listed t path -> listed t' path.
Proof.
  intros Ht (names & H & Hn). exists names. split; [by apply Ht|]. intros name H1 H2 H3.
  destruct (Hn name H1 H2 H3) as [v Hv]. exists v. by eapply device_read_mono.
Qed.

Lemma member_visited_mono t t' d exact : t ⊆ t' -> member_visited t d exact -> member_visited t' d exact.
Proof.
  intros Ht (s & p & r & H1 & H2 & H3 & H4 & H5 & H6). exists s, p, r.
  split_and!; [by apply Ht|by apply Ht|done|..].
  - intros name Hn. eapply listed_mono; [done|auto].
  - intros Hp. destruct (H5 Hp) as (q & v & ? & ?). exists q, v. split; [done|].
    by eapply device_read_mono.
  - intros He Hp. destruct (H6 He Hp) as (names & ?). exists names. by apply Ht.
Qed.

Lemma grows_weaken n m c t a b : (n <= m)%nat -> grows n c t a b -> grows m false t a b.
Proof. intros Hnm [P N B U E C S]. split; auto. { intros k Hk. apply U. lia. } done. Qed.

Lemma alter_grows f i n c devices :
  (i < n)%nat -> (forall d, value (f d) = value d /\ exact_mapping (f d) = exact_mapping d) ->
  (c = true -> forall d, children_scanned (f d) = children_scanned d) ->
  grows n c [] devices (alter f i devices).
Proof.
  intros Hi Hf Hc. apply grows_same.
  - apply alter_values. intros d. by destruct (Hf d).
  - apply length_alter.
  - intros k Hk. apply alter_unscanned. lia.
  - by apply alter_keeps.
  - intros Hc' j d Hd. destruct (decide (i = j)) as [->|Hne].
    + exists (f d). by rewrite list_lookup_alter_eq, Hd, (Hc Hc').
    + exists d. by rewrite list_lookup_alter_ne.
  - apply no_device_read_nil.
Qed.

Lemma walks_grown n c p a b P : grows n c [] a b -> walks n c p b P -> walks n c p a P.
Proof.
  intros G Hp t o H. apply Hp in H as (r & -> & HG). eexists. split; [done|].
  intros d Hd. destruct (HG d Hd) as [G' HP]. split; [|done]. by apply (grows_trans n c [] t a b d).
Qed.

Lemma walks_weaken n c p a P : walks n c p a P -> walks n false p a P.
Proof.
  intros Hp t o H. apply Hp in H as (r & -> & HG). eexists. split; [done|].
  intros d Hd. destruct (HG d Hd) as [G' HP]. split; [|done]. by eapply grows_weaken.
Qed.

(** The first half of a visit: the containing disk and the relations. *)
Definition scan_relations (index : nat) (sysfs : string) (is_partition : bool)
    (devices : list LdRelatedDevice) : sys (result (list LdRelatedDevice)) :=
  try* devices := ld_add_partition_parent_device sysfs is_partition
                    (alter set_relations_scanned index devices) in
  collect_relations sysfs (relation_names is_partition) devices.

Lemma scan_relations_walks index sysfs is_partition devices :
  walks (S index) true (scan_relations index sysfs is_partition devices) devices (fun t =>
    (forall name, name ∈ relation_names is_partition -> listed t (sysfs ++ "/" ++ name)%string) /\
    (is_partition = true -> exists p v, parent_device_path sysfs = Some p /\ device_read t p v)).
Proof.
  eapply walks_grown; [apply (alter_grows set_relations_scanned index); [lia|done|done]|]. unfold scan_relations.
  apply (walks_bind _ _ _ _ _ _ _ (add_parent_walks _ _ _ _ _)). intros b t1 G HP.
  eapply walks_mono; [|apply collect_relations_walks]. intros t HL. split.
  - intros name Hn. apply listed_app. auto.
  - intros Hp. destruct (HP Hp) as (p & v & ? & ?). exists p, v. split; [done|].
    apply device_read_app. auto.
Qed.

(** The second half: the children of an exact mapping of a whole disk. *)
Definition scan_children (index : nat) (sysfs : string) (is_partition : bool)
    (devices : list LdRelatedDevice) : sys (result (list LdRelatedDevice)) :=
  match devices !! index with
  | None => Ret (Ok devices)
  | Some d =>
      if exact_mapping d && negb is_partition && negb (children_scanned d)
      then ld_collect_sysfs_directory sysfs (alter set_children_scanned index devices)
             true false
      else Ret (Ok devices)
  end.

Lemma scan_children_walks index sysfs is_partition devices :
  walks (S index) false (scan_children index sysfs is_partition devices) devices (fun t =>
    forall d, devices !! index = Some d -> exact_mapping d = true -> is_partition = false ->
      children_scanned d = false -> exists names, Event (ReadDir sysfs) (Ok (names, Enone)) ∈ t).
Proof.
  unfold scan_children. destruct (devices !! index) as [d|] eqn:Hd;
    [|apply walks_ret; auto using keeps_exact_refl, keeps_children_refl; done].
  destruct (exact_mapping d && negb is_partition && negb (children_scanned d)) eqn:E.
  - eapply walks_grown; [apply (alter_grows set_children_scanned index); [lia|done|done]|].
    eapply walks_mono; [|apply collect_directory_walks]. intros t [_ H] d' _ _ _ _. exact H.
  - apply walks_ret; auto using keeps_exact_refl, keeps_children_refl.
    intros d' [= <-] He -> Hc. by rewrite He, Hc in E.
Qed.

Lemma visit_walks index d devices :
  devices !! index = Some d -> relations_scanned d = false -> children_scanned d = false ->
  walks (S index) false (visit_related index d devices) devices
    (fun t => member_visited t (value d) (exact_mapping d)).
Proof.
  intros Hd Hr Hc. unfold visit_related, ld_resolve_sysfs_device.
  destruct (path_text _) as [link|e] eqn:El; [|apply walks_ret_err]. apply path_text_ok in El as ->.
  apply walks_call; [done|]. intros sysfs. unfold ld_sysfs_is_partition.
  destruct (path_text _) as [pp|e] eqn:Ep; [|apply walks_ret_err]. apply path_text_ok in Ep as ->.
  rewrite Hr. simpl negb. cbv iota zeta. fold (scan_relations index sysfs).
  assert (Hscan : forall is_partition, walks (S index) false
    (try* devices := scan_relations index sysfs is_partition devices in
     scan_children index sysfs is_partition devices) devices (fun t =>
      (forall name, name ∈ relation_names is_partition -> listed t (sysfs ++ "/" ++ name)%string) /\
      (is_partition = true -> exists p v, parent_device_path sysfs = Some p /\ device_read t p v) /\
      (exact_mapping d = true -> is_partition = false ->
         exists names, Event (ReadDir sysfs) (Ok (names, Enone)) ∈ t))).
  { intros is_partition t o H.
    apply rbind_runs in H as [(m & H & ->)|[(e & H & ->)|(b & t1 & t2 & -> & H1 & H2)]].
    - by apply scan_relations_walks in H as (? & ? & _).
    - by eexists.
    - apply scan_relations_walks in H1 as (r & [= <-] & HG). destruct (HG b eq_refl) as [G [HL HP]].
      apply scan_children_walks in H2 as (r & -> & HG2). eexists. split; [done|]. intros c ->.
      destruct (HG2 c eq_refl) as [G2 HC]. split.
      { eapply grows_trans; [by eapply grows_weaken|done]. }
      split_and!.
      + intros name Hn. apply listed_app. auto.
      + intros Hp. destruct (HP Hp) as (p & v & ? & ?). exists p, v. split; [done|].
        apply device_read_app. auto.
      + intros He Hp. destruct (grows_exact _ _ _ _ _ G index d Hd) as (d' & Hd' & _ & He').
        destruct (grows_children _ _ _ _ _ G eq_refl index d Hd) as (d'' & Hd'' & Hc').
        assert (d'' = d') as -> by congruence.
        destruct (HC d' Hd' (He' He) Hp ltac:(congruence)) as (names & ?). exists names.
        apply elem_of_app. by right. }
  intros t o H. unfold rbind at 1 in H. simpl in H. apply runs_inv in H as (r & t' & -> & H).
  set (part := match r with Ok _ => Ok true | Err e => if decide (e = ENOENT) then Ok false else Err e end) in H.
  destruct part as [is_partition|e] eqn:Epart; [|apply runs_inv in H as [-> ->]; by eexists].
  apply (Hscan is_partition) in H as (r' & -> & HG). eexists. split; [done|]. intros b Hb.
  destruct (HG b Hb) as [G (HL & HP & HC)]. split.
  { apply (grows_trans _ _ [_] t' devices devices b); [|done].
    apply grows_same; auto using keeps_exact_refl, keeps_children_refl.
    intros p v (text & Hin & _). by apply list_elem_of_singleton in Hin. }
  exists sysfs, is_partition, r. split_and!.
  - left.
  - right. left.
  - unfold part in Epart. destruct r as [st|e]; [by injection Epart as <-|].
    destruct (decide (e = ENOENT)) as [->|]; [by injection Epart as <-|done].
  - intros name Hn. eapply listed_mono; [|by apply HL]. intros x Hx. by do 2 right.
  - intros Hp. destruct (HP Hp) as (p & v & ? & Hv). exists p, v. split; [done|].
    eapply device_read_mono; [|exact Hv]. intros x Hx. by do 2 right.
  - intros He Hp. destruct (HC He Hp) as (names & ?). exists names. by do 2 right.
Qed.

Lemma collect_from_walks fuel index devices t o :
  (LD_MAX_RELATED_DEVICES < fuel + index)%nat -> (index <= length devices <= LD_MAX_RELATED_DEVICES)%nat ->
  unscanned index devices ->
  runs (collect_related_from fuel index devices) t o ->
  exists r, o = Returned (Some r) /\ forall b, r = Ok b ->
    (exists m, grows m false t devices b) /\
    (forall j d, (index <= j)%nat -> b !! j = Some d -> exists exact, member_visited t (value d) exact) /\
    (forall j d, (index <= j)%nat -> devices !! j = Some d -> exact_mapping d = true ->
       member_visited t (value d) true).
Proof.
  revert index devices t. induction fuel as [|fuel IH]; intros index devices t Hf Hl Hu H; [lia|].
  cbn [collect_related_from] in H. destruct (devices !! index) as [d|] eqn:Hd.
  2: { apply runs_inv in H as [-> ->]. eexists. split; [done|]. intros b [= <-].
       apply lookup_ge_None in Hd. split; [exists O; apply grows_refl|].
       split; intros j d Hj Hj'; apply lookup_lt_Some in Hj'; lia. }
  apply pbind_runs in H as [(m & H & ->)|(r & t1 & t2 & -> & H1 & H2)].
  { destruct (Hu index d (le_n _) Hd). by eapply visit_walks in H as (? & ? & _). }
  destruct (Hu index d (le_n _) Hd) as [Hr Hc].
  eapply visit_walks in H1 as (r' & [= <-] & HG); [|done..].
  destruct r as [b1|e]; [|apply runs_inv in H2 as [-> ->]; by eexists].
  destruct (HG b1 eq_refl) as [G Hv].
  assert (Hlen : (S index <= length b1 <= LD_MAX_RELATED_DEVICES)%nat).
  { split; [|apply (grows_bound _ _ _ _ _ G); lia].
    destruct (grows_exact _ _ _ _ _ G index d Hd) as (d' & Hd' & _). by apply lookup_lt_Some in Hd'. }
  assert (Hu1 : unscanned (S index) b1).
  { apply (grows_unscanned _ _ _ _ _ G); [done|]. intros j d' Hj. apply Hu. lia. }
  apply IH in H2 as (r & -> & HR); [|lia|done|done]. eexists. split; [done|]. intros b ->.
  destruct (HR b eq_refl) as ([m G2] & HV & HE). split; [|split].
  - exists (S index `max` m)%nat. apply (grows_trans _ _ _ _ _ b1).
    + eapply grows_weaken; [|done]. lia.
    + eapply grows_weaken; [|done]. lia.
  - intros j d' Hj Hd'. destruct (decide (j = index)) as [->|Hne].
    + destruct (grows_exact _ _ _ _ _ G index d Hd) as (d1 & Hd1 & Hv1 & _).
      destruct (grows_exact _ _ _ _ _ G2 index d1 Hd1) as (d2 & Hd2 & Hv2 & _).
      assert (d2 = d') as -> by congruence. rewrite Hv2, Hv1. exists (exact_mapping d).
      eapply member_visited_mono; [|exact Hv]. intros x Hx. apply elem_of_app. by left.
    + destruct (HV j d' ltac:(lia) Hd') as [ex Hx]. exists ex.
      eapply member_visited_mono; [|exact Hx]. intros x Hx'. apply elem_of_app. by right.
  - intros j d' Hj Hd' He. destruct (decide (j = index)) as [->|Hne].
    + assert (d = d') as -> by congruence. rewrite He in Hv.
      eapply member_visited_mono; [|exact Hv]. intros x Hx. apply elem_of_app. by left.
    + destruct (grows_exact _ _ _ _ _ G j d' Hd') as (d1 & Hd1 & Hv1 & He1). rewrite <- Hv1.
      eapply member_visited_mono; [|by apply (HE j d1); [lia|done|apply He1]].
      intros x Hx. apply elem_of_app. by right.
Qed.

(** The walk as the callers see it. *)
Lemma collect_related_walks target t o :
  runs (ld_collect_related_devices target) t o ->
  exists r, o = Returned (Some r) /\ forall devices, r = Ok devices ->
    target ∈ values devices /\ NoDup (values devices) /\
    (length devices <= LD_MAX_RELATED_DEVICES)%nat /\
    (forall p v, device_read t p v -> v ∈ values devices) /\
    (forall v, v ∈ values devices -> v = target \/ exists p, device_read t p v) /\
    (forall v, v ∈ values devices -> exists exact, member_visited t v exact) /\
    member_visited t target true.
Proof.
  unfold ld_collect_related_devices. cbn [ld_add_related_device mark_related]. simpl length.
  rewrite (proj2 (Nat.leb_gt _ _)) by (unfold LD_MAX_RELATED_DEVICES; lia). simpl app. intros H.
  apply collect_from_walks in H as (r & -> & HR);
    [|unfold LD_MAX_RELATED_DEVICES; lia|unfold LD_MAX_RELATED_DEVICES; simpl; lia|].
  2: { intros [|j] d _ Hd; [by injection Hd as <-|done]. }
  eexists. split; [done|]. intros devices ->. destruct (HR devices eq_refl) as ([m G] & HV & HE).
  destruct G as [[new P] N B U E _ C S]. split_and!.
  - rewrite P. left.
  - apply N. apply list.NoDup_singleton.
  - apply B. unfold LD_MAX_RELATED_DEVICES. simpl. lia.
  - exact C.
  - intros v Hv. destruct (S v Hv) as [Hs|Hs]; [left|by right]. by apply list_elem_of_singleton in Hs.
  - intros v Hv. unfold values in Hv. apply list_elem_of_In, in_map_iff in Hv as (d & <- & Hd).
    apply list_elem_of_In, list_elem_of_lookup_1 in Hd as [j Hj]. by apply (HV j d); [lia|].
  - by apply (HE O (mkRelated target true false false)).
Qed.

Lemma related_devices_runs target t o :
  runs (related_devices target) t o ->
  exists r, o = Returned r /\ runs (ld_collect_related_devices target) t (Returned (Some r)).
Proof.
  unfold related_devices. intros H.
  apply pbind_runs in H as [(m & H & ->)|(r & t1 & t2 & -> & H1 & H2)].
  - by apply collect_related_walks in H as (? & ? & _).
  - pose proof H1 as H1'. apply collect_related_walks in H1' as (r' & [= ->] & _).
    apply runs_inv in H2 as [-> ->]. rewrite app_nil_r. eauto.
Qed.

(** ** Lemmas: the mount and swap checks *)

Lemma swaps_on_related_runs related lines failure t :
  runs (swaps_on_related related lines failure) t (Returned false) ->
  failure = Enone /\ forall line source, line ∈ lines -> swap_source line = Some source ->
    exists st, Event (Stat (decoded source)) (Ok st) ∈ t /\ swap_device st ∉ values related.
Proof.
  revert t. induction lines as [|line lines IH]; intros t H; cbn [swaps_on_related] in H.
  - destruct (decide (failure = Enone)); [|by apply runs_inv in H as [_ ?]].
    split; [done|]. intros l s Hin. by apply not_elem_of_nil in Hin.
  - destruct (swap_source line) as [source|] eqn:Hs.
    + apply runs_inv in H as (r & t' & -> & H). cbn [pbind] in H.
      destruct r as [st|e]; [|by apply runs_inv in H as [_ ?]].
      destruct (ld_related_contains related (swap_device st)) eqn:Hc; [by apply runs_inv in H as [_ ?]|].
      destruct (IH _ H) as [-> Hall]. split; [done|]. intros l s [->|Hin]%elem_of_cons Hs'.
      * assert (s = source) as -> by congruence. exists st. split; [left|].
        by apply related_contains_false.
      * destruct (Hall l s Hin Hs') as (st' & ? & ?). exists st'. split; [by right|done].
    + destruct (IH _ H) as [-> Hall]. split; [done|]. intros l s [->|Hin]%elem_of_cons Hs'; [congruence|eauto].
Qed.

Lemma not_mounted_runs device t :
  runs (ld_device_number_is_mounted device) t (Returned false) ->
  exists t1 related lines e header swaps t2,
    t = t1 ++ Event (ReadLines "/proc/self/mountinfo") (Ok (lines, e)) ::
        Event (ReadLines "/proc/swaps") (Ok (header :: swaps, Enone)) :: t2 /\
    runs (ld_collect_related_devices device) t1 (Returned (Some (Ok related))) /\
    (forall line v, line ∈ lines -> mountinfo_device line = Some v -> v ∉ values related) /\
    (forall line source, line ∈ swaps -> swap_source line = Some source ->
       exists st, Event (Stat (decoded source)) (Ok st) ∈ t2 /\ swap_device st ∉ values related).
Proof.
  unfold ld_device_number_is_mounted. intros H.
  apply pbind_runs in H as [(m & _ & ?)|(r & t1 & t2 & -> & H1 & H)]; [done|].
  apply related_devices_runs in H1 as (r' & [= <-] & H1).
  destruct r as [related|e]; [|by apply runs_inv in H as [_ ?]].
  apply runs_inv in H as (m & t3 & -> & H). cbn [pbind] in H.
  destruct m as [[lines e]|e]; [|by apply runs_inv in H as [_ ?]].
  destruct (existsb (line_mounts related) lines) eqn:Hm; [by apply runs_inv in H as [_ ?]|].
  apply runs_inv in H as (s & t4 & -> & H). cbn [pbind] in H.
  destruct s as [[[|header swaps] f]|e']; [by apply runs_inv in H as [_ ?]| |by apply runs_inv in H as [_ ?]].
  apply swaps_on_related_runs in H as [-> Hs].
  exists t1, related, lines, e, header, swaps, t4. split_and!; [done|done| |done].
  intros line v Hin Hv Hr. apply (not_true_iff_false (existsb (line_mounts related) lines)) in Hm.
  apply Hm, existsb_exists. exists line. split; [by apply list_elem_of_In|].
  unfold line_mounts. rewrite Hv. by apply related_contains_spec.
Qed.
End TopologyLemmas.

(** ** Octal escapes *)

(** How the kernel writes a field of [/proc/self/mountinfo] and [/proc/swaps]:
    white space and the backslash as three octal digits. *)
Definition escape_mount_char (c : ascii) : string :=
  if bool_decide (c = " "%char) || bool_decide (c = TAB) || bool_decide (c = LF) ||
     bool_decide (c = BACKSLASH)
  then String BACKSLASH (String (chr (48 + code c / 64)) (String (chr (48 + code c / 8 mod 8))
         (String (chr (48 + code c mod 8)) EmptyString)))
  else String c EmptyString.

Fixpoint escape_mount_field (s : string) : string :=
  match s with
  | EmptyString => EmptyString
  | String c s => (escape_mount_char c ++ escape_mount_field s)%string
  end.

Lemma decode_octal_other c s :
  c <> BACKSLASH -> decode_octal (String c s) = String c (decode_octal s).
Proof.
  intros Hc. destruct s as [|b [|d [|e s]]]; try done.
  cbn [decode_octal]. by rewrite bool_decide_eq_false_2.
Qed.

Lemma decode_escape s : decode_octal (escape_mount_field s) = s.
Proof.
  induction s as [|c s IH]; [done|]. cbn [escape_mount_field]. unfold escape_mount_char.
  destruct (decide (c = " "%char)) as [->|H1]; [simpl; by rewrite IH|].
  destruct (decide (c = TAB)) as [->|H2]; [simpl; by rewrite IH|].
  destruct (decide (c = LF)) as [->|H3]; [simpl; by rewrite IH|].
  destruct (decide (c = BACKSLASH)) as [->|H4]; [simpl; by rewrite IH|].
  rewrite !bool_decide_eq_false_2 by done. cbn [orb append].
  rewrite decode_octal_other by done. by rewrite IH.
Qed.

(** ** A host for the witnesses *)

(** One disk, [sda], with the partition [sda1]; [mounts] are the mounted
    devices and [dm] says that a device-mapper node over both [sda1] and [sda]
    exists. *)
Definition demo_host (dm : bool) (mounts : list string) (failure : errno) (X : Type) (e : sysE X)
    (s : unit) : X * unit :=
  (match e in sysE X return X with
   | RealpathCopy p _ =>
       if String.eqb p "/sys/dev/block/8:1" then Ok "/sys/block/sda/sda1"
       else if String.eqb p "/sys/dev/block/8:0" then Ok "/sys/block/sda"
       else if String.eqb p "/sys/dev/block/253:0" then Ok "/sys/block/dm-0"
       else Err ENOENT
   | Stat p =>
       if String.eqb p "/sys/block/sda/sda1/partition" then Ok (mkStat 33060 1 2 0 1 0 1)
       else Err ENOENT
   | ReadText p _ =>
       if String.eqb p "/sys/block/sda/dev" then Ok "8:0"
       else if String.eqb p "/sys/block/sda/sda1/holders/dm-0/dev" then Ok "253:0"
       else if String.eqb p "/sys/block/dm-0/slaves/sda1/dev" then Ok "8:1"
       else if String.eqb p "/sys/block/dm-0/slaves/sda/dev" then Ok "8:0"
       else if String.eqb p "/sys/block/sda/sda2/dev" then Ok "8:2"
       else Err ENOENT
   | ReadDir p =>
       if dm && String.eqb p "/sys/block/sda/sda1/holders" then Ok (["."; ".."; "dm-0"], Enone)
       else if String.eqb p "/sys/block/dm-0/slaves" then Ok (["sda1"; "sda"], Enone)
       else if String.eqb p "/sys/block/sda" then Ok (["sda1"; "sda2"], Enone)
       else Ok (["."; ".."], Enone)
   | ReadLines p =>
       if String.eqb p "/proc/self/mountinfo" then Ok (mounts, failure)
       else Ok (["Filename Type"], Enone)
   | e => sys_default e
   end, s).

Definition sda1 : Z := makedev 8 1.
Definition demo_walk (dm : bool) :=
  execute (demo_host dm [] Enone) (ld_collect_related_devices (common := infiltratr_reference) sda1) tt.
Definition demo_mounted (dm : bool) (mounts : list string) (failure : errno) :=
  execute (demo_host dm mounts failure)
    (ld_device_number_is_mounted (common := infiltratr_reference) sda1) tt.

(** ** Properties *)

(** The topology walk always ends within its bound of 1024 devices and, when
    it succeeds, its set is closed and justified: it holds the target, no
    duplicate, every device number the walk read and nothing else; every member
    was visited, each of its relation directories listed to the end with the
    device number of every entry read, a partition's containing disk included,
    and a whole-disk target's children listed. *)
Theorem related_walk_closed `{Infiltratr} target t o :
  runs (ld_collect_related_devices target) t o ->
  exists r, o = Returned (Some r) /\ forall devices, r = Ok devices ->
    target ∈ values devices /\ NoDup (values devices) /\
    (length devices <= LD_MAX_RELATED_DEVICES)%nat /\
    (forall p v, device_read t p v -> v ∈ values devices) /\
    (forall v, v ∈ values devices -> v = target \/ exists p, device_read t p v) /\
    (forall v, v ∈ values devices -> exists exact, member_visited t v exact) /\
    member_visited t target true.
Proof. exact (collect_related_walks target t o). Qed.

Lemma related_walk_closed_witness :
  exists devices, fst (demo_walk true) = Returned (Some (Ok devices)) /\
    NoDup (values devices) /\ makedev 8 1 ∈ values devices.
Proof.
  pose proof (execute_runs (demo_host true [] Enone)
    (ld_collect_related_devices (common := infiltratr_reference) sda1) tt) as Hr.
  destruct (related_walk_closed sda1 _ _ Hr) as (r & Ho & HR). destruct r as [devices|e].
  - exists devices. split; [exact Ho|]. destruct (HR devices eq_refl) as (H1 & H2 & _). by split.
  - exfalso. vm_compute in Ho. discriminate.
Defined.

(** C33: A device counts as free only on evidence: [ld_device_number_is_mounted]
    answers no only after a complete topology walk, when no line of the mount
    table names a related device, and the swap table was read to its end with
    every source resolved to a device outside the set; an unreadable source or
    table ends the process. *)
Theorem not_mounted_justified `{Infiltratr} device t :
  runs (ld_device_number_is_mounted device) t (Returned false) ->
  exists t1 related lines e header swaps t2,
    t = t1 ++ Event (ReadLines "/proc/self/mountinfo") (Ok (lines, e)) ::
        Event (ReadLines "/proc/swaps") (Ok (header :: swaps, Enone)) :: t2 /\
    runs (ld_collect_related_devices device) t1 (Returned (Some (Ok related))) /\
    (forall line v, line ∈ lines -> mountinfo_device line = Some v -> v ∉ values related) /\
    (forall line source, line ∈ swaps -> swap_source line = Some source ->
       exists st, Event (Stat (decoded source)) (Ok st) ∈ t2 /\ swap_device st ∉ values related).
Proof. exact (not_mounted_runs device t). Qed.

Lemma not_mounted_justified_witness :
  exists t t1 lines e header swaps t2,
    t = t1 ++ Event (ReadLines "/proc/self/mountinfo") (Ok (lines, e)) ::
        Event (ReadLines "/proc/swaps") (Ok (header :: swaps, Enone)) :: t2.
Proof.
  pose proof (execute_runs (demo_host false ["31 1 9:2 / /home rw"] Enone)
    (ld_device_number_is_mounted (common := infiltratr_reference) sda1) tt) as Hr.
  exists (snd (demo_mounted false ["31 1 9:2 / /home rw"] Enone)).
  destruct (not_mounted_justified sda1 (snd (demo_mounted false ["31 1 9:2 / /home rw"] Enone)))
    as (t1 & related & lines & e & header & swaps & t2 & Ht & _); [exact Hr|].
  exists t1, lines, e, header, swaps, t2. exact Ht.
Defined.

(** Decoding inverts the kernel's escaping: every mount source or swap file
    name without NUL, white space and backslashes included, is recovered from
    its table field. *)
Theorem mount_field_roundtrip s :
  has_char NUL s = false ->
  ld_decode_mount_field (Some (escape_mount_field s)) = Some s.
Proof.
  intros Hs. unfold ld_decode_mount_field. by rewrite decode_escape, cut_nul_none.
Qed.

Lemma mount_field_roundtrip_witness :
  ld_decode_mount_field (Some (escape_mount_field "/mnt/my disk\swap")) = Some "/mnt/my disk\swap".
Proof. apply mount_field_roundtrip. vm_compute. reflexivity. Defined.

(** Two blind spots of the mount check, as the code behaves.  A device that
    becomes an exact mapping after its visit is not visited again: with a mapper
    over [sda1] and [sda], the disk [sda] ends as an exact mapping whose children
    were never scanned, and a mount of [sda2] is missed.  And a read error of the
    mount table ends the table: the device counts as not mounted. *)
Theorem mount_check_blind_spots :
  (exists devices, fst (demo_walk true) = Returned (Some (Ok devices)) /\
     In (mkRelated (makedev 8 0) true true false) devices /\
     ~ In (makedev 8 2) (map value devices)) /\
  fst (demo_mounted true ["31 1 8:2 / /home rw"] Enone) = Returned false /\
  fst (demo_mounted false [] EIO) = Returned false.
Proof.
  split; [|split; vm_compute; reflexivity].
  exists [mkRelated 2049 true true false; mkRelated 2048 true true false; mkRelated 64768 true true true].
  split; [vm_compute; reflexivity|]. split; [vm_compute; auto|]. vm_compute.
  intros [H|[H|[H|[]]]]; discriminate.
Qed.
