(* ===== verification/Device.v ===== *)
(** Target binding of [src/defragger/src/core/ld_device.c]: conflicts of regular
    images, the fail-closed opener, identities, and device metadata. *)
From S2P Require Import Prelude Effects CString Infiltratr Sys DeviceTopology.

Record LdDevice := mkDevice {
  dev_fd : Z;
  dev_path : option string;
  dev_writable : bool;
  dev_is_block : bool;
  dev_size_bytes : Z;
  dev_device_number : Z;
  dev_host_device : Z;
  dev_inode : Z;
}.

Record LdBlockDeviceInfo := mkInfo {
  info_size_bytes : Z;
  info_whole_disk : bool;
  info_removable : bool;
  info_read_only : bool;
  info_model : string;
  info_serial : string;
  info_wwn : string;
  info_transport : string;
}.

Definition ld_same_regular_object (left right : stat) : bool :=
  S_ISREG (st_mode left) && S_ISREG (st_mode right) &&
  (st_dev left =? st_dev right) && (st_ino left =? st_ino right).

Section Device.
Context {common : Infiltratr}.

(** ** Conflicts of a regular image *)

(** The source field of a mountinfo line. *)
Definition mountinfo_source (line : string) : option string :=
  match strstr line " - " with
  | None => None
  | Some separator =>
      let cursor := String.substring 3 (String.length separator - 3) separator in
      match split_char " " cursor with
      | None => None
      | Some (_, cursor) =>
          match split_char " " cursor with
          | None => None
          | Some (source, _) => Some (decoded source)
          end
      end
  end.

Fixpoint source_matches_loop (target : stat) (lines : list string) : sys bool :=
  match lines with
  | [] => Ret false
  | line :: lines =>
      match mountinfo_source line with
      | None => source_matches_loop target lines
      | Some source =>
          let* r := call (Stat source) in
          match r with
          | Ok st => if ld_same_regular_object st target then Ret true
                     else source_matches_loop target lines
          | Err _ => source_matches_loop target lines
          end
      end
  end.

Definition ld_mount_source_matches_regular_identity (target : stat) : sys bool :=
  let* r := call (ReadLines "/proc/self/mountinfo") in
  match r with
  | Err _ => ld_die_errno "open /proc/self/mountinfo"
  | Ok (lines, _) => source_matches_loop target lines
  end.

Definition ld_loop_backing_file_matches_identity (sysfs_path : string) (target : stat) : sys bool :=
  match path_text (sysfs_path ++ "/loop/backing_file") with
  | Err _ => Ret false
  | Ok backing_path =>
      let* r := call (ReadText backing_path PATH_MAX) in
      match r with
      | Err _ => Ret false
      | Ok text =>
          let raw := strip_line_end text in
          if is_empty raw then Ret false
          else
            let candidate := if ascii_dec (head_char raw) "/"%char then raw
                             else ("/" ++ raw)%string in
            match path_text candidate with
            | Err _ => Ret false
            | Ok candidate =>
                let* b := call (Stat candidate) in
                Ret (match b with
                     | Ok backing => ld_same_regular_object backing target
                     | Err _ => false
                     end)
            end
      end
  end.

Fixpoint loop_mapping_loop (target : stat) (require_mounted : bool) (names : list string) :
    sys bool :=
  match names with
  | [] => Ret false
  | name :: names =>
      if ascii_dec (head_char name) "."%char then loop_mapping_loop target require_mounted names
      else match ld_parse_device_number (Some name) with
      | None => loop_mapping_loop target require_mounted names
      | Some device =>
          let* r := ld_resolve_sysfs_device device PATH_MAX in
          match r with
          | Err _ => loop_mapping_loop target require_mounted names
          | Ok sysfs_path =>
              let* m := ld_loop_backing_file_matches_identity sysfs_path target in
              if negb m then loop_mapping_loop target require_mounted names
              else if negb require_mounted then Ret true
              else
                let* mounted := ld_device_number_is_mounted device in
                if mounted : bool then Ret true
                else loop_mapping_loop target require_mounted names
          end
      end
  end.

Definition ld_regular_file_has_loop_mapping (target : stat) (require_mounted : bool) : sys bool :=
  let* r := call (ReadDir "/sys/dev/block") in
  match r with
  | Err _ => Ret false
  | Ok (names, _) => loop_mapping_loop target require_mounted names
  end.

Fixpoint active_swap_loop (target : stat) (lines : list string) (failure : errno) : sys bool :=
  match lines with
  | [] => if decide (failure = Enone) then Ret false else ld_die_errno "read /proc/swaps"
  | line :: lines =>
      match swap_source line with
      | None => active_swap_loop target lines failure
      | Some source_path =>
          let* r := call (Stat (decoded source_path)) in
          match r with
          | Err _ => ld_die_errno "stat active swap"
          | Ok source =>
              if ld_same_regular_object source target then
                (* the loop breaks right after a line was read: no stream error *)
                Ret true
              else active_swap_loop target lines failure
          end
      end
  end.

Definition ld_regular_file_is_active_swap (target : stat) : sys bool :=
  let* s := call (ReadLines "/proc/swaps") in
  match s with
  | Err _ => ld_die_errno "open /proc/swaps"
  | Ok ([], _) => ld_die_errno "read /proc/swaps"
  | Ok (_ :: lines, failure) => active_swap_loop target lines failure
  end.

(** [a || b] on programs. *)
Definition sys_or (a b : sys bool) : sys bool :=
  let* r := a in if r : bool then Ret true else b.

Definition ld_regular_file_is_mounted_identity (target : stat) : sys bool :=
  sys_or (ld_mount_source_matches_regular_identity target)
    (sys_or (ld_regular_file_has_loop_mapping target true)
       (ld_regular_file_is_active_swap target)).

Definition ld_regular_file_write_conflict_identity (target : stat) : sys bool :=
  sys_or (ld_mount_source_matches_regular_identity target)
    (sys_or (ld_regular_file_has_loop_mapping target false)
       (ld_regular_file_is_active_swap target)).

Definition ld_path_is_mounted (path : option string) : sys bool :=
  match path with
  | None => ld_die_errno "stat device"
  | Some path =>
      let* r := call (Realpath path) in
      match r with
      | Err _ => ld_die_errno "realpath target"
      | Ok resolved =>
          let* s := call (Stat resolved) in
          match s with
          | Err _ => ld_die_errno "stat device"
          | Ok status =>
              if S_ISBLK (st_mode status) then ld_device_number_is_mounted (st_rdev status)
              else if S_ISREG (st_mode status) then ld_regular_file_is_mounted_identity status
              else Ret false
          end
      end
  end.

(** ** Sizes *)

Definition ld_fd_size_bytes (fd : Z) : sys (result Z) :=
  if fd <? 0 then Ret (Err EINVAL)
  else
    try* status := call (Fstat fd) in
    if S_ISREG (st_mode status) then
      Ret (if st_size status <? 0 then Err EOVERFLOW else Ok (st_size status))
    else if negb (S_ISBLK (st_mode status)) then Ret (Err EINVAL)
    else call (BlkGetSize64 fd).

(** ** The opener *)

(** The conflict check of a writable open. *)
Definition write_conflict (block regular : bool) (status : stat) : sys bool :=
  sys_or (if block then ld_device_number_is_mounted (st_rdev status) else Ret false)
    (if regular then ld_regular_file_write_conflict_identity status else Ret false).

Definition open_flags (block writable : bool) : list oflag :=
  (if writable then O_RDWR else O_RDONLY) :: O_CLOEXEC ::
  (if block && writable then [O_EXCL] else []) ++ [O_NOFOLLOW].

Definition same_object (block : bool) (expected opened : stat) : bool :=
  (Z.land (st_mode expected) S_IFMT =? Z.land (st_mode opened) S_IFMT) &&
  (st_dev expected =? st_dev opened) && (st_ino expected =? st_ino opened) &&
  (negb block || (st_rdev expected =? st_rdev opened)).

(** [close] and return the errno of the failure. *)
Definition close_failing {A} (fd : Z) (e : errno) : sys (result A) :=
  call (Close fd) ;;; Ret (Err e).

Definition ld_device_try_open (path : option string) (writable : bool) : sys (result LdDevice) :=
  match path with
  | None => Ret (Err EINVAL)
  | Some path =>
      try* resolved := call (Realpath path) in
      try* expected := call (Stat resolved) in
      let block := S_ISBLK (st_mode expected) in
      let regular := S_ISREG (st_mode expected) in
      if negb block && negb regular then Ret (Err EINVAL)
      else
        let* busy := if writable then write_conflict block regular expected else Ret false in
        if busy : bool then Ret (Err EBUSY)
        else
          try* fd := call (Open resolved (open_flags block writable)) in
          let* f := call (Fstat fd) in
          match f with
          | Err e => close_failing fd e
          | Ok opened =>
              if negb (same_object block expected opened) then close_failing fd ESTALE
              else
                let* busy := if writable then write_conflict block regular opened else Ret false in
                if busy : bool then close_failing fd EBUSY
                else
                  let* s := ld_fd_size_bytes fd in
                  match s with
                  | Err e => close_failing fd e
                  | Ok size =>
                      Ret (Ok (mkDevice fd (Some resolved) writable block size
                                 (if block then st_rdev opened else 0)
                                 (st_dev opened) (st_ino opened)))
                  end
          end
  end.

Definition ld_device_close (device : LdDevice) : sys LdDevice :=
  let closed := mkDevice (-1) None false false 0 0 0 0 in
  if 0 <=? dev_fd device then
    let* r := call (Close (dev_fd device)) in
    match r with
    | Ok _ => Ret closed
    | Err _ => call (StderrWrite "close target") ;;; Ret closed
    end
  else Ret closed.

Definition ld_device_open (path : option string) (writable : bool) : sys LdDevice :=
  let* r := ld_device_try_open path writable in
  match r with
  | Ok device => Ret device
  | Err _ => ld_die_errno "open target"
  end.

(** ** sysfs attributes *)

Definition ld_sysfs_text (sysfs suffix : string) (output_size : Z) : sys (option string) :=
  match path_text (sysfs ++ "/" ++ suffix) with
  | Err _ => Ret None
  | Ok path =>
      let* r := call (ReadText path output_size) in
      Ret (match r with Ok text => Some text | Err _ => None end)
  end.

Definition ld_sysfs_size_bytes (sysfs : string) : sys (option Z) :=
  match path_text (sysfs ++ "/size") with
  | Err _ => Ret None
  | Ok path =>
      let* r := call (ReadU64 path) in
      Ret (match r with
           | None => None
           | Some sectors => if UINT64_MAX / 512 <? sectors then None else Some (sectors *64 512)
           end)
  end.

(** The part of [LdBlockDeviceInfo] the udev records fill. *)
Record udev_info := mkUdev { udev_serial : string; udev_wwn : string; udev_transport : string }.

Definition after_prefix (prefix line : string) : string :=
  String.substring (String.length prefix) (String.length line - String.length prefix) line.

Definition udev_line (info : udev_info) (line : string) : udev_info :=
  let line := infiltratr_trim_line_end line in
  let starts p := infiltratr_string_starts_with line p in
  let value :=
    if starts "E:ID_SERIAL_SHORT=" then Some (after_prefix "E:ID_SERIAL_SHORT=" line)
    else if is_empty (udev_serial info) && starts "E:ID_SERIAL="
    then Some (after_prefix "E:ID_SERIAL=" line)
    else if starts "E:ID_WWN=" then Some (after_prefix "E:ID_WWN=" line)
    else if starts "E:ID_BUS=" then Some (after_prefix "E:ID_BUS=" line)
    else None in
  match value with
  | None => info
  | Some value =>
      if starts "E:ID_WWN=" then
        if is_empty (udev_wwn info)
        then mkUdev (udev_serial info) (infiltratr_copy_string 128 value) (udev_transport info)
        else info
      else if starts "E:ID_BUS=" then
        if is_empty (udev_transport info)
        then mkUdev (udev_serial info) (udev_wwn info) (infiltratr_copy_string 32 value)
        else info
      else if is_empty (udev_serial info)
      then mkUdev (infiltratr_copy_string 128 value) (udev_wwn info) (udev_transport info)
      else info
  end.

Definition ld_read_udev_properties (device : Z) (info : udev_info) : sys udev_info :=
  match path_text ("/run/udev/data/b" ++ device_text device) with
  | Err _ => Ret info
  | Ok path =>
      let* r := call (ReadLines path) in
      Ret (match r with
           | Err _ => info
           | Ok (lines, _) => fold_left udev_line lines info
           end)
  end.

(** ** Identities *)

Fixpoint cut_line_end (s : string) : string :=
  match s with
  | EmptyString => EmptyString
  | String c s => if ascii_dec c LF then EmptyString else if ascii_dec c CR then EmptyString
                  else String c (cut_line_end s)
  end.

(** The CID, [None] for false; the buffer has 33 bytes or more. *)
Definition ld_mmc_cid_from_sysfs (sysfs : string) (capacity : Z) : sys (option string) :=
  if capacity <? 33 then Ret None
  else match path_text sysfs with
  | Err _ => Ret None
  | Ok card =>
      let* p := ld_sysfs_is_partition (Some card) in
      match p with
      | Err _ => Ret None
      | Ok partition =>
          let parent :=
            if partition : bool then
              match rsplit_char "/" card with
              | None => None
              | Some (before, _) => if is_empty before then None else Some before
              end
            else Some card in
          match parent with
          | None => Ret None
          | Some card =>
              match rsplit_char "/" card with
              | None => Ret None
              | Some (_, leaf) =>
                  if negb (infiltratr_string_starts_with leaf "mmcblk") then Ret None
                  else
                    let* c := ld_sysfs_text card "device/cid" capacity in
                    match c with
                    | None => Ret None
                    | Some text =>
                        let cid := cut_line_end text in
                        Ret (if negb (strlen cid =? 32) then None
                             else if forall_char isxdigit cid then Some cid else None)
                    end
              end
          end
      end
  end.

Definition mmc_identity_text (cid : string) (start size_bytes : Z) : string :=
  ("block-hw:mmc-cid:" ++ cid ++ "||" ++ utoa start ++ "|" ++ utoa size_bytes)%string.

(** [start] is zero when the attribute cannot be read. *)
Definition read_start (sysfs : string) : sys Z :=
  let* r := call (ReadU64 (sysfs ++ "/start")%string) in
  Ret (default 0 r).

Definition ld_mmc_identity_from_sysfs (sysfs : string) (capacity : Z) : sys (option string) :=
  let* c := ld_mmc_cid_from_sysfs sysfs 96 in
  match c with
  | None => Ret None
  | Some cid =>
      let* s := ld_sysfs_size_bytes sysfs in
      match s with
      | None => Ret None
      | Some size_bytes =>
          match path_text (sysfs ++ "/start") with
          | Err _ => Ret None
          | Ok _ =>
              let* start := read_start sysfs in
              let text := mmc_identity_text cid start size_bytes in
              Ret (if fits text capacity then Some text else None)
          end
      end
  end.

Definition hardware_identity_text (wwn serial : string) (start size_bytes : Z) : string :=
  ("block-hw:" ++ wwn ++ "|" ++ serial ++ "|" ++ utoa start ++ "|" ++ utoa size_bytes)%string.

Definition ld_stable_block_hardware_identity (device_number buffer_size : Z) :
    sys (option string) :=
  if buffer_size =? 0 then Ret None
  else
    let* r := ld_resolve_sysfs_device device_number PATH_MAX in
    match r with
    | Err _ => Ret None
    | Ok sysfs =>
        let* serial := ld_sysfs_text sysfs "device/serial" 128 in
        let* wwid := ld_sysfs_text sysfs "device/wwid" 128 in
        let* wwn := match wwid with
                    | Some w => Ret (Some w)
                    | None => ld_sysfs_text sysfs "wwid" 128
                    end in
        let* info := ld_read_udev_properties device_number
                       (mkUdev (default EmptyString serial) (default EmptyString wwn) EmptyString) in
        if is_empty (udev_serial info) && is_empty (udev_wwn info)
        then ld_mmc_identity_from_sysfs sysfs buffer_size
        else
          let* start := match path_text (sysfs ++ "/start") with
                        | Ok _ => read_start sysfs
                        | Err _ => Ret 0
                        end in
          let* s := ld_sysfs_size_bytes sysfs in
          match s with
          | None => Ret None
          | Some size_bytes =>
              let text := hardware_identity_text (udev_wwn info) (udev_serial info)
                            start size_bytes in
              Ret (if fits text buffer_size then Some text else None)
          end
    end.

(** The least candidate of one directory that names the device. *)
Fixpoint alias_entries (device_number : Z) (root : string) (names : list string)
    (best : string) : sys string :=
  match names with
  | [] => Ret best
  | name :: names =>
      if ascii_dec (head_char name) "."%char then alias_entries device_number root names best
      else if String.eqb root "/dev/mapper" && String.eqb name "control"
      then alias_entries device_number root names best
      else match path_text (root ++ "/" ++ name) with
      | Err _ => alias_entries device_number root names best
      | Ok candidate =>
          let* r := call (Stat candidate) in
          let names_device := match r with
            | Ok status => S_ISBLK (st_mode status) && (st_rdev status =? device_number)
            | Err _ => false
            end in
          alias_entries device_number root names
            (if names_device && (is_empty best || String.ltb candidate best)
             then infiltratr_copy_string PATH_MAX candidate else best)
      end
  end.

Fixpoint alias_roots (device_number : Z) (roots : list string) : sys string :=
  match roots with
  | [] => Ret EmptyString
  | root :: roots =>
      let* r := call (ReadDir root) in
      match r with
      | Err _ => alias_roots device_number roots
      | Ok (names, _) =>
          let* best := alias_entries device_number root names EmptyString in
          if is_empty best then alias_roots device_number roots else Ret best
      end
  end.

Definition alias_directories : list string :=
  ["/dev/disk/by-partuuid"; "/dev/disk/by-uuid"; "/dev/disk/by-id"; "/dev/mapper"].

Definition ld_stable_block_alias (device_number buffer_size : Z) : sys (option string) :=
  if buffer_size =? 0 then Ret None
  else
    let* best := alias_roots device_number alias_directories in
    Ret (if is_empty best then None
         else if buffer_size <? strlen best + 1 then None
         else Some (infiltratr_copy_string buffer_size best)).

Definition legacy_identity_text (device_number : Z) : string :=
  ("block:" ++ device_text device_number)%string.

Definition ld_legacy_block_identity_matches (device_number : Z) (expected : string) : bool :=
  infiltratr_string_starts_with expected "block:" &&
  (let legacy := legacy_identity_text device_number in
   fits legacy 64 && String.eqb legacy expected).

Definition file_identity_text (host_device inode : Z) : string :=
  ("file:" ++ utoa host_device ++ ":" ++ utoa inode)%string.

Definition ld_device_format_identity (device : LdDevice) (buffer_size : Z) : sys (result string) :=
  if (dev_fd device <? 0) || (buffer_size =? 0) then Ret (Err EINVAL)
  else
    let* text :=
      if dev_is_block device then
        let* h := ld_stable_block_hardware_identity (dev_device_number device) PATH_MAX in
        match h with
        | Some stable => Ret stable
        | None =>
            let* a := ld_stable_block_alias (dev_device_number device) PATH_MAX in
            Ret (match a with
                 | Some stable => ("block-id:" ++ stable)%string
                 | None => legacy_identity_text (dev_device_number device)
                 end)
        end
      else Ret (file_identity_text (dev_host_device device) (dev_inode device)) in
    Ret (if fits text buffer_size then Ok text else Err ENAMETOOLONG).

Definition ld_fd_format_identity (fd buffer_size : Z) : sys (result string) :=
  if (fd <? 0) || (buffer_size =? 0) then Ret (Err EINVAL)
  else
    try* status := call (Fstat fd) in
    let block := S_ISBLK (st_mode status) in
    if negb block && negb (S_ISREG (st_mode status)) then Ret (Err EINVAL)
    else ld_device_format_identity
           (mkDevice fd None false block 0 (if block then st_rdev status else 0)
              (st_dev status) (st_ino status)) buffer_size.

Definition IDENTITY_MAX : Z := PATH_MAX + 32.

(** [format(...) == 0 && strcmp(identity, expected) == 0] *)
Definition identity_equals (p : sys (result string)) (expected : string) : sys bool :=
  let* r := p in
  Ret (match r with Ok text => String.eqb text expected | Err _ => false end).

Definition mmc_still_matches (device : LdDevice) (expected_identity : string) : sys bool :=
  let* f := call (Fstat (dev_fd device)) in
  match f with
  | Err _ => Ret false
  | Ok opened =>
      if negb (S_ISBLK (st_mode opened)) || negb (st_rdev opened =? dev_device_number device)
      then Ret false
      else
        let* s := ld_fd_size_bytes (dev_fd device) in
        match s with
        | Err _ => Ret false
        | Ok actual_bytes =>
            if negb (actual_bytes =? dev_size_bytes device) then Ret false
            else
              let* r := ld_resolve_sysfs_device (dev_device_number device) PATH_MAX in
              match r with
              | Err _ => Ret false
              | Ok sysfs =>
                  let* c := ld_mmc_identity_from_sysfs sysfs 256 in
                  Ret (match c with
                       | Some current => String.eqb current expected_identity
                       | None => false
                       end)
              end
        end
  end.

Definition ld_device_matches_identity (device : LdDevice) (expected_identity : option string)
    (expected_size : Z) : sys bool :=
  match expected_identity with
  | None => Ret false
  | Some expected =>
      if dev_fd device <? 0 then Ret false
      else if negb (expected_size =? 0) && negb (dev_size_bytes device =? expected_size)
      then Ret false
      else if dev_is_block device &&
              ld_legacy_block_identity_matches (dev_device_number device) expected
      then Ret true
      else if dev_is_block device &&
              infiltratr_string_starts_with expected "block-hw:mmc-cid:"
      then mmc_still_matches device expected
      else identity_equals (ld_device_format_identity device IDENTITY_MAX) expected
  end.

Definition ld_fd_matches_identity (fd : Z) (expected_identity : option string)
    (expected_size : Z) : sys bool :=
  match expected_identity with
  | None => Ret false
  | Some expected =>
      if fd <? 0 then Ret false
      else
        let* s := ld_fd_size_bytes fd in
        match s with
        | Err _ => Ret false
        | Ok size =>
            if negb (expected_size =? 0) && negb (size =? expected_size) then Ret false
            else
              let* f := call (Fstat fd) in
              match f with
              | Err _ => Ret false
              | Ok status =>
                  if S_ISBLK (st_mode status) &&
                     ld_legacy_block_identity_matches (st_rdev status) expected
                  then Ret true
                  else identity_equals (ld_fd_format_identity fd IDENTITY_MAX) expected
              end
        end
  end.

(** The descriptor, or the errno of -1. *)
Definition ld_device_open_verified_fd (path : option string) (writable : bool)
    (expected_identity : option string) (expected_size : Z) : sys (result Z) :=
  try* device := ld_device_try_open path writable in
  let* bound := if is_null expected_identity then Ret true
                else ld_device_matches_identity device expected_identity expected_size in
  if bound : bool then Ret (Ok (dev_fd device))
  else ld_device_close device ;;; Ret (Err ESTALE).

(** The canonical path, the identity and the size. *)
Definition ld_device_capture_binding (path : option string) :
    sys (result (string * string * Z)) :=
  match path with
  | None => Ret (Err EINVAL)
  | Some path =>
      try* device := ld_device_try_open (Some path) false in
      if dev_size_bytes device =? 0 then ld_device_close device ;;; Ret (Err EINVAL)
      else
        let* i := ld_device_format_identity device IDENTITY_MAX in
        match i with
        | Err e => ld_device_close device ;;; Ret (Err e)
        | Ok text =>
            let* alias := if dev_is_block device
                          then ld_stable_block_alias (dev_device_number device) PATH_MAX
                          else Ret None in
            let canonical := match alias with
                             | Some stable => stable
                             | None => default EmptyString (dev_path device)
                             end in
            ld_device_close device ;;;
            Ret (Ok (canonical, text, dev_size_bytes device))
        end
  end.

(** ** Metadata *)

Definition ld_device_is_rotational (device : LdDevice) : sys bool :=
  if negb (dev_is_block device) then Ret false
  else
    let* r := call (ReadU64 (truncated ("/sys/dev/block/" ++ device_text (dev_device_number device)
                               ++ "/queue/rotational") 128)) in
    Ret (match r with Some v => negb (v =? 0) | None => false end).

Definition ld_device_is_serial_flash (device : LdDevice) : bool :=
  infiltratr_string_starts_with (infiltratr_path_basename (default EmptyString (dev_path device)))
    "mmcblk".

(** A 0/1 attribute. *)
Definition sysfs_flag (sysfs name : string) : sys (result bool) :=
  match path_text (sysfs ++ "/" ++ name) with
  | Err _ => Ret (Err EIO)
  | Ok path =>
      let* r := call (ReadU64 path) in
      Ret (match r with
           | Some v => if 1 <? v then Err EIO else Ok (negb (v =? 0))
           | None => Err EIO
           end)
  end.

Definition transport_guess (sysfs base : string) : string :=
  if negb (is_null (strstr sysfs "/usb")) then "usb"
  else if infiltratr_string_starts_with base "nvme" then "nvme"
  else if infiltratr_string_starts_with base "mmcblk" then "mmc"
  else if negb (is_null (strstr sysfs "/ata")) then "sata"
  else if negb (is_null (strstr sysfs "/virtio")) then "virtio"
  else if negb (is_null (strstr sysfs "/scsi")) then "scsi"
  else "".

(** The capacity from sysfs, or from the device node. *)
Definition block_size_bytes (path sysfs : string) : sys (result Z) :=
  let* s := ld_sysfs_size_bytes sysfs in
  match s with
  | Some size => Ret (Ok size)
  | None =>
      try* fd := call (Open path [O_RDONLY; O_CLOEXEC; O_NONBLOCK]) in
      let* size := ld_fd_size_bytes fd in
      call (Close fd) ;;; Ret size
  end.

(** [first], or [second] when the first attribute cannot be read. *)
Definition sysfs_text_or (sysfs first second : string) (size : Z) : sys string :=
  let* a := ld_sysfs_text sysfs first size in
  match a with
  | Some text => Ret text
  | None => let* b := ld_sysfs_text sysfs second size in Ret (default EmptyString b)
  end.

Definition ld_block_device_info (path : option string) : sys (result LdBlockDeviceInfo) :=
  match path with
  | None => Ret (Err EINVAL)
  | Some path =>
      try* st := call (Stat path) in
      if negb (S_ISBLK (st_mode st)) then Ret (Err ENOTBLK)
      else
        let* r := ld_resolve_sysfs_device (st_rdev st) PATH_MAX in
        match r with
        | Err _ => Ret (Err ENODEV)
        | Ok sysfs =>
            match path_text (sysfs ++ "/partition") with
            | Err e => Ret (Err e)
            | Ok partition_path =>
                let* a := call (Access partition_path) in
                try* whole_disk := Ret (match a with
                  | Ok _ => Ok false
                  | Err e => if decide (e = ENOENT) then Ok true else Err e
                  end) in
                try* size := block_size_bytes path sysfs in
                try* removable := sysfs_flag sysfs "removable" in
                try* read_only := sysfs_flag sysfs "ro" in
                let* model := sysfs_text_or sysfs "device/model" "device/name" 128 in
                let* serial := ld_sysfs_text sysfs "device/serial" 128 in
                let serial := default EmptyString serial in
                let* wwn := sysfs_text_or sysfs "device/wwid" "wwid" 128 in
                let base := infiltratr_path_basename path in
                let* wwn :=
                  if is_empty serial && is_empty wwn &&
                     infiltratr_string_starts_with base "mmcblk" then
                    let* cid := ld_sysfs_text sysfs "device/cid" 96 in
                    Ret (match cid with
                         | Some cid => if is_empty cid then wwn
                                       else truncated ("mmc-cid:" ++ cid) 128
                         | None => wwn
                         end)
                  else Ret wwn in
                let* info := ld_read_udev_properties (st_rdev st) (mkUdev serial wwn EmptyString) in
                let transport :=
                  if is_empty (udev_transport info)
                  then infiltratr_copy_string 32 (transport_guess sysfs base)
                  else udev_transport info in
                Ret (Ok (mkInfo size whole_disk removable read_only model
                           (udev_serial info) (udev_wwn info) transport))
            end
        end
  end.
End Device.

(** ** Lemmas: the checks open and close nothing *)

Section DeviceLemmas.
Context {common : Infiltratr}.
Implicit Types (t : list (event sysE)).

(** A call that neither opens nor closes a descriptor, and changes nothing. *)
Definition fd_neutral (X : Type) (e : sysE X) : Prop :=
  match e with
  | Open _ _ | Openat _ _ _ | Openat2 _ _ _ _ | Close _ => False
  | PwriteFull _ _ _ | Fsync _ | Ftruncate _ _ | Mkdirat _ _ _ | UnlinkDurable _ | AtomicWrite _ _ => False
  | _ => True
  end.

Abbreviation neutral := (calls_in fd_neutral).

Definition neutral_trace t : Prop := fds_opened t = [] /\ fds_closed t = [].

Lemma neutral_runs {A} (p : sys A) t o :
  neutral p -> runs p t o -> neutral_trace t.
Proof.
  unfold neutral_trace. intros Hp Hr. pose proof (calls_runs _ _ _ _ Hp Hr) as HF. clear - HF.
  induction HF as [|[X e x] t He HF [IH1 IH2]]; [done|].
  unfold fds_opened, fds_closed in *. simpl. rewrite IH1, IH2.
  by destruct e.
Qed.

Lemma collect_entries_neutral path names devices exact require :
  neutral (collect_entries path names devices exact require).
Proof.
  revert devices. induction names as [|name names IH]; intros devices; cbn [collect_entries];
    unfold ld_read_sysfs_device; calls.
Qed.

Lemma collect_relations_neutral sysfs relations devices :
  neutral (collect_relations sysfs relations devices).
Proof.
  pose proof collect_entries_neutral as He. revert devices.
  induction relations as [|name relations IH]; intros devices; cbn [collect_relations];
    unfold ld_collect_sysfs_directory; calls.
Qed.

Lemma collect_from_neutral fuel index devices : neutral (collect_related_from fuel index devices).
Proof.
  pose proof collect_entries_neutral as He. pose proof collect_relations_neutral as Hr. revert index devices.
  induction fuel as [|fuel IH]; intros index devices; cbn [collect_related_from];
    unfold visit_related, ld_resolve_sysfs_device, ld_sysfs_is_partition,
      ld_add_partition_parent_device, ld_read_sysfs_device, ld_collect_sysfs_directory; calls.
Qed.

Lemma device_is_mounted_neutral device : neutral (ld_device_number_is_mounted device).
Proof.
  pose proof collect_from_neutral as Hc.
  assert (Hs : forall related lines failure, neutral (swaps_on_related related lines failure))
    by (intros related lines failure; induction lines; cbn [swaps_on_related]; calls).
  unfold ld_device_number_is_mounted, related_devices, ld_collect_related_devices. calls.
Qed.

Lemma write_conflict_identity_neutral target :
  neutral (ld_regular_file_write_conflict_identity target).
Proof.
  pose proof device_is_mounted_neutral as Hm.
  assert (H1 : forall lines, neutral (source_matches_loop target lines))
    by (intros lines; induction lines; cbn [source_matches_loop]; calls).
  assert (H2 : forall r names, neutral (loop_mapping_loop target r names))
    by (intros r names; induction names; cbn [loop_mapping_loop];
        unfold ld_resolve_sysfs_device, ld_loop_backing_file_matches_identity; calls).
  assert (H3 : forall lines f, neutral (active_swap_loop target lines f))
    by (intros lines f; induction lines; cbn [active_swap_loop]; calls).
  unfold ld_regular_file_write_conflict_identity, sys_or, ld_mount_source_matches_regular_identity,
    ld_regular_file_has_loop_mapping, ld_regular_file_is_active_swap. calls.
Qed.

Lemma write_conflict_neutral block regular status : neutral (write_conflict block regular status).
Proof.
  pose proof device_is_mounted_neutral as Hm. pose proof write_conflict_identity_neutral as Hw.
  unfold write_conflict, sys_or. calls.
Qed.

Lemma fd_size_neutral fd : neutral (ld_fd_size_bytes fd).
Proof. unfold ld_fd_size_bytes. calls. Qed.

(** ** Lemmas: the opener *)

(** *** What a safe open is

    It is stated with the calls the opener makes and what they answer. *)

(** Two stats of one regular file. *)
Definition same_file (a b : stat) : Prop :=
  S_ISREG (st_mode a) = true /\ S_ISREG (st_mode b) = true /\ st_dev a = st_dev b /\ st_ino a = st_ino b.

(** No path whose status was asked is the regular file [target]. *)
Definition never_met (target : stat) (c : list (event sysE)) : Prop :=
  Forall (fun ev => match ev with Event e x =>
    match e in sysE X return X -> Prop with
    | Stat _ => fun x => match x with Ok st => ~ same_file st target | Err _ => True end
    | _ => fun _ => True
    end x end) c.

(** The source of every mount was looked at. *)
Definition mounts_inspected (c : list (event sysE)) : Prop :=
  exists lines e, Event (ReadLines "/proc/self/mountinfo") (Ok (lines, e)) ∈ c /\
    forall line source, line ∈ lines -> mountinfo_source line = Some source -> exists r, Event (Stat source) r ∈ c.

Definition absolute (raw : string) : string := if ascii_dec (head_char raw) "/"%char then raw else ("/" ++ raw)%string.

(** The file behind the block device at [sysfs], when it is a loop device, was
    looked at. *)
Definition backing_inspected (sysfs : string) (c : list (event sysE)) : Prop :=
  fits (sysfs ++ "/loop/backing_file") PATH_MAX = true ->
  exists text, Event (ReadText (sysfs ++ "/loop/backing_file") PATH_MAX) text ∈ c /\
    forall raw, text = Ok raw -> is_empty (strip_line_end raw) = false -> fits (absolute (strip_line_end raw)) PATH_MAX = true ->
      exists r, Event (Stat (absolute (strip_line_end raw))) r ∈ c.

(** Every block device the kernel lists was looked at. *)
Definition loops_inspected (c : list (event sysE)) : Prop :=
  exists listing, Event (ReadDir "/sys/dev/block") listing ∈ c /\
    forall names e name device, listing = Ok (names, e) -> name ∈ names -> head_char name <> "."%char ->
      ld_parse_device_number (Some name) = Some device ->
      fits ("/sys/dev/block/" ++ device_text device) PATH_MAX = true ->
      exists r, Event (RealpathCopy ("/sys/dev/block/" ++ device_text device) PATH_MAX) r ∈ c /\
        forall sysfs, r = Ok sysfs -> backing_inspected sysfs c.

(** Every swap file was looked at, and the table read to its end. *)
Definition swaps_inspected (c : list (event sysE)) : Prop :=
  exists header lines, Event (ReadLines "/proc/swaps") (Ok (header :: lines, Enone)) ∈ c /\
    forall line source, line ∈ lines -> swap_source line = Some source -> exists st, Event (Stat (decoded source)) (Ok st) ∈ c.

(** A block device: its related devices were collected, and neither a mount nor a swap
    is on one of them. *)
Definition device_free (device : Z) (c : list (event sysE)) : Prop :=
  exists t1 related lines e header swaps t2,
    c = t1 ++ Event (ReadLines "/proc/self/mountinfo") (Ok (lines, e)) ::
        Event (ReadLines "/proc/swaps") (Ok (header :: swaps, Enone)) :: t2 /\
    runs (ld_collect_related_devices device) t1 (Returned (Some (Ok related))) /\
    (forall line v, line ∈ lines -> mountinfo_device line = Some v -> v ∉ values related) /\
    (forall line source, line ∈ swaps -> swap_source line = Some source ->
       exists st, Event (Stat (decoded source)) (Ok st) ∈ t2 /\ swap_device st ∉ values related).

(** The evidence that nothing uses the object. *)
Definition found_free (object : stat) (c : list (event sysE)) : Prop :=
  (S_ISBLK (st_mode object) = true -> device_free (st_rdev object) c) /\
  (S_ISREG (st_mode object) = true ->
   never_met object c /\ mounts_inspected c /\ loops_inspected c /\ swaps_inspected c).

(** Exactly the flags of a safe open. *)
Definition safe_flags (block writable : bool) (flags : list oflag) : Prop :=
  forall flag, flag ∈ flags <->
    flag = O_CLOEXEC \/ flag = O_NOFOLLOW \/ flag = (if writable then O_RDWR else O_RDONLY) \/
    flag = O_EXCL /\ block = true /\ writable = true.

(** One object in two stats: the kind, the device, the inode, and for a device node
    the device it names. *)
Definition identical (a b : stat) : Prop :=
  Z.land (st_mode a) S_IFMT = Z.land (st_mode b) S_IFMT /\ st_dev a = st_dev b /\ st_ino a = st_ino b /\
  (S_ISBLK (st_mode a) = true -> st_rdev a = st_rdev b).

(** The size the kernel gives for the descriptor. *)
Definition measured (fd size : Z) (s : list (event sysE)) : Prop :=
  exists st, (S_ISREG (st_mode st) = true /\ s = [Event (Fstat fd) (Ok st)] /\ size = st_size st /\ 0 <= size) \/
    (S_ISBLK (st_mode st) = true /\ s = [Event (Fstat fd) (Ok st); Event (BlkGetSize64 fd) (Ok size)]).

(** The trace of a successful open: the object inspected, found free, opened
    without following a link, compared, found free again and measured. *)
Definition opened_safely t (path : string) (writable : bool) (device : LdDevice) : Prop :=
  exists resolved expected opened flags c1 c2 s,
    let block := S_ISBLK (st_mode expected) in
    let fd := dev_fd device in
    t = [Event (Realpath path) (Ok resolved); Event (Stat resolved) (Ok expected)] ++ c1 ++
        [Event (Open resolved flags) (Ok fd); Event (Fstat fd) (Ok opened)] ++ c2 ++ s /\
    (block = true \/ S_ISREG (st_mode expected) = true) /\
    safe_flags block writable flags /\ identical expected opened /\
    (writable = true -> found_free expected c1 /\ found_free opened c2) /\
    measured fd (dev_size_bytes device) s /\
    device = mkDevice fd (Some resolved) writable block (dev_size_bytes device)
               (if block then st_rdev opened else 0) (st_dev opened) (st_ino opened).

(** *** Lemmas: the evidence *)

Lemma same_regular_spec a b : ld_same_regular_object a b = true <-> same_file a b.
Proof. unfold ld_same_regular_object, same_file. rewrite !andb_true_iff, !Z.eqb_eq. tauto. Qed.

Lemma never_met_app target t1 t2 : never_met target (t1 ++ t2) <-> never_met target t1 /\ never_met target t2.
Proof. apply Forall_app. Qed.

Lemma never_met_stat target path r t :
  match r with Ok st => ld_same_regular_object st target = false | Err _ => True end ->
  never_met target t -> never_met target (Event (Stat path) r :: t).
Proof.
  intros Hr Ht. constructor; [|done]. destruct r as [st|]; [|done]. intros E. apply same_regular_spec in E. congruence.
Qed.

Lemma source_matches_runs target lines t :
  runs (source_matches_loop target lines) t (Returned false) ->
  never_met target t /\
  forall line source, line ∈ lines -> mountinfo_source line = Some source -> exists r, Event (Stat source) r ∈ t.
Proof.
  revert t. induction lines as [|line lines IH]; intros t H; cbn [source_matches_loop] in H.
  - apply runs_inv in H as [-> _]. split; [constructor|]. intros l s Hin. by apply not_elem_of_nil in Hin.
  - destruct (mountinfo_source line) as [source|] eqn:Hs.
    + apply runs_inv in H as (r & t' & -> & H). cbn [pbind] in H.
      assert (Hr : match r with Ok st => ld_same_regular_object st target = false | Err _ => True end /\
        runs (source_matches_loop target lines) t' (Returned false)).
      { destruct r as [st|]; [|done]. destruct (ld_same_regular_object st target); [by apply runs_inv in H as [_ ?]|done]. }
      destruct Hr as [Hr H']. apply IH in H' as [Hn Hall]. split; [by apply never_met_stat|].
      intros l s [->|Hin]%elem_of_cons Hs'; [assert (s = source) as -> by congruence; exists r; left|].
      destruct (Hall l s Hin Hs') as [r' Hr']. exists r'. by right.
    + apply IH in H as [Hn Hall]. split; [done|]. intros l s [->|Hin]%elem_of_cons Hs'; [congruence|eauto].
Qed.

Lemma mount_source_runs target t :
  runs (ld_mount_source_matches_regular_identity target) t (Returned false) -> never_met target t /\ mounts_inspected t.
Proof.
  intros H. apply runs_inv in H as (r & t' & -> & H). cbn [pbind] in H.
  destruct r as [[lines e]|]; [|by apply runs_inv in H as [_ ?]]. apply source_matches_runs in H as [Hn Hall].
  split; [by constructor|]. exists lines, e. split; [left|]. intros l s Hin Hs. destruct (Hall l s Hin Hs) as [r Hr]. exists r. by right.
Qed.

Lemma backing_more sysfs t t' :
  (forall X (e : sysE X) x, Event e x ∈ t -> Event e x ∈ t') -> backing_inspected sysfs t -> backing_inspected sysfs t'.
Proof.
  intros Hi H Hf. destruct (H Hf) as (text & Ht & Hr). exists text. split; [by apply Hi|]. intros raw E1 E2 E3.
  destruct (Hr raw E1 E2 E3) as [r Hin]. exists r. by apply Hi.
Qed.

Lemma backing_runs sysfs target t :
  runs (ld_loop_backing_file_matches_identity sysfs target) t (Returned false) -> never_met target t /\ backing_inspected sysfs t.
Proof.
  unfold ld_loop_backing_file_matches_identity, path_text. intros H. unfold backing_inspected.
  destruct (fits (sysfs ++ "/loop/backing_file") PATH_MAX); [|apply runs_inv in H as [-> _]; split; [constructor|done]].
  apply runs_inv in H as (text & t' & -> & H). cbn [pbind] in H. destruct text as [raw|].
  2:{ apply runs_inv in H as [-> _]. split; [by repeat constructor|]. intros _. eexists. split; [left|done]. }
  destruct (is_empty (strip_line_end raw)) eqn:He.
  { apply runs_inv in H as [-> _]. split; [by repeat constructor|]. intros _. eexists. split; [left|]. intros raw' [= <-]. congruence. }
  fold (absolute (strip_line_end raw)) in H. cbv zeta in H. destruct (fits (absolute (strip_line_end raw)) PATH_MAX) eqn:Hf.
  2:{ apply runs_inv in H as [-> _]. split; [by repeat constructor|]. intros _. eexists. split; [left|]. intros raw' [= <-]. congruence. }
  apply runs_inv in H as (b & t2 & -> & H). apply runs_inv in H as [-> [= Hb]]. split.
  - constructor; [done|]. apply never_met_stat; [by destruct b|constructor].
  - intros _. eexists. split; [left|]. intros raw' [= <-] _ _. exists b. right. left.
Qed.

Lemma loop_mapping_runs target names t :
  runs (loop_mapping_loop target false names) t (Returned false) ->
  never_met target t /\
  forall name device, name ∈ names -> head_char name <> "."%char -> ld_parse_device_number (Some name) = Some device ->
    fits ("/sys/dev/block/" ++ device_text device) PATH_MAX = true ->
    exists r, Event (RealpathCopy ("/sys/dev/block/" ++ device_text device) PATH_MAX) r ∈ t /\
      forall sysfs, r = Ok sysfs -> backing_inspected sysfs t.
Proof.
  revert t. induction names as [|name names IH]; intros t H; cbn [loop_mapping_loop] in H.
  { apply runs_inv in H as [-> _]. split; [constructor|]. intros n d Hin. by apply not_elem_of_nil in Hin. }
  assert (Skip : (head_char name = "."%char \/ ld_parse_device_number (Some name) = None \/
      exists device, ld_parse_device_number (Some name) = Some device /\
        fits ("/sys/dev/block/" ++ device_text device) PATH_MAX = false) ->
    runs (loop_mapping_loop target false names) t (Returned false) ->
    never_met target t /\
    forall name' device, name' ∈ name :: names -> head_char name' <> "."%char -> ld_parse_device_number (Some name') = Some device ->
      fits ("/sys/dev/block/" ++ device_text device) PATH_MAX = true ->
      exists r, Event (RealpathCopy ("/sys/dev/block/" ++ device_text device) PATH_MAX) r ∈ t /\
        forall sysfs, r = Ok sysfs -> backing_inspected sysfs t).
  { intros Hskip Hr. apply IH in Hr as [Hn Hall]. split; [done|]. intros n d [->|Hin]%elem_of_cons Hd Hp Hf; [|by apply (Hall n)].
    exfalso. destruct Hskip as [?|[?|(d' & Hd' & Hf')]]; [done|congruence|]. rewrite Hp in Hd'. injection Hd' as ->. congruence. }
  destruct (ascii_dec (head_char name) "."%char); [apply Skip; [by left|exact H]|].
  destruct (ld_parse_device_number (Some name)) as [device|] eqn:Hdev; [|apply Skip; [by right; left|exact H]].
  unfold ld_resolve_sysfs_device, path_text in H.
  destruct (fits ("/sys/dev/block/" ++ device_text device) PATH_MAX) eqn:Hfit.
  2:{ apply Skip; [right; right; by exists device|exact H]. }
  clear Skip. apply runs_inv in H as (r & t1 & -> & H). cbn [pbind] in H.
  assert (Hrest : exists u v, t1 = u ++ v /\ never_met target u /\ (forall sysfs, r = Ok sysfs -> backing_inspected sysfs u) /\
    runs (loop_mapping_loop target false names) v (Returned false)).
  { destruct r as [sysfs|]; [|exists [], t1; split_and!; [done|constructor|done|done]].
    apply pbind_runs in H as [(w & _ & ?)|(m & u & v & -> & Hm & H)]; [done|].
    destruct m; cbn [negb] in H; [by apply runs_inv in H as [_ ?]|]. apply backing_runs in Hm as [Hn Hb].
    exists u, v. split_and!; [done|done|by intros ? [= <-]|done]. }
  destruct Hrest as (u & v & -> & Hn & Hb & H'). apply IH in H' as [Hn' Hall]. split.
  { constructor; [done|]. by apply never_met_app. }
  intros nm d [->|Hin]%elem_of_cons Hh Hp Hf.
  - assert (d = device) as -> by congruence. exists r. split; [left|]. intros sysfs E. eapply backing_more; [|by apply Hb].
    intros X e x Hin. right. apply elem_of_app. by left.
  - destruct (Hall nm d Hin Hh Hp Hf) as (r' & Hr' & Hb'). exists r'. split; [right; apply elem_of_app; by right|].
    intros sysfs E. eapply backing_more; [|by apply Hb']. intros X e x Hi. right. apply elem_of_app. by right.
Qed.

Lemma has_loop_mapping_runs target t :
  runs (ld_regular_file_has_loop_mapping target false) t (Returned false) -> never_met target t /\ loops_inspected t.
Proof.
  intros H. apply runs_inv in H as (r & t' & -> & H). cbn [pbind] in H. destruct r as [[names e]|].
  - apply loop_mapping_runs in H as [Hn Hall]. split; [by constructor|]. eexists. split; [left|].
    intros names' e' name device [= <- <-] H1 H2 H3 H4. destruct (Hall name device H1 H2 H3 H4) as (r & Hr & Hb).
    exists r. split; [by right|]. intros sysfs E. eapply backing_more; [|by apply Hb]. intros X ev x Hi. by right.
  - apply runs_inv in H as [-> _]. split; [by repeat constructor|]. eexists. split; [left|done].
Qed.

Lemma active_swap_runs target t :
  runs (ld_regular_file_is_active_swap target) t (Returned false) -> never_met target t /\ swaps_inspected t.
Proof.
  assert (Hl : forall lines failure t, runs (active_swap_loop target lines failure) t (Returned false) ->
    failure = Enone /\ never_met target t /\
    forall line source, line ∈ lines -> swap_source line = Some source -> exists st, Event (Stat (decoded source)) (Ok st) ∈ t).
  { clear t. intros lines failure. induction lines as [|line lines IH]; intros t H; cbn [active_swap_loop] in H.
    - destruct (decide (failure = Enone)); [|by apply runs_inv in H as [_ ?]]. apply runs_inv in H as [-> _].
      split; [done|]. split; [constructor|]. intros l s Hin. by apply not_elem_of_nil in Hin.
    - destruct (swap_source line) as [source|] eqn:Hs.
      + apply runs_inv in H as (r & t' & -> & H). cbn [pbind] in H. destruct r as [st|]; [|by apply runs_inv in H as [_ ?]].
        destruct (ld_same_regular_object st target) eqn:Hm; [by apply runs_inv in H as [_ ?]|].
        apply IH in H as (-> & Hn & Hall). split; [done|]. split; [by apply never_met_stat|].
        intros l s [->|Hin]%elem_of_cons Hs'; [assert (s = source) as -> by congruence; exists st; left|].
        destruct (Hall l s Hin Hs') as [st' Hst]. exists st'. by right.
      + apply IH in H as (-> & Hn & Hall). split; [done|]. split; [done|]. intros l s [->|Hin]%elem_of_cons Hs'; [congruence|eauto]. }
  intros H. apply runs_inv in H as (r & t' & -> & H). cbn [pbind] in H.
  destruct r as [[[|header lines] failure]|]; [by apply runs_inv in H as [_ ?]| |by apply runs_inv in H as [_ ?]].
  apply Hl in H as (-> & Hn & Hall). split; [by constructor|]. exists header, lines. split; [left|].
  intros l s Hin Hs. destruct (Hall l s Hin Hs) as [st Hst]. exists st. by right.
Qed.

Lemma sys_or_runs a b t :
  runs (sys_or a b) t (Returned false) -> exists t1 t2, t = t1 ++ t2 /\ runs a t1 (Returned false) /\ runs b t2 (Returned false).
Proof.
  intros H. apply pbind_runs in H as [(m & _ & ?)|([] & t1 & t2 & -> & H1 & H2)]; [done|by apply runs_inv in H2 as [_ ?]|].
  by exists t1, t2.
Qed.

Lemma inspected_more t t' :
  (forall X (e : sysE X) x, Event e x ∈ t -> Event e x ∈ t') ->
  (mounts_inspected t -> mounts_inspected t') /\ (loops_inspected t -> loops_inspected t') /\ (swaps_inspected t -> swaps_inspected t').
Proof.
  intros Hi. split_and!.
  - intros (lines & e & Hl & Hall). exists lines, e. split; [by apply Hi|]. intros l s Hin Hs. destruct (Hall l s Hin Hs) as [r Hr]. exists r. by apply Hi.
  - intros (listing & Hl & Hall). exists listing. split; [by apply Hi|]. intros names e name device H1 H2 H3 H4 H5.
    destruct (Hall names e name device H1 H2 H3 H4 H5) as (r & Hr & Hb). exists r. split; [by apply Hi|].
    intros sysfs E. eapply backing_more; [exact Hi|by apply Hb].
  - intros (header & lines & Hl & Hall). exists header, lines. split; [by apply Hi|]. intros l s Hin Hs. destruct (Hall l s Hin Hs) as [r Hr]. exists r. by apply Hi.
Qed.

(** The conflict check of an object of the kind that was expected. *)
Lemma write_conflict_runs block regular status c :
  block = S_ISBLK (st_mode status) -> regular = S_ISREG (st_mode status) ->
  runs (write_conflict block regular status) c (Returned false) -> found_free status c.
Proof.
  intros -> -> H. apply sys_or_runs in H as (c1 & c2 & -> & H1 & H2).
  assert (Hk : S_ISBLK (st_mode status) = true -> S_ISREG (st_mode status) = false).
  { unfold S_ISBLK, S_ISREG. intros E%Z.eqb_eq. by rewrite E. }
  split; intros E.
  - rewrite (Hk E) in H2. rewrite E in H1. apply runs_inv in H2 as [-> _]. rewrite app_nil_r. exact (not_mounted_runs _ _ H1).
  - rewrite E in H2. destruct (S_ISBLK (st_mode status)); [by rewrite Hk in E|]. apply runs_inv in H1 as [-> _]. cbn [app].
    apply sys_or_runs in H2 as (m & c3 & -> & Hm & H2). apply sys_or_runs in H2 as (l & w & -> & Hl & Hw).
    apply mount_source_runs in Hm as [N1 I1]. apply has_loop_mapping_runs in Hl as [N2 I2]. apply active_swap_runs in Hw as [N3 I3].
    split; [by rewrite !never_met_app|].
    split_and!.
    + apply (inspected_more m); [|done]. intros X ev x Hin. apply elem_of_app. by left.
    + apply (inspected_more l); [|done]. intros X ev x Hin. apply elem_of_app. right. apply elem_of_app. by left.
    + apply (inspected_more w); [|done]. intros X ev x Hin. apply elem_of_app. right. apply elem_of_app. by right.
Qed.

Lemma open_flags_safe block writable : safe_flags block writable (open_flags block writable).
Proof. intros flag. unfold open_flags. destruct block, writable; cbn [andb app]; rewrite !elem_of_cons, ?elem_of_nil; intuition congruence. Qed.

Lemma same_object_identical expected opened :
  same_object (S_ISBLK (st_mode expected)) expected opened = true -> identical expected opened.
Proof.
  unfold same_object, identical. rewrite !andb_true_iff, orb_true_iff, negb_true_iff, !Z.eqb_eq.
  intros [[[? ?] ?] Hr]. split_and!; try done. intros E. destruct Hr; [congruence|done].
Qed.

Lemma identical_kind a b : identical a b -> S_ISBLK (st_mode a) = S_ISBLK (st_mode b) /\ S_ISREG (st_mode a) = S_ISREG (st_mode b).
Proof. intros [E _]. unfold S_ISBLK, S_ISREG. by rewrite E. Qed.

Lemma fd_size_measured fd size s : runs (ld_fd_size_bytes fd) s (Returned (Ok size)) -> measured fd size s.
Proof.
  unfold ld_fd_size_bytes. destruct (fd <? 0); intros H; [by apply runs_inv in H as [_ ?]|].
  apply runs_inv in H as (r & t & -> & H). destruct r as [st|]; [|by apply runs_inv in H as [_ ?]]. exists st.
  destruct (S_ISREG (st_mode st)) eqn:Hr.
  - cbn [pbind] in H. rewrite Hr in H. apply runs_inv in H as [-> E]. destruct (Z.ltb_spec (st_size st) 0); [done|].
    injection E as ->. left. by split_and!.
  - cbn [pbind] in H. rewrite Hr in H. destruct (S_ISBLK (st_mode st)) eqn:Hb; cbn [negb] in H; [|by apply runs_inv in H as [_ ?]].
    apply call_runs in H as (x & -> & [= <-]). by right.
Qed.

Lemma close_failing_runs {A} fd e t (o : outcome (result A)) :
  runs (close_failing fd e) t o -> o = Returned (Err e) /\ fds_opened t = [] /\ fds_closed t = [fd].
Proof.
  unfold close_failing. intros H. apply runs_inv in H as (x & t' & -> & H). by apply runs_inv in H as [-> ->].
Qed.

Lemma check_neutral writable block regular st :
  neutral (if writable : bool then write_conflict block regular st else Ret false).
Proof. destruct writable; [apply write_conflict_neutral|exact I]. Qed.

Lemma try_open_runs path writable t o :
  runs (ld_device_try_open (Some path) writable) t o ->
  (exists m, o = Died m) \/
  (exists e, o = Returned (Err e) /\ Permutation (fds_opened t) (fds_closed t)) \/
  (exists device, o = Returned (Ok device) /\ fds_opened t = [dev_fd device] /\ fds_closed t = [] /\
     opened_safely t path writable device).
Proof.
  unfold ld_device_try_open. intros H.
  assert (Herr : forall e, o = Returned (Err e) -> fds_opened t = [] -> fds_closed t = [] ->
    (exists m, o = Died m) \/ (exists e, o = Returned (Err e) /\ Permutation (fds_opened t) (fds_closed t)) \/
    (exists device, o = Returned (Ok device) /\ fds_opened t = [dev_fd device] /\ fds_closed t = [] /\
     opened_safely t path writable device)).
  { intros e -> H1 H2. right. left. exists e. by rewrite H1, H2. }
  apply runs_inv in H as (r & t1 & -> & H). destruct r as [resolved|e]; cbn [pbind] in H;
    [|apply runs_inv in H as [-> ->]; by eapply Herr].
  apply runs_inv in H as (r & t2 & -> & H). destruct r as [expected|e]; cbn [pbind] in H;
    [|apply runs_inv in H as [-> ->]; by eapply Herr]. cbv zeta in H.
  set (block := S_ISBLK (st_mode expected)) in *. set (regular := S_ISREG (st_mode expected)) in *.
  destruct (negb block && negb regular) eqn:Hk; [apply runs_inv in H as [-> ->]; by eapply Herr|].
  apply pbind_runs in H as [(m & _ & ->)|(busy & c1 & t3 & -> & Hc1 & H)]; [left; eauto|].
  destruct (neutral_runs _ _ _ (check_neutral _ _ _ _) Hc1) as [O1 C1].
  destruct busy.
  { apply runs_inv in H as [-> ->]. eapply Herr; [done|..]; rewrite app_nil_r; [exact O1|exact C1]. }
  apply runs_inv in H as (r & t4 & -> & H). destruct r as [fd|e]; cbn [pbind] in H.
  2: { apply runs_inv in H as [-> ->].
       eapply Herr; [done|..]; [change (fds_opened (c1 ++ [Event (Open resolved (open_flags block writable)) (Err e)]) = [])
         |change (fds_closed (c1 ++ [Event (Open resolved (open_flags block writable)) (Err e)]) = [])];
         rewrite ?fds_opened_app, ?fds_closed_app, ?O1, ?C1; done. }
  clear Herr. apply runs_inv in H as (f & t5 & -> & H). cbn [pbind] in H.
  set (pre := [Event (Realpath path) (Ok resolved); Event (Stat resolved) (Ok expected)] ++ c1 ++
    [Event (Open resolved (open_flags block writable)) (Ok fd); Event (Fstat fd) f]).
  assert (Ht : Event (Realpath path) (Ok resolved) :: Event (Stat resolved) (Ok expected) ::
    c1 ++ Event (Open resolved (open_flags block writable)) (Ok fd) :: Event (Fstat fd) f :: t5 = pre ++ t5)
    by (unfold pre; simpl; by rewrite <- app_assoc).
  rewrite Ht.
  assert (Op : fds_opened pre = [fd] /\ fds_closed pre = [])
    by (unfold pre; rewrite !fds_opened_app, !fds_closed_app, O1, C1; done).
  destruct Op as [Op Cp].
  assert (Hclose : forall e tt tc, neutral_trace tc -> runs (close_failing fd e) tt o -> t5 = tc ++ tt ->
    exists e, o = Returned (Err e) /\ Permutation (fds_opened (pre ++ t5)) (fds_closed (pre ++ t5))).
  { intros e tt tc [N1 N2] Hr ->. apply close_failing_runs in Hr as (-> & E1 & E2). exists e.
    by rewrite !fds_opened_app, !fds_closed_app, Op, Cp, N1, N2, E1, E2. }
  destruct f as [opened|e]; [|right; left; by eapply (Hclose e t5 [])].
  destruct (same_object block expected opened) eqn:Hsame; simpl negb in H; cbv iota in H;
    [|right; left; by eapply (Hclose ESTALE t5 [])].
  apply pbind_runs in H as [(m & _ & ->)|(busy & c2 & t6 & -> & Hc2 & H)]; [left; eauto|].
  pose proof (neutral_runs _ _ _ (check_neutral _ _ _ _) Hc2) as N2.
  destruct busy; [right; left; by eapply (Hclose EBUSY t6 c2)|].
  apply pbind_runs in H as [(m & _ & ->)|(s & t7 & t8 & -> & Hs & H)]; [left; eauto|].
  pose proof (neutral_runs _ _ _ (fd_size_neutral _) Hs) as N3.
  destruct s as [size|e].
  2: { right. left. eapply (Hclose e t8 (c2 ++ t7)); [|done|by rewrite app_assoc].
       destruct N2 as [E1 E2], N3 as [E3 E4].
       split; [by rewrite fds_opened_app, E1, E3|by rewrite fds_closed_app, E2, E4]. }
  apply runs_inv in H as [-> ->]. right. right. eexists. split; [done|]. cbn [dev_fd].
  rewrite app_nil_r. destruct N2 as [N2 N2'], N3 as [N3 N3'].
  rewrite !fds_opened_app, !fds_closed_app, Op, Cp, N2, N2', N3, N3'. split; [done|]. split; [done|].
  apply same_object_identical in Hsame. destruct (identical_kind _ _ Hsame) as [Kb Kr].
  exists resolved, expected, opened, (open_flags block writable), c1, c2, t7. cbv zeta. fold block. cbn [dev_fd dev_size_bytes].
  split_and!; try done.
  - unfold pre. rewrite <- !app_assoc. done.
  - unfold block, regular in Hk. destruct (S_ISBLK _); [by left|right]. by destruct (S_ISREG _).
  - apply open_flags_safe.
  - intros ->. split; [by apply (write_conflict_runs block regular)|by apply (write_conflict_runs block regular)].
  - by apply fd_size_measured.
Qed.

(** ** Lemmas: identities *)

Lemma sysfs_text_neutral sysfs suffix size : neutral (ld_sysfs_text sysfs suffix size).
Proof. unfold ld_sysfs_text. calls. Qed.

Lemma mmc_identity_neutral sysfs capacity : neutral (ld_mmc_identity_from_sysfs sysfs capacity).
Proof.
  pose proof sysfs_text_neutral as Ht.
  unfold ld_mmc_identity_from_sysfs, ld_mmc_cid_from_sysfs, ld_sysfs_is_partition,
    ld_sysfs_size_bytes, read_start. calls.
Qed.

Lemma hardware_identity_neutral device size : neutral (ld_stable_block_hardware_identity device size).
Proof.
  pose proof sysfs_text_neutral as Ht. pose proof mmc_identity_neutral as Hm.
  unfold ld_stable_block_hardware_identity, ld_resolve_sysfs_device, ld_read_udev_properties,
    ld_sysfs_size_bytes, read_start. calls.
Qed.

Lemma alias_neutral device size : neutral (ld_stable_block_alias device size).
Proof.
  assert (He : forall root names best, neutral (alias_entries device root names best)).
  { intros root names. induction names; intros best; cbn [alias_entries]; calls. }
  assert (Hr : forall roots, neutral (alias_roots device roots))
    by (intros roots; induction roots; cbn [alias_roots]; calls).
  unfold ld_stable_block_alias. calls.
Qed.

Lemma format_identity_neutral device size : neutral (ld_device_format_identity device size).
Proof.
  pose proof hardware_identity_neutral as Hh. pose proof alias_neutral as Ha.
  unfold ld_device_format_identity. calls.
Qed.

Lemma matches_identity_neutral device expected size :
  neutral (ld_device_matches_identity device expected size).
Proof.
  pose proof format_identity_neutral as Hf. pose proof fd_size_neutral as Hs.
  pose proof mmc_identity_neutral as Hm.
  unfold ld_device_matches_identity, identity_equals, mmc_still_matches, ld_resolve_sysfs_device. calls.
Qed.

Lemma device_close_runs device t o :
  runs (ld_device_close device) t o -> exists d, o = Returned d /\ fds_opened t = [] /\
  fds_closed t = if 0 <=? dev_fd device then [dev_fd device] else [].
Proof.
  unfold ld_device_close. cbv zeta. destruct (0 <=? dev_fd device); intros H.
  - apply runs_inv in H as (r & t1 & -> & H). cbn [pbind] in H. destruct r.
    + apply runs_inv in H as [-> ->]. eauto.
    + apply runs_inv in H as (x & t2 & -> & H). apply runs_inv in H as [-> ->]. eauto.
  - apply runs_inv in H as [-> ->]. eauto.
Qed.

(** A bound open: the safe open, the identity accepted, and the descriptor. *)
Lemma open_verified_runs path writable expected size t o :
  (forall fd, In fd (fds_opened t) -> 0 <= fd) ->
  runs (ld_device_open_verified_fd (Some path) writable expected size) t o ->
  (exists m, o = Died m) \/
  (exists e, o = Returned (Err e) /\ Permutation (fds_opened t) (fds_closed t)) \/
  (exists device t1 t2, o = Returned (Ok (dev_fd device)) /\ t = t1 ++ t2 /\
     fds_opened t = [dev_fd device] /\ fds_closed t = [] /\ opened_safely t1 path writable device /\
     (is_null expected = false ->
      runs (ld_device_matches_identity device expected size) t2 (Returned true))).
Proof.
  unfold ld_device_open_verified_fd. intros Hfd H.
  apply rbind_runs in H as [(m & H & ->)|[(e & H & ->)|(device & t1 & t2 & -> & H1 & H)]]; [left; eauto|..].
  { apply try_open_runs in H as [(m & ?)|[(e' & [= <-] & HP)|(d & ? & _)]]; [done| |done].
    right. left. eauto. }
  apply try_open_runs in H1 as [(m & ?)|[(e' & ? & _)|(d & [= <-] & Ho & Hc & Hsafe)]]; [done..|].
  rewrite fds_opened_app in Hfd. 
  apply pbind_runs in H as [(m & _ & ->)|(bound & t3 & t4 & -> & H2 & H)]; [left; eauto|].
  assert (neutral_trace t3) as [N1 N2].
  { eapply neutral_runs; [|exact H2]. destruct (is_null expected); [exact I|apply matches_identity_neutral]. }
  destruct bound.
  - apply runs_inv in H as [-> ->]. right. right. exists device, t1, (t3 ++ []).
    rewrite !fds_opened_app, !fds_closed_app, Ho, Hc, N1, N2, app_nil_r. split_and!; try done.
    intros Hn. by rewrite Hn in H2.
  - apply pbind_runs in H as [(m & H & ->)|(d & t5 & t6 & -> & H3 & H)].
    { left. eauto. }
    apply device_close_runs in H3 as (d' & [= <-] & O & C). apply runs_inv in H as [-> ->].
    right. left. exists ESTALE. split; [done|].
    rewrite !fds_opened_app, !fds_closed_app, Ho, Hc, N1, N2, O, C.
    rewrite (proj2 (Z.leb_le 0 (dev_fd device))); [done|]. apply Hfd. rewrite Ho. simpl. auto.
Qed.

Lemma utoa_sep_inj c a b x y :
  isdigit c = false -> 0 <= a -> 0 <= b ->
  (utoa a ++ String c x = utoa b ++ String c y)%string -> a = b /\ x = y.
Proof.
  intros Hc Ha Hb E. apply (f_equal (split_char c)) in E.
  rewrite !split_char_app in E by (by apply utoa_no_char). injection E as E1 E2.
  split; [by apply utoa_inj|done].
Qed.

Lemma file_identity_inj a b a' b' :
  0 <= a -> 0 <= b -> 0 <= a' -> 0 <= b' ->
  file_identity_text a b = file_identity_text a' b' -> a = a' /\ b = b'.
Proof.
  unfold file_identity_text. intros Ha Hb Ha' Hb' E. apply append_inj_l in E.
  apply utoa_sep_inj in E as [-> E]; [|done..]. split; [done|]. by apply utoa_inj.
Qed.

(** Hardware identities start with [block-hw:]. *)
Lemma hardware_identity_prefix device size t text :
  runs (ld_stable_block_hardware_identity device size) t (Returned (Some text)) ->
  String.prefix "block" text = true.
Proof.
  intros H.
  assert (Hp : returns (fun r => forall text, r = Some text -> String.prefix "block" text = true)
    (ld_stable_block_hardware_identity device size)).
  { unfold ld_stable_block_hardware_identity, ld_mmc_identity_from_sysfs.
    repeat (cbv zeta; returns_step); intros x E; try destruct (fits _ _);
      (discriminate || injection E as <-); done. }
  exact (returns_runs _ _ _ _ Hp H text eq_refl).
Qed.

(** A block identity starts with [block]. *)
Lemma block_identity_prefix device size t text :
  dev_is_block device = true ->
  runs (ld_device_format_identity device size) t (Returned (Ok text)) ->
  String.prefix "block" text = true.
Proof.
  intros Hb. unfold ld_device_format_identity. rewrite Hb.
  destruct (_ || _); intros H; [by apply runs_inv in H as [_ ?]|].
  apply pbind_runs in H as [(m & _ & ?)|(s & t1 & t2 & -> & H1 & H)]; [done|].
  apply runs_inv in H as [_ E]. destruct (fits s size); [|done]. injection E as <-.
  apply pbind_runs in H1 as [(m & _ & ?)|(h & t3 & t4 & _ & Hh & H1)]; [done|].
  destruct h as [stable|].
  - apply runs_inv in H1 as [_ [= ->]]. by eapply hardware_identity_prefix.
  - apply pbind_runs in H1 as [(m & _ & ?)|(a & t5 & t6 & _ & _ & H1)]; [done|].
    apply runs_inv in H1 as [_ [= ->]]. by destruct a.
Qed.
End DeviceLemmas.

(** ** A host for the witnesses *)

(** The image [/img] (device 7, inode 42, 4096 bytes), not mounted, no loop
    device and no swap; descriptors are 5. *)
Definition image_stat : stat := mkStat 33188 7 42 0 4096 0 1.

Definition image_host (X : Type) (e : sysE X) (s : unit) : X * unit :=
  (match e in sysE X return X with
   | Realpath _ => Ok "/img"
   | Stat _ => Ok image_stat
   | Fstat _ => Ok image_stat
   | Open _ _ => Ok 5
   | ReadDir _ => Ok (["."; ".."], Enone)
   | ReadLines p => if String.eqb p "/proc/swaps" then Ok (["Filename"], Enone) else Ok ([], Enone)
   | Close _ => Ok tt
   | e => sys_default e
   end, s).

Definition demo_open :=
  execute image_host (ld_device_try_open (common := infiltratr_reference) (Some "/img") true) tt.
Definition demo_bound :=
  execute image_host (ld_device_open_verified_fd (common := infiltratr_reference) (Some "/img") true
    (Some (file_identity_text 7 42)) 4096) tt.

(** ** Properties *)

Section DeviceProperties.
Context {common : Infiltratr} {L : InfiltratrLaws common}.

(** C8: The opener never hands out an object it did not inspect: a successful
    open resolved the path, inspected a block device or regular file, opened
    exactly that resolved path with exactly the flags of a safe open (no link is
    followed, a writable block device is exclusive), found behind the descriptor an
    object of the same kind, device and inode, and measured it; and for a writable
    open it is free both before the open and again once open: for a block device
    neither a mount nor a swap is on a device related to it, for a regular file no
    mount source, no file behind a loop device and no swap file, all of which were
    looked at, is that file. *)
Theorem device_open_is_safe path writable t device :
  runs (ld_device_try_open (Some path) writable) t (Returned (Ok device)) ->
  opened_safely t path writable device.
Proof.
  intros H. apply try_open_runs in H as [(m & ?)|[(e & ? & _)|(d & [= <-] & _ & _ & Hs)]]; done.
Qed.

(** The verified opener owns exactly the descriptor it returns: an open that
    fails, also one that fails the identity check, has closed everything it
    opened, and an open that succeeds has opened one descriptor, left it open
    and returned it. *)
Theorem verified_open_owns_descriptor path writable expected size t r :
  (forall fd, In fd (fds_opened t) -> 0 <= fd) ->
  runs (ld_device_open_verified_fd (Some path) writable expected size) t (Returned r) ->
  match r with
  | Ok fd => fds_opened t = [fd] /\ fds_closed t = []
  | Err _ => Permutation (fds_opened t) (fds_closed t)
  end.
Proof.
  intros Hfd H. apply open_verified_runs in H as [(m & ?)|[(e & [= ->] & HP)|
    (d & t1 & t2 & [= ->] & _ & H1 & H2 & _)]]; done.
Qed.

(** A recorded image is recognised: when a transaction recorded a regular
    file's identity, the verified opener returns a descriptor only for a regular
    file with exactly that host device and inode, safely opened, and of the
    recorded size when one was recorded; a block device never passes for it. *)
Theorem verified_fd_is_recorded_file path writable host_device inode size t fd :
  0 <= host_device -> 0 <= inode ->
  (forall fd, In fd (fds_opened t) -> 0 <= fd) ->
  (forall fd st, Event (Fstat fd) (Ok st) ∈ t -> 0 <= st_dev st /\ 0 <= st_ino st) ->
  runs (ld_device_open_verified_fd (Some path) writable
          (Some (file_identity_text host_device inode)) size) t (Returned (Ok fd)) ->
  exists device t1 t2, t = t1 ++ t2 /\ opened_safely t1 path writable device /\
    dev_fd device = fd /\ dev_is_block device = false /\
    dev_host_device device = host_device /\ dev_inode device = inode /\
    (size <> 0 -> dev_size_bytes device = size).
Proof.
  intros Hd Hi Hfd Hst H.
  apply open_verified_runs in H as [(m & ?)|[(e & ? & _)|(d & t1 & t2 & [= ->] & -> & _ & _ & Hs & Hm)]];
    [done|done| |done].
  specialize (Hm eq_refl). exists d, t1, t2. split; [done|]. split; [done|]. split; [done|].
  unfold ld_device_matches_identity in Hm.
  destruct (dev_fd d <? 0); [by apply runs_inv in Hm as [_ ?]|].
  destruct (negb (size =? 0) && negb (dev_size_bytes d =? size)) eqn:Hsz; [by apply runs_inv in Hm as [_ ?]|].
  unfold ld_legacy_block_identity_matches in Hm. rewrite !starts_with_spec in Hm.
  change (String.prefix "block:" (file_identity_text host_device inode)) with false in Hm.
  change (String.prefix "block-hw:mmc-cid:" (file_identity_text host_device inode)) with false in Hm.
  rewrite andb_false_l, !andb_false_r in Hm. cbv iota in Hm.
  unfold identity_equals in Hm.
  apply pbind_runs in Hm as [(m & _ & ?)|(r & t3 & t4 & _ & H3 & Hm)]; [done|].
  apply runs_inv in Hm as [_ [= Hm]]. destruct r as [text|]; [|done]. symmetry in Hm.
  apply String.eqb_eq in Hm as ->.
  assert (Hb : dev_is_block d = false).
  { destruct (dev_is_block d) eqn:Hb; [|done].
    by pose proof (block_identity_prefix _ _ _ _ Hb H3). }
  split; [done|].
  assert (Hnn : 0 <= dev_host_device d /\ 0 <= dev_inode d).
  { destruct Hs as (resolved & expected & opened & flags & c1 & c2 & s & Ht & _ & _ & _ & _ & _ & ->). cbn.
    apply (Hst (dev_fd d)). rewrite Ht. apply elem_of_app. left. do 2 right. apply elem_of_app. right.
    right. left. }
  unfold ld_device_format_identity in H3. rewrite Hb in H3.
  destruct (_ || _); [by apply runs_inv in H3 as [_ ?]|]. simpl in H3. apply runs_inv in H3 as [_ E].
  destruct (fits _ _); [|done].
  assert (E' : file_identity_text (dev_host_device d) (dev_inode d) =
    file_identity_text host_device inode) by congruence.
  apply file_identity_inj in E' as [E1 E2]; [|lia..]. split; [exact E1|]. split; [exact E2|]. intros Hn. apply andb_false_iff in Hsz as [Hz|Hz]; breflect; done.
Qed.
End DeviceProperties.

Lemma device_open_is_safe_witness :
  exists t device, opened_safely (common := infiltratr_reference) t "/img" true device.
Proof.
  pose proof (execute_runs image_host
    (ld_device_try_open (common := infiltratr_reference) (Some "/img") true) tt) as Hr.
  exists (snd demo_open), (mkDevice 5 (Some "/img") true false 4096 0 7 42).
  apply device_open_is_safe.
  replace (Returned _) with (fst demo_open) by (vm_compute; reflexivity). exact Hr.
Defined.

Lemma verified_open_owns_descriptor_witness :
  fds_opened (snd demo_bound) = [5] /\ fds_closed (snd demo_bound) = [].
Proof.
  pose proof (execute_runs image_host
    (ld_device_open_verified_fd (common := infiltratr_reference) (Some "/img") true
      (Some (file_identity_text 7 42)) 4096) tt) as Hr.
  apply (verified_open_owns_descriptor (common := infiltratr_reference) "/img" true
    (Some (file_identity_text 7 42)) 4096 (snd demo_bound) (Ok 5)).
  - intros fd. replace (fds_opened (snd demo_bound)) with [5] by (vm_compute; reflexivity).
    intros [<-|[]]. lia.
  - replace (Returned (Ok 5)) with (fst demo_bound) by (vm_compute; reflexivity). exact Hr.
Defined.

Lemma verified_fd_is_recorded_file_witness :
  exists device t1 t2, snd demo_bound = t1 ++ t2 /\
    opened_safely (common := infiltratr_reference) t1 "/img" true device /\
    dev_fd device = 5 /\ dev_is_block device = false /\
    dev_host_device device = 7 /\ dev_inode device = 42 /\
    (4096 <> 0 -> dev_size_bytes device = 4096).
Proof.
  pose proof (execute_runs image_host
    (ld_device_open_verified_fd (common := infiltratr_reference) (Some "/img") true
      (Some (file_identity_text 7 42)) 4096) tt) as Hr.
  apply (verified_fd_is_recorded_file (L := infiltratr_reference_laws) "/img" true 7 42 4096
    (snd demo_bound) 5); [lia|lia| | |].
  - intros fd. replace (fds_opened (snd demo_bound)) with [5] by (vm_compute; reflexivity).
    intros [<-|[]]. lia.
  - intros fd st Hin.
    assert (Hall : Forall (fun ev : event sysE => match ev with Event e x =>
      match e in sysE X return X -> Prop with
      | Fstat _ => fun x => match x with Ok st => 0 <= st_dev st /\ 0 <= st_ino st | Err _ => True end
      | _ => fun _ => True end x end) (snd demo_bound)).
    { vm_compute. repeat constructor; discriminate. }
    rewrite Forall_forall in Hall. apply list_elem_of_In in Hin. exact (Hall _ Hin).
  - replace (Returned (Ok 5)) with (fst demo_bound) by (vm_compute; reflexivity). exact Hr.
Defined.
