(* ===== verification/TestMediaCore.v ===== *)
(** Test Media catalogue of [src/defragger/test_media/test_media_core.c]: the
    21 slots, the fragmentation corpus, the partition script and the preflight
    of the filesystem modules. *)
From S2P Require Import Prelude Effects CString Infiltratr Sys.

(** ** Catalogue *)

Inductive LdtmCreator :=
| LDTM_CREATOR_FAT12
| LDTM_CREATOR_FAT16
| LDTM_CREATOR_FAT32
| LDTM_CREATOR_EXFAT
| LDTM_CREATOR_NTFS
| LDTM_CREATOR_EXT2
| LDTM_CREATOR_EXT3
| LDTM_CREATOR_EXT4
| LDTM_CREATOR_XFS
| LDTM_CREATOR_BTRFS
| LDTM_CREATOR_AFFS
| LDTM_CREATOR_PFS3
| LDTM_CREATOR_HFS
| LDTM_CREATOR_HFSPLUS
| LDTM_CREATOR_MINIX
| LDTM_CREATOR_UFS
| LDTM_CREATOR_ZFS
| LDTM_CREATOR_APFS
| LDTM_CREATOR_MANUAL
| LDTM_CREATOR_SWAP.

#[export] Instance LdtmCreator_eq_dec : EqDecision LdtmCreator.
Proof. solve_decision. Defined.

Record LdtmFilesystemSpec := mkSpec {
  key : string;
  label : string;
  size_mib : Z;
  payload_mib : Z;
  creator : LdtmCreator;
  note : string;
}.

#[export] Instance LdtmFilesystemSpec_eq_dec : EqDecision LdtmFilesystemSpec.
Proof. solve_decision. Defined.

Definition LDTM_MIB : Z := 1048576.
Definition LDTM_GIB : Z := 1073741824.
Definition LDTM_SPEC_COUNT : nat := 21.
Definition LDTM_TARGET_FILE_COUNT : nat := 8.

Definition LDTM_SPECS : list LdtmFilesystemSpec :=
  [mkSpec "fat12" "LD_FAT12" 255 200 LDTM_CREATOR_FAT12
     "First-party FAT12 fixture uses 64 KiB clusters below the 4085-cluster FAT16 threshold and retains the full 200 MiB corpus plus boundary files.";
   mkSpec "fat16" "LD_FAT16" 2048 200 LDTM_CREATOR_FAT16
     "";
   mkSpec "fat32" "LD_FAT32" 2048 200 LDTM_CREATOR_FAT32
     "";
   mkSpec "exfat" "LD_EXFAT" 2048 200 LDTM_CREATOR_EXFAT
     "";
   mkSpec "ntfs" "LD_NTFS" 2048 200 LDTM_CREATOR_NTFS
     "";
   mkSpec "ext2" "LD_EXT2" 2048 200 LDTM_CREATOR_EXT2
     "";
   mkSpec "ext3" "LD_EXT3" 2048 200 LDTM_CREATOR_EXT3
     "";
   mkSpec "ext4" "LD_EXT4" 2048 200 LDTM_CREATOR_EXT4
     "";
   mkSpec "xfs" "LD_XFS" 2048 200 LDTM_CREATOR_XFS
     "";
   mkSpec "btrfs" "LD_BTRFS" 2048 200 LDTM_CREATOR_BTRFS
     "";
   mkSpec "ofs" "LD_OFS" 2048 200 LDTM_CREATOR_AFFS
     "Amiga Original File System DOS\0; installed OFS driver uses the full 2 GiB qualification cap.";
   mkSpec "ffs" "LD_FFS" 2048 200 LDTM_CREATOR_AFFS
     "Amiga Fast File System DOS\1; first-party raw C creator uses the full 2 GiB qualification cap.";
   mkSpec "sfs" "LD_SFS" 2048 200 LDTM_CREATOR_AFFS
     "Amiga Smart File System SFS0 v3; first-party raw C creator uses the standard 200 MiB heterogeneous fragmented corpus.";
   mkSpec "pfs3" "LD_PFS3" 2048 200 LDTM_CREATOR_PFS3
     "Amiga Professional File System 3; first-party raw C creator uses the standard 200 MiB heterogeneous fragmented corpus in the qualified small-disk subset.";
   mkSpec "hfs" "LD_HFS" 2048 200 LDTM_CREATOR_HFS
     "";
   mkSpec "hfsplus" "LD_HFSPLUS" 2048 200 LDTM_CREATOR_HFSPLUS
     "";
   mkSpec "minix" "LD_MINIX" 2048 200 LDTM_CREATOR_MINIX
     "";
   mkSpec "ufs" "LD_UFS" 2048 200 LDTM_CREATOR_UFS
     "Built-in first-party bounded UFS2/FFS creator writes the qualification image directly and requires exact allocation/fragmentation analysis before native mutation testing.";
   mkSpec "zfs" "LD_ZFS" 2048 200 LDTM_CREATOR_ZFS
     "First-party raw C creator writes a bounded legacy-version-28 single-disk ZFS fixture with Fletcher-4 block checksums; the native exact analyser verifies allocation and fragmentation. Analysis-only by design.";
   mkSpec "apfs" "LD_APFS" 2048 200 LDTM_CREATOR_APFS
     "Built-in first-party raw C creator manufactures a 2 GiB qualified bounded APFS checkpoint/spaceman/flat-tree fixture with the standard 200 MiB heterogeneous fragmented corpus.";
   mkSpec "swap" "LD_SWAP" 2048 0 LDTM_CREATOR_SWAP
     "Swap contains no files."].

Definition ldtm_specs : list LdtmFilesystemSpec := LDTM_SPECS.
Definition ldtm_spec_count : nat := LDTM_SPEC_COUNT.

(** The index and the spec found, the key pointer possibly NULL. *)
Fixpoint find_spec_from (k : string) (index : nat) (specs : list LdtmFilesystemSpec) :
    option (nat * LdtmFilesystemSpec) :=
  match specs with
  | [] => None
  | s :: rest => if String.eqb (key s) k then Some (index, s)
                 else find_spec_from k (S index) rest
  end.

Definition ldtm_find_spec (k : option string) : option (nat * LdtmFilesystemSpec) :=
  match k with None => None | Some k => find_spec_from k 0 LDTM_SPECS end.

Definition ldtm_allocated_capacity_bytes : Z :=
  fold_left (fun total s => total +64 (size_mib s *64 LDTM_MIB)) LDTM_SPECS 0.

Definition ldtm_required_capacity_bytes : Z :=
  ldtm_allocated_capacity_bytes +64 LDTM_GIB.

(** ** The fragmentation corpus *)

Record LdtmFragmentProfile := mkProfile {
  files : Z;
  chunks : Z;
  chunk_kib : Z;
  directory_initial : Z;
  directory_second : Z;
  file_chunks : list Z;
}.

Definition ldtm_fragment_profile (spec : option LdtmFilesystemSpec) : LdtmFragmentProfile :=
  let profile := mkProfile (Z.of_nat LDTM_TARGET_FILE_COUNT) 30 2048 0 0
                   [2; 3; 5; 8; 13; 17; 22; 30] in
  match spec with
  | Some s =>
      if String.eqb (key s) "ofs" || String.eqb (key s) "ffs"
      then mkProfile (files profile) (chunks profile) (chunk_kib profile) 4096 4096
             (file_chunks profile)
      else profile
  | None => profile
  end.

Definition ldtm_profile_file_chunks (profile : option LdtmFragmentProfile)
    (file_index : nat) : Z :=
  match profile with
  | None => 0
  | Some p =>
      if (files p <=? Z.of_nat file_index) ||
         Nat.leb LDTM_TARGET_FILE_COUNT file_index
      then 0
      else let c := nth file_index (file_chunks p) 0 in
           if negb (c =? 0) then c else chunks p
  end.

Definition ldtm_profile_file_bytes (profile : LdtmFragmentProfile) (file_index : nat) : Z :=
  ldtm_profile_file_chunks (Some profile) file_index *64 chunk_kib profile *64 1024.

Definition ldtm_profile_payload_bytes (profile : option LdtmFragmentProfile) : Z :=
  match profile with
  | None => 0
  | Some p =>
      fold_left (fun total file => total +64 ldtm_profile_file_bytes p file)
        (List.seq 0 (Z.to_nat (files p))) 0
  end.

Definition ldtm_target_payload_bytes (spec : option LdtmFilesystemSpec) : Z :=
  match spec with
  | None => 0
  | Some s => if payload_mib s =? 0 then 0
              else ldtm_profile_payload_bytes (Some (ldtm_fragment_profile (Some s)))
  end.

(** ** The partition script *)

(** [appendf]: the buffer is the text so far; [None] for -1. *)
Definition appendf (capacity : Z) (buffer text : string) : option string :=
  let used := strlen buffer in
  if capacity <=? used then None
  else if capacity - used <=? strlen text then None
  else Some (buffer ++ text)%string.

Definition partition_line (s : LdtmFilesystemSpec) : string :=
  let type := if decide (creator s = LDTM_CREATOR_SWAP) then "swap" else "linux" in
  ("size=" ++ utoa (size_mib s) ++ "MiB, type=" ++ type ++ ", name=" ++
   String QUOTE (label s ++ String QUOTE (String LF "")))%string.

Fixpoint append_partitions (capacity : Z) (buffer : string)
    (specs : list LdtmFilesystemSpec) : option string :=
  match specs with
  | [] => Some buffer
  | s :: rest =>
      match appendf capacity buffer (partition_line s) with
      | None => None
      | Some buffer => append_partitions capacity buffer rest
      end
  end.

Definition script_header : string := ("label: gpt" ++ String LF (String LF ""))%string.

(** [ldtm_build_sfdisk_script]: the text in the buffer, or [None] for -1. *)
Definition ldtm_build_sfdisk_script (buffer_null : bool) (capacity : Z) : option string :=
  if buffer_null || (capacity =? 0) then None
  else match appendf capacity "" script_header with
       | None => None
       | Some buffer => append_partitions capacity buffer LDTM_SPECS
       end.

(** ** Small policies *)

Definition ldtm_transport_is_field_media (removable : bool) (transport : string) : bool := true.

Definition ldtm_canonicalize_device (input : string) (output_capacity : Z) : sys (result string) :=
  call (RealpathCopy input output_capacity).

Definition ldtm_creator_program (spec : option LdtmFilesystemSpec) : option string :=
  match spec with
  | None => None
  | Some s =>
      if decide (creator s = LDTM_CREATOR_UFS) then Some "makefs"
      else if decide (creator s = LDTM_CREATOR_AFFS) then
        if String.eqb (key s) "ofs"
        then Some "/System/Commands/Defragmenter/test-media-mkfs-ofs"
        else if String.eqb (key s) "ffs"
        then Some "/System/Commands/Defragmenter/test-media-mkfs-ffs"
        else None
      else None
  end.

Definition ldtm_creator_display_name (spec : option LdtmFilesystemSpec) : string :=
  match spec with
  | None => "Unavailable"
  | Some s => if decide (creator s = LDTM_CREATOR_MANUAL) then "Manual" else "Filesystem driver"
  end.

Section Programs.
Context `{Infiltratr}.

Definition ldtm_decode_hex_byte (high low : ascii) : option Z :=
  match infiltratr_parse_u64 (String high (String low "")) 16 with
  | Some parsed => if 255 <? parsed then None else Some parsed
  | None => None
  end.

(** The resolved program path, [None] for -1. *)
Definition copy_resolved_program (program : string) (output_capacity : Z) :
    sys (option string) :=
  let* r := call (Realpath program) in
  match r with
  | Err _ => Ret None
  | Ok resolved =>
      let* a := call (Access resolved) in
      match a with
      | Err _ => Ret None
      | Ok _ => Ret (if output_capacity <? strlen resolved + 1 then None else Some resolved)
      end
  end.

Fixpoint search_directories (program : string) (output_capacity : Z)
    (directories : list string) : sys (option string) :=
  match directories with
  | [] => Ret None
  | d :: rest =>
      let candidate := (d ++ "/" ++ program)%string in
      if negb (fits candidate PATH_MAX) then search_directories program output_capacity rest
      else
        let* a := call (Access candidate) in
        match a with
        | Err _ => search_directories program output_capacity rest
        | Ok _ =>
            let* r := copy_resolved_program candidate output_capacity in
            match r with
            | Some p => Ret (Some p)
            | None => search_directories program output_capacity rest
            end
        end
  end.

Definition program_directories : list string :=
  ["/usr/sbin"; "/usr/bin"; "/sbin"; "/bin"; "/usr/local/sbin"; "/usr/local/bin"].

Definition ldtm_resolve_program (program : option string) (output_capacity : Z) :
    sys (option string) :=
  match program with
  | None => Ret None
  | Some program =>
      if is_empty program || (output_capacity =? 0) then Ret None
      else if String.eqb program "makefs"
      then copy_resolved_program "/System/Commands/Defragmenter/test-media-mkfs-ufs"
             output_capacity
      else if has_char "/" program then
        if negb (bool_decide (head_char program = "/"%char)) then Ret None
        else copy_resolved_program program output_capacity
      else search_directories program output_capacity program_directories
  end.

Definition ldtm_program_available (program : string) : sys bool :=
  let* r := ldtm_resolve_program (Some program) PATH_MAX in
  Ret (match r with Some _ => true | None => false end).
End Programs.

(** ** Module preflight *)

(** The availability probes of the [test_media_*_module.c] files, each a
    read-only query of one trusted shared object. *)
Inductive module_query :=
| ldtm_fat_module_available (spec : LdtmFilesystemSpec)
| ldtm_ext_module_available (spec : LdtmFilesystemSpec)
| ldtm_minix_module_available (spec : LdtmFilesystemSpec)
| ldtm_btrfs_module_available (spec : LdtmFilesystemSpec)
| ldtm_hfs_module_available (spec : LdtmFilesystemSpec)
| ldtm_hfsplus_module_available (spec : LdtmFilesystemSpec)
| ldtm_xfs_module_available (spec : LdtmFilesystemSpec)
| ldtm_ntfs_module_available (spec : LdtmFilesystemSpec)
| ldtm_swap_module_available (spec : LdtmFilesystemSpec)
| ldtm_zfs_module_available (spec : LdtmFilesystemSpec)
| ldtm_sfs_module_available
| ldtm_ofs_module_available
| ldtm_ffs_module_available
| ldtm_pfs3_module_available
| ldtm_apfs_module_available
| makefs_available
| ldtm_ufs2_module_available.

(** One branch of the preflight: a slot with a module asks its probes (UFS the
    package-owned creator first, then UFS2.so) and reports one of two texts; a
    slot without one is refused with a text. *)
Inductive creator_case :=
| Probe (qs : list module_query) (ready missing : string)
| Refused (text : string).

Definition creator_preflight (s : LdtmFilesystemSpec) : creator_case :=
  match creator s with
  | LDTM_CREATOR_FAT12 | LDTM_CREATOR_FAT16 | LDTM_CREATOR_FAT32 =>
      Probe [ldtm_fat_module_available s]
        (key s ++ " driver is ready to create and populate test media.")
        ("Install or update the " ++ key s ++
         " filesystem driver before creating test media.")
  | LDTM_CREATOR_EXFAT =>
      Probe [ldtm_fat_module_available s]
        "exFAT.so V5 is ready to create and verify temporary media."
        "Install or update the exFAT.so V5 filesystem driver."
  | LDTM_CREATOR_EXT2 | LDTM_CREATOR_EXT3 | LDTM_CREATOR_EXT4 =>
      Probe [ldtm_ext_module_available s]
        "EXT.so driver is ready to create and verify disposable test media."
        "Install or update the matching EXT2.so, EXT3.so or EXT4.so driver."
  | LDTM_CREATOR_MINIX =>
      Probe [ldtm_minix_module_available s]
        "MINIX.so is ready to format and verify test media."
        "Install or update MINIX.so."
  | LDTM_CREATOR_BTRFS =>
      Probe [ldtm_btrfs_module_available s]
        "BTRFS.so is ready to format and verify test media."
        "Install or update BTRFS.so."
  | LDTM_CREATOR_HFS =>
      Probe [ldtm_hfs_module_available s]
        "HFS.so is ready to format and verify test media."
        "Install or update the HFS.so filesystem driver."
  | LDTM_CREATOR_HFSPLUS =>
      Probe [ldtm_hfsplus_module_available s]
        "HFSPLUS.so is ready to format and verify test media."
        "Install or update the HFSPLUS.so filesystem driver."
  | LDTM_CREATOR_XFS =>
      Probe [ldtm_xfs_module_available s]
        "XFS.so is ready to create and verify disposable test media."
        "Install or update XFS.so before preparing Test Media."
  | LDTM_CREATOR_NTFS =>
      Probe [ldtm_ntfs_module_available s]
        "NTFS.so is ready to create and populate test media."
        "Install or update the NTFS filesystem driver before creating test media."
  | LDTM_CREATOR_SWAP =>
      Probe [ldtm_swap_module_available s]
        "SWAP driver is ready to format disposable test media."
        "Install or update the SWAP filesystem driver before creating test media."
  | LDTM_CREATOR_ZFS =>
      Probe [ldtm_zfs_module_available s]
        "ZFS driver ready to create and verify test media."
        "Install or update the ZFS filesystem driver before creating test media."
  | LDTM_CREATOR_AFFS =>
      if String.eqb (key s) "sfs" then
        Probe [ldtm_sfs_module_available]
          "SFS driver ready to format and verify test media."
          "Install or update the SFS filesystem driver before creating test media."
      else if String.eqb (key s) "ofs" then
        Probe [ldtm_ofs_module_available]
          "OFS driver is ready to create and populate test media."
          "Install or update the OFS filesystem driver before creating test media."
      else if String.eqb (key s) "ffs" then
        Probe [ldtm_ffs_module_available]
          "FFS.so independently owns format, allocation, fragmented corpus and verification."
          "Install or update FFS.so; local filesystem creation is disabled."
      else
        Refused ("No qualified filesystem shared-object implementation is registered for "
                 ++ key s)
  | LDTM_CREATOR_PFS3 =>
      Probe [ldtm_pfs3_module_available]
        "PFS3 driver ready to format and verify test media."
        "Install or update the PFS3 filesystem driver before creating test media."
  | LDTM_CREATOR_UFS =>
      Probe [makefs_available; ldtm_ufs2_module_available]
        "Package-owned UFS2 creator and all UFS2.so Test Media and defrag interfaces are available."
        "Install or update the package-owned UFS2 creator and matching UFS2.so driver."
  | LDTM_CREATOR_APFS =>
      Probe [ldtm_apfs_module_available]
        "APFS.so ready to format and verify disposable media."
        "Install or update the APFS filesystem driver before creating test media."
  | LDTM_CREATOR_MANUAL => Refused ("Reserved: " ++ note s)
  end%string.

Inductive moduleE : Type -> Type :=
| Query (q : module_query) : moduleE bool.

Definition query (q : module_query) : prog moduleE bool := call (Query q).

(** [a && b && ...], left to right. *)
Fixpoint query_all (qs : list module_query) : prog moduleE bool :=
  match qs with
  | [] => Ret true
  | q :: qs => let* r := query q in if r then query_all qs else Ret false
  end.

(** The answer and the text left in [detail]; [detail] is the text the buffer
    held, [None] for a NULL buffer. *)
Definition ldtm_spec_creator_available (spec : option LdtmFilesystemSpec)
    (detail : option string) (detail_capacity : Z) : prog moduleE (bool * option string) :=
  match detail, spec with
  | Some _, Some s =>
      if detail_capacity =? 0 then Ret (false, detail)
      else match creator_preflight s with
           | Probe qs ready missing =>
               let* r := query_all qs in
               Ret (r, Some (truncated (if r : bool then ready else missing) detail_capacity))
           | Refused text => Ret (false, Some (truncated text detail_capacity))
           end
  | _, _ => Ret (false, detail)
  end.

Fixpoint modules_available_loop (detail_capacity : Z) (specs : list LdtmFilesystemSpec)
    (detail : option string) : prog moduleE (bool * option string) :=
  match specs with
  | [] => Ret (true, detail)
  | s :: rest =>
      let* (ready, detail) := ldtm_spec_creator_available (Some s) detail detail_capacity in
      if ready : bool then modules_available_loop detail_capacity rest detail
      else Ret (false, detail)
  end.

Definition ldtm_required_modules_available (detail : option string) (detail_capacity : Z) :
    prog moduleE (bool * option string) :=
  if is_null detail || (detail_capacity =? 0) then Ret (false, detail)
  else modules_available_loop detail_capacity LDTM_SPECS detail.

(** ** Catalogue lemmas *)

Lemma find_spec_from_sound k index specs i s :
  find_spec_from k index specs = Some (i, s) ->
  (index <= i)%nat /\ nth_error specs (i - index) = Some s /\ key s = k.
Proof.
  revert index. induction specs as [|r specs IH]; intros index; simpl; [done|].
  destruct (String.eqb_spec (key r) k) as [E|E].
  - intros [= <- <-]. by rewrite Nat.sub_diag.
  - intros H. apply IH in H as (H1 & H2 & H3). split; [lia|]. split; [|done].
    by replace (i - index)%nat with (S (i - S index)) by lia.
Qed.

Lemma find_spec_from_complete index specs i s :
  NoDup (map key specs) -> nth_error specs i = Some s ->
  find_spec_from (key s) index specs = Some ((index + i)%nat, s).
Proof.
  revert index i. induction specs as [|r specs IH]; intros index i Hnd Hi;
    [by destruct i|].
  inversion_clear Hnd as [|? ? Hr Hnd']. destruct i as [|i]; simpl in *.
  - injection Hi as ->. by rewrite String.eqb_refl, Nat.add_0_r.
  - destruct (String.eqb_spec (key r) (key s)) as [E|_].
    + exfalso. apply Hr, list_elem_of_In. rewrite E. apply in_map, (nth_error_In _ _ Hi).
    + rewrite (IH _ i) by done. by rewrite Nat.add_succ_comm.
Qed.

Lemma find_spec_from_none k index specs :
  find_spec_from k index specs = None -> ~ In k (map key specs).
Proof.
  revert index. induction specs as [|r specs IH]; intros index; simpl; [by intros _ []|].
  destruct (String.eqb_spec (key r) k); [done|]. intros H [E|Hin]; [done|].
  by apply (IH (S index)).
Qed.

Lemma keys_nodup : NoDup (map key LDTM_SPECS).
Proof. vm_decide. Qed.

(** ** The partition script *)

Definition script_text (specs : list LdtmFilesystemSpec) : string :=
  String.concat "" (map partition_line specs).

Lemma script_text_cons s specs :
  script_text (s :: specs) = (partition_line s ++ script_text specs)%string.
Proof.
  unfold script_text. simpl. destruct specs as [|r specs]; simpl; [by rewrite append_nil_r|done].
Qed.

Lemma appendf_spec capacity buffer text :
  appendf capacity buffer text =
    if strlen buffer + strlen text <? capacity then Some (buffer ++ text)%string else None.
Proof.
  unfold appendf. pose proof (strlen_nonneg text).
  destruct (Z.leb_spec capacity (strlen buffer)), (Z.ltb_spec (strlen buffer + strlen text) capacity),
    (Z.leb_spec (capacity - strlen buffer) (strlen text)); try done; lia.
Qed.

Lemma append_partitions_spec capacity buffer specs :
  strlen buffer < capacity ->
  append_partitions capacity buffer specs =
    if strlen (buffer ++ script_text specs) <? capacity
    then Some (buffer ++ script_text specs)%string else None.
Proof.
  revert buffer. induction specs as [|s specs IH]; intros buffer Hb; simpl.
  - unfold script_text. simpl. rewrite append_nil_r. by rewrite (proj2 (Z.ltb_lt _ _) Hb).
  - rewrite appendf_spec, script_text_cons, <- append_assoc.
    rewrite (strlen_app (buffer ++ _)), strlen_app.
    pose proof (strlen_nonneg (script_text specs)).
    destruct (Z.ltb_spec (strlen buffer + strlen (partition_line s)) capacity) as [H1|H1].
    + rewrite IH by (rewrite strlen_app; lia). by rewrite !strlen_app.
    + destruct (Z.ltb_spec (strlen buffer + strlen (partition_line s) +
        strlen (script_text specs)) capacity); [lia|done].
Qed.

(** ** Module preflight *)

Lemma query_all_runs qs t o :
  runs (query_all qs) t o ->
  (o = Returned true /\ t = map (fun q => Event (Query q) true) qs) \/
  (o = Returned false /\ exists asked q rest, qs = asked ++ q :: rest /\
     t = map (fun q => Event (Query q) true) asked ++ [Event (Query q) false]).
Proof.
  revert t. induction qs as [|q qs IH]; intros t H; simpl in H.
  - apply runs_inv in H as [-> ->]. by left.
  - apply runs_inv in H as (r & t' & -> & H). simpl in H. destruct r.
    + apply IH in H as [[-> ->]|(-> & asked & q' & rest & -> & ->)]; [by left|].
      right. split; [done|]. by exists (q :: asked), q', rest.
    + apply runs_inv in H as [-> ->]. right. split; [done|]. by exists [], q, qs.
Qed.

(** The probes of one slot. *)
Definition slot_queries (s : LdtmFilesystemSpec) : list module_query :=
  match creator_preflight s with Probe qs _ _ => qs | Refused _ => [] end.

Definition slot_served (s : LdtmFilesystemSpec) : bool :=
  match creator_preflight s with Probe _ _ _ => true | Refused _ => false end.

Lemma modules_loop_runs capacity specs detail t o :
  0 < capacity -> forallb slot_served specs = true -> is_null detail = false ->
  runs (modules_available_loop capacity specs detail) t o ->
  exists b d, o = Returned (b, d) /\
  (if b then t = map (fun q => Event (Query q) true) (flat_map slot_queries specs)
   else exists asked q rest, flat_map slot_queries specs = asked ++ q :: rest /\
     t = map (fun q => Event (Query q) true) asked ++ [Event (Query q) false]).
Proof.
  intros Hc Hs. revert detail t. induction specs as [|s specs IH]; intros detail t Hd H; simpl in H.
  - apply runs_inv in H as [-> ->]. by exists true, detail.
  - simpl in Hs. apply andb_true_iff in Hs as [Hs1 Hs2]. destruct detail as [d|]; [|done].
    apply pbind_runs in H as [(m & H & ->)|(a & t1 & t2 & -> & H1 & H2)].
    all: unfold ldtm_spec_creator_available, slot_served in *;
      rewrite (proj2 (Z.eqb_neq capacity 0)) in * by lia;
      unfold slot_queries at 1; simpl; unfold slot_queries at 1;
      destruct (creator_preflight s) as [qs ready missing|]; try done.
    + apply pbind_runs in H as [(m' & H & _)|(a & t1 & t2 & -> & _ & H)].
      * by apply query_all_runs in H as [[? _]|[? _]].
      * by apply runs_inv in H as [_ ?].
    + apply pbind_runs in H1 as [(m' & _ & ?)|(r & t3 & t4 & -> & Hq & H1)]; [done|].
      apply runs_inv in H1 as [-> [= ->]]. rewrite app_nil_r.
      apply query_all_runs in Hq as [([= ->] & ->)|([= ->] & asked & q & rest & -> & ->)].
      * apply IH in H2 as (b & d' & -> & H2); [|done..]. exists b, d'. split; [done|].
        destruct b.
        -- subst t2. by rewrite map_app.
        -- destruct H2 as (asked & q & rest & -> & ->). exists (qs ++ asked), q, rest.
           by rewrite map_app, <- !app_assoc.
      * apply runs_inv in H2 as [-> ->]. eexists _, _. split; [done|].
        exists asked, q, (rest ++ flat_map slot_queries specs). simpl.
        by rewrite <- app_assoc, app_nil_r.
Qed.

(** ** Program resolution *)

Lemma copy_resolved_runs program capacity t p :
  runs (copy_resolved_program program capacity) t (Returned (Some p)) ->
  t = [Event (Realpath program) (Ok p); Event (Access p) (Ok tt)] /\ strlen p < capacity.
Proof.
  unfold copy_resolved_program. intros H. apply runs_inv in H as (r & t' & -> & H).
  destruct r as [q|e]; [|by apply runs_inv in H as [_ ?]].
  apply runs_inv in H as (a & t'' & -> & H).
  destruct a as [[]|e]; [|by apply runs_inv in H as [_ ?]].
  apply runs_inv in H as [-> [= H]].
  destruct (Z.ltb_spec capacity (strlen q + 1)); [done|]. injection H as ->.
  split; [done|lia].
Qed.

Lemma search_directories_runs program capacity dirs t p :
  runs (search_directories program capacity dirs) t (Returned (Some p)) ->
  exists d pre, In d dirs /\
    t = pre ++ [Event (Realpath (d ++ "/" ++ program)%string) (Ok p);
                Event (Access p) (Ok tt)] /\ strlen p < capacity.
Proof.
  remember copy_resolved_program as cr eqn:Hcr.
  revert t. induction dirs as [|d dirs IH]; intros t H; cbn [search_directories] in H;
    rewrite <- ?Hcr in H.
  - by apply runs_inv in H as [_ ?].
  - assert (Hrec : forall t0 t', t = t0 ++ t' ->
      runs (search_directories program capacity dirs) t' (Returned (Some p)) ->
      exists d' pre, In d' (d :: dirs) /\ t = pre ++ [Event (Realpath (d' ++ "/" ++ program)%string) (Ok p);
                Event (Access p) (Ok tt)] /\ strlen p < capacity).
    { intros t0 t' -> H'. apply IH in H' as (d' & pre & Hin & -> & Hp).
      exists d', (t0 ++ pre). rewrite <- app_assoc. simpl. auto. }
    destruct (negb (fits _ _)); [by apply (Hrec [] t)|].
    apply runs_inv in H as (a & t' & -> & H). destruct a as [u|e]; cbn [pbind] in H.
    + apply pbind_runs in H as [(m & _ & ?)|(r & t1 & t2 & -> & H1 & H2)]; [done|].
      destruct r as [q|].
      * apply runs_inv in H2 as [-> H2]; injection H2 as ->. subst cr. apply copy_resolved_runs in H1 as [-> Hq].
        exists d, [Event (Access (d ++ "/" ++ program)%string) (Ok u)].
        rewrite app_nil_r. simpl. auto.
      * apply (Hrec (Event (Access (d ++ "/" ++ program)%string) (Ok u) :: t1) t2 eq_refl H2).
    + by apply (Hrec [Event (Access (d ++ "/" ++ program)%string) (Err e)] t').
Qed.

(** ** Properties *)

(** [ldtm_find_spec] is the inverse of the key column: it finds a slot at
    an index exactly when the slot at that index has that key, it finds every
    slot of the catalogue, and NULL or an unknown key finds none. *)
Theorem find_spec_inverts_keys :
  (forall i s, nth_error ldtm_specs i = Some s <-> ldtm_find_spec (Some (key s)) = Some (i, s)) /\
  (forall k i s, ldtm_find_spec (Some k) = Some (i, s) -> key s = k /\ (i < ldtm_spec_count)%nat) /\
  (forall k, ldtm_find_spec (Some k) = None <-> ~ In k (map key ldtm_specs)) /\
  ldtm_find_spec None = None.
Proof.
  unfold ldtm_find_spec, ldtm_specs. split_and!; [intros i s|intros k i s|intros k|done].
  - split; intros H.
    + by rewrite (find_spec_from_complete 0 _ _ _ keys_nodup H).
    + apply find_spec_from_sound in H as (_ & H & _). by rewrite Nat.sub_0_r in H.
  - intros H. apply find_spec_from_sound in H as (_ & H & ->). split; [done|].
    rewrite Nat.sub_0_r in H. apply (nth_error_Some LDTM_SPECS). congruence.
  - split; [apply find_spec_from_none|]. intros Hk.
    destruct (find_spec_from k 0 LDTM_SPECS) as [[i s]|] eqn:E; [|done].
    apply find_spec_from_sound in E as (_ & H & <-). destruct Hk.
    apply in_map, (nth_error_In _ _ H).
Qed.

(** Every slot's fragmentation corpus has exactly the payload the catalogue
    declares, in a bounded number of non-empty files, and is smaller than the
    slot; the capacity the medium must have is the sum of the slots and one
    GiB, without wrap-around. *)
Theorem corpus_fills_declared_payload :
  Forall (fun s =>
    ldtm_target_payload_bytes (Some s) = payload_mib s * LDTM_MIB /\
    ldtm_target_payload_bytes (Some s) < size_mib s * LDTM_MIB /\
    Forall (fun i => 0 < ldtm_profile_file_bytes (ldtm_fragment_profile (Some s)) i)
      (List.seq 0 LDTM_TARGET_FILE_COUNT)) ldtm_specs /\
  ldtm_required_capacity_bytes =
    foldr Z.add 0 (map (fun s => size_mib s * LDTM_MIB) ldtm_specs) + LDTM_GIB.
Proof. split; vm_decide. Qed.

(** [ldtm_build_sfdisk_script] stores the whole script, one line for each
    slot of the catalogue in order, exactly when the buffer holds it and its
    terminator, and fails otherwise; the 8 KiB buffer of the caller always
    suffices. *)
Theorem sfdisk_script_complete :
  (forall capacity, 0 <= capacity ->
     ldtm_build_sfdisk_script false capacity =
       let text := (script_header ++ script_text ldtm_specs)%string in
       if strlen text <? capacity then Some text else None) /\
  is_null (ldtm_build_sfdisk_script false 8192) = false /\
  ldtm_build_sfdisk_script true 8192 = None.
Proof.
  split_and!; [|vm_compute; done|done]. intros capacity Hc. unfold ldtm_build_sfdisk_script, ldtm_specs.
  cbv zeta. rewrite appendf_spec.
  destruct (Z.eqb_spec capacity 0) as [->|Hc0]; simpl orb; cbv iota.
  - rewrite strlen_app. pose proof (strlen_nonneg script_header).
    pose proof (strlen_nonneg (script_text LDTM_SPECS)). by case_ltb; [lia|].
  - change (strlen "") with 0. rewrite Z.add_0_l.
    destruct (Z.ltb_spec (strlen script_header) capacity) as [H|H].
    + by rewrite append_partitions_spec.
    + rewrite strlen_app. pose proof (strlen_nonneg (script_text LDTM_SPECS)). by case_ltb; [lia|].
Qed.

(** The module preflight fails closed: it answers ready only when every
    probe of every slot of the catalogue, in order, answered yes; the first no
    ends it with the answer no. *)
Theorem required_modules_fail_closed detail capacity t o :
  0 < capacity ->
  runs (ldtm_required_modules_available (Some detail) capacity) t o ->
  let required := flat_map slot_queries ldtm_specs in
  exists ready d, o = Returned (ready, d) /\
  (if ready : bool then t = map (fun q => Event (Query q) true) required
   else exists asked q rest, required = asked ++ q :: rest /\
     t = map (fun q => Event (Query q) true) asked ++ [Event (Query q) false]) /\
  Forall (fun s => slot_queries s <> []) ldtm_specs.
Proof.
  intros Hc H. unfold ldtm_required_modules_available in H. simpl orb in H.
  rewrite (proj2 (Z.eqb_neq capacity 0)) in H by lia.
  apply modules_loop_runs in H as (b & d & -> & H); [|done|vm_compute; done|done].
  exists b, d. split; [done|]. split; [done|]. vm_decide.
Qed.

Lemma required_modules_fail_closed_witness :
  exists ready d, Returned (false, Some "Install or update the fat12 filesystem driver before creating test media.") = Returned (ready, d) /\
  (if ready : bool then [Event (Query (ldtm_fat_module_available (mkSpec "fat12" "LD_FAT12" 255 200 LDTM_CREATOR_FAT12
     "First-party FAT12 fixture uses 64 KiB clusters below the 4085-cluster FAT16 threshold and retains the full 200 MiB corpus plus boundary files."))) false]
     = map (fun q => Event (Query q) true) (flat_map slot_queries ldtm_specs)
   else exists asked q rest, flat_map slot_queries ldtm_specs = asked ++ q :: rest /\
     [Event (Query (ldtm_fat_module_available (mkSpec "fat12" "LD_FAT12" 255 200 LDTM_CREATOR_FAT12
     "First-party FAT12 fixture uses 64 KiB clusters below the 4085-cluster FAT16 threshold and retains the full 200 MiB corpus plus boundary files."))) false]
     = map (fun q => Event (Query q) true) asked ++ [Event (Query q) false]) /\
  Forall (fun s => slot_queries s <> []) ldtm_specs.
Proof.
  apply (required_modules_fail_closed "" 256 [Event (Query (ldtm_fat_module_available _)) false]); [lia|].
  apply (runs_vis _ (Query _) _ false). apply runs_ret.
Defined.

(** A program is resolved only to the canonical path of a trusted
    candidate that was just found executable: [makefs] only to the package's
    own creator, an absolute path to itself, and a bare name to one of the six
    system directories; a relative path with a slash, an empty name and NULL
    are refused. *)
Theorem resolve_program_trusted_only program capacity t p :
  runs (ldtm_resolve_program (Some program) capacity) t (Returned (Some p)) ->
  exists candidate pre,
    t = pre ++ [Event (Realpath candidate) (Ok p); Event (Access p) (Ok tt)] /\
    strlen p < capacity /\ program <> "" /\
    ((program = "makefs" /\ candidate = "/System/Commands/Defragmenter/test-media-mkfs-ufs") \/
     (program <> "makefs" /\ head_char program = "/"%char /\ candidate = program) \/
     (program <> "makefs" /\ has_char "/" program = false /\
      exists d, In d program_directories /\ candidate = (d ++ "/" ++ program)%string)).
Proof.
  unfold ldtm_resolve_program. intros H.
  destruct (is_empty program || (capacity =? 0)) eqn:E; [by apply runs_inv in H as [_ ?]|].
  apply orb_false_iff in E as [E _].
  assert (program <> "") by (by destruct program).
  destruct (String.eqb_spec program "makefs") as [->|Hm].
  - apply copy_resolved_runs in H as [-> Hp]. exists "/System/Commands/Defragmenter/test-media-mkfs-ufs", [].
    repeat split; auto.
  - destruct (has_char "/" program) eqn:Hs.
    + case_bool_decide as Hh; [|by apply runs_inv in H as [_ ?]].
      apply copy_resolved_runs in H as [-> Hp]. exists program, []. repeat split; auto.
    + apply search_directories_runs in H as (d & pre & Hd & -> & Hp).
      eexists _, pre. repeat split; eauto 10.
Qed.

Lemma resolve_program_trusted_only_witness :
  exists candidate pre,
    [Event (Realpath "/System/Commands/Defragmenter/test-media-mkfs-ufs") (Ok "/a");
     Event (Access "/a") (Ok tt)]
      = pre ++ [Event (Realpath candidate) (Ok "/a"); Event (Access "/a") (Ok tt)] /\
    strlen "/a" < PATH_MAX /\ "makefs" <> "" /\
    (("makefs" = "makefs" /\ candidate = "/System/Commands/Defragmenter/test-media-mkfs-ufs") \/
     ("makefs" <> "makefs" /\ head_char "makefs" = "/"%char /\ candidate = "makefs") \/
     ("makefs" <> "makefs" /\ has_char "/" "makefs" = false /\
      exists d, In d program_directories /\ candidate = (d ++ "/" ++ "makefs")%string)).
Proof.
  apply resolve_program_trusted_only.
  apply (runs_vis _ (Realpath _) _ (Ok "/a")).
  apply (runs_vis _ (Access _) _ (Ok tt)). apply runs_ret.
Defined.
