(* ===== verification/TestMediaRaw.v ===== *)
(** The corpus layer of [src/defragger/test_media/test_media_raw.c]: file sizes
    and names, the fragmented allocation plan, the payload oracle, the byte
    verification state machine and the fixture dispatcher. *)
From S2P Require Import Prelude Effects CString Sys TestMediaCore.

Definition LDTM_RAW_FILES : nat := 16.

Definition raw_edges : list Z := [0; 1; 511; 512; 513; 4095; 4096; 4097].

Definition ldtm_raw_file_bytes (spec : option LdtmFilesystemSpec) (file : nat) : Z :=
  if Nat.ltb file LDTM_TARGET_FILE_COUNT
  then ldtm_profile_file_bytes (ldtm_fragment_profile spec) file
  else if Nat.ltb file LDTM_RAW_FILES
  then nth (file - LDTM_TARGET_FILE_COUNT) raw_edges 0
  else 0.

(** ** Names *)

Fixpoint zeros (n : nat) : string :=
  match n with O => "" | S n => String "0" (zeros n) end.

(** [%06u] *)
Definition pad6 (n : nat) : string :=
  let d := utoa (Z.of_nat n) in (zeros (6 - String.length d) ++ d)%string.

(** The text in the 16-byte buffer. *)
Definition ldtm_raw_name (file : nat) : string :=
  truncated ("F" ++ pad6 file ++ ".BIN")%string 16.

Fixpoint raw_name_index_from (name : string) (file count : nat) : Z :=
  match count with
  | O => -1
  | S count => if String.eqb name (ldtm_raw_name file) then Z.of_nat file
               else raw_name_index_from name (S file) count
  end.

Definition ldtm_raw_name_index (name : string) : Z :=
  raw_name_index_from name 0 LDTM_RAW_FILES.

(** ** The allocation plan *)

Record LdtmRawFile := mkRawFile {
  rf_bytes : Z;
  rf_start : Z * Z;
  rf_count : Z * Z;
}.

Record LdtmRawPlan := mkRawPlan {
  rp_capacity : Z;
  rp_unit : Z;
  rp_files : list LdtmRawFile;
  rp_end : Z;
}.

Definition raw_units (bytes unit : Z) : Z := (bytes +64 unit -64 1) / unit.
Definition raw_first_half (units : Z) : Z := if 1 <? units then units / 2 else units.

(** One iteration: the extent of [file] in [phase] and the next cursor. *)
Definition raw_plan_step (spec : LdtmFilesystemSpec) (capacity unit : Z) (second : bool)
    (file : nat) (cursor : Z) : option (LdtmRawFile -> LdtmRawFile) * Z :=
  let bytes := ldtm_raw_file_bytes (Some spec) file in
  let units := raw_units bytes unit in
  let first_half := raw_first_half units in
  let count := if second then units - first_half else first_half in
  let start := if negb (count =? 0) then cursor else 0 in
  let store (item : LdtmRawFile) :=
    if second
    then mkRawFile bytes (fst (rf_start item), start) (fst (rf_count item), count)
    else mkRawFile bytes (start, snd (rf_start item)) (count, snd (rf_count item)) in
  if count =? 0 then (Some store, cursor)
  else if (capacity / unit <=? cursor) || (capacity / unit - cursor <? count)
  then (None, cursor)
  else (Some store, cursor +64 (count + 2)).

Fixpoint raw_plan_loop (spec : LdtmFilesystemSpec) (capacity unit : Z)
    (steps : list (bool * nat)) (cursor : Z) (items : list LdtmRawFile) :
    option (Z * list LdtmRawFile) :=
  match steps with
  | [] => Some (cursor, items)
  | (second, file) :: steps =>
      match raw_plan_step spec capacity unit second file cursor with
      | (None, _) => None
      | (Some store, cursor) =>
          raw_plan_loop spec capacity unit steps cursor (alter store file items)
      end
  end.

Definition raw_plan_steps : list (bool * nat) :=
  map (pair false) (List.seq 0 LDTM_RAW_FILES) ++ map (pair true) (List.seq 0 LDTM_RAW_FILES).

(** The plan, or [None] for -1. *)
Definition ldtm_raw_plan (spec : option LdtmFilesystemSpec) (capacity unit first : Z) :
    option LdtmRawPlan :=
  match spec with
  | None => None
  | Some spec =>
      if (unit =? 0) || (capacity / unit <=? first) then None
      else match raw_plan_loop spec capacity unit raw_plan_steps first
                   (repeat (mkRawFile 0 (0, 0) (0, 0)) LDTM_RAW_FILES) with
           | Some (cursor, items) => Some (mkRawPlan capacity unit items cursor)
           | None => None
           end
  end.

(** ** The payload oracle *)

Definition raw_seed (file : nat) (logical : Z) : Z :=
  Z.lxor (Z.lxor 2611923443488327891 (u64 (Z.shiftl (Z.of_nat file) 40)))
         (logical / 4096 *64 11400714819323198485).

Definition raw_xorshift (state : Z) : Z :=
  let state := Z.lxor state (Z.shiftr state 12) in
  let state := Z.lxor state (u64 (Z.shiftl state 25)) in
  let state := Z.lxor state (Z.shiftr state 27) in
  state *64 2685821657736338717.

(** The inner loop from [index] on, [n] iterations left. *)
Fixpoint raw_page_loop (n : nat) (index within state : Z) : list Z :=
  match n with
  | O => []
  | S n =>
      let state := raw_xorshift state in
      let rest := raw_page_loop n (index + 1) within state in
      if within <=? index then u8 (Z.shiftr state 56) :: rest else rest
  end.

(** The bytes stored in [data]; one unit of fuel for each page. *)
Fixpoint raw_payload_loop (fuel : nat) (bytes : Z) (file : nat) (logical : Z) : list Z :=
  match fuel with
  | O => []
  | S fuel =>
      if bytes =? 0 then []
      else
        let within := logical mod 4096 in
        let take := Z.min (4096 - within) bytes in
        raw_page_loop (Z.to_nat (within + take)) 0 within (raw_seed file logical) ++
        raw_payload_loop fuel (bytes - take) file (logical +64 take)
  end.

Definition ldtm_raw_payload (bytes : Z) (file : nat) (logical : Z) : list Z :=
  raw_payload_loop (Z.to_nat (bytes / 4096 + 2)) bytes file logical.

(** ** Effects of the corpus layer *)

Inductive raw_codec :=
| ldtm_raw_fat | ldtm_raw_exfat | ldtm_raw_ext | ldtm_raw_minix | ldtm_raw_swap
| ldtm_raw_mac | ldtm_raw_ntfs | ldtm_raw_xfs | ldtm_raw_btrfs | ldtm_raw_zfs.

Inductive rawE : Type -> Type :=
(** [ld_device_open_verified_fd], [ld_fd_size_bytes] *)
| OpenVerified (path : string) (writable : bool) : rawE (result Z)
| FdSizeBytes (fd : Z) : rawE (result Z)
(** [infiltratr_pread_full], [infiltratr_pwrite_full], [fsync], [close] *)
| RawPread (fd offset bytes : Z) : rawE (result (list Z))
| RawPwrite (fd offset : Z) (data : list Z) : rawE (result unit)
| RawFsync (fd : Z) : rawE (result unit)
| RawClose (fd : Z) : rawE (result unit)
(** The probe of one module and the codec of one format. *)
| RawQuery (q : module_query) : rawE bool
| RawCodec (codec : raw_codec) (spec : LdtmFilesystemSpec) (path : string) (create : bool) :
    rawE Z.

Definition raw := prog rawE.

Definition ldtm_raw_open (path : string) (writable : bool) : raw (option (Z * Z)) :=
  let* r := call (OpenVerified path writable) in
  match r with
  | Err _ => Ret None
  | Ok fd =>
      let* s := call (FdSizeBytes fd) in
      match s with
      | Ok capacity =>
          if capacity =? 0 then call (RawClose fd) ;;; Ret None
          else Ret (Some (fd, capacity))
      | Err _ => call (RawClose fd) ;;; Ret None
      end
  end.

Definition ldtm_raw_read (fd offset bytes : Z) : raw (result (list Z)) :=
  call (RawPread fd offset bytes).
Definition ldtm_raw_write (fd offset : Z) (data : list Z) : raw (result unit) :=
  call (RawPwrite fd offset data).

(** ** Writing the corpus *)

Definition RAW_BUFFER : Z := 65536.

(** The chunk written at [logical]: payload, then zeros. *)
Definition raw_chunk (bytes take : Z) (file : nat) (logical : Z) : list Z :=
  let available := if logical <? bytes then bytes - logical else 0 in
  let payload := ldtm_raw_payload (Z.min available take) file logical in
  payload ++ repeat 0 (Z.to_nat take - length payload).

(** One part; the logical offset after it, or [None] for -1. *)
Fixpoint raw_write_part (fuel : nat) (fd : Z) (bytes : Z) (file : nat)
    (logical physical remaining : Z) : raw (option Z) :=
  match fuel with
  | O => Ret None
  | S fuel =>
      if remaining =? 0 then Ret (Some logical)
      else
        let take := Z.min remaining RAW_BUFFER in
        let* r := ldtm_raw_write fd physical (raw_chunk bytes take file logical) in
        match r with
        | Err _ => Ret None
        | Ok _ => raw_write_part fuel fd bytes file (logical +64 take) (physical +64 take)
                    (remaining - take)
        end
  end.

Definition raw_write_file (fd unit : Z) (file : nat) (item : LdtmRawFile) : raw (option Z) :=
  let part logical start count :=
    let remaining := count *64 unit in
    raw_write_part (Z.to_nat (remaining / RAW_BUFFER + 2)) fd (rf_bytes item) file
      logical (start *64 unit) remaining in
  let* r := part 0 (fst (rf_start item)) (fst (rf_count item)) in
  match r with
  | None => Ret None
  | Some logical => part logical (snd (rf_start item)) (snd (rf_count item))
  end.

Fixpoint raw_write_files (fd unit : Z) (file : nat) (items : list LdtmRawFile) : raw bool :=
  match items with
  | [] => Ret true
  | item :: rest =>
      let* r := raw_write_file fd unit file item in
      match r with
      | None => Ret false
      | Some _ => raw_write_files fd unit (S file) rest
      end
  end.

Definition ldtm_raw_write_payload (fd : Z) (plan : LdtmRawPlan) : raw (option (result unit)) :=
  let* r := raw_write_files fd (rp_unit plan) 0 (rp_files plan) in
  if r : bool then let* s := call (RawFsync fd) in Ret (Some s) else Ret None.

(** ** Verifying the corpus *)

Record LdtmRawCheck := mkCheck {
  rc_spec : option LdtmFilesystemSpec;
  rc_seen : Z;
  rc_done : list Z;
}.

Definition ldtm_raw_check_init (spec : option LdtmFilesystemSpec) : LdtmRawCheck :=
  mkCheck spec 0 (repeat 0 LDTM_RAW_FILES).

Definition file_bit (file : nat) : Z := Z.shiftl 1 (Z.of_nat file).

(** The state afterwards and whether the call returned 0. *)
Definition ldtm_raw_check_file (check : LdtmRawCheck) (file : nat) (bytes : Z) :
    LdtmRawCheck * bool :=
  if Nat.leb LDTM_RAW_FILES file ||
     negb (bytes =? ldtm_raw_file_bytes (rc_spec check) file) ||
     negb (Z.land (rc_seen check) (file_bit file) =? 0)
  then (check, false)
  else (mkCheck (rc_spec check) (Z.lor (rc_seen check) (file_bit file)) (rc_done check), true).

Fixpoint raw_check_loop (fuel : nat) (check : LdtmRawCheck) (fd : Z) (file : nat)
    (physical logical bytes : Z) : raw (LdtmRawCheck * bool) :=
  match fuel with
  | O => Ret (check, false)
  | S fuel =>
      if bytes =? 0 then Ret (check, true)
      else
        let take := Z.min bytes RAW_BUFFER in
        let* r := ldtm_raw_read fd physical take in
        match r with
        | Err _ => Ret (check, false)
        | Ok actual =>
            if negb (bool_decide (actual = ldtm_raw_payload take file logical))
            then Ret (check, false)
            else
              let check := mkCheck (rc_spec check) (rc_seen check)
                (alter (fun d => d +64 take) file (rc_done check)) in
              raw_check_loop fuel check fd file (physical +64 take) (logical +64 take)
                (bytes - take)
        end
  end.

Definition ldtm_raw_check_data (check : LdtmRawCheck) (fd : Z) (file : nat)
    (physical logical bytes : Z) : raw (LdtmRawCheck * bool) :=
  if Nat.leb LDTM_RAW_FILES file ||
     negb (logical =? nth file (rc_done check) 0) ||
     (ldtm_raw_file_bytes (rc_spec check) file <? logical) ||
     (ldtm_raw_file_bytes (rc_spec check) file - logical <? bytes)
  then Ret (check, false)
  else raw_check_loop (Z.to_nat (bytes / RAW_BUFFER + 2)) check fd file physical logical bytes.

Definition ldtm_raw_check_finish (check : LdtmRawCheck) : bool :=
  (rc_seen check =? file_bit LDTM_RAW_FILES - 1) &&
  forallb (fun file => nth file (rc_done check) 0 =? ldtm_raw_file_bytes (rc_spec check) file)
    (List.seq 0 LDTM_RAW_FILES).

(** ** CRC-32C *)

Definition crc32c_bit (crc : Z) : Z :=
  Z.lxor (Z.shiftr crc 1) (if negb (Z.land crc 1 =? 0) then 2197175160 else 0).

Definition crc32c_byte (crc byte : Z) : Z := Nat.iter 8 crc32c_bit (Z.lxor crc byte).

Definition ldtm_raw_crc32c (data : list Z) : Z :=
  UINT32_MAX - fold_left crc32c_byte data UINT32_MAX.

(** ** The fixture dispatcher *)

(** The module that must answer before stale signatures are erased, with the
    text of the refusal. *)
Definition fixture_gate (spec : LdtmFilesystemSpec) : option (module_query * string) :=
  match creator spec with
  | LDTM_CREATOR_FAT12 | LDTM_CREATOR_FAT16 | LDTM_CREATOR_FAT32 =>
      Some (ldtm_fat_module_available spec,
            "Install or update the " ++ key spec ++ " filesystem driver.")
  | LDTM_CREATOR_XFS => Some (ldtm_xfs_module_available spec, "Install or update XFS.so.")
  | LDTM_CREATOR_NTFS =>
      Some (ldtm_ntfs_module_available spec, "Install or update the NTFS filesystem driver.")
  | LDTM_CREATOR_SWAP =>
      Some (ldtm_swap_module_available spec, "Install or update the swap filesystem driver.")
  | LDTM_CREATOR_ZFS =>
      Some (ldtm_zfs_module_available spec, "Install or update the ZFS filesystem driver.")
  | LDTM_CREATOR_HFSPLUS =>
      Some (ldtm_hfsplus_module_available spec,
            "Install or update the HFSPLUS.so filesystem driver.")
  | LDTM_CREATOR_HFS => Some (ldtm_hfs_module_available spec, "Install or update HFS.so.")
  | LDTM_CREATOR_BTRFS => Some (ldtm_btrfs_module_available spec, "Install or update BTRFS.so.")
  | LDTM_CREATOR_MINIX => Some (ldtm_minix_module_available spec, "Install or update MINIX.so.")
  | _ => None
  end%string.

Definition fixture_codec (spec : LdtmFilesystemSpec) : option raw_codec :=
  match creator spec with
  | LDTM_CREATOR_FAT12 | LDTM_CREATOR_FAT16 | LDTM_CREATOR_FAT32 => Some ldtm_raw_fat
  | LDTM_CREATOR_EXFAT => Some ldtm_raw_exfat
  | LDTM_CREATOR_EXT2 | LDTM_CREATOR_EXT3 | LDTM_CREATOR_EXT4 => Some ldtm_raw_ext
  | LDTM_CREATOR_MINIX => Some ldtm_raw_minix
  | LDTM_CREATOR_SWAP => Some ldtm_raw_swap
  | LDTM_CREATOR_HFS | LDTM_CREATOR_HFSPLUS => Some ldtm_raw_mac
  | LDTM_CREATOR_NTFS => Some ldtm_raw_ntfs
  | LDTM_CREATOR_XFS => Some ldtm_raw_xfs
  | LDTM_CREATOR_BTRFS => Some ldtm_raw_btrfs
  | LDTM_CREATOR_ZFS => Some ldtm_raw_zfs
  | _ => None
  end.

Definition raw_zero_block : list Z := repeat 0 (Z.to_nat RAW_BUFFER).

(** The erase loop from [offset] on, while the medium is [valid]: [n] blocks
    are left of each of the two rings. *)
Fixpoint fixture_erase (n : nat) (fd bytes offset : Z) (valid : bool) : raw bool :=
  match n with
  | O => Ret valid
  | S n =>
      if negb valid then Ret false
      else
        let zero := raw_zero_block in
        let* a := ldtm_raw_write fd offset zero in
        if is_ok a then
          let* b := ldtm_raw_write fd (bytes -64 LDTM_MIB +64 offset) zero in
          fixture_erase n fd bytes (offset + RAW_BUFFER) (is_ok b)
        else fixture_erase n fd bytes (offset + RAW_BUFFER) false
  end.

Definition erases_signatures (spec : LdtmFilesystemSpec) : bool :=
  negb (bool_decide (creator spec = LDTM_CREATOR_FAT12)) &&
  negb (bool_decide (creator spec = LDTM_CREATOR_FAT16)).

Definition fixture_run (codec : raw_codec) (spec : LdtmFilesystemSpec) (path : string)
    (create : bool) : raw Z :=
  let* r := ldtm_raw_open path create in
  match r with
  | None => Ret (-1)
  | Some (fd, bytes) =>
      let valid := bytes =? size_mib spec *64 LDTM_MIB in
      let* valid := if create && erases_signatures spec
                    then fixture_erase (Z.to_nat (LDTM_MIB / RAW_BUFFER)) fd bytes 0 valid
                    else Ret valid in
      let* c := call (RawClose fd) in
      if valid && is_ok c then call (RawCodec codec spec path create) else Ret (-1)
  end.

Definition fixture_report (spec : LdtmFilesystemSpec) (create : bool) (result : Z) : string :=
  (key spec ++ " native " ++
   (if create then "fixture creation" else "complete corpus verification") ++ " " ++
   (if (result =? 0)%Z then "passed" else "failed"))%string.

(** The text left in [detail] for a buffer of [capacity] bytes. *)
Definition put_detail (detail : option string) (capacity : Z) (text : string) : option string :=
  match detail with
  | Some d => if capacity =? 0 then Some d else Some (truncated text capacity)
  | None => None
  end.

Definition ldtm_raw_fixture (spec : option LdtmFilesystemSpec) (path : option string)
    (create : bool) (detail : option string) (capacity : Z) : raw (Z * option string) :=
  let detail := put_detail detail capacity "" in
  match spec, path with
  | Some spec, Some path =>
      let finish (_ : unit) : raw (Z * option string) :=
        let* result := match fixture_codec spec with
                       | None => Ret (-1)
                       | Some codec => fixture_run codec spec path create
                       end in
        Ret (result, put_detail detail capacity (fixture_report spec create result)) in
      match (if create then fixture_gate spec else None) with
      | None => finish tt
      | Some (q, refusal) =>
          let* ready := (call (RawQuery q) : raw bool) in
          if ready then finish tt
          else Ret (-1, put_detail detail capacity refusal)
      end
  | _, _ => Ret (-1, detail)
  end.

(** ** Lemmas: sizes and names *)

Lemma raw_file_bytes_range spec file :
  0 <= ldtm_raw_file_bytes spec file <= 62914560.
Proof.
  assert (Hp : exists d, ldtm_fragment_profile spec =
    mkProfile 8 30 2048 d d [2; 3; 5; 8; 13; 17; 22; 30]).
  { unfold ldtm_fragment_profile. destruct spec as [s|]; [destruct (_ || _)|]; by eexists. }
  destruct Hp as [d Hp]. unfold ldtm_raw_file_bytes, ldtm_profile_file_bytes. rewrite Hp.
  do 16 (destruct file as [|file]; [vm_compute; by split|]). simpl. lia.
Qed.

Lemma raw_name_index_from_sound name file count i :
  raw_name_index_from name file count = i -> 0 <= i ->
  (file <= Z.to_nat i < file + count)%nat /\ name = ldtm_raw_name (Z.to_nat i).
Proof.
  revert file. induction count as [|count IH]; intros file; simpl; [lia|].
  destruct (String.eqb_spec name (ldtm_raw_name file)) as [->|_].
  - intros <- _. rewrite Nat2Z.id. split; [lia|done].
  - intros H Hi. destruct (IH _ H Hi). split; [lia|done].
Qed.

(** ** Lemmas: the plan *)

Definition raw_part (item : LdtmRawFile) (second : bool) : Z * Z :=
  if second then (snd (rf_start item), snd (rf_count item))
  else (fst (rf_start item), fst (rf_count item)).

Definition item_at (items : list LdtmRawFile) (file : nat) : LdtmRawFile :=
  nth file items (mkRawFile 0 (0, 0) (0, 0)).

(** The extents of the steps, the empty ones left out. *)
Definition step_extents (items : list LdtmRawFile) (steps : list (bool * nat)) : list (Z * Z) :=
  List.filter (fun e => negb (snd e =? 0))
    (map (fun st => raw_part (item_at items (snd st)) (fst st)) steps).

Definition planned_count (spec : LdtmFilesystemSpec) (unit : Z) (second : bool) (file : nat) : Z :=
  let units := raw_units (ldtm_raw_file_bytes (Some spec) file) unit in
  if second then units - raw_first_half units else raw_first_half units.

(** Extents that follow one another with a gap of two units. *)
Fixpoint chained (cursor : Z) (extents : list (Z * Z)) (last limit : Z) : Prop :=
  match extents with
  | [] => last = cursor
  | (start, count) :: extents =>
      start = cursor /\ 0 < count /\ start + count <= limit /\
      chained (start + count + 2) extents last limit
  end.

Lemma nth_alter {A} (f : A -> A) i j l d :
  (i < length l)%nat -> nth j (alter f i l) d = if Nat.eqb i j then f (nth j l d) else nth j l d.
Proof.
  intros Hi. rewrite !nth_lookup. destruct (Nat.eqb_spec i j) as [->|Hj].
  - rewrite list_lookup_alter_eq. destruct (lookup_lt_is_Some_2 l j Hi) as [x ->]. done.
  - by rewrite list_lookup_alter_ne.
Qed.

Lemma raw_units_spec bytes unit :
  0 <= bytes <= 62914560 -> 0 < unit -> is_u32 unit ->
  let units := raw_units bytes unit in
  0 <= units <= bytes /\ bytes <= units * unit /\ (units - 1) * unit < bytes \/ 
  bytes = 0 /\ units = 0.
Proof.
  unfold is_u32. intros Hb H0 Hu. cbv zeta. unfold raw_units. unwrap64.
  pose proof (Z.div_mod (bytes + unit - 1) unit). pose proof (Z.mod_pos_bound (bytes + unit - 1) unit).
  destruct (Z.eq_dec bytes 0) as [->|Hn].
  - right. split; [done|]. apply Z.div_small. lia.
  - left. split_and!; first [nia | apply Z.div_pos; lia].
Qed.

Lemma first_half_spec units : 0 <= units ->
  0 <= raw_first_half units <= units /\ (1 < units -> 0 < raw_first_half units < units) /\
  (units <= 1 -> raw_first_half units = units).
Proof.
  intros H. unfold raw_first_half. destruct (Z.ltb_spec 1 units); [|lia].
  pose proof (Z.div_mod units 2). pose proof (Z.mod_pos_bound units 2). lia.
Qed.

Lemma planned_count_range spec unit second file :
  0 < unit -> is_u32 unit -> 0 <= planned_count spec unit second file <= 62914560.
Proof.
  intros H0 Hu. unfold planned_count. pose proof (raw_file_bytes_range (Some spec) file) as Hb.
  pose proof (raw_units_spec _ unit Hb H0 Hu) as Hr. cbv zeta in *.
  assert (0 <= raw_units (ldtm_raw_file_bytes (Some spec) file) unit) as Hn by lia.
  pose proof (first_half_spec _ Hn). destruct second; lia.
Qed.

Section Plan.
Context (spec : LdtmFilesystemSpec) (capacity unit : Z).
Context (Hcap : 0 <= capacity <= INT64_MAX) (Hunit0 : 0 < unit) (Hunit : is_u32 unit).

Lemma raw_plan_step_spec second file cursor store cursor' :
  raw_plan_step spec capacity unit second file cursor = (Some store, cursor') ->
  0 <= cursor <= INT64_MAX + 2 ->
  let count := planned_count spec unit second file in
  (forall item, raw_part (store item) second = (if count =? 0 then 0 else cursor, count) /\
     raw_part (store item) (negb second) = raw_part item (negb second) /\
     rf_bytes (store item) = ldtm_raw_file_bytes (Some spec) file) /\
  0 <= cursor' <= INT64_MAX + 2 /\
  (count = 0 /\ cursor' = cursor \/
   0 < count /\ cursor + count <= capacity / unit /\ cursor' = cursor + count + 2).
Proof.
  intros Hs Hc. pose proof (planned_count_range spec unit second file Hunit0 Hunit) as Hr.
  assert (capacity / unit <= capacity) by (apply Z.div_le_upper_bound; nia).
  unfold raw_plan_step in Hs. fold (planned_count spec unit second file) in Hs.
  unfold planned_count in *. cbv zeta in *.
  set (c := if second then _ else _) in *.
  destruct (Z.eqb_spec c 0) as [E|E]; [|destruct (_ || _) eqn:G; [done|]];
    injection Hs as <- <-; (split; [intros item; simpl; destruct second; simpl; done|]).
  - auto.
  - apply orb_false_iff in G as [G1 G2]. apply Z.leb_gt in G1. apply Z.ltb_ge in G2.
    unwrap64. split; [lia|]. right. lia.
Qed.

Lemma raw_plan_loop_sound steps cursor items last items' :
  raw_plan_loop spec capacity unit steps cursor items = Some (last, items') ->
  0 <= cursor <= INT64_MAX + 2 -> NoDup steps ->
  Forall (fun st => (snd st < length items)%nat) steps ->
  length items' = length items /\
  (forall second file, (second, file) ∉ steps ->
     raw_part (item_at items' file) second = raw_part (item_at items file) second) /\
  (forall file, Forall (fun st => snd st <> file) steps ->
     rf_bytes (item_at items' file) = rf_bytes (item_at items file)) /\
  Forall (fun st => snd (raw_part (item_at items' (snd st)) (fst st)) =
                      planned_count spec unit (fst st) (snd st) /\
                    (planned_count spec unit (fst st) (snd st) = 0 ->
                     fst (raw_part (item_at items' (snd st)) (fst st)) = 0) /\
                    rf_bytes (item_at items' (snd st)) =
                      ldtm_raw_file_bytes (Some spec) (snd st)) steps /\
  chained cursor (step_extents items' steps) last (capacity / unit).
Proof.
  revert cursor items. induction steps as [|[second file] steps IH];
    intros cursor items H Hc Hnd Hf; simpl in H.
  { injection H as <- <-. by split_and!. }
  destruct (raw_plan_step spec capacity unit second file cursor) as [[store|] cursor'] eqn:Hs; [|done].
  inversion_clear Hnd as [|? ? Hnin Hnd']. apply Forall_cons_iff in Hf as [Hf0 Hf]. simpl in Hf0.
  apply raw_plan_step_spec in Hs as (Hstore & Hc' & Hcur); [|done].
  assert (Hlen : length (alter store file items) = length items) by apply length_alter.
  apply IH in H as (H1 & H2 & H3 & H4 & H5); [|done|done|by rewrite Hlen].
  assert (Hitem : forall j, item_at (alter store file items) j =
    if Nat.eqb file j then store (item_at items j) else item_at items j)
    by (intros; by apply nth_alter).
  pose proof (Hstore (item_at items file)) as (Hp1 & Hp2 & Hp3).
  assert (Hpart : raw_part (item_at items' file) second =
      (if planned_count spec unit second file =? 0 then 0 else cursor,
       planned_count spec unit second file)).
  { rewrite H2 by done. rewrite Hitem, Nat.eqb_refl. exact Hp1. }
  split_and!.
  - lia.
  - intros second' file' Hnin'. apply not_elem_of_cons in Hnin' as [Hne Hnin'].
    rewrite H2 by done. rewrite Hitem. destruct (Nat.eqb_spec file file') as [->|]; [|done].
    replace second' with (negb second) by (destruct second, second'; done || by destruct Hne). done.
  - intros file' Hn. apply Forall_cons_iff in Hn as [Hne Hn]. simpl in Hne.
    rewrite H3 by done. rewrite Hitem. by destruct (Nat.eqb_spec file file').
  - constructor; [|done]. simpl. rewrite Hpart. split; [done|]. split; [by intros ->|].
    destruct (decide (Forall (fun st => snd st <> file) steps)) as [Hall|Hex].
    + rewrite H3 by done. by rewrite Hitem, Nat.eqb_refl.
    + apply not_Forall_Exists in Hex; [|apply _]. apply Exists_exists in Hex as ([se fi] & Hin & Hx).
      simpl in Hx. rewrite Forall_forall in H4. destruct (H4 _ Hin) as (_ & _ & Hb). simpl in Hb.
      destruct (decide (fi = file)) as [->|]; [done|]. by destruct Hx.
  - unfold step_extents in *. cbn [map List.filter fst snd]. rewrite Hpart. cbn [snd].
    destruct Hcur as [[-> ->]|(Hpos & Hle & ->)]; [done|].
    rewrite (proj2 (Z.eqb_neq _ 0)) by lia. simpl. auto.
Qed.
End Plan.

(** ** Lemmas: the payload oracle *)

Definition raw_emit (state : Z) (i : nat) : Z :=
  u8 (Z.shiftr (Nat.iter (S i) raw_xorshift state) 56).

(** The byte of [file] at [logical]. *)
Definition raw_byte (file : nat) (logical : Z) : Z :=
  raw_emit (raw_seed file logical) (Z.to_nat (logical mod 4096)).

Lemma raw_emit_succ state i : raw_emit state (S i) = raw_emit (raw_xorshift state) i.
Proof. unfold raw_emit. by rewrite (Nat.iter_succ_r (S i)). Qed.

Lemma raw_page_loop_spec n index within state :
  raw_page_loop n (Z.of_nat index) (Z.of_nat within) state =
  map (raw_emit state) (List.seq (within - index) (n - (within - index))).
Proof.
  revert index state. induction n as [|n IH]; intros index state; [done|].
  cbn [raw_page_loop]. replace (Z.of_nat index + 1) with (Z.of_nat (S index)) by lia.
  rewrite IH. destruct (Z.leb_spec (Z.of_nat within) (Z.of_nat index)) as [H|H].
  - replace (within - index)%nat with O by lia. replace (within - S index)%nat with O by lia.
    rewrite !Nat.sub_0_r. simpl. f_equal. rewrite <- seq_shift, map_map.
    apply map_ext. intros. by rewrite raw_emit_succ.
  - replace (within - index)%nat with (S (within - S index)) by lia.
    rewrite Nat.sub_succ, <- seq_shift, map_map. apply map_ext. intros. by rewrite raw_emit_succ.
Qed.

Lemma raw_page_spec file logical take :
  0 <= logical -> 0 <= take -> logical mod 4096 + take <= 4096 ->
  raw_page_loop (Z.to_nat (logical mod 4096 + take)) 0 (logical mod 4096)
    (raw_seed file logical) = map (raw_byte file) (seqZ logical take).
Proof.
  intros Hl Ht Hp. pose proof (Z.mod_pos_bound logical 4096).
  pose proof (Z.div_mod logical 4096).
  pose proof (raw_page_loop_spec (Z.to_nat (logical mod 4096 + take)) 0
    (Z.to_nat (logical mod 4096)) (raw_seed file logical)) as H2.
  rewrite Z2Nat.id in H2 by lia. change (Z.of_nat 0) with 0 in H2. rewrite H2.
  rewrite Nat.sub_0_r. replace (_ - _)%nat with (Z.to_nat take) by lia.
  unfold seqZ. rewrite map_map.
  apply list_eq. intros i. unfold raw_byte, raw_seed.
  rewrite !list_lookup_fmap. destruct (decide (i < Z.to_nat take)%nat) as [Hi|Hi].
  - rewrite !lookup_seq_lt by done. simpl. f_equal.
    assert ((Z.of_nat i + logical) / 4096 = logical / 4096) as ->.
    { symmetry. apply (Z.div_unique _ 4096 _ (logical mod 4096 + Z.of_nat i)); lia. }
    assert ((Z.of_nat i + logical) mod 4096 = logical mod 4096 + Z.of_nat i) as ->.
    { symmetry. apply (Z.mod_unique _ 4096 (logical / 4096)); lia. }
    f_equal. lia.
  - rewrite !lookup_seq_ge by lia. done.
Qed.

Lemma raw_payload_loop_spec fuel bytes file logical :
  0 <= bytes -> 0 <= logical -> logical + bytes <= TWO64 ->
  bytes = 0 \/ logical mod 4096 + bytes <= 4096 * Z.of_nat fuel ->
  raw_payload_loop fuel bytes file logical = map (raw_byte file) (seqZ logical bytes).
Proof.
  revert bytes logical. induction fuel as [|fuel IH]; intros bytes logical Hb Hl Ht Hf;
    pose proof (Z.mod_pos_bound logical 4096).
  { destruct Hf as [-> | Hf]; [done|]. by replace bytes with 0 by lia. }
  cbn [raw_payload_loop]. destruct (Z.eqb_spec bytes 0) as [->|Hn]; [done|].
  set (w := logical mod 4096) in *. set (take := Z.min (4096 - w) bytes).
  assert (0 < take <= bytes) by lia.
  replace (seqZ logical bytes) with (seqZ logical take ++ seqZ (logical + take) (bytes - take))
    by (rewrite <- seqZ_app by lia; f_equal; lia).
  rewrite map_app. f_equal.
  - unfold w. apply raw_page_spec; unfold w in *; lia.
  - destruct (Z.eq_dec (bytes - take) 0) as [->|Hr]; [by destruct fuel|].
    unwrap64. apply IH; try lia. right.
    assert (take = 4096 - w) as -> by lia.
    assert ((logical + (4096 - w)) mod 4096 = 0) as ->; [|lia].
    replace (logical + (4096 - w)) with ((logical / 4096 + 1) * 4096)
      by (unfold w; pose proof (Z.div_mod logical 4096); lia).
    apply Z.mod_mul. lia.
Qed.

Lemma raw_payload_spec bytes file logical :
  0 <= bytes -> 0 <= logical -> logical + bytes <= TWO64 ->
  ldtm_raw_payload bytes file logical = map (raw_byte file) (seqZ logical bytes).
Proof.
  intros. unfold ldtm_raw_payload. apply raw_payload_loop_spec; try done. right.
  pose proof (Z.mod_pos_bound logical 4096). pose proof (Z.mod_pos_bound bytes 4096).
  pose proof (Z.div_mod bytes 4096). assert (0 <= bytes / 4096) by (apply Z.div_pos; lia). lia.
Qed.

(** ** Lemmas: verification *)

Lemma raw_check_loop_spec fuel check fd file physical logical bytes t o :
  0 <= bytes -> 0 <= logical -> logical + bytes <= 62914560 ->
  (file < length (rc_done check))%nat -> nth file (rc_done check) 0 = logical ->
  bytes <= RAW_BUFFER * (Z.of_nat fuel - 1) ->
  runs (raw_check_loop fuel check fd file physical logical bytes) t o ->
  exists check' ok, o = Returned (check', ok) /\
  rc_spec check' = rc_spec check /\ rc_seen check' = rc_seen check /\
  length (rc_done check') = length (rc_done check) /\
  (forall f, f <> file -> nth f (rc_done check') 0 = nth f (rc_done check) 0) /\
  logical <= nth file (rc_done check') 0 <= logical + bytes /\
  (forall i, logical <= i < nth file (rc_done check') 0 ->
     exists p l n, Event (RawPread fd p n) (Ok (ldtm_raw_payload n file l)) ∈ t /\
       l <= i < l + n) /\
  if ok : bool then nth file (rc_done check') 0 = logical + bytes
  else exists p l n r, Event (RawPread fd p n) r ∈ t /\ r <> Ok (ldtm_raw_payload n file l).
Proof.
  revert check physical logical bytes t.
  induction fuel as [|fuel IH]; intros check physical logical bytes t Hb Hl Hlb Hfile Hdone Hfuel H;
    [unfold RAW_BUFFER in *; lia|].
  cbn [raw_check_loop] in H. destruct (Z.eqb_spec bytes 0) as [->|Hn].
  { apply runs_inv in H as [-> ->]. exists check, true. split_and!; try done; try lia. }
  set (take := Z.min bytes RAW_BUFFER) in *. cbv zeta in H.
  assert (0 < take <= bytes /\ take <= RAW_BUFFER) by (unfold RAW_BUFFER in *; lia).
  apply runs_inv in H as (r & t' & -> & H). cbn [pbind] in H.
  assert (Hfail : r <> Ok (ldtm_raw_payload take file logical) ->
    exists p l n r0, Event (RawPread fd p n) r0 ∈ Event (RawPread fd physical take) r :: t' /\
      r0 <> Ok (ldtm_raw_payload n file l)).
  { intros. exists physical, logical, take, r. split; [left|done]. }
  destruct r as [actual|e].
  2: { apply runs_inv in H as [-> ->]. exists check, false. split_and!; try done; try lia.
       by apply Hfail. }
  case_bool_decide as Heq; simpl negb in H; cbv iota in H.
  2: { apply runs_inv in H as [-> ->]. exists check, false. split_and!; try done; try lia.
       apply Hfail. congruence. }
  set (check1 := mkCheck _ _ _) in H.
  assert (Hd1 : forall f, nth f (rc_done check1) 0 =
    if Nat.eqb file f then logical + take else nth f (rc_done check) 0).
  { intros f. simpl. rewrite nth_alter by done. destruct (Nat.eqb_spec file f) as [<-|]; [|done].
    rewrite Hdone. unwrap64. done. }
  unwrap64. apply IH in H as (check' & ok & -> & H1 & H2 & H3 & H4 & H5 & H6 & H7);
    [| lia | lia | lia | unfold check1; simpl; by rewrite length_alter | by rewrite Hd1, Nat.eqb_refl
     | unfold RAW_BUFFER in *; lia].
  exists check', ok. split; [done|]. split_and!; try done; try lia.
  - rewrite H3. apply length_alter.
  - intros f Hf. rewrite H4 by done. rewrite Hd1. by destruct (Nat.eqb_spec file f).
  - intros i Hi. destruct (Z_lt_dec i (logical + take)) as [Hlt|Hge].
    + exists physical, logical, take. split; [rewrite <- Heq; left|lia].
    + destruct (H6 i) as (p & l & n & Hin & ?); [lia|]. exists p, l, n. split; [by right|done].
  - destruct ok; [lia|]. destruct H7 as (p & l & n & r & Hin & ?). exists p, l, n, r.
    split; [by right|done].
Qed.

(** The calls a codec makes on a check, whatever it does with their answers. *)
Inductive check_op :=
| CheckFile (file : nat) (bytes : Z)
| CheckData (fd : Z) (file : nat) (physical logical bytes : Z).

Definition check_op_typed (op : check_op) : Prop :=
  match op with CheckFile _ _ => True | CheckData _ _ _ _ bytes => 0 <= bytes end.

Fixpoint run_checks (ops : list check_op) (check : LdtmRawCheck) : raw LdtmRawCheck :=
  match ops with
  | [] => Ret check
  | CheckFile file bytes :: ops => run_checks ops (fst (ldtm_raw_check_file check file bytes))
  | CheckData fd file physical logical bytes :: ops =>
      let* (check, _) := ldtm_raw_check_data check fd file physical logical bytes in
      run_checks ops check
  end.

(** Byte [i] of [file] was read and compared equal. *)
Definition byte_verified (t : list (event rawE)) (file : nat) (i : Z) : Prop :=
  exists fd p l n, Event (RawPread fd p n) (Ok (ldtm_raw_payload n file l)) ∈ t /\ l <= i < l + n.

Definition check_inv (spec : option LdtmFilesystemSpec) (declared : nat -> Prop)
    (t : list (event rawE)) (check : LdtmRawCheck) : Prop :=
  rc_spec check = spec /\ length (rc_done check) = LDTM_RAW_FILES /\
  (forall file, 0 <= nth file (rc_done check) 0 <= ldtm_raw_file_bytes spec file \/
     nth file (rc_done check) 0 = 0) /\
  (forall file i, 0 <= i < nth file (rc_done check) 0 -> byte_verified t file i) /\
  (forall file, Z.testbit (rc_seen check) (Z.of_nat file) = true -> declared file).

Lemma check_file_inv spec declared t check file bytes :
  check_inv spec declared t check ->
  check_inv spec (fun f => declared f \/ f = file /\ bytes = ldtm_raw_file_bytes spec file) t
    (fst (ldtm_raw_check_file check file bytes)).
Proof.
  intros (H1 & H2 & H3 & H4 & H5). unfold ldtm_raw_check_file.
  destruct (_ || _ || _) eqn:E; simpl.
  - split_and!; auto.
  - apply orb_false_iff in E as [E _]. apply orb_false_iff in E as [_ E].
    apply negb_false_iff, Z.eqb_eq in E. rewrite H1 in E. split_and!; auto. simpl.
    intros f. unfold file_bit. rewrite Z.lor_spec. intros [Hf|Hf]%orb_true_iff; [auto|].
    right. split; [|done]. rewrite Z.shiftl_spec in Hf by lia.
    destruct (Z_lt_dec (Z.of_nat f - Z.of_nat file) 0) as [Hn|Hn].
    + by rewrite Z.testbit_neg_r in Hf.
    + destruct (Z.eq_dec (Z.of_nat f - Z.of_nat file) 0); [lia|].
      rewrite Z.bits_above_log2 in Hf; [done|lia|simpl; lia].
Qed.

Lemma raw_check_data_runs check fd file physical logical bytes t o :
  0 <= bytes -> length (rc_done check) = LDTM_RAW_FILES ->
  0 <= nth file (rc_done check) 0 ->
  runs (ldtm_raw_check_data check fd file physical logical bytes) t o ->
  (t = [] /\ o = Returned (check, false)) \/
  (file < LDTM_RAW_FILES)%nat /\ logical = nth file (rc_done check) 0 /\
  logical + bytes <= ldtm_raw_file_bytes (rc_spec check) file /\
  exists check' ok, o = Returned (check', ok) /\
  rc_spec check' = rc_spec check /\ rc_seen check' = rc_seen check /\
  length (rc_done check') = length (rc_done check) /\
  (forall f, f <> file -> nth f (rc_done check') 0 = nth f (rc_done check) 0) /\
  logical <= nth file (rc_done check') 0 <= logical + bytes /\
  (forall i, logical <= i < nth file (rc_done check') 0 ->
     exists p l n, Event (RawPread fd p n) (Ok (ldtm_raw_payload n file l)) ∈ t /\
       l <= i < l + n) /\
  if ok : bool then nth file (rc_done check') 0 = logical + bytes
  else exists p l n r, Event (RawPread fd p n) r ∈ t /\ r <> Ok (ldtm_raw_payload n file l).
Proof.
  intros Hb Hlen Hd. unfold ldtm_raw_check_data.
  destruct (_ || _ || _ || _) eqn:E; intros H; [left; by apply runs_inv in H|right].
  apply orb_false_iff in E as [E E4]. apply orb_false_iff in E as [E E3].
  apply orb_false_iff in E as [E1 E2]. apply Nat.leb_gt in E1.
  apply negb_false_iff, Z.eqb_eq in E2. apply Z.ltb_ge in E3, E4.
  pose proof (raw_file_bytes_range (rc_spec check) file).
  split; [done|]. split; [done|]. split; [lia|].
  assert (0 <= bytes / RAW_BUFFER) by (apply Z.div_pos; unfold RAW_BUFFER; lia).
  pose proof (Z.div_mod bytes RAW_BUFFER). pose proof (Z.mod_pos_bound bytes RAW_BUFFER).
  eapply raw_check_loop_spec; try done; unfold RAW_BUFFER in *; lia.
Qed.

Lemma run_checks_inv spec declared t0 ops check t check' :
  Forall check_op_typed ops -> check_inv spec declared t0 check ->
  runs (run_checks ops check) t (Returned check') ->
  check_inv spec (fun f => declared f \/ In (CheckFile f (ldtm_raw_file_bytes spec f)) ops)
    (t0 ++ t) check'.
Proof.
  revert declared t0 check t. induction ops as [|op ops IH]; intros declared t0 check t Hty Hinv H;
    simpl in H.
  - apply runs_inv in H as [-> [= <-]]. rewrite app_nil_r.
    destruct Hinv as (? & ? & ? & ? & ?). split_and!; auto.
  - apply Forall_cons_iff in Hty as [Hop Hty]. destruct op as [file bytes|fd file physical logical bytes].
    + eapply IH in H; [|done|by apply check_file_inv]. destruct H as (H1 & H2 & H3 & H4 & H5).
      split_and!; auto. intros f Hf. simpl.
      destruct (H5 f Hf) as [[?|[-> ->]]|?]; auto.
    + simpl in Hop. destruct Hinv as (H1 & H2 & H3 & H4 & H5).
      apply pbind_runs in H as [(m & _ & ?)|([c ok] & t1 & t2 & -> & Hc & H)]; [done|].
      assert (check_inv spec declared (t0 ++ t1) c) as Hinv.
      { assert (Hmono : forall f i, byte_verified t0 f i -> byte_verified (t0 ++ t1) f i).
        { intros f i (a & p & l & n & Hin & ?). exists a, p, l, n. split; [|done].
          apply elem_of_app. by left. }
        apply raw_check_data_runs in Hc as [[-> [= -> ->]]|
          (Hf & -> & Hle & c' & ok' & [= -> ->] & D1 & D2 & D3 & D4 & D5 & D6 & _)]; try done;
          [|split_and!|by destruct (H3 file); lia].
        - split_and!; auto.
        - congruence.
        - congruence.
        - intros f. destruct (decide (f = file)) as [->|Hn]; [|rewrite D4 by done; auto].
          left. rewrite H1 in *. destruct (H3 file); lia.
        - intros f i Hi. destruct (decide (f = file)) as [->|Hn]; [|apply Hmono, H4; by rewrite <- D4].
          destruct (Z_lt_dec i (nth file (rc_done check) 0)); [apply Hmono, H4; lia|].
          destruct (D6 i) as (p & l & sz & Hin & ?); [lia|]. exists fd, p, l, sz.
          split; [|done]. apply elem_of_app. by right.
        - rewrite D2. auto. }
      eapply IH in H; [|done|exact Hinv]. rewrite <- app_assoc in H.
      destruct H as (? & ? & ? & ? & H8). split_and!; auto. intros f Hf.
      destruct (H8 f Hf); simpl; auto.
Qed.

(** ** Lemmas: writing *)

(** The byte the writer owes at [logical]: payload, then zero padding. *)
Definition owed (bytes : Z) (file : nat) (logical : Z) : Z :=
  if logical <? bytes then raw_byte file logical else 0.

(** Every byte the event writes satisfies [Q] at its address. *)
Definition writes_only (fd : Z) (Q : Z -> Z -> Prop) (ev : event rawE) : Prop :=
  exists off data ans, ev = Event (RawPwrite fd off data) ans /\
    forall j v, data !! j = Some v -> Q (off + Z.of_nat j) v.

(** Address [a] was written with [v]. *)
Definition wrote (fd : Z) (t : list (event rawE)) (a v : Z) : Prop :=
  exists off data j, Event (RawPwrite fd off data) (Ok tt) ∈ t /\
    off + Z.of_nat j = a /\ data !! j = Some v.

Lemma wrote_app fd t1 t2 a v :
  wrote fd (t1 ++ t2) a v <-> wrote fd t1 a v \/ wrote fd t2 a v.
Proof.
  unfold wrote. split.
  - intros (off & data & j & [H|H]%elem_of_app & ?); [left|right]; eauto.
  - intros [(off & data & j & H & ?)|(off & data & j & H & ?)];
      exists off, data, j; (split; [apply elem_of_app; auto|done]).
Qed.

Lemma writes_only_mono fd (Q Q' : Z -> Z -> Prop) t :
  (forall a v, Q a v -> Q' a v) -> Forall (writes_only fd Q) t -> Forall (writes_only fd Q') t.
Proof.
  intros HQ H. eapply Forall_impl; [|exact H]. intros ev (off & data & ans & -> & Hw).
  exists off, data, ans. eauto.
Qed.

Lemma repeat_replicate {A} (x : A) n : repeat x n = replicate n x.
Proof. induction n; simpl; congruence. Qed.

Lemma raw_chunk_spec bytes take file logical :
  0 <= bytes <= 62914560 -> 0 <= logical -> 0 <= take -> 
  raw_chunk bytes take file logical = map (owed bytes file) (seqZ logical take).
Proof.
  intros Hb Hl Ht. unfold raw_chunk. cbv zeta.
  set (av := if logical <? bytes then bytes - logical else 0).
  assert (0 <= av <= bytes /\ (logical < bytes /\ av = bytes - logical \/
    bytes <= logical /\ av = 0)) by (unfold av; case_ltb; lia).
  replace (ldtm_raw_payload (Z.min av take) file logical)
    with (map (raw_byte file) (seqZ logical (Z.min av take))).
  2: { destruct (Z.eq_dec (Z.min av take) 0) as [->|].
       - unfold ldtm_raw_payload. simpl. done.
       - symmetry. apply raw_payload_spec; lia. }
  rewrite length_map, length_seqZ.
  replace (seqZ logical take) with (seqZ logical (Z.min av take) ++
    seqZ (logical + Z.min av take) (take - Z.min av take))
    by (rewrite <- seqZ_app by lia; f_equal; lia).
  rewrite map_app. f_equal.
  - apply map_ext_in. intros x Hx%list_elem_of_In%elem_of_seqZ. unfold owed. rewrite (proj2 (Z.ltb_lt _ _)) by lia. done.
  - rewrite <- Z2Nat.inj_sub, repeat_replicate by lia. apply list_eq. intros i.
    rewrite list_lookup_fmap. destruct (decide (i < Z.to_nat (take - Z.min av take))%nat) as [Hi|Hi].
    + rewrite lookup_seqZ_lt by lia. simpl. unfold owed. rewrite (proj2 (Z.ltb_ge _ _)) by lia.
      by apply lookup_replicate_2.
    + rewrite lookup_seqZ_ge by lia. simpl. apply lookup_ge_None. rewrite length_replicate. lia.
Qed.

Lemma raw_fuel_enough c : 0 <= c -> c <= RAW_BUFFER * (Z.of_nat (Z.to_nat (c / RAW_BUFFER + 2)) - 1).
Proof.
  intros Hc. assert (0 <= c / RAW_BUFFER) by (apply Z.div_pos; unfold RAW_BUFFER; lia).
  pose proof (Z.div_mod c RAW_BUFFER). pose proof (Z.mod_pos_bound c RAW_BUFFER).
  unfold RAW_BUFFER in *. lia.
Qed.

Lemma raw_write_part_spec fuel fd bytes file logical physical remaining t o :
  0 <= bytes <= 62914560 -> 0 <= logical -> 0 <= remaining -> 0 <= physical ->
  logical + remaining <= INT64_MAX -> physical + remaining <= INT64_MAX ->
  remaining <= RAW_BUFFER * (Z.of_nat fuel - 1) ->
  runs (raw_write_part fuel fd bytes file logical physical remaining) t o ->
  exists r, o = Returned r /\
  Forall (writes_only fd (fun a v => exists l, logical <= l < logical + remaining /\
    a = physical + (l - logical) /\ v = owed bytes file l)) t /\
  forall logical', r = Some logical' -> logical' = logical + remaining /\
    forall l, logical <= l < logical + remaining ->
      wrote fd t (physical + (l - logical)) (owed bytes file l).
Proof.
  revert logical physical remaining t.
  induction fuel as [|fuel IH]; intros logical physical remaining t Hb Hl Hr Hp Hlr Hpr Hf H;
    [unfold RAW_BUFFER in *; lia|].
  cbn [raw_write_part] in H. destruct (Z.eqb_spec remaining 0) as [->|Hn].
  { apply runs_inv in H as [-> ->]. eexists. split; [done|]. split; [constructor|].
    intros ? [= <-]. split; lia. }
  set (take := Z.min remaining RAW_BUFFER) in *. cbv zeta in H.
  assert (0 < take <= remaining /\ take <= RAW_BUFFER) by (unfold RAW_BUFFER in *; lia).
  rewrite raw_chunk_spec in H by lia.
  apply runs_inv in H as (r & t' & -> & H). cbn [pbind] in H.
  set (chunk := map (owed bytes file) (seqZ logical take)) in *.
  assert (Hchunk : forall j v, chunk !! j = Some v <->
    (Z.of_nat j < take /\ v = owed bytes file (logical + Z.of_nat j))).
  { intros j v. unfold chunk. rewrite list_lookup_fmap_Some. split.
    - intros (l & -> & [-> ?]%lookup_seqZ). done.
    - intros [? ->]. exists (logical + Z.of_nat j). split; [done|]. by apply lookup_seqZ. }
  assert (Hw : forall ans, writes_only fd (fun a v => exists l, logical <= l < logical + remaining /\
    a = physical + (l - logical) /\ v = owed bytes file l) (Event (RawPwrite fd physical chunk) ans)).
  { intros ans. exists physical, chunk, ans. split; [done|]. intros j v [? ->]%Hchunk.
    exists (logical + Z.of_nat j). split_and!; [lia..|done]. }
  destruct r as [[]|e].
  2: { apply runs_inv in H as [-> ->]. eexists. split; [done|]. split; [by repeat constructor|done]. }
  unwrap64. apply IH in H as (r & -> & H1 & H2); [|unfold RAW_BUFFER in *; lia..].
  exists r. split; [done|]. split.
  - constructor; [done|]. eapply writes_only_mono; [|exact H1].
    intros a v (l & ? & -> & ->). exists l. split_and!; [lia..|done].
  - intros logical' Hr'. apply H2 in Hr' as [-> H3]. split; [lia|]. intros l Hl'.
    apply (wrote_app fd [_]). destruct (Z_lt_dec l (logical + take)) as [Hlt|Hge].
    + left. exists physical, chunk, (Z.to_nat (l - logical)). split; [left|]. split; [lia|].
      apply Hchunk. split; [lia|]. f_equal. lia.
    + right. replace (physical + (l - logical)) with (physical + take + (l - (logical + take))) by lia.
      apply H3. lia.
Qed.

(** Where the plan puts the byte at [logical] of the file of [item]. *)
Definition item_address (unit : Z) (item : LdtmRawFile) (logical : Z) : Z :=
  let '(start0, count0) := raw_part item false in
  let '(start1, _) := raw_part item true in
  if logical <? count0 * unit then start0 * unit + logical
  else start1 * unit + (logical - count0 * unit).

Definition item_span (unit : Z) (item : LdtmRawFile) : Z :=
  (snd (raw_part item false) + snd (raw_part item true)) * unit.

(** The extents of an item lie below [limit] units. *)
Definition item_bounded (limit : Z) (item : LdtmRawFile) : Prop :=
  0 <= rf_bytes item <= 62914560 /\
  forall second, 0 <= fst (raw_part item second) /\ 0 <= snd (raw_part item second) <= 62914560 /\
    fst (raw_part item second) + snd (raw_part item second) <= limit.

Lemma raw_write_file_spec fd unit limit file item t o :
  0 < unit -> is_u32 unit -> 0 <= limit -> limit * unit <= INT64_MAX -> item_bounded limit item ->
  runs (raw_write_file fd unit file item) t o ->
  exists r, o = Returned r /\
  Forall (writes_only fd (fun a v => exists l, 0 <= l < item_span unit item /\
    a = item_address unit item l /\ v = owed (rf_bytes item) file l)) t /\
  (is_null r = false -> forall l, 0 <= l < item_span unit item ->
     wrote fd t (item_address unit item l) (owed (rf_bytes item) file l)).
Proof.
  unfold is_u32. intros Hu Hu32 Hlim Hmax [Hb Hparts] H.
  destruct item as [bytes [s0 s1] [c0 c1]]. simpl in *.
  pose proof (Hparts false) as H0. pose proof (Hparts true) as H1. simpl in H0, H1.
  unfold item_span, item_address. simpl.
  assert (Hs0 : 0 <= s0 * unit /\ 0 <= c0 * unit <= 62914560 * TWO32 /\ s0 * unit + c0 * unit <= INT64_MAX) by nia.
  assert (Hs1 : 0 <= s1 * unit /\ 0 <= c1 * unit <= 62914560 * TWO32 /\ s1 * unit + c1 * unit <= INT64_MAX) by nia.
  unfold raw_write_file in H. simpl in H. unwrap64.
  apply pbind_runs in H as [(m & H & ->)|(r & t1 & t2 & -> & Hp0 & H)].
  { apply raw_write_part_spec in H as (? & ? & _); [done|lia..|apply raw_fuel_enough; lia]. }
  apply raw_write_part_spec in Hp0 as (r' & [= <-] & W0 & D0); [|lia..|apply raw_fuel_enough; lia].
  assert (W0' : Forall (writes_only fd (fun a v => exists l, 0 <= l < (c0 + c1) * unit /\
    a = (if l <? c0 * unit then s0 * unit + l else s1 * unit + (l - c0 * unit)) /\
    v = owed bytes file l)) t1).
  { eapply writes_only_mono; [|exact W0]. intros a v (l & Hl & -> & ->). exists l.
    rewrite (proj2 (Z.ltb_lt _ _)) by lia. split_and!; [lia|nia|lia|done]. }
  destruct r as [logical|].
  2: { apply runs_inv in H as [-> ->]. eexists. split; [done|]. rewrite app_nil_r. by split. }
  destruct (D0 _ eq_refl) as [-> D0'].
  apply raw_write_part_spec in H as (r' & -> & W1 & D1); [|lia..|apply raw_fuel_enough; lia].
  exists r'. split; [done|]. split.
  - apply Forall_app. split; [done|]. eapply writes_only_mono; [|exact W1].
    intros a v (l & Hl & -> & ->). exists l.
    rewrite (proj2 (Z.ltb_ge _ _)) by lia. split_and!; [lia|nia|lia|done].
  - intros Hr l Hl. destruct r' as [l'|]; [|done]. destruct (D1 _ eq_refl) as [_ D1'].
    apply wrote_app. destruct (Z.ltb_spec l (c0 * unit)).
    + left. replace (s0 * unit + l) with (s0 * unit + (l - 0)) by lia. apply D0'. lia.
    + right. replace (l - c0 * unit) with (l - (0 + c0 * unit)) by lia. apply D1'. nia.
Qed.

Lemma raw_write_files_spec fd unit limit file items t o :
  0 < unit -> is_u32 unit -> 0 <= limit -> limit * unit <= INT64_MAX ->
  Forall (item_bounded limit) items ->
  runs (raw_write_files fd unit file items) t o ->
  exists ok, o = Returned ok /\
  Forall (writes_only fd (fun a v => exists k item l, items !! k = Some item /\
    0 <= l < item_span unit item /\ a = item_address unit item l /\
    v = owed (rf_bytes item) (file + k) l)) t /\
  (ok = true -> forall k item l, items !! k = Some item -> 0 <= l < item_span unit item ->
     wrote fd t (item_address unit item l) (owed (rf_bytes item) (file + k) l)).
Proof.
  intros Hu Hu32 Hlim Hmax. revert file t.
  induction items as [|item items IH]; intros file t Hb H; simpl in H.
  { apply runs_inv in H as [-> ->]. exists true. split_and!; [done|constructor|by intros]. }
  apply Forall_cons_iff in Hb as [Hb0 Hb].
  apply pbind_runs in H as [(m & H & ->)|(r & t1 & t2 & -> & H1 & H)].
  { by eapply raw_write_file_spec in H as (? & ? & _). }
  eapply raw_write_file_spec in H1 as (r' & [= <-] & W1 & D1); [|done..].
  assert (W1' : Forall (writes_only fd (fun a v => exists k item0 l, (item :: items) !! k = Some item0 /\
    0 <= l < item_span unit item0 /\ a = item_address unit item0 l /\
    v = owed (rf_bytes item0) (file + k) l)) t1).
  { eapply writes_only_mono; [|exact W1]. intros a v (l & Hl & -> & ->).
    exists O, item, l. by rewrite Nat.add_0_r. }
  destruct r as [x|].
  2: { apply runs_inv in H as [-> ->]. exists false. rewrite app_nil_r. by split_and!. }
  apply IH in H as (ok & -> & W2 & D2); [|done]. exists ok. split; [done|]. split.
  - apply Forall_app. split; [done|]. eapply writes_only_mono; [|exact W2].
    intros a v (k & item0 & l & Hk & Hl & -> & ->). exists (S k), item0, l.
    by rewrite Nat.add_succ_r.
  - intros Hok k item0 l Hk Hl. apply wrote_app. destruct k as [|k].
    + left. injection Hk as <-. rewrite Nat.add_0_r. by apply D1.
    + right. rewrite Nat.add_succ_r. by apply D2.
Qed.

(** The medium as the successful writes of a trace leave it. *)
Definition write_effect (fd : Z) {X} (e : rawE X) : X -> (Z -> option Z) -> Z -> option Z :=
  match e with
  | RawPwrite fd' off data => fun ans disk a =>
      if (fd' =? fd) && is_ok ans && (off <=? a) && (a <? off + Z.of_nat (length data))
      then data !! Z.to_nat (a - off) else disk a
  | _ => fun _ disk => disk
  end.

Fixpoint disk_after (fd : Z) (t : list (event rawE)) (disk : Z -> option Z) : Z -> option Z :=
  match t with
  | [] => disk
  | Event e x :: t => disk_after fd t (write_effect fd e x disk)
  end.

Lemma write_effect_spec fd off data ans disk a :
  write_effect fd (RawPwrite fd off data) ans disk a = disk a \/
  exists j v, a = off + Z.of_nat j /\ data !! j = Some v /\
    write_effect fd (RawPwrite fd off data) ans disk a = Some v.
Proof.
  simpl. destruct (_ && _ && _ && _) eqn:E; [right|by left]. breflect.
  destruct (lookup_lt_is_Some_2 data (Z.to_nat (a - off))) as [v Hv]; [lia|].
  exists (Z.to_nat (a - off)), v. split_and!; [lia|done|done].
Qed.

Lemma disk_after_spec fd (Q : Z -> Z -> Prop) t disk a v0 :
  Forall (writes_only fd Q) t -> wrote fd t a v0 ->
  exists v, disk_after fd t disk a = Some v /\ Q a v.
Proof.
  intros HQ Hw.
  assert (H : forall t disk, Forall (writes_only fd Q) t ->
    (disk_after fd t disk a = disk a \/ exists v, disk_after fd t disk a = Some v /\ Q a v)).
  { clear. intros t. induction t as [|ev t IH]; intros disk HQ; [by left|].
    apply Forall_cons_iff in HQ as [(off & data & ans & -> & Hd) HQ]. cbn [disk_after].
    destruct (IH (write_effect fd (RawPwrite fd off data) ans disk) HQ) as [E|E]; [|by right].
    rewrite E. destruct (write_effect_spec fd off data ans disk a) as [->|(j & v & -> & Hv & ->)];
      [by left|]. right. eauto. }
  revert disk. induction t as [|ev t IH]; intros disk.
  { by destruct Hw as (? & ? & ? & Hin & _); apply not_elem_of_nil in Hin. }
  apply Forall_cons_iff in HQ as [Hev HQ]. apply (wrote_app fd [ev]) in Hw as [Hw|Hw].
  - destruct Hw as (off & data & j & Hin & <- & Hj). apply list_elem_of_singleton in Hin as <-.
    destruct Hev as (off' & data' & ans' & Heq & Hd).
    assert (HQj : Q (off + Z.of_nat j) v0).
    { pose proof (f_equal (fun ev => match ev with Event e _ =>
        match e with RawPwrite _ o d => (o, d) | _ => (0, []) end end) Heq) as Hod.
      simpl in Hod. injection Hod as <- <-. by apply Hd. }
    cbn [disk_after]. destruct (H t (write_effect fd (RawPwrite fd off data) (Ok tt) disk) HQ)
      as [E|E]; [|done]. rewrite E. simpl. pose proof (lookup_lt_Some _ _ _ Hj).
    rewrite Z.eqb_refl, (proj2 (Z.leb_le _ _)), (proj2 (Z.ltb_lt _ _)) by lia. simpl.
    exists v0. split; [|done]. rewrite <- Hj. f_equal. lia.
  - destruct ev as [X e x]. cbn [disk_after]. by apply IH.
Qed.

(** ** Lemmas: the finished plan *)

Definition separated (a b : Z * Z) : Prop := fst a + snd a + 2 <= fst b.

Lemma chained_bounds items steps cursor last limit st :
  chained cursor (step_extents items steps) last limit -> st ∈ steps ->
  let e := raw_part (item_at items (snd st)) (fst st) in
  snd e <> 0 -> 0 < snd e /\ cursor <= fst e /\ fst e + snd e <= limit.
Proof.
  unfold step_extents. revert cursor. induction steps as [|st0 steps IH]; intros cursor H Hin;
    [by apply not_elem_of_nil in Hin|].
  cbn [map List.filter] in H. apply elem_of_cons in Hin.
  destruct (raw_part (item_at items (snd st0)) (fst st0)) as [s c] eqn:E. cbn [snd] in H.
  destruct (Z.eqb_spec c 0) as [->|Hc]; simpl negb in H; cbv iota in H.
  - destruct Hin as [->|Hin]; [by rewrite E|by apply IH].
  - destruct H as (-> & Hpos & Hle & H). destruct Hin as [->|Hin].
    + rewrite E. simpl. lia.
    + intros He. destruct (IH _ H Hin He). lia.
Qed.

Lemma chained_separated items steps cursor last limit st st' :
  chained cursor (step_extents items steps) last limit -> st ∈ steps -> st' ∈ steps -> st <> st' ->
  let e := raw_part (item_at items (snd st)) (fst st) in
  let e' := raw_part (item_at items (snd st')) (fst st') in
  snd e <> 0 -> snd e' <> 0 -> separated e e' \/ separated e' e.
Proof.
  revert cursor. induction steps as [|st0 steps IH]; intros cursor H Hin Hin' Hne;
    [by apply not_elem_of_nil in Hin|].
  cbv zeta. intros He He'. apply elem_of_cons in Hin, Hin'.
  assert (Hrest : exists c', chained c' (step_extents items steps) last limit /\
    (snd (raw_part (item_at items (snd st0)) (fst st0)) <> 0 ->
     c' = fst (raw_part (item_at items (snd st0)) (fst st0)) +
          snd (raw_part (item_at items (snd st0)) (fst st0)) + 2)).
  { unfold step_extents in *. cbn [map List.filter] in H.
    destruct (raw_part (item_at items (snd st0)) (fst st0)) as [s c]. cbn [snd] in H.
    destruct (Z.eqb_spec c 0) as [Hc|Hc]; simpl negb in H; cbv iota in H;
      [exists cursor; split; [done|]; cbn; lia|].
    destruct H as (-> & Hpos & Hle & H). by eexists. }
  destruct Hrest as (c' & Hch & Hc').
  destruct Hin as [->|Hin], Hin' as [->|Hin']; [done|left|right|by eapply IH]; unfold separated.
  - destruct (chained_bounds _ _ _ _ _ _ Hch Hin' He') as (_ & ? & _). specialize (Hc' He). lia.
  - destruct (chained_bounds _ _ _ _ _ _ Hch Hin He) as (_ & ? & _). specialize (Hc' He'). lia.
Qed.

Lemma raw_plan_steps_nodup : NoDup raw_plan_steps.
Proof. vm_decide. Qed.

Lemma raw_plan_steps_in second file :
  (second, file) ∈ raw_plan_steps <-> (file < LDTM_RAW_FILES)%nat.
Proof.
  unfold raw_plan_steps. rewrite elem_of_app, !list_elem_of_In, !in_map_iff.
  setoid_rewrite in_seq. split.
  - intros [(x & [= _ ->] & ?)|(x & [= _ ->] & ?)]; lia.
  - intros H. destruct second; [right|left]; exists file; (split; [done|lia]).
Qed.

(** What [ldtm_raw_plan] returns. *)
Lemma raw_plan_result spec capacity unit first plan :
  0 <= capacity <= INT64_MAX -> is_u32 unit -> is_u64 first ->
  ldtm_raw_plan (Some spec) capacity unit first = Some plan ->
  0 < unit /\ first < capacity / unit /\
  rp_capacity plan = capacity /\ rp_unit plan = unit /\ length (rp_files plan) = LDTM_RAW_FILES /\
  (forall file, (file < LDTM_RAW_FILES)%nat ->
     let item := item_at (rp_files plan) file in
     rf_bytes item = ldtm_raw_file_bytes (Some spec) file /\
     forall second, snd (raw_part item second) = planned_count spec unit second file /\
       (planned_count spec unit second file = 0 -> fst (raw_part item second) = 0)) /\
  chained first (step_extents (rp_files plan) raw_plan_steps) (rp_end plan) (capacity / unit).
Proof.
  unfold is_u32, is_u64. intros Hcap Hunit Hfirst. unfold ldtm_raw_plan.
  destruct (_ || _) eqn:E; [done|]. breflect.
  assert (Hu0 : 0 < unit) by lia.
  assert (capacity / unit <= capacity) by (apply Z.div_le_upper_bound; nia).
  destruct (raw_plan_loop _ _ _ _ _ _) as [[last items]|] eqn:Hl; [|done]. intros [= <-].
  apply raw_plan_loop_sound in Hl as (L1 & _ & _ & L4 & L5);
    [|done|done|unfold is_u32; lia|lia|apply raw_plan_steps_nodup
     |apply Forall_forall; intros [se f] Hin; apply list_elem_of_In, raw_plan_steps_in in Hin; by rewrite repeat_length].
  rewrite repeat_length in L1. cbn [rp_capacity rp_unit rp_files rp_end]. split_and!; try done.
  rewrite Forall_forall in L4. intros file Hf. cbv zeta. split.
  - by apply (L4 (false, file)), list_elem_of_In, raw_plan_steps_in.
  - intros second. destruct (L4 (second, file)) as (L6 & L7 & _);
      [by apply list_elem_of_In, raw_plan_steps_in|done].
Qed.

Lemma planned_count_total spec unit file :
  0 < unit -> is_u32 unit ->
  let bytes := ldtm_raw_file_bytes (Some spec) file in
  let c0 := planned_count spec unit false file in
  let c1 := planned_count spec unit true file in
  0 <= c0 /\ 0 <= c1 /\ bytes <= (c0 + c1) * unit /\ (0 < bytes -> (c0 + c1 - 1) * unit < bytes) /\
  (bytes = 0 -> c0 + c1 = 0) /\ (unit < bytes -> 0 < c0 /\ 0 < c1).
Proof.
  intros H0 Hu. cbv zeta. unfold planned_count.
  pose proof (raw_file_bytes_range (Some spec) file) as Hb.
  pose proof (raw_units_spec _ unit Hb H0 Hu) as Hr. cbv zeta in Hr.
  assert (0 <= raw_units (ldtm_raw_file_bytes (Some spec) file) unit) as Hn by lia.
  pose proof (first_half_spec _ Hn). split_and!; try nia.
Qed.

(** Two bytes of the corpus never share an address. *)
Lemma item_address_inj spec capacity unit first plan f f' l l' :
  0 <= capacity <= INT64_MAX -> is_u32 unit -> is_u64 first ->
  ldtm_raw_plan (Some spec) capacity unit first = Some plan ->
  (f < LDTM_RAW_FILES)%nat -> (f' < LDTM_RAW_FILES)%nat ->
  let item := item_at (rp_files plan) f in
  let item' := item_at (rp_files plan) f' in
  0 <= l < item_span unit item -> 0 <= l' < item_span unit item' ->
  item_address unit item l = item_address unit item' l' -> f = f' /\ l = l'.
Proof.
  intros Hcap Hunit Hfirst Hplan Hf Hf' item item' Hl Hl' Ha.
  apply raw_plan_result in Hplan as (Hu & _ & _ & _ & _ & Hit & Hch); [|done..].
  assert (Hloc : forall f l, (f < LDTM_RAW_FILES)%nat -> let it := item_at (rp_files plan) f in
    0 <= l < item_span unit it -> exists second, let e := raw_part it second in
    0 <= snd e /\ snd e <> 0 /\ exists k, 0 <= k < snd e * unit /\ item_address unit it l = fst e * unit + k /\
    l = k + (if second : bool then snd (raw_part it false) * unit else 0)).
  { clear - Hit Hu Hunit. intros f l Hf it Hl. destruct (Hit f Hf) as [_ Hc].
    pose proof (planned_count_total spec unit f Hu Hunit) as Ht. cbv zeta in Ht.
    unfold item_span, item_address in *. pose proof (proj1 (Hc false)) as H0. pose proof (proj1 (Hc true)) as H1.
    fold it in H0, H1. destruct (raw_part it false) as [s0 c0] eqn:E0.
    destruct (raw_part it true) as [s1 c1] eqn:E1. cbn [fst snd] in *. subst c0 c1.
    destruct (Z.ltb_spec l (planned_count spec unit false f * unit)).
    - exists false. cbv zeta. rewrite E0. cbn [fst snd]. split_and!; [lia|nia|].
      exists l. split_and!; lia.
    - exists true. cbv zeta. rewrite E1. cbn [fst snd]. split_and!; [lia|nia|].
      exists (l - planned_count spec unit false f * unit). split_and!; nia. }
  destruct (Hloc f l Hf Hl) as (se & Hp & Hne & k & Hk & E & El).
  destruct (Hloc f' l' Hf' Hl') as (se' & Hp' & Hne' & k' & Hk' & E' & El').
  fold item in Hp, Hne, Hk, E, El. fold item' in Hp', Hne', Hk', E', El'.
  destruct (decide ((se, f) = (se', f'))) as [[= <- <-]|Hd].
  - split; [done|]. change item' with item in *. lia.
  - exfalso. pose proof (chained_separated _ _ _ _ _ (se, f) (se', f') Hch) as Hs.
    rewrite !raw_plan_steps_in in Hs. specialize (Hs Hf Hf' Hd Hne Hne').
    cbn [fst snd] in Hs. fold item item' in Hs. unfold separated in Hs.
    rewrite E, E' in Ha. nia.
Qed.

Lemma Z_sub_cancel_l a b c : a - b = a - c -> b = c.
Proof. lia. Qed.

(** ** Lemmas: CRC-32C *)

Lemma u32_bit_high x : is_u32 x -> Z.testbit x 32 = false.
Proof. intros [? ?]. apply Z.testbit_false; [lia|]. rewrite Z.div_small by lia. done. Qed.

Lemma land_1_bit0 x : Z.land x 1 = Z.b2z (Z.testbit x 0).
Proof.
  apply Z.bits_inj'. intros n Hn. rewrite Z.land_spec.
  destruct (Z.eq_dec n 0) as [->|]; [by rewrite Z.b2z_bit0, andb_true_r|].
  change 1 with (Z.ones 1). rewrite Z.ones_spec_high by lia. rewrite andb_false_r.
  destruct (Z.testbit x 0); simpl; [by rewrite (Z.bits_above_log2 1) by (simpl; lia)|by rewrite Z.bits_0].
Qed.

Lemma crc32c_bit_testbit x n : is_u32 x -> 0 <= n ->
  Z.testbit (crc32c_bit x) n =
    xorb (Z.testbit x (n + 1)) (Z.testbit x 0 && Z.testbit 2197175160 n).
Proof.
  intros Hx Hn. unfold crc32c_bit. rewrite Z.lxor_spec, Z.shiftr_spec by done. f_equal.
  rewrite land_1_bit0. destruct (Z.testbit x 0); simpl; [done|by rewrite Z.bits_0].
Qed.

Lemma lxor_u32 a b : is_u32 a -> is_u32 b -> is_u32 (Z.lxor a b).
Proof.
  intros [Ha Ha'] [Hb Hb']. split; [by apply Z.lxor_nonneg|].
  destruct (Z.eq_dec (Z.lxor a b) 0) as [->|Hn]; [done|].
  assert (0 < Z.lxor a b) by (pose proof (proj2 (Z.lxor_nonneg a b) (conj (fun _ => Hb) (fun _ => Ha))); lia).
  apply (Z.log2_lt_pow2 (Z.lxor a b) 32); [lia|].
  pose proof (Z.log2_lxor a b Ha Hb).
  assert (forall y, 0 <= y < TWO32 -> Z.log2 y < 32).
  { intros y Hy. destruct (Z.eq_dec y 0) as [->|]; [done|]. apply Z.log2_lt_pow2; lia. }
  pose proof (H1 a). pose proof (H1 b). lia.
Qed.

Lemma crc32c_bit_range x : is_u32 x -> is_u32 (crc32c_bit x).
Proof.
  intros [H1 H2]. unfold crc32c_bit. apply lxor_u32.
  - split; [by apply Z.shiftr_nonneg|]. rewrite Z.shiftr_div_pow2 by lia.
    apply Z.div_lt_upper_bound; lia.
  - by destruct (negb _).
Qed.

(** The bit step is a permutation of the 32-bit values: the polynomial has the
    top bit, so the bit shifted out can be read back. *)
Lemma crc32c_bit_inj x y : is_u32 x -> is_u32 y -> crc32c_bit x = crc32c_bit y -> x = y.
Proof.
  intros Hx Hy E.
  assert (Hb : forall n, 0 <= n -> xorb (Z.testbit x (n + 1)) (Z.testbit x 0 && Z.testbit 2197175160 n)
    = xorb (Z.testbit y (n + 1)) (Z.testbit y 0 && Z.testbit 2197175160 n))
    by (intros; by rewrite <- !crc32c_bit_testbit, E).
  assert (H0 : Z.testbit x 0 = Z.testbit y 0).
  { specialize (Hb 31 ltac:(lia)). change (31 + 1) with 32 in Hb.
    rewrite !u32_bit_high in Hb by done. change (Z.testbit 2197175160 31) with true in Hb.
    rewrite !andb_true_r in Hb. by destruct (Z.testbit x 0), (Z.testbit y 0). }
  apply Z.bits_inj'. intros n Hn. destruct (Z.eq_dec n 0) as [->|]; [done|].
  specialize (Hb (n - 1) ltac:(lia)). replace (n - 1 + 1) with n in Hb by lia. rewrite H0 in Hb.
  destruct (Z.testbit x n), (Z.testbit y n), (Z.testbit y 0 && _); done.
Qed.

Lemma crc32c_iter_range k z : is_u32 z -> is_u32 (Nat.iter k crc32c_bit z).
Proof. intros Hz. induction k; [done|by apply crc32c_bit_range]. Qed.

Lemma crc32c_iter_inj k x y :
  is_u32 x -> is_u32 y -> Nat.iter k crc32c_bit x = Nat.iter k crc32c_bit y -> x = y.
Proof.
  intros Hx Hy. induction k as [|k IH]; simpl; [done|].
  intros E. apply IH, crc32c_bit_inj; [by apply crc32c_iter_range..|done].
Qed.

Lemma crc32c_byte_range crc b : is_u32 crc -> is_u8 b -> is_u32 (crc32c_byte crc b).
Proof.
  intros Hc [? ?]. unfold crc32c_byte.
  assert (is_u32 (Z.lxor crc b)) as H' by (apply lxor_u32; [done|split; lia]).
  by apply crc32c_iter_range.
Qed.

Lemma crc32c_byte_inj crc crc' b b' :
  is_u32 crc -> is_u32 crc' -> is_u8 b -> is_u8 b' ->
  crc32c_byte crc b = crc32c_byte crc' b' -> Z.lxor crc b = Z.lxor crc' b'.
Proof.
  intros Hc Hc' [? ?] [? ?]. unfold crc32c_byte. apply crc32c_iter_inj; apply lxor_u32; try done; split; lia.
Qed.

Lemma lxor_cancel_r a a' b : Z.lxor a b = Z.lxor a' b -> a = a'.
Proof.
  intros E. apply (f_equal (fun z => Z.lxor z b)) in E.
  by rewrite !Z.lxor_assoc, Z.lxor_nilpotent, !Z.lxor_0_r in E.
Qed.

(** A fold keeps an invariant of its state, and is injective in its state when
    every step is. *)
Lemma fold_left_inv {A B} (f : A -> B -> A) (I : A -> Prop) (P : B -> Prop) l a :
  (forall a b, I a -> P b -> I (f a b)) -> Forall P l -> I a -> I (fold_left f l a).
Proof. intros Hf Hl. revert a. induction Hl; simpl; auto. Qed.

Lemma fold_left_inj {A B} (f : A -> B -> A) (I : A -> Prop) (P : B -> Prop) l a a' :
  (forall a b, I a -> P b -> I (f a b)) ->
  (forall a a' b, I a -> I a' -> P b -> f a b = f a' b -> a = a') ->
  Forall P l -> I a -> I a' -> fold_left f l a = fold_left f l a' -> a = a'.
Proof. intros Hf Hi Hl. revert a a'. induction Hl; simpl; eauto. Qed.

Lemma fold_left_change {A B} (f : A -> B -> A) (I : A -> Prop) (P : B -> Prop) l b b' l' a :
  (forall a b, I a -> P b -> I (f a b)) ->
  (forall a a' b, I a -> I a' -> P b -> f a b = f a' b -> a = a') ->
  (forall a b b', I a -> P b -> P b' -> f a b = f a b' -> b = b') ->
  Forall P l -> P b -> P b' -> Forall P l' -> I a ->
  fold_left f (l ++ b :: l') a = fold_left f (l ++ b' :: l') a -> b = b'.
Proof.
  intros Hf Hi Hb Hl Pb Pb' Hl' Ha E. rewrite !fold_left_app in E. simpl in E.
  assert (I (fold_left f l a)) by (apply (fold_left_inv f I P); auto).
  eapply Hb; [..|eapply fold_left_inj; [exact Hf|exact Hi|exact Hl'|..|exact E]]; eauto.
Qed.

Lemma crc32c_byte_cancel crc crc' b :
  is_u32 crc -> is_u32 crc' -> is_u8 b -> crc32c_byte crc b = crc32c_byte crc' b -> crc = crc'.
Proof. intros Hc Hc' Hb E. exact (lxor_cancel_r _ _ _ (crc32c_byte_inj _ _ _ _ Hc Hc' Hb Hb E)). Qed.

Lemma crc32c_byte_inj_r crc b b' :
  is_u32 crc -> is_u8 b -> is_u8 b' -> crc32c_byte crc b = crc32c_byte crc b' -> b = b'.
Proof.
  intros Hc Hb Hb' E. pose proof (crc32c_byte_inj _ _ _ _ Hc Hc Hb Hb' E) as E'.
  rewrite !(Z.lxor_comm crc) in E'. exact (lxor_cancel_r _ _ _ E').
Qed.

(** ** Lemmas: the fixture dispatcher *)

Lemma raw_zero_block_spec :
  Forall (fun b => b = 0) raw_zero_block /\ Z.of_nat (length raw_zero_block) = RAW_BUFFER.
Proof.
  unfold raw_zero_block. split; [by apply Forall_forall, repeat_spec|].
  rewrite repeat_length. by apply Z2Nat.id.
Qed.

Section Fixture.
Context (spec : LdtmFilesystemSpec) (path : string) (create : bool).

Definition gate_events : list (event rawE) :=
  match (if create then fixture_gate spec else None) with
  | Some (q, _) => [Event (RawQuery q) true]
  | None => []
  end.

(** The gate answered, the verified target was opened as [fd] and has exactly
    the size of the slot. *)
Definition slot_opened (t : list (event rawE)) (fd bytes : Z) : Prop :=
  bytes = size_mib spec * LDTM_MIB /\ 0 < bytes /\
  exists rest, t = gate_events ++ [Event (OpenVerified path create) (Ok fd);
                                   Event (FdSizeBytes fd) (Ok bytes)] ++ rest.

(** What the dispatcher may do after the history [t]. *)
Definition fixture_allowed (t : list (event rawE)) (X : Type) (e : rawE X) : Prop :=
  match e with
  | RawQuery q => t = [] /\ create = true /\ fst <$> fixture_gate spec = Some q
  | OpenVerified p w => p = path /\ w = create /\ t = gate_events
  | RawPwrite fd off data =>
      create = true /\ Forall (fun b => b = 0) data /\ exists bytes, slot_opened t fd bytes /\
      0 <= off /\ off + Z.of_nat (length data) <= bytes /\
      (off + Z.of_nat (length data) <= LDTM_MIB \/ bytes - LDTM_MIB <= off)
  | RawCodec c s p w =>
      s = spec /\ p = path /\ w = create /\ fixture_codec spec = Some c /\
      exists fd bytes t', slot_opened t fd bytes /\ t = t' ++ [Event (RawClose fd) (Ok tt)]
  | FdSizeBytes _ | RawClose _ => True
  | RawPread _ _ _ | RawFsync _ => False
  end.

Lemma slot_opened_app t fd bytes evs : slot_opened t fd bytes -> slot_opened (t ++ evs) fd bytes.
Proof.
  intros (H1 & H2 & rest & ->). split_and!; [done..|]. exists (rest ++ evs).
  by rewrite <- !app_assoc.
Qed.

Lemma fixture_erase_wp (Q : outcome bool -> list (event rawE) -> Prop) n fd bytes offset valid t :
  create = true -> is_u32 (size_mib spec) -> (valid = true -> slot_opened t fd bytes) ->
  0 <= offset -> offset + Z.of_nat n * RAW_BUFFER <= LDTM_MIB ->
  (forall valid t, (valid = true -> slot_opened t fd bytes) -> Q (Returned valid) t) ->
  wp fixture_allowed Q (fixture_erase n fd bytes offset valid) t.
Proof.
  intros Hcr Hsz Hv Ho Hn HQ. revert offset valid t Hv Ho Hn.
  induction n as [|n IH]; intros offset valid t Hv Ho Hn; [by apply HQ|].
  cbn [fixture_erase]. destruct valid; [|by apply HQ]. specialize (Hv eq_refl).
  destruct raw_zero_block_spec as [Hz Hlz]. generalize dependent raw_zero_block. intros zero Hz Hlz.
  assert (Hb : bytes = size_mib spec * LDTM_MIB /\ 0 < bytes) by (destruct Hv as (? & ? & _); done).
  assert (LDTM_MIB <= bytes < TWO64) as Hb'
    by (unfold is_u32, LDTM_MIB in *; destruct Hb as [-> ?]; nia).
  assert (Hoff : bytes -64 LDTM_MIB +64 offset = bytes - LDTM_MIB + offset)
    by (unfold RAW_BUFFER in *; unwrap64; done).
  simpl wp. split.
  { rewrite Hlz. split_and!; try done. exists bytes. unfold RAW_BUFFER in *. split_and!; [done|lia..]. }
  intros a. destruct (is_ok a).
  - simpl wp. rewrite Hoff. split.
    { rewrite Hlz. split_and!; try done. exists bytes. unfold RAW_BUFFER in *.
      split_and!; [by apply slot_opened_app|lia..]. }
    intros b. apply IH; [intros; by do 2 apply slot_opened_app|unfold RAW_BUFFER in *; lia..].
  - apply IH; [done|unfold RAW_BUFFER in *; lia..].
Qed.

Lemma fixture_run_wp codec :
  is_u32 (size_mib spec) -> fixture_codec spec = Some codec ->
  wp fixture_allowed (fun o t => forall r, o = Returned r -> r = 0 ->
      exists t', t = t' ++ [Event (RawCodec codec spec path create) 0])
    (fixture_run codec spec path create) gate_events.
Proof.
  intros Hsz Hcodec. unfold fixture_run.
  assert (Hn : 0 + Z.of_nat (Z.to_nat (LDTM_MIB / RAW_BUFFER)) * RAW_BUFFER <= LDTM_MIB) by done.
  revert Hn. generalize (Z.to_nat (LDTM_MIB / RAW_BUFFER)) as n. intros n Hn.
  apply wp_bind. unfold ldtm_raw_open. simpl.
  assert (Hfail : forall t r, Returned (-1) = Returned r -> r = 0 ->
    exists t' : list (event rawE), t = t' ++ [Event (RawCodec codec spec path create) 0])
    by (by intros t r [= <-]).
  split; [done|]. intros [fd|e]; simpl; [|apply Hfail].
  split; [done|]. intros [bytes|e]; simpl; [|split; [done|intros; by eapply Hfail]].
  destruct (Z.eqb_spec bytes 0) as [Hb|Hb]; simpl; [split; [done|intros; by eapply Hfail]|].
  set (t := _ ++ [Event (FdSizeBytes fd) (Ok bytes)]).
  assert (Hopen : (bytes =? size_mib spec *64 LDTM_MIB) = true -> slot_opened t fd bytes).
  { intros H%Z.eqb_eq. unfold is_u32, LDTM_MIB in *. rewrite u64_small in H by (unfold is_u64; nia).
    split_and!; [done|nia|]. exists []. unfold t. by rewrite <- app_assoc. }
  assert (Hend : forall valid t, (valid = true -> slot_opened t fd bytes) ->
    wp fixture_allowed (fun o t => forall r, o = Returned r -> r = 0 ->
      exists t', t = t' ++ [Event (RawCodec codec spec path create) 0])
      (let* c := call (RawClose fd) in
       if valid && is_ok c then call (RawCodec codec spec path create) else Ret (-1)) t).
  { intros valid t' Hv. simpl. split; [done|]. intros c.
    destruct valid; [|by intros ? [= <-]]. destruct c as [[]|e]; [|by intros ? [= <-]].
    simpl. split; [|intros x r [= <-] ->; by eexists]. split_and!; try done.
    exists fd, bytes, t'. split; [by apply slot_opened_app, Hv|done]. }
  apply wp_bind. destruct (create && erases_signatures spec) eqn:E; [|by apply Hend].
  apply andb_true_iff in E as [E _].
  apply fixture_erase_wp; [done|done|done|lia|exact Hn|exact Hend].
Qed.
End Fixture.

Lemma disk_after_fsync fd t fd' x disk :
  disk_after fd (t ++ [Event (RawFsync fd') x]) disk = disk_after fd t disk.
Proof. revert disk. induction t as [|[X e y] t IH]; intros disk; simpl; auto. Qed.

(** ** A medium that accepts every write *)

Lemma raw_write_part_succeeds fuel fd bytes file logical physical remaining :
  0 <= remaining <= RAW_BUFFER * (Z.of_nat fuel - 1) ->
  exists t l, runs (raw_write_part fuel fd bytes file logical physical remaining) t
    (Returned (Some l)).
Proof.
  revert logical physical remaining. induction fuel as [|fuel IH]; intros logical physical remaining H;
    [unfold RAW_BUFFER in *; lia|]. cbn [raw_write_part].
  destruct (Z.eqb_spec remaining 0) as [->|Hn]; [eexists _, _; constructor|].
  set (chunk := raw_chunk _ _ _ _).
  destruct (IH (logical +64 Z.min remaining RAW_BUFFER) (physical +64 Z.min remaining RAW_BUFFER)
    (remaining - Z.min remaining RAW_BUFFER)) as (t & l & Hr); [unfold RAW_BUFFER in *; lia|].
  exists (Event (RawPwrite fd physical chunk) (Ok tt) :: t), l. by apply runs_vis.
Qed.

Lemma raw_write_payload_succeeds fd plan :
  exists t, runs (ldtm_raw_write_payload fd plan) t (Returned (Some (Ok tt))).
Proof.
  unfold ldtm_raw_write_payload.
  assert (H : forall items file, exists t, runs (raw_write_files fd (rp_unit plan) file items) t
    (Returned true)).
  { induction items as [|item items IH]; intros file; [by eexists; constructor|]. cbn [raw_write_files].
    destruct (IH (S file)) as [t Ht].
    assert (Hpart : forall logical start count, exists t l,
      runs (raw_write_part (Z.to_nat (u64 (count * rp_unit plan) / RAW_BUFFER + 2)) fd (rf_bytes item)
        file logical start (u64 (count * rp_unit plan))) t (Returned (Some l))).
    { intros. apply raw_write_part_succeeds. pose proof (u64_range (count * rp_unit plan)) as [? ?].
      split; [done|]. by apply raw_fuel_enough. }
    unfold raw_write_file.
    destruct (Hpart 0 (u64 (fst (rf_start item) * rp_unit plan)) (fst (rf_count item))) as (t1 & l1 & H1).
    destruct (Hpart l1 (u64 (snd (rf_start item) * rp_unit plan)) (snd (rf_count item))) as (t2 & l2 & H2).
    eexists. eapply runs_bind; [eapply runs_bind; [exact H1|exact H2]|exact Ht]. }
  destruct (H (rp_files plan) O) as [t Ht]. eexists. eapply runs_bind; [exact Ht|].
  apply (runs_vis _ _ _ (Ok tt)). constructor.
Qed.

Definition demo_spec : LdtmFilesystemSpec :=
  mkSpec "ext2" "LD_EXT2" 2048 200 LDTM_CREATOR_EXT2 "".

(** ** A medium that holds the corpus passes *)

Lemma raw_check_loop_accepts fuel check fd file physical logical bytes :
  0 <= bytes <= RAW_BUFFER * (Z.of_nat fuel - 1) ->
  exists t c, runs (raw_check_loop fuel check fd file physical logical bytes) t (Returned (c, true)).
Proof.
  revert check physical logical bytes. induction fuel as [|fuel IH]; intros check physical logical bytes H;
    [unfold RAW_BUFFER in *; lia|]. cbn [raw_check_loop].
  destruct (Z.eqb_spec bytes 0) as [->|Hn]; [eexists _, _; constructor|]. cbv zeta.
  set (take := Z.min bytes RAW_BUFFER).
  destruct (IH (mkCheck (rc_spec check) (rc_seen check) (alter (fun d => d +64 take) file (rc_done check)))
    (physical +64 take) (logical +64 take) (bytes - take)) as (t & c & Hr);
    [unfold take, RAW_BUFFER in *; lia|].
  exists (Event (RawPread fd physical take) (Ok (ldtm_raw_payload take file logical)) :: t), c.
  apply runs_vis. cbn [pbind]. rewrite bool_decide_eq_true_2 by done. exact Hr.
Qed.

(** The declarations of [files], none repeated. *)
Fixpoint declare_all (files : list nat) (seen : Z) : option Z :=
  match files with
  | [] => Some seen
  | f :: files => if Z.land seen (file_bit f) =? 0
                  then declare_all files (Z.lor seen (file_bit f)) else None
  end.

Lemma full_check_accepts spec files check seen' :
  Forall (fun f => (f < LDTM_RAW_FILES)%nat /\ nth f (rc_done check) 0 = 0) files -> NoDup files ->
  rc_spec check = spec -> length (rc_done check) = LDTM_RAW_FILES ->
  declare_all files (rc_seen check) = Some seen' ->
  exists t c, runs (run_checks (flat_map (fun file => [CheckFile file (ldtm_raw_file_bytes spec file);
      CheckData 5 file 0 0 (ldtm_raw_file_bytes spec file)]) files) check) t (Returned c) /\
    rc_spec c = spec /\ rc_seen c = seen' /\
    forall f, nth f (rc_done c) 0 = if decide (f ∈ files) then ldtm_raw_file_bytes spec f
                                    else nth f (rc_done check) 0.
Proof.
  revert check. induction files as [|f files IH]; intros check Hf Hnd Hs Hl Hd.
  { injection Hd as <-. eexists _, check. split; [constructor|]. split_and!; try done. }
  apply Forall_cons_iff in Hf as [[Hf0 Hz] Hf]. inversion_clear Hnd as [|? ? Hnin Hnd'].
  cbn [declare_all] in Hd. destruct (Z.land (rc_seen check) (file_bit f) =? 0) eqn:E; [|done].
  assert (Hfile : ldtm_raw_check_file check f (ldtm_raw_file_bytes spec f) =
    (mkCheck spec (Z.lor (rc_seen check) (file_bit f)) (rc_done check), true)).
  { unfold ldtm_raw_check_file. rewrite Hs, Z.eqb_refl, E. by rewrite (proj2 (Nat.leb_gt _ _)). }
  set (c0 := mkCheck spec (Z.lor (rc_seen check) (file_bit f)) (rc_done check)) in *.
  pose proof (raw_file_bytes_range spec f) as Hb.
  assert (Hdata : exists t1 c1, runs (ldtm_raw_check_data c0 5 f 0 0 (ldtm_raw_file_bytes spec f)) t1
    (Returned (c1, true))).
  { unfold ldtm_raw_check_data. unfold c0. cbn [rc_done rc_spec]. rewrite Hz, (proj2 (Nat.leb_gt _ _)) by done.
    rewrite (proj2 (Z.ltb_ge _ _)), (proj2 (Z.ltb_ge _ _)) by lia. cbv beta iota zeta delta [orb negb Z.eqb].
    apply raw_check_loop_accepts. split; [lia|]. apply raw_fuel_enough. lia. }
  destruct Hdata as (t1 & c1 & Hr1).
  pose proof Hr1 as Hr2. apply raw_check_data_runs in Hr2 as [[_ ?]|
    (_ & _ & _ & c' & ok & [= <- <-] & D1 & D2 & D3 & D4 & _ & _ & D7)]; [done| |lia|done|unfold c0; cbn [rc_done]; by rewrite Hz].
  unfold c0 in D1, D2, D3, D4. cbn [rc_seen rc_spec rc_done] in D1, D2, D3, D4.
  destruct (IH c1) as (t2 & c2 & Hr & R1 & R2 & R3); try done; [|congruence|congruence|].
  { apply Forall_forall. intros g Hg. rewrite Forall_forall in Hf. destruct (Hf g Hg) as [Hg1 Hg2].
    split; [done|]. rewrite D4; [done|]. intros ->. by apply Hnin, list_elem_of_In. }
  exists (t1 ++ t2), c2. split.
  { cbn [flat_map app run_checks]. rewrite Hfile. eapply runs_bind; [exact Hr1|exact Hr]. }
  split_and!; [done|done|]. intros g. rewrite R3. destruct (decide (g = f)) as [->|Hg].
  - rewrite decide_False by done. rewrite decide_True by left. rewrite D7. lia.
  - rewrite D4 by done. destruct (decide (g ∈ files)) as [H|H].
    + by rewrite decide_True by (by right).
    + rewrite decide_False; [done|]. by intros [?|?]%elem_of_cons.
Qed.

(** A codec that declares and verifies the whole corpus. *)
Definition full_check_ops (spec : option LdtmFilesystemSpec) : list check_op :=
  flat_map (fun file => [CheckFile file (ldtm_raw_file_bytes spec file);
                         CheckData 5 file 0 0 (ldtm_raw_file_bytes spec file)])
    (List.seq 0 LDTM_RAW_FILES).

(** ** Properties *)

(** [ldtm_raw_plan] places the corpus safely and fragmented: every extent
    it uses lies between the first unit and the end of the medium, any two
    extents are at least two units apart, each file's two parts hold its bytes
    in the fewest units, and a file larger than one unit is really split. *)
Theorem raw_plan_fragments_safely spec capacity unit first plan :
  0 <= capacity <= INT64_MAX -> is_u32 unit -> is_u64 first ->
  ldtm_raw_plan (Some spec) capacity unit first = Some plan ->
  rp_capacity plan = capacity /\ rp_unit plan = unit /\ length (rp_files plan) = LDTM_RAW_FILES /\
  let part st := raw_part (item_at (rp_files plan) (snd st)) (fst st) in
  (forall st, (snd st < LDTM_RAW_FILES)%nat -> snd (part st) <> 0 ->
     0 < snd (part st) /\ first <= fst (part st) /\ fst (part st) + snd (part st) <= capacity / unit) /\
  (forall st st', (snd st < LDTM_RAW_FILES)%nat -> (snd st' < LDTM_RAW_FILES)%nat -> st <> st' ->
     snd (part st) <> 0 -> snd (part st') <> 0 ->
     separated (part st) (part st') \/ separated (part st') (part st)) /\
  (forall file, (file < LDTM_RAW_FILES)%nat ->
     let bytes := ldtm_raw_file_bytes (Some spec) file in
     let units := snd (part (false, file)) + snd (part (true, file)) in
     rf_bytes (item_at (rp_files plan) file) = bytes /\
     bytes <= units * unit /\ (0 < bytes -> (units - 1) * unit < bytes) /\
     (bytes = 0 -> units = 0) /\
     (unit < bytes -> 0 < snd (part (false, file)) /\ 0 < snd (part (true, file)))).
Proof.
  intros Hcap Hunit Hfirst Hplan.
  apply raw_plan_result in Hplan as (Hu & _ & H1 & H2 & H3 & Hit & Hch); [|done..].
  split; [done|]. split; [done|]. split; [done|]. intros part. unfold part. split_and!.
  - intros [se f] Hf. by apply (chained_bounds _ _ _ _ _ _ Hch), raw_plan_steps_in.
  - intros [se f] [se' f'] Hf Hf' Hne. apply (chained_separated _ _ _ _ _ _ _ Hch); [..|done];
      by apply raw_plan_steps_in.
  - intros f Hf. destruct (Hit f Hf) as [Hb Hc]. cbv zeta. rewrite Hb. cbn [fst snd].
    rewrite !(fun se => proj1 (Hc se)). pose proof (planned_count_total spec unit f Hu Hunit) as Ht. cbv zeta in Ht.
    split; [done|]. tauto.
Qed.

Lemma raw_plan_fragments_safely_witness :
  exists plan, ldtm_raw_plan (Some demo_spec) 2147483648 4096 100 = Some plan /\
    length (rp_files plan) = LDTM_RAW_FILES.
Proof.
  destruct (ldtm_raw_plan (Some demo_spec) 2147483648 4096 100) as [plan|] eqn:E;
    [|vm_compute in E; discriminate]. exists plan. split; [done|].
  eapply (raw_plan_fragments_safely demo_spec 2147483648 4096 100 plan);
    [lia|vm_decide|vm_decide|exact E].
Defined.

(** The payload oracle is position independent: any slice of a file's
    payload, however it is cut into reads, is the sequence of that file's bytes
    at those offsets. *)
Theorem raw_payload_position_independent bytes file logical :
  0 <= bytes -> 0 <= logical -> logical + bytes <= TWO64 ->
  ldtm_raw_payload bytes file logical = map (raw_byte file) (seqZ logical bytes) /\
  forall cut, 0 <= cut <= bytes -> logical + cut < TWO64 ->
    ldtm_raw_payload bytes file logical =
      ldtm_raw_payload cut file logical ++ ldtm_raw_payload (bytes - cut) file (logical + cut).
Proof.
  intros Hb Hl Ht. split; [by apply raw_payload_spec|]. intros cut Hc Hcl.
  rewrite !raw_payload_spec by lia. rewrite <- map_app, <- seqZ_app by lia.
  by replace (cut + (bytes - cut)) with bytes by lia.
Qed.

Lemma raw_payload_position_independent_witness :
  ldtm_raw_payload 20 3 4090 = map (raw_byte 3) (seqZ 4090 20) /\
  forall cut, 0 <= cut <= 20 -> 4090 + cut < TWO64 ->
    ldtm_raw_payload 20 3 4090 =
      ldtm_raw_payload cut 3 4090 ++ ldtm_raw_payload (20 - cut) 3 (4090 + cut).
Proof. apply raw_payload_position_independent; lia. Defined.

(** C39: After [ldtm_raw_write_payload] succeeds, the medium holds the corpus
    where the plan says: the byte of every file at every offset is at its
    address, the rest of the file's units is zero, whatever the medium held
    before and in whatever order the extents were written. *)
Theorem corpus_written_exactly spec capacity unit first plan fd t s disk :
  0 <= capacity <= INT64_MAX -> is_u32 unit -> is_u64 first ->
  ldtm_raw_plan (Some spec) capacity unit first = Some plan ->
  runs (ldtm_raw_write_payload fd plan) t (Returned (Some s)) ->
  forall file l, (file < LDTM_RAW_FILES)%nat ->
    let item := item_at (rp_files plan) file in
    0 <= l < item_span unit item ->
    disk_after fd t disk (item_address unit item l) =
      Some (if l <? ldtm_raw_file_bytes (Some spec) file then raw_byte file l else 0).
Proof.
  intros Hcap Hunit Hfirst Hplan Hrun file l Hf item Hl.
  pose proof (item_address_inj spec capacity unit first plan) as Hinj.
  pose proof (raw_plan_result _ _ _ _ _ Hcap Hunit Hfirst Hplan)
    as (Hu & Hlt & _ & Hun & Hlen & Hit & Hch).
  unfold is_u64 in Hfirst. assert (Hlim : capacity / unit * unit <= capacity)
    by (rewrite Z.mul_comm; apply Z.mul_div_le; lia).
  assert (Hb : Forall (item_bounded (capacity / unit)) (rp_files plan)).
  { apply Forall_forall. intros it Hin. apply In_nth with (d := mkRawFile 0 (0, 0) (0, 0)) in Hin
      as (f & Hf' & <-). rewrite Hlen in Hf'. fold (item_at (rp_files plan) f).
    destruct (Hit f Hf') as [Hbytes Hc]. split; [rewrite Hbytes; apply raw_file_bytes_range|].
    intros second. pose proof (planned_count_range spec unit second f Hu Hunit).
    destruct (Hc second) as [Hs0 Hz]. pose proof (chained_bounds _ _ _ _ _ (second, f) Hch) as Hbd.
    rewrite raw_plan_steps_in in Hbd. specialize (Hbd Hf'). cbn [fst snd] in Hbd.
    destruct (Z.eq_dec (planned_count spec unit second f) 0) as [E|E].
    - rewrite Hs0, (Hz E), E. unfold LDTM_RAW_FILES in *. lia.
    - rewrite Hs0 in *. specialize (Hbd E). lia. }
  unfold ldtm_raw_write_payload in Hrun.
  apply pbind_runs in Hrun as [(m & _ & ?)|(ok & t1 & t2 & -> & Hw & Hrun)]; [done|].
  destruct ok; [|by apply runs_inv in Hrun as [_ ?]].
  apply runs_inv in Hrun as (x & t' & -> & Hrun). apply runs_inv in Hrun as [-> _].
  rewrite Hun in Hw. apply raw_write_files_spec with (limit := capacity / unit) in Hw
    as (ok & [= <-] & W & D); [|lia|done|lia|lia|done].
  assert (Hlook : forall f, (f < LDTM_RAW_FILES)%nat ->
    rp_files plan !! f = Some (item_at (rp_files plan) f)).
  { intros f Hf'. unfold item_at. rewrite nth_lookup.
    destruct (lookup_lt_is_Some_2 (rp_files plan) f) as [it E]; [by rewrite Hlen|]. by rewrite E. }
  rewrite disk_after_fsync. specialize (D eq_refl file item l (Hlook _ Hf) Hl).
  destruct (disk_after_spec fd _ t1 disk _ _ W D) as (v & -> & k & it & l' & Hk & Hl' & Ha & ->).
  pose proof (lookup_lt_Some _ _ _ Hk) as Hkl. rewrite Hlen in Hkl.
  assert (it = item_at (rp_files plan) k) as -> by (rewrite (Hlook _ Hkl) in Hk; congruence).
  destruct (Hinj file k l l' Hcap Hunit Hfirst Hplan Hf Hkl Hl Hl' Ha) as [<- <-].
  simpl. unfold owed. by rewrite (proj1 (Hit file Hf)).
Qed.

Lemma corpus_written_exactly_witness :
  exists plan t, ldtm_raw_plan (Some demo_spec) 2147483648 4096 100 = Some plan /\
    forall l, 0 <= l < item_span 4096 (item_at (rp_files plan) 3) ->
    disk_after 5 t (fun _ => None) (item_address 4096 (item_at (rp_files plan) 3) l) =
      Some (if l <? ldtm_raw_file_bytes (Some demo_spec) 3 then raw_byte 3 l else 0).
Proof.
  destruct (ldtm_raw_plan (Some demo_spec) 2147483648 4096 100) as [plan|] eqn:E;
    [|vm_compute in E; discriminate].
  destruct (raw_write_payload_succeeds 5 plan) as [t Ht]. exists plan, t. split; [done|].
  intros l Hl. apply (corpus_written_exactly demo_spec 2147483648 4096 100 plan 5 t (Ok tt));
    [lia|vm_decide|vm_decide|exact E|exact Ht|vm_decide|exact Hl].
Defined.

(** Verification cannot pass on unread or unequal data: after any sequence
    of declarations and comparisons, whatever the calling codec does with their
    answers, [ldtm_raw_check_finish] accepts only if every one of the sixteen
    files was declared with its exact length and every byte of it was read from
    the medium and compared equal to the oracle. *)
Theorem check_finish_sound spec ops t check :
  Forall check_op_typed ops ->
  runs (run_checks ops (ldtm_raw_check_init spec)) t (Returned check) ->
  ldtm_raw_check_finish check = true ->
  forall file, (file < LDTM_RAW_FILES)%nat ->
    In (CheckFile file (ldtm_raw_file_bytes spec file)) ops /\
    forall i, 0 <= i < ldtm_raw_file_bytes spec file -> byte_verified t file i.
Proof.
  intros Hty Hrun Hfin file Hf.
  apply (run_checks_inv spec (fun _ => False) []) in Hrun as (H1 & H2 & H3 & H4 & H5); [|done|].
  - unfold ldtm_raw_check_finish in Hfin. apply andb_true_iff in Hfin as [Hseen Hdone].
    rewrite forallb_forall, H1 in Hdone. apply Z.eqb_eq in Hseen. split.
    + destruct (H5 file) as [[]|H]; [|done]. rewrite Hseen. unfold file_bit.
      change (Z.shiftl 1 (Z.of_nat LDTM_RAW_FILES) - 1) with (Z.ones 16).
      apply Z.ones_spec_low. unfold LDTM_RAW_FILES in *. lia.
    + intros i Hi. apply H4. rewrite (proj1 (Z.eqb_eq _ _) (Hdone file ltac:(apply in_seq; lia))). done.
  - split_and!; try done; intros f; cbn [ldtm_raw_check_init rc_done rc_seen].
    + right. apply nth_repeat.
    + intros i. rewrite nth_repeat. lia.
    + by rewrite Z.testbit_0_l.
Qed.

Lemma check_finish_sound_witness :
  exists t, forall file, (file < LDTM_RAW_FILES)%nat ->
    In (CheckFile file (ldtm_raw_file_bytes (Some demo_spec) file)) (full_check_ops (Some demo_spec)) /\
    forall i, 0 <= i < ldtm_raw_file_bytes (Some demo_spec) file -> byte_verified t file i.
Proof.
  destruct (full_check_accepts (Some demo_spec) (List.seq 0 LDTM_RAW_FILES)
    (ldtm_raw_check_init (Some demo_spec)) 65535) as (t & c & Hr & H1 & H2 & H3); try done.
  { apply Forall_forall. intros f Hf. apply in_seq in Hf. split; [lia|]. apply nth_repeat. }
  { vm_decide. }
  exists t. apply (check_finish_sound (Some demo_spec) (full_check_ops (Some demo_spec)) t c).
  - apply Forall_forall. intros op [f [_ [<-|[<-|[]]]]]%in_flat_map; simpl; [done|].
    apply raw_file_bytes_range.
  - exact Hr.
  - unfold ldtm_raw_check_finish. rewrite H2. apply andb_true_iff. split; [done|].
    apply forallb_forall. intros f Hf. rewrite H3, H1, decide_True by (by apply list_elem_of_In).
    apply Z.eqb_refl.
Defined.

(** [ldtm_raw_check_data] decides exactly: a comparison that skips bytes,
    repeats bytes or leaves its file is refused without reading; any other one
    reads the range in order and answers yes only with the whole range done,
    and answers no only after a read that failed or did not equal the oracle.
    The other files' progress is untouched. *)
Theorem check_data_exact check fd file physical logical bytes t o :
  0 <= bytes -> length (rc_done check) = LDTM_RAW_FILES -> 0 <= nth file (rc_done check) 0 ->
  runs (ldtm_raw_check_data check fd file physical logical bytes) t o ->
  exists check' ok, o = Returned (check', ok) /\ rc_seen check' = rc_seen check /\
  (forall f, f <> file -> nth f (rc_done check') 0 = nth f (rc_done check) 0) /\
  (ok = true -> (file < LDTM_RAW_FILES)%nat /\ nth file (rc_done check) 0 = logical /\
     nth file (rc_done check') 0 = logical + bytes /\
     logical + bytes <= ldtm_raw_file_bytes (rc_spec check) file) /\
  (ok = false -> (t = [] /\ check' = check) \/
     exists p l n r, Event (RawPread fd p n) r ∈ t /\ r <> Ok (ldtm_raw_payload n file l)).
Proof.
  intros Hb Hlen Hd Hrun. apply raw_check_data_runs in Hrun as [[-> ->]|
    (Hf & -> & Hle & check' & ok & -> & D1 & D2 & D3 & D4 & D5 & D6 & D7)]; [| |done..].
  - exists check, false. split_and!; try done. intros _. by left.
  - exists check', ok. split; [done|]. split; [done|]. split; [done|].
    destruct ok; (split; intros ?; [|try done]); [|done|by right]. split_and!; done || lia.
Qed.

Lemma check_data_exact_witness :
  exists check' ok,
    Returned (mkCheck (Some demo_spec) 0 [0; 0; 0; 0; 0; 0; 0; 0; 0; 0; 0; 0; 0; 0; 0; 0], false)
      = Returned (check', ok) /\ rc_seen check' = 0 /\
  (forall f, f <> 9%nat -> nth f (rc_done check') 0 =
     nth f (rc_done (ldtm_raw_check_init (Some demo_spec))) 0) /\
  (ok = true -> (9 < LDTM_RAW_FILES)%nat /\
     nth 9 (rc_done (ldtm_raw_check_init (Some demo_spec))) 0 = 0 /\
     nth 9 (rc_done check') 0 = 0 + 1 /\ 0 + 1 <= ldtm_raw_file_bytes (Some demo_spec) 9) /\
  (ok = false -> ([Event (RawPread 5 4096 1) (Ok [77])] = [] /\
     check' = ldtm_raw_check_init (Some demo_spec)) \/
     exists p l n r, Event (RawPread 5 p n) r ∈ [Event (RawPread 5 4096 1) (Ok [77])] /\
       r <> Ok (ldtm_raw_payload n 9 l)).
Proof.
  apply (check_data_exact (ldtm_raw_check_init (Some demo_spec)) 5 9 4096 0 1);
    [lia|vm_compute; reflexivity|vm_compute; discriminate|].
  change (ldtm_raw_check_data (ldtm_raw_check_init (Some demo_spec)) 5 9 4096 0 1)
    with (raw_check_loop 2 (ldtm_raw_check_init (Some demo_spec)) 5 9 4096 0 1).
  apply (runs_vis _ (RawPread 5 4096 1) _ (Ok [77])). 
  match goal with |- runs ?p _ _ => let q := eval vm_compute in p in change_no_check p with q end.
  apply runs_ret.
Defined.

(** Names and indices are inverse: every corpus file's name is found at its
    index, an index is returned only for exactly that file's name, and no two
    files share a name. *)
Theorem raw_names_roundtrip :
  (forall file, (file < LDTM_RAW_FILES)%nat ->
     ldtm_raw_name_index (ldtm_raw_name file) = Z.of_nat file) /\
  (forall name, 0 <= ldtm_raw_name_index name ->
     name = ldtm_raw_name (Z.to_nat (ldtm_raw_name_index name)) /\
     ldtm_raw_name_index name < Z.of_nat LDTM_RAW_FILES) /\
  NoDup (map ldtm_raw_name (List.seq 0 LDTM_RAW_FILES)).
Proof.
  split_and!; [|intros name H|vm_decide].
  - intros file Hf. unfold LDTM_RAW_FILES in Hf.
    do 16 (destruct file as [|file]; [vm_compute; reflexivity|]). lia.
  - destruct (raw_name_index_from_sound name 0 LDTM_RAW_FILES _ eq_refl H) as [Hr Hn].
    split; [exact Hn|]. unfold ldtm_raw_name_index in *. lia.
Qed.

(** The metadata checksum detects every change confined to one byte, for
    data of any length; on the standard check input it has the CRC-32C value. *)
Theorem crc32c_detects_byte_change before b b' after :
  Forall is_u8 before -> is_u8 b -> is_u8 b' -> Forall is_u8 after -> b <> b' ->
  ldtm_raw_crc32c (before ++ b :: after) <> ldtm_raw_crc32c (before ++ b' :: after) /\
  ldtm_raw_crc32c (map (fun n => 49 + Z.of_nat n) (List.seq 0 9)) = 3808858755.
Proof.
  intros Hbe Hb Hb' Haf Hne. split; [|vm_compute; reflexivity].
  unfold ldtm_raw_crc32c. intros E. apply Hne.
  refine (fold_left_change crc32c_byte is_u32 is_u8 before b b' after UINT32_MAX
    crc32c_byte_range crc32c_byte_cancel crc32c_byte_inj_r Hbe Hb Hb' Haf _ _); [done|].
  exact (Z_sub_cancel_l _ _ _ E).
Qed.

Lemma crc32c_detects_byte_change_witness :
  ldtm_raw_crc32c ([1; 2] ++ 3 :: [4]) <> ldtm_raw_crc32c ([1; 2] ++ 7 :: [4]) /\
  ldtm_raw_crc32c (map (fun n => 49 + Z.of_nat n) (List.seq 0 9)) = 3808858755.
Proof. apply crc32c_detects_byte_change; vm_decide. Defined.

(** The fixture dispatcher touches only its slot and only when it may: the
    driver module is asked first and a missing one ends the call before the
    target is opened; signatures are erased only on creation, with zeros, on a
    verified target whose size is exactly the slot's, within its first and last
    MiB; the format codec runs only on such a target, after every erase and the
    close succeeded; and success is reported only for a codec that succeeded. *)
Theorem raw_fixture_confined spec path create detail capacity t o :
  is_u32 (size_mib spec) ->
  runs (ldtm_raw_fixture (Some spec) (Some path) create detail capacity) t o ->
  (forall pre X (e : rawE X) x post, t = pre ++ Event e x :: post ->
     fixture_allowed spec path create pre X e) /\
  (forall d, o = Returned (0, d) ->
     exists pre codec, t = pre ++ [Event (RawCodec codec spec path create) 0]).
Proof.
  intros Hsz Hrun.
  assert (Hwp : wp (fixture_allowed spec path create) (fun o t => forall d, o = Returned (0, d) ->
     exists pre codec, t = pre ++ [Event (RawCodec codec spec path create) 0])
     (ldtm_raw_fixture (Some spec) (Some path) create detail capacity) []).
  2: { eapply wp_runs in Hwp as [H1 H2]; [|exact Hrun]. by split. }
  unfold ldtm_raw_fixture.
  assert (Hfin : forall detail', wp (fixture_allowed spec path create)
    (fun o t => forall d, o = Returned (0, d) ->
     exists pre codec, t = pre ++ [Event (RawCodec codec spec path create) 0])
    (let* result := match fixture_codec spec with
                    | None => Ret (-1)
                    | Some codec => fixture_run codec spec path create
                    end in
     Ret (result, put_detail detail' capacity (fixture_report spec create result)))
    (gate_events spec create)).
  { intros detail'. apply wp_bind. destruct (fixture_codec spec) as [codec|] eqn:Hc; [|done].
    eapply wp_mono; [by apply fixture_run_wp|done|]. intros [r|m] t' HQ; [|done].
    intros d [= -> _]. destruct (HQ 0 eq_refl eq_refl) as [t'' ->]. eauto. }
  unfold gate_events in Hfin. cbv zeta beta.
  destruct create; [|exact (Hfin _)].
  destruct (fixture_gate spec) as [[q refusal]|] eqn:Hg; [|exact (Hfin _)].
  simpl wp. split; [by rewrite Hg|]. intros [|]; [exact (Hfin _)|done].
Qed.

Lemma raw_fixture_confined_witness :
  (forall pre X (e : rawE X) x post,
     [Event (RawQuery (ldtm_swap_module_available (mkSpec "swap" "LD_SWAP" 2048 0 LDTM_CREATOR_SWAP ""))) false]
       = pre ++ Event e x :: post ->
     fixture_allowed (mkSpec "swap" "LD_SWAP" 2048 0 LDTM_CREATOR_SWAP "") "/dev/sdb21" true pre X e) /\
  (forall d : option string, Returned (-1, None) = Returned (0, d) ->
     exists pre codec, [Event (RawQuery (ldtm_swap_module_available
         (mkSpec "swap" "LD_SWAP" 2048 0 LDTM_CREATOR_SWAP ""))) false] =
       pre ++ [Event (RawCodec codec (mkSpec "swap" "LD_SWAP" 2048 0 LDTM_CREATOR_SWAP "")
                       "/dev/sdb21" true) 0]).
Proof.
  apply (raw_fixture_confined (mkSpec "swap" "LD_SWAP" 2048 0 LDTM_CREATOR_SWAP "") "/dev/sdb21" true
    None 0); [vm_decide|].
  apply (runs_vis _ (RawQuery _) _ false). apply runs_ret.
Defined.
