(* ===== verification/TestMediaJson.v ===== *)
(** The strict JSON reader of the test-media worker (test_media_worker.c): it
    extracts one unsigned top-level field of the production mapper's report.
    A [const char *] cursor is the suffix it points at; the character a cursor
    points at is [head_char], NUL at the end.  The skipper of values is proved sound
    and complete against the grammar of JSON values as relations on texts, and the
    reader of a field against the documents it is given. *)
From S2P Require Import Prelude CString Infiltratr.

(** ** Cursor *)

Definition tail_string (s : string) : string :=
  match s with EmptyString => EmptyString | String _ s' => s' end.

(** [p += n] after a successful [strncmp(p, word, n)]. *)
Fixpoint advance (n : nat) (s : string) : string :=
  match n with O => s | S n => advance n (tail_string s) end.

Definition at_char (s : string) (c : ascii) : bool := code (head_char s) =? code c.

Fixpoint json_skip_ws (cursor : string) : string :=
  match cursor with
  | EmptyString => EmptyString
  | String c s => if isspace c then json_skip_ws s else cursor
  end.

(** [strchr(QUOTE, BACKSLASH, '/bfnrt', c) != NULL] *)
Definition simple_escape (c : ascii) : bool :=
  has_char c (String QUOTE (String BACKSLASH "/bfnrt")).

(** The loop of [json_scan_string] after the opening quote: the raw body, the
    escape flag and the cursor past the closing quote. *)
Fixpoint scan_body (s : string) : option (string * bool * string) :=
  match s with
  | EmptyString => None
  | String c s1 =>
      if decide (c = QUOTE) then Some (EmptyString, false, s1)
      else if code c <? 32 then None
      else if decide (c = BACKSLASH) then
        match s1 with
        | EmptyString => None
        | String e s2 =>
            if decide (e = "u"%char) then
              match s2 with
              | String a (String b (String x (String y s3))) =>
                  if isxdigit a && isxdigit b && isxdigit x && isxdigit y then
                    match scan_body s3 with
                    | Some (body, _, rest) =>
                        Some (String c (String e (String a (String b (String x (String y body))))),
                              true, rest)
                    | None => None
                    end
                  else None
              | _ => None
              end
            else if simple_escape e then
              match scan_body s2 with
              | Some (body, _, rest) => Some (String c (String e body), true, rest)
              | None => None
              end
            else None
        end
      else
        match scan_body s1 with
        | Some (body, escaped, rest) => Some (String c body, escaped, rest)
        | None => None
        end
  end.

Definition json_scan_string (cursor : string) : option (string * bool * string) :=
  if negb (at_char cursor QUOTE) then None else scan_body (tail_string cursor).

Definition skip_digits (s : string) : string := snd (leading_digits s).

(** The integer part: a lone zero or digits without a leading zero. *)
Definition skip_integer (p : string) : option string :=
  if at_char p "0" then
    let p := tail_string p in
    if isdigit (head_char p) then None else Some p
  else if negb ((code "1" <=? code (head_char p)) && (code (head_char p) <=? code "9")) then None
  else Some (skip_digits p).

Definition skip_fraction (p : string) : option string :=
  if at_char p "." then
    let p := tail_string p in
    if isdigit (head_char p) then Some (skip_digits p) else None
  else Some p.

Definition skip_exponent (p : string) : option string :=
  if at_char p "e" || at_char p "E" then
    let p := tail_string p in
    let p := if at_char p "+" || at_char p "-" then tail_string p else p in
    if isdigit (head_char p) then Some (skip_digits p) else None
  else Some p.

Definition skip_number (p : string) : option string :=
  let p := if at_char p "-" then tail_string p else p in
  p ← skip_integer p; p ← skip_fraction p; skip_exponent p.

(** [json_skip_value]; [fuel] bounds the nesting of calls and loop rounds.  The
    two loops of the body are the mutually defined functions. *)
Fixpoint json_skip_value (fuel : nat) (cursor : string) (depth : Z) : option string :=
  match fuel with
  | O => None
  | S fuel =>
      if 64 <? depth then None
      else
        let p := json_skip_ws cursor in
        if at_char p QUOTE then
          match json_scan_string p with Some (_, _, p) => Some p | None => None end
        else if at_char p "{" then
          let p := json_skip_ws (tail_string p) in
          if at_char p "}" then Some (tail_string p) else json_skip_members fuel p depth
        else if at_char p "[" then
          let p := json_skip_ws (tail_string p) in
          if at_char p "]" then Some (tail_string p) else json_skip_elements fuel p depth
        else if String.prefix "true" p then Some (advance 4 p)
        else if String.prefix "false" p then Some (advance 5 p)
        else if String.prefix "null" p then Some (advance 4 p)
        else skip_number p
  end
with json_skip_members (fuel : nat) (p : string) (depth : Z) : option string :=
  match fuel with
  | O => None
  | S fuel =>
      match json_scan_string p with
      | None => None
      | Some (_, _, p) =>
          let p := json_skip_ws p in
          if negb (at_char p ":") then None
          else match json_skip_value fuel (tail_string p) (depth + 1) with
          | None => None
          | Some p =>
              let p := json_skip_ws p in
              if at_char p "}" then Some (tail_string p)
              else if negb (at_char p ",") then None
              else json_skip_members fuel (json_skip_ws (tail_string p)) depth
          end
      end
  end
with json_skip_elements (fuel : nat) (p : string) (depth : Z) : option string :=
  match fuel with
  | O => None
  | S fuel =>
      match json_skip_value fuel p (depth + 1) with
      | None => None
      | Some p =>
          let p := json_skip_ws p in
          if at_char p "]" then Some (tail_string p)
          else if negb (at_char p ",") then None
          else json_skip_elements fuel (tail_string p) depth
      end
  end.

(** Fuel that suffices for a value that starts [s]. *)
Definition json_fuel (s : string) : nat := 2 * String.length s + 2.

Section Fields.
  Context `{common : Infiltratr}.

  (** The value of the wanted field at [cursor]: an unsigned decimal token
      without a leading zero. *)
Definition field_number (cursor : string) : option (Z * string) :=
    if negb ((code "0" <=? code (head_char cursor)) && (code (head_char cursor) <=? code "9"))
    then None
    else match infiltratr_parse_u64_token cursor 10 with
    | None => None
    | Some (parsed, rest) =>
        let used := strlen cursor - strlen rest in
        if (used =? 0) || (at_char cursor "0" && (1 <? used)) then None
        else Some (parsed, rest)
    end.

  (** The member loop: the cursor at its end and the value found. *)
Fixpoint field_loop (fuel : nat) (name cursor : string) (found : option Z) :
      option (string * option Z) :=
    match fuel with
    | O => None
    | S fuel =>
        if is_empty cursor || at_char cursor "}" then Some (cursor, found)
        else match json_scan_string cursor with
        | None => None
        | Some (key, escaped, cursor) =>
            let cursor := json_skip_ws cursor in
            if negb (at_char cursor ":") then None
            else
              let cursor := json_skip_ws (tail_string cursor) in
              let matches := negb escaped && String.eqb key name in
              let next :=
                if matches then
                  if negb (is_null found) then None
                  else match field_number cursor with
                  | Some (parsed, rest) => Some (rest, Some parsed)
                  | None => None
                  end
                else match json_skip_value (json_fuel cursor) cursor 0 with
                | Some rest => Some (rest, found)
                | None => None
                end in
              match next with
              | None => None
              | Some (cursor, found) =>
                  let cursor := json_skip_ws cursor in
                  if at_char cursor "}" then Some (cursor, found)
                  else if negb (at_char cursor ",") then None
                  else field_loop fuel name (json_skip_ws (tail_string cursor)) found
              end
        end
    end.

  (** [json] and [name] not NULL; [None] is -1. *)
Definition parse_json_u64_field (json name : string) : option Z :=
    let cursor := json_skip_ws json in
    if negb (at_char cursor "{") then None
    else
      let cursor := json_skip_ws (tail_string cursor) in
      match field_loop (S (String.length cursor)) name cursor None with
      | None => None
      | Some (cursor, found) =>
          if negb (at_char cursor "}") then None
          else if negb (is_empty (json_skip_ws (tail_string cursor))) then None
          else found
      end.
End Fields.

(** ** Documents

    A JSON tree and its text, with the blanks [w] wherever the grammar allows
    them.  Object keys and strings are given unescaped. *)
#[warnings="-register-all"]
Inductive json :=
| JNull
| JBool (b : bool)
| JInt (n : Z)
| JNeg (n : Z)
| JReal (n : Z) (digits : string)
| JStr (s : string)
| JArr (l : list json)
| JObj (l : list (string * json)).

Definition hex_digit (n : Z) : ascii := if n <? 10 then chr (n + 48) else chr (n + 87).

Definition plain_char (c : ascii) : bool :=
  (32 <=? code c) && negb (code c =? code QUOTE) && negb (code c =? code BACKSLASH).
Definition plain (s : string) : bool := forall_char plain_char s.

Definition escape_char (c : ascii) : string :=
  if plain_char c then String c EmptyString
  else if 32 <=? code c then String BACKSLASH (String c EmptyString)
  else if decide (c = LF) then String BACKSLASH "n"
  else (String BACKSLASH "u00" ++
        String (hex_digit (code c / 16)) (String (hex_digit (code c mod 16)) EmptyString))%string.

Fixpoint escape (s : string) : string :=
  match s with EmptyString => EmptyString | String c s => (escape_char c ++ escape s)%string end.

Definition quoted (s : string) : string :=
  String QUOTE (escape s ++ String QUOTE EmptyString)%string.

Section Printing.
  Variable w : string.

Fixpoint json_text (j : json) : string :=
    match j with
    | JNull => "null"
    | JBool true => "true"
    | JBool false => "false"
    | JInt n => utoa n
    | JNeg n => "-" ++ utoa n
    | JReal n digits => utoa n ++ "." ++ digits
    | JStr s => quoted s
    | JArr l =>
        "[" ++ w ++ String.concat ("," ++ w) (map (fun v => (json_text v ++ w)%string) l) ++ "]"
    | JObj l =>
        "{" ++ w ++ String.concat ("," ++ w)
          (map (fun '(k, v) => (quoted k ++ w ++ ":" ++ w ++ json_text v ++ w)%string) l) ++ "}"
    end%string.

Definition member_text (kv : string * json) : string :=
    (quoted (fst kv) ++ w ++ ":" ++ w ++ json_text (snd kv) ++ w)%string.
Definition element_text (v : json) : string := (json_text v ++ w)%string.
Definition sep_text (l : list string) : string := String.concat (String "," w) l.
End Printing.

(** Non-negative numbers, digits after a point, nesting within [n] levels. *)
Fixpoint well_formed (n : nat) (j : json) : Prop :=
  match j with
  | JInt k | JNeg k => 0 <= k
  | JReal k digits => 0 <= k /\ digits <> EmptyString /\ forall_char isdigit digits = true
  | JArr l => match n with
              | O => l = []
              | S n => Forall (well_formed n) l
              end
  | JObj l => match n with
              | O => l = []
              | S n => Forall (fun kv => well_formed n (snd kv)) l
              end
  | _ => True
  end.

Lemma well_formed_eq n j :
  well_formed n j = match j with
  | JInt k | JNeg k => 0 <= k
  | JReal k digits => 0 <= k /\ digits <> EmptyString /\ forall_char isdigit digits = true
  | JArr l => match n with O => l = [] | S n => Forall (well_formed n) l end
  | JObj l => match n with O => l = [] | S n => Forall (fun kv => well_formed n (snd kv)) l end
  | _ => True
  end.
Proof. by destruct n. Qed.

(** What the field reader is to answer: the value of the only field of that
    name, when it is an unsigned 64-bit integer. *)
Definition json_field_u64 (name : string) (fields : list (string * json)) : option Z :=
  match List.filter (fun kv => String.eqb (fst kv) name) fields with
  | [(_, JInt n)] => if n <=? UINT64_MAX then Some n else None
  | _ => None
  end.

(** ** The grammar of values (RFC 8259), as relations on texts *)

Definition blank (w : string) : bool := forall_char isspace w.

(** What may follow a value: no character that would continue a number. *)
Definition ends_value (c : ascii) : bool :=
  negb (isdigit c) && negb (code c =? code ".") && negb (code c =? code "e") &&
  negb (code c =? code "E").

(** What stands between the quotes of a string. *)
Inductive string_body : string -> Prop :=
| body_nil : string_body EmptyString
| body_plain c s : plain_char c = true -> string_body s -> string_body (String c s)
| body_escape c s :
    In c [QUOTE; BACKSLASH; "/"; "b"; "f"; "n"; "r"; "t"]%char -> string_body s ->
    string_body (String BACKSLASH (String c s))
| body_unicode a b x y s :
    isxdigit a = true -> isxdigit b = true -> isxdigit x = true -> isxdigit y = true -> string_body s ->
    string_body (String BACKSLASH (String "u" (String a (String b (String x (String y s)))))).

Definition string_token (v : string) : Prop :=
  exists body, string_body body /\ v = String QUOTE (body ++ String QUOTE EmptyString).

Definition digits_text (s : string) : Prop := s <> EmptyString /\ forall_char isdigit s = true.

(** No leading zero. *)
Definition integer_text (s : string) : Prop :=
  s = "0"%string \/ exists c d, s = String c d /\ code "1" <= code c <= code "9" /\ forall_char isdigit d = true.
Definition fraction_text (s : string) : Prop := s = EmptyString \/ exists d, s = String "." d /\ digits_text d.
Definition exponent_text (s : string) : Prop :=
  s = EmptyString \/
  exists e sign d, In e ["e"; "E"]%char /\ In sign [""; "+"; "-"]%string /\ digits_text d /\ s = String e (sign ++ d).

Definition number_text (s : string) : Prop :=
  exists minus i f e, In minus [""; "-"]%string /\ integer_text i /\ fraction_text f /\ exponent_text e /\
    s = (minus ++ i ++ f ++ e)%string.

(** A value at nesting level [d], at most 64, without blanks around it; the members
    of an object and the elements of an array, with the blanks after them. *)
Inductive value_text : Z -> string -> Prop :=
| value_string d v : d <= 64 -> string_token v -> value_text d v
| value_word d v : d <= 64 -> In v ["true"; "false"; "null"]%string -> value_text d v
| value_number d v : d <= 64 -> number_text v -> value_text d v
| value_object_empty d w : d <= 64 -> blank w = true -> value_text d (String "{" (w ++ "}"))
| value_object d w ms : d <= 64 -> blank w = true -> members_text d ms -> value_text d (String "{" (w ++ ms ++ "}"))
| value_array_empty d w : d <= 64 -> blank w = true -> value_text d (String "[" (w ++ "]"))
| value_array d w es : d <= 64 -> blank w = true -> elements_text d es -> value_text d (String "[" (w ++ es ++ "]"))
with members_text : Z -> string -> Prop :=
| member_last d k w1 w2 v w3 :
    string_token k -> blank w1 = true -> blank w2 = true -> value_text (d + 1) v -> blank w3 = true ->
    members_text d (k ++ w1 ++ String ":" (w2 ++ v ++ w3))
| member_more d k w1 w2 v w3 w4 ms :
    string_token k -> blank w1 = true -> blank w2 = true -> value_text (d + 1) v -> blank w3 = true ->
    blank w4 = true -> members_text d ms ->
    members_text d (k ++ w1 ++ String ":" (w2 ++ v ++ w3 ++ String "," (w4 ++ ms)))
with elements_text : Z -> string -> Prop :=
| element_last d v w1 : value_text (d + 1) v -> blank w1 = true -> elements_text d (v ++ w1)
| element_more d v w1 w2 es :
    value_text (d + 1) v -> blank w1 = true -> blank w2 = true -> elements_text d es ->
    elements_text d (v ++ w1 ++ String "," (w2 ++ es)).

Scheme value_text_mut := Induction for value_text Sort Prop
  with members_text_mut := Induction for members_text Sort Prop
  with elements_text_mut := Induction for elements_text Sort Prop.
Combined Scheme texts_ind from value_text_mut, members_text_mut, elements_text_mut.

(** ** Lemmas *)

Lemma skip_ws_blank w s :
  blank w = true -> isspace (head_char s) = false -> json_skip_ws (w ++ s) = s.
Proof.
  intros Hw Hs. induction w as [|c w IH]; simpl in *.
  - destruct s as [|c s]; simpl in *; [done|]. by rewrite Hs.
  - unfold blank in *. simpl in Hw. apply andb_true_iff in Hw as [-> Hw]. auto.
Qed.

Lemma blank_ends w s :
  blank w = true -> ends_value (head_char s) = true -> ends_value (head_char (w ++ s)) = true.
Proof.
  destruct w as [|c w]; [done|]. unfold blank. cbn [forall_char head_char String.append].
  intros Hw _. apply andb_true_iff in Hw as [Hc _].
  pose proof (ascii_forall (fun c => negb (isspace c) || ends_value c) eq_refl c) as H.
  cbv beta in H. by rewrite Hc in H.
Qed.

Lemma at_char_eq s c : head_char s = c -> at_char s c = true.
Proof. intros <-. unfold at_char. apply Z.eqb_refl. Qed.

Lemma at_char_cons c s : at_char (String c s) c = true.
Proof. by apply at_char_eq. Qed.

Lemma at_char_neq s c : head_char s <> c -> at_char s c = false.
Proof. intros H. unfold at_char. apply Z.eqb_neq. intros E. by apply code_inj in E. Qed.

(** Strings. *)
Lemma escape_char_scan c r body escaped rest :
  scan_body r = Some (body, escaped, rest) ->
  scan_body (escape_char c ++ r) =
    Some ((escape_char c ++ body)%string, negb (plain_char c) || escaped, rest).
Proof.
  intros Hr. unfold escape_char. destruct (plain_char c) eqn:Hp.
  - cbn [String.append scan_body]. unfold plain_char in Hp. breflect.
    rewrite decide_False by (intros ->; lia). rewrite (proj2 (Z.ltb_ge _ _)) by lia.
    rewrite decide_False by (intros ->; lia). by rewrite Hr.
  - destruct (32 <=? code c) eqn:H32.
    + assert (simple_escape c = true) as Hc.
      { pose proof (ascii_forall (fun c => plain_char c || (code c <? 32) || simple_escape c)
          eq_refl c) as H. cbv beta in H. breflect. rewrite Hp in H.
        destruct (Z.ltb_spec (code c) 32); [lia|done]. }
      cbn [String.append scan_body]. change (code BACKSLASH <? 32) with false.
      rewrite decide_False by done. rewrite decide_True by done. cbv iota.
      rewrite decide_False; [by rewrite Hc, Hr|]. intros ->. done.
    + case_decide as Hlf.
      * cbn [String.append scan_body]. change (code BACKSLASH <? 32) with false.
        rewrite decide_False by done. rewrite decide_True by done. cbv iota.
        rewrite decide_False by done. change (simple_escape "n") with true. by rewrite Hr.
      * pose proof (ascii_forall (fun c => isxdigit (hex_digit (code c / 16)) &&
          isxdigit (hex_digit (code c mod 16))) eq_refl c) as Hx. cbv beta in Hx.
        apply andb_true_iff in Hx as [Hx1 Hx2].
        cbn [String.append scan_body]. change (code BACKSLASH <? 32) with false.
        rewrite decide_False by done. rewrite decide_True by done. cbv iota.
        rewrite decide_True by done. change (isxdigit "0") with true.
        by rewrite Hx1, Hx2, Hr.
Qed.

Lemma scan_body_escape s r :
  scan_body (escape s ++ String QUOTE r) = Some (escape s, negb (plain s), r).
Proof.
  induction s as [|c s IH]; [done|].
  cbn [escape]. rewrite append_assoc. rewrite (escape_char_scan _ _ _ _ _ IH).
  unfold plain. cbn [forall_char]. by rewrite negb_andb.
Qed.

Lemma scan_quoted s r : json_scan_string (quoted s ++ r) = Some (escape s, negb (plain s), r).
Proof.
  unfold json_scan_string, quoted. cbn [String.append]. rewrite at_char_cons. cbn [negb tail_string].
  rewrite append_assoc. apply scan_body_escape.
Qed.

Lemma escape_plain s : plain s = true -> escape s = s.
Proof.
  unfold plain. induction s as [|c s IH]; [done|]. cbn [forall_char escape]. intros H.
  apply andb_true_iff in H as [Hc Hs]. unfold escape_char. by rewrite Hc, (IH Hs).
Qed.

(** The test [escaped == 0 && key == name]. *)
Lemma key_matches k name :
  plain name = true -> negb (negb (plain k)) && String.eqb (escape k) name = String.eqb k name.
Proof.
  intros Hn. rewrite negb_involutive. destruct (plain k) eqn:Hk.
  - by rewrite escape_plain.
  - symmetry. apply String.eqb_neq. intros ->. congruence.
Qed.

(** Numbers. *)
Lemma utoa_shape n :
  0 <= n -> n = 0 /\ utoa n = "0" \/ (code "1" <= code (head_char (utoa n)) <= code "9").
Proof.
  intros Hn. destruct (decide (n = 0)) as [->|Hz]; [by left|right].
  unfold utoa, DecimalString.NilZero.string_of_uint.
  pose proof (DecimalN.Unsigned.of_to (Z.to_N n)) as Hof.
  pose proof (DecimalN.Unsigned.to_of (N.to_uint (Z.to_N n))) as Hto. rewrite Hof in Hto.
  unfold Decimal.unorm in Hto.
  destruct (Decimal.nzhead (N.to_uint (Z.to_N n))) eqn:E; rewrite Hto.
  - rewrite Hto in Hof. change (0%N = Z.to_N n) in Hof. lia.
  - exfalso. by eapply DecimalFacts.nzhead_nonzero.
  - vm_compute; split; discriminate.
  - vm_compute; split; discriminate.
  - vm_compute; split; discriminate.
  - vm_compute; split; discriminate.
  - vm_compute; split; discriminate.
  - vm_compute; split; discriminate.
  - vm_compute; split; discriminate.
  - vm_compute; split; discriminate.
  - vm_compute; split; discriminate.
Qed.

Lemma skip_digits_app d r :
  forall_char isdigit d = true -> isdigit (head_char r) = false -> skip_digits (d ++ r) = r.
Proof. intros. unfold skip_digits. by rewrite leading_digits_app. Qed.

Lemma skip_integer_utoa n r :
  0 <= n -> isdigit (head_char r) = false -> skip_integer (utoa n ++ r) = Some r.
Proof.
  intros Hn Hr. unfold skip_integer. destruct (utoa_shape n Hn) as [[-> E]|Hc].
  - rewrite E. cbn [String.append]. rewrite at_char_cons. cbn [tail_string]. by rewrite Hr.
  - rewrite at_char_neq.
    2:{ rewrite head_append by apply utoa_nonempty. intros E. rewrite E in Hc.
        destruct Hc as [Hc _]. vm_compute in Hc. by apply Hc. }
    rewrite head_append by apply utoa_nonempty.
    rewrite !(proj2 (Z.leb_le _ _)) by lia. cbn [negb andb].
    f_equal. apply skip_digits_app; [apply utoa_digits|done].
Qed.

Lemma ends_value_no_digit c : ends_value c = true -> isdigit c = false.
Proof. unfold ends_value. intros H. breflect. by destruct (isdigit c). Qed.

Lemma skip_tail_ends r :
  ends_value (head_char r) = true -> skip_fraction r = Some r /\ skip_exponent r = Some r.
Proof.
  unfold ends_value, skip_fraction, skip_exponent, at_char. intros H. breflect.
  repeat rewrite (proj2 (Z.eqb_neq _ _)) by done. done.
Qed.

Lemma skip_number_int n r :
  0 <= n -> ends_value (head_char r) = true -> skip_number (utoa n ++ r) = Some r.
Proof.
  intros Hn Hr. unfold skip_number. rewrite at_char_neq.
  - rewrite skip_integer_utoa by auto using ends_value_no_digit. cbn [mbind option_bind].
    destruct (skip_tail_ends r Hr) as [-> ?]. done.
  - rewrite head_append by apply utoa_nonempty. intros E. pose proof (utoa_head_digit n) as H.
    by rewrite E in H.
Qed.

Lemma skip_number_neg n r :
  0 <= n -> ends_value (head_char r) = true -> skip_number (String "-" (utoa n ++ r)) = Some r.
Proof.
  intros Hn Hr. unfold skip_number. rewrite at_char_cons. cbn [tail_string].
  rewrite skip_integer_utoa by auto using ends_value_no_digit. cbn [mbind option_bind].
  destruct (skip_tail_ends r Hr) as [-> ?]. done.
Qed.

Lemma skip_number_real n d r :
  0 <= n -> d <> EmptyString -> forall_char isdigit d = true ->
  ends_value (head_char r) = true ->
  skip_number (utoa n ++ String "." (d ++ r)) = Some r.
Proof.
  intros Hn Hd Hds Hr. unfold skip_number. rewrite at_char_neq.
  - rewrite skip_integer_utoa by done. cbn [mbind option_bind].
    unfold skip_fraction. rewrite at_char_cons. cbn [tail_string].
    rewrite head_append by done. destruct d as [|c d]; [done|].
    cbn [head_char]. cbn [forall_char] in Hds. pose proof Hds as Hds'.
    apply andb_true_iff in Hds as [-> _]. cbn [mbind option_bind].
    rewrite skip_digits_app by auto using ends_value_no_digit.
    by destruct (skip_tail_ends r Hr).
  - rewrite head_append by apply utoa_nonempty. intros E. pose proof (utoa_head_digit n) as H.
    by rewrite E in H.
Qed.

(** A text that starts with a digit or a minus sign is read as a number. *)
Definition starts_number (c : ascii) : bool := isdigit c || (code c =? code "-").

Lemma starts_number_tests c s :
  starts_number c = true ->
  isspace c = false /\ c <> QUOTE /\ c <> "{"%char /\ c <> "["%char /\
  String.prefix "true" (String c s) = false /\ String.prefix "false" (String c s) = false /\
  String.prefix "null" (String c s) = false.
Proof.
  intros H.
  pose proof (ascii_forall (fun c => negb (starts_number c) ||
    negb (isspace c) && negb (bool_decide (c = QUOTE)) && negb (bool_decide (c = "{"%char)) &&
    negb (bool_decide (c = "["%char)) && negb (bool_decide ("t"%char = c)) &&
    negb (bool_decide ("f"%char = c)) && negb (bool_decide ("n"%char = c))) eq_refl c) as Hc.
  cbv beta in Hc. rewrite H in Hc. cbn [negb orb] in Hc. breflect.
  repeat match goal with Hb : bool_decide _ = false |- _ => apply bool_decide_eq_false in Hb end.
  cbn [String.prefix].
  repeat match goal with |- context [ascii_dec ?a ?b] => destruct (ascii_dec a b); [congruence|] end.
  auto 10.
Qed.

Lemma skip_value_number w c s r fuel depth :
  blank w = true -> starts_number c = true -> depth <= 64 ->
  skip_number (String c s) = Some r ->
  json_skip_value (S fuel) (w ++ String c s) depth = Some r.
Proof.
  intros Hw Hc Hd Hs. cbn [json_skip_value]. rewrite (proj2 (Z.ltb_ge _ _)) by lia.
  destruct (starts_number_tests c s Hc) as (Hsp & H1 & H2 & H3 & H4 & H5 & H6).
  rewrite skip_ws_blank by done.
  rewrite !at_char_neq by done. by rewrite H4, H5, H6.
Qed.

Lemma length_append (s t : string) :
  String.length (s ++ t) = (String.length s + String.length t)%nat.
Proof. induction s as [|c s IH]; simpl; [done|]. by rewrite IH. Qed.

Ltac length_lia :=
  unfold json_fuel in *;
  repeat (rewrite length_append in * || cbn [String.length] in * ); lia.

(** Both sides of an equation of concatenations, nested to the right. *)
Ltac append_norm :=
  repeat first [rewrite append_assoc | progress cbn [String.append]]; try done.

Section Skipping.
  Variable w : string.
  Hypothesis w_blank : blank w = true.

  (** The values nested at most [n] levels are skipped at depth [64 - n]. *)
Definition skips (n : nat) : Prop := forall j fuel w0 r,
    blank w0 = true -> well_formed n j -> ends_value (head_char r) = true ->
    (json_fuel (w0 ++ json_text w j ++ r) <= fuel)%nat ->
    json_skip_value fuel (w0 ++ json_text w j ++ r) (64 - Z.of_nat n) = Some r.

Lemma sep_cons x y l : sep_text w (x :: y :: l) = (x ++ String "," (w ++ sep_text w (y :: l)))%string.
  Proof. done. Qed.

Lemma quoted_not_space k r : isspace (head_char (quoted k ++ r)) = false.
  Proof. done. Qed.

Lemma members_skip n l fuel r :
    skips n -> l <> [] -> Forall (fun kv => well_formed n (snd kv)) l ->
    (json_fuel (sep_text w (map (member_text w) l) ++ String "}" r) <= fuel)%nat ->
    json_skip_members fuel (sep_text w (map (member_text w) l) ++ String "}" r)
      (64 - Z.of_nat (S n)) = Some r.
  Proof.
    intros Hv. revert fuel. induction l as [|[k v] l IH]; [done|].
    intros fuel _ Hl Hf. apply Forall_cons_iff in Hl as [Hkv Hl]. cbn [snd] in Hkv.
    destruct fuel as [|fuel]; [length_lia|].
    assert (exists rest, sep_text w (map (member_text w) ((k, v) :: l)) ++ String "}" r =
      (quoted k ++ w ++ String ":" (w ++ json_text w v ++ (w ++ rest)))%string /\
      (l = [] /\ rest = String "}" r \/
       l <> [] /\ rest = String "," (w ++ sep_text w (map (member_text w) l) ++ String "}" r)))%string
      as (rest & E & Hrest).
    { destruct l as [|kv l].
      - exists (String "}" r). split; [|by left]. unfold sep_text, member_text.
        cbn [map String.concat fst snd].
        append_norm.
      - eexists. split; [|right; split; [done|reflexivity]].
        cbn [map]. rewrite sep_cons. unfold member_text at 1. cbn [fst snd].
        append_norm. }
    rewrite E in *. cbn [json_skip_members]. rewrite scan_quoted.
    rewrite skip_ws_blank by done. rewrite at_char_cons. cbn [negb tail_string].
    replace (64 - Z.of_nat (S n) + 1) with (64 - Z.of_nat n) by lia.
    assert (Hends : ends_value (head_char rest) = true /\ isspace (head_char rest) = false)
      by (destruct Hrest as [[_ ->]|[_ ->]]; done).
    rewrite Hv; [|done|done|by apply blank_ends, Hends|length_lia].
    rewrite skip_ws_blank by (done || apply Hends).
    destruct Hrest as [[-> ->]|[Hne ->]]; [done|].
    rewrite (at_char_neq _ "}") by done. rewrite at_char_cons. cbn [negb tail_string].
    destruct l as [|[k2 v2] l]; [done|].
    rewrite skip_ws_blank; [|done|].
    - apply IH; [done|done|length_lia].
    - destruct l; done.
  Qed.

Lemma elements_skip n l fuel w0 r :
    skips n -> blank w0 = true -> l <> [] -> Forall (well_formed n) l ->
    (json_fuel (w0 ++ sep_text w (map (element_text w) l) ++ String "]" r) < fuel)%nat ->
    json_skip_elements fuel (w0 ++ sep_text w (map (element_text w) l) ++ String "]" r)
      (64 - Z.of_nat (S n)) = Some r.
  Proof.
    intros Hv. revert fuel w0. induction l as [|v l IH]; [done|].
    intros fuel w0 Hw0 _ Hl Hf. apply Forall_cons_iff in Hl as [Hkv Hl].
    destruct fuel as [|fuel]; [length_lia|].
    assert (exists rest, sep_text w (map (element_text w) (v :: l)) ++ String "]" r =
      (json_text w v ++ (w ++ rest))%string /\
      (l = [] /\ rest = String "]" r \/
       l <> [] /\ rest = String "," (w ++ sep_text w (map (element_text w) l) ++ String "]" r)))%string
      as (rest & E & Hrest).
    { destruct l as [|v2 l].
      - exists (String "]" r). split; [|by left]. unfold sep_text, element_text.
        cbn [map String.concat]. append_norm.
      - eexists. split; [|right; split; [done|reflexivity]].
        cbn [map]. rewrite sep_cons. unfold element_text at 1.
        append_norm. }
    rewrite E in *. cbn [json_skip_elements].
    replace (64 - Z.of_nat (S n) + 1) with (64 - Z.of_nat n) by lia.
    assert (Hends : ends_value (head_char rest) = true /\ isspace (head_char rest) = false)
      by (destruct Hrest as [[_ ->]|[_ ->]]; done).
    rewrite Hv; [|done|done|by apply blank_ends, Hends|length_lia].
    rewrite skip_ws_blank by (done || apply Hends).
    destruct Hrest as [[-> ->]|[Hne ->]]; [done|].
    rewrite (at_char_neq _ "]") by done. rewrite at_char_cons. cbn [negb tail_string].
    apply IH; [done|done|done|length_lia].
  Qed.

(** The literals and the compound values. *)
Lemma skip_value_literal w0 word s fuel depth :
    blank w0 = true -> depth <= 64 -> word = "true"%string \/ word = "false"%string \/ word = "null"%string ->
    json_skip_value (S fuel) (w0 ++ word ++ s) depth = Some s.
  Proof.
    intros Hw Hd Hword. cbn [json_skip_value]. rewrite (proj2 (Z.ltb_ge _ _)) by lia.
    rewrite skip_ws_blank; [|done|by destruct Hword as [->|[->| ->]]].
    destruct Hword as [->|[->| ->]]; by destruct s.
  Qed.

Lemma skip_value_open w0 c s fuel depth :
    blank w0 = true -> depth <= 64 -> isspace c = false ->
    json_skip_value (S fuel) (w0 ++ String c s) depth =
      let p := String c s in
      if at_char p QUOTE then
        match json_scan_string p with Some (_, _, p) => Some p | None => None end
      else if at_char p "{" then
        let p := json_skip_ws s in
        if at_char p "}" then Some (tail_string p) else json_skip_members fuel p depth
      else if at_char p "[" then
        let p := json_skip_ws s in
        if at_char p "]" then Some (tail_string p) else json_skip_elements fuel p depth
      else if String.prefix "true" p then Some (advance 4 p)
      else if String.prefix "false" p then Some (advance 5 p)
      else if String.prefix "null" p then Some (advance 4 p)
      else skip_number p.
  Proof.
    intros Hw Hd Hc. cbn [json_skip_value]. rewrite (proj2 (Z.ltb_ge _ _)) by lia.
    by rewrite skip_ws_blank.
  Qed.

  (** The first character of a value's text. *)
Lemma json_text_head n j :
    well_formed n j -> exists c s, json_text w j = String c s /\ isspace c = false /\
      c <> "}"%char /\ c <> "]"%char.
  Proof.
    assert (Hnum : forall k, exists c s, utoa k = String c s /\ isspace c = false /\
      c <> "}"%char /\ c <> "]"%char).
    { intros k. pose proof (utoa_head_digit k) as H. pose proof (utoa_nonempty k).
      destruct (utoa k) as [|c s]; [done|]. exists c, s. split; [done|]. cbn [head_char] in H.
      pose proof (ascii_forall (fun c => negb (isdigit c) || negb (isspace c) &&
        negb (bool_decide (c = "}"%char)) && negb (bool_decide (c = "]"%char))) eq_refl c) as Hc.
      cbv beta in Hc. rewrite H in Hc. cbn [negb orb] in Hc. breflect.
      split; [done|]. by split; eapply bool_decide_eq_false_1. }
    destruct j as [|[]|k|k|k d|s|l|l]; intros Hj; cbn [json_text]; try (do 2 eexists; split; [reflexivity|done]).
    - apply Hnum.
    - destruct (Hnum k) as (c & s & -> & Hc). do 2 eexists. split; [reflexivity|done].
  Qed.

Lemma skips_S n : (n <= 64)%nat -> (forall m, (S m = n)%nat -> skips m) -> skips n.
  Proof.
    intros Hn IH j fuel w0 r Hw0 Hj Hr Hf.
    destruct fuel as [|fuel]; [length_lia|].
    assert (Hd : 64 - Z.of_nat n <= 64) by lia.
    rewrite well_formed_eq in Hj.
    destruct j as [|b|k|k|k d|s|l|l]; cbn [json_text] in *.
    - apply skip_value_literal; auto.
    - destruct b; apply skip_value_literal; auto.
    - pose proof (utoa_head_digit k) as Hh. pose proof (utoa_nonempty k).
      pose proof (skip_number_int k r Hj Hr) as Hs.
      destruct (utoa k) as [|c s]; [done|]. cbn [String.append] in *. cbn [head_char] in Hh.
      apply skip_value_number; try done. unfold starts_number. by rewrite Hh.
    - cbn [String.append]. apply skip_value_number; try done. by apply skip_number_neg.
    - destruct Hj as (Hk & Hd1 & Hd2).
      pose proof (utoa_head_digit k) as Hh. pose proof (utoa_nonempty k).
      pose proof (skip_number_real k d r Hk Hd1 Hd2 Hr) as Hs.
      rewrite !append_assoc.
      destruct (utoa k) as [|c s]; [done|]. cbn [String.append] in *. cbn [head_char] in Hh.
      apply skip_value_number; try done. unfold starts_number. by rewrite Hh.
    - unfold quoted at 1. cbn [String.append]. rewrite skip_value_open by done. cbv zeta.
      rewrite at_char_cons.
      pose proof (scan_quoted s r) as Hs. unfold quoted in Hs. cbn [String.append] in Hs.
      by rewrite Hs.
    - cbn [String.append] in *. rewrite skip_value_open by done. cbv zeta.
      rewrite (at_char_neq _ QUOTE), (at_char_neq _ "{") by done. rewrite at_char_cons.
      change (map (fun v => (json_text w v ++ w)%string) l) with (map (element_text w) l) in *.
      fold (sep_text w (map (element_text w) l)) in *.
      rewrite !append_assoc in *. cbn [String.append] in *.
      destruct l as [|v l].
      { cbn [map sep_text String.concat]. unfold sep_text. cbn [String.concat String.append].
        rewrite skip_ws_blank by done. by rewrite at_char_cons. }
      destruct n as [|n]; [done|].
      apply Forall_cons_iff in Hj as Hj'. destruct Hj' as [Hv _].
      destruct (json_text_head n v Hv) as (c & s & E & Hc & Hc1 & Hc2).
      assert (Hhead : exists s', (sep_text w (map (element_text w) (v :: l)) ++ String "]" r)%string
        = String c s').
      { unfold sep_text, element_text at 1. cbn [map String.concat].
        destruct l; cbn [map String.concat]; rewrite E; cbn [String.append]; eauto. }
      destruct Hhead as [s' Hs']. rewrite Hs' in *.
      rewrite skip_ws_blank by done. rewrite at_char_neq by done. rewrite <- Hs' in *.
      apply (elements_skip n (v :: l) fuel EmptyString r); [by apply IH|done|done|done|].
      cbn [String.append]. rewrite Hs' in *. length_lia.
    - cbn [String.append] in *. rewrite skip_value_open by done. cbv zeta.
      rewrite (at_char_neq _ QUOTE) by done. rewrite at_char_cons.
      replace (map (fun '(k, v) => (quoted k ++ w ++ String ":" (w ++ json_text w v ++ w))%string) l)
        with (map (member_text w) l) in * by (apply map_ext; by intros []).
      fold (sep_text w (map (member_text w) l)) in *.
      rewrite !append_assoc in *. cbn [String.append] in *.
      destruct l as [|v l].
      { unfold sep_text. cbn [map String.concat String.append].
        rewrite skip_ws_blank by done. by rewrite at_char_cons. }
      destruct n as [|n]; [done|].
      assert (Hhead : exists s', (sep_text w (map (member_text w) (v :: l)) ++ String "}" r)%string
        = String QUOTE s').
      { unfold sep_text, member_text at 1, quoted. cbn [map String.concat].
        destruct l; cbn [map String.concat]; cbn [String.append]; eauto. }
      destruct Hhead as [s' Hs']. rewrite Hs' in *.
      rewrite skip_ws_blank by done. rewrite at_char_neq by done. rewrite <- Hs' in *.
      apply members_skip; [by apply IH|done|done|]. rewrite Hs' in *. length_lia.
  Qed.

Lemma skip_value_text n : (n <= 64)%nat -> skips n.
  Proof.
    induction n as [|n IH]; intros Hn; apply skips_S; try done.
    intros m [= ->]. apply IH. lia.
  Qed.
End Skipping.

Section FieldProofs.
  Context {common : Infiltratr} {L : InfiltratrLaws common}.

Lemma isdigit_codes c :
    isdigit c = (code "0" <=? code c) && (code c <=? code "9").
  Proof. done. Qed.

Lemma field_number_other s : isdigit (head_char s) = false -> field_number s = None.
  Proof. unfold field_number. rewrite isdigit_codes. by intros ->. Qed.

Lemma field_number_digits n r :
    0 <= n -> isdigit (head_char r) = false ->
    field_number (utoa n ++ r) = if n <=? UINT64_MAX then Some (n, r) else None.
  Proof.
    intros Hn Hr. unfold field_number. rewrite <- isdigit_codes.
    rewrite head_append by apply utoa_nonempty. rewrite utoa_head_digit. cbn [negb].
    rewrite (parse_token_digits _ (utoa n) r);
      [|by apply leading_digits_app; [apply utoa_digits|]|apply utoa_nonempty].
    rewrite decimal_value_utoa by done. destruct (n <=? UINT64_MAX); [|done].
    rewrite strlen_app. replace (strlen (utoa n) + strlen r - strlen r) with (strlen (utoa n)) by lia.
    rewrite (proj2 (Z.eqb_neq _ _)).
    2:{ pose proof (utoa_nonempty n). destruct (utoa n); [done|]. unfold strlen. simpl. lia. }
    destruct (utoa_shape n Hn) as [[-> E]|Hc].
    - by rewrite E.
    - rewrite at_char_neq; [done|]. rewrite head_append by apply utoa_nonempty. intros E.
      rewrite E in Hc. destruct Hc as [Hc _]. vm_compute in Hc. by apply Hc.
  Qed.

  (** The answer at the text of a value. *)
Definition number_at (w : string) (v : json) (r : string) : option (Z * string) :=
    match v with
    | JInt n => if n <=? UINT64_MAX then Some (n, r) else None
    | JReal n d => if n <=? UINT64_MAX then Some (n, String "." (d ++ r)) else None
    | _ => None
    end.

Lemma field_number_text w n v r :
    well_formed n v -> isdigit (head_char r) = false ->
    field_number (json_text w v ++ r) = number_at w v r.
  Proof.
    rewrite well_formed_eq. intros Hv Hr.
    destruct v as [|[]|k|k|k d|s|l|l]; cbn [json_text number_at];
      try (apply field_number_other; done).
    - by apply field_number_digits.
    - rewrite !append_assoc. cbn [String.append]. apply field_number_digits; [apply Hv|done].
  Qed.

  (** The member loop on a list of fields. *)
Fixpoint fields_from (name : string) (found : option Z) (l : list (string * json)) : option Z :=
    match l with
    | [] => found
    | (k, v) :: l =>
        if String.eqb k name then
          match found, v with
          | None, JInt n => if n <=? UINT64_MAX then fields_from name (Some n) l else None
          | _, _ => None
          end
        else fields_from name found l
    end.

Lemma fields_from_some name n l :
    fields_from name (Some n) l =
      match List.filter (fun kv => String.eqb (fst kv) name) l with [] => Some n | _ => None end.
  Proof.
    induction l as [|[k v] l IH]; [done|]. cbn [fields_from List.filter fst].
    by destruct (String.eqb k name).
  Qed.

Lemma fields_from_none name l : fields_from name None l = json_field_u64 name l.
  Proof.
    induction l as [|[k v] l IH]; [done|]. unfold json_field_u64 in *.
    cbn [fields_from List.filter fst]. destruct (String.eqb k name); [|done].
    destruct v; try by destruct (List.filter _ l).
    rewrite fields_from_some. destruct (List.filter _ l); destruct (n <=? UINT64_MAX); done.
  Qed.

  (** The reader after the loop. *)
Definition close_object (o : option (string * option Z)) : option Z :=
    match o with
    | None => None
    | Some (cursor, found) =>
        if negb (at_char cursor "}") then None
        else if negb (is_empty (json_skip_ws (tail_string cursor))) then None
        else found
    end.

  Context (w : string) (w_blank : blank w = true).

Lemma field_loop_text name fuel l found :
    plain name = true -> l <> [] -> Forall (fun kv => well_formed 64 (snd kv)) l ->
    (String.length (sep_text w (map (member_text w) l)) < fuel)%nat ->
    close_object (field_loop fuel name (sep_text w (map (member_text w) l) ++ String "}" w) found)
      = fields_from name found l.
  Proof.
    intros Hname. revert fuel found. induction l as [|[k v] l IH]; [done|].
    intros fuel found _ Hl Hf. apply Forall_cons_iff in Hl as [Hv Hl]. cbn [snd] in Hv.
    destruct fuel as [|fuel]; [lia|].
    assert (exists rest, sep_text w (map (member_text w) ((k, v) :: l)) ++ String "}" w =
      (quoted k ++ w ++ String ":" (w ++ json_text w v ++ (w ++ rest)))%string /\
      (l = [] /\ rest = String "}" w \/
       l <> [] /\ rest = String "," (w ++ sep_text w (map (member_text w) l) ++ String "}" w)))%string
      as (rest & E & Hrest).
    { destruct l as [|kv l].
      - exists (String "}" w). split; [|by left]. unfold sep_text, member_text.
        cbn [map String.concat fst snd]. append_norm.
      - eexists. split; [|right; split; [done|reflexivity]].
        cbn [map]. rewrite sep_cons. unfold member_text at 1. cbn [fst snd]. append_norm. }
    assert (Hends : ends_value (head_char (w ++ rest)) = true /\ isspace (head_char rest) = false).
    { split; [apply blank_ends; [done|]|]; by destruct Hrest as [[_ ->]|[_ ->]]. }
    destruct Hends as [Hends Hsp].
    assert (Hfuel : l <> [] -> (String.length (sep_text w (map (member_text w) l)) < fuel)%nat).
    { intros Hne. destruct l as [|kv l]; [done|]. cbn [map] in Hf. rewrite sep_cons in Hf.
      cbn [map]. length_lia. }
    rewrite E. cbn [field_loop].
    replace (is_empty _) with false by done.
    rewrite at_char_neq by done. cbn [orb]. rewrite scan_quoted.
    rewrite skip_ws_blank by done. rewrite at_char_cons. cbn [negb tail_string]. cbv zeta.
    destruct (json_text_head w 64 v Hv) as (c & s & Etext & Hc & _).
    rewrite (skip_ws_blank w (json_text w v ++ _)) by (done || by rewrite Etext).
    rewrite key_matches by done. cbn [fields_from].
    (* what follows an accepted value *)
    assert (Hnext : forall found,
      close_object
        (let cursor := json_skip_ws (w ++ rest) in
         if at_char cursor "}" then Some (cursor, found)
         else if negb (at_char cursor ",") then None
         else field_loop fuel name (json_skip_ws (tail_string cursor)) found)
      = fields_from name found l).
    { intros f. cbv zeta. rewrite skip_ws_blank by done.
      destruct Hrest as [[-> ->]|[Hne ->]].
      - rewrite at_char_cons. cbn [close_object]. rewrite at_char_cons. cbn [negb tail_string].
        assert (json_skip_ws w = EmptyString) as -> by (by rewrite <- (append_nil_r w), skip_ws_blank).
        done.
      - rewrite at_char_neq by done. rewrite at_char_cons. cbn [negb tail_string].
        rewrite skip_ws_blank; [by apply IH; auto|done|by destruct l as [|[? ?] []]]. }
    destruct (String.eqb k name).
    - destruct found as [found|]; [by destruct v|]. cbn [is_null negb].
      rewrite (field_number_text w 64) by auto using ends_value_no_digit.
      destruct v as [| | n| |n d| | |]; try done; cbn [number_at].
      + destruct (n <=? UINT64_MAX); [|done]. apply Hnext.
      + destruct (n <=? UINT64_MAX); done.
    - pose proof (skip_value_text w w_blank 64 ltac:(lia) v _ EmptyString (w ++ rest)%string
        eq_refl Hv Hends (Nat.le_refl _)) as Hskip.
      cbn [String.append] in Hskip. change (64 - Z.of_nat 64) with 0 in Hskip.
      rewrite Hskip. apply Hnext.
  Qed.

Lemma parse_field_text name l :
    plain name = true -> Forall (fun kv => well_formed 64 (snd kv)) l ->
    parse_json_u64_field (w ++ json_text w (JObj l) ++ w) name = json_field_u64 name l.
  Proof.
    intros Hname Hl. cbn [json_text].
    replace (map (fun '(k, v) => (quoted k ++ w ++ ":" ++ w ++ json_text w v ++ w)%string) l)
      with (map (member_text w) l) by (apply map_ext; by intros []).
    change (String.concat ("," ++ w) (map (member_text w) l))
      with (sep_text w (map (member_text w) l)).
    unfold parse_json_u64_field. append_norm.
    rewrite skip_ws_blank by done. rewrite at_char_cons. cbn [negb tail_string].
    append_norm.
    rewrite skip_ws_blank; [|done|by destruct l as [|[? ?] []]].
    destruct l as [|kv l].
    - cbn [map sep_text String.concat String.append field_loop String.length].
      unfold sep_text. cbn [map sep_text String.concat String.append field_loop String.length is_empty].
      rewrite at_char_cons. cbn [orb negb]. rewrite at_char_cons. cbn [negb tail_string].
      by destruct (is_empty _).
    - cbv zeta. rewrite <- fields_from_none.
      rewrite <- (field_loop_text name (S (String.length
        (sep_text w (map (member_text w) (kv :: l)) ++ String "}" w))) (kv :: l) None Hname);
        [|done|done|length_lia].
      reflexivity.
  Qed.
End FieldProofs.

(** ** Fuel *)

Lemma length_skip_ws s : (String.length (json_skip_ws s) <= String.length s)%nat.
Proof. induction s as [|c s IH]; cbn [json_skip_ws]; [done|]. destruct (isspace c); cbn [String.length]; lia. Qed.

Lemma length_tail s : (String.length (tail_string s) <= String.length s)%nat.
Proof. destruct s; cbn [tail_string String.length]; lia. Qed.

Lemma length_tail_at s c :
  code c <> 0 -> at_char s c = true -> (String.length (tail_string s) < String.length s)%nat.
Proof.
  intros Hc Hs. destruct s as [|d s]; [|simpl; lia]. unfold at_char in Hs. breflect.
  by change (0 = code c) in Hs.
Qed.

Lemma length_scan_body s body e r :
  scan_body s = Some (body, e, r) -> (String.length r < String.length s)%nat.
Proof.
  remember (String.length s) as n eqn:Hn. revert s body e r Hn.
  induction n as [n IH] using lt_wf_ind. intros s body e r -> H.
  assert (Hrec : forall s' b e' r', (String.length s' < String.length s)%nat ->
    scan_body s' = Some (b, e', r') -> (String.length r' < String.length s)%nat).
  { intros s' b e' r' Hlt Hs'. pose proof (IH _ Hlt s' b e' r' eq_refl Hs'). lia. }
  destruct s as [|c s1]; [done|]. cbn [scan_body] in H.
  repeat case_decide; repeat case_match; simplify_eq;
    solve [cbn [String.length]; lia | eapply Hrec; [|eassumption]; cbn [String.length]; lia].
Qed.

Lemma length_scan_string s body e r :
  json_scan_string s = Some (body, e, r) -> (String.length r < String.length s)%nat.
Proof.
  unfold json_scan_string. destruct (at_char s QUOTE) eqn:E; [|done]. cbn [negb]. intros H.
  apply length_scan_body in H. pose proof (length_tail s). lia.
Qed.

Lemma length_skip_digits s : (String.length (skip_digits s) <= String.length s)%nat.
Proof.
  unfold skip_digits. induction s as [|c s IH]; cbn [leading_digits]; [done|].
  destruct (isdigit c); [|done]. destruct (leading_digits s). cbn [snd String.length] in *. lia.
Qed.

Ltac length_facts :=
  repeat match goal with
  | H : Some _ = Some _ |- _ => injection H as <-
  | H : json_scan_string _ = Some _ |- _ => apply length_scan_string in H
  end;
  repeat match goal with
  | |- context [json_skip_ws ?s] => pose proof (length_skip_ws s); generalize dependent (json_skip_ws s); intros
  | H : context [json_skip_ws ?s] |- _ => pose proof (length_skip_ws s); generalize dependent (json_skip_ws s); intros
  | |- context [skip_digits ?s] => pose proof (length_skip_digits s); generalize dependent (skip_digits s); intros
  | |- context [tail_string ?s] => pose proof (length_tail s); generalize dependent (tail_string s); intros
  | H : context [tail_string ?s] |- _ => pose proof (length_tail s); generalize dependent (tail_string s); intros
  end.

Lemma length_skip_number s r :
  skip_number s = Some r -> (String.length r <= String.length s)%nat.
Proof.
  assert (Hi : forall p q, skip_integer p = Some q -> (String.length q <= String.length p)%nat).
  { intros p q H. unfold skip_integer in H. repeat case_match; try done; length_facts; lia. }
  assert (Hf : forall p q, skip_fraction p = Some q -> (String.length q <= String.length p)%nat).
  { intros p q H. unfold skip_fraction in H. repeat case_match; try done; length_facts; lia. }
  assert (He : forall p q, skip_exponent p = Some q -> (String.length q <= String.length p)%nat).
  { intros p q H. unfold skip_exponent in H. repeat case_match; try done; length_facts; lia. }
  unfold skip_number. intros H. apply bind_Some in H as (p & H1 & H).
  apply bind_Some in H as (q & H2 & H3). apply Hi in H1. apply Hf in H2. apply He in H3.
  destruct (at_char s "-"); length_facts; lia.
Qed.

Lemma length_skip fuel :
  (forall s d r, json_skip_value fuel s d = Some r -> (String.length r <= String.length s)%nat) /\
  (forall s d r, json_skip_members fuel s d = Some r -> (String.length r <= String.length s)%nat) /\
  (forall s d r, json_skip_elements fuel s d = Some r -> (String.length r <= String.length s)%nat).
Proof.
  induction fuel as [|fuel (IHv & IHm & IHe)]; [done|].
  split; [|split]; intros s d r H; cbn [json_skip_value json_skip_members json_skip_elements] in H.
  - assert (Hadv : forall n p, (String.length (advance n p) <= String.length p)%nat).
    { intros n. induction n as [|n IH]; intros p; cbn [advance]; [done|].
      pose proof (IH (tail_string p)). pose proof (length_tail p). lia. }
    pose proof (length_skip_ws s). set (p := json_skip_ws s) in *.
    repeat case_match; try done;
      repeat match goal with
      | H : json_skip_members _ _ _ = Some _ |- _ => apply IHm in H
      | H : json_skip_elements _ _ _ = Some _ |- _ => apply IHe in H
      | H : skip_number _ = Some _ |- _ => apply length_skip_number in H
      | H : Some (advance ?n ?p) = Some _ |- _ => injection H as <-; pose proof (Hadv n p)
      end; length_facts; lia.
  - repeat case_match; try done;
      repeat match goal with
      | H : json_skip_members _ _ _ = Some _ |- _ => apply IHm in H
      | H : json_skip_value _ _ _ = Some _ |- _ => apply IHv in H
      end; length_facts; lia.
  - repeat case_match; try done;
      repeat match goal with
      | H : json_skip_elements _ _ _ = Some _ |- _ => apply IHe in H
      | H : json_skip_value _ _ _ = Some _ |- _ => apply IHv in H
      end; length_facts; lia.
Qed.

(** Two amounts of fuel that reach [json_fuel] answer alike. *)
Lemma skip_fuel_irrelevant f1 : forall f2 s d,
  ((json_fuel s <= f1)%nat -> (json_fuel s <= f2)%nat ->
    json_skip_value f1 s d = json_skip_value f2 s d) /\
  ((json_fuel s <= f1)%nat -> (json_fuel s <= f2)%nat ->
    json_skip_members f1 s d = json_skip_members f2 s d) /\
  ((json_fuel s < f1)%nat -> (json_fuel s < f2)%nat ->
    json_skip_elements f1 s d = json_skip_elements f2 s d).
Proof.
  induction f1 as [|f1 IH]; [unfold json_fuel; repeat split; intros; lia|].
  assert (IHv : forall f2 s d, (json_fuel s <= f1)%nat -> (json_fuel s <= f2)%nat ->
    json_skip_value f1 s d = json_skip_value f2 s d) by (intros; by apply IH).
  assert (IHm : forall f2 s d, (json_fuel s <= f1)%nat -> (json_fuel s <= f2)%nat ->
    json_skip_members f1 s d = json_skip_members f2 s d) by (intros; by apply IH).
  assert (IHe : forall f2 s d, (json_fuel s < f1)%nat -> (json_fuel s < f2)%nat ->
    json_skip_elements f1 s d = json_skip_elements f2 s d) by (intros; by apply IH).
  clear IH. intros f2 s d. unfold json_fuel in *.
  split; [|split]; (destruct f2 as [|f2]; [intros; exfalso; lia|]); intros H1 H2;
    cbn [json_skip_value json_skip_members json_skip_elements].
  - destruct (64 <? d); [done|]. pose proof (length_skip_ws s). set (p := json_skip_ws s) in *.
    destruct (at_char p QUOTE); [done|].
    destruct (at_char p "{") eqn:E1.
    { apply length_tail_at in E1; [|done]. pose proof (length_skip_ws (tail_string p)).
      cbv zeta. destruct (at_char _ "}"); [done|]. apply IHm; lia. }
    destruct (at_char p "[") eqn:E2; [|done].
    apply length_tail_at in E2; [|done]. pose proof (length_skip_ws (tail_string p)).
    cbv zeta. destruct (at_char _ "]"); [done|]. apply IHe; lia.
  - destruct (json_scan_string s) as [[[body e] q]|] eqn:Es; [|done].
    apply length_scan_string in Es. cbv zeta. pose proof (length_skip_ws q).
    set (p := json_skip_ws q) in *. destruct (at_char p ":") eqn:E1; [|done].
    cbn [negb]. pose proof (length_tail p). rewrite (IHv f2) by lia.
    destruct (json_skip_value f2 _ _) as [v|] eqn:Ev; [|done].
    apply length_skip in Ev. pose proof (length_skip_ws v). set (u := json_skip_ws v) in *.
    destruct (at_char u "}"); [done|]. destruct (at_char u ",") eqn:E2; [|done].
    apply length_tail_at in E2; [|done]. pose proof (length_skip_ws (tail_string u)).
    cbn [negb]. apply IHm; lia.
  - rewrite (IHv f2) by lia. destruct (json_skip_value f2 _ _) as [v|] eqn:Ev; [|done].
    apply length_skip in Ev. pose proof (length_skip_ws v). cbv zeta. set (u := json_skip_ws v) in *.
    destruct (at_char u "]"); [done|]. destruct (at_char u ",") eqn:E2; [|done].
    apply length_tail_at in E2; [|done]. cbn [negb]. apply IHe; lia.
Qed.

(** ** The skipper and the grammar *)

Lemma at_char_split s c : code c <> 0 -> at_char s c = true -> s = String c (tail_string s).
Proof.
  intros Hc H. unfold at_char in H. apply Z.eqb_eq in H. destruct s as [|a s]; [by cbn in H|].
  cbn in *. by apply code_inj in H as ->.
Qed.

Lemma skip_ws_split s :
  exists w, blank w = true /\ s = (w ++ json_skip_ws s)%string /\ isspace (head_char (json_skip_ws s)) = false.
Proof.
  induction s as [|c s (w & Hw & E & Hs)]; [by exists EmptyString|]. cbn [json_skip_ws].
  destruct (isspace c) eqn:Hc; [|by exists EmptyString].
  exists (String c w). cbn [String.append]. rewrite <- E. split_and!; [|done|done]. unfold blank. cbn [forall_char]. by rewrite Hc.
Qed.

Lemma skip_digits_split s : exists d, forall_char isdigit d = true /\ s = (d ++ skip_digits s)%string.
Proof.
  unfold skip_digits. induction s as [|c s (d & Hd & E)]; [by exists EmptyString|]. cbn [leading_digits].
  destruct (isdigit c) eqn:Hc; [|by exists EmptyString]. destruct (leading_digits s) as [l r].
  cbn [snd] in *. exists (String c d). cbn [forall_char String.append]. by rewrite Hc, Hd, <- E.
Qed.

(** The characters of a word that the cursor passes. *)
Lemma advance_prefix word s : String.prefix word s = true -> s = (word ++ advance (String.length word) s)%string.
Proof.
  revert s. induction word as [|c word IH]; intros s H; [done|]. destruct s as [|a s]; [done|].
  cbn [String.prefix] in H. destruct (ascii_dec c a) as [->|]; [|done].
  cbn [String.length advance tail_string String.append]. f_equal. by apply IH.
Qed.

(** *** What it passes is in the grammar *)

Lemma simple_escape_in c : simple_escape c = true -> In c [QUOTE; BACKSLASH; "/"; "b"; "f"; "n"; "r"; "t"]%char.
Proof.
  unfold simple_escape. cbn [has_char]. intros H. cbn [In].
  repeat match type of H with context [ascii_dec ?a ?b] => destruct (ascii_dec a b); [by subst; auto 10|] end. done.
Qed.

Lemma scan_body_sound n : forall s body e r,
  (String.length s <= n)%nat -> scan_body s = Some (body, e, r) -> string_body body /\ s = (body ++ String QUOTE r)%string.
Proof.
  induction n as [|n IH]; intros s body e r Hn H; (destruct s as [|c s]; [done|]); [cbn in Hn; lia|].
  cbn [String.length] in Hn. cbn [scan_body] in H. case_decide as Hq; [subst c; injection H as <- <- <-; split; [constructor|done]|].
  destruct (code c <? 32) eqn:Hc; [done|]. apply Z.ltb_ge in Hc. case_decide as Hb.
  - subst c. destruct s as [|c s]; [done|]. cbn [String.length] in Hn. case_decide as Hu.
    + subst c. destruct s as [|a [|b [|x [|y s]]]]; try done. cbn [String.length] in Hn.
      destruct (isxdigit a && _ && _ && _) eqn:Hx; [|done]. breflect.
      destruct (scan_body s) as [[[body' e'] r']|] eqn:E; [|done]. injection H as <- <- <-.
      apply IH in E as [Hs ->]; [|lia]. split; [by constructor|done].
    + destruct (simple_escape c) eqn:Hs; [|done].
      destruct (scan_body s) as [[[body' e'] r']|] eqn:E; [|done]. injection H as <- <- <-.
      apply IH in E as [Hs' ->]; [|lia]. split; [constructor; [by apply simple_escape_in|done]|done].
  - destruct (scan_body s) as [[[body' e'] r']|] eqn:E; [|done]. injection H as <- <- <-.
    apply IH in E as [Hs ->]; [|lia]. split; [constructor; [|done]|done]. unfold plain_char.
    rewrite (proj2 (Z.leb_le _ _)) by lia.
    rewrite !(proj2 (Z.eqb_neq _ _)) by (intros E; by apply code_inj in E). done.
Qed.

Lemma scan_string_sound s body e r : json_scan_string s = Some (body, e, r) -> exists v, string_token v /\ s = (v ++ r)%string.
Proof.
  unfold json_scan_string. destruct (at_char s QUOTE) eqn:Hq; [|done]. cbn [negb]. intros H.
  apply at_char_split in Hq; [|done]. destruct (scan_body_sound _ _ _ _ _ (Nat.le_refl _) H) as [Hb E].
  exists (String QUOTE (body ++ String QUOTE EmptyString)). split; [by exists body|]. rewrite Hq, E. append_norm.
Qed.

Lemma digits_sound s : isdigit (head_char s) = true -> exists d, digits_text d /\ s = (d ++ skip_digits s)%string.
Proof.
  intros H. destruct (skip_digits_split s) as (d & Hd & E). exists d. split; [split; [|done]|done].
  intros ->. cbn [String.append] in E. destruct s as [|c s]; [done|]. cbn [head_char] in H.
  unfold skip_digits in E. cbn [leading_digits] in E. rewrite H in E.
  pose proof (length_skip_digits s) as Hl. unfold skip_digits in Hl. destruct (leading_digits s) as [l r].
  cbn [snd] in *. subst r. cbn [String.length] in Hl. lia.
Qed.

Lemma skip_integer_sound s r : skip_integer s = Some r -> exists i, integer_text i /\ s = (i ++ r)%string.
Proof.
  unfold skip_integer. destruct (at_char s "0") eqn:Hz.
  - apply at_char_split in Hz; [|done]. destruct (isdigit _); [done|]. intros [= <-]. exists "0"%string. split; [by left|exact Hz].
  - destruct (_ && _) eqn:Hc; [|done]. cbn [negb]. intros [= <-]. breflect.
    destruct s as [|c s]; [by cbn in *|]. cbn [head_char] in *.
    destruct (skip_digits_split s) as (d & Hd & E). exists (String c d). split; [right; by exists c, d|].
    assert (Hdigit : isdigit c = true).
    { pose proof (ascii_forall (fun c => negb (code "1" <=? code c) || negb (code c <=? code "9") || isdigit c) eq_refl c) as G.
      cbv beta in G. by rewrite !(proj2 (Z.leb_le _ _)) in G by lia. }
    unfold skip_digits in *. cbn [leading_digits]. rewrite Hdigit. destruct (leading_digits s) as [l r]. cbn [snd String.append] in *. by rewrite E.
Qed.

Lemma skip_fraction_sound s r : skip_fraction s = Some r -> exists f, fraction_text f /\ s = (f ++ r)%string.
Proof.
  unfold skip_fraction. destruct (at_char s ".") eqn:Hp; [|intros [= <-]; exists EmptyString; by split; [left|]].
  apply at_char_split in Hp; [|done]. destruct (isdigit _) eqn:Hd; [|done]. intros [= <-].
  destruct (digits_sound _ Hd) as (d & Hd' & E). exists (String "." d). split; [right; by exists d|]. cbn [String.append]. by rewrite <- E.
Qed.

Lemma skip_exponent_sound s r : skip_exponent s = Some r -> exists e, exponent_text e /\ s = (e ++ r)%string.
Proof.
  unfold skip_exponent. destruct (at_char s "e" || at_char s "E") eqn:He; [|intros [= <-]; exists EmptyString; by split; [left|]].
  assert (Hs : exists c, In c ["e"; "E"]%char /\ s = String c (tail_string s)).
  { apply orb_true_iff in He as [He|He]; (apply at_char_split in He; [|done]); eexists; (split; [|exact He]); cbn; auto. }
  destruct Hs as (c & Hin & Hs).
  assert (Hq : exists sign, In sign [""; "+"; "-"]%string /\ tail_string s =
    (sign ++ if at_char (tail_string s) "+" || at_char (tail_string s) "-" then tail_string (tail_string s) else tail_string s)%string).
  { destruct (at_char (tail_string s) "+") eqn:H1; [|destruct (at_char (tail_string s) "-") eqn:H2]; cbn [orb].
    - apply at_char_split in H1; [|done]. exists "+"%string. split; [cbn; auto|exact H1].
    - apply at_char_split in H2; [|done]. exists "-"%string. split; [cbn; auto|exact H2].
    - exists ""%string. split; [cbn; auto|done]. }
  destruct Hq as (sign & Hsign & Hq). cbv zeta. set (q := if at_char (tail_string s) "+" || at_char (tail_string s) "-" then tail_string (tail_string s) else tail_string s) in *.
  clearbody q.
  destruct (isdigit _) eqn:Hd; [|done]. intros [= <-].
  destruct (digits_sound _ Hd) as (d & Hd' & E). exists (String c (sign ++ d)). split; [right; by exists c, sign, d|].
  rewrite Hs, Hq at 1. rewrite E at 1. append_norm.
Qed.

Lemma skip_number_sound s r : skip_number s = Some r -> exists v, number_text v /\ s = (v ++ r)%string.
Proof.
  unfold skip_number. intros H.
  assert (Hm : exists minus, In minus [""; "-"]%string /\ s = (minus ++ if at_char s "-" then tail_string s else s)%string).
  { destruct (at_char s "-") eqn:E; [|exists EmptyString; split; [cbn; auto|done]].
    apply at_char_split in E; [|done]. exists "-"%string. split; [cbn; auto|exact E]. }
  destruct Hm as (minus & Hm & Es). cbv zeta in H. set (p := if at_char s "-" then tail_string s else s) in *. clearbody p.
  apply bind_Some in H as (q & H1 & H). apply bind_Some in H as (q2 & H2 & H3).
  apply skip_integer_sound in H1 as (i & Hi & ->). apply skip_fraction_sound in H2 as (f & Hf & ->).
  apply skip_exponent_sound in H3 as (e & He & ->).
  exists (minus ++ i ++ f ++ e)%string. split; [by exists minus, i, f, e|]. rewrite Es. append_norm.
Qed.

Lemma skip_sound fuel :
  (forall s d r, json_skip_value fuel s d = Some r ->
    exists w v, blank w = true /\ value_text d v /\ s = (w ++ v ++ r)%string) /\
  (forall s d r, json_skip_members fuel s d = Some r ->
    exists ms, members_text d ms /\ s = (ms ++ String "}" r)%string) /\
  (forall s d r, json_skip_elements fuel s d = Some r ->
    exists w es, blank w = true /\ elements_text d es /\ s = (w ++ es ++ String "]" r)%string).
Proof.
  induction fuel as [|fuel (IHv & IHm & IHe)]; [done|].
  split_and!; intros s d r H; cbn [json_skip_value json_skip_members json_skip_elements] in H.
  - destruct (64 <? d) eqn:Hd; [done|]. apply Z.ltb_ge in Hd. destruct (skip_ws_split s) as (w & Hw & Es & _).
    set (p := json_skip_ws s) in *. clearbody p. exists w. subst s.
    enough (exists v, value_text d v /\ p = (v ++ r)%string) as (v & Hv & ->) by (by exists v).
    destruct (at_char p QUOTE) eqn:Hq.
    { destruct (json_scan_string p) as [[[body e] q]|] eqn:Ej; [|done]. injection H as <-.
      apply scan_string_sound in Ej as (v & Hv & ->). exists v. by split; [apply value_string|]. }
    destruct (at_char p "{") eqn:Ho.
    { apply at_char_split in Ho; [|done]. rewrite Ho. clear Ho. set (q := tail_string p) in *. clearbody q.
      destruct (skip_ws_split q) as (w1 & Hw1 & Eq & _). cbv zeta in H. set (u := json_skip_ws q) in *. clearbody u. subst q.
      destruct (at_char u "}") eqn:Hc.
      - apply at_char_split in Hc; [|done]. injection H as <-. exists (String "{" (w1 ++ "}")).
        split; [by apply value_object_empty|]. rewrite Hc at 1. append_norm.
      - apply IHm in H as (ms & Hms & ->). exists (String "{" (w1 ++ ms ++ "}")). split; [by apply value_object|append_norm]. }
    destruct (at_char p "[") eqn:Ha.
    { apply at_char_split in Ha; [|done]. rewrite Ha. clear Ha. set (q := tail_string p) in *. clearbody q.
      destruct (skip_ws_split q) as (w1 & Hw1 & Eq & _). cbv zeta in H. set (u := json_skip_ws q) in *. clearbody u. subst q.
      destruct (at_char u "]") eqn:Hc.
      - apply at_char_split in Hc; [|done]. injection H as <-. exists (String "[" (w1 ++ "]")).
        split; [by apply value_array_empty|]. rewrite Hc at 1. append_norm.
      - apply IHe in H as (w2 & es & Hw2 & Hes & ->). exists (String "[" ((w1 ++ w2) ++ es ++ "]")).
        split; [apply value_array; [done| |done]; unfold blank in *; by rewrite forall_char_app, Hw1|append_norm]. }
    destruct (String.prefix "true" p) eqn:Ht; [|destruct (String.prefix "false" p) eqn:Hf; [|destruct (String.prefix "null" p) eqn:Hn]].
    + apply advance_prefix in Ht. injection H as <-. exists "true"%string. split; [apply value_word; cbn; auto|exact Ht].
    + apply advance_prefix in Hf. injection H as <-. exists "false"%string. split; [apply value_word; cbn; auto|exact Hf].
    + apply advance_prefix in Hn. injection H as <-. exists "null"%string. split; [apply value_word; cbn; auto|exact Hn].
    + apply skip_number_sound in H as (v & Hv & ->). exists v. by split; [apply value_number|].
  - destruct (json_scan_string s) as [[[body e] q]|] eqn:Ej; [|done]. apply scan_string_sound in Ej as (k & Hk & ->).
    destruct (skip_ws_split q) as (w1 & Hw1 & Eq & _). cbv zeta in H. set (u := json_skip_ws q) in *. clearbody u. subst q.
    destruct (at_char u ":") eqn:Hc; [|done]. apply at_char_split in Hc; [|done]. cbn [negb] in H. rewrite Hc. clear Hc.
    destruct (json_skip_value _ _ _) as [q|] eqn:Hv; [|done]. apply IHv in Hv as (w2 & v & Hw2 & Hv & ->).
    destruct (skip_ws_split q) as (w3 & Hw3 & Eq & _). set (y := json_skip_ws q) in *. clearbody y. subst q.
    destruct (at_char y "}") eqn:He.
    + apply at_char_split in He; [|done]. injection H as <-. exists (k ++ w1 ++ String ":" (w2 ++ v ++ w3))%string.
      split; [by apply member_last|]. rewrite He at 1. append_norm.
    + destruct (at_char y ",") eqn:Hc; [|done]. apply at_char_split in Hc; [|done]. cbn [negb] in H. rewrite Hc. clear Hc.
      apply IHm in H as (ms & Hms & Ems). destruct (skip_ws_split (tail_string y)) as (w4 & Hw4 & -> & _). rewrite Ems.
      exists (k ++ w1 ++ String ":" (w2 ++ v ++ w3 ++ String "," (w4 ++ ms)))%string. split; [by apply member_more|append_norm].
  - destruct (json_skip_value _ _ _) as [q|] eqn:Hv; [|done]. apply IHv in Hv as (w & v & Hw & Hv & ->). exists w.
    destruct (skip_ws_split q) as (w1 & Hw1 & Eq & _). cbv zeta in H. set (y := json_skip_ws q) in *. clearbody y. subst q.
    destruct (at_char y "]") eqn:He.
    + apply at_char_split in He; [|done]. injection H as <-. exists (v ++ w1)%string.
      split_and!; [done|by apply element_last|]. rewrite He at 1. append_norm.
    + destruct (at_char y ",") eqn:Hc; [|done]. apply at_char_split in Hc; [|done]. cbn [negb] in H. rewrite Hc. clear Hc.
      apply IHe in H as (w2 & es & Hw2 & Hes & ->).
      exists (v ++ w1 ++ String "," (w2 ++ es))%string. split_and!; [done|by apply element_more|append_norm].
Qed.

(** *** What is in the grammar it passes *)

Lemma simple_escape_of c : In c [QUOTE; BACKSLASH; "/"; "b"; "f"; "n"; "r"; "t"]%char -> simple_escape c = true /\ c <> "u"%char.
Proof. intros H. cbn [In] in H. destruct_or! H; subst; done. Qed.

Lemma scan_body_complete body r : string_body body -> exists b e, scan_body (body ++ String QUOTE r) = Some (b, e, r).
Proof.
  induction 1 as [|c s Hc _ (b' & e' & IH)|c s Hc _ (b' & e' & IH)|a b x y s Ha Hb Hx Hy _ (b' & e' & IH)]; [by do 2 eexists|..];
    cbn [String.append scan_body].
  - unfold plain_char in Hc. breflect. rewrite decide_False by (intros ->; done).
    rewrite (proj2 (Z.ltb_ge _ _)) by lia. rewrite decide_False by (intros ->; done). rewrite IH. by do 2 eexists.
  - change (code BACKSLASH <? 32) with false. rewrite decide_False by done. rewrite decide_True by done. cbv iota.
    destruct (simple_escape_of c Hc) as [Hs Hu]. rewrite decide_False by done. rewrite Hs, IH. by do 2 eexists.
  - change (code BACKSLASH <? 32) with false. rewrite decide_False by done. rewrite decide_True by done. cbv iota.
    rewrite decide_True by done. rewrite Ha, Hb, Hx, Hy, IH. by do 2 eexists.
Qed.

Lemma scan_string_complete v r : string_token v -> exists b e, json_scan_string (v ++ r) = Some (b, e, r).
Proof.
  intros (body & Hb & ->). unfold json_scan_string. cbn [String.append]. rewrite at_char_cons. cbn [negb tail_string].
  rewrite append_assoc. by apply scan_body_complete.
Qed.

Lemma digits_head d r : digits_text d -> isdigit (head_char (d ++ r)) = true.
Proof. intros [Hn Hd]. destruct d as [|c d]; [done|]. cbn in *. by apply andb_true_iff in Hd as [-> _]. Qed.

Lemma skip_exponent_complete e r :
  exponent_text e -> ends_value (head_char r) = true -> skip_exponent (e ++ r) = Some r.
Proof.
  intros He Hr. pose proof (ends_value_no_digit _ Hr) as Hd.
  destruct He as [->|(c & sign & d & Hc & Hs & Hds & ->)]; [by apply skip_tail_ends|].
  assert (Hsign : forall c, isdigit c = true -> code c <> code "+" /\ code c <> code "-").
  { intros a Ha. pose proof (ascii_forall (fun a => negb (isdigit a) || negb (code a =? code "+") && negb (code a =? code "-")) eq_refl a) as G.
    cbv beta in G. rewrite Ha in G. cbn [negb orb] in G. by breflect. }
  assert (Hrun : skip_exponent (String c (sign ++ d) ++ r) = (if isdigit (head_char (d ++ r)) then Some (skip_digits (d ++ r)) else None)).
  { unfold skip_exponent. cbn [String.append].
    replace (at_char (String c ((sign ++ d) ++ r)) "e" || at_char (String c ((sign ++ d) ++ r)) "E") with true
      by (cbn [In] in Hc; destruct_or! Hc; subst c; done).
    cbn [tail_string]. cbv zeta. cbn [In] in Hs. destruct_or! Hs; subst sign; cbn [String.append]; [|by rewrite at_char_cons|].
    - pose proof (digits_head d r Hds) as Hh. apply Hsign in Hh as [H1 H2]. unfold at_char.
      by rewrite !(proj2 (Z.eqb_neq _ _)) by done.
    - rewrite at_char_neq by done. by rewrite at_char_cons. }
  rewrite Hrun, digits_head by done. f_equal. apply skip_digits_app; [apply Hds|done].
Qed.

(** What follows an integer is not one more digit. *)
Lemma exponent_text_head e r :
  exponent_text e -> ends_value (head_char r) = true ->
  isdigit (head_char (e ++ r)) = false /\ at_char (e ++ r) "." = false.
Proof.
  intros [->|(c & sign & d & Hc & _ & _ & ->)] Hr.
  - split; [by apply ends_value_no_digit|]. unfold ends_value in Hr. breflect. unfold at_char. by apply Z.eqb_neq.
  - cbn [In] in Hc. destruct_or! Hc; by subst c.
Qed.

Lemma skip_fraction_complete f e r :
  fraction_text f -> exponent_text e -> ends_value (head_char r) = true ->
  skip_fraction (f ++ e ++ r) = Some (e ++ r)%string /\ isdigit (head_char (f ++ e ++ r)) = false.
Proof.
  intros Hf He Hr. destruct (exponent_text_head e r He Hr) as [Hd Hp]. unfold skip_fraction.
  destruct Hf as [->|(d & -> & Hds)]; [cbn [String.append]; by rewrite Hp|].
  cbn [String.append]. rewrite at_char_cons. cbn [tail_string]. rewrite digits_head by done.
  split; [|done]. f_equal. apply skip_digits_app; [apply Hds|done].
Qed.

Lemma skip_integer_complete i r :
  integer_text i -> isdigit (head_char r) = false -> skip_integer (i ++ r) = Some r.
Proof.
  intros [->|(c & d & -> & Hc & Hd)] Hr; unfold skip_integer; cbn [String.append].
  - rewrite at_char_cons. cbn [tail_string]. by rewrite Hr.
  - rewrite at_char_neq by (intros E; cbn in E; subst c; by destruct Hc as [Hc _]).
    cbn [head_char]. rewrite !(proj2 (Z.leb_le _ _)) by lia. cbn [andb negb]. f_equal.
    assert (Hdigit : isdigit c = true).
    { pose proof (ascii_forall (fun c => negb (code "1" <=? code c) || negb (code c <=? code "9") || isdigit c) eq_refl c) as G.
      cbv beta in G. by rewrite !(proj2 (Z.leb_le _ _)) in G by lia. }
    apply (skip_digits_app (String c d)); [cbn [forall_char]; by rewrite Hdigit|done].
Qed.

Lemma integer_text_head i r : integer_text i -> exists c s, (i ++ r)%string = String c s /\ isdigit c = true.
Proof.
  intros [->|(c & d & -> & Hc & _)]; [by do 2 eexists|]. exists c, (d ++ r)%string. split; [done|].
  pose proof (ascii_forall (fun c => negb (code "1" <=? code c) || negb (code c <=? code "9") || isdigit c) eq_refl c) as G.
  cbv beta in G. by rewrite !(proj2 (Z.leb_le _ _)) in G by lia.
Qed.

Lemma skip_number_complete v r :
  number_text v -> ends_value (head_char r) = true ->
  skip_number (v ++ r) = Some r /\ exists c s, v = String c s /\ starts_number c = true.
Proof.
  intros (minus & i & f & e & Hm & Hi & Hf & He & ->) Hr.
  destruct (skip_fraction_complete f e r Hf He Hr) as [Hsf Hd].
  assert (Hrest : (p ← skip_integer (i ++ f ++ e ++ r); p ← skip_fraction p; skip_exponent p) = Some r).
  { rewrite skip_integer_complete by done. cbn [mbind option_bind]. rewrite Hsf. cbn [mbind option_bind]. by apply skip_exponent_complete. }
  unfold skip_number. cbn [In] in Hm. destruct_or! Hm; subst minus; cbn [String.append]; rewrite !append_assoc.
  - destruct (integer_text_head i (f ++ e)%string Hi) as (c & s & E & Hc).
    split; [|exists c, s; split; [exact E|by unfold starts_number; rewrite Hc]].
    destruct (integer_text_head i (f ++ e ++ r)%string Hi) as (c' & s' & E' & Hc').
    rewrite at_char_neq; [exact Hrest|]. rewrite E'. cbn [head_char]. by intros ->.
  - rewrite at_char_cons. cbn [tail_string]. split; [exact Hrest|by do 2 eexists].
Qed.

(** The first character of a value. *)
Lemma value_text_head d v :
  value_text d v -> exists c s, v = String c s /\ isspace c = false /\ c <> "]"%char.
Proof.
  destruct 1 as [d v _ (b & _ & ->)|d v _ H|d v _ H|d w _ _|d w ms _ _ _|d w _ _|d w es _ _ _]; try by do 2 eexists.
  - cbn [In] in H. destruct_or! H; subst v; by do 2 eexists.
  - destruct (skip_number_complete v EmptyString H eq_refl) as (_ & c & s & -> & Hc). exists c, s. split; [done|].
    split; [by apply (starts_number_tests c EmptyString Hc)|by intros ->].
Qed.

Lemma members_text_head d ms : members_text d ms -> exists s, ms = String QUOTE s.
Proof. destruct 1 as [d k ? ? ? ? (b & _ & ->)|d k ? ? ? ? ? ? (b & _ & ->)]; by eexists. Qed.

Lemma elements_text_head d es : elements_text d es -> exists c s, es = String c s /\ isspace c = false /\ c <> "]"%char.
Proof.
  destruct 1 as [d v w1 Hv _|d v w1 w2 es Hv _ _ _]; destruct (value_text_head _ _ Hv) as (c & s & -> & Hc);
    by do 2 eexists.
Qed.

(** What holds with enough fuel. *)
Definition eventually (P : nat -> Prop) : Prop := exists f0, forall f, (f0 <= f)%nat -> P f.

Lemma eventually_and P Q : eventually P -> eventually Q -> eventually (fun f => P f /\ Q f).
Proof. intros [f1 H1] [f2 H2]. exists (Nat.max f1 f2). intros f Hf. split; [apply H1|apply H2]; lia. Qed.

Lemma eventually_S P Q : eventually P -> (forall f, P f -> Q (S f)) -> eventually Q.
Proof. intros [f0 H] HQ. exists (S f0). intros [|f] Hf; [lia|]. apply HQ, H. lia. Qed.

Lemma eventually_always P : (forall f, P (S f)) -> eventually P.
Proof. intros H. apply (eventually_S (fun _ => True)); [by exists O|auto]. Qed.

(** A separator or a closing bracket ends a value, and is no blank. *)
Lemma punctuation_ends w c s :
  In c ["}"; "]"; ","]%char -> blank w = true ->
  ends_value (head_char (w ++ String c s)) = true /\ json_skip_ws (w ++ String c s) = String c s.
Proof.
  intros Hc Hw. split; [apply blank_ends; [done|]|apply skip_ws_blank; [done|]]; cbn [In] in Hc; destruct_or! Hc; by subst c.
Qed.

Lemma skip_complete :
  (forall d v, value_text d v -> forall w r, blank w = true -> ends_value (head_char r) = true ->
    eventually (fun f => json_skip_value f (w ++ v ++ r) d = Some r)) /\
  (forall d ms, members_text d ms -> forall r, eventually (fun f => json_skip_members f (ms ++ String "}" r) d = Some r)) /\
  (forall d es, elements_text d es -> forall w r, blank w = true ->
    eventually (fun f => json_skip_elements f (w ++ es ++ String "]" r) d = Some r)).
Proof.
  apply texts_ind.
  - intros d v Hd Hv w r Hw _. apply eventually_always. intros f.
    destruct (scan_string_complete v r Hv) as (b & e & E). destruct Hv as (body & _ & ->). cbn [String.append] in *.
    rewrite skip_value_open by done. cbv zeta. by rewrite at_char_cons, E.
  - intros d v Hd Hv w r Hw _. apply eventually_always. intros f. apply skip_value_literal; [done..|].
    cbn [In] in Hv. destruct_or! Hv; auto.
  - intros d v Hd Hv w r Hw Hr. apply eventually_always. intros f.
    destruct (skip_number_complete v r Hv Hr) as (E & c & s & -> & Hc). by apply skip_value_number.
  - intros d w1 Hd Hw1 w r Hw _. apply eventually_always. intros f. cbn [String.append].
    rewrite skip_value_open by done. cbv zeta. rewrite at_char_neq by done. rewrite at_char_cons.
    rewrite append_assoc, skip_ws_blank by done. cbn [String.append]. by rewrite at_char_cons.
  - intros d w1 ms Hd Hw1 Hms IH w r Hw _. apply (eventually_S _ _ (IH r)). intros f E. cbn [String.append].
    rewrite skip_value_open by done. cbv zeta. rewrite at_char_neq by done. rewrite at_char_cons.
    destruct (members_text_head _ _ Hms) as [s Es]. rewrite !append_assoc, skip_ws_blank by (done || by rewrite Es).
    cbn [String.append]. rewrite at_char_neq by (by rewrite Es). exact E.
  - intros d w1 Hd Hw1 w r Hw _. apply eventually_always. intros f. cbn [String.append].
    rewrite skip_value_open by done. cbv zeta. rewrite !at_char_neq by done. rewrite at_char_cons.
    rewrite append_assoc, skip_ws_blank by done. cbn [String.append]. by rewrite at_char_cons.
  - intros d w1 es Hd Hw1 Hes IH w r Hw _. apply (eventually_S _ _ (IH EmptyString r eq_refl)). intros f E. cbn [String.append] in *.
    rewrite skip_value_open by done. cbv zeta. rewrite !at_char_neq by done. rewrite at_char_cons.
    destruct (elements_text_head _ _ Hes) as (c & s & Es & Hc & Hc'). rewrite !append_assoc, skip_ws_blank by (done || by rewrite Es).
    cbn [String.append]. rewrite at_char_neq by (by rewrite Es). exact E.
  - intros d k w1 w2 v w3 Hk Hw1 Hw2 _ IHv Hw3 r.
    destruct (punctuation_ends w3 "}" r ltac:(cbn; auto) Hw3) as [He Hs].
    apply (eventually_S _ _ (IHv w2 _ Hw2 He)). intros f E. cbn [json_skip_members]. rewrite !append_assoc. cbn [String.append].
    destruct (scan_string_complete k (w1 ++ String ":" ((w2 ++ v ++ w3) ++ String "}" r)) Hk) as (b & e & ->).
    cbv zeta. rewrite skip_ws_blank by done. rewrite at_char_cons. cbn [negb tail_string].
    rewrite !append_assoc, E, Hs. by rewrite at_char_cons.
  - intros d k w1 w2 v w3 w4 ms Hk Hw1 Hw2 _ IHv Hw3 Hw4 Hms IHm r.
    destruct (punctuation_ends w3 "," (w4 ++ ms ++ String "}" r) ltac:(cbn; auto) Hw3) as [He Hs].
    apply (eventually_S _ _ (eventually_and _ _ (IHv w2 _ Hw2 He) (IHm r))). intros f [E Em]. cbn [json_skip_members].
    rewrite !append_assoc. cbn [String.append].
    match goal with |- context [json_scan_string (k ++ ?s)] => destruct (scan_string_complete k s Hk) as (b & e & ->) end.
    cbv zeta. rewrite skip_ws_blank by done. rewrite at_char_cons. cbn [negb tail_string].
    rewrite !append_assoc. cbn [String.append]. rewrite !append_assoc, E, Hs.
    rewrite at_char_neq by done. rewrite at_char_cons. cbn [negb tail_string].
    destruct (members_text_head _ _ Hms) as [s Es]. by rewrite skip_ws_blank by (done || by rewrite Es).
  - intros d v w1 _ IHv Hw1 w r Hw. destruct (punctuation_ends w1 "]" r ltac:(cbn; auto) Hw1) as [He Hs].
    apply (eventually_S _ _ (IHv w _ Hw He)). intros f E. cbn [json_skip_elements]. rewrite !append_assoc, E.
    cbv zeta. rewrite Hs. by rewrite at_char_cons.
  - intros d v w1 w2 es _ IHv Hw1 Hw2 _ IHe w r Hw.
    destruct (punctuation_ends w1 "," (w2 ++ es ++ String "]" r) ltac:(cbn; auto) Hw1) as [He Hs].
    apply (eventually_S _ _ (eventually_and _ _ (IHv w _ Hw He) (IHe w2 r Hw2))). intros f [E Ee]. cbn [json_skip_elements].
    rewrite !append_assoc. cbn [String.append]. rewrite !append_assoc, E. cbv zeta. rewrite Hs.
    rewrite at_char_neq by done. rewrite at_char_cons. exact Ee.
Qed.

(** ** Properties *)

(** C35: Parse_json_u64_field is an exact reader: on the text of any object of
    well-formed values nested at most 64 levels, with the same blanks, whichever
    they are, wherever the grammar allows some, it returns the value of the field
    of a name without quotes, backslashes and control characters when there is
    exactly one and it is an unsigned 64-bit integer, and fails when the field is missing, repeated,
    negative, fractional, too large or of another type.  No string or nested
    object that mentions the name changes the answer. *)
Theorem field_reader_exact {common : Infiltratr} {L : InfiltratrLaws common} w name fields :
  blank w = true -> plain name = true ->
  Forall (fun kv => well_formed 64 (snd kv)) fields ->
  parse_json_u64_field (w ++ json_text w (JObj fields) ++ w) name = json_field_u64 name fields.
Proof. intros Hw. by apply parse_field_text. Qed.

Definition demo_fields : list (string * json) :=
  [("path", JStr (String QUOTE "fragmented_files")); ("cells", JArr [JInt 0; JObj [("fragmented_files", JInt 9)]]);
   ("fragmented_files", JInt 8); ("ratio", JReal 0 "50")].

Lemma field_reader_exact_witness :
  parse_json_u64_field (common := infiltratr_reference)
    (" " ++ json_text " " (JObj demo_fields) ++ " ") "fragmented_files" = Some 8.
Proof.
  rewrite (field_reader_exact (common := infiltratr_reference) (L := infiltratr_reference_laws)
    " " "fragmented_files" demo_fields).
  - reflexivity.
  - reflexivity.
  - reflexivity.
  - unfold demo_fields. repeat match goal with
    | |- Forall _ [] => constructor
    | |- Forall _ (_ :: _) => constructor; cbn [snd]
    | |- well_formed _ _ => rewrite well_formed_eq; cbv iota beta
    end.
    all: repeat split; try done; lia.
Defined.

(** An object whose only field is followed by a comma. *)
Definition trailing_comma (n : Z) : string :=
  String "{" (quoted "a" ++ String ":" (utoa n ++ ",}")).

Lemma skip_ws_id s : isspace (head_char s) = false -> json_skip_ws s = s.
Proof. apply (skip_ws_blank EmptyString). done. Qed.

Lemma utoa_not_space n r : isspace (head_char (utoa n ++ r)) = false.
Proof.
  rewrite head_append by apply utoa_nonempty. pose proof (utoa_head_digit n) as H.
  pose proof (ascii_forall (fun c => negb (isdigit c) || negb (isspace c)) eq_refl
    (head_char (utoa n))) as Hc. cbv beta in Hc. rewrite H in Hc. by apply negb_true_iff.
Qed.

Lemma trailing_comma_read {common : Infiltratr} {L : InfiltratrLaws common} n :
  is_u64 n -> parse_json_u64_field (trailing_comma n) "a" = Some n.
Proof.
  intros Hn. unfold is_u64 in Hn. unfold parse_json_u64_field, trailing_comma.
  rewrite skip_ws_id by done. rewrite at_char_cons. cbn [negb tail_string].
  rewrite skip_ws_id by done. cbv zeta.
  change (String.length (quoted "a" ++ String ":" (utoa n ++ ",}")))
    with (S (S (S (S (String.length (utoa n ++ ",}")))))).
  cbn [field_loop]. rewrite at_char_neq by done. cbn [is_empty quoted String.append orb].
  change (String QUOTE ((escape "a" ++ String QUOTE "") ++ String ":" (utoa n ++ ",}")))%string
    with (quoted "a" ++ String ":" (utoa n ++ ",}"))%string.
  rewrite scan_quoted. rewrite skip_ws_id by done. rewrite at_char_cons. cbn [negb tail_string].
  rewrite skip_ws_id by apply utoa_not_space.
  change (negb (negb (plain "a")) && String.eqb (escape "a") "a") with true. cbn [is_null negb].
  rewrite field_number_digits by (done || lia). rewrite (proj2 (Z.leb_le _ _)) by lia.
  reflexivity.
Qed.

Lemma trailing_comma_skip n : 0 <= n -> json_skip_value (json_fuel (trailing_comma n)) (trailing_comma n) 0 = None.
Proof.
  intros Hn. assert (Hf : (4 <= json_fuel (trailing_comma n))%nat)
    by (unfold json_fuel, trailing_comma; cbn [String.length]; lia).
  assert (Hlen : (json_fuel (utoa n ++ ",}") + 2 <= json_fuel (trailing_comma n))%nat).
  { unfold trailing_comma. length_lia. }
  destruct (json_fuel (trailing_comma n)) as [|[|f]]; [lia..|].
  unfold trailing_comma.
  pose proof (skip_value_open EmptyString "{" (quoted "a" ++ String ":" (utoa n ++ ",}"))
    (S f) 0 eq_refl ltac:(lia) eq_refl) as Hopen.
  cbn [String.append] in Hopen. rewrite Hopen. cbv zeta. clear Hopen.
  rewrite at_char_neq by done. rewrite at_char_cons. rewrite skip_ws_id by done.
  rewrite at_char_neq by done. cbn [json_skip_members]. rewrite scan_quoted.
  rewrite skip_ws_id by done. rewrite at_char_cons. cbn [negb tail_string].
  pose proof (skip_value_text EmptyString eq_refl 63 ltac:(lia) (JInt n) f EmptyString ",}"
    eq_refl Hn eq_refl) as Hskip. cbn [json_text String.append] in Hskip.
  change (64 - Z.of_nat 63) with (0 + 1) in Hskip. rewrite Hskip by lia.
  destruct f; reflexivity.
Qed.

(** The member loop of an object refuses the comma before a closing brace that the
    top-level loop of parse_json_u64_field accepts. *)
Lemma trailing_comma_accepted {common : Infiltratr} {L : InfiltratrLaws common} n :
  is_u64 n -> parse_json_u64_field (trailing_comma n) "a" = Some n /\
  json_skip_value (json_fuel (trailing_comma n)) (trailing_comma n) 0 = None.
Proof.
  intros Hn. split; [by apply trailing_comma_read|]. apply trailing_comma_skip.
  unfold is_u64 in Hn. lia.
Qed.

(** C36: Json_skip_value ends on every input and skips exactly one value.  With fuel
    twice the length of the rest the answer no longer depends on the fuel, so a
    refusal is the code's own.  What it passes is blanks and one value of the JSON
    grammar (its blanks those of isspace) nested at most 64 deep, whatever follows;
    and it passes every such value that is followed by no character that could
    continue a number. *)
Theorem skip_value_total s d :
  (forall f, (json_fuel s <= f)%nat -> json_skip_value f s d = json_skip_value (json_fuel s) s d) /\
  (forall r, json_skip_value (json_fuel s) s d = Some r ->
    exists w v, blank w = true /\ value_text d v /\ s = (w ++ v ++ r)%string) /\
  (forall w v r, blank w = true -> value_text d v -> ends_value (head_char r) = true -> s = (w ++ v ++ r)%string ->
    json_skip_value (json_fuel s) s d = Some r).
Proof.
  split_and!; [intros f Hf; by apply skip_fuel_irrelevant|intros r; apply skip_sound|].
  intros w v r Hw Hv Hr ->. destruct (proj1 skip_complete d v Hv w r Hw Hr) as [f0 H].
  rewrite <- (H (Nat.max f0 (json_fuel (w ++ v ++ r)))) by lia. apply skip_fuel_irrelevant; lia.
Qed.

Lemma skip_value_total_witness :
  json_skip_value 40 "[1,{}] ," 0 = Some " ,"%string /\
  exists w v, blank w = true /\ value_text 0 v /\ "[1,{}] ,"%string = (w ++ v ++ " ,")%string.
Proof.
  destruct (skip_value_total "[1,{}] ," 0) as (Hf & Hs & Hc).
  assert (E : json_skip_value (json_fuel "[1,{}] ,") "[1,{}] ," 0 = Some " ,"%string).
  { apply (Hc EmptyString "[1,{}]"%string); [reflexivity| |reflexivity|reflexivity].
    apply (value_array 0 "" "1,{}"); [lia|reflexivity|].
    apply (element_more 0 "1" "" "" "{}"); [|reflexivity|reflexivity|].
    - apply value_number; [lia|]. exists ""%string, "1"%string, ""%string, ""%string.
      split_and!; [left; reflexivity| |left; reflexivity|left; reflexivity|reflexivity].
      right. exists "1"%char, ""%string. split_and!; [reflexivity|vm_compute; discriminate..|reflexivity].
    - apply (element_last 0 "{}" ""); [|reflexivity]. apply (value_object_empty (0 + 1) ""); [lia|reflexivity]. }
  split; [rewrite Hf by (vm_compute; lia); exact E|exact (Hs _ E)].
Defined.
