(* ===== verification/TestMediaState.v ===== *)
(** The text formats of the test-media worker (test_media_worker.c): the
    protected state file that [prepare] writes and [verify] and [qualify] read,
    the details shown for a filesystem that was not built, the [lsblk -P]
    partition map, the card identity that is hashed for the destructive
    confirmation, and the deterministic file patterns. *)
From S2P Require Import Prelude Effects CString Infiltratr Sys DeviceTopology TestMediaCore.

(** ** The state file: writing *)

Definition sanitize_char (c : ascii) : ascii :=
  if (code c =? code TAB) || (code c =? code CR) || (code c =? code LF) then " "%char else c.
Definition sanitize_tsv (text : string) : string := map_char sanitize_char text.

Definition tabbed (fields : list string) : string := String.concat (String TAB "") fields.
Definition newline (s : string) : string := (s ++ String LF "")%string.

(** The text [state_write_status] appends for one filesystem. *)
Definition status_line (spec : LdtmFilesystemSpec) (status detail : string) : string :=
  tabbed ["fs"; key spec; status; sanitize_tsv (truncated detail 512)].

(** The four header lines that [ldtm_worker_prepare] writes. *)
Definition header_lines (device fingerprint : string) : list string :=
  [tabbed ["schema"; "3"]; tabbed ["corpus"; "1"]; tabbed ["device"; device];
   tabbed ["fingerprint"; fingerprint]].

Definition state_header (device fingerprint : string) : string :=
  String.concat "" (map newline (header_lines device fingerprint)).

(** ** The state file: reading *)

Definition LDTM_LINE_MAX : nat := 4096.

(** [fgets]: at most [n] characters, a line feed included, and the rest. *)
Fixpoint fgets (n : nat) (s : string) : string * string :=
  match n, s with
  | O, _ => (EmptyString, s)
  | _, EmptyString => (EmptyString, EmptyString)
  | S n, String c s' =>
      if decide (c = LF) then (String c EmptyString, s')
      else let '(l, r) := fgets n s' in (String c l, r)
  end.

(** The buffers a loop of [fgets] fills; every one is not empty. *)
Fixpoint fgets_lines (fuel : nat) (s : string) : list string :=
  match fuel with
  | O => []
  | S fuel =>
      if is_empty s then []
      else let '(l, r) := fgets (LDTM_LINE_MAX - 1) s in l :: fgets_lines fuel r
  end.

(** The line without its line feed, when it ends with one. *)
Fixpoint chop_newline (line : string) : option string :=
  match line with
  | EmptyString => None
  | String c EmptyString => if decide (c = LF) then Some EmptyString else None
  | String c line => String c <$> chop_newline line
  end.

Definition state_hash (text : string) : bool :=
  (strlen text =? 64) && forall_char isxdigit text.

Record LdtmVerifyFilesystem := mkVerify {
  populated : bool;
  build_status : string;
  build_detail : string;
}.

#[export] Instance LdtmVerifyFilesystem_eq_dec : EqDecision LdtmVerifyFilesystem.
Proof. solve_decision. Defined.

Definition build_statuses : list string :=
  ["populated"; "failed"; "format-failed"; "formatted-unpopulated"; "qualification-failed";
   "skipped"].

Record parse_state := mkParse {
  headers : Z;
  filesystems : Z;
  state : list LdtmVerifyFilesystem;
  saved_fingerprint : string;
}.

Definition initial_parse : parse_state :=
  mkParse 0 0 (repeat (mkVerify false EmptyString EmptyString) LDTM_SPEC_COUNT) EmptyString.

(** [if ((headers & bit) != 0U) return -1; headers |= bit;] *)
Definition set_header (bit : Z) (p : parse_state) : option parse_state :=
  if negb (Z.land (headers p) bit =? 0) then None
  else Some (mkParse (Z.lor (headers p) bit) (filesystems p) (state p) (saved_fingerprint p)).

(** The [fs] line of the filesystem called [name]. *)
Definition set_filesystem (name status detail : string) (p : parse_state) : option parse_state :=
  match ldtm_find_spec (Some name) with
  | None => None
  | Some (index, _) =>
      let bit := Z.shiftl 1 (Z.of_nat index) in
      if negb (Z.land (filesystems p) bit =? 0) || (64 <=? strlen status) || (512 <=? strlen detail)
      then None
      else if negb (existsb (String.eqb status) build_statuses) then None
      else Some (mkParse (headers p) (Z.lor (filesystems p) bit)
        (<[index := mkVerify (String.eqb status "populated") status detail]> (state p))
        (saved_fingerprint p))
  end.

(** One round of the loop of [parse_verify_state]; [None] is [return -1]. *)
Definition parse_state_line (device buffer : string) (p : parse_state) : option parse_state :=
  match chop_newline (cut_nul buffer) with
  | None => None
  | Some line =>
      match fields_on TAB line with
      | [f0; f1] =>
          if String.eqb f0 "schema" && String.eqb f1 "3" then set_header 1 p
          else if String.eqb f0 "corpus" && String.eqb f1 "1" then set_header 2 p
          else if String.eqb f0 "device" && String.eqb f1 device then set_header 4 p
          else if String.eqb f0 "fingerprint" && state_hash f1 then
            p ← set_header 8 p;
            Some (mkParse (headers p) (filesystems p) (state p) f1)
          else None
      | [f0; f1; f2; f3] => if String.eqb f0 "fs" then set_filesystem f1 f2 f3 p else None
      | _ => None
      end
  end.

Fixpoint parse_state_lines (device : string) (buffers : list string) (p : parse_state) :
    option parse_state :=
  match buffers with
  | [] => Some p
  | b :: buffers => p ← parse_state_line device b p; parse_state_lines device buffers p
  end.

(** The stream is its content and the error indicator at its end. *)
Definition parse_verify_state (stream : string) (ferror : bool) (device : string) :
    option (list LdtmVerifyFilesystem * string) :=
  p ← parse_state_lines device (fgets_lines (String.length stream) stream) initial_parse;
  if negb ferror && (headers p =? 15) &&
     (filesystems p =? Z.shiftl 1 (Z.of_nat LDTM_SPEC_COUNT) - 1)
  then Some (state p, saved_fingerprint p) else None.

(** ** Details *)

(** [append_bounded_text] on a buffer of [capacity] bytes that holds
    [destination]. *)
Definition append_bounded_text (destination : string) (capacity : Z) (source : string) : string :=
  if (capacity =? 0) || (capacity - 1 <=? strlen destination) then destination
  else (destination ++ String.substring 0 (Z.to_nat (capacity - strlen destination - 1)) source)%string.

Definition describe_unpopulated_filesystem (expected : LdtmVerifyFilesystem) (detail_capacity : Z) :
    string :=
  if detail_capacity =? 0 then EmptyString
  else
    let detail := append_bounded_text EmptyString detail_capacity
      "Build Test Disk did not produce a populated filesystem" in
    let detail :=
      if is_empty (build_status expected) then detail
      else append_bounded_text (append_bounded_text (append_bounded_text detail detail_capacity " (")
             detail_capacity (build_status expected)) detail_capacity ")" in
    if is_empty (build_detail expected) then detail
    else append_bounded_text (append_bounded_text detail detail_capacity ": ")
           detail_capacity (build_detail expected).

(** ** The partition map *)

Record LdtmPartition := mkPartition { path : string; partlabel : string }.

Section Pairs.
  Context `{Infiltratr}.

  (** The copy loop of [extract_pair] with [room] bytes left before the last
      one of the buffer. *)
Fixpoint extract_value (room : nat) (cursor : string) {struct room} : string :=
    match room with
    | O => EmptyString
    | S room =>
        match cursor with
        | EmptyString => EmptyString
        | String c s1 =>
            if decide (c = QUOTE) then EmptyString
            else if decide (c = BACKSLASH) then
              let plain_escape :=
                match s1 with
                | EmptyString => String c (extract_value room s1)
                | String e s2 => String e (extract_value room s2)
                end in
              match s1 with
              | String x (String high (String low s2)) =>
                  if decide (x = "x"%char) then
                    match ldtm_decode_hex_byte high low with
                    | Some decoded => String (chr decoded) (extract_value room s2)
                    | None => plain_escape
                    end
                  else plain_escape
              | _ => plain_escape
              end
            else String c (extract_value room s1)
        end
    end.

  (** The C string in [value] after a return of 1; [None] is 0. *)
Definition extract_pair (line key : string) (capacity : Z) : option string :=
    if capacity =? 0 then None
    else
      let needle := truncated (key ++ String "=" (String QUOTE EmptyString)) 64 in
      match strstr line needle with
      | None => None
      | Some found =>
          Some (cut_nul (extract_value (Z.to_nat (capacity - 1))
            (String.substring (String.length needle) (String.length found) found)))
      end.

  (** One line of [lsblk -P]. *)
Definition partition_entry (line : string) : option LdtmPartition :=
    match extract_pair line "PATH" PATH_MAX with
    | None => None
    | Some path =>
        match extract_pair line "PARTLABEL" 64 with
        | Some label => if is_empty label then None else Some (mkPartition path label)
        | None => None
        end
    end.

  (** The loop over the lines, [room] entries of the map left. *)
Fixpoint partition_entries (room : nat) (lines : list string) : list LdtmPartition :=
    match room, lines with
    | S room', line :: lines =>
        match partition_entry line with
        | Some p => p :: partition_entries room' lines
        | None => partition_entries room lines
        end
    | _, _ => []
    end.

  (** [load_partition_map] on the captured output. *)
Definition partition_map (output : string) : option (list LdtmPartition) :=
    let items := partition_entries LDTM_SPEC_COUNT (strtok LF output) in
    if is_null (head items) then None else Some items.
End Pairs.

Fixpoint partition_for_label (map : list LdtmPartition) (label : string) : option string :=
  match map with
  | [] => None
  | item :: map =>
      if String.eqb (partlabel item) label then Some (path item) else partition_for_label map label
  end.

(** ** Identity and patterns *)

Definition mmc_material (size_bytes major_number minor_number : Z) (cid : string) : string :=
  ("mmc-cid-v1" ++ String LF "size=" ++ utoa size_bytes ++ String LF "rdev=" ++
   utoa major_number ++ ":" ++ utoa minor_number ++ String LF "cid=" ++ cid ++ String LF "")%string.

(** [None] is -1; [cid] may be NULL. *)
Definition ldtm_mmc_identity_material (size_bytes major_number minor_number : Z)
    (cid : option string) (capacity : Z) : option string :=
  match cid with
  | None => None
  | Some cid =>
      if (size_bytes =? 0) || (capacity =? 0) || negb (strlen cid =? 32) then None
      else if negb (forall_char isxdigit cid) then None
      else
        let normalised_cid := map_char tolower cid in
        if forall_char (fun c => code c =? code "0") normalised_cid then None
        else
          let material := mmc_material size_bytes major_number minor_number normalised_cid in
          if fits material capacity then Some material else None
  end.

Definition hex_char (n : Z) : ascii := if n <? 10 then chr (n + 48) else chr (n + 87).

(** The first 32 bytes of the digest, two digits each. *)
Definition digest_to_hex (digest : list Z) : string :=
  String.concat "" (map (fun b => String (hex_char (Z.land (Z.shiftr b 4) 15))
    (String (hex_char (Z.land b 15)) EmptyString)) (take 32 digest)).

Definition fill_step (state : Z) : Z :=
  let state := Z.lxor state (u64 (Z.shiftl state 13)) in
  let state := Z.lxor state (Z.shiftr state 7) in
  Z.lxor state (u64 (Z.shiftl state 17)).

Fixpoint fill_loop (length : nat) (state : Z) : list Z :=
  match length with
  | O => []
  | S length => let state := fill_step state in Z.land state 255 :: fill_loop length state
  end.

Definition deterministic_fill (length : nat) (seed : Z) : list Z := fill_loop length (Z.lor seed 1).

Definition edge_case_seed (index size : Z) : Z :=
  Z.lxor (Z.lxor 4991192648711667712 (u64 (Z.shiftl index 32))) size.

(** ** Lines and fields *)

Definition unbroken (s : string) : bool :=
  negb (has_char LF s) && negb (has_char NUL s) && (strlen s + 1 <? Z.of_nat LDTM_LINE_MAX).

Lemma newline_cons c s : newline (String c s) = String c (newline s).
Proof. done. Qed.

Lemma fgets_newline n s r :
  has_char LF s = false -> (String.length s < n)%nat ->
  fgets n (newline s ++ r) = (newline s, r).
Proof.
  revert n. induction s as [|c s IH]; intros n Hs Hn; (destruct n as [|n]; [simpl in Hn; lia|]).
  - done.
  - rewrite newline_cons. cbn [String.append fgets]. cbn [has_char] in Hs.
    destruct (ascii_dec c LF) as [|Hc]; [done|]. rewrite decide_False by done.
    cbn [String.length] in Hn. by rewrite IH by (done || lia).
Qed.

Lemma chop_newline_newline s : chop_newline (newline s) = Some s.
Proof.
  induction s as [|c s IH]; [done|]. rewrite newline_cons. cbn [chop_newline].
  rewrite IH. by destruct s.
Qed.

Lemma unbroken_line s :
  unbroken s = true ->
  (forall r, fgets (LDTM_LINE_MAX - 1) (newline s ++ r) = (newline s, r)) /\
  chop_newline (cut_nul (newline s)) = Some s.
Proof.
  unfold unbroken. intros H. breflect. split.
  - intros r. apply fgets_newline; [done|]. unfold strlen, LDTM_LINE_MAX in *. lia.
  - rewrite cut_nul_none; [apply chop_newline_newline|]. unfold newline. rewrite has_char_app.
    by apply orb_false_iff.
Qed.

Lemma concat_cons (x : string) l : String.concat "" (x :: l) = (x ++ String.concat "" l)%string.
Proof. destruct l; [|done]. cbn [String.concat]. by rewrite append_nil_r. Qed.

Lemma fgets_lines_text lines fuel :
  Forall (fun s => unbroken s = true) lines ->
  (length lines <= fuel)%nat ->
  fgets_lines fuel (String.concat "" (map newline lines)) = map newline lines.
Proof.
  intros Hl. revert fuel. induction Hl as [|s lines Hs Hl IH]; intros fuel Hf.
  - by destruct fuel.
  - cbn [length] in Hf. destruct fuel as [|fuel]; [lia|].
    cbn [map]. rewrite concat_cons.
    cbn [fgets_lines]. destruct (unbroken_line s Hs) as [Hg _]. rewrite Hg.
    replace (is_empty _) with false by (by destruct s). by rewrite IH by lia.
Qed.

Lemma length_concat_lines lines :
  (length lines <= String.length (String.concat "" (map newline lines)))%nat.
Proof.
  assert (Hlen : forall a b : string, String.length (a ++ b)%string = (String.length a + String.length b)%nat)
    by (intros a b; induction a; simpl; auto).
  induction lines as [|s lines IH]; [done|]. cbn [map]. rewrite concat_cons, Hlen.
  unfold newline at 1. rewrite Hlen. cbn [length String.length]. lia.
Qed.

Lemma fields_tabbed fields :
  fields <> [] -> Forall (fun f => has_char TAB f = false) fields ->
  fields_on TAB (tabbed fields) = fields.
Proof.
  intros Hne Hf. induction Hf as [|f fields Hf Hfs IH]; [done|].
  destruct fields as [|g fields].
  - unfold tabbed. cbn [String.concat]. by apply fields_on_none.
  - change (tabbed (f :: g :: fields)) with (f ++ String TAB (tabbed (g :: fields)))%string.
    rewrite fields_on_app by done. by rewrite IH.
Qed.

Lemma tabbed_fields s : tabbed (fields_on TAB s) = s.
Proof.
  induction s as [|c s IH]; [done|]. cbn [fields_on].
  pose proof (fields_on_nonempty TAB s) as Hne. destruct (ascii_dec c TAB) as [->|Hc].
  - destruct (fields_on TAB s) as [|f fs] eqn:E; [done|].
    change (tabbed (EmptyString :: f :: fs)) with (String TAB (tabbed (f :: fs))). by rewrite IH.
  - destruct (fields_on TAB s) as [|f fs] eqn:E; [done|]. rewrite <- IH.
    unfold tabbed. by destruct fs.
Qed.

Lemma parse_state_lines_app device a b p :
  parse_state_lines device (a ++ b) p =
    p ← parse_state_lines device a p; parse_state_lines device b p.
Proof.
  revert p. induction a as [|x a IH]; intros p; [done|]. cbn [app parse_state_lines].
  destruct (parse_state_line device x p); simpl; [apply IH|done].
Qed.

(** The line of an accepted buffer, split into its fields. *)
Lemma parse_line_newline device s p :
  unbroken s = true ->
  parse_state_line device (newline s) p =
    match fields_on TAB s with
    | [f0; f1] =>
        if String.eqb f0 "schema" && String.eqb f1 "3" then set_header 1 p
        else if String.eqb f0 "corpus" && String.eqb f1 "1" then set_header 2 p
        else if String.eqb f0 "device" && String.eqb f1 device then set_header 4 p
        else if String.eqb f0 "fingerprint" && state_hash f1 then
          p ← set_header 8 p;
          Some (mkParse (headers p) (filesystems p) (state p) f1)
        else None
    | [f0; f1; f2; f3] => if String.eqb f0 "fs" then set_filesystem f1 f2 f3 p else None
    | _ => None
    end.
Proof. intros Hs. unfold parse_state_line. by destruct (unbroken_line s Hs) as [_ ->]. Qed.

(** ** Every accepted line is accounted for *)

(** A buffer of [fgets] has a line feed at most at its end. *)
Fixpoint lf_last (b : string) : bool :=
  match b with
  | EmptyString => true
  | String c b => if decide (c = LF) then is_empty b else lf_last b
  end.

Lemma fgets_split n s l r :
  fgets n s = (l, r) ->
  (l ++ r)%string = s /\ lf_last l = true /\
  ((0 < n)%nat -> s <> EmptyString -> (String.length r < String.length s)%nat).
Proof.
  revert s l r. induction n as [|n IH]; intros s l r H; cbn [fgets] in H.
  - injection H as <- <-. repeat split. lia.
  - destruct s as [|c s]; [by injection H as <- <-|]. case_decide as Hc.
    + injection H as <- <-. subst c. repeat split. intros; simpl; lia.
    + destruct (fgets n s) as [l' r'] eqn:E. injection H as <- <-.
      destruct (IH _ _ _ E) as (H1 & H2 & H3). cbn [String.append lf_last].
      rewrite H1, decide_False by done. split; [done|]. split; [done|]. intros _ _.
      rewrite <- H1. assert (forall a b : string, (String.length b <= String.length (a ++ b)%string)%nat)
        as Hle by (intros a b; induction a; simpl; lia).
      cbn [String.length]. pose proof (Hle l' r'). lia.
Qed.

Lemma fgets_lines_split fuel s :
  (String.length s <= fuel)%nat ->
  String.concat "" (fgets_lines fuel s) = s /\
  Forall (fun b => lf_last b = true) (fgets_lines fuel s).
Proof.
  revert s. induction fuel as [|fuel IH]; intros s Hs.
  - destruct s; [by split|simpl in Hs; lia].
  - cbn [fgets_lines]. destruct s as [|c s]; [by split|]. cbn [is_empty].
    destruct (fgets (LDTM_LINE_MAX - 1) (String c s)) as [l r] eqn:E.
    destruct (fgets_split _ _ _ _ E) as (H1 & H2 & H3).
    assert (Hr : (String.length r < String.length (String c s))%nat)
      by (apply H3; [unfold LDTM_LINE_MAX; lia|done]).
    destruct (IH r) as [IH1 IH2]; [lia|]. rewrite concat_cons, IH1.
    split; [done|]. by constructor.
Qed.

Lemma chop_cut_inv b line :
  lf_last b = true -> chop_newline (cut_nul b) = Some line -> b = newline line.
Proof.
  revert line. induction b as [|c b IH]; intros line Hb H; [done|].
  cbn [lf_last cut_nul] in *. destruct (ascii_dec c NUL); [done|].
  case_decide as Hc.
  - destruct b; [|done]. cbn [cut_nul chop_newline] in H. rewrite decide_True in H by done.
    injection H as <-. by subst c.
  - cbn [chop_newline] in H. destruct (cut_nul b) as [|d b'] eqn:E.
    + by rewrite decide_False in H.
    + apply fmap_Some in H as (line' & H & ->). rewrite (IH line') by done. done.
Qed.

(** The entries of the set bits of a mask below [n]. *)
Definition flagged {A} (mask : Z) (entry : nat -> A) (n : nat) : list A :=
  flat_map (fun i => if Z.testbit mask (Z.of_nat i) then [entry i] else []) (List.seq 0 n).

Lemma flagged_set {A} mask i n (entry entry' : nat -> A) :
  (i < n)%nat -> Z.land mask (Z.shiftl 1 (Z.of_nat i)) = 0 ->
  (forall j, j <> i -> entry' j = entry j) ->
  flagged (Z.lor mask (Z.shiftl 1 (Z.of_nat i))) entry' n ≡ₚ entry' i :: flagged mask entry n.
Proof.
  intros Hi Hbit Hentry. unfold flagged.
  assert (Hshift : forall j, Z.testbit (Z.shiftl 1 (Z.of_nat i)) (Z.of_nat j) = bool_decide (j = i)).
  { intros j. rewrite Z.shiftl_1_l, Z.pow2_bits_eqb by lia.
    case_bool_decide; [subst; apply Z.eqb_refl|apply Z.eqb_neq; lia]. }
  assert (Hclear : Z.testbit mask (Z.of_nat i) = false).
  { apply (f_equal (fun z => Z.testbit z (Z.of_nat i))) in Hbit.
    rewrite Z.land_spec, Hshift, Z.bits_0, bool_decide_true, andb_true_r in Hbit by done. done. }
  assert (Hrest : forall l, ~ List.In i l ->
    flat_map (fun j => if Z.testbit (Z.lor mask (Z.shiftl 1 (Z.of_nat i))) (Z.of_nat j)
      then [entry' j] else []) l =
    flat_map (fun j => if Z.testbit mask (Z.of_nat j) then [entry j] else []) l).
  { intros l Hl. induction l as [|j l IH]; [done|]. cbn [flat_map List.In] in *.
    rewrite IH by tauto. assert (j <> i) by (intros ->; tauto).
    rewrite Z.lor_spec, Hshift, bool_decide_false, orb_false_r by done. by rewrite Hentry. }
  assert (Hseq : List.seq 0 n = List.seq 0 i ++ i :: List.seq (S i) (n - S i)).
  { replace n with (i + S (n - S i))%nat at 1 by lia. rewrite seq_app. done. }
  rewrite Hseq, !flat_map_app. cbn [flat_map].
  rewrite !Hrest by (rewrite in_seq; lia).
  rewrite Z.lor_spec, Hshift, bool_decide_true, orb_true_r, Hclear by done. cbn [app].
  by rewrite <- Permutation_middle.
Qed.

Lemma flagged_full {A} n (entry : nat -> A) :
  flagged (Z.shiftl 1 (Z.of_nat n) - 1) entry n = map entry (List.seq 0 n).
Proof.
  unfold flagged. rewrite flat_map_concat_map.
  assert (H : forall l, (forall j, List.In j l -> (j < n)%nat) ->
    concat (map (fun i => if Z.testbit (Z.shiftl 1 (Z.of_nat n) - 1) (Z.of_nat i) then [entry i] else []) l)
      = map entry l).
  { intros l Hl. induction l as [|j l IH]; [done|]. cbn [map concat].
    rewrite IH by (intros; apply Hl; by right).
    replace (Z.shiftl 1 (Z.of_nat n) - 1) with (Z.ones (Z.of_nat n))
      by (rewrite Z.shiftl_1_l, Z.ones_equiv; lia).
    rewrite Z.ones_spec_low by (specialize (Hl j (or_introl eq_refl)); lia). done. }
  apply H. intros j Hj%in_seq. lia.
Qed.

Definition header_entry (device fingerprint : string) (i : nat) : string :=
  List.nth i (header_lines device fingerprint) EmptyString.

Definition record_line (spec : LdtmFilesystemSpec) (v : LdtmVerifyFilesystem) : string :=
  tabbed ["fs"; key spec; build_status v; build_detail v].

Definition fs_entry (st : list LdtmVerifyFilesystem) (i : nat) : string :=
  match ldtm_specs !! i, st !! i with
  | Some spec, Some v => record_line spec v
  | _, _ => EmptyString
  end.

(** The lines a parser state stands for. *)
Definition accounted (device : string) (p : parse_state) : list string :=
  flagged (headers p) (header_entry device (saved_fingerprint p)) 4 ++
  flagged (filesystems p) (fs_entry (state p)) LDTM_SPEC_COUNT.

Definition valid_record (v : LdtmVerifyFilesystem) : Prop :=
  populated v = String.eqb (build_status v) "populated" /\ In (build_status v) build_statuses.

Record sound_parse (p : parse_state) : Prop := {
  sound_length : length (state p) = LDTM_SPEC_COUNT;
  sound_records i v : Z.testbit (filesystems p) (Z.of_nat i) = true ->
    state p !! i = Some v -> valid_record v;
  sound_hash : Z.testbit (headers p) 3 = true -> state_hash (saved_fingerprint p) = true;
}.

Lemma set_header_sound device k p p' :
  (k < 3)%nat -> set_header (Z.shiftl 1 (Z.of_nat k)) p = Some p' -> sound_parse p ->
  sound_parse p' /\
  accounted device p' ≡ₚ header_entry device (saved_fingerprint p) k :: accounted device p.
Proof.
  intros Hk H [H1 H2 H3]. unfold set_header in H. case_match eqn:E; [done|]. injection H as <-.
  breflect. split.
  - split; cbn [headers filesystems state saved_fingerprint]; try done. intros Hb. apply H3.
    rewrite Z.lor_spec in Hb. apply orb_true_iff in Hb as [Hb|Hb]; [done|].
    rewrite Z.shiftl_1_l, Z.pow2_bits_eqb in Hb by lia. apply Z.eqb_eq in Hb. lia.
  - unfold accounted. cbn [headers filesystems state saved_fingerprint].
    rewrite (flagged_set _ k 4 (header_entry device (saved_fingerprint p))); [done|lia|done|done].
Qed.

Lemma set_fingerprint_sound device fp p p' :
  set_header 8 p = Some p' -> state_hash fp = true -> sound_parse p ->
  let q := mkParse (headers p') (filesystems p') (state p') fp in
  sound_parse q /\ accounted device q ≡ₚ tabbed ["fingerprint"; fp] :: accounted device p.
Proof.
  intros H Hfp [H1 H2 H3]. unfold set_header in H. case_match eqn:E; [done|]. injection H as <-.
  breflect. cbv zeta. split; [by split|].
  unfold accounted. cbn [headers filesystems state saved_fingerprint].
  change 8 with (Z.shiftl 1 (Z.of_nat 3)) in *.
  rewrite (flagged_set _ 3 4 (header_entry device (saved_fingerprint p))); [done|lia|done|].
  intros j Hj. do 4 (destruct j as [|j]; [done|]). by destruct j.
Qed.

Lemma nth_error_is_lookup {A} (l : list A) i : nth_error l i = l !! i.
Proof. revert i. induction l as [|x l IH]; intros [|i]; simpl; auto. Qed.

Lemma set_filesystem_sound device name status detail p p' :
  set_filesystem name status detail p = Some p' -> sound_parse p ->
  sound_parse p' /\
  accounted device p' ≡ₚ tabbed ["fs"; name; status; detail] :: accounted device p.
Proof.
  intros H [H1 H2 H3]. unfold set_filesystem in H.
  destruct (ldtm_find_spec (Some name)) as [[i spec]|] eqn:Espec; [|done].
  apply find_spec_from_sound in Espec as (_ & Hspec & <-). rewrite Nat.sub_0_r in Hspec.
  assert (Hi : (i < LDTM_SPEC_COUNT)%nat).
  { apply (nth_error_Some LDTM_SPECS). by rewrite Hspec. }
  destruct (_ || _ || _) eqn:Eguard in H; [done|].
  destruct (existsb (String.eqb status) build_statuses) eqn:Estatus; [|done].
  injection H as <-. breflect.
  split; [split; cbn [headers filesystems state saved_fingerprint]|].
  - by rewrite length_insert.
  - intros j v Hj Hv. destruct (decide (j = i)) as [->|Hne].
    + rewrite list_lookup_insert_eq in Hv by (by rewrite H1). injection Hv as <-. split; [done|].
      cbn [build_status]. apply existsb_exists in Estatus as (x & Hx & Heq).
      apply String.eqb_eq in Heq as ->. done.
    + rewrite list_lookup_insert_ne in Hv by done. apply (H2 j); [|done].
      rewrite Z.lor_spec in Hj. apply orb_true_iff in Hj as [Hj|Hj]; [done|].
      rewrite Z.shiftl_1_l, Z.pow2_bits_eqb in Hj by lia. apply Z.eqb_eq in Hj. lia.
  - done.
  - unfold accounted. cbn [headers filesystems state saved_fingerprint].
    rewrite (flagged_set _ i LDTM_SPEC_COUNT (fs_entry (state p))); [|done|done|].
    + unfold fs_entry at 1. rewrite list_lookup_insert_eq by (by rewrite H1).
      assert (ldtm_specs !! i = Some spec) as -> by (by rewrite <- nth_error_is_lookup).
      by rewrite <- Permutation_middle.
    + intros j Hj. unfold fs_entry. by rewrite list_lookup_insert_ne.
Qed.

Lemma parse_line_sound device b p p' :
  parse_state_line device b p = Some p' -> lf_last b = true -> sound_parse p ->
  exists line, b = newline line /\ sound_parse p' /\
    accounted device p' ≡ₚ line :: accounted device p.
Proof.
  intros H Hb Hp. unfold parse_state_line in H.
  destruct (chop_newline (cut_nul b)) as [line|] eqn:E; [|done].
  exists line. split; [by apply chop_cut_inv|]. rewrite <- (tabbed_fields line).
  destruct (fields_on TAB line) as [|f0 [|f1 [|f2 [|f3 [|f4 fs]]]]]; try done.
  - repeat case_match.
    + breflect. rewrite (proj1 (String.eqb_eq f0 _)), (proj1 (String.eqb_eq f1 _)) by done.
      apply (set_header_sound device 0); [lia|done|done].
    + breflect. rewrite (proj1 (String.eqb_eq f0 _)), (proj1 (String.eqb_eq f1 _)) by done.
      apply (set_header_sound device 1); [lia|done|done].
    + breflect. rewrite (proj1 (String.eqb_eq f0 _)), (proj1 (String.eqb_eq f1 _)) by done.
      apply (set_header_sound device 2); [lia|done|done].
    + breflect. rewrite (proj1 (String.eqb_eq f0 _)) by done.
      apply bind_Some in H as (q & Hq & [= <-]). by apply set_fingerprint_sound.
    + done.
  - case_match; [|done]. rewrite (proj1 (String.eqb_eq f0 _)) by done.
    by apply set_filesystem_sound.
Qed.

Lemma parse_lines_sound device buffers p p' :
  parse_state_lines device buffers p = Some p' ->
  Forall (fun b => lf_last b = true) buffers -> sound_parse p ->
  exists lines, buffers = map newline lines /\ sound_parse p' /\
    accounted device p' ≡ₚ lines ++ accounted device p.
Proof.
  revert p. induction buffers as [|b buffers IH]; intros p H Hb Hp.
  - injection H as <-. by exists [].
  - apply Forall_cons_iff in Hb as [Hb Hbs]. cbn [parse_state_lines] in H.
    apply bind_Some in H as (q & Hq & H).
    destruct (parse_line_sound _ _ _ _ Hq Hb Hp) as (line & -> & Hsq & Hperm).
    destruct (IH _ H Hbs Hsq) as (lines & -> & Hsp & Hperm').
    exists (line :: lines). split; [done|]. split; [done|]. rewrite Hperm', Hperm.
    cbn [app]. by rewrite <- Permutation_middle.
Qed.

(** ** Written states are read back *)

Definition written_records (records : list (string * string)) : list string :=
  zip_with (fun spec r => status_line spec (fst r) (snd r)) ldtm_specs records.

(** What [prepare] leaves in the file after a record for every slot. *)
Definition state_text (device fingerprint : string) (records : list (string * string)) : string :=
  (state_header device fingerprint ++ String.concat "" (map newline (written_records records)))%string.

Definition built (r : string * string) : LdtmVerifyFilesystem :=
  mkVerify (String.eqb (fst r) "populated") (fst r) (sanitize_tsv (truncated (snd r) 512)).

(** A text that can be a field of a line. *)
Definition field_text (s : string) : bool :=
  negb (has_char TAB s) && negb (has_char LF s) && negb (has_char NUL s).

Lemma has_char_tabbed c fields :
  c <> TAB -> Forall (fun f => has_char c f = false) fields -> has_char c (tabbed fields) = false.
Proof.
  intros Hc Hf. induction Hf as [|f fields Hf Hfs IH]; [done|].
  destruct fields as [|g fields]; [done|].
  change (tabbed (f :: g :: fields)) with (f ++ String TAB (tabbed (g :: fields)))%string.
  rewrite has_char_app, Hf. cbn [has_char orb]. destruct (ascii_dec TAB c); [congruence|done].
Qed.

Lemma field_text_chars s :
  field_text s = true -> has_char TAB s = false /\ has_char LF s = false /\ has_char NUL s = false.
Proof. unfold field_text. intros H. by breflect. Qed.

Lemma tabbed_unbroken fields :
  Forall (fun f => field_text f = true) fields -> strlen (tabbed fields) <= 4094 ->
  unbroken (tabbed fields) = true.
Proof.
  intros Hf Hl. unfold unbroken, LDTM_LINE_MAX.
  rewrite (has_char_tabbed LF), (has_char_tabbed NUL); try done.
  - apply Z.ltb_lt. lia.
  - revert Hf. apply List.Forall_impl. intros f Hx. by apply field_text_chars in Hx as (? & ? & ?).
  - revert Hf. apply List.Forall_impl. intros f Hx. by apply field_text_chars in Hx as (? & ? & ?).
Qed.

Lemma fields_of_tabbed fields :
  fields <> [] -> Forall (fun f => field_text f = true) fields ->
  fields_on TAB (tabbed fields) = fields.
Proof.
  intros Hne Hf. apply fields_tabbed; [done|].
  revert Hf. apply List.Forall_impl. intros f Hx. by apply field_text_chars in Hx as (? & ? & ?).
Qed.

Lemma strlen_substring n m s : strlen (String.substring n m s) <= Z.of_nat m.
Proof.
  unfold strlen. revert n m. induction s as [|c s IH]; intros n m; destruct n, m; simpl; try lia;
    try (specialize (IH 0%nat m); lia); try (specialize (IH n (S m)); lia);
    try (specialize (IH n 0%nat); lia).
Qed.

Lemma has_char_substring c n m s :
  has_char c s = false -> has_char c (String.substring n m s) = false.
Proof.
  revert n m. induction s as [|d s IH]; intros n m H; destruct n, m; simpl in *; try done;
    destruct (ascii_dec d c); try done; eauto.
Qed.

Lemma sanitize_field s : has_char NUL s = false -> field_text (sanitize_tsv s) = true.
Proof.
  intros H. unfold field_text, sanitize_tsv.
  assert (Hc : forall x, (x = TAB \/ x = LF \/ x = NUL) ->
    (has_char x s = false \/ x <> NUL) -> has_char x (map_char sanitize_char s) = false).
  { intros x Hx Hs. clear H. induction s as [|c s IH]; [done|]. cbn [map_char has_char] in *.
    assert (Hne : sanitize_char c <> x).
    { unfold sanitize_char. destruct (_ || _) eqn:E.
      - intros <-. by destruct Hx as [?|[?|?]].
      - breflect. intros ->. destruct Hx as [->|[->| ->]]; try done.
        destruct Hs as [Hs|Hs]; [|done]. destruct (ascii_dec NUL NUL); done. }
    destruct (ascii_dec (sanitize_char c) x); [done|]. apply IH.
    destruct Hs as [Hs|Hs]; [left|by right]. by destruct (ascii_dec c x). }
  rewrite !Hc; auto; right; auto.
Qed.

Lemma strlen_map_char f s : strlen (map_char f s) = strlen s.
Proof. unfold strlen. induction s as [|c s IH]; simpl; lia. Qed.

(** A status and its stored detail fit their buffers. *)
Lemma detail_fits s : strlen (sanitize_tsv (truncated s 512)) <= 511.
Proof.
  unfold sanitize_tsv, truncated. rewrite strlen_map_char.
  pose proof (strlen_substring 0 (Z.to_nat (512 - 1)) s). lia.
Qed.

Lemma status_cases st :
  In st build_statuses -> field_text st = true /\ strlen st < 64 /\
  existsb (String.eqb st) build_statuses = true.
Proof.
  intros H. repeat destruct H as [<-|H]; try done; repeat split; vm_compute; done.
Qed.

Lemma key_cases spec :
  In spec ldtm_specs -> field_text (key spec) = true /\ strlen (key spec) < 64.
Proof.
  intros H. assert (Hall : forallb (fun s => field_text (key s) && (strlen (key s) <? 64)) ldtm_specs = true)
    by (vm_compute; reflexivity).
  rewrite forallb_forall in Hall. apply Hall in H. breflect. done.
Qed.

Lemma strlen_tabbed4 a b c d : strlen (tabbed [a; b; c; d]) = strlen a + strlen b + strlen c + strlen d + 3.
Proof.
  unfold tabbed. cbn [String.concat]. rewrite !strlen_app.
  change (strlen (String TAB "")) with 1. lia.
Qed.

Lemma status_line_ok spec r :
  In spec ldtm_specs -> In (fst r) build_statuses -> has_char NUL (snd r) = false ->
  unbroken (status_line spec (fst r) (snd r)) = true /\
  fields_on TAB (status_line spec (fst r) (snd r)) =
    ["fs"; key spec; fst r; sanitize_tsv (truncated (snd r) 512)].
Proof.
  intros Hspec Hst Hd. unfold status_line.
  destruct (key_cases _ Hspec) as [Hk1 Hk2]. destruct (status_cases _ Hst) as (Hs1 & Hs2 & _).
  assert (Hf : Forall (fun f => field_text f = true)
    ["fs"; key spec; fst r; sanitize_tsv (truncated (snd r) 512)]).
  { repeat constructor; try done. apply sanitize_field. by apply has_char_substring. }
  split; [|by apply fields_of_tabbed]. apply tabbed_unbroken; [done|].
  rewrite strlen_tabbed4. pose proof (detail_fits (snd r)). change (strlen "fs") with 2. lia.
Qed.

Lemma hash_field fp : state_hash fp = true -> field_text fp = true /\ strlen fp = 64.
Proof.
  unfold state_hash. intros H. breflect. split; [|done].
  assert (forall c, isxdigit c = false -> has_char c fp = false) as Hc
    by (intros c Hc; by eapply forall_char_has).
  unfold field_text. by rewrite !Hc.
Qed.

Definition blank_records (n : nat) : list LdtmVerifyFilesystem :=
  repeat (mkVerify false EmptyString EmptyString) n.

Lemma header_parsed device fp :
  field_text device = true -> strlen device <= 4087 -> state_hash fp = true ->
  Forall (fun l => unbroken l = true) (header_lines device fp) /\
  parse_state_lines device (map newline (header_lines device fp)) initial_parse =
    Some (mkParse 15 0 (blank_records LDTM_SPEC_COUNT) fp).
Proof.
  intros Hd Hl Hfp. destruct (hash_field fp Hfp) as [Hf Hf64].
  assert (Hlines : Forall (fun l => unbroken l = true) (header_lines device fp)).
  { unfold header_lines. repeat constructor; apply tabbed_unbroken;
      try (repeat constructor; done); try (vm_compute; done); unfold tabbed; cbn [String.concat];
      rewrite !strlen_app; change (strlen (String TAB "")) with 1;
      [change (strlen "device") with 6|change (strlen "fingerprint") with 11]; lia. }
  split; [done|]. unfold header_lines in *.
  repeat match goal with H : Forall _ (_ :: _) |- _ => apply Forall_cons_iff in H as [? H] end.
  cbn [map parse_state_lines].
  repeat (rewrite parse_line_newline by done;
    rewrite fields_of_tabbed by (done || (repeat constructor; done));
    cbn [String.eqb Ascii.eqb Bool.eqb andb]; rewrite ?String.eqb_refl, ?Hfp; cbn [andb];
    match goal with |- context [set_header ?b ?p] =>
      let v := eval vm_compute in (set_header b p) in change (set_header b p) with v end;
    cbn [mbind option_bind]).
  done.
Qed.

(** The parser state after the first [n] records. *)
Definition records_parsed (fp : string) (records : list (string * string)) (n : nat) : parse_state :=
  mkParse 15 (Z.shiftl 1 (Z.of_nat n) - 1)
    (map built (take n records) ++ blank_records (LDTM_SPEC_COUNT - n)) fp.

Lemma record_bits n :
  (n < LDTM_SPEC_COUNT)%nat ->
  Z.land (Z.shiftl 1 (Z.of_nat n) - 1) (Z.shiftl 1 (Z.of_nat n)) = 0 /\
  Z.lor (Z.shiftl 1 (Z.of_nat n) - 1) (Z.shiftl 1 (Z.of_nat n)) = Z.shiftl 1 (Z.of_nat (S n)) - 1.
Proof.
  unfold LDTM_SPEC_COUNT. intros H. do 21 (destruct n as [|n]; [vm_compute; by split|]). lia.
Qed.

Lemma record_parsed device fp records n spec r :
  (length records = LDTM_SPEC_COUNT)%nat -> ldtm_specs !! n = Some spec -> records !! n = Some r ->
  In (fst r) build_statuses -> has_char NUL (snd r) = false ->
  parse_state_line device (newline (status_line spec (fst r) (snd r))) (records_parsed fp records n)
    = Some (records_parsed fp records (S n)).
Proof.
  intros Hlen Hspec Hr Hst Hd.
  assert (Hin : In spec ldtm_specs) by (apply list_elem_of_In; by eapply list_elem_of_lookup_2).
  assert (Hn : (n < LDTM_SPEC_COUNT)%nat) by (rewrite <- Hlen; by eapply lookup_lt_Some).
  destruct (status_line_ok spec r Hin Hst Hd) as [Hu Hfields].
  rewrite parse_line_newline, Hfields by done. cbn [String.eqb Ascii.eqb Bool.eqb andb].
  unfold set_filesystem, ldtm_find_spec. rewrite (find_spec_from_complete 0 LDTM_SPECS n spec).
  2:{ vm_decide. }
  2:{ by rewrite nth_error_is_lookup. }
  cbn [Nat.add]. destruct (record_bits n Hn) as [Hb1 Hb2].
  destruct (status_cases _ Hst) as (_ & Hs & Hex).
  unfold records_parsed. cbn [filesystems headers state saved_fingerprint].
  rewrite Hb1. cbn [Z.eqb negb orb].
  rewrite (proj2 (Z.leb_gt _ _)) by lia. cbn [orb].
  rewrite (proj2 (Z.leb_gt _ _)) by (pose proof (detail_fits (snd r)); lia).
  rewrite Hex. cbn [negb]. rewrite Hb2. do 2 f_equal.
  assert (Hlt : length (map built (take n records)) = n) by (rewrite length_map, length_take; lia).
  rewrite insert_app_r_alt by lia. rewrite Hlt, Nat.sub_diag.
  replace (LDTM_SPEC_COUNT - n)%nat with (S (LDTM_SPEC_COUNT - S n)) by lia.
  cbn [blank_records repeat]. rewrite (take_S_r _ _ r) by done. rewrite map_app, <- app_assoc.
  cbn [map app]. done.
Qed.

Lemma records_loop device fp records n :
  length records = LDTM_SPEC_COUNT -> (n <= LDTM_SPEC_COUNT)%nat ->
  Forall (fun r => In (fst r) build_statuses /\ has_char NUL (snd r) = false) records ->
  parse_state_lines device (map newline (take n (written_records records)))
    (records_parsed fp records 0) = Some (records_parsed fp records n).
Proof.
  intros Hlen Hn Hr. induction n as [|n IH]; [done|].
  destruct (lookup_lt_is_Some_2 records n) as [r Er]; [lia|].
  destruct (lookup_lt_is_Some_2 ldtm_specs n) as [spec Es].
  { change (length ldtm_specs) with LDTM_SPEC_COUNT. lia. }
  rewrite (take_S_r _ _ (status_line spec (fst r) (snd r))).
  2:{ unfold written_records. by rewrite lookup_zip_with, Es, Er. }
  rewrite map_app, parse_state_lines_app, IH by lia. cbn [map mbind option_bind parse_state_lines].
  destruct (proj1 (List.Forall_forall _ _) Hr r) as [H1 H2].
  { apply list_elem_of_In. by eapply list_elem_of_lookup_2. }
  by rewrite (record_parsed device fp records n spec r).
Qed.

Lemma parse_state_text device fp records :
  field_text device = true -> strlen device <= 4087 -> state_hash fp = true ->
  length records = LDTM_SPEC_COUNT ->
  Forall (fun r => In (fst r) build_statuses /\ has_char NUL (snd r) = false) records ->
  parse_verify_state (state_text device fp records) false device = Some (map built records, fp).
Proof.
  intros Hd Hl Hfp Hlen Hr. destruct (header_parsed device fp Hd Hl Hfp) as [Hh Hparse].
  assert (Htext : state_text device fp records =
    String.concat "" (map newline (header_lines device fp ++ written_records records))).
  { unfold state_text, state_header. rewrite map_app. unfold header_lines. cbn [map app].
    rewrite !concat_cons. cbn [String.concat]. by rewrite !append_assoc. }
  assert (Hw : length (written_records records) = LDTM_SPEC_COUNT)
    by (unfold written_records; by rewrite length_zip_with, Hlen).
  assert (Hall : Forall (fun l => unbroken l = true) (header_lines device fp ++ written_records records)).
  { apply Forall_app. split; [done|]. apply Forall_lookup. intros i l Hi.
    unfold written_records in Hi. apply lookup_zip_with_Some in Hi as (spec & r & -> & Hs & Hri).
    destruct (proj1 (List.Forall_forall _ _) Hr r) as [H1 H2].
    { apply list_elem_of_In. by eapply list_elem_of_lookup_2. }
    apply status_line_ok; [|done|done]. apply list_elem_of_In. by eapply list_elem_of_lookup_2. }
  unfold parse_verify_state. rewrite Htext.
  rewrite fgets_lines_text by (done || apply length_concat_lines).
  rewrite map_app, parse_state_lines_app, Hparse. cbn [mbind option_bind].
  pose proof (records_loop device fp records LDTM_SPEC_COUNT Hlen (Nat.le_refl _) Hr) as Hloop.
  rewrite firstn_all2 in Hloop by lia.
  change (mkParse 15 0 (blank_records LDTM_SPEC_COUNT) fp) with (records_parsed fp records 0).
  rewrite Hloop. unfold records_parsed. rewrite firstn_all2 by lia.
  cbn [mbind option_bind headers filesystems state saved_fingerprint].
  change (LDTM_SPEC_COUNT - LDTM_SPEC_COUNT)%nat with 0%nat. cbn [blank_records repeat].
  rewrite app_nil_r. by rewrite !Z.eqb_refl.
Qed.

(** ** Properties *)

(** What prepare writes is what verify reads: the header for a device and
    a fingerprint followed by one record for every slot, each with one of the
    six build statuses and any detail, parses back to the fingerprint and, slot
    by slot, to the status and the detail as stored (cut to 511 bytes, with
    blanks for the characters that would break the line). *)
Theorem state_roundtrip device fp records :
  field_text device = true -> strlen device <= 4087 -> state_hash fp = true ->
  length records = LDTM_SPEC_COUNT ->
  Forall (fun r => In (fst r) build_statuses /\ has_char NUL (snd r) = false) records ->
  parse_verify_state (state_text device fp records) false device = Some (map built records, fp).
Proof. apply parse_state_text. Qed.

(** An accepted file was parsed soundly, to its end. *)
Lemma parsed_sound stream ferror device st fp :
  parse_verify_state stream ferror device = Some (st, fp) ->
  exists p lines, ferror = false /\ st = state p /\ fp = saved_fingerprint p /\ headers p = 15 /\
    filesystems p = Z.shiftl 1 (Z.of_nat LDTM_SPEC_COUNT) - 1 /\ sound_parse p /\
    stream = String.concat "" (map newline lines) /\ lines ≡ₚ accounted device p.
Proof.
  unfold parse_verify_state. intros H. apply bind_Some in H as (p & Hp & H).
  destruct (_ && _ && _) eqn:E in H; [|done]. injection H as <- <-. breflect.
  destruct (fgets_lines_split (String.length stream) stream) as [Htext Hlf]; [done|].
  assert (Hinit : sound_parse initial_parse).
  { split; [done| |done]. intros i v Hi. cbn [filesystems initial_parse] in Hi.
    by rewrite Z.bits_0 in Hi. }
  destruct (parse_lines_sound _ _ _ _ Hp Hlf Hinit) as (lines & Hlines & Hs & Hperm).
  change (accounted device initial_parse) with (@nil string) in Hperm. rewrite app_nil_r in Hperm.
  exists p, lines. rewrite <- Hlines. by split_and!.
Qed.

Lemma parsed_length stream ferror device st fp :
  parse_verify_state stream ferror device = Some (st, fp) -> length st = LDTM_SPEC_COUNT.
Proof.
  intros H. destruct (parsed_sound _ _ _ _ _ H) as (p & lines & _ & -> & _ & _ & _ & [] & _). done.
Qed.

(** An accepted state file holds nothing but what prepare writes: it is
    read to its end without error, and its lines are, in some order, exactly
    the four header lines for this device and the returned fingerprint and one
    record for each of the 21 slots, whose status is one of the six and whose
    slot counts as populated only when it says so.  A missing, repeated or
    foreign line, a broken last line or a NUL byte refuses the file. *)
Theorem state_file_authority stream ferror device st fp :
  parse_verify_state stream ferror device = Some (st, fp) ->
  ferror = false /\ state_hash fp = true /\ length st = LDTM_SPEC_COUNT /\
  Forall valid_record st /\
  exists lines, stream = String.concat "" (map newline lines) /\
    lines ≡ₚ header_lines device fp ++ zip_with record_line ldtm_specs st.
Proof.
  intros H. destruct (parsed_sound _ _ _ _ _ H)
    as (p & lines & Hf & -> & -> & Hhd & Hfs & [S1 S2 S3] & Hlines & Hperm).
  split; [done|]. split; [apply S3; by rewrite Hhd|]. split; [done|]. split.
  - apply Forall_lookup. intros i v Hi. apply (S2 i); [|done].
    apply lookup_lt_Some in Hi. rewrite S1 in Hi. rewrite Hfs.
    clear -Hi. unfold LDTM_SPEC_COUNT in *.
    do 21 (destruct i as [|i]; [reflexivity|]). lia.
  - exists lines. split; [done|]. rewrite Hperm. unfold accounted. rewrite Hhd, Hfs.
    rewrite flagged_full.
    change 15 with (Z.shiftl 1 (Z.of_nat 4) - 1). rewrite flagged_full.
    assert (map (header_entry device (saved_fingerprint p)) (List.seq 0 4) =
      header_lines device (saved_fingerprint p)) as -> by done.
    assert (map (fs_entry (state p)) (List.seq 0 LDTM_SPEC_COUNT) =
      zip_with record_line ldtm_specs (state p)) as ->; [|done].
    clear -S1. unfold fs_entry. apply list_eq. intros i. rewrite lookup_zip_with.
    destruct (decide (i < LDTM_SPEC_COUNT)%nat) as [Hi|Hi].
    + change (map ?f ?l) with (f <$> l). rewrite list_lookup_fmap.
      change List.seq with seq. rewrite lookup_seq_lt by done. cbn [fmap option_fmap option_map Nat.add].
      destruct (lookup_lt_is_Some_2 (state p) i) as [v ->]; [lia|].
      destruct (lookup_lt_is_Some_2 ldtm_specs i) as [spec ->]; [|done].
      change (length ldtm_specs) with LDTM_SPEC_COUNT. lia.
    + rewrite lookup_ge_None_2 by (rewrite length_map, length_seq; lia).
      rewrite (lookup_ge_None_2 ldtm_specs); [done|].
      change (length ldtm_specs) with LDTM_SPEC_COUNT. lia.
Qed.

Definition demo_hash : string :=
  "0123456789abcdef0123456789abcdef0123456789abcdef0123456789abcdef".
Definition demo_records : list (string * string) :=
  ("format-failed", String TAB "mkfs refused") :: repeat ("populated", "corpus verified") 20.
Definition demo_state : string := state_text "/dev/mmcblk0" demo_hash demo_records.

Lemma state_roundtrip_witness :
  parse_verify_state demo_state false "/dev/mmcblk0" = Some (map built demo_records, demo_hash).
Proof.
  apply (state_roundtrip "/dev/mmcblk0" demo_hash demo_records); try (vm_compute; done).
  apply List.Forall_forall. intros r [<-|Hr]; [|apply repeat_spec in Hr as ->];
    (split; [vm_compute; auto 10|reflexivity]).
Defined.

Lemma state_file_authority_witness :
  state_hash demo_hash = true /\ Forall valid_record (map built demo_records).
Proof.
  destruct (state_file_authority demo_state false "/dev/mmcblk0" (map built demo_records) demo_hash)
    as (_ & H1 & _ & H2 & _); [vm_compute; reflexivity|done].
Defined.

(** The text hashed for a card determines what it was built from. *)
Lemma split_line s1 r1 s2 r2 c :
  has_char c s1 = false -> has_char c s2 = false ->
  (s1 ++ String c r1 = s2 ++ String c r2)%string -> s1 = s2 /\ r1 = r2.
Proof.
  intros H1 H2 E. apply (f_equal (split_char c)) in E.
  rewrite !split_char_app in E by done. by injection E.
Qed.

Lemma mmc_material_inj size1 mj1 mn1 cid1 size2 mj2 mn2 cid2 :
  0 <= size1 -> 0 <= mj1 -> 0 <= mn1 -> 0 <= size2 -> 0 <= mj2 -> 0 <= mn2 ->
  has_char LF cid1 = false -> has_char LF cid2 = false ->
  mmc_material size1 mj1 mn1 cid1 = mmc_material size2 mj2 mn2 cid2 ->
  size1 = size2 /\ mj1 = mj2 /\ mn1 = mn2 /\ cid1 = cid2.
Proof.
  intros H1 H2 H3 H4 H5 H6 Hc1 Hc2 E. unfold mmc_material in E. cbn [String.append] in E.
  apply append_inj_l with (s := ("mmc-cid-v1" ++ String LF "size=")%string) in E.
  apply split_line in E as [Es E]; [|by apply utoa_no_char..].
  apply append_inj_l with (s := "rdev="%string) in E.
  apply split_line in E as [Emj E]; [|by apply utoa_no_char..].
  apply split_line in E as [Emn E]; [|by apply utoa_no_char..].
  apply append_inj_l with (s := "cid="%string) in E.
  apply split_line in E as [-> _]; [|done..].
  repeat split; by apply utoa_inj.
Qed.

Lemma xdigit_tolower cid :
  forall_char isxdigit cid = true ->
  has_char LF (map_char tolower cid) = false /\
  forall_char (fun c => code c =? code "0") (map_char tolower cid) =
    forall_char (fun c => code c =? code "0") cid.
Proof.
  induction cid as [|c cid IH]; [done|]. cbn [forall_char map_char has_char].
  intros H. apply andb_true_iff in H as [Hc H]. destruct (IH H) as [IH1 IH2].
  pose proof (ascii_forall (fun c => negb (isxdigit c) || negb (bool_decide (tolower c = LF)) &&
    Bool.eqb (code (tolower c) =? code "0") (code c =? code "0")) eq_refl c) as Hx.
  cbv beta in Hx. rewrite Hc in Hx. cbn [negb orb] in Hx. apply andb_true_iff in Hx as [Hx1 Hx2].
  apply Bool.eqb_prop in Hx2. apply negb_true_iff in Hx1. apply bool_decide_eq_false in Hx1.
  rewrite Hx2, IH2. split; [|done]. by destruct (ascii_dec _ _).
Qed.

(** The guards of an identity that was built. *)
Lemma mmc_identity_guards size mj mn cid capacity m :
  0 <= size -> ldtm_mmc_identity_material size mj mn (Some cid) capacity = Some m ->
  m = mmc_material size mj mn (map_char tolower cid) /\ 0 < size /\ strlen cid = 32 /\
  forall_char isxdigit cid = true /\ forall_char (fun c => code c =? code "0") cid = false /\
  strlen m < capacity.
Proof.
  intros Hs H. unfold ldtm_mmc_identity_material in H.
  destruct (_ || _ || _) eqn:E1 in H; [done|].
  destruct (forall_char isxdigit cid) eqn:E2; [|done]. cbn [negb] in H.
  destruct (xdigit_tolower cid E2) as [_ E3]. cbv zeta in H. rewrite E3 in H.
  destruct (forall_char (fun c => code c =? code "0") cid) eqn:E4; [done|].
  destruct (fits _ capacity) eqn:E5; [|done]. injection H as <-. breflect.
  unfold fits in E5. breflect. repeat split; auto. lia.
Qed.

(** The identity hashed for a memory card binds the destructive
    confirmation: it exists only for a card with a capacity and a 32-digit
    non-zero CID, and two cards with the same text have the same capacity, the
    same kernel device number and the same CID up to the case of its digits. *)
Theorem mmc_identity_binds size1 mj1 mn1 cid1 size2 mj2 mn2 cid2 capacity m :
  is_u64 size1 -> is_u32 mj1 -> is_u32 mn1 -> is_u64 size2 -> is_u32 mj2 -> is_u32 mn2 ->
  ldtm_mmc_identity_material size1 mj1 mn1 (Some cid1) capacity = Some m ->
  ldtm_mmc_identity_material size2 mj2 mn2 (Some cid2) capacity = Some m ->
  size1 = size2 /\ mj1 = mj2 /\ mn1 = mn2 /\ map_char tolower cid1 = map_char tolower cid2 /\
  0 < size1 /\ strlen cid1 = 32 /\ forall_char isxdigit cid1 = true /\
  forall_char (fun c => code c =? code "0") cid1 = false /\ strlen m < capacity.
Proof.
  unfold is_u64, is_u32. intros H1 H2 H3 H4 H5 H6 Hm1 Hm2.
  destruct (mmc_identity_guards _ _ _ _ _ _ (proj1 H1) Hm1) as (E1 & G1 & G2 & G3 & G4 & G5).
  destruct (mmc_identity_guards _ _ _ _ _ _ (proj1 H4) Hm2) as (E2 & _ & _ & K3 & _).
  rewrite E1 in E2. apply mmc_material_inj in E2 as (-> & -> & -> & ->);
    [auto 10|lia..|by apply xdigit_tolower|by apply xdigit_tolower].
Qed.

Definition demo_cid : string := "1B534D4542315154308B2F4F0C013B00".

Lemma mmc_identity_binds_witness :
  64 = 64 /\ map_char tolower demo_cid = "1b534d4542315154308b2f4f0c013b00".
Proof.
  destruct (mmc_identity_binds 64 179 0 demo_cid 64 179 0 "1b534d4542315154308b2f4f0c013b00"
    1024 (mmc_material 64 179 0 (map_char tolower demo_cid))) as (H & _ & _ & Hc & _);
    [vm_decide|vm_decide|vm_decide|vm_decide|vm_decide|vm_decide|vm_compute; reflexivity..|].
  split; [exact H|exact Hc].
Defined.
