(* ===== verification/TestMediaDevice.v ===== *)
(** The guards the test-media worker (test_media_worker.c) runs on the selected
    disk before it destroys anything: the physical fingerprint, the safety
    check, the release of every mount of the disk through the live mount table,
    and the wait for the new partition table. *)
From S2P Require Import Prelude Effects CString Infiltratr Sys.
From S2P Require Import DeviceTopology Device TestMediaCore TestMediaState.

(** ** Calls *)

(** The system interface of the C core, and what only the worker uses:
    [capture_process] (its output, [None] for -1), [run_process] (its exit code
    or -1), [umount2] with no flags, the SHA-256 of OpenSSL ([None] when a call
    of it fails), [usleep], and a text on stdout or stderr; [ReportErrno] adds
    the text of an error number.  The error of [ReadLines] includes that of
    [fclose]. *)
Inductive hostE : Type -> Type :=
| HSys {X : Type} (e : sysE X) : hostE X
| Capture (argv : list string) : hostE (option string)
| Run (argv : list string) (stdin_text : option string) (quiet : bool) : hostE Z
| Umount (target : string) : hostE (result unit)
| Digest (material : string) : hostE (option (list Z))
| Usleep (microseconds : Z) : hostE unit
| Report (text : string) : hostE unit
| ReportErrno (what : string) (failure : errno) : hostE unit.

Definition host := prog hostE.
Definition on_sys {A} (p : sys A) : host A := interp (fun X e => call (HSys e)) p.

(** ** [sscanf] of device numbers *)

(** [%u]: blanks, a sign, digits; [strtoul] saturates, the conversion wraps. *)
Definition scan_unsigned (s : string) : option (Z * string) :=
  let s := skip_space s in
  let '(negative, s) :=
    match s with
    | String c s' => if code c =? code "-" then (true, s')
                     else if code c =? code "+" then (false, s') else (false, s)
    | EmptyString => (false, s)
    end in
  let '(digits, rest) := leading_digits s in
  if is_empty digits then None
  else
    let v := decimal_value digits in
    Some (u32 (if UINT64_MAX <? v then UINT64_MAX else if negative : bool then TWO64 - v else v), rest).

(** [%u:%u], and what follows. *)
Definition scan_pair (s : string) : option (Z * Z * string) :=
  match scan_unsigned s with
  | Some (mj, String c s) =>
      if code c =? code ":" then
        match scan_unsigned s with
        | Some (mn, rest) => Some (mj, mn, rest)
        | None => None
        end
      else None
  | _ => None
  end.

(** [sscanf(s, "%u:%u%c", ...) == 2] *)
Definition scan_exact_pair (s : string) : option (Z * Z) :=
  match scan_pair s with Some (mj, mn, EmptyString) => Some (mj, mn) | _ => None end.

(** [sscanf(line, "%*s %*s %u:%u", ...) == 2] *)
Definition scan_superblock (line : string) : option (Z * Z) :=
  match scan_any line with
  | Some (_, line) =>
      match scan_any line with
      | Some (_, line) =>
          match scan_pair line with Some (mj, mn, _) => Some (mj, mn) | None => None end
      | None => None
      end
  | None => None
  end.

(** [sscanf(separator + 3, "%*s %4095s", source) == 1] *)
Definition scan_source (separator : string) : option string :=
  match scan_any (String.substring 3 (String.length separator) separator) with
  | Some (_, rest) => fst <$> scan_word 4095 rest
  | None => None
  end.

(** ** Mount targets *)

Definition ldtm_matches_device_number (mj mn : Z) (devices : list (Z * Z)) : bool :=
  existsb (fun d => (fst d =? mj) && (snd d =? mn)) devices.

(** The next field of the line: blanks are skipped, a line feed ends it. *)
Fixpoint mount_word (s : string) : string * string :=
  match s with
  | EmptyString => (EmptyString, EmptyString)
  | String c s' =>
      if (code c =? 32) || (code c =? 10) then (EmptyString, s)
      else let '(w, r) := mount_word s' in (String c w, r)
  end.

Fixpoint skip_blanks (s : string) : string :=
  match s with String c s' => if code c =? 32 then skip_blanks s' else s | EmptyString => EmptyString end.

Fixpoint mount_fields (n : nat) (s : string) : option (list string) :=
  match n with
  | O => Some []
  | S n =>
      let '(w, r) := mount_word (skip_blanks s) in
      if is_empty w then None
      else fs ← mount_fields n r; Some (w :: fs)
  end.

(** The octal escapes of a mount point; [None] for a malformed one or a path
    that does not fit with its terminator. *)
Fixpoint decode_target (room : nat) (s : string) : option string :=
  match s with
  | EmptyString => Some EmptyString
  | String c s1 =>
      if decide (c = BACKSLASH) then
        match s1 with
        | String x (String y (String z s2)) =>
            if isoctal x && isoctal y && isoctal z then
              let decoded := octal_value x y z in
              if (decoded =? 0) || (255 <? decoded) then None
              else match room with
                   | O => None
                   | S room => String (chr decoded) <$> decode_target room s2
                   end
            else None
        | _ => None
        end
      else match room with O => None | S room => String c <$> decode_target room s1 end
  end.

Inductive target_answer :=
| TargetBad
| TargetOther
| TargetIs (target : string).

(** The SOURCE of a mount whose superblock number is virtual. *)
Definition source_is_selected (line : string) (devices : list (Z * Z)) : host bool :=
  match strstr line " - " with
  | None => Ret false
  | Some separator =>
      match scan_source separator with
      | None => Ret false
      | Some source =>
          let* r := call (HSys (Stat source)) in
          match r with
          | Err _ => Ret false
          | Ok status =>
              Ret (S_ISBLK (st_mode status) &&
                   ldtm_matches_device_number (major (st_rdev status)) (minor (st_rdev status)) devices)
          end
      end
  end.

Definition ldtm_mountinfo_target (line : string) (devices : list (Z * Z)) : host target_answer :=
  match mount_fields 5 line with
  | Some [_; _; number; _; mount_point] =>
      if 64 <=? strlen number then Ret TargetBad
      else match scan_exact_pair number with
      | None => Ret TargetBad
      | Some (mj, mn) =>
          let* selected :=
            if ldtm_matches_device_number mj mn devices then Ret true
            else source_is_selected line devices in
          Ret (if negb selected then TargetOther
               else match decode_target (Z.to_nat (PATH_MAX - 1)) mount_point with
                    | Some target => if is_empty target then TargetBad else TargetIs target
                    | None => TargetBad
                    end)
      end
  | _ => Ret TargetBad
  end.

Section Host.
  Context {common : Infiltratr}.

  (** ** Descendants of the disk *)

Definition LDTM_MAX_UNMOUNT_DEVICES : nat := 256.
Definition LDTM_MAX_UNMOUNT_ATTEMPTS : nat := 256.

Fixpoint selected_devices (lines : list string) (devices : list (Z * Z)) : option (list (Z * Z)) :=
    match lines with
    | [] => Some devices
    | line :: lines =>
        match scan_exact_pair (infiltratr_trim line) with
        | None => None
        | Some (mj, mn) =>
            if (LDTM_MAX_UNMOUNT_DEVICES <=? length devices)%nat then None
            else selected_devices lines
              (if ldtm_matches_device_number mj mn devices then devices else devices ++ [(mj, mn)])
        end
    end.

Definition ldtm_selected_device_numbers (device : string) : host (option (list (Z * Z))) :=
    let* r := call (Capture ["lsblk"; "-n"; "-r"; "-o"; "MAJ:MIN"; "--"; device]) in
    Ret (match r with
         | None => None
         | Some output =>
             match selected_devices (strtok LF output) [] with
             | Some [] | None => None
             | Some devices => Some devices
             end
         end).

  (** ** Release of the mounts *)

  (** One pass over the mount table: [None] for a parse failure, otherwise the
      longest matching target with the superblock numbers of its line. *)
Fixpoint scan_mounts (devices : list (Z * Z)) (lines : list string)
      (best : option (string * Z * Z)) : host (option (option (string * Z * Z))) :=
    match lines with
    | [] => Ret (Some best)
    | line :: lines =>
        let* matches := ldtm_mountinfo_target line devices in
        match matches with
        | TargetBad => Ret None
        | TargetOther => scan_mounts devices lines best
        | TargetIs current =>
            let longest := match best with Some (target, _, _) => strlen target | None => 0 end in
            if longest <? strlen current then
              match scan_superblock line with
              | None => Ret None
              | Some (mj, mn) => scan_mounts devices lines (Some (current, mj, mn))
              end
            else scan_mounts devices lines best
        end
    end.

Fixpoint unmount_loop (attempts : nat) (device : string) (devices : list (Z * Z)) (failures : Z) :
      host bool :=
    match attempts with
    | O => Ret false
    | S attempts =>
        let failed :=
          if 3 <=? failures + 1 then Ret false
          else unmount_loop attempts device devices (failures + 1) in
        let* mounts := call (HSys (ReadLines "/proc/self/mountinfo")) in
        match mounts with
        | Err _ => Ret false
        | Ok (lines, ferror) =>
            let* scanned := scan_mounts devices lines None in
            match scanned with
            | None => Ret false
            | Some best =>
                if negb (bool_decide (ferror = Enone)) then Ret false
                else match best with
                | None =>
                    let* mounted := on_sys (ld_path_is_mounted (Some device)) in
                    Ret (negb mounted)
                | Some (target, mj, mn) =>
                    let* top := call (HSys (Stat target)) in
                    if match top with
                       | Ok status => (major (st_dev status) =? mj) && (minor (st_dev status) =? mn)
                       | Err _ => false
                       end
                    then
                      call (Report ("+ unmount selected filesystem " ++ newline target)) ;;;
                      let* r := call (Umount target) in
                      match r with
                      | Err e => call (ReportErrno ("Unmount of " ++ target) e) ;;; failed
                      | Ok _ => unmount_loop attempts device devices 0
                      end
                    else failed
                end
            end
        end
    end.

Definition unmount_descendants (device : string) : host bool :=
    let* devices := ldtm_selected_device_numbers device in
    match devices with
    | None => Ret false
    | Some devices => unmount_loop LDTM_MAX_UNMOUNT_ATTEMPTS device devices 0
    end.

  (** ** The partition table *)

Definition load_partition_map (device : string) : host (option (list LdtmPartition)) :=
    let* r := call (Capture ["lsblk"; "-n"; "-p"; "-P"; "-o"; "PATH,PARTLABEL"; "--"; device]) in
    Ret (match r with None => None | Some output => partition_map output end).

Fixpoint settle_loop (attempts : nat) (device : string) : host (option (list LdtmPartition)) :=
    match attempts with
    | O => Ret None
    | S attempts =>
        let* r := load_partition_map device in
        match r with
        | Some map =>
            if (length map =? LDTM_SPEC_COUNT)%nat then Ret (Some map)
            else call (Usleep 100000) ;;; settle_loop attempts device
        | None => call (Usleep 100000) ;;; settle_loop attempts device
        end
    end.

Definition settle_partitions (device : string) : host (option (list LdtmPartition)) :=
    let* partx := call (Run ["partx"; "-u"; device] None false) in
    if negb (partx =? 0) then Ret None
    else
      let* available := on_sys (ldtm_program_available "udevadm") in
      let* udev := if available : bool then call (Run ["udevadm"; "settle"] None false) else Ret 0 in
      if negb (udev =? 0) then Ret None else settle_loop 50 device.

  (** ** The fingerprint *)

Definition identity_material (info : LdBlockDeviceInfo) : string :=
    ("size=" ++ utoa (info_size_bytes info) ++ String LF "model=" ++ info_model info ++
     String LF "serial=" ++ info_serial info ++ String LF "wwn=" ++ info_wwn info ++
     String LF "transport=" ++ info_transport info ++ String LF "")%string.

  (** The material of a card, read through its kernel device number. *)
Definition mmc_material_of (canonical : string) (info : LdBlockDeviceInfo) : sys (option string) :=
    let* r := call (Stat canonical) in
    match r with
    | Err _ => Ret None
    | Ok status =>
        if negb (S_ISBLK (st_mode status)) then Ret None
        else
          let cid_path := ("/sys/dev/block/" ++ utoa (major (st_rdev status)) ++ ":" ++
            utoa (minor (st_rdev status)) ++ "/device/cid")%string in
          if negb (fits cid_path PATH_MAX) then Ret None
          else
            let* text := call (ReadText cid_path 96) in
            match text with
            | Err _ => Ret None
            | Ok cid => Ret (ldtm_mmc_identity_material (info_size_bytes info)
                (major (st_rdev status)) (minor (st_rdev status))
                (Some (infiltratr_trim_line_end cid)) 1024)
            end
    end.

  (** [device] NULL or the canonical path and the material that is hashed. *)
Definition fingerprint_material (device : string) : sys (option string) :=
    let* c := ldtm_canonicalize_device device PATH_MAX in
    match c with
    | Err _ => Ret None
    | Ok canonical =>
        let* r := ld_block_device_info (Some canonical) in
        match r with
        | Err _ => Ret None
        | Ok info =>
            if negb (info_whole_disk info) || (info_size_bytes info =? 0) then Ret None
            else if String.prefix "mmcblk" (infiltratr_path_basename canonical) then
              mmc_material_of canonical info
            else if is_empty (info_serial info) && is_empty (info_wwn info) then Ret None
            else Ret (if fits (identity_material info) 1024 then Some (identity_material info) else None)
        end
    end.

Definition ldtm_device_fingerprint (device : option string) : host (option string) :=
    match device with
    | None => Ret None
    | Some device =>
        let* m := on_sys (fingerprint_material device) in
        match m with
        | None => Ret None
        | Some material =>
            let* digest := call (Digest material) in
            Ret (option_map digest_to_hex digest)
        end
    end.

  (** ** The safety check *)

Definition ldtm_is_whole_block_device (device : option string) : sys bool :=
    match device with
    | None => Ret false
    | Some device =>
        let* c := ldtm_canonicalize_device device PATH_MAX in
        match c with
        | Err _ => Ret false
        | Ok canonical =>
            let* r := ld_block_device_info (Some canonical) in
            Ret (match r with Ok info => info_whole_disk info | Err _ => false end)
        end
    end.

Definition ldtm_is_system_disk (device : option string) : sys bool :=
    match device with
    | None => Ret true
    | Some device =>
        let* c := ldtm_canonicalize_device device PATH_MAX in
        match c with
        | Err _ => Ret true
        | Ok canonical =>
            let* r := ld_block_device_has_system_use (Some canonical) in
            Ret (match r with Ok in_use => in_use | Err _ => true end)
        end
    end.

  (** [%.1f] of [size / GiB], for a size below 2^53: the quotient is exact and
      the tenth is rounded half to even. *)
Definition gib_text (size : Z) : string :=
    let q := size * 10 / LDTM_GIB in
    let r := size * 10 mod LDTM_GIB in
    let t := if (LDTM_GIB <? 2 * r) || ((2 * r =? LDTM_GIB) && Z.odd q) then q + 1 else q in
    (utoa (t / 10) ++ "." ++ utoa (t mod 10))%string.

Definition safety_refusal (canonical : string) (info : LdBlockDeviceInfo) (allow_non_removable : bool) :
      option string :=
    if info_read_only info then Some ("Refusing read-only target: " ++ canonical)%string
    else if info_size_bytes info <? ldtm_required_capacity_bytes then
      Some ("Target is too small: " ++ gib_text (info_size_bytes info) ++ " GiB; need at least " ++
            gib_text ldtm_required_capacity_bytes ++ " GiB")%string
    else if negb allow_non_removable &&
            negb (ldtm_transport_is_field_media (info_removable info) (info_transport info)) then
      Some ("Refusing non-removable target by default (RM=" ++
            (if info_removable info then "1" else "0") ++ ", TRAN=" ++
            (if is_empty (info_transport info) then "unknown" else info_transport info) ++ ")")%string
    else None.

  (** 0 or -1, and the text in [detail], a buffer of [detail_capacity > 0]. *)
Definition ldtm_device_safety_check (device : option string) (allow_non_removable : bool)
      (detail_capacity : Z) : sys (bool * string) :=
    let refuse text := Ret (false, truncated text detail_capacity) in
    match device with
    | None => refuse "Target does not exist: (null)"%string
    | Some device =>
        let* c := ldtm_canonicalize_device device PATH_MAX in
        match c with
        | Err _ => refuse ("Target does not exist: " ++ device)%string
        | Ok canonical =>
            let* r := ld_block_device_info (Some canonical) in
            match r with
            | Err _ => refuse ("Unable to inspect " ++ canonical)%string
            | Ok info =>
                if negb (info_whole_disk info) then
                  refuse ("Refusing non-whole-disk target: " ++ canonical)%string
                else
                  let* use := ld_block_device_has_system_use (Some canonical) in
                  match use with
                  | Ok false =>
                      match safety_refusal canonical info allow_non_removable with
                      | Some text => refuse text
                      | None => Ret (true, truncated ("Safe field-media target: " ++ canonical)%string detail_capacity)
                      end
                  | _ => refuse ("Refusing disk backing active system storage: " ++ canonical)%string
                  end
            end
        end
    end.
End Host.

(** ** The release of the mounts *)

Section Release.
  Context {common : Infiltratr}.
  Implicit Types (t : list (event hostE)).

  (** Calls that unmount nothing. *)
Definition keeps_mounts (X : Type) (e : hostE X) : Prop :=
    match e with Umount _ => False | _ => True end.

Lemma on_sys_keeps {A} (p : sys A) : calls_in keeps_mounts (on_sys p).
  Proof. apply calls_interp. intros X e. by split. Qed.
  #[local] Hint Resolve on_sys_keeps : calls.

Lemma source_keeps line devices : calls_in keeps_mounts (source_is_selected line devices).
  Proof. unfold source_is_selected. calls. Qed.
  #[local] Hint Resolve source_keeps : calls.

Lemma target_keeps line devices : calls_in keeps_mounts (ldtm_mountinfo_target line devices).
  Proof. unfold ldtm_mountinfo_target. calls. Qed.
  #[local] Hint Resolve target_keeps : calls.

Lemma scan_keeps devices lines best : calls_in keeps_mounts (scan_mounts devices lines best).
  Proof. revert best. induction lines as [|line lines IH]; intros best; cbn [scan_mounts]; calls. Qed.
  #[local] Hint Resolve scan_keeps : calls.

  (** [target] was read from [line] in the window [mid] of the trace. *)
Definition matched devices (line target : string) (mid : list (event hostE)) : Prop :=
    exists a sub b, mid = a ++ sub ++ b /\
      runs (ldtm_mountinfo_target line devices) sub (Returned (TargetIs target)).

  (** An accepted target is never empty. *)
Lemma target_nonempty line devices t target :
    runs (ldtm_mountinfo_target line devices) t (Returned (TargetIs target)) ->
    target <> EmptyString.
  Proof.
    intros H. unfold ldtm_mountinfo_target in H.
    repeat (case_match; try (by apply runs_inv in H as [_ H])).
    all: apply pbind_runs in H as [(m & _ & ?)|(sel & u1 & u2 & -> & _ & H)]; [done|];
      apply runs_inv in H as [_ H]; destruct sel; cbn [negb] in H;
      first [discriminate H | injection H as <-; intros ->; discriminate].
  Qed.

Lemma scan_found devices lines best t target mj mn :
    runs (scan_mounts devices lines best) t (Returned (Some (Some (target, mj, mn)))) ->
    best = Some (target, mj, mn) \/
    exists line, In line lines /\ matched devices line target t /\
      scan_superblock line = Some (mj, mn).
  Proof.
    revert best t. induction lines as [|line lines IH]; intros best t H; cbn [scan_mounts] in H.
    - apply runs_inv in H as [_ H]. injection H as ->. by left.
    - apply pbind_runs in H as [(m & _ & ?)|(matches & t1 & t2 & -> & H1 & H2)]; [done|].
      assert (Hrest : forall best', runs (scan_mounts devices lines best') t2
          (Returned (Some (Some (target, mj, mn)))) ->
        best' = Some (target, mj, mn) \/ exists line0, In line0 (line :: lines) /\
          matched devices line0 target (t1 ++ t2) /\ scan_superblock line0 = Some (mj, mn)).
      { intros best' H. apply IH in H as [->|(l & Hl & (a & sub & b & -> & Hm) & Hs)]; [by left|].
        right. exists l. split; [by right|]. split; [|done]. exists (t1 ++ a), sub, b.
        split; [by rewrite <- app_assoc|done]. }
      destruct matches as [| |current].
      + by apply runs_inv in H2 as [_ H2].
      + by apply Hrest in H2.
      + destruct (_ <? _) in H2; [|by apply Hrest in H2].
        destruct (scan_superblock line) as [[mj' mn']|] eqn:Es; [|by apply runs_inv in H2 as [_ H2]].
        apply Hrest in H2 as [[= -> -> ->]|H2]; [|by right].
        right. exists line. split; [by left|]. split; [|done]. exists [], t1, t2. done.
  Qed.

Lemma scan_none devices lines t :
    runs (scan_mounts devices lines None) t (Returned (Some None)) ->
    Forall (fun line => exists a sub b, t = a ++ sub ++ b /\
      runs (ldtm_mountinfo_target line devices) sub (Returned TargetOther)) lines.
  Proof.
    assert (Hsome : forall lines best t, best <> None ->
      ~ runs (scan_mounts devices lines best) t (Returned (Some None))).
    { clear. intros lines. induction lines as [|line lines IH]; intros best t Hb H; cbn [scan_mounts] in H.
      - apply runs_inv in H as [_ H]. by injection H as <-.
      - apply pbind_runs in H as [(m & _ & ?)|(matches & t1 & t2 & -> & H1 & H2)]; [done|].
        destruct matches as [| |current]; [by apply runs_inv in H2 as [_ H2]|by apply IH in H2|].
        destruct (_ <? _) in H2; [|by apply IH in H2].
        destruct (scan_superblock line) as [[mj' mn']|]; [|by apply runs_inv in H2 as [_ H2]].
        by apply IH in H2. }
    revert t. induction lines as [|line lines IH]; intros t H; cbn [scan_mounts] in H; [constructor|].
    apply pbind_runs in H as [(m & _ & ?)|(matches & t1 & t2 & -> & H1 & H2)]; [done|].
    destruct matches as [| |current]; [by apply runs_inv in H2 as [_ H2]| |].
    - apply List.Forall_cons; [by exists [], t1, t2|]. apply IH in H2. revert H2.
      apply List.Forall_impl. intros l (a & sub & b & -> & Hl).
      exists (t1 ++ a), sub, b. split; [by rewrite <- app_assoc|done].
    - destruct (_ <? _) eqn:E in H2.
      + destruct (scan_superblock line) as [[mj' mn']|]; [|by apply runs_inv in H2 as [_ H2]].
        by apply Hsome in H2.
      + exfalso. breflect. pose proof (target_nonempty _ _ _ _ H1).
        destruct current; [done|]. unfold strlen in E. cbn [String.length] in E. lia.
  Qed.

  (** *** The order of the calls *)

Definition mount_table (lines : list string) : event hostE :=
    Event (HSys (ReadLines "/proc/self/mountinfo")) (Ok (lines, Enone)).

Definition lsblk_event (device output : string) : event hostE :=
    Event (Capture ["lsblk"; "-n"; "-r"; "-o"; "MAJ:MIN"; "--"; device]) (Some output).

  (** What precedes an unmount: the live mount table, one of whose lines belongs
      to the selected devices and names [target], and a [stat] that finds the
      superblock of that line on top. *)
Definition release_justified devices t (target : string) : Prop :=
    exists pre lines mid line top text,
      t = pre ++ mount_table lines :: mid ++
          [Event (HSys (Stat target)) (Ok top); Event (Report text) tt] /\
      In line lines /\ matched devices line target mid /\
      scan_superblock line = Some (major (st_dev top), minor (st_dev top)).

  (** How a release ends well: no line of a fresh mount table belongs to the
      devices, and [ld_path_is_mounted] answers no. *)
Definition released device devices t : Prop :=
    exists pre lines mid fin,
      t = pre ++ mount_table lines :: mid ++ fin /\
      Forall (fun line => exists a sub b, mid = a ++ sub ++ b /\
        runs (ldtm_mountinfo_target line devices) sub (Returned TargetOther)) lines /\
      runs (on_sys (ld_path_is_mounted (Some device))) fin (Returned false).

Definition release_calls devices t (X : Type) (e : hostE X) : Prop :=
    match e with Umount target => release_justified devices t target | _ => True end.

Definition release_end device devices (o : outcome bool) t : Prop :=
    o = Returned true -> released device devices t.

Lemma keeps_release devices {A} (p : host A) :
    calls_in keeps_mounts p -> calls_in (fun X e => forall t, release_calls devices t X e) p.
  Proof.
    induction p as [a|m|X e k IH]; simpl; auto. intros [H1 H2]. split; [|auto].
    intros t. by destruct e.
  Qed.

Lemma unmount_loop_wp device devices attempts failures t :
    wp (release_calls devices) (release_end device devices)
      (unmount_loop attempts device devices failures) t.
  Proof.
    revert failures t. induction attempts as [|attempts IH]; intros failures t;
      cbn [unmount_loop]; [done|].
    set (failed := if 3 <=? failures + 1 then _ else _).
    assert (Hfailed : forall t, wp (release_calls devices) (release_end device devices) failed t)
      by (intros u; unfold failed; destruct (_ <=? _); [done|apply IH]).
    clearbody failed. cbn [call pbind wp]. split; [done|]. intros [[lines ferror]|e]; [|done].
    apply wp_bind, wp_of_runs; [apply keeps_release, scan_keeps|].
    intros mid [[best|]|m] Hscan; [|done|done].
    destruct (bool_decide (ferror = Enone)) eqn:Ef; cbn [negb]; [|done].
    apply bool_decide_eq_true in Ef as ->.
    destruct best as [[[target mj] mn]|].
    - cbn [call pbind wp]. split; [done|]. intros [top|e]; [|apply Hfailed].
      destruct (_ && _) eqn:Etop; [|apply Hfailed]. breflect.
      cbn [call pbind wp]. split; [done|]. intros []. split.
      + apply scan_found in Hscan as [?|(line & Hl & Hm & Hs)]; [done|].
        exists t, lines, mid, line, top. eexists. split; [|split; [done|split; [done|]]].
        * by rewrite <- !app_assoc.
        * rewrite Hs. by subst.
      + intros [r|e]; [apply IH|]. cbn [call pbind wp]. split; [done|]. intros []. apply Hfailed.
    - apply wp_bind, wp_of_runs; [apply keeps_release, on_sys_keeps|].
      intros fin [mounted|m] Hm; [|done]. cbn [wp]. intros Ho.
      destruct mounted; [done|].
      exists t, lines, mid, fin. split; [by rewrite <- !app_assoc|]. split; [|done].
      by apply scan_none.
  Qed.

Lemma mmc_material_runs canonical info t material :
    runs (on_sys (mmc_material_of canonical info)) t (Returned (Some material)) ->
    exists rdev cid,
      ldtm_mmc_identity_material (info_size_bytes info) (major rdev) (minor rdev) (Some cid) 1024
        = Some material.
  Proof.
    unfold on_sys, mmc_material_of. intros H. cbn [call pbind interp] in H.
    apply runs_inv in H as ([status|e] & t' & -> & H); [|by apply runs_inv in H as [_ H]].
    destruct (S_ISBLK _); cbn [negb] in H; [|by apply runs_inv in H as [_ H]]. cbv zeta in H.
    destruct (fits _ _); cbn [negb] in H; [|by apply runs_inv in H as [_ H]].
    cbn [call pbind interp] in H.
    apply runs_inv in H as ([cid|e] & t'' & -> & H); [|by apply runs_inv in H as [_ H]].
    apply runs_inv in H as [_ H]. injection H as H. eauto.
  Qed.
End Release.

(** ** A host for the witnesses *)

(** The 64 GiB disk [/dev/sda] with the partition [sda1], mounted on
    [/media/TEST] while the state is true. *)
Definition disk_sys (X : Type) (e : sysE X) (mounted : bool) : X * bool :=
  (match e in sysE X return X with
   | Stat p =>
       if String.eqb p "/dev/sda" then Ok (mkStat 25008 6 9 (makedev 8 0) 0 0 1)
       else if String.eqb p "/media/TEST" then Ok (mkStat 16877 (makedev 8 1) 2 0 0 0 1)
       else fst (demo_host false [] Enone _ (Stat p) tt)
   | Realpath p => Ok p
   | RealpathCopy p n =>
       if String.eqb p "/dev/sda" then Ok p else fst (demo_host false [] Enone _ (RealpathCopy p n) tt)
   | ReadLines p =>
       if String.eqb p "/proc/self/mountinfo" then
         Ok (if mounted then ["31 1 8:1 / /media/TEST rw - vfat /dev/sda1 rw"] else [], Enone)
       else Ok (["Filename Type"], Enone)
   | ReadU64 p => Some (if String.eqb p "/sys/block/sda/size" then 134217728 else 0)
   | ReadText p n =>
       if String.eqb p "/sys/block/sda/device/serial" then Ok "SN-42"
       else if String.eqb p "/sys/block/sda/sda1/dev" then Ok "8:1"
       else fst (demo_host false [] Enone _ (ReadText p n) tt)
   | ReadDir p =>
       if String.eqb p "/sys/block/sda" then Ok (["sda1"], Enone) else Ok (["."; ".."], Enone)
   | e => fst (demo_host false [] Enone _ e tt)
   end, mounted).

Definition disk_host (X : Type) (e : hostE X) (mounted : bool) : X * bool :=
  match e in hostE X return X * bool with
  | HSys e => disk_sys _ e mounted
  | Capture _ => (Some ("8:0" ++ String LF "8:1" ++ String LF "")%string, mounted)
  | Run _ _ _ => (0, mounted)
  | Umount _ => (Ok tt, false)
  | Digest m => (Some (repeat 171 32), mounted)
  | Usleep _ => (tt, mounted)
  | Report _ => (tt, mounted)
  | ReportErrno _ _ => (tt, mounted)
  end.

Definition demo_release :=
  execute disk_host (unmount_descendants (common := infiltratr_reference) "/dev/sda") true.
Definition demo_check :=
  execute disk_sys (ldtm_device_safety_check (common := infiltratr_reference) (Some "/dev/sda") false 512) false.
Definition demo_print :=
  execute disk_host (ldtm_device_fingerprint (common := infiltratr_reference) (Some "/dev/sda")) false.

(** ** Properties *)

Section Properties.
  Context {common : Infiltratr}.

(** Unmount_descendants detaches only mounts of the selected disk: it asks
    lsblk for the device numbers first, and every umount2 follows a fresh read
    of the mount table, a line of it that belongs to one of those numbers (or
    whose source device does) and names that target, and a stat that finds that
    very superblock on top.  It reports success only when no line of a fresh,
    completely read mount table belongs to the disk any more and
    ld_path_is_mounted says no. *)
Theorem unmount_only_selected device t o :
  runs (unmount_descendants device) t o ->
  (forall pre target r post, t = pre ++ Event (Umount target) r :: post ->
    exists output devices mid, pre = lsblk_event device output :: mid /\
      selected_devices (strtok LF output) [] = Some devices /\
      release_justified devices mid target) /\
  (o = Returned true -> exists output devices mid,
    t = lsblk_event device output :: mid /\ devices <> [] /\
    selected_devices (strtok LF output) [] = Some devices /\ released device devices mid).
Proof.
  intros H. unfold unmount_descendants, ldtm_selected_device_numbers in H.
  cbn [call pbind] in H. apply runs_inv in H as (output & t' & -> & H).
  assert (Hstop : runs (Ret false : host bool) t' o -> t' = [] /\ o = Returned false)
    by (intros Hr; exact (runs_inv _ _ _ Hr)).
  assert (Hone : forall ev : event hostE, (forall target r, ev <> Event (Umount target) r) ->
    forall pre target r post, [ev] <> pre ++ Event (Umount target) r :: post).
  { intros ev Hev [|x [|]] target r post [=]; subst; by eapply Hev. }
  destruct output as [output|].
  - destruct (selected_devices (strtok LF output) []) as [[|d devices]|] eqn:Es.
    + apply Hstop in H as [-> ->]. split; [|done]. intros pre target r post E.
      by apply Hone in E.
    + destruct (wp_runs _ _ _ [] _ _ (unmount_loop_wp device (d :: devices)
        LDTM_MAX_UNMOUNT_ATTEMPTS 0 []) H) as [Hend Hcalls]. cbn [app] in *. split.
      * intros [|ev pre] target r post E; [done|]. injection E as <- ->.
        exists output, (d :: devices), pre. split; [done|]. split; [done|].
        exact (Hcalls pre _ (Umount target) r post eq_refl).
      * intros Ho. exists output, (d :: devices), t'. repeat split; [done|done|by apply Hend].
    + apply Hstop in H as [-> ->]. split; [|done]. intros pre target r post E.
      by apply Hone in E.
  - apply Hstop in H as [-> ->]. split; [|done]. intros pre target r post E.
    by apply Hone in E.
Qed.

(** A target that passes the safety check is a whole disk, which no system
    mount or swap uses by a complete examination, writable, and large enough
    for the whole catalogue; a failure of any inspection refuses. *)
Theorem safety_check_sound device allow capacity t text :
  runs (ldtm_device_safety_check (Some device) allow capacity) t (Returned (true, text)) ->
  exists canonical info t1 t2 t3, t = t1 ++ t2 ++ t3 /\
    runs (ldtm_canonicalize_device device PATH_MAX) t1 (Returned (Ok canonical)) /\
    runs (ld_block_device_info (Some canonical)) t2 (Returned (Ok info)) /\
    runs (ld_block_device_has_system_use (Some canonical)) t3 (Returned (Ok false)) /\
    info_whole_disk info = true /\ info_read_only info = false /\
    ldtm_required_capacity_bytes <= info_size_bytes info.
Proof.
  unfold ldtm_device_safety_check. intros H.
  apply pbind_runs in H as [(m & _ & ?)|([canonical|e] & t1 & t' & -> & H1 & H)];
    [done| |by apply runs_inv in H as [_ H]].
  apply pbind_runs in H as [(m & _ & ?)|([info|e] & t2 & t'' & -> & H2 & H)];
    [done| |by apply runs_inv in H as [_ H]].
  destruct (info_whole_disk info) eqn:Ew; cbn [negb] in H; [|by apply runs_inv in H as [_ H]].
  apply pbind_runs in H as [(m & _ & ?)|([[|]|e] & t3 & t4 & -> & H3 & H)];
    [done|by apply runs_inv in H as [_ H]| |by apply runs_inv in H as [_ H]].
  unfold safety_refusal in H.
  destruct (info_read_only info) eqn:Er; [by apply runs_inv in H as [_ H]|].
  destruct (_ <? _) eqn:Es in H; [by apply runs_inv in H as [_ H]|]. breflect.
  exists canonical, info, t1, t2, t3.
  destruct (_ && _) in H; [by apply runs_inv in H as [_ H]|].
  apply runs_inv in H as [-> _]. rewrite app_nil_r. auto 10.
Qed.

(** No disk is confirmed anonymously: a fingerprint is the SHA-256 text of a
    whole disk with a capacity, identified by its card CID together with the
    kernel device number when it is a memory card, and by a non-empty serial
    number or WWN otherwise. *)
Theorem fingerprint_never_anonymous device t fp :
  runs (ldtm_device_fingerprint (Some device)) t (Returned (Some fp)) ->
  exists material digest canonical info t1 t2 t3,
    t = t1 ++ t2 ++ t3 ++ [Event (Digest material) (Some digest)] /\ fp = digest_to_hex digest /\
    runs (on_sys (ldtm_canonicalize_device device PATH_MAX)) t1 (Returned (Ok canonical)) /\
    runs (on_sys (ld_block_device_info (Some canonical))) t2 (Returned (Ok info)) /\
    info_whole_disk info = true /\ info_size_bytes info <> 0 /\
    if String.prefix "mmcblk" (infiltratr_path_basename canonical) then
      exists rdev cid,
        ldtm_mmc_identity_material (info_size_bytes info) (major rdev) (minor rdev) (Some cid) 1024
          = Some material
    else material = identity_material info /\
      (info_serial info <> EmptyString \/ info_wwn info <> EmptyString).
Proof.
  unfold ldtm_device_fingerprint. intros H.
  apply pbind_runs in H as [(m & _ & ?)|([material|] & t0 & t' & -> & Hm & H)];
    [done| |by apply runs_inv in H as [_ H]].
  cbn [call pbind] in H. apply runs_inv in H as (digest & t'' & -> & H).
  apply runs_inv in H as [-> H]. destruct digest as [digest|]; [|done]. injection H as ->.
  exists material, digest. unfold on_sys in Hm. unfold fingerprint_material in Hm.
  apply interp_bind_runs in Hm as [(m & _ & ?)|([canonical|e] & t1 & t' & -> & H1 & Hm)];
    [done| |by apply runs_inv in Hm as [_ Hm]].
  apply interp_bind_runs in Hm as [(m & _ & ?)|([info|e] & t2 & t3 & -> & H2 & Hm)];
    [done| |by apply runs_inv in Hm as [_ Hm]].
  exists canonical, info, t1, t2, t3. split; [by rewrite <- !app_assoc|].
  split; [done|]. split; [done|]. split; [done|].
  destruct (negb _ || _) eqn:E in Hm; [by apply runs_inv in Hm as [_ Hm]|]. breflect.
  split; [done|]. split; [done|].
  destruct (String.prefix _ _).
  - by apply mmc_material_runs in Hm.
  - destruct (_ && _) eqn:En in Hm; [by apply runs_inv in Hm as [_ Hm]|].
    apply runs_inv in Hm as [_ Hm]. destruct (fits _ _); [|done]. injection Hm as ->.
    split; [done|]. apply andb_false_iff in En as [En|En]; [left|right]; intros Hx; by rewrite Hx in En.
Qed.
End Properties.

Lemma unmount_only_selected_witness :
  fst demo_release = Returned true /\
  exists output devices mid, snd demo_release = lsblk_event "/dev/sda" output :: mid /\
    released (common := infiltratr_reference) "/dev/sda" devices mid.
Proof.
  assert (Ho : fst demo_release = Returned true) by (vm_compute; reflexivity).
  split; [exact Ho|].
  destruct (unmount_only_selected (common := infiltratr_reference) "/dev/sda" _ _
    (execute_runs disk_host (unmount_descendants "/dev/sda") true)) as [_ H].
  destruct (H Ho) as (output & devices & mid & Ht & _ & _ & Hr).
  exists output, devices, mid. split; [exact Ht|exact Hr].
Defined.

Lemma safety_check_sound_witness :
  exists text info, fst demo_check = Returned (true, text) /\ info_whole_disk info = true /\
    ldtm_required_capacity_bytes <= info_size_bytes info.
Proof.
  exists "Safe field-media target: /dev/sda".
  assert (Ho : fst demo_check = Returned (true, "Safe field-media target: /dev/sda"))
    by (vm_compute; reflexivity).
  destruct (safety_check_sound (common := infiltratr_reference) "/dev/sda" false 512
    (snd demo_check) "Safe field-media target: /dev/sda") as (c & info & _ & _ & _ & _ & _ & _ & _ & H1 & _ & H2).
  - rewrite <- Ho. exact (execute_runs disk_sys (ldtm_device_safety_check (Some "/dev/sda") false 512) false).
  - exists info. split; [exact Ho|]. split; [exact H1|exact H2].
Defined.

Lemma fingerprint_never_anonymous_witness :
  exists fp info, fst demo_print = Returned (Some fp) /\ info_size_bytes info <> 0.
Proof.
  exists (digest_to_hex (repeat 171 32)).
  assert (Ho : fst demo_print = Returned (Some (digest_to_hex (repeat 171 32))))
    by (vm_compute; reflexivity).
  destruct (fingerprint_never_anonymous (common := infiltratr_reference) "/dev/sda"
    (snd demo_print) (digest_to_hex (repeat 171 32))) as (m & d & c & info & t1 & t2 & t3 & _ & _ & _ & _ & _ & H & _).
  - rewrite <- Ho. exact (execute_runs disk_host (ldtm_device_fingerprint (Some "/dev/sda")) false).
  - exists info. split; [exact Ho|exact H].
Defined.
