(* ===== verification/TestMediaWorker.v ===== *)
(** The privileged workers of test_media_worker.c as programs over their steps:
    [prepare], which repartitions the confirmed disk and fills every slot,
    [verify], which reads the slots back, and [qualify], which runs the
    production defragmenter on them.  A step is a call of a helper that is
    modelled in another file (the guards of TestMediaDevice, the state text of
    TestMediaState, the fixtures of TestMediaRaw, the module preflight of
    TestMediaCore) or of code outside the model (processes, the AmigaDOS, APFS
    and UFS creators, the standard streams). *)
From S2P Require Import Prelude Effects CString Infiltratr Sys.
From S2P Require Import TestMediaCore TestMediaJson TestMediaState.

(** ** Steps *)

Inductive stepE : Type -> Type :=
| EffectiveUid : stepE Z
(** [ldtm_required_modules_available] with its 512-byte text. *)
| RequiredModules : stepE (bool * string)
(** [ldtm_canonicalize_device] into a [PATH_MAX] buffer. *)
| Canonicalize (device : string) : stepE (option string)
| DeviceFingerprint (device : string) : stepE (option string)
(** [ldtm_device_safety_check(device, 0, ...)]: success and its text. *)
| SafetyCheck (device : string) : stepE (bool * string)
| UnmountDescendants (device : string) : stepE bool
| PathIsMounted (path : string) : stepE bool
| RunProcess (argv : list string) (stdin_text : option string) (quiet : bool) : stepE Z
| CaptureProcess (argv : list string) : stepE (option string)
| SettlePartitions (device : string) : stepE (option (list LdtmPartition))
| LoadPartitionMap (device : string) : stepE (option (list LdtmPartition))
| MakeWorkDirectory (template : string) : stepE (option string)
| RemoveTree (path : string) : stepE unit
(** [open_state_stream], for writing and with the whole stream for reading
    (its text, [ferror] at the end, and the answer of [fclose]). *)
| CreateState (path : string) : stepE (result unit)
| ReadState (path : string) : stepE (option (string * bool * bool))
(** [fprintf] of a text to the state file and [state_flush]. *)
| AppendState (text : string) : stepE bool
| CloseState : stepE unit
(** [ldtm_raw_fixture] with its 512-byte text. *)
| RawFixture (spec : LdtmFilesystemSpec) (partition : string) (create : bool) : stepE (bool * string)
| FormatAmiga (partition : string) (dostype : Z) (label : string) : stepE Z
| PopulateAmiga (partition : string) (dostype : Z) (profile : LdtmFragmentProfile) : stepE bool
| VerifyAmiga (partition : string) (dostype : Z) (profile : LdtmFragmentProfile) (after_defrag : bool) :
    stepE (bool * string)
| FormatApfs (partition : string) : stepE bool
| VerifyApfs (partition : string) (after_defrag : bool) : stepE (bool * string)
| MakeDirectory (path : string) : stepE bool
| GenerateUfsSource (source : string) : stepE bool
| CopyImage (image partition : string) : stepE bool
| VerifyUfsPayload (path : string) : stepE (bool * string)
| ProgramAvailable (program : string) : stepE bool
| ResolveProgram (program : string) : stepE (option string)
| Getenv (name : string) : stepE (option string)
| Executable (path : string) : stepE bool
| Exists (path : string) : stepE bool
| Sleep (microseconds : Z) : stepE unit
| Printf (text : string) : stepE unit
| Eprintf (text : string) : stepE unit
| EprintfErrno (text : string) (failure : errno) : stepE unit
(** [fprintf(stderr, "%s\n", buffer)] of a buffer that was never written. *)
| EprintfUninitialised : stepE unit.

Definition step := prog stepE.

Definition emit_status (filesystem status detail : string) : step unit :=
  call (Printf (newline (tabbed ["LDTM_STATUS"; filesystem; status; detail]))).

Definition state_write_status (spec : LdtmFilesystemSpec) (status detail : string) : step bool :=
  call (AppendState (newline (status_line spec status detail))).

(** [%d] *)
Definition itoa (n : Z) : string := if n <? 0 then String "-" (utoa (- n)) else utoa n.
Definition plural (n : Z) (one many : string) : string := if n =? 1 then one else many.

Definition or_text (detail fallback : string) : string := if is_empty detail then fallback else detail.

Section Worker.
  Context {common : Infiltratr}.

  (** ** The production analyser *)

Definition production_mapper_program : step (option string) :=
    let installed :=
      let* x := call (Executable "/System/Commands/Defragmenter/defragmenter-mapper") in
      if x : bool then Ret (Some "/System/Commands/Defragmenter/defragmenter-mapper"%string)
      else
        let* available := call (ProgramAvailable "defragmenter-mapper") in
        Ret (if available : bool then Some "defragmenter-mapper"%string else None) in
    let* configured := call (Getenv "DEFRAGMENTER_MAPPER") in
    match configured with
    | Some configured =>
        if is_empty configured then installed
        else
          let* x := call (Executable configured) in
          if x : bool then Ret (Some configured) else installed
    | None => installed
    end.

  (** The report, or [None]; and the text left in [detail]. *)
Definition production_map_output (spec : LdtmFilesystemSpec) (partition : string)
      (detail_capacity : Z) : step (option string * string) :=
    let* program := production_mapper_program in
    match program with
    | None => Ret (None, truncated "production allocation mapper is unavailable" detail_capacity)
    | Some program =>
        let* output := call (CaptureProcess [program; partition; "--fstype"; key spec; "--cells"; "1"]) in
        Ret (match output with
             | None => (None, truncated "production analyser rejected the generated filesystem"
                                detail_capacity)
             | Some output => (Some output, EmptyString)
             end)
    end.

Definition fragment_counts_text (fragmented_files fragmented_directories : Z) : string :=
    ("production analyser reports " ++ utoa fragmented_files ++ " fragmented file" ++
     plural fragmented_files "" "s" ++ " and " ++ utoa fragmented_directories ++
     " fragmented director" ++ plural fragmented_directories "y" "ies")%string.

Definition production_fragment_counts (spec : LdtmFilesystemSpec) (partition : string)
      (detail_capacity : Z) : step (option (Z * Z) * string) :=
    let* (output, detail) := production_map_output spec partition detail_capacity in
    Ret (match output with
         | None => (None, detail)
         | Some output =>
             match parse_json_u64_field output "fragmented_files",
                   parse_json_u64_field output "fragmented_directories" with
             | Some files, Some directories =>
                 (Some (files, directories),
                  truncated (fragment_counts_text files directories) detail_capacity)
             | _, _ =>
                 (None, truncated
                   "production analyser did not report complete fragmentation totals" detail_capacity)
             end
         end).

Definition production_map_accepts (spec : LdtmFilesystemSpec) (partition : string)
      (detail_capacity : Z) : step (bool * string) :=
    let* (output, detail) := production_map_output spec partition detail_capacity in
    Ret (match output with
         | None => (false, detail)
         | Some _ => (true, truncated "production mapper accepted the complete filesystem geometry"
                              detail_capacity)
         end).

Definition require_fragmentation_state (spec : LdtmFilesystemSpec) (partition : string)
      (expect_fragmented : bool) (detail_capacity : Z) : step (bool * string) :=
    let* (counts, detail) := production_fragment_counts spec partition detail_capacity in
    Ret (match counts with
         | None => (false, detail)
         | Some (files, directories) =>
             if expect_fragmented && (files =? 0) then
               (false, truncated "qualification requires a genuinely fragmented retained file before Defragment; production analyser reported zero fragmented files" detail_capacity)
             else if negb expect_fragmented && (negb (files =? 0) || negb (directories =? 0)) then
               (false, truncated ("post-Defragment qualification requires zero fragmented files and directories; production analyser saw " ++
                 utoa files ++ " file" ++ plural files "" "s" ++ " and " ++ utoa directories ++
                 " director" ++ plural directories "y" "ies")%string detail_capacity)
             else (true, detail)
         end).

  (** ** Builders of one slot

      0: populated and recorded, 1: recorded as failed, -1: give up. *)

  (** [emit_status(...); (void)state_write_status(...); return 1;] *)
Definition refuse (spec : LdtmFilesystemSpec) (status shown recorded : string) : step Z :=
    emit_status (key spec) status shown ;;;
    state_write_status spec status recorded ;;;
    Ret 1.

Definition amiga_dostype (spec : LdtmFilesystemSpec) : Z := if String.eqb (key spec) "ofs" then 0 else 1.

Definition MINUS_EBUSY : Z := -16.

  (** The format attempts; [result] is [format_result] before the attempt. *)
Fixpoint format_attempts (attempts : nat) (attempt : Z) (partition : string) (dostype : Z)
      (label : string) (result : Z) : step Z :=
    match attempts with
    | O => Ret result
    | S attempts =>
        let formatted :=
          let* result := call (FormatAmiga partition dostype label) in
          if negb (result =? MINUS_EBUSY) then Ret result
          else
            call (Printf ("Test Media: " ++ partition ++ " was busy at exclusive open (" ++
              utoa (attempt + 1) ++ "/6); checking the selected test partition before retry." ++
              String LF EmptyString)) ;;;
            let* unmounted := call (UnmountDescendants partition) in
            if negb unmounted then Ret result
            else
              (if attempt + 1 <? 6 then call (Sleep 200000) else Ret tt) ;;;
              format_attempts attempts (attempt + 1) partition dostype label result in
        let* mounted := call (PathIsMounted partition) in
        if mounted : bool then
          call (Printf ("Test Media: unmounting automounted " ++ partition ++
            " before formatter exclusive open." ++ String LF EmptyString)) ;;;
          let* unmounted := call (UnmountDescendants partition) in
          if negb unmounted then Ret MINUS_EBUSY
          else
            let* still := call (PathIsMounted partition) in
            if still : bool then Ret MINUS_EBUSY else formatted
        else formatted
    end.

Definition wipefs (partition : string) : step Z :=
    call (RunProcess ["wipefs"; "--all"; "--force"; partition] None false).

Definition amiga_message : string :=
    "raw C deterministic payload created; independent raw verifier and production analyser both prove fragmentation".

  (** The record comes before the status line. *)
Definition populated_slot (spec : LdtmFilesystemSpec) (message : string) : step Z :=
    let* written := state_write_status spec "populated" message in
    if negb written then Ret (-1)
    else emit_status (key spec) "populated" message ;;; Ret 0.

Definition create_amiga_and_populate (spec : LdtmFilesystemSpec) (partition : string) : step Z :=
    let dostype := amiga_dostype spec in
    let profile := ldtm_fragment_profile (Some spec) in
    let* wiped := wipefs partition in
    if negb (wiped =? 0) then
      refuse spec "format-failed" "could not clear old filesystem signatures" "wipefs failed"
    else
      call (Printf ("+ built-in raw C Amiga DOS\" ++ utoa dostype ++ " formatter/populator " ++
        newline partition)) ;;;
      let* result := format_attempts 6 0 partition dostype (label spec) (-1) in
      if negb (result =? 0) then
        let failure := truncated ("OFS/Amiga formatter refused partition (status " ++ itoa result ++
          (if (result =? MINUS_EBUSY)%Z then ": mounted, locked or busy" else "") ++ ")")%string 192 in
        refuse spec "format-failed" failure failure
      else
        let* populated := call (PopulateAmiga partition dostype profile) in
        if negb populated then
          refuse spec "formatted-unpopulated" "raw C Amiga fragmentation payload generation failed"
            "raw C payload generation failed"
        else
          let* (verified, detail) := call (VerifyAmiga partition dostype profile false) in
          if negb verified then
            refuse spec "formatted-unpopulated" (or_text detail "raw C Amiga payload self-check failed")
              "raw C payload self-check failed"
          else
            let* (fragmented, detail) := require_fragmentation_state spec partition true 512 in
            if negb fragmented then refuse spec "qualification-failed" detail detail
            else populated_slot spec amiga_message.

Definition raw_message (spec : LdtmFilesystemSpec) : string :=
    if decide (creator spec = LDTM_CREATOR_SWAP)
    then "first-party swap header and native page map verified"
    else "first-party raw corpus fully verified; production analyser proved fragmentation".

  (** A failed raw slot: the record decides between 1 and -1. *)
Definition refuse_raw (spec : LdtmFilesystemSpec) (detail : string) : step Z :=
    emit_status (key spec) "qualification-failed" detail ;;;
    let* written := state_write_status spec "qualification-failed" detail in
    Ret (if written : bool then 1 else -1).

Definition create_raw_and_populate (spec : LdtmFilesystemSpec) (partition : string) : step Z :=
    let* (created, detail) := call (RawFixture spec partition true) in
    if negb created then refuse_raw spec detail
    else
      let* (checked, detail) := call (RawFixture spec partition false) in
      if negb checked then refuse_raw spec detail
      else
        let* (accepted, detail) :=
          if decide (creator spec = LDTM_CREATOR_SWAP)
          then production_map_accepts spec partition 512
          else require_fragmentation_state spec partition true 512 in
        if negb accepted then refuse_raw spec detail
        else
          emit_status (key spec) "populated" (raw_message spec) ;;;
          let* written := state_write_status spec "populated" (raw_message spec) in
          Ret (if written : bool then 0 else -1).

Definition ufs2_summary_ok (path : string) : step bool :=
    let* r := call (RunProcess ["makefs"; "--check-ufs2-le"; path] None true) in Ret (r =? 0).

Definition ufs_message : string :=
    "first-party bounded UFS2 payload created and completely verified; production analyser proved fragmentation".

  (** From the verified image to the record. *)
Definition install_ufs_image (spec : LdtmFilesystemSpec) (image partition : string) : step Z :=
    call (Printf ("+ copy verified UFS2 image " ++ image ++ " -> " ++ newline partition)) ;;;
    let* copied := call (CopyImage image partition) in
    if negb copied then
      refuse spec "format-failed" "UFS2 image copy failed" "UFS2 image copy failed"
    else
      let* summary := ufs2_summary_ok partition in
      if negb summary then
        refuse spec "qualification-failed" "copied UFS2 image failed UFS2.so geometry validation"
          "UFS2 partition validation failed"
      else
        let* (verified, detail) := call (VerifyUfsPayload partition) in
        if negb verified then refuse spec "qualification-failed" detail detail
        else
          let* (fragmented, detail) := require_fragmentation_state spec partition true 512 in
          if negb fragmented then refuse spec "qualification-failed" detail detail
          else populated_slot spec ufs_message.

Definition ufs_image_mib (spec : LdtmFilesystemSpec) : Z :=
    if 2048 <=? size_mib spec then 2047 else size_mib spec.

Definition create_ufs_and_populate (spec : LdtmFilesystemSpec) (partition work : string) : step Z :=
    let workspace_failed :=
      refuse spec "format-failed" "could not prepare UFS image workspace"
        "UFS workspace preparation failed" in
    let* available := call (ProgramAvailable "makefs") in
    if negb available then
      refuse spec "skipped" "bundled first-party UFS2 creator is missing"
        "bundled first-party UFS2 creator is missing"
    else
      let source := truncated (work ++ "/ufs-source")%string PATH_MAX in
      let image := truncated (work ++ "/ufs.img")%string PATH_MAX in
      let* wiped := wipefs partition in
      if negb (wiped =? 0) then workspace_failed
      else
        let* made := call (MakeDirectory source) in
        if negb made then workspace_failed
        else
          let* generated := call (GenerateUfsSource source) in
          if negb generated then
            refuse spec "format-failed" "could not build deterministic UFS source tree"
              "UFS source tree generation failed"
          else
            let* makefs := call (RunProcess ["makefs"; "-t"; "ffs"; "-B"; "little"; "-s";
              (utoa (ufs_image_mib spec) ++ "m")%string; "-o"; "version=2,bsize=8192,fsize=1024,minfree=5";
              image; source] None false) in
            if negb (makefs =? 0) then
              let detail := truncated ("makefs failed while building the bounded " ++
                utoa (ufs_image_mib spec) ++ " MiB UFS2 image")%string 192 in
              refuse spec "format-failed" detail detail
            else
              let* summary := ufs2_summary_ok image in
              if negb summary then
                refuse spec "qualification-failed" "makefs completed but UFS2.so rejected its UFS2 image"
                  "makefs output failed UFS2.so UFS2 geometry validation"
              else install_ufs_image spec image partition.

Definition apfs_message : string :=
    "first-party raw C capped APFS fixture created; independent payload verifier and production analyser prove fragmentation".

Definition create_apfs_and_populate (spec : LdtmFilesystemSpec) (partition : string) : step Z :=
    let* wiped := wipefs partition in
    if negb (wiped =? 0) then
      refuse spec "format-failed" "could not clear old filesystem signatures" "wipefs failed"
    else
      call (Printf ("+ built-in raw C APFS fixture creator " ++ newline partition)) ;;;
      let* formatted := call (FormatApfs partition) in
      if negb formatted then
        refuse spec "format-failed" "built-in C APFS creator failed" "built-in C APFS creator failed"
      else
        let* (verified, detail) := call (VerifyApfs partition false) in
        if negb verified then
          refuse spec "formatted-unpopulated" (or_text detail "APFS fixture self-check failed")
            "APFS fixture self-check failed"
        else
          let* (fragmented, detail) := require_fragmentation_state spec partition true 512 in
          if negb fragmented then refuse spec "qualification-failed" detail detail
          else populated_slot spec apfs_message.

  (** ** Prepare *)

Definition LDTM_STATE_ROOT : string := "/var/lib/defragmenter-test-media".

Definition state_path_for_device (device : string) : step (option string) :=
    let* fingerprint := call (DeviceFingerprint device) in
    Ret (match fingerprint with
         | None => None
         | Some fingerprint =>
             let path := (LDTM_STATE_ROOT ++ "/disk-" ++ fingerprint ++ ".tsv")%string in
             if fits path PATH_MAX then Some path else None
         end).

  (** The choice of builder. *)
Definition populate_slot (spec : LdtmFilesystemSpec) (partition work : string) : step Z :=
    match creator spec with
    | LDTM_CREATOR_MANUAL => refuse spec "qualification-failed" (note spec) (note spec)
    | LDTM_CREATOR_AFFS | LDTM_CREATOR_PFS3 => create_amiga_and_populate spec partition
    | LDTM_CREATOR_APFS => create_apfs_and_populate spec partition
    | LDTM_CREATOR_UFS => create_ufs_and_populate spec partition work
    | _ => create_raw_and_populate spec partition
    end.

  (** One round of the loop: 0, 1 for [failures++], -1 for [goto cleanup]. *)
Definition prepare_slot (canonical work : string) (map : list LdtmPartition)
      (spec : LdtmFilesystemSpec) : step Z :=
    match partition_for_label map (label spec) with
    | None =>
        call (Printf (String LF "=== " ++ key spec ++ ": " ++ newline "missing partition ===")) ;;;
        refuse spec "failed" "partition label was not found after repartitioning"
          "partition label missing"
    | Some partition =>
        call (Printf (String LF "=== " ++ key spec ++ ": " ++ newline (partition ++ " ==="))) ;;;
        let* mounted := call (PathIsMounted partition) in
        if mounted : bool then
          call (Printf ("Desktop automount detected on " ++ partition ++
            newline "; unmounting selected test disk descendants before formatting.")) ;;;
          let* unmounted := call (UnmountDescendants canonical) in
          let* free :=
            if unmounted : bool then
              let* still := call (PathIsMounted partition) in Ret (negb still)
            else Ret false in
          if negb free then
            refuse spec "format-failed" "partition was mounted or busy after partition-table settlement"
              "partition mounted or busy; no formatting attempted"
          else populate_slot spec partition work
        else populate_slot spec partition work
    end.

  (** The loop: the number of failures, [None] after [goto cleanup]. *)
Fixpoint prepare_slots (canonical work : string) (map : list LdtmPartition)
      (specs : list LdtmFilesystemSpec) (failures : Z) : step (option Z) :=
    match specs with
    | [] => Ret (Some failures)
    | spec :: specs =>
        let* result := prepare_slot canonical work map spec in
        if result <? 0 then Ret None
        else prepare_slots canonical work map specs (if 0 <? result then failures + 1 else failures)
    end.

Definition cleanup (opened : bool) (work : string) (result : Z) : step Z :=
    (if opened then call CloseState else Ret tt) ;;;
    call (RemoveTree work) ;;;
    Ret result.

  (** From the settled partition table on. *)
Definition build_slots (canonical confirmed_fingerprint : string) (map : list LdtmPartition) : step Z :=
    let* work := call (MakeWorkDirectory "/tmp/defragmenter-test-media.XXXXXX") in
    match work with
    | None => Ret 2
    | Some work =>
        let* state_path := state_path_for_device canonical in
        match state_path with
        | None => cleanup false work 1
        | Some state_path =>
            let* opened := call (CreateState state_path) in
            match opened with
            | Err e =>
                call (EprintfErrno "Unable to create protected Test Media state" e) ;;;
                cleanup false work 1
            | Ok _ =>
                let* written := call (AppendState (state_header canonical confirmed_fingerprint)) in
                if negb written then cleanup true work 1
                else
                  let* failures := prepare_slots canonical work map ldtm_specs 0 in
                  match failures with
                  | None => cleanup true work 1
                  | Some failures =>
                      call (Printf (String LF "Test disk preparation finished with " ++ itoa failures ++
                        " qualification failure" ++ plural failures "" "s" ++ ". State: " ++
                        newline state_path)) ;;;
                      cleanup true work (if failures =? 0 then 0 else 1)
                  end
            end
        end
    end.

Definition sfdisk_argv (canonical : string) : list string :=
    ["sfdisk"; "--wipe"; "always"; "--lock"; canonical].

  (** The guards; [Ok] with the canonical device. *)
Definition prepare_guards (device confirmed_device : string) (confirmed_fingerprint : option string) :
      step (option (string * string)) :=
    let refuse text : step (option (string * string)) := call (Eprintf (newline text)) ;;; Ret None in
    let* uid := call EffectiveUid in
    if negb (uid =? 0) then refuse "Test-media prepare worker must run as root."
    else
      let* (available, safety) := call RequiredModules in
      if negb available then refuse safety
      else
        let mismatch := refuse "Destructive confirmation does not match the selected device." in
        let* canonical := call (Canonicalize device) in
        match canonical with
        | None => mismatch
        | Some canonical =>
            let* confirmed := call (Canonicalize confirmed_device) in
            match confirmed with
            | None => mismatch
            | Some confirmed =>
                if negb (String.eqb canonical confirmed) then mismatch
                else
                  let changed := refuse "The selected physical disk changed after confirmation; refusing destructive preparation." in
                  match confirmed_fingerprint with
                  | None => changed
                  | Some fp =>
                      if negb (strlen fp =? 64) then changed
                      else
                        let* current := call (DeviceFingerprint canonical) in
                        if negb (bool_decide (current = Some fp)) then changed
                        else
                          let* (safe, safety) := call (SafetyCheck canonical) in
                          if negb safe then refuse safety
                          else
                            call (Printf (newline ("Safety check: " ++ safety))) ;;;
                            let* unmounted := call (UnmountDescendants canonical) in
                            if negb unmounted then refuse "Unable to unmount all descendants."
                            else
                              let* current := call (DeviceFingerprint canonical) in
                              match current with
                              | None => refuse "Unable to re-read the physical disk identity after unmount; refusing repartitioning."
                              | Some current =>
                                  if negb (String.eqb current fp) then
                                    refuse ("The physical disk identity changed before repartitioning (confirmed fingerprint " ++
                                      String.substring 0 16 fp ++ ", current " ++
                                      String.substring 0 16 current ++ "); refusing to continue.")%string
                                  else
                                    let* mounted := call (PathIsMounted canonical) in
                                    if mounted : bool then
                                      refuse "The selected disk or related storage is still mounted or active; refusing destructive repartitioning."
                                    else Ret (Some (canonical, fp))
                              end
                  end
            end
        end.

Definition ldtm_worker_prepare (device confirmed_device : string)
      (confirmed_fingerprint : option string) : step Z :=
    let* guards := prepare_guards device confirmed_device confirmed_fingerprint in
    match guards with
    | None => Ret 2
    | Some (canonical, fp) =>
        match ldtm_build_sfdisk_script false 8192 with
        | None => Ret 2
        | Some script =>
            let* partitioned := call (RunProcess (sfdisk_argv canonical) (Some script) false) in
            if negb (partitioned =? 0) then Ret 2
            else
              let* map := call (SettlePartitions canonical) in
              match map with
              | None =>
                  call (Eprintf (newline "New partition table did not settle into the complete labelled layout.")) ;;;
                  Ret 2
              | Some map => build_slots canonical fp map
              end
        end
    end.

  (** ** Verify *)

Definition load_verify_state (state_path device : string) : step (option (list LdtmVerifyFilesystem)) :=
    let* stream := call (ReadState state_path) in
    match stream with
    | None => Ret None
    | Some (text, ferror, closed) =>
        match parse_verify_state text ferror device with
        | None => Ret None
        | Some (state, saved) =>
            if negb closed then Ret None
            else
              let* current := call (DeviceFingerprint device) in
              Ret (if bool_decide (current = Some saved) then Some state else None)
        end
    end.

  (** One slot's independent checks: success, and the text of the outcome. *)
Definition verify_partition (spec : LdtmFilesystemSpec) (partition : string) : step (bool * string) :=
    match creator spec with
    | LDTM_CREATOR_APFS =>
        let* (verified, detail) := call (VerifyApfs partition true) in
        let* (accepted, detail) :=
          if verified : bool then require_fragmentation_state spec partition false 512
          else Ret (false, detail) in
        Ret (if accepted : bool
             then (true, "APFS payload is byte-identical and the production analyser reports zero fragmentation"%string)
             else (false, or_text detail "raw C APFS post-defrag verification failed"))
    | LDTM_CREATOR_AFFS | LDTM_CREATOR_PFS3 =>
        let* (verified, detail) :=
          call (VerifyAmiga partition (amiga_dostype spec) (ldtm_fragment_profile (Some spec)) true) in
        let* (accepted, detail) :=
          if verified : bool then require_fragmentation_state spec partition false 512
          else Ret (false, detail) in
        Ret (if accepted : bool
             then (true, "Amiga payload is byte-identical and the production analyser reports zero file/directory fragmentation"%string)
             else (false, or_text detail "raw C Amiga post-defrag verification failed"))
    | LDTM_CREATOR_SWAP =>
        let* (verified, detail) := call (RawFixture spec partition false) in
        let* (accepted, detail) :=
          if verified : bool then production_map_accepts spec partition 512 else Ret (false, detail) in
        Ret (if accepted : bool
             then (true, "swap header, reserved/bad-page geometry and inactive page map are accepted by the production analyser"%string)
             else (false, detail))
    | LDTM_CREATOR_UFS =>
        let* (accepted, detail) := require_fragmentation_state spec partition false 512 in
        let* (verified, detail) :=
          if accepted : bool then call (VerifyUfsPayload partition) else Ret (false, detail) in
        Ret (if verified : bool
             then (true, "UFS2 production analyser reports zero fragmentation and the independent raw verifier matched all retained payload bytes"%string)
             else (false, detail))
    | _ =>
        let* (accepted, detail) := require_fragmentation_state spec partition
          (bool_decide (creator spec = LDTM_CREATOR_ZFS)) 512 in
        let* (verified, detail) :=
          if accepted : bool then call (RawFixture spec partition false) else Ret (false, detail) in
        Ret (if verified : bool
             then (true, "every canonical file and boundary-sized payload byte matched the native corpus"%string)
             else (false, detail))
    end.

Definition verify_slot (map : list LdtmPartition) (spec : LdtmFilesystemSpec)
      (expected : LdtmVerifyFilesystem) : step bool :=
    if negb (populated expected) then
      emit_status (key spec) "verify-failed" (describe_unpopulated_filesystem expected 768) ;;; Ret false
    else
      call (Printf (String LF "=== verify " ++ key spec ++ newline " ===")) ;;;
      match partition_for_label map (label spec) with
      | None => emit_status (key spec) "verify-failed" "partition label is missing" ;;; Ret false
      | Some partition =>
          let* (verified, detail) := verify_partition spec partition in
          emit_status (key spec) (if verified : bool then "verified" else "verify-failed") detail ;;;
          Ret verified
      end.

  (** The loop of [verify] and [qualify] over the slots and their records. *)
Fixpoint each_slot (slot : LdtmFilesystemSpec -> LdtmVerifyFilesystem -> step bool)
      (slots : list (LdtmFilesystemSpec * LdtmVerifyFilesystem)) (failures : Z) : step Z :=
    match slots with
    | [] => Ret failures
    | (spec, expected) :: slots =>
        let* ok := slot spec expected in
        each_slot slot slots (if ok : bool then failures else failures + 1)
    end.

  (** The guards of [verify] and [qualify]: the canonical device and the
      records of its state file. *)
Definition bound_state (worker : string) (device : string) :
      step (option (string * list LdtmVerifyFilesystem)) :=
    let* uid := call EffectiveUid in
    if negb (uid =? 0) then
      call (Eprintf ("Test-media " ++ worker ++ newline " worker must run as root.")) ;;; Ret None
    else
      let* canonical := call (Canonicalize device) in
      match canonical with
      | None => call EprintfUninitialised ;;; Ret None
      | Some canonical =>
          let* (safe, safety) := call (SafetyCheck canonical) in
          if negb safe then call (Eprintf (newline safety)) ;;; Ret None
          else
            let* path := state_path_for_device canonical in
            let* state :=
              match path with
              | None => Ret None
              | Some path => load_verify_state path canonical
              end in
            match state with
            | None =>
                call (Eprintf ("No matching protected test-media state found for " ++ canonical ++
                  newline ".")) ;;; Ret None
            | Some state => Ret (Some (canonical, state))
            end
      end.

Definition ldtm_worker_verify (device : string) : step Z :=
    let* bound := bound_state "verify" device in
    match bound with
    | None => Ret 2
    | Some (canonical, expected) =>
        let* unmounted := call (UnmountDescendants canonical) in
        if negb unmounted then Ret 2
        else
          let* map := call (LoadPartitionMap canonical) in
          match map with
          | None => Ret 2
          | Some map =>
              let* failures := each_slot (verify_slot map) (combine ldtm_specs expected) 0 in
              if negb (failures =? 0) then
                call (Eprintf ("Test-media verification failed closed: " ++ itoa failures ++
                  " filesystem qualification failure" ++ plural failures "" "s" ++ newline ".")) ;;;
                Ret 1
              else Ret 0
          end
    end.

  (** ** Qualify *)

Definition defrag_argv (engine : string) (spec : LdtmFilesystemSpec) (partition operation journal : string) :
      list string :=
    [engine; operation; partition; "--filesystem"; key spec; "--write"; "--confirm"; partition;
     "--journal"; journal] ++
    (if String.eqb operation "growth-defrag" then ["--growth-percent"; "10"] else []).

Definition run_production_defrag (engine : string) (spec : LdtmFilesystemSpec)
      (partition operation journal : string) : step Z :=
    call (RunProcess (defrag_argv engine spec partition operation journal) None false).

  (** An operation that must end with a fragmentation-free analysis. *)
Definition defrag_and_check (engine : string) (spec : LdtmFilesystemSpec)
      (partition operation journal : string) : step (bool * string) :=
    let* code := run_production_defrag engine spec partition operation journal in
    if negb (code =? 0) then Ret (false, EmptyString)
    else require_fragmentation_state spec partition false 512.

Definition qualify_refuse (spec : LdtmFilesystemSpec) (detail : string) : step bool :=
    emit_status (key spec) "qualification-failed" detail ;;; Ret false.

Definition qualify_partition (engine : string) (spec : LdtmFilesystemSpec) (partition journal : string) :
      step bool :=
    let* interrupted := call (Exists journal) in
    let* recovered :=
      if interrupted : bool then
        call (Printf (newline "+ recovering interrupted production transaction")) ;;;
        let* code := run_production_defrag engine spec partition "recover" journal in
        Ret (code =? 0)
      else Ret true in
    if negb recovered then
      qualify_refuse spec "production Recover could not complete the previous test transaction"
    else
      call (Printf (newline "+ production Defragment")) ;;;
      let* (packed, detail) := defrag_and_check engine spec partition "defrag" journal in
      if negb packed then qualify_refuse spec (or_text detail "production Defragment failed")
      else
        call (Printf (newline "+ production Growth Defrag (10% reserve)")) ;;;
        let* (grown, detail) := defrag_and_check engine spec partition "growth-defrag" journal in
        if negb grown then qualify_refuse spec (or_text detail "production Growth Defrag failed")
        else
          emit_status (key spec) "qualified" "production Defragment and Growth Defrag completed; exact analyser reports zero fragmentation" ;;;
          Ret true.

Definition journal_path (fingerprint : string) (spec : LdtmFilesystemSpec) : string :=
    truncated (LDTM_STATE_ROOT ++ "/qualification-" ++ String.substring 0 16 fingerprint ++ "-" ++
      key spec ++ ".journal")%string PATH_MAX.

Definition qualify_slot (engine fingerprint : string) (map : list LdtmPartition)
      (spec : LdtmFilesystemSpec) (expected : LdtmVerifyFilesystem) : step bool :=
    if negb (populated expected) then
      qualify_refuse spec (describe_unpopulated_filesystem expected 512)
    else
      match partition_for_label map (label spec) with
      | None => qualify_refuse spec "partition label is missing"
      | Some partition =>
          if decide (creator spec = LDTM_CREATOR_ZFS) then
            qualify_refuse spec "ZFS.so has no qualified Defragment and Growth Defrag writer"
          else if decide (creator spec = LDTM_CREATOR_SWAP) then
            qualify_refuse spec "swap has no file defragmentation or Growth Defrag operation"
          else
            call (Printf (String LF "=== qualify " ++ key spec ++ " on " ++ partition ++
              newline " ===")) ;;;
            qualify_partition engine spec partition (journal_path fingerprint spec)
      end.

Definition ldtm_worker_qualify (device : string) : step Z :=
    let* bound := bound_state "qualification" device in
    match bound with
    | None => Ret 2
    | Some (canonical, expected) =>
        let* fingerprint := call (DeviceFingerprint canonical) in
        match fingerprint with
        | None =>
            call (Eprintf (newline "Unable to rebind the protected test disk identity.")) ;;; Ret 2
        | Some fingerprint =>
            let* engine := call (ResolveProgram "/System/Commands/Defragmenter/defragmenter-operation-engine") in
            match engine with
            | None =>
                call (Eprintf (newline "The installed production Defragmenter operation engine is unavailable.")) ;;;
                Ret 2
            | Some engine =>
                let unavailable :=
                  call (Eprintf (newline "Unable to obtain an unmounted qualified partition map.")) ;;; Ret 2 in
                let* unmounted := call (UnmountDescendants canonical) in
                if negb unmounted then unavailable
                else
                  let* map := call (LoadPartitionMap canonical) in
                  match map with
                  | None => unavailable
                  | Some map =>
                      let* failures := each_slot (qualify_slot engine fingerprint map)
                        (combine ldtm_specs expected) 0 in
                      if negb (failures =? 0) then
                        call (Eprintf ("Production mutation qualification failed closed for " ++
                          itoa failures ++ " filesystem" ++ plural failures "" "s" ++
                          newline "; payload verification was not used to hide those failures.")) ;;;
                        Ret 1
                      else
                        call (Printf (newline (String LF "All writable production engines completed. Verifying retained payload bytes independently..."))) ;;;
                        ldtm_worker_verify canonical
                  end
            end
        end
    end.
End Worker.

(** ** What the steps do to the disk *)

(** The partition a step writes to; [sfdisk], which writes the disk, apart. *)
Definition target {X} (e : stepE X) : option string :=
  match e with
  | RunProcess ["wipefs"; "--all"; "--force"; partition] _ _ => Some partition
  | RawFixture _ partition true => Some partition
  | FormatAmiga partition _ _ => Some partition
  | PopulateAmiga partition _ _ => Some partition
  | FormatApfs partition => Some partition
  | CopyImage _ partition => Some partition
  | _ => None
  end.

Definition repartitions {X} (e : stepE X) : bool :=
  match e with RunProcess (program :: _) _ _ => String.eqb program "sfdisk" | _ => false end.

(** A step that writes nothing but to [partition]. *)
Definition writes_only (partition : string) (X : Type) (e : stepE X) : Prop :=
  repartitions e = false /\ (target e = None \/ target e = Some partition).

Definition harmless (X : Type) (e : stepE X) : Prop := repartitions e = false /\ target e = None.

(** Every call is checked by evaluation; loops come from the hints. *)
Ltac step_ok := unfold harmless, writes_only; simpl; intuition congruence.
Ltac quiet_step :=
  match goal with
  | |- calls_in _ (Ret _) => exact I
  | |- calls_in _ (call _) => split; [step_ok|intros; exact I]
  | |- calls_in _ (pbind _ _) => apply calls_bind; [|intros ?]
  | |- calls_in _ (let '_ := ?x in _) => destruct x
  | |- calls_in _ (match ?x with _ => _ end) => destruct x
  | |- calls_in _ (if ?x then _ else _) => destruct x
  | |- _ => solve [auto with quiet nocore]
  end.
Ltac quiet := repeat (cbv zeta; quiet_step).
Create HintDb quiet.

Section Writes.
  Context {common : Infiltratr}.

Lemma refuse_writes p spec a b c : calls_in (writes_only p) (refuse spec a b c).
Proof. unfold refuse, emit_status, state_write_status. quiet. Qed.

Lemma populated_writes p spec m : calls_in (writes_only p) (populated_slot spec m).
Proof. unfold populated_slot, emit_status, state_write_status. quiet. Qed.

Lemma refuse_raw_writes p spec d : calls_in (writes_only p) (refuse_raw spec d).
Proof. unfold refuse_raw, emit_status, state_write_status. quiet. Qed.

Lemma fragmentation_writes p spec q b n : calls_in (writes_only p) (require_fragmentation_state spec q b n).
Proof.
  unfold require_fragmentation_state, production_fragment_counts, production_map_output,
    production_mapper_program. quiet.
Qed.

Lemma accepts_writes p spec q n : calls_in (writes_only p) (production_map_accepts spec q n).
Proof. unfold production_map_accepts, production_map_output, production_mapper_program. quiet. Qed.
#[local] Hint Resolve refuse_writes populated_writes refuse_raw_writes fragmentation_writes accepts_writes : quiet.

Lemma format_writes p dostype label n attempt result :
  calls_in (writes_only p) (format_attempts n attempt p dostype label result).
Proof. revert attempt result. induction n as [|n IH]; intros attempt result; cbn [format_attempts]; quiet. Qed.
#[local] Hint Resolve format_writes : quiet.

Lemma install_writes p spec image : calls_in (writes_only p) (install_ufs_image spec image p).
Proof. unfold install_ufs_image, ufs2_summary_ok. quiet. Qed.
#[local] Hint Resolve install_writes : quiet.

(** The builder of a slot writes to the slot's partition only. *)
Lemma populate_writes spec partition work : calls_in (writes_only partition) (populate_slot spec partition work).
Proof.
  unfold populate_slot, create_amiga_and_populate, create_apfs_and_populate, create_ufs_and_populate,
    create_raw_and_populate, wipefs, ufs2_summary_ok, emit_status, state_write_status.
  destruct (creator spec); quiet.
Qed.
End Writes.

(** ** Prepare *)

(** The answers a preparation needs before it touches the disk. *)
Definition guard_events (device confirmed canonical fp required safety : string) : list (event stepE) :=
  [Event EffectiveUid 0; Event RequiredModules (true, required);
   Event (Canonicalize device) (Some canonical); Event (Canonicalize confirmed) (Some canonical);
   Event (DeviceFingerprint canonical) (Some fp); Event (SafetyCheck canonical) (true, safety);
   Event (Printf (newline ("Safety check: " ++ safety))) tt;
   Event (UnmountDescendants canonical) true; Event (DeviceFingerprint canonical) (Some fp);
   Event (PathIsMounted canonical) false].

Ltac next_event H x := apply runs_inv in H as (x & ? & -> & H); cbn [pbind] in H.
Ltac refused H := apply runs_inv in H as (? & ? & -> & H); by apply runs_inv in H as [_ ?].

Lemma prepare_guards_runs device confirmed cfp t canonical fp :
  runs (prepare_guards device confirmed cfp) t (Returned (Some (canonical, fp))) ->
  cfp = Some fp /\ strlen fp = 64 /\
  exists required safety, t = guard_events device confirmed canonical fp required safety.
Proof.
  unfold prepare_guards. cbv zeta. intros H. next_event H uid.
  destruct (Z.eqb_spec uid 0) as [->|]; [|refused H]. cbn [negb] in H.
  next_event H required. destruct required as [[|] required]; [|refused H]. cbn [negb] in H.
  next_event H c. destruct c as [c|]; [|refused H].
  next_event H d. destruct d as [d|]; [|refused H].
  destruct (String.eqb_spec c d) as [->|]; [|refused H]. cbn [negb] in H.
  destruct cfp as [f|]; [|refused H]. destruct (Z.eqb_spec (strlen f) 64) as [Hf|]; [|refused H].
  cbn [negb] in H. next_event H current. case_bool_decide as E; [subst current|refused H]. cbn [negb] in H.
  next_event H safe. destruct safe as [[|] safety]; [|refused H]. cbn [negb] in H.
  next_event H u. destruct u. next_event H unmounted. destruct unmounted; [|refused H]. cbn [negb] in H.
  next_event H current. destruct current as [current|]; [|refused H].
  destruct (String.eqb_spec current f) as [->|]; [|refused H]. cbn [negb] in H.
  next_event H mounted. destruct mounted; [refused H|]. apply runs_inv in H as [-> [= -> ->]].
  split; [done|]. split; [done|]. by exists required, safety.
Qed.

(** What the part after the partition table is allowed to do. *)
Definition allowed (map : list LdtmPartition) (t : list (event stepE)) (X : Type) (e : stepE X) : Prop :=
  repartitions e = false /\
  forall partition, target e = Some partition ->
  (exists spec, In spec ldtm_specs /\ partition_for_label map (label spec) = Some partition) /\
  In (Event (PathIsMounted partition) false) t.

Lemma harmless_allowed map t X (e : stepE X) : harmless X e -> allowed map t X e.
Proof. intros [H1 H2]. split; [done|]. intros p Hp. congruence. Qed.

Section Prepare.
  Context {common : Infiltratr}.

Lemma guards_harmless device confirmed cfp : calls_in harmless (prepare_guards device confirmed cfp).
Proof. unfold prepare_guards. quiet. Qed.

Lemma quiet_wp map (p : step Z) t : calls_in harmless p -> wp (allowed map) (fun _ _ => True) p t.
Proof. intros H. eapply wp_calls; [exact H|]. intros. by apply harmless_allowed. Qed.

Lemma populate_wp map spec partition work t :
  In spec ldtm_specs -> partition_for_label map (label spec) = Some partition ->
  In (Event (PathIsMounted partition) false) t ->
  wp (allowed map) (fun _ _ => True) (populate_slot spec partition work) t.
Proof.
  intros Hs Hp Ht. eapply wp_calls; [apply populate_writes|]. intros t' X e [H1 H2]. split; [done|].
  intros q Hq. assert (q = partition) as -> by (destruct H2; congruence). split; [by exists spec|].
  apply in_or_app. by left.
Qed.

Ltac quiet_call := split; [apply harmless_allowed; step_ok|].

Lemma prepare_slot_wp canonical work map spec t :
  In spec ldtm_specs -> wp (allowed map) (fun _ _ => True) (prepare_slot canonical work map spec) t.
Proof.
  intros Hs. unfold prepare_slot. destruct (partition_for_label map (label spec)) as [partition|] eqn:Hp.
  2:{ apply quiet_wp. unfold refuse, emit_status, state_write_status. quiet. }
  quiet_call. intros []. cbn [pbind]. quiet_call. intros mounted. cbn [pbind]. destruct mounted.
  2:{ apply (populate_wp map spec); [done..|]. apply in_or_app. right. by left. }
  quiet_call. intros []. cbn [pbind]. quiet_call. intros unmounted. cbn [pbind].
  assert (Hbusy : forall t, wp (allowed map) (fun _ _ => True)
    (refuse spec "format-failed" "partition was mounted or busy after partition-table settlement"
       "partition mounted or busy; no formatting attempted") t).
  { intros t'. apply quiet_wp. unfold refuse, emit_status, state_write_status. quiet. }
  destruct unmounted; [|apply Hbusy].
  quiet_call. intros still. cbn [pbind]. destruct still; cbn [negb]; [apply Hbusy|].
  apply (populate_wp map spec); [done..|]. apply in_or_app. right. by left.
Qed.

Lemma prepare_slots_wp canonical work map specs failures t :
  (forall spec, In spec specs -> In spec ldtm_specs) ->
  wp (allowed map) (fun _ _ => True) (prepare_slots canonical work map specs failures) t.
Proof.
  revert failures t. induction specs as [|spec specs IH]; intros failures t Hs; [done|].
  cbn [prepare_slots]. apply wp_bind. eapply wp_mono; [apply prepare_slot_wp, Hs; by left|done|].
  intros [r|m] t' _; [|done]. destruct (r <? 0); [done|]. apply IH. intros. apply Hs. by right.
Qed.

Lemma build_slots_wp canonical fp map t :
  wp (allowed map) (fun _ _ => True) (build_slots canonical fp map) t.
Proof.
  assert (Hclean : forall opened work r t, wp (allowed map) (fun _ _ => True) (cleanup opened work r) t).
  { intros opened work r t'. apply quiet_wp. unfold cleanup. destruct opened; quiet. }
  unfold build_slots. quiet_call. intros work. cbn [pbind]. destruct work as [work|]; [|done].
  quiet_call. intros f. cbn [pbind]. destruct (match f with None => None | Some _ => _ end) as [path|]; [|apply Hclean].
  quiet_call. intros opened. cbn [pbind]. destruct opened as [u|er].
  2:{ quiet_call. intros ?. apply Hclean. }
  quiet_call. intros written. cbn [pbind]. destruct written; cbn [negb]; [|apply Hclean].
  apply wp_bind. eapply wp_mono; [by apply prepare_slots_wp|done|].
  intros [r|m] t' _; [|done]. destruct r as [failures|]; [|apply Hclean].
  quiet_call. intros ?. apply Hclean.
Qed.
End Prepare.

(** ** The state file of a preparation *)

Definition appended_event (ev : event stepE) : string :=
  match ev with
  | Event e x =>
      match e in stepE X return X -> string with
      | AppendState text => fun written => if written then text else EmptyString
      | _ => fun _ => EmptyString
      end x
  end.

(** What the trace has written to the state file. *)
Definition appended (t : list (event stepE)) : string := String.concat EmptyString (map appended_event t).

Lemma concat_app_text l l' :
  String.concat EmptyString (l ++ l') = (String.concat EmptyString l ++ String.concat EmptyString l')%string.
Proof.
  induction l as [|s l IH]; [done|]. rewrite <- app_comm_cons, !concat_cons, IH. by rewrite append_assoc.
Qed.

Lemma appended_app t t' : appended (t ++ t') = (appended t ++ appended t')%string.
Proof. unfold appended. by rewrite map_app, concat_app_text. Qed.

Lemma appended_one ev : appended [ev] = appended_event ev.
Proof. done. Qed.

Definition silent (X : Type) (e : stepE X) : Prop := match e with AppendState _ => False | _ => True end.

Lemma silent_appended t X (e : stepE X) x : silent X e -> appended (t ++ [Event e x]) = appended t.
Proof. intros H. rewrite appended_app, appended_one. destruct e; simpl in *; by rewrite ?append_nil_r. Qed.

(** A slot that answers 0 has appended one populated record and nothing else. *)
Definition slot_messages (spec : LdtmFilesystemSpec) : list string :=
  [amiga_message; ufs_message; apfs_message; raw_message spec].

Definition slot_end (spec : LdtmFilesystemSpec) (before : string) (o : outcome Z) (t : list (event stepE)) : Prop :=
  match o with
  | Returned r => r = 0 -> exists message, In message (slot_messages spec) /\
      appended t = (before ++ newline (status_line spec "populated" message))%string
  | Died _ => True
  end.

Abbreviation any_call := (fun (_ : list (event stepE)) (X : Type) (_ : stepE X) => True).

Lemma slot_silent {A} spec before (p : step A) (f : A -> step Z) t :
  calls_in silent p -> appended t = before ->
  (forall a t', appended t' = before -> wp any_call (slot_end spec before) (f a) t') ->
  wp any_call (slot_end spec before) (pbind p f) t.
Proof.
  intros Hp Ht Hf. apply wp_bind. eapply wp_mono; [|done|].
  - apply (wp_measure silent appended p t before); [apply silent_appended|done|done].
  - intros [a|m] t'; simpl; auto.
Qed.

Lemma slot_call {X} spec before (e : stepE X) (f : X -> step Z) t :
  silent X e -> appended t = before ->
  (forall a t', appended t' = before -> wp any_call (slot_end spec before) (f a) t') ->
  wp any_call (slot_end spec before) (pbind (call e) f) t.
Proof. intros He. apply slot_silent. by split. Qed.

(** An end other than 0. *)
Lemma slot_refused spec before (p : step Z) t :
  returns (fun r => r <> 0) p -> wp any_call (slot_end spec before) p t.
Proof.
  intros H. eapply wp_mono; [by apply wp_returns|done|]. intros [r|m] t' Hr; simpl in *; [|done]. by intros ->.
Qed.

Section State.
  Context {common : Infiltratr}.

Lemma refuse_ends spec a b c : returns (fun r => r <> 0) (refuse spec a b c).
Proof. unfold refuse, emit_status, state_write_status. simpl. intros _ ?. done. Qed.

Lemma refuse_raw_ends spec d : returns (fun r => r <> 0) (refuse_raw spec d).
Proof. unfold refuse_raw, emit_status, state_write_status. simpl. intros _ []; done. Qed.

Lemma slot_refuse spec before a b c t : wp any_call (slot_end spec before) (refuse spec a b c) t.
Proof. apply slot_refused, refuse_ends. Qed.

Lemma slot_refuse_raw spec before d t : wp any_call (slot_end spec before) (refuse_raw spec d) t.
Proof. apply slot_refused, refuse_raw_ends. Qed.

Lemma slot_populated spec before m t :
  In m (slot_messages spec) -> appended t = before -> wp any_call (slot_end spec before) (populated_slot spec m) t.
Proof.
  intros Hm Ht. unfold populated_slot, state_write_status, emit_status. split; [done|]. intros written.
  cbn [pbind]. destruct written; cbn [negb]; [|by intros ?]. split; [done|]. intros [] _.
  exists m. split; [done|]. rewrite !appended_app, Ht. simpl. unfold appended. simpl. by rewrite append_nil_r.
Qed.

Lemma silent_fragmentation spec q b n : calls_in silent (require_fragmentation_state spec q b n).
Proof.
  unfold require_fragmentation_state, production_fragment_counts, production_map_output,
    production_mapper_program. calls.
Qed.

Lemma silent_accepts spec q n : calls_in silent (production_map_accepts spec q n).
Proof. unfold production_map_accepts, production_map_output, production_mapper_program. calls. Qed.
#[local] Hint Resolve silent_fragmentation silent_accepts : calls.

Lemma silent_format p dostype label n attempt result :
  calls_in silent (format_attempts n attempt p dostype label result).
Proof. revert attempt result. induction n as [|n IH]; intros attempt result; cbn [format_attempts]; calls. Qed.
#[local] Hint Resolve silent_format : calls.

(** One step of a builder. *)
Ltac slot_step :=
  match goal with
  | |- wp _ _ (refuse _ _ _ _) _ => apply slot_refuse
  | |- wp _ _ (refuse_raw _ _) _ => apply slot_refuse_raw
  | |- wp _ _ (populated_slot _ _) _ => apply slot_populated; [simpl; tauto|assumption]
  | |- wp _ _ (pbind (call _) _) _ => apply slot_call; [exact I|assumption|intros ? ? ?]
  | |- wp _ _ (pbind _ _) _ => apply slot_silent; [solve [calls]|assumption|intros ? ? ?]
  | |- wp _ _ (let '_ := ?x in _) _ => destruct x
  | |- wp _ _ (if ?x then _ else _) _ => destruct x
  end.
Ltac slot := repeat (cbv zeta; slot_step).

Lemma raw_end spec before partition t :
  appended t = before -> wp any_call (slot_end spec before) (create_raw_and_populate spec partition) t.
Proof.
  intros Ht. unfold create_raw_and_populate, emit_status, state_write_status. slot.
  split; [done|]. intros written. cbn [pbind]. destruct written; [|by intros ?]. intros _.
  exists (raw_message spec). split; [simpl; tauto|]. rewrite appended_app. by f_equal.
Qed.

Lemma install_end spec before image partition t :
  appended t = before -> wp any_call (slot_end spec before) (install_ufs_image spec image partition) t.
Proof. intros Ht. unfold install_ufs_image, ufs2_summary_ok. slot. Qed.

Lemma populate_end spec before partition work t :
  appended t = before -> wp any_call (slot_end spec before) (populate_slot spec partition work) t.
Proof.
  intros Ht. unfold populate_slot.
  assert (Hraw : wp any_call (slot_end spec before) (create_raw_and_populate spec partition) t) by (by apply raw_end).
  destruct (creator spec); try exact Hraw; try apply slot_refuse.
  all: unfold create_amiga_and_populate, create_apfs_and_populate, create_ufs_and_populate, wipefs, ufs2_summary_ok.
  all: slot; by apply install_end.
Qed.

Lemma prepare_slot_end canonical work map spec before t :
  appended t = before -> wp any_call (slot_end spec before) (prepare_slot canonical work map spec) t.
Proof.
  intros Ht. unfold prepare_slot. destruct (partition_for_label map (label spec)) as [partition|]; slot;
    by apply populate_end.
Qed.

(** All slots: no failure means one populated record for each, in order. *)
Definition slots_end (specs : list LdtmFilesystemSpec) (failures : Z) (before : string) (o : outcome (option Z))
    (t : list (event stepE)) : Prop :=
  match o with
  | Returned (Some n) => failures <= n /\ (n = failures -> exists messages,
      Forall2 (fun spec m => In m (slot_messages spec)) specs messages /\
      appended t = (before ++ String.concat EmptyString
        (map newline (zip_with (fun spec m => status_line spec "populated" m) specs messages)))%string)
  | _ => True
  end.

Lemma prepare_slots_end canonical work map specs failures before t :
  appended t = before ->
  wp any_call (slots_end specs failures before) (prepare_slots canonical work map specs failures) t.
Proof.
  revert failures before t. induction specs as [|spec specs IH]; intros failures before t Ht.
  { simpl. split; [lia|]. intros _. exists []. split; [constructor|]. by rewrite append_nil_r. }
  cbn [prepare_slots]. apply wp_bind. eapply wp_mono; [by apply (prepare_slot_end _ _ _ _ before)|done|].
  intros [r|m] t' Hr; [|done]. destruct (Z.ltb_spec r 0); [done|].
  destruct (Z.ltb_spec 0 r).
  - eapply wp_mono; [by apply (IH _ (appended t'))|done|].
    intros [[n|]|m] t2; simpl; [|done..]. intros [Hn _]. split; [lia|]. intros ->. lia.
  - destruct (Hr ltac:(lia)) as (m & Hm & Ha).
    eapply wp_mono; [by apply (IH _ (appended t'))|done|].
    intros [[n|]|w] t2; simpl; [|done..]. intros [Hn Hz]. split; [done|]. intros E.
    destruct (Hz E) as (ms & Hms & ->). exists (m :: ms). split; [by constructor|].
    cbn [zip_with List.map]. rewrite concat_cons, Ha. by rewrite append_assoc.
Qed.

End State.

Lemma silent_runs {A} (p : step A) t o : calls_in silent p -> runs p t o -> appended t = EmptyString.
Proof.
  intros Hp Hr. pose proof (calls_runs _ _ _ _ Hp Hr) as H. clear Hr.
  induction H as [|[X e x] t He _ IH]; [done|]. change (Event e x :: t) with ([Event e x] ++ t).
  rewrite appended_app, appended_one, IH, append_nil_r. by destruct e.
Qed.

Section StateFile.
  Context {common : Infiltratr}.

Lemma cleanup_silent opened work r : calls_in silent (cleanup opened work r).
Proof. unfold cleanup. destruct opened; calls. Qed.

Lemma cleanup_returns opened work r t n : runs (cleanup opened work r) t (Returned n) -> n = r /\ appended t = EmptyString.
Proof.
  intros H. split; [|by eapply silent_runs; [apply cleanup_silent|]].
  unfold cleanup in H. destruct opened; cbn [pbind call] in H.
  - do 2 (apply runs_inv in H as (? & ? & -> & H); cbn [pbind] in H). by apply runs_inv in H as [_ [= ->]].
  - apply runs_inv in H as (? & ? & -> & H). cbn [pbind] in H. by apply runs_inv in H as [_ [= ->]].
Qed.

Lemma appended_cons {X} (e : stepE X) x t :
  appended (Event e x :: t) = (appended_event (Event e x) ++ appended t)%string.
Proof. change (Event e x :: t) with ([Event e x] ++ t). by rewrite appended_app, appended_one. Qed.

Lemma build_slots_state canonical fp map t :
  runs (build_slots canonical fp map) t (Returned 0) ->
  exists messages, Forall2 (fun spec m => In m (slot_messages spec)) ldtm_specs messages /\
    appended t = state_text canonical fp (List.map (pair "populated"%string) messages).
Proof.
  unfold build_slots. intros H. next_event H work. destruct work as [work|]; [|by apply runs_inv in H as [_ ?]].
  next_event H f. destruct (match f with None => None | Some _ => _ end) as [path|];
    [|by apply cleanup_returns in H as [? _]].
  next_event H opened. destruct opened as [u|er].
  2:{ next_event H v. by apply cleanup_returns in H as [? _]. }
  next_event H written. destruct written; cbn [negb] in H; [|by apply cleanup_returns in H as [? _]].
  apply pbind_runs in H as [(m & _ & ?)|(r & t1 & t2 & -> & H1 & H)]; [done|].
  destruct r as [failures|]; [|by apply cleanup_returns in H as [? _]].
  next_event H v. apply cleanup_returns in H as [Hr Ha].
  assert (failures = 0) as -> by (by destruct (Z.eqb_spec failures 0)).
  pose proof (prepare_slots_end canonical work map ldtm_specs 0 "" [] eq_refl) as Hw.
  apply (wp_runs _ _ _ _ _ _ Hw) in H1 as [[_ Hz] _]. destruct (Hz eq_refl) as (ms & Hms & Hap).
  exists ms. split; [done|]. rewrite !appended_cons, appended_app, appended_cons, Ha.
  cbn [app append] in Hap. cbn [appended_event append].
  rewrite Hap, append_nil_r. unfold state_text, written_records. do 3 f_equal.
  clear. revert ms. induction ldtm_specs as [|spec specs IH]; [by intros []|].
  intros [|m ms]; [done|]. simpl. by rewrite IH.
Qed.

Lemma guards_silent device confirmed cfp : calls_in silent (prepare_guards device confirmed cfp).
Proof. unfold prepare_guards. calls. Qed.
End StateFile.

(** *** What a prepared disk leaves for the other workers *)

Lemma slot_message_clean spec m : In m (slot_messages spec) -> has_char NUL m = false.
Proof.
  unfold slot_messages, raw_message. intros [<-|[<-|[<-|[<-|[]]]]]; [done..|].
  by destruct (decide _).
Qed.

Lemma slot_records_valid messages :
  Forall2 (fun spec m => In m (slot_messages spec)) ldtm_specs messages ->
  length (List.map (pair "populated"%string) messages) = LDTM_SPEC_COUNT /\
  Forall (fun r => In (fst r) build_statuses /\ has_char NUL (snd r) = false)
    (List.map (pair "populated"%string) messages).
Proof.
  intros H. split; [rewrite length_map; symmetry; exact (Forall2_length H)|].
  apply Forall_map. induction H as [|spec m specs ms Hm _ IH]; constructor; [|done].
  split; [by left|]. by eapply slot_message_clean.
Qed.

Lemma map_built_populated messages :
  Forall (fun v => populated v = true) (List.map built (List.map (pair "populated"%string) messages)).
Proof. induction messages as [|m ms IH]; by constructor. Qed.

(** *** Slots that never qualify *)

Lemma each_slot_failures slot slots n : returns (fun m => n <= m) (each_slot slot slots n).
Proof.
  revert n. induction slots as [|[s v] slots IH]; intros n; [simpl; lia|].
  cbn [each_slot]. apply returns_bind_any. intros ok.
  eapply returns_impl; [|apply IH]. destruct ok; simpl; lia.
Qed.

(** A slot that always answers no makes the count positive. *)
Lemma each_slot_refused slot slots n s v :
  In (s, v) slots -> returns (fun ok => ok = false) (slot s v) ->
  returns (fun m => n < m) (each_slot slot slots n).
Proof.
  revert n. induction slots as [|[s' v'] slots IH]; intros n Hin Hs; [done|].
  cbn [each_slot]. destruct Hin as [[= -> ->]|Hin].
  - eapply returns_bind; [exact Hs|]. intros ok ->.
    eapply returns_impl; [|apply each_slot_failures]. simpl. lia.
  - apply returns_bind_any. intros ok. eapply returns_impl; [|by apply IH]. destruct ok; simpl; lia.
Qed.

Section Qualify.
  Context {common : Infiltratr}.

Lemma qualify_refuse_returns spec d : returns (fun ok => ok = false) (qualify_refuse spec d).
Proof. done. Qed.

Lemma zfs_slot_refused engine fp map spec v :
  creator spec = LDTM_CREATOR_ZFS -> returns (fun ok => ok = false) (qualify_slot engine fp map spec v).
Proof.
  intros Hz. unfold qualify_slot. destruct (negb _); [done|].
  destruct (partition_for_label map (label spec)); [|done]. by rewrite decide_True.
Qed.

Lemma bound_state_length worker device :
  returns (fun b => match b with Some (_, st) => length st = LDTM_SPEC_COUNT | None => True end)
    (bound_state worker device).
Proof.
  unfold bound_state. apply returns_bind_any. intros uid. destruct (negb _); [done|].
  apply returns_bind_any. intros [canonical|]; [|done].
  apply returns_bind_any. intros [safe safety]. destruct (negb _); [done|].
  apply returns_bind_any. intros path.
  apply (returns_bind _ (fun st => match st with Some st => length st = LDTM_SPEC_COUNT | None => True end)).
  - destruct path as [path|]; [|done]. unfold load_verify_state. apply returns_bind_any.
    intros [[[text ferror] closed]|]; [|done]. destruct (parse_verify_state _ _ _) as [[st saved]|] eqn:Hp; [|done].
    destruct (negb closed); [done|]. apply returns_bind_any. intros current. cbn [returns].
    case_bool_decide; [|done]. by eapply parsed_length.
  - intros [st|]; [done|]. intros _. by returns_step.
Qed.

(** The slot of ZFS is in the catalogue, so it has a record. *)
Lemma zfs_has_record (st : list LdtmVerifyFilesystem) :
  length st = LDTM_SPEC_COUNT ->
  exists spec v, In (spec, v) (combine ldtm_specs st) /\ creator spec = LDTM_CREATOR_ZFS.
Proof.
  intros Hl. assert (exists i spec, nth_error ldtm_specs i = Some spec /\ creator spec = LDTM_CREATOR_ZFS)
    as (i & spec & Hi & Hz).
  { destruct (List.find (fun s => bool_decide (creator s = LDTM_CREATOR_ZFS)) ldtm_specs) as [s|] eqn:E;
      [|by vm_compute in E].
    apply List.find_some in E as [Hin Hs]. apply In_nth_error in Hin as [i Hi]. exists i, s.
    split; [done|]. by apply bool_decide_eq_true in Hs. }
  destruct (nth_error st i) as [v|] eqn:Hv.
  - exists spec, v. split; [|done]. apply (nth_error_In _ i).
    clear Hl. revert st i Hi Hv. induction ldtm_specs as [|s specs IH]; intros [|w st] [|i]; simpl; try done.
    + by intros [= ->] [= ->].
    + intros. by apply IH.
  - apply nth_error_None in Hv. rewrite Hl in Hv.
    assert (i < length ldtm_specs)%nat by (apply nth_error_Some; by rewrite Hi).
    change (length ldtm_specs) with LDTM_SPEC_COUNT in *. lia.
Qed.

Lemma qualify_returns device : returns (fun r => r = 1 \/ r = 2) (ldtm_worker_qualify device).
Proof.
  unfold ldtm_worker_qualify. eapply returns_bind; [apply bound_state_length|].
  intros [[canonical st]|]; [|by right]. intros Hl.
  destruct (zfs_has_record st Hl) as (spec & v & Hin & Hz).
  apply returns_bind_any. intros [fp|]; [|intros ?; by right].
  apply returns_bind_any. intros [engine|]; [|intros ?; by right].
  cbv zeta. apply returns_bind_any. intros unmounted. destruct (negb unmounted); [intros ?; by right|].
  apply returns_bind_any. intros [map|]; [|intros ?; by right].
  eapply returns_bind; [eapply (each_slot_refused _ _ 0); [exact Hin|by apply zfs_slot_refused]|].
  intros n Hn. cbv beta in Hn. destruct (Z.eqb_spec n 0) as [->|_]; [lia|]. intros ?. by left.
Qed.
End Qualify.

(** ** A disk that prepares *)

(** Every step answers as on a machine where all goes well. *)
Definition demo_device : string := "/dev/mmcblk0".
Definition demo_map : list LdtmPartition :=
  map (fun spec => mkPartition (demo_device ++ "p-" ++ key spec)%string (label spec)) ldtm_specs.

Definition demo_step (X : Type) (e : stepE X) (s : unit) : X * unit :=
  (match e in stepE X return X with
   | EffectiveUid | RunProcess _ _ _ | FormatAmiga _ _ _ => 0
   | RequiredModules | SafetyCheck _ | RawFixture _ _ _ | VerifyAmiga _ _ _ _ | VerifyApfs _ _
   | VerifyUfsPayload _ => (true, "ok"%string)
   | Canonicalize d => Some d
   | DeviceFingerprint _ => Some demo_hash
   | UnmountDescendants _ | AppendState _ | PopulateAmiga _ _ _ | FormatApfs _ | MakeDirectory _
   | GenerateUfsSource _ | CopyImage _ _ | ProgramAvailable _ | Executable _ | Exists _ => true
   | PathIsMounted _ => false
   | CaptureProcess _ => Some ("{" ++ quoted "fragmented_files" ++ ":3," ++
       quoted "fragmented_directories" ++ ":1}")%string
   | SettlePartitions _ | LoadPartitionMap _ => Some demo_map
   | MakeWorkDirectory t => Some t
   | CreateState _ => Ok tt
   | ReadState _ => None
   | ResolveProgram p => Some p
   | Getenv _ => None
   | RemoveTree _ | CloseState | Sleep _ | Printf _ | Eprintf _ | EprintfErrno _ _
   | EprintfUninitialised => tt
   end, s).

(** A trace of harmless steps holds no write. *)
Lemma no_write_event t pre X (e : stepE X) x post :
  repartitions e = true \/ target e <> None ->
  Forall (fun ev => match ev with Event e _ => harmless _ e end) t -> t <> pre ++ Event e x :: post.
Proof.
  intros Hd Hf ->. apply Forall_app in Hf as [_ Hf]. apply Forall_cons_iff in Hf as [[H1 H2] _].
  destruct Hd; congruence.
Qed.

(** A write after [sfdisk]: the table settled and the write is in [build_slots]. *)
Lemma settled_writes {common : Infiltratr} canonical fp code guards (first : event stepE) pre X (e : stepE X) x post o :
  repartitions e = true \/ target e <> None ->
  runs (if negb (code =? 0) then Ret 2
        else
          let* map := call (SettlePartitions canonical) in
          match map with
          | None =>
              call (Eprintf (newline "New partition table did not settle into the complete labelled layout.")) ;;;
              Ret 2
          | Some map => build_slots canonical fp map
          end) (pre ++ Event e x :: post) o ->
  code = 0 /\ exists map rest partition spec,
    pre = Event (SettlePartitions canonical) (Some map) :: rest /\ target e = Some partition /\
    In spec ldtm_specs /\ partition_for_label map (label spec) = Some partition /\
    In (Event (PathIsMounted partition) false)
      (guards ++ [first; Event (SettlePartitions canonical) (Some map)] ++ rest).
Proof.
  intros Hd H. destruct (Z.eqb_spec code 0) as [->|]; cbn [negb] in H.
  2:{ apply runs_inv in H as [H _]. by destruct pre. }
  split; [done|]. apply runs_inv in H as (map & t & Heq & H). cbn [pbind] in H.
  destruct pre as [|ev rest].
  { exfalso. apply (no_write_event [Event (SettlePartitions canonical) map] [] _ e x [] Hd); [by repeat constructor|].
    apply (f_equal (take 1)) in Heq. by symmetry. }
  injection Heq as -> Heq. destruct map as [map|].
  2:{ exfalso. apply runs_inv in H as (u & t5 & -> & H). cbn [pbind] in H. apply runs_inv in H as [-> _].
      apply (no_write_event [Event (Eprintf (newline "New partition table did not settle into the complete labelled layout.")) u]
        rest _ e x post Hd); [by repeat constructor|by symmetry]. }
  subst t. set (h := guards ++ [first; Event (SettlePartitions canonical) (Some map)]).
  destruct (wp_runs _ _ _ _ _ _ (build_slots_wp canonical fp map h) H) as [_ Hev].
  destruct (Hev rest X e x post eq_refl) as [Hr Htgt].
  destruct Hd as [Hd|Hd]; [congruence|]. destruct (target e) as [partition|] eqn:Hp; [|done].
  destruct (Htgt partition eq_refl) as [(spec & Hspec & Hl) Hin].
  exists map, rest, partition, spec. split_and!; [done..|]. unfold h in Hin. by rewrite <- app_assoc in Hin.
Qed.

(** ** Properties *)

(** C7: a preparation writes only what was confirmed.  Before the partition table
    is written the guards have all answered: root, every module ready, the device
    and its confirmation the same canonical path, its fingerprint the confirmed one
    (64 characters) both before and after everything on it was unmounted, the
    safety check passed and nothing mounted, and then [sfdisk] runs at once on that
    device.  Every later writing step is on the partition the settled table gives
    for a slot of the catalogue, after that partition answered as not mounted. *)
Theorem prepare_writes_only_confirmed {common : Infiltratr} device confirmed cfp t o pre X (e : stepE X) x post :
  runs (ldtm_worker_prepare device confirmed cfp) t o ->
  t = pre ++ Event e x :: post ->
  repartitions e = true \/ target e <> None ->
  exists canonical fp required safety script,
    cfp = Some fp /\ strlen fp = 64 /\ ldtm_build_sfdisk_script false 8192 = Some script /\
    let guards := guard_events device confirmed canonical fp required safety in
    let sfdisk := RunProcess (sfdisk_argv canonical) (Some script) false in
    (pre = guards /\ exists code, Event e x = Event sfdisk code) \/
    (exists map rest partition spec,
       pre = guards ++ [Event sfdisk 0; Event (SettlePartitions canonical) (Some map)] ++ rest /\
       target e = Some partition /\ In spec ldtm_specs /\
       partition_for_label map (label spec) = Some partition /\
       In (Event (PathIsMounted partition) false)
         (guards ++ [Event sfdisk 0; Event (SettlePartitions canonical) (Some map)] ++ rest)).
Proof.
  intros H Ht Hd. unfold ldtm_worker_prepare in H.
  pose proof (fun t' o' => calls_runs _ _ t' o' (guards_harmless device confirmed cfp)) as Hh.
  apply pbind_runs in H as [(m & H & ->)|(g & t1 & t2 & -> & Hg & H)].
  { apply Hh in H. by apply (no_write_event _ pre _ e x post Hd) in H. }
  pose proof (Hh _ _ Hg) as Hgh. destruct g as [[canonical fp]|].
  2:{ apply runs_inv in H as [-> ->]. rewrite app_nil_r in Ht. by apply (no_write_event _ pre _ e x post Hd) in Hgh. }
  apply prepare_guards_runs in Hg as (Hc & Hfp & required & safety & ->).
  set (guards := guard_events device confirmed canonical fp required safety) in *.
  destruct (ldtm_build_sfdisk_script false 8192) as [script|] eqn:Hs.
  2:{ apply runs_inv in H as [-> ->]. rewrite app_nil_r in Ht. by apply (no_write_event _ pre _ e x post Hd) in Hgh. }
  exists canonical, fp, required, safety, script. split_and!; [done..|]. fold guards. cbv zeta. clearbody guards.
  apply runs_inv in H as (code & t3 & -> & H). cbn [pbind] in H.
  symmetry in Ht. apply app_eq_inv in Ht as [(k & -> & Hk)|(k & -> & Hk)].
  - destruct k as [|ev k]; [rewrite app_nil_r; left|right].
    + split; [done|]. exists code. symmetry. exact (f_equal (hd (Event e x)) Hk).
    + injection Hk as <- ->. destruct (settled_writes canonical fp code guards
        (Event (RunProcess (sfdisk_argv canonical) (Some script) false) 0) k X e x post o Hd H)
        as (-> & map & rest & partition & spec & -> & Hw).
      by exists map, rest, partition, spec.
  - destruct k as [|ev k]; [left; rewrite app_nil_r; split; [done|]|].
    + exists code. exact (f_equal (hd (Event e x)) Hk).
    + exfalso. injection Hk as <- ->. by apply (no_write_event _ pre _ e x k Hd) in Hgh.
Qed.

(** C34: a preparation that succeeds leaves a state file the other workers accept.
    When [ldtm_worker_prepare] answers 0, the guards held and the text it appended to the state
    file is exactly the header for the canonical device and the confirmed
    fingerprint followed by one [populated] record for each of the 21 slots in
    the order of the catalogue; and for a hexadecimal fingerprint and a device
    path that is a field of a line and fits the header line,
    [load_verify_state]'s parser reads that text back
    as those records, all populated, with that fingerprint. *)
Theorem prepared_disk_verifies {common : Infiltratr} device confirmed cfp t :
  runs (ldtm_worker_prepare device confirmed cfp) t (Returned 0) ->
  exists canonical fp messages,
    cfp = Some fp /\ In (Event (Canonicalize device) (Some canonical)) t /\
    Forall2 (fun spec m => In m (slot_messages spec)) ldtm_specs messages /\
    let records := List.map (pair "populated"%string) messages in
    appended t = state_text canonical fp records /\
    Forall (fun v => populated v = true) (List.map built records) /\
    (field_text canonical = true -> strlen canonical <= 4087 -> state_hash fp = true ->
     parse_verify_state (appended t) false canonical = Some (List.map built records, fp)).
Proof.
  unfold ldtm_worker_prepare. intros H.
  apply pbind_runs in H as [(m & _ & ?)|(g & t1 & t2 & -> & Hg & H)]; [done|].
  destruct g as [[canonical fp]|]; [|by apply runs_inv in H as [_ ?]].
  pose proof (silent_runs _ _ _ (guards_silent device confirmed cfp) Hg) as Hq.
  apply prepare_guards_runs in Hg as (-> & _ & required & safety & ->).
  destruct (ldtm_build_sfdisk_script false 8192) as [script|]; [|by apply runs_inv in H as [_ ?]].
  next_event H c0. destruct (negb _); [by apply runs_inv in H as [_ ?]|].
  next_event H m0. destruct m0 as [m0|]; [|refused H].
  apply build_slots_state in H as (messages & Hm & Ha).
  exists canonical, fp, messages. split; [done|]. split; [by do 2 right; left|]. split; [done|]. cbv zeta.
  rewrite appended_app, Hq, !appended_cons. cbn [appended_event append]. rewrite Ha.
  split; [done|]. split; [apply map_built_populated|]. intros H1 H2 H3.
  destruct (slot_records_valid _ Hm) as [Hl Hv]. by apply parse_state_text.
Qed.

(** Qualification fails closed for the whole catalogue.  Whatever the system
    answers, [ldtm_worker_qualify] ends with 1 or 2, never 0: every accepted
    state file has a record for the ZFS slot, which has no qualified writer and
    always counts as a failure. *)
Theorem qualify_never_succeeds {common : Infiltratr} device t r :
  runs (ldtm_worker_qualify device) t (Returned r) -> r = 1 \/ r = 2.
Proof. apply (returns_runs (fun r => r = 1 \/ r = 2)), qualify_returns. Qed.

Definition demo_prepare :=
  execute demo_step (ldtm_worker_prepare (common := infiltratr_reference) demo_device demo_device (Some demo_hash)) tt.
Definition demo_qualify :=
  execute demo_step (ldtm_worker_qualify (common := infiltratr_reference) demo_device) tt.

(** The canonical device of an event is the demonstration's. *)
Definition named_demo (ev : event stepE) : bool :=
  match ev with
  | Event e x =>
      match e in stepE X return X -> bool with
      | Canonicalize _ => fun r => match r with Some c => String.eqb c demo_device | None => true end
      | _ => fun _ => true
      end x
  end.

(** The first write is [sfdisk], after the ten answers of the guards. *)
Lemma prepare_writes_only_confirmed_witness :
  exists pre post canonical fp required safety,
    snd demo_prepare = pre ++ post /\ length pre = 10%nat /\
    pre = guard_events demo_device demo_device canonical fp required safety.
Proof.
  pose (argv := sfdisk_argv demo_device).
  pose (script := ldtm_build_sfdisk_script false 8192).
  pose (t := snd demo_prepare).
  assert (Ht : t = take 10 t ++ Event (RunProcess argv script false) 0 :: drop 11 t)
    by (vm_compute; reflexivity).
  destruct (prepare_writes_only_confirmed (common := infiltratr_reference) demo_device demo_device (Some demo_hash)
    t (fst demo_prepare) (take 10 t) _ (RunProcess argv script false) 0 (drop 11 t))
    as (canonical & fp & required & safety & s & _ & _ & _ & [[H _]|(map & rest & p & spec & H & _)]).
  - exact (execute_runs demo_step _ tt).
  - exact Ht.
  - left; reflexivity.
  - exists (take 10 t), (drop 10 t), canonical, fp, required, safety.
    split; [symmetry; apply take_drop|]. split; [vm_compute; reflexivity|exact H].
  - exfalso. apply (f_equal (@length _)) in H. vm_compute in H. discriminate H.
Defined.

Lemma prepared_disk_verifies_witness :
  exists messages, parse_verify_state (appended (snd demo_prepare)) false demo_device =
    Some (List.map built (List.map (pair "populated"%string) messages), demo_hash).
Proof.
  assert (Ho : fst demo_prepare = Returned 0) by (vm_compute; reflexivity).
  destruct (prepared_disk_verifies (common := infiltratr_reference) demo_device demo_device (Some demo_hash)
    (snd demo_prepare)) as (canonical & fp & messages & Hfp & Hin & _ & _ & _ & H).
  - rewrite <- Ho. exact (execute_runs demo_step _ tt).
  - exists messages. injection Hfp as <-.
    assert (canonical = demo_device) as ->.
    { assert (Hall : forallb named_demo (snd demo_prepare) = true) by (vm_compute; reflexivity).
      apply (proj1 (forallb_forall _ _) Hall) in Hin. by apply String.eqb_eq in Hin. }
    apply H; vm_compute; [reflexivity|discriminate|reflexivity].
Defined.

Lemma qualify_never_succeeds_witness : fst demo_qualify = Returned 2 /\ (2 = 1 \/ 2 = 2).
Proof.
  assert (Ho : fst demo_qualify = Returned 2) by (vm_compute; reflexivity).
  split; [exact Ho|]. apply (qualify_never_succeeds (common := infiltratr_reference) demo_device (snd demo_qualify)).
  rewrite <- Ho. exact (execute_runs demo_step _ tt).
Defined.
