(* ===== verification/Exceptions.v ===== *)
(** C++ functions that may throw: a value, or the text of the exception.  The
    native components throw only classes derived from [std::exception], and the
    code distinguishes them by nothing but their text. *)
From S2P Require Import Prelude CString.

Inductive exc (A : Type) :=
| Value (a : A)
| Throw (what : string).
Arguments Value {A} a.
Arguments Throw {A} what.

#[export] Instance exc_ret : MRet exc := @Value.
#[export] Instance exc_bind : MBind exc := fun A B f p =>
  match p with Value a => f a | Throw w => Throw w end.
#[export] Instance exc_fmap : FMap exc := fun A B f p =>
  match p with Value a => Value (f a) | Throw w => Throw w end.

(** [if (condition) throw ...;] *)
Definition throw_if (condition : bool) (what : string) : exc unit :=
  if condition then Throw what else Value tt.

(** [try { return p; } catch (...) { return fallback; }] *)
Definition value_or {A} (p : exc A) (fallback : A) : A :=
  match p with Value a => a | Throw _ => fallback end.

Definition is_value {A} (p : exc A) : bool := match p with Value _ => true | Throw _ => false end.

Lemma bind_value {A B} (p : exc A) (f : A -> exc B) b :
  p ≫= f = Value b <-> exists a, p = Value a /\ f a = Value b.
Proof.
  split; [|by intros (a & -> & ?)]. destruct p as [a|w]; [|done]. intros H. by exists a.
Qed.

Lemma throw_if_value c w (f : unit -> exc unit) : throw_if c w = Value tt <-> c = false.
Proof. by destruct c. Qed.

Lemma guard_value {B} c w (f : unit -> exc B) b :
  throw_if c w ≫= f = Value b <-> c = false /\ f tt = Value b.
Proof. destruct c; split; try done; by intros [? ?]. Qed.

(** Split a successful chain of guards and binds. *)
Ltac unthrow :=
  repeat match goal with
  | H : throw_if _ _ ≫= _ = Value _ |- _ => apply guard_value in H as [? H]
  | H : _ ≫= _ = Value _ |- _ => apply bind_value in H as (? & ? & H)
  end.

(** A traversal succeeds when every element does. *)
Lemma mapM_value {A B} (f : A -> exc B) l k :
  mapM f l = Value k <-> Forall2 (fun x y => f x = Value y) l k.
Proof.
  split.
  - revert k. induction l as [|x l IH]; intros k; simpl.
    + intros [= <-]. constructor.
    + intros H. apply bind_value in H as (y & Hy & H). apply bind_value in H as (ys & Hys & H).
      injection H as <-. constructor; auto.
  - induction 1 as [|x y l k Hx _ IH]; simpl; [done|]. by rewrite Hx, IH.
Qed.
