(* ===== verification/NativeJson.v ===== *)
(** The JSON values of [native/json.cpp]: parser, number validation, accessors
    and printer. *)
From S2P Require Import Prelude CString Infiltratr Exceptions.
From Stdlib Require Import DecimalString DecimalN.

(** ** Values

    [JObject] is a [std::map]: its members in the order of their keys. *)

#[warnings="-register-all"]
Inductive Json :=
| JNull
| JBool (b : bool)
| JNumber (text : string)
| JString (s : string)
| JArray (values : list Json)
| JObject (members : list (string * Json)).

(** [std::map::emplace]: [None] when the key is present. *)
Fixpoint emplace {A} (key : string) (value : A) (members : list (string * A)) :
    option (list (string * A)) :=
  match members with
  | [] => Some [(key, value)]
  | (k, v) :: members' =>
      match String.compare key k with
      | Lt => Some ((key, value) :: members)
      | Eq => None
      | Gt => cons (k, v) <$> emplace key value members'
      end
  end.

(** ** The parser

    A cursor is [position_] and what [input_] holds from there. *)

Record cursor := mkCursor { position : Z; rest : string }.

Definition fail {A} (c : cursor) (message : string) : exc A :=
  Throw ("JSON parse error at byte " ++ utoa (position c) ++ ": " ++ message)%string.

(** The loops of the parser have fuel; this is no message of the code. *)
Definition exhausted {A} : exc A := Throw EmptyString.

Definition is_json_space (c : ascii) : bool :=
  bool_decide (c = " "%char) || bool_decide (c = TAB) || bool_decide (c = CR) || bool_decide (c = LF).

Fixpoint skip_space_from (position : Z) (s : string) : cursor :=
  match s with
  | String c s' => if is_json_space c then skip_space_from (position + 1) s' else mkCursor position s
  | EmptyString => mkCursor position s
  end.

Definition skip_space (c : cursor) : cursor := skip_space_from (position c) (rest c).

Definition consume (value : ascii) (c : cursor) : option cursor :=
  match rest c with
  | String d r => if ascii_dec d value then Some (mkCursor (position c + 1) r) else None
  | EmptyString => None
  end.

(** The cursor after [value], when [rest] starts with it. *)
Fixpoint literal_from (value : string) (c : cursor) : option cursor :=
  match value with
  | EmptyString => Some c
  | String v value' => match consume v c with Some c' => literal_from value' c' | None => None end
  end.

Definition literal (value : string) (c : cursor) : exc cursor :=
  match literal_from value c with Some c' => Value c' | None => fail c "invalid literal" end.

(** *** Strings *)

Definition hex_digit (c : ascii) : Z :=
  if (48 <=? code c) && (code c <=? 57) then code c - 48
  else if (97 <=? code c) && (code c <=? 102) then code c - 97 + 10
  else if (65 <=? code c) && (code c <=? 70) then code c - 65 + 10
  else -1.

Fixpoint hex4_loop (n : nat) (value : Z) (c : cursor) : exc (Z * cursor) :=
  match n with
  | O => Value (value, c)
  | S n =>
      match rest c with
      | EmptyString => fail c "truncated Unicode escape"
      | String h r =>
          let c := mkCursor (position c + 1) r in
          if hex_digit h <? 0 then fail c "invalid Unicode escape"
          else hex4_loop n (Z.lor (u32 (Z.shiftl value 4)) (hex_digit h)) c
      end
  end.

Definition parse_hex4 (c : cursor) : exc (Z * cursor) :=
  if strlen (rest c) <? 4 then fail c "truncated Unicode escape" else hex4_loop 4 0 c.

Definition parse_unicode_escape (c : cursor) : exc (Z * cursor) :=
  '(codepoint, c) ← parse_hex4 c;
  if (0xD800 <=? codepoint) && (codepoint <=? 0xDBFF) then
    match consume BACKSLASH c ≫= consume "u" with
    | None => fail c "high surrogate without low surrogate"
    | Some c =>
        '(low, c) ← parse_hex4 c;
        if (low <? 0xDC00) || (0xDFFF <? low) then fail c "invalid low surrogate"
        else Value (0x10000 + Z.shiftl (codepoint - 0xD800) 10 + (low - 0xDC00), c)
    end
  else if (0xDC00 <=? codepoint) && (codepoint <=? 0xDFFF) then fail c "unpaired low surrogate"
  else Value (codepoint, c).

Definition escaped_char (escape : ascii) : option ascii :=
  if ascii_dec escape QUOTE then Some QUOTE
  else if ascii_dec escape BACKSLASH then Some BACKSLASH
  else if ascii_dec escape "/" then Some "/"%char
  else if ascii_dec escape "b" then Some (chr 8)
  else if ascii_dec escape "f" then Some (chr 12)
  else if ascii_dec escape "n" then Some LF
  else if ascii_dec escape "r" then Some CR
  else if ascii_dec escape "t" then Some TAB
  else None.

(** *** Numbers *)

(** The cursor after the digits it stands on. *)
Definition skip_digits (c : cursor) : cursor :=
  let '(digits, r) := leading_digits (rest c) in mkCursor (position c + strlen digits) r.

Definition parse_integer_part (c : cursor) : exc cursor :=
  match rest c with
  | EmptyString => fail c "truncated number"
  | String d r =>
      if ascii_dec d "0" then
        let c := mkCursor (position c + 1) r in
        if isdigit (head_char (rest c)) then fail c "leading zero in number" else Value c
      else if (code d <? 49) || (57 <? code d) then fail c "invalid number"
      else Value (skip_digits c)
  end.

Definition parse_fraction (c : cursor) : exc cursor :=
  match consume "." c with
  | None => Value c
  | Some c => if isdigit (head_char (rest c)) then Value (skip_digits c) else fail c "fraction has no digits"
  end.

Definition is_exponent (c : ascii) : bool := bool_decide (c = "e"%char) || bool_decide (c = "E"%char).

Definition skip_sign (c : cursor) : cursor :=
  match consume "+" c with
  | Some c => c
  | None => match consume "-" c with Some c => c | None => c end
  end.

Definition parse_exponent (c : cursor) : exc cursor :=
  match rest c with
  | String e r =>
      if is_exponent e then
        let c := skip_sign (mkCursor (position c + 1) r) in
        if isdigit (head_char (rest c)) then Value (skip_digits c) else fail c "exponent has no digits"
      else Value c
  | EmptyString => Value c
  end.

Definition skip_minus (c : cursor) : cursor :=
  match consume "-" c with Some c => c | None => c end.

Definition parse_number (start : cursor) : exc (string * cursor) :=
  c ← parse_integer_part (skip_minus start);
  c ← parse_fraction c;
  c ← parse_exponent c;
  Value (String.substring 0 (Z.to_nat (position c - position start)) (rest start), c).

(** [Json::number]: the text from each position on, checked in turn. *)
Definition number_digits (s : string) : string := snd (leading_digits s).

Definition number_integer (s : string) : option string :=
  match s with
  | EmptyString => None
  | String d r =>
      if ascii_dec d "0" then (if isdigit (head_char r) then None else Some r)
      else if (code d <? 49) || (57 <? code d) then None
      else Some (number_digits s)
  end.

Definition number_fraction (s : string) : option string :=
  match s with
  | String d r =>
      if ascii_dec d "." then (if isdigit (head_char r) then Some (number_digits r) else None) else Some s
  | EmptyString => Some s
  end.

Definition number_exponent (s : string) : option string :=
  match s with
  | String e r =>
      if is_exponent e then
        let r := match r with
                 | String d r' =>
                     if bool_decide (d = "+"%char) || bool_decide (d = "-"%char) then r' else r
                 | EmptyString => r
                 end in
        if isdigit (head_char r) then Some (number_digits r) else None
      else Some s
  | EmptyString => Some s
  end.

Definition number_minus (s : string) : string :=
  match s with String d r => if ascii_dec d "-" then r else s | EmptyString => s end.

(** What follows the number at the start of [text]. *)
Definition number_end (text : string) : option string :=
  s ← number_integer (number_minus text); s ← number_fraction s; number_exponent s.

Definition number (text : string) : exc Json :=
  if is_empty text then Throw "empty JSON number"
  else match number_end text with
       | Some EmptyString => Value (JNumber text)
       | _ => Throw "invalid JSON number"
       end.

Section Common.
  Context {common : Infiltratr}.

Definition append_utf8 (out : string) (codepoint : Z) : exc string :=
  match infiltratr_utf8_encode_codepoint codepoint with
  | None => Throw "JSON contains an invalid Unicode code point"
  | Some encoded => Value (out ++ encoded)%string
  end.

(** What follows the opening quote; every round takes a byte. *)
Fixpoint string_loop (fuel : nat) (out : string) (c : cursor) : exc (string * cursor) :=
  match rest c with
  | EmptyString => fail c "unterminated string"
  | String value r =>
      match fuel with
      | O => exhausted
      | S fuel =>
          let c := mkCursor (position c + 1) r in
          if ascii_dec value QUOTE then Value (out, c)
          else if code value <? 32 then fail c "control byte in JSON string"
          else if ascii_dec value BACKSLASH then
            match rest c with
            | EmptyString => fail c "truncated escape"
            | String escape r =>
                let c := mkCursor (position c + 1) r in
                match escaped_char escape with
                | Some d => string_loop fuel (out ++ String d EmptyString) c
                | None =>
                    if ascii_dec escape "u" then
                      '(codepoint, c) ← parse_unicode_escape c;
                      out ← append_utf8 out codepoint;
                      string_loop fuel out c
                    else fail c "invalid string escape"
                end
            end
          else string_loop fuel (out ++ String value EmptyString) c
      end
  end.

Definition parse_string (c : cursor) : exc (string * cursor) :=
  match consume QUOTE c with
  | None => fail c "expected string"
  | Some c => string_loop (String.length (rest c)) EmptyString c
  end.

(** *** Arrays and objects, over the parser of the values inside *)

Section Containers.
  Context (parse_value : cursor -> exc (Json * cursor)).

Fixpoint array_loop (fuel : nat) (values : list Json) (c : cursor) : exc (list Json * cursor) :=
  match fuel with
  | O => exhausted
  | S fuel =>
      '(value, c) ← parse_value c;
      let c := skip_space c in
      match consume "]" c with
      | Some c => Value (values ++ [value], c)
      | None =>
          match consume "," c with
          | None => fail c "expected comma in array"
          | Some c => array_loop fuel (values ++ [value]) (skip_space c)
          end
      end
  end.

Definition parse_array (c : cursor) : exc (list Json * cursor) :=
  match consume "[" c with
  | None => fail c "expected array"
  | Some c =>
      let c := skip_space c in
      match consume "]" c with
      | Some c => Value ([], c)
      | None => array_loop (S (String.length (rest c))) [] c
      end
  end.

Fixpoint object_loop (fuel : nat) (values : list (string * Json)) (c : cursor) :
    exc (list (string * Json) * cursor) :=
  match fuel with
  | O => exhausted
  | S fuel =>
      if bool_decide (head_char (rest c) = QUOTE) then
        '(key, c) ← parse_string c;
        let c := skip_space c in
        match consume ":" c with
        | None => fail c "expected colon after object key"
        | Some c =>
            '(value, c) ← parse_value (skip_space c);
            match emplace key value values with
            | None => fail c "duplicate object key"
            | Some values =>
                let c := skip_space c in
                match consume "}" c with
                | Some c => Value (values, c)
                | None =>
                    match consume "," c with
                    | None => fail c "expected comma in object"
                    | Some c => object_loop fuel values (skip_space c)
                    end
                end
            end
        end
      else fail c "expected object key"
  end.

Definition parse_object (c : cursor) : exc (list (string * Json) * cursor) :=
  match consume "{" c with
  | None => fail c "expected object"
  | Some c =>
      let c := skip_space c in
      match consume "}" c with
      | Some c => Value ([], c)
      | None => object_loop (S (String.length (rest c))) [] c
      end
  end.

End Containers.

(** [parse_value(depth)] with [levels = 65 - depth]. *)
Fixpoint parse_value (levels : nat) (c : cursor) : exc (Json * cursor) :=
  match levels with
  | O => fail c "maximum JSON nesting depth exceeded"
  | S levels =>
      let c := skip_space c in
      match rest c with
      | EmptyString => fail c "unexpected end of input"
      | String d _ =>
          if ascii_dec d "n" then c ← literal "null" c; Value (JNull, c)
          else if ascii_dec d "t" then c ← literal "true" c; Value (JBool true, c)
          else if ascii_dec d "f" then c ← literal "false" c; Value (JBool false, c)
          else if ascii_dec d QUOTE then '(s, c) ← parse_string c; Value (JString s, c)
          else if ascii_dec d "[" then
            '(values, c) ← parse_array (parse_value levels) c; Value (JArray values, c)
          else if ascii_dec d "{" then
            '(members, c) ← parse_object (parse_value levels) c; Value (JObject members, c)
          else if bool_decide (d = "-"%char) || isdigit d then
            '(text, c) ← parse_number c; value ← number text; Value (value, c)
          else fail c "unexpected token"
      end
  end.

Definition kLevels : nat := 65.

Definition parse (text : string) : exc Json :=
  '(value, c) ← parse_value kLevels (skip_space (mkCursor 0 text));
  let c := skip_space c in
  if is_empty (rest c) then Value value else fail c "trailing data after JSON value".

(** ** Printing *)

Definition quoted (value : string) : exc string :=
  match infiltratr_escape_json (cut_nul value) with
  | None => Throw "JSON escaping measurement failed"
  | Some escaped => Value (String QUOTE (escaped ++ String QUOTE EmptyString))
  end.

(** The loops of [dump]: a comma before every item but the first. *)
Fixpoint comma_separated (texts : list string) : string :=
  match texts with
  | [] => EmptyString
  | [text] => text
  | text :: texts => (text ++ "," ++ comma_separated texts)%string
  end.

Fixpoint dump (v : Json) : exc string :=
  match v with
  | JNull => Value "null"%string
  | JBool b => Value (if b then "true" else "false")%string
  | JNumber text => Value text
  | JString s => quoted s
  | JArray values =>
      texts ← (fix go l := match l with
                           | [] => Value []
                           | v :: l => t ← dump v; ts ← go l; Value (t :: ts)
                           end) values;
      Value ("[" ++ comma_separated texts ++ "]")%string
  | JObject members =>
      texts ← (fix go l := match l with
                           | [] => Value []
                           | (k, v) :: l =>
                               key ← quoted k; t ← dump v; ts ← go l;
                               Value ((key ++ ":" ++ t)%string :: ts)
                           end) members;
      Value ("{" ++ comma_separated texts ++ "}")%string
  end.

End Common.

(** ** Accessors *)

Definition find (key : string) (v : Json) : option Json :=
  match v with
  | JObject members => snd <$> List.find (fun kv => String.eqb (fst kv) key) members
  | _ => None
  end.

Definition at_key (key : string) (v : Json) : exc Json :=
  match find key v with
  | Some value => Value value
  | None => Throw ("JSON object is missing key " ++ key)%string
  end.

Definition number_text (v : Json) : exc string :=
  match v with JNumber text => Value text | _ => Throw "JSON value is not numeric" end.

Definition boolean (v : Json) : exc bool :=
  match v with JBool b => Value b | _ => Throw "JSON value is not boolean" end.

Definition string_value (v : Json) : exc string :=
  match v with JString s => Value s | _ => Throw "JSON value is not a string" end.

(** [std::from_chars] in base 10, over the whole text. *)
Definition from_chars_unsigned (text : string) : option Z :=
  let '(digits, r) := leading_digits text in
  if is_empty digits || negb (is_empty r) || (UINT64_MAX <? decimal_value digits) then None
  else Some (decimal_value digits).

Definition from_chars_signed (text : string) : option Z :=
  let negative := bool_decide (head_char text = "-"%char) in
  let '(digits, r) := leading_digits (number_minus text) in
  let value := if negative then - decimal_value digits else decimal_value digits in
  if is_empty digits || negb (is_empty r) || (INT64_MAX <? value) || (value <? - INT64_MAX - 1) then None
  else Some value.

Definition unsigned_value (v : Json) : exc Z :=
  text ← number_text v;
  match from_chars_unsigned text with
  | Some value => Value value
  | None => Throw "JSON number is not an unsigned integer"
  end.

Definition integer_value (v : Json) : exc Z :=
  text ← number_text v;
  match from_chars_signed text with
  | Some value => Value value
  | None => Throw "JSON number is not a signed integer"
  end.

(** [std::to_string]. *)
Definition itoa (n : Z) : string := if n <? 0 then String "-" (utoa (- n)) else utoa n.

Definition integer (value : Z) : Json := JNumber (itoa value).
Definition unsigned_integer (value : Z) : Json := JNumber (utoa value).

Definition string_or (fallback : string) (v : Json) : string :=
  match v with JString s => s | _ => fallback end.

Definition unsigned_or (fallback : Z) (v : Json) : Z :=
  match v with JNumber _ => value_or (unsigned_value v) fallback | _ => fallback end.

Definition integer_or (fallback : Z) (v : Json) : Z :=
  match v with JNumber _ => value_or (integer_value v) fallback | _ => fallback end.

Definition bool_or (fallback : bool) (v : Json) : bool :=
  match v with JBool b => b | _ => fallback end.

(** ** The grammar of numbers (RFC 8259, section 6) *)

Definition digits (s : string) : Prop := s <> EmptyString /\ forall_char isdigit s = true.

Definition minus_part (s : string) : Prop := s = EmptyString \/ s = "-"%string.

Definition integer_part (s : string) : Prop :=
  s = "0"%string \/
  exists d ds, s = String d ds /\ 49 <= code d <= 57 /\ forall_char isdigit ds = true.

Definition fraction_part (s : string) : Prop :=
  s = EmptyString \/ exists ds, s = String "." ds /\ digits ds.

Definition exponent_part (s : string) : Prop :=
  s = EmptyString \/
  exists e sign ds, s = String e (sign ++ ds) /\ is_exponent e = true /\
    (sign = EmptyString \/ sign = "+" \/ sign = "-")%string /\ digits ds.

Inductive number_grammar : string -> Prop :=
| number_grammar_intro m i f e :
    minus_part m -> integer_part i -> fraction_part f -> exponent_part e ->
    number_grammar (m ++ i ++ f ++ e).

(** No number goes on with [r]. *)
Definition number_stop (r : string) : Prop :=
  isdigit (head_char r) = false /\ head_char r <> "."%char /\ is_exponent (head_char r) = false.

Lemma append_assoc' (s t u : string) : (s ++ (t ++ u))%string = ((s ++ t) ++ u)%string.
Proof. by rewrite append_assoc. Qed.

Lemma number_digits_app ds r :
  digits ds -> isdigit (head_char r) = false ->
  isdigit (head_char (ds ++ r)) = true /\ number_digits (ds ++ r) = r.
Proof.
  intros [Hne Hd] Hr. split; [|unfold number_digits; by rewrite leading_digits_app].
  destruct ds as [|c ds]; [done|]. simpl in *. by apply andb_true_iff in Hd as [? _].
Qed.

Lemma number_digits_inv s :
  isdigit (head_char s) = true -> exists ds, s = (ds ++ number_digits s)%string /\ digits ds.
Proof.
  intros H. pose proof (leading_digits_spec s) as Hs. pose proof (leading_digits_head s H) as Hne.
  unfold number_digits. destruct (leading_digits s) as [d r]. destruct Hs as (-> & Hd & _). by exists d.
Qed.

Lemma digit_range c : isdigit c = true <-> 48 <= code c <= 57.
Proof. unfold isdigit. rewrite andb_true_iff, !Z.leb_le. done. Qed.

Lemma number_minus_app m s :
  minus_part m -> head_char s <> "-"%char -> number_minus (m ++ s) = s.
Proof.
  intros [-> | ->] Hs; simpl; [|done]. destruct s as [|c s]; simpl in *; [done|].
  destruct (ascii_dec c "-"); done.
Qed.

Lemma number_minus_inv s : exists m, s = (m ++ number_minus s)%string /\ minus_part m.
Proof.
  destruct s as [|c s]; simpl; [by exists EmptyString; split; [|left]|].
  destruct (ascii_dec c "-") as [->|]; [exists "-"%string|exists EmptyString]; (split; [done|]); [by right|by left].
Qed.

Lemma number_integer_app i r :
  integer_part i -> isdigit (head_char r) = false -> number_integer (i ++ r) = Some r.
Proof.
  intros [-> | (d & ds & -> & Hd & Hds)] Hr; simpl; [by rewrite Hr|].
  destruct (ascii_dec d "0") as [->|]; [by change (code "0") with 48 in Hd; lia|].
  rewrite (proj2 (Z.ltb_ge _ 49)), (proj2 (Z.ltb_ge 57 _)) by lia. simpl. f_equal.
  unfold number_digits. simpl. rewrite (proj2 (digit_range d)) by lia. by rewrite leading_digits_app.
Qed.

Lemma number_integer_inv s r :
  number_integer s = Some r -> exists i, s = (i ++ r)%string /\ integer_part i.
Proof.
  destruct s as [|d s]; simpl; [done|]. destruct (ascii_dec d "0") as [->|].
  { destruct (isdigit (head_char s)); [done|]. intros [= ->]. exists "0"%string. by split; [|left]. }
  destruct ((code d <? 49) || (57 <? code d)) eqn:Hd; [done|]. breflect. intros [= <-].
  pose proof (leading_digits_spec s) as Hs. unfold number_digits. simpl.
  rewrite (proj2 (digit_range d)) by lia. destruct (leading_digits s) as [ds t].
  destruct Hs as (-> & Hds & _). exists (String d ds). split; [done|]. right. by exists d, ds.
Qed.

Lemma number_fraction_app f r :
  fraction_part f -> isdigit (head_char r) = false -> head_char r <> "."%char ->
  number_fraction (f ++ r) = Some r.
Proof.
  intros [-> | (ds & -> & Hds)] Hr Hdot; simpl.
  - destruct r as [|c r]; [done|]. simpl in *. by destruct (ascii_dec c ".").
  - by destruct (number_digits_app ds r Hds Hr) as [-> ->].
Qed.

Lemma number_fraction_inv s r :
  number_fraction s = Some r -> exists f, s = (f ++ r)%string /\ fraction_part f.
Proof.
  destruct s as [|d s]; simpl; [intros [= <-]; exists EmptyString; by split; [|left]|].
  destruct (ascii_dec d ".") as [->|]; [|intros [= <-]; exists EmptyString; by split; [|left]].
  destruct (isdigit (head_char s)) eqn:Hs; [|done]. intros [= <-].
  destruct (number_digits_inv s Hs) as (ds & Heq & Hds). exists (String "." ds).
  split; [simpl; congruence|]. right. by exists ds.
Qed.

Lemma sign_cases d : bool_decide (d = "+"%char) || bool_decide (d = "-"%char) = true ->
  isdigit d = false /\ (d = "+"%char \/ d = "-"%char).
Proof. intros H. apply orb_true_iff in H as [H|H]; apply bool_decide_eq_true in H as ->; eauto. Qed.

Lemma number_exponent_app e r :
  exponent_part e -> isdigit (head_char r) = false -> is_exponent (head_char r) = false ->
  number_exponent (e ++ r) = Some r.
Proof.
  intros [-> | (x & sign & ds & -> & Hx & Hsign & Hds)] Hr He; simpl.
  - destruct r as [|c r]; [done|]. simpl in *. by rewrite He.
  - rewrite Hx. destruct (number_digits_app ds r Hds Hr) as [H1 H2].
    destruct Hsign as [-> | [-> | ->]]; simpl; [|by rewrite H1, H2..].
    destruct (ds ++ r)%string as [|d t] eqn:E; [done|].
    destruct (_ || _) eqn:Hs; [|by rewrite H1, H2].
    apply sign_cases in Hs as [Hs _]. simpl in H1. congruence.
Qed.

Lemma number_exponent_inv s r :
  number_exponent s = Some r -> exists e, s = (e ++ r)%string /\ exponent_part e.
Proof.
  destruct s as [|x s]; simpl; [intros [= <-]; exists EmptyString; by split; [|left]|].
  destruct (is_exponent x) eqn:Hx; [|intros [= <-]; exists EmptyString; by split; [|left]].
  set (t := match s with EmptyString => s | _ => _ end). intros H.
  destruct (isdigit (head_char t)) eqn:Ht; [|done]. injection H as <-.
  destruct (number_digits_inv t Ht) as (ds & Heq & Hds).
  assert (exists sign, s = (sign ++ t)%string /\ (sign = "" \/ sign = "+" \/ sign = "-")%string)
    as (sign & Hs & Hsign).
  { subst t. destruct s as [|d s]; [exists EmptyString; auto|].
    destruct (_ || _) eqn:E; [|exists EmptyString; auto].
    apply sign_cases in E as [_ E]. exists (String d EmptyString). split; [done|].
    destruct E as [-> | ->]; auto. }
  exists (String x (sign ++ ds)). split; [simpl; rewrite append_assoc; congruence|].
  right. by exists x, sign, ds.
Qed.

Lemma exponent_head e r :
  exponent_part e -> number_stop r ->
  isdigit (head_char (e ++ r)) = false /\ head_char (e ++ r) <> "."%char.
Proof.
  intros [-> | (x & sign & ds & -> & Hx & _)] (H1 & H2 & _); simpl; [done|].
  unfold is_exponent in Hx. apply orb_true_iff in Hx as [Hx|Hx]; apply bool_decide_eq_true in Hx as ->; done.
Qed.

Lemma fraction_head f r :
  fraction_part f -> isdigit (head_char r) = false -> isdigit (head_char (f ++ r)) = false.
Proof. by intros [-> | (ds & -> & _)] H. Qed.

Lemma integer_head i r : integer_part i -> head_char (i ++ r) <> "-"%char.
Proof.
  intros [-> | (d & ds & -> & Hd & _)]; simpl; [done|]. intros ->. change (code "-") with 45 in Hd. lia.
Qed.

(** A number ends where [number_end] says. *)
Lemma number_end_app t r :
  number_grammar t -> number_stop r -> number_end (t ++ r) = Some r.
Proof.
  intros [m i f e Hm Hi Hf He] Hr. unfold number_end. rewrite !append_assoc.
  destruct (exponent_head e r He Hr) as [H1 H2]. pose proof (fraction_head f (e ++ r) Hf H1) as H3.
  rewrite number_minus_app by (by try apply integer_head).
  rewrite number_integer_app by done. cbn [mbind option_bind].
  rewrite number_fraction_app by done. cbn [mbind option_bind].
  destruct Hr as (Hr1 & _ & Hr2). by apply number_exponent_app.
Qed.

Lemma number_end_inv s r :
  number_end s = Some r -> exists t, s = (t ++ r)%string /\ number_grammar t.
Proof.
  unfold number_end. intros H. apply bind_Some in H as (s1 & H1 & H). apply bind_Some in H as (s2 & H2 & H3).
  destruct (number_minus_inv s) as (m & Hs & Hm). apply number_integer_inv in H1 as (i & Hi1 & Hi).
  apply number_fraction_inv in H2 as (f & Hf1 & Hf). apply number_exponent_inv in H3 as (e & He1 & He).
  exists (m ++ i ++ f ++ e)%string. split; [|by constructor]. rewrite !append_assoc. congruence.
Qed.

Lemma number_value t v : number t = Value v -> v = JNumber t /\ number_grammar t.
Proof.
  unfold number. destruct (is_empty t); [done|]. destruct (number_end t) as [[|]|] eqn:E; [|done..].
  intros [= <-]. split; [done|]. apply number_end_inv in E as (u & -> & Hu). by rewrite append_nil_r.
Qed.

Lemma number_complete t : number_grammar t -> number t = Value (JNumber t).
Proof.
  intros H. unfold number. rewrite <- (append_nil_r t) at 2. rewrite number_end_app by done.
  destruct t; [|done]. inversion H as [m i f e Hm Hi Hf He E].
  destruct Hm as [-> | ->]; [|done]. by destruct Hi as [-> | (? & ? & -> & _)].
Qed.

(** ** Numbers in the parser *)

Lemma fail_cases {A} c m : exists w, @fail A c m = Throw w /\ w <> EmptyString.
Proof. eexists. by split. Qed.

(** A scan of the parser at [position] over [s] goes where the scan of the
    text goes. *)
Definition tracks (position : Z) (s : string) (x : exc cursor) (o : option string) : Prop :=
  match o with
  | Some r => x = Value (mkCursor (position + strlen s - strlen r) r)
  | None => exists w, x = Throw w /\ w <> EmptyString
  end.

Lemma strlen_cons c s : strlen (String c s) = strlen s + 1.
Proof. unfold strlen. simpl. lia. Qed.

Lemma cursor_eq p q r : p = q -> mkCursor p r = mkCursor q r.
Proof. by intros ->. Qed.

Lemma skip_digits_eq p s :
  skip_digits (mkCursor p s) = mkCursor (p + strlen s - strlen (number_digits s)) (number_digits s).
Proof.
  unfold skip_digits, number_digits. simpl. pose proof (leading_digits_spec s) as H.
  destruct (leading_digits s) as [d r]. destruct H as (-> & _). apply cursor_eq.
  rewrite strlen_app. simpl. lia.
Qed.

Lemma parse_integer_tracks p s :
  tracks p s (parse_integer_part (mkCursor p s)) (number_integer s).
Proof.
  unfold tracks, parse_integer_part. simpl. destruct s as [|d s]; simpl; [apply fail_cases|].
  destruct (ascii_dec d "0").
  - destruct (isdigit (head_char s)); [apply fail_cases|]. do 2 f_equal. rewrite strlen_cons. lia.
  - destruct (_ || _); [apply fail_cases|]. by rewrite skip_digits_eq.
Qed.

Lemma parse_fraction_tracks p s : tracks p s (parse_fraction (mkCursor p s)) (number_fraction s).
Proof.
  unfold tracks, parse_fraction, consume. simpl. destruct s as [|d s]; simpl.
  { do 2 f_equal. lia. }
  destruct (ascii_dec d "."); [|do 2 f_equal; lia]. simpl.
  destruct (isdigit (head_char s)); [|apply fail_cases].
  rewrite skip_digits_eq. do 2 f_equal. rewrite strlen_cons. lia.
Qed.

Lemma skip_sign_eq p s :
  skip_sign (mkCursor p s) =
  let r := match s with
           | String d s' => if bool_decide (d = "+"%char) || bool_decide (d = "-"%char) then s' else s
           | EmptyString => s
           end in
  mkCursor (p + strlen s - strlen r) r.
Proof.
  unfold skip_sign, consume. simpl. destruct s as [|d s]; simpl; [apply cursor_eq; lia|].
  destruct (ascii_dec d "+") as [->|H1]; simpl; [apply cursor_eq; rewrite strlen_cons; lia|].
  rewrite (bool_decide_false _ H1).
  destruct (ascii_dec d "-") as [->|H2]; simpl; [apply cursor_eq; rewrite strlen_cons; lia|].
  rewrite (bool_decide_false _ H2). apply cursor_eq. lia.
Qed.

Lemma parse_exponent_tracks p s : tracks p s (parse_exponent (mkCursor p s)) (number_exponent s).
Proof.
  unfold tracks, parse_exponent. simpl. destruct s as [|e s]; simpl; [do 2 f_equal; lia|].
  destruct (is_exponent e); [|do 2 f_equal; lia].
  rewrite skip_sign_eq. cbv zeta. set (r := match s with EmptyString => s | _ => _ end). simpl.
  destruct (isdigit (head_char r)); [|apply fail_cases].
  rewrite skip_digits_eq. do 2 f_equal. rewrite strlen_cons. lia.
Qed.

Lemma skip_minus_eq p s :
  skip_minus (mkCursor p s) =
  mkCursor (p + strlen s - strlen (number_minus s)) (number_minus s).
Proof.
  unfold skip_minus, consume. simpl. destruct s as [|d s]; simpl; [apply cursor_eq; lia|].
  destruct (ascii_dec d "-"); apply cursor_eq; rewrite ?strlen_cons; lia.
Qed.

(** Two scans in a row. *)
Lemma tracks_bind p s x o f g :
  tracks p s x o -> (forall q t, tracks q t (f (mkCursor q t)) (g t)) -> tracks p s (x ≫= f) (o ≫= g).
Proof.
  intros H Hf. destruct o as [r|]; simpl in *.
  - subst x. specialize (Hf (p + strlen s - strlen r) r). unfold tracks in *. cbn [mbind exc_bind].
    destruct (g r) as [t|]; [|done]. rewrite Hf. do 2 f_equal. lia.
  - destruct H as (w & -> & Hw). by exists w.
Qed.

Lemma tracks_at p p' s s' x o :
  tracks p s x o -> p + strlen s = p' + strlen s' -> tracks p' s' x o.
Proof. unfold tracks. destruct o; [|done]. by intros -> ->. Qed.

Lemma parse_number_eq p s :
  match number_end s with
  | Some r =>
      exists t, s = (t ++ r)%string /\ number_grammar t /\
        parse_number (mkCursor p s) = Value (t, mkCursor (p + strlen t) r)
  | None => exists w, parse_number (mkCursor p s) = Throw w /\ w <> EmptyString
  end.
Proof.
  assert (H : tracks p s
    (c ← parse_integer_part (skip_minus (mkCursor p s)); c ← parse_fraction c; parse_exponent c)
    (number_end s)).
  { unfold number_end. apply tracks_bind.
    - rewrite skip_minus_eq. eapply tracks_at; [apply parse_integer_tracks|lia].
    - intros. apply tracks_bind; [apply parse_fraction_tracks|]. intros. apply parse_exponent_tracks. }
  assert (E : parse_number (mkCursor p s) =
    (c ← (c ← parse_integer_part (skip_minus (mkCursor p s)); c ← parse_fraction c; parse_exponent c);
     Value (String.substring 0 (Z.to_nat (position c - p)) s, c))).
  { unfold parse_number. destruct (parse_integer_part _) as [c|]; [|done]. cbn [mbind exc_bind].
    by destruct (parse_fraction c). }
  rewrite E. clear E. unfold tracks in H. destruct (number_end s) as [r|] eqn:En.
  - rewrite H. apply number_end_inv in En as (t & -> & Ht). exists t. split_and!; [done..|].
    cbn [mbind exc_bind position]. rewrite strlen_app.
    replace (p + (strlen t + strlen r) - strlen r) with (p + strlen t) by lia.
    replace (Z.to_nat (p + strlen t - p)) with (String.length t) by (unfold strlen; lia).
    by rewrite substring_app.
  - destruct H as (w & -> & Hw). by exists w.
Qed.

Lemma parse_number_app p t r :
  number_grammar t -> number_stop r ->
  parse_number (mkCursor p (t ++ r)) = Value (t, mkCursor (p + strlen t) r).
Proof.
  intros Ht Hr. pose proof (parse_number_eq p (t ++ r)) as H.
  rewrite number_end_app in H by done. destruct H as (u & E & _ & ->).
  by apply append_inj_r in E as ->.
Qed.

(** ** Strings in the parser *)

Lemma lor_digit v d : 0 <= d < 16 -> Z.lor (Z.shiftl v 4) d = 16 * v + d.
Proof.
  intros Hd. rewrite <- (Z.add_0_r (Z.lor _ _)).
  assert (Hl : Z.land (Z.shiftl v 4) d = 0).
  { apply Z.bits_inj'. intros n Hn. rewrite Z.land_spec, Z.bits_0, Z.shiftl_spec by done.
    destruct (Z.ltb_spec n 4); [by rewrite Z.testbit_neg_r by lia|].
    rewrite (Z.bits_above_log2 d n), andb_false_r; [done|lia|].
    destruct (Z.eq_dec d 0) as [->|]; [simpl; lia|].
    assert (Z.log2 d < 4); [|lia]. apply Z.log2_lt_pow2; lia. }
  rewrite <- Hl, Z.add_lor_land, Z.shiftl_mul_pow2 by lia. lia.
Qed.

Definition hex_digit_ok (c : ascii) : bool :=
  if isxdigit c then (hex_digit c =? hex_value c) && (0 <=? hex_digit c) && (hex_digit c <? 16)
  else hex_digit c =? -1.

Lemma hex_digit_value c : isxdigit c = true -> hex_digit c = hex_value c /\ 0 <= hex_value c < 16.
Proof.
  intros H. assert (E : hex_digit_ok c = true) by (apply (ascii_forall hex_digit_ok); vm_compute; done).
  unfold hex_digit_ok in E. rewrite H in E. breflect. lia.
Qed.

Lemma hex4_step n v p h r :
  isxdigit h = true -> 0 <= v < 4096 ->
  hex4_loop (S n) v (mkCursor p (String h r)) = hex4_loop n (16 * v + hex_value h) (mkCursor (p + 1) r).
Proof.
  intros Hh Hv. destruct (hex_digit_value h Hh) as [E Hr]. cbn [hex4_loop rest position].
  rewrite E, (proj2 (Z.ltb_ge _ 0)), u32_small, lor_digit; [done|lia| |lia].
  unfold is_u32. rewrite Z.shiftl_mul_pow2 by lia. lia.
Qed.

Lemma parse_hex4_app p h u r :
  hex4 h u -> parse_hex4 (mkCursor p (h ++ r)) = Value (u, mkCursor (p + 4) r).
Proof.
  intros [a b c d Ha Hb Hc Hd]. unfold parse_hex4. cbn [append rest].
  rewrite (proj2 (Z.ltb_ge _ 4)) by (rewrite !strlen_cons; pose proof (strlen_nonneg r); lia).
  pose proof (proj2 (hex_digit_value a Ha)). pose proof (proj2 (hex_digit_value b Hb)).
  pose proof (proj2 (hex_digit_value c Hc)). pose proof (proj2 (hex_digit_value d Hd)).
  rewrite !hex4_step by (done || lia). cbn [hex4_loop]. do 2 f_equal; [lia|]. apply cursor_eq. lia.
Qed.

Lemma hex4_length h u : hex4 h u -> strlen h = 4 /\ 0 <= u < 65536.
Proof.
  intros [a b c d Ha Hb Hc Hd]. split; [done|].
  pose proof (proj2 (hex_digit_value a Ha)). pose proof (proj2 (hex_digit_value b Hb)).
  pose proof (proj2 (hex_digit_value c Hc)). pose proof (proj2 (hex_digit_value d Hd)). lia.
Qed.

Lemma parse_unit p h u r :
  hex4 h u -> high_surrogate u = false -> low_surrogate u = false ->
  parse_unicode_escape (mkCursor p (h ++ r)) = Value (u, mkCursor (p + 4) r).
Proof.
  intros Hh H1 H2. unfold parse_unicode_escape. rewrite (parse_hex4_app _ _ u) by done.
  cbn [mbind exc_bind]. unfold high_surrogate, low_surrogate in *. by rewrite H1, H2.
Qed.

Lemma parse_pair p h u l v r :
  hex4 h u -> high_surrogate u = true -> hex4 l v -> low_surrogate v = true ->
  parse_unicode_escape (mkCursor p (h ++ String BACKSLASH (String "u" (l ++ r)))) =
  Value (65536 + (u - 55296) * 1024 + (v - 56320), mkCursor (p + 10) r).
Proof.
  intros Hh H1 Hl H2. unfold parse_unicode_escape. rewrite (parse_hex4_app _ _ u) by done.
  cbn [mbind exc_bind]. unfold high_surrogate, low_surrogate in *. rewrite H1.
  change (consume BACKSLASH (mkCursor (p + 4) (String BACKSLASH (String "u" (l ++ r)))))
    with (Some (mkCursor (p + 4 + 1) (String "u" (l ++ r)))).
  cbn [mbind option_bind].
  change (consume "u" (mkCursor (p + 4 + 1) (String "u" (l ++ r))))
    with (Some (mkCursor (p + 4 + 1 + 1) (l ++ r))). cbv iota beta.
  rewrite (parse_hex4_app _ _ v) by done. cbn [mbind exc_bind]. breflect.
  rewrite (proj2 (Z.ltb_ge v _)), (proj2 (Z.ltb_ge _ v)) by lia. cbn [orb].
  rewrite Z.shiftl_mul_pow2 by lia. do 2 f_equal. apply cursor_eq. lia.
Qed.

Section Roundtrip.
  Context {common : Infiltratr} {L : InfiltratrLaws common}.

Abbreviation utf8 := infiltratr_utf8_encode_codepoint.

Lemma escaped_char_eq x : escaped_char x = short_escape x.
Proof. done. Qed.

Lemma string_end fuel out p r :
  string_loop (S fuel) out (mkCursor p (String QUOTE r)) = Value (out, mkCursor (p + 1) r).
Proof. done. Qed.

Lemma string_plain fuel out p c r :
  32 <= code c -> c <> QUOTE -> c <> BACKSLASH ->
  string_loop (S fuel) out (mkCursor p (String c r)) =
  string_loop fuel (out ++ String c EmptyString) (mkCursor (p + 1) r).
Proof.
  intros H1 H2 H3. cbn [string_loop rest position].
  destruct (ascii_dec c QUOTE); [done|]. rewrite (proj2 (Z.ltb_ge _ 32)) by done.
  by destruct (ascii_dec c BACKSLASH).
Qed.

Lemma string_short fuel out p x c r :
  short_escape x = Some c ->
  string_loop (S fuel) out (mkCursor p (String BACKSLASH (String x r))) =
  string_loop fuel (out ++ String c EmptyString) (mkCursor (p + 1 + 1) r).
Proof.
  intros H. cbn [string_loop rest position].
  destruct (ascii_dec BACKSLASH QUOTE); [done|]. destruct (ascii_dec BACKSLASH BACKSLASH); [|done].
  change (code BACKSLASH <? 32) with false. cbv iota. by rewrite escaped_char_eq, H.
Qed.

Lemma string_unicode fuel out p t u r q :
  parse_unicode_escape (mkCursor (p + 1 + 1) r) = Value (u, q) -> utf8 u = Some t ->
  string_loop (S fuel) out (mkCursor p (String BACKSLASH (String "u" r))) =
  string_loop fuel (out ++ t) q.
Proof.
  intros H Hu. cbn [string_loop rest position].
  destruct (ascii_dec BACKSLASH QUOTE); [done|]. destruct (ascii_dec BACKSLASH BACKSLASH); [|done].
  change (code BACKSLASH <? 32) with false. change (escaped_char "u") with (@None ascii). cbv iota.
  destruct (ascii_dec "u" "u"); [|done]. rewrite H. cbn [mbind exc_bind]. unfold append_utf8.
  by rewrite Hu.
Qed.

(** A string body is read as the text it denotes. *)
Lemma string_loop_app body s :
  json_text utf8 body s -> forall fuel out p r,
  (String.length body < fuel)%nat ->
  string_loop fuel out (mkCursor p (body ++ String QUOTE r)) =
  Value ((out ++ s)%string, mkCursor (p + strlen body + 1) r).
Proof.
  induction 1 as [|c e s H1 H2 H3 _ IH|x c e s Hx _ IH|h u t e s Hh H1 H2 Hu _ IH
    |h u l v t e s Hh H1 Hl H2 Hu _ IH]; intros [|fuel] out p r Hf; try (simpl in Hf; lia);
    cbn [append String.length] in *.
  - rewrite string_end, append_nil_r. do 2 f_equal. apply cursor_eq. change (strlen EmptyString) with 0. lia.
  - rewrite string_plain, IH, append_assoc by (done || lia). do 2 f_equal. apply cursor_eq.
    rewrite strlen_cons. lia.
  - rewrite (string_short _ _ _ _ c), IH, append_assoc by (done || lia). do 2 f_equal. apply cursor_eq.
    rewrite !strlen_cons. lia.
  - pose proof (proj1 (hex4_length h u Hh)) as Hlen.
    rewrite append_assoc, (string_unicode _ _ _ t u _ (mkCursor (p + 1 + 1 + 4) (e ++ String QUOTE r)))
      by (done || by apply parse_unit).
    rewrite IH, append_assoc; [|].
    + do 2 f_equal. apply cursor_eq. rewrite !strlen_cons, strlen_app. lia.
    + assert (Hlt : strlen (h ++ e) < Z.of_nat fuel) by (unfold strlen; lia).
      rewrite strlen_app in Hlt. unfold strlen in *. lia.
  - pose proof (proj1 (hex4_length h u Hh)) as Hlen. pose proof (proj1 (hex4_length l v Hl)) as Hlen'.
    rewrite append_assoc. cbn [append]. rewrite append_assoc.
    rewrite (string_unicode _ _ _ t (65536 + (u - 55296) * 1024 + (v - 56320)) _
      (mkCursor (p + 1 + 1 + 10) (e ++ String QUOTE r))) by (done || by apply parse_pair).
    rewrite IH, append_assoc; [|].
    + do 2 f_equal. apply cursor_eq. rewrite !strlen_cons, strlen_app, !strlen_cons, strlen_app. lia.
    + assert (Hlt : strlen (h ++ String BACKSLASH (String "u" (l ++ e))) < Z.of_nat fuel) by (unfold strlen; lia).
      rewrite strlen_app, !strlen_cons, strlen_app in Hlt. unfold strlen in *. lia.
Qed.

End Roundtrip.

(** ** Trees *)

Section Induction.
  Context (P : Json -> Prop) (Hnull : P JNull) (Hbool : forall b, P (JBool b)).
  Context (Hnumber : forall text, P (JNumber text)) (Hstring : forall s, P (JString s)).
  Context (Harray : forall values, Forall P values -> P (JArray values)).
  Context (Hobject : forall members, Forall (fun kv => P (snd kv)) members -> P (JObject members)).

Fixpoint Json_induction (v : Json) : P v :=
    match v with
    | JNull => Hnull
    | JBool b => Hbool b
    | JNumber text => Hnumber text
    | JString s => Hstring s
    | JArray values =>
        Harray values ((fix go l : Forall P l :=
          match l with [] => List.Forall_nil _ | v :: l => @List.Forall_cons _ P v l (Json_induction v) (go l) end)
          values)
    | JObject members =>
        Hobject members ((fix go l : Forall (fun kv => P (snd kv)) l :=
          match l with
          | [] => List.Forall_nil _
          | (k, v) :: l => @List.Forall_cons _ _ (k, v) l (Json_induction v) (go l)
          end) members)
    end.
End Induction.

(** Nesting of arrays and objects below the value. *)
Fixpoint depth (v : Json) : nat :=
  match v with
  | JArray values => foldr (fun n m => Nat.max (S n) m) O (map depth values)
  | JObject members => foldr (fun n m => Nat.max (S n) m) O (map (fun kv => depth (snd kv)) members)
  | _ => O
  end.

(** Numbers are numbers and no text holds a NUL byte. *)
Fixpoint printable (v : Json) : bool :=
  match v with
  | JNull | JBool _ => true
  | JNumber text => is_value (number text)
  | JString s => negb (has_char NUL s)
  | JArray values => forallb printable values
  | JObject members =>
      forallb (fun kv => negb (has_char NUL (fst kv)) && printable (snd kv)) members
  end.

Fixpoint insert_all {A} (acc members : list (string * A)) : option (list (string * A)) :=
  match members with
  | [] => Some acc
  | (k, v) :: members => acc ← emplace k v acc; insert_all acc members
  end.

(** The tree with the members of every object in the order of the map; [None]
    when an object has a key twice. *)
Fixpoint canonical (v : Json) : option Json :=
  match v with
  | JArray values =>
      JArray <$> (fix go l := match l with
                              | [] => Some []
                              | v :: l => w ← canonical v; ws ← go l; Some (w :: ws)
                              end) values
  | JObject members =>
      (fix go l := match l with
                   | [] => Some []
                   | (k, v) :: l => w ← canonical v; ws ← go l; Some ((k, w) :: ws)
                   end) members ≫= fun ws => JObject <$> insert_all [] ws
  | _ => Some v
  end.

(** ** Reading what was printed *)

Definition value_start (t : string) : bool :=
  negb (is_empty t) && negb (is_json_space (head_char t)) && negb (bool_decide (head_char t = "]"%char)).

Lemma skip_space_start t p r :
  value_start t = true -> skip_space (mkCursor p (t ++ r)) = mkCursor p (t ++ r).
Proof.
  unfold value_start. destruct t as [|c t]; [done|]. intros H. breflect. simpl in *.
  unfold skip_space. simpl. by rewrite H1.
Qed.

Lemma consume_other c t p r :
  t <> EmptyString -> head_char t <> c -> consume c (mkCursor p (t ++ r)) = None.
Proof. destruct t as [|d t]; [done|]. intros _ H. unfold consume. simpl in *. by destruct (ascii_dec d c). Qed.

Lemma value_start_not t : value_start t = true -> t <> EmptyString /\ head_char t <> "]"%char.
Proof.
  unfold value_start. intros H. breflect. apply bool_decide_eq_false in H0. by destruct t.
Qed.

Lemma comma_separated_cons t ts :
  ts <> [] -> comma_separated (t :: ts) = (t ++ String "," (comma_separated ts))%string.
Proof. by destruct ts. Qed.

Section Reading.
  Context {common : Infiltratr} {L : InfiltratrLaws common}.

(** [t] is read as [w] by a parser with more than [n] levels left. *)
Definition reads (n : nat) (w : Json) (t : string) : Prop :=
  value_start t = true /\
  forall p r levels, (n < levels)%nat -> number_stop r ->
    parse_value levels (mkCursor p (t ++ r)) = Value (w, mkCursor (p + strlen t) r).

Lemma reads_mono n m w t : (n <= m)%nat -> reads n w t -> reads m w t.
Proof. intros Hn [H1 H2]. split; [done|]. intros. apply H2; [lia|done]. Qed.

Lemma array_loop_reads levels n ws ts :
  Forall2 (reads n) ws ts -> (n < levels)%nat -> forall fuel acc p r,
  ws <> [] -> (length ws <= fuel)%nat ->
  array_loop (parse_value levels) fuel acc (mkCursor p (comma_separated ts ++ String "]" r)) =
  Value (acc ++ ws, mkCursor (p + strlen (comma_separated ts) + 1) r).
Proof.
  intros H Hn. induction H as [|w t ws ts [Ht Hw] Hr IH]; intros fuel acc p r Hne Hf; [done|].
  destruct fuel as [|fuel]; [simpl in Hf; lia|]. cbn [array_loop].
  destruct Hr as [|w' t' ws ts Hw' Hr].
  - cbn [comma_separated]. rewrite Hw by done. cbn [mbind exc_bind].
    change (skip_space (mkCursor (p + strlen t) (String "]" r)))
      with (mkCursor (p + strlen t) (String "]" r)).
    cbn [consume rest position]. by destruct (ascii_dec "]" "]").
  - rewrite comma_separated_cons, !append_assoc, Hw by done. cbn [mbind exc_bind append].
    set (tail := comma_separated (t' :: ts)) in *.
    change (skip_space (mkCursor (p + strlen t) (String "," (tail ++ String "]" r))))
      with (mkCursor (p + strlen t) (String "," (tail ++ String "]" r))).
    change (consume "]" (mkCursor (p + strlen t) (String "," (tail ++ String "]" r)))) with (@None cursor).
    change (consume "," (mkCursor (p + strlen t) (String "," (tail ++ String "]" r))))
      with (Some (mkCursor (p + strlen t + 1) (tail ++ String "]" r))). cbv iota beta.
    rewrite skip_space_start.
    + rewrite IH by (done || simpl in *; lia). rewrite <- app_assoc. cbn [app].
      do 2 f_equal. apply cursor_eq. rewrite strlen_app, strlen_cons. lia.
    + destruct Hw' as [Hw' _]. unfold tail. cbn [comma_separated].
      destruct Hr; [done|]. by destruct t'.
Qed.

(** The quoted [key] is read as the text [s]. *)
Definition reads_key (s key : string) : Prop :=
  (exists u, key = String QUOTE u) /\
  forall p r, parse_string (mkCursor p (key ++ r)) = Value (s, mkCursor (p + strlen key) r).

Lemma reads_key_text body s :
  json_text infiltratr_utf8_encode_codepoint body s ->
  reads_key s (String QUOTE (body ++ String QUOTE EmptyString)).
Proof.
  intros H. split; [by eexists|]. intros p r. cbn [append]. rewrite append_assoc. cbn [append].
  change (parse_string (mkCursor p (String QUOTE (body ++ String QUOTE r)))) with
    (string_loop (String.length (body ++ String QUOTE r)) EmptyString (mkCursor (p + 1) (body ++ String QUOTE r))).
  rewrite (string_loop_app body s H).
  - cbn [append]. do 2 f_equal. apply cursor_eq. rewrite strlen_cons, strlen_app.
    change (strlen (String QUOTE "")) with 1. lia.
  - assert (strlen body < strlen (body ++ String QUOTE r)); [|unfold strlen in *; lia].
    rewrite strlen_app, strlen_cons. pose proof (strlen_nonneg r). lia.
Qed.

(** What [quoted] prints is read back. *)
Lemma reads_key_quoted s key : has_char NUL s = false -> quoted s = Value key -> reads_key s key.
Proof.
  intros Hs. unfold quoted. rewrite cut_nul_none by done.
  destruct (infiltratr_escape_json s) as [e|] eqn:He; [|done]. intros [= <-].
  apply escape_json_spec in He; [|done]. by apply reads_key_text.
Qed.

(** Texts without special characters stand for themselves. *)
Definition plain_char (c : ascii) : bool :=
  (32 <=? code c) && negb (bool_decide (c = QUOTE)) && negb (bool_decide (c = BACKSLASH)).

Lemma reads_key_plain s :
  forall_char plain_char s = true -> reads_key s (String QUOTE (s ++ String QUOTE EmptyString)).
Proof.
  intros H. apply reads_key_text. induction s as [|c s IH]; simpl in H; [constructor|].
  apply andb_true_iff in H as [Hc H]. unfold plain_char in Hc. breflect.
  apply bool_decide_eq_false in H1, H2. constructor; auto.
Qed.

(** A member as it is printed. *)
Definition reads_member (n : nat) (kw : string * Json) (text : string) : Prop :=
  exists key t, text = (key ++ ":" ++ t)%string /\ reads_key (fst kw) key /\ reads n (snd kw) t.

Lemma member_head n kw text : reads_member n kw text -> exists t, text = String QUOTE t.
Proof. intros (key & t & -> & [[u ->] _] & _). simpl. eauto. Qed.

(** One round of the loop up to the value. *)
Lemma object_loop_member levels n kw text fuel acc acc' p r :
  reads_member n kw text -> (n < levels)%nat -> number_stop r ->
  emplace (fst kw) (snd kw) acc = Some acc' ->
  object_loop (parse_value levels) (S fuel) acc (mkCursor p (text ++ r)) =
  (let c := skip_space (mkCursor (p + strlen text) r) in
   match consume "}" c with
   | Some c => Value (acc', c)
   | None =>
       match consume "," c with
       | None => fail c "expected comma in object"
       | Some c => object_loop (parse_value levels) fuel acc' (skip_space c)
       end
   end).
Proof.
  intros (key & t & -> & [[u Hu] Hk] & [Ht Hw]) Hn Hr He. cbn [object_loop].
  rewrite !append_assoc. cbn [append].
  replace (head_char (rest (mkCursor p (key ++ String ":" (t ++ r))))) with QUOTE by (by rewrite Hu).
  rewrite bool_decide_true by done. rewrite Hk. cbn [mbind exc_bind].
  change (skip_space (mkCursor (p + strlen key) (String ":" (t ++ r))))
    with (mkCursor (p + strlen key) (String ":" (t ++ r))).
  change (consume ":" (mkCursor (p + strlen key) (String ":" (t ++ r))))
    with (Some (mkCursor (p + strlen key + 1) (t ++ r))). cbv iota beta.
  rewrite skip_space_start, Hw by done. cbn [mbind exc_bind]. rewrite He.
  replace (p + strlen (key ++ String ":" t)) with (p + strlen key + 1 + strlen t); [done|].
  rewrite strlen_app, strlen_cons. lia.
Qed.

Lemma object_loop_reads levels n kws ts :
  Forall2 (reads_member n) kws ts -> (n < levels)%nat -> forall fuel acc acc' p r,
  kws <> [] -> (length kws <= fuel)%nat -> insert_all acc kws = Some acc' ->
  object_loop (parse_value levels) fuel acc (mkCursor p (comma_separated ts ++ String "}" r)) =
  Value (acc', mkCursor (p + strlen (comma_separated ts) + 1) r).
Proof.
  intros H Hn. induction H as [|[k w] text kws ts Hm Hr IH]; intros fuel acc acc' p r Hne Hf Hi; [done|].
  destruct fuel as [|fuel]; [simpl in Hf; lia|].
  cbn [insert_all] in Hi. apply bind_Some in Hi as (acc1 & He & Hi).
  destruct Hr as [|kw' text' kws ts Hm' Hr].
  - injection Hi as <-. cbn [comma_separated]. by rewrite (object_loop_member levels n (k, w) text fuel acc acc1 p).
  - rewrite comma_separated_cons, !append_assoc by done. cbn [append].
    set (tail := comma_separated (text' :: ts)) in *.
    rewrite (object_loop_member levels n (k, w) text fuel acc acc1 p) by done. cbv zeta.
    change (skip_space (mkCursor (p + strlen text) (String "," (tail ++ String "}" r))))
      with (mkCursor (p + strlen text) (String "," (tail ++ String "}" r))).
    change (consume "}" (mkCursor (p + strlen text) (String "," (tail ++ String "}" r)))) with (@None cursor).
    change (consume "," (mkCursor (p + strlen text) (String "," (tail ++ String "}" r))))
      with (Some (mkCursor (p + strlen text + 1) (tail ++ String "}" r))). cbv iota beta.
    rewrite skip_space_start.
    + rewrite (IH fuel acc1 acc') by (done || simpl in *; lia).
      do 2 f_equal. apply cursor_eq. rewrite strlen_app, strlen_cons. lia.
    + apply member_head in Hm' as [u ->]. unfold tail. cbn [comma_separated]. by destruct Hr.
Qed.

End Reading.

Section Printed.
  Context {common : Infiltratr} {L : InfiltratrLaws common}.

Definition dump_member (kv : string * Json) : exc string :=
  key ← quoted (fst kv); t ← dump (snd kv); Value (key ++ ":" ++ t)%string.

Lemma dump_array values :
  dump (JArray values) = (texts ← mapM dump values; Value ("[" ++ comma_separated texts ++ "]")%string).
Proof.
  cbn [dump]. match goal with |- mbind _ (?g values) = _ =>
    assert (E : g values = mapM dump values); [|by rewrite E] end.
  induction values as [|v l IH]; [done|]. simpl. destruct (dump v); simpl; [|done]. by rewrite IH.
Qed.

Lemma dump_object members :
  dump (JObject members) =
  (texts ← mapM dump_member members; Value ("{" ++ comma_separated texts ++ "}")%string).
Proof.
  cbn [dump]. match goal with |- mbind _ (?g members) = _ =>
    assert (E : g members = mapM dump_member members); [|by rewrite E] end.
  induction members as [|[k v] l IH]; [done|]. cbn [mapM].
  change (dump_member (k, v)) with (key ← quoted k; t ← dump v; Value (key ++ ":" ++ t)%string).
  destruct (quoted k); cbn [mbind exc_bind]; [|done].
  destruct (dump v); cbn [mbind exc_bind]; [|done]. by rewrite IH.
Qed.

Definition canonical_member (kv : string * Json) : option (string * Json) :=
  w ← canonical (snd kv); Some (fst kv, w).

Lemma canonical_array values : canonical (JArray values) = JArray <$> mapM canonical values.
Proof.
  cbn [canonical]. match goal with |- _ <$> ?g values = _ =>
    assert (E : g values = mapM canonical values); [|by rewrite E] end.
  induction values as [|v l IH]; [done|]. cbn [mapM].
  destruct (canonical v); cbn [mbind option_bind]; [|done]. by rewrite IH.
Qed.

Lemma canonical_object members :
  canonical (JObject members) =
  (ws ← mapM canonical_member members; JObject <$> insert_all [] ws).
Proof.
  cbn [canonical]. match goal with |- mbind _ (?g members) = _ =>
    assert (E : g members = mapM canonical_member members); [|by rewrite E] end.
  induction members as [|[k v] l IH]; [done|]. cbn [mapM].
  change (canonical_member (k, v)) with (w ← canonical v; Some (k, w)).
  destruct (canonical v); cbn [mbind option_bind]; [|done]. by rewrite IH.
Qed.

(** The characters a number can start with lead to [parse_number]. *)
Definition number_start (d : ascii) : bool := bool_decide (d = "-"%char) || isdigit d.

Lemma number_start_head t : number_grammar t -> number_start (head_char t) = true.
Proof.
  intros [m i f e [-> | ->] Hi _ _]; [|done]. simpl.
  destruct Hi as [-> | (d & ds & -> & Hd & _)]; [done|]. unfold number_start. simpl.
  rewrite (proj2 (digit_range d)) by lia. apply orb_true_r.
Qed.

Lemma parse_value_number levels p d s :
  number_start d = true ->
  parse_value (S levels) (mkCursor p (String d s)) =
  ('(text, c) ← parse_number (mkCursor p (String d s)); value ← number text; Value (value, c)).
Proof.
  intros H. cbn [parse_value]. unfold skip_space. cbn [rest position skip_space_from].
  assert (Hs : is_json_space d = false).
  { destruct (is_json_space d) eqn:E; [|done]. unfold is_json_space in E.
    repeat (apply orb_true_iff in E as [E|E]); apply bool_decide_eq_true in E as ->; done. }
  rewrite Hs. cbn [rest].
  repeat match goal with
  | |- context [ascii_dec d ?x] => destruct (ascii_dec d x) as [->|_]; [done|]
  end.
  unfold number_start in H. by rewrite H.
Qed.

Lemma reads_number t : number_grammar t -> reads 0 (JNumber t) t.
Proof.
  intros Ht. pose proof (number_start_head t Ht) as Hd. split.
  - destruct t as [|d t]; [done|]. unfold value_start. simpl in *.
    destruct (is_json_space d) eqn:E.
    { unfold is_json_space in E. repeat (apply orb_true_iff in E as [E|E]);
      apply bool_decide_eq_true in E as ->; done. }
    simpl. case_bool_decide; [by subst|done].
  - intros p r [|levels] Hl Hr; [lia|]. pose proof (parse_number_app p t r Ht Hr) as Hp.
    destruct t as [|d t]; [done|]. cbn [append] in *. rewrite parse_value_number by done.
    rewrite Hp. cbn [mbind exc_bind]. by rewrite number_complete.
Qed.

Lemma reads_string s t :
  has_char NUL s = false -> quoted s = Value t -> reads 0 (JString s) t.
Proof.
  intros Hs Hq. destruct (reads_key_quoted s t Hs Hq) as [[u ->] Hp]. split; [done|].
  intros p r [|levels] Hl Hr; [lia|]. specialize (Hp p r). cbn [append] in *.
  change (parse_value (S levels) (mkCursor p (String QUOTE (u ++ r)))) with
    ('(s, c) ← parse_string (mkCursor p (String QUOTE (u ++ r))); Value (JString s, c)).
  by rewrite Hp.
Qed.

(** Every character of a list of texts is at least as much fuel as a text. *)
Lemma comma_separated_length ts :
  Forall (fun t => t <> EmptyString) ts -> (length ts <= String.length (comma_separated ts))%nat.
Proof.
  induction 1 as [|t ts Ht _ IH]; [done|]. destruct ts as [|t' ts].
  - simpl. destruct t; simpl; [done|lia].
  - rewrite comma_separated_cons by done.
    assert (strlen (comma_separated (t' :: ts)) < strlen (t ++ String "," (comma_separated (t' :: ts)))).
    { rewrite strlen_app, strlen_cons. pose proof (strlen_nonneg t). lia. }
    unfold strlen in *. simpl length in *. lia.
Qed.

Lemma fuel_enough ts c r :
  Forall (fun t => t <> EmptyString) ts ->
  (length ts <= S (String.length (comma_separated ts ++ String c r)))%nat.
Proof.
  intros H. apply comma_separated_length in H.
  assert (strlen (comma_separated ts) <= strlen (comma_separated ts ++ String c r)); [|unfold strlen in *; lia].
  rewrite strlen_app. pose proof (strlen_nonneg (String c r)). lia.
Qed.

Lemma reads_array n ws ts :
  Forall2 (reads n) ws ts -> reads (if is_null (head ws) then 0 else S n) (JArray ws)
    ("[" ++ comma_separated ts ++ "]").
Proof.
  intros H. split; [done|]. intros p r [|levels] Hl Hr; [lia|].
  cbn [append]. rewrite append_assoc. cbn [append].
  change (parse_value (S levels) (mkCursor p (String "[" (comma_separated ts ++ String "]" r)))) with
    ('(values, c) ← parse_array (parse_value levels)
       (mkCursor p (String "[" (comma_separated ts ++ String "]" r))); Value (JArray values, c)).
  unfold parse_array.
  change (consume "[" (mkCursor p (String "[" (comma_separated ts ++ String "]" r)))) with
    (Some (mkCursor (p + 1) (comma_separated ts ++ String "]" r))). cbv iota beta zeta.
  destruct H as [|w t ws ts Hw Hws].
  - cbn [comma_separated append].
    change (skip_space (mkCursor (p + 1) (String "]" r))) with (mkCursor (p + 1) (String "]" r)).
    change (consume "]" (mkCursor (p + 1) (String "]" r))) with (Some (mkCursor (p + 1 + 1) r)).
    cbn [mbind exc_bind]. do 2 f_equal. apply cursor_eq. change (strlen "[]") with 2. lia.
  - assert (Hst : value_start (comma_separated (t :: ts)) = true).
    { destruct Hw as [Hw _]. cbn [comma_separated]. destruct ts; [done|]. by destruct t. }
    rewrite skip_space_start by done. apply value_start_not in Hst as [H1 H2].
    rewrite consume_other by done.
    rewrite (array_loop_reads levels n (w :: ws) (t :: ts)).
    + cbn [mbind exc_bind app]. do 2 f_equal. apply cursor_eq. rewrite strlen_cons, strlen_app.
      change (strlen "]") with 1. lia.
    + by constructor.
    + simpl in Hl. lia.
    + done.
    + cbn [rest]. pose proof (Forall2_length Hws) as Hlen. change (length (w :: ws)) with (S (length ws)).
      rewrite Hlen. change (S (length ts)) with (length (t :: ts)). apply fuel_enough.
      constructor; [by apply value_start_not; apply Hw|].
      eapply Forall2_Forall_r; [exact Hws|]. apply List.Forall_forall. intros x _ y [Hy _].
      by apply value_start_not.
Qed.

Lemma reads_object n kws ws ts :
  Forall2 (reads_member n) kws ts -> insert_all [] kws = Some ws ->
  reads (if is_null (head kws) then 0 else S n) (JObject ws) ("{" ++ comma_separated ts ++ "}").
Proof.
  intros H Hi. split; [done|]. intros p r [|levels] Hl Hr; [lia|].
  cbn [append]. rewrite append_assoc. cbn [append].
  change (parse_value (S levels) (mkCursor p (String "{" (comma_separated ts ++ String "}" r)))) with
    ('(members, c) ← parse_object (parse_value levels)
       (mkCursor p (String "{" (comma_separated ts ++ String "}" r))); Value (JObject members, c)).
  unfold parse_object.
  change (consume "{" (mkCursor p (String "{" (comma_separated ts ++ String "}" r)))) with
    (Some (mkCursor (p + 1) (comma_separated ts ++ String "}" r))). cbv iota beta zeta.
  destruct H as [|kw t kws ts Hw Hws].
  - injection Hi as <-. cbn [comma_separated append].
    change (skip_space (mkCursor (p + 1) (String "}" r))) with (mkCursor (p + 1) (String "}" r)).
    change (consume "}" (mkCursor (p + 1) (String "}" r))) with (Some (mkCursor (p + 1 + 1) r)).
    cbn [mbind exc_bind]. do 2 f_equal. apply cursor_eq. change (strlen "{}") with 2. lia.
  - assert (exists u, comma_separated (t :: ts) = String QUOTE u) as [u Hu].
    { destruct (member_head _ _ _ Hw) as [v ->]. cbn [comma_separated]. destruct ts; simpl; eauto. }
    replace (skip_space (mkCursor (p + 1) (comma_separated (t :: ts) ++ String "}" r)))
      with (mkCursor (p + 1) (comma_separated (t :: ts) ++ String "}" r)) by (by rewrite Hu).
    rewrite consume_other by (by rewrite Hu).
    rewrite (object_loop_reads levels n (kw :: kws) (t :: ts)) with (acc' := ws); [..|done].
    + cbn [mbind exc_bind app]. do 2 f_equal. apply cursor_eq. rewrite strlen_cons, strlen_app.
      change (strlen "}") with 1. lia.
    + by constructor.
    + simpl in Hl. lia.
    + done.
    + cbn [rest]. pose proof (Forall2_length Hws) as Hlen. change (length (kw :: kws)) with (S (length kws)).
      rewrite Hlen. change (S (length ts)) with (length (t :: ts)). apply fuel_enough.
      constructor; [by apply member_head in Hw as [? ->]|].
      eapply Forall2_Forall_r; [exact Hws|]. apply List.Forall_forall. intros x _ y Hy.
      by apply member_head in Hy as [? ->].
Qed.

End Printed.

(** ** Well-formed values

    What a [Json] built by the parser satisfies: numbers in the grammar, keys
    in strictly increasing order. *)

Definition before (k k' : string) : bool :=
  match String.compare k k' with Lt => true | _ => false end.

Fixpoint keys_sorted (keys : list string) : bool :=
  match keys with [] => true | k :: keys => forallb (before k) keys && keys_sorted keys end.

Fixpoint well_formed (v : Json) : bool :=
  match v with
  | JNumber text => is_value (number text)
  | JArray values => forallb well_formed values
  | JObject members =>
      keys_sorted (map fst members) && forallb (fun kv => well_formed (snd kv)) members
  | _ => true
  end.

Lemma before_lt k k' : before k k' = true <-> string_lt k k'.
Proof. unfold before, string_lt. by destruct (String.compare k k'). Qed.

Lemma emplace_last {A} k (v : A) acc :
  Forall (fun kv => before (fst kv) k = true) acc -> emplace k v acc = Some (acc ++ [(k, v)]).
Proof.
  induction 1 as [|[k' v'] acc Hk _ IH]; [done|]. simpl in *.
  apply before_lt, string_compare_gt in Hk. by rewrite Hk, IH.
Qed.

Lemma insert_all_sorted {A} (members acc : list (string * A)) :
  Forall (fun kv => forallb (before (fst kv)) (map fst members) = true) acc ->
  keys_sorted (map fst members) = true -> insert_all acc members = Some (acc ++ members).
Proof.
  revert acc. induction members as [|[k v] members IH]; intros acc Hacc Hs.
  { simpl. by rewrite app_nil_r. }
  simpl in *. apply andb_true_iff in Hs as [Hk Hs].
  rewrite emplace_last.
  2:{ revert Hacc. apply List.Forall_impl. intros kv H. by apply andb_true_iff in H as [? _]. }
  cbn [mbind option_bind]. rewrite IH, <- app_assoc; [done| |done].
  apply Forall_app. split; [|by repeat constructor].
  revert Hacc. apply List.Forall_impl. intros kv H. by apply andb_true_iff in H as [_ ?].
Qed.

(** Emplacing keeps the order and the properties of the members. *)
Lemma emplace_keys {A} (P : string * A -> Prop) k v acc acc' :
  emplace k v acc = Some acc' -> keys_sorted (map fst acc) = true -> Forall P acc -> P (k, v) ->
  keys_sorted (map fst acc') = true /\ Forall P acc' /\
  forall k0, forallb (before k0) (map fst acc') = true <->
             before k0 k = true /\ forallb (before k0) (map fst acc) = true.
Proof.
  revert acc'. induction acc as [|[k' v'] acc IH]; intros acc' H Hs HP Hk; simpl in H.
  { injection H as <-. split_and!; [done|by repeat constructor|]. intros k0. simpl.
    rewrite andb_true_r. intuition. }
  simpl in Hs. apply andb_true_iff in Hs as [Hk' Hs].
  destruct (String.compare k k') eqn:Hc; [done| |].
  - injection H as <-. split_and!; [|by constructor|].
    + simpl. rewrite Hk', Hs. unfold before at 1. rewrite Hc. simpl. rewrite andb_true_r.
      rewrite forallb_forall in Hk' |- *. intros x Hx. apply before_lt.
      eapply string_lt_trans; [exact Hc|]. by apply before_lt, Hk'.
    + intros k0. simpl. rewrite andb_true_iff. done.
  - destruct (emplace k v acc) as [acc1|] eqn:He; [|done]. injection H as <-.
    apply Forall_cons_iff in HP as [HP1 HP2]. destruct (IH acc1 eq_refl Hs HP2 Hk) as (H1 & H2 & H3).
    split_and!; [|by constructor|].
    + simpl. rewrite H1, andb_true_r. apply H3. split; [|done]. by apply before_lt, string_compare_gt.
    + intros k0. simpl. rewrite !andb_true_iff, H3. intuition.
Qed.

(** [canonical] leaves a well-formed value alone. *)
Lemma canonical_id v : well_formed v = true -> canonical v = Some v.
Proof.
  induction v as [| | | |values IH|members IH] using Json_induction; intros H; try done.
  - rewrite canonical_array. simpl in H. rewrite forallb_forall in H.
    rewrite (proj2 (mapM_Some _ _ values)); [done|]. apply Forall_Forall2_diag.
    revert IH. rewrite !List.Forall_forall. intros IH x Hx. apply IH; [done|]. by apply H.
  - rewrite canonical_object. simpl in H. apply andb_true_iff in H as [Hk H]. rewrite forallb_forall in H.
    rewrite (proj2 (mapM_Some _ _ members)).
    + cbn [mbind option_bind]. by rewrite insert_all_sorted.
    + apply Forall_Forall2_diag. revert IH. rewrite !List.Forall_forall. intros IH [k v] Hx.
      unfold canonical_member. by rewrite (IH (k, v) Hx (H (k, v) Hx)).
Qed.

Lemma depth_array values v : In v values -> (S (depth v) <= depth (JArray values))%nat.
Proof.
  cbn [depth]. induction values as [|v' l IH]; simpl; [done|]. intros [->|H]; [lia|].
  specialize (IH H). lia.
Qed.

Lemma depth_object members kv : In kv members -> (S (depth (snd kv)) <= depth (JObject members))%nat.
Proof.
  cbn [depth]. induction members as [|kv' l IH]; simpl; [done|]. intros [->|H]; [lia|].
  specialize (IH H). lia.
Qed.

Lemma Forall2_join {A B C} (P : A -> B -> Prop) (Q : A -> C -> Prop) (R : B -> C -> Prop) l k k' :
  Forall2 P l k -> Forall2 Q l k' -> (forall x y z, In x l -> P x y -> Q x z -> R y z) -> Forall2 R k k'.
Proof.
  intros H. revert k'. induction H as [|x y l k Hx _ IH]; intros k' H' HR.
  - inversion H'. constructor.
  - inversion H'; subst. constructor; [by eapply HR; [left| |]|]. apply IH; [done|]. intros. eapply HR; eauto.
    by right.
Qed.

Section Theorems.
  Context {common : Infiltratr} {L : InfiltratrLaws common}.

Lemma reads_word word w n :
  value_start word = true -> strlen word = Z.of_nat n ->
  (forall p r levels, parse_value (S levels) (mkCursor p (word ++ r)) =
     Value (w, mkCursor (Nat.iter n (fun q => q + 1) p) r)) ->
  reads 0 w word.
Proof.
  intros Hs Hn H. split; [done|]. intros p r [|levels] Hl _; [lia|]. rewrite H. do 2 f_equal.
  apply cursor_eq. rewrite Hn. clear. induction n as [|n IH]; simpl Nat.iter; lia.
Qed.

Lemma printed_reads v :
  printable v = true -> forall t w, dump v = Value t -> canonical v = Some w -> reads (depth v) w t.
Proof.
  induction v as [|b|text|s|values IH|members IH] using Json_induction; intros Hp t w Hd Hc.
  - injection Hd as <-. injection Hc as <-. apply (reads_word "null" JNull 4); [done..|]. by intros.
  - injection Hd as <-. injection Hc as <-.
    destruct b; [apply (reads_word "true" _ 4)|apply (reads_word "false" _ 5)]; (done || by intros).
  - injection Hd as <-. injection Hc as <-. apply reads_number. simpl in Hp.
    destruct (number text) eqn:E; [|done]. by apply number_value in E as [_ ?].
  - injection Hc as <-. apply reads_string; [|done]. simpl in Hp. by apply negb_true_iff in Hp.
  - rewrite dump_array in Hd. apply bind_value in Hd as (ts & Hts & [= <-]).
    rewrite canonical_array in Hc. apply fmap_Some in Hc as (ws & Hws & ->).
    apply mapM_value in Hts. apply mapM_Some in Hws. simpl in Hp. rewrite forallb_forall in Hp.
    eapply reads_mono; [|apply (reads_array (pred (depth (JArray values))))].
    + destruct Hws as [|v w' vs ws Hv]; simpl; [lia|]. cbn [depth map foldr]. lia.
    + eapply Forall2_join; [exact Hws|exact Hts|]. intros v w' t' Hin Hw Ht.
      rewrite List.Forall_forall in IH. eapply reads_mono; [|by eapply IH; [|apply Hp| |]].
      pose proof (depth_array values v Hin). lia.
  - rewrite dump_object in Hd. apply bind_value in Hd as (ts & Hts & [= <-]).
    rewrite canonical_object in Hc. apply bind_Some in Hc as (kws & Hkws & Hc).
    apply fmap_Some in Hc as (ws & Hws & ->).
    apply mapM_value in Hts. apply mapM_Some in Hkws. simpl in Hp. rewrite forallb_forall in Hp.
    eapply reads_mono; [|apply (reads_object (pred (depth (JObject members))) kws); [|done]].
    + destruct Hkws as [|kv kw kvs kws Hv]; simpl; [lia|]. cbn [depth map foldr]. lia.
    + eapply Forall2_join; [exact Hkws|exact Hts|]. intros kv kw t' Hin Hw Ht.
      unfold canonical_member in Hw. apply bind_Some in Hw as (w & Hw & [= <-]).
      unfold dump_member in Ht. apply bind_value in Ht as (key & Hkey & Ht).
      apply bind_value in Ht as (tv & Htv & [= <-]).
      specialize (Hp kv Hin). apply andb_true_iff in Hp as [Hk Hp]. apply negb_true_iff in Hk.
      exists key, tv. split_and!; [done|by apply reads_key_quoted|]. cbn [snd].
      rewrite List.Forall_forall in IH. eapply reads_mono; [|by eapply IH].
      pose proof (depth_object members kv Hin). lia.
Qed.

Lemma parse_reads n w t : reads n w t -> (n < kLevels)%nat -> parse t = Value w.
Proof.
  intros [Hs Hr] Hn. unfold parse. rewrite <- (append_nil_r t). rewrite skip_space_start, Hr by done. done.
Qed.

(** The same with a line end behind it. *)
Lemma parse_reads_line n w t : reads n w t -> (n < kLevels)%nat -> parse (t ++ String LF EmptyString) = Value w.
Proof.
  intros [Hs Hr] Hn. unfold parse. rewrite skip_space_start, Hr by done. done.
Qed.

End Theorems.

(** ** Progress of the parser

    [steps c Q p]: [p], started at [c], moves on and gives a result in [Q], or
    throws an exception of the code. *)

Definition left (c : cursor) : nat := String.length (rest c).

Definition steps {A} (c : cursor) (Q : A -> Prop) (p : exc (A * cursor)) : Prop :=
  match p with
  | Value (a, c') => (left c' < left c)%nat /\ Q a
  | Throw w => w <> EmptyString
  end.

Lemma steps_bind {A B} c Q R (p : exc (A * cursor)) (f : A * cursor -> exc (B * cursor)) :
  steps c Q p -> (forall a c', Q a -> (left c' < left c)%nat -> steps c R (f (a, c'))) ->
  steps c R (p ≫= f).
Proof. destruct p as [[a c']|w]; simpl; [intros [? ?]; auto|done]. Qed.

Lemma steps_from {A} c c' (Q : A -> Prop) p : (left c' <= left c)%nat -> steps c' Q p -> steps c Q p.
Proof. intros H. destruct p as [[a d]|w]; simpl; [|done]. intros [? ?]. split; [lia|done]. Qed.

Lemma steps_fail {A} c (Q : A -> Prop) d m : steps c Q (fail d m).
Proof. done. Qed.

Lemma skip_space_left c : (left (skip_space c) <= left c)%nat.
Proof.
  unfold skip_space, left. destruct c as [p s]. simpl. revert p. induction s as [|d s IH]; intros p; simpl; [lia|].
  destruct (is_json_space d); simpl; [|lia]. specialize (IH (p + 1)). lia.
Qed.

Lemma consume_left v c c' : consume v c = Some c' -> (left c' < left c)%nat.
Proof.
  unfold consume, left. destruct (rest c) as [|d s]; [done|]. destruct (ascii_dec d v); [|done].
  intros [= <-]. simpl. lia.
Qed.

Lemma literal_left v word c : steps c (fun _ : Json => True) (c ← literal (String v word) c; Value (JNull, c)).
Proof.
  unfold literal. destruct (literal_from _ c) as [c'|] eqn:E; [|done]. split; [|done].
  simpl in E. destruct (consume v c) as [c1|] eqn:E1; [|done]. apply consume_left in E1.
  assert (left c' <= left c1)%nat; [|lia]. clear -E. revert c1 E.
  induction word as [|d word IH]; intros c1 E; simpl in E; [injection E as <-; lia|].
  destruct (consume d c1) as [c2|] eqn:E2; [|done]. apply consume_left in E2. specialize (IH c2 E). lia.
Qed.

Lemma literal_steps v word c (x : Json) (Q : Json -> Prop) :
  Q x -> steps c Q (c ← literal (String v word) c; Value (x, c)).
Proof.
  intros HQ. pose proof (literal_left v word c) as H. destruct (literal _ c) as [c'|w]; simpl in *; [|done].
  destruct H. done.
Qed.

Lemma hex4_left n v c :
  match hex4_loop n v c with
  | Value (_, c') => (left c' + n = left c)%nat
  | Throw w => w <> EmptyString
  end.
Proof.
  revert v c. induction n as [|n IH]; intros v c; simpl; [lia|].
  destruct (rest c) as [|h r] eqn:E; [done|]. destruct (hex_digit h <? 0); [done|].
  specialize (IH (Z.lor (u32 (Z.shiftl v 4)) (hex_digit h)) (mkCursor (position c + 1) r)).
  destruct (hex4_loop n _ _) as [[u c']|w]; [|done]. unfold left in *. rewrite E. simpl in *. lia.
Qed.

Lemma parse_hex4_steps c : steps c (fun _ => True) (parse_hex4 c).
Proof.
  unfold parse_hex4. destruct (_ <? 4); [done|]. pose proof (hex4_left 4 0 c) as H.
  destruct (hex4_loop 4 0 c) as [[u c']|w]; [|done]. split; [lia|done].
Qed.

Lemma parse_unicode_steps c : steps c (fun _ => True) (parse_unicode_escape c).
Proof.
  unfold parse_unicode_escape. eapply steps_bind; [apply parse_hex4_steps|].
  intros u c1 _ H1. cbn beta iota. destruct (_ && _).
  - destruct (consume BACKSLASH c1 ≫= consume "u") as [c2|] eqn:E; [|done].
    apply bind_Some in E as (c3 & E3 & E2). apply consume_left in E3, E2.
    eapply steps_bind; [eapply (steps_from _ c2); [lia|apply parse_hex4_steps]|].
    intros l c4 _ H4. cbn beta iota. destruct (_ || _); [done|]. by split.
  - destruct (_ && _); [done|]. by split.
Qed.

Section Progress.
  Context {common : Infiltratr}.

Lemma string_loop_steps fuel out c :
  (left c <= fuel)%nat -> steps c (fun _ => True) (string_loop fuel out c).
Proof.
  revert out c. induction fuel as [|fuel IH]; intros out c Hf; unfold left in Hf; cbn [string_loop];
    destruct (rest c) as [|v r] eqn:E; try done; simpl in Hf; [lia|].
  assert (Hlt : forall p, (left (mkCursor p r) < left c)%nat) by (intros; unfold left; rewrite E; simpl; lia).
  destruct (ascii_dec v QUOTE); [by split|].
  destruct (code v <? 32); [done|]. destruct (ascii_dec v BACKSLASH).
  - cbn [rest position]. destruct r as [|x r]; [done|].
    assert (Hlt' : forall p, (left (mkCursor p r) < left c)%nat)
      by (intros; unfold left; rewrite E; simpl; lia). simpl in Hf.
    destruct (escaped_char x).
    + eapply steps_from; [|apply IH; unfold left; simpl; lia]. specialize (Hlt' (position c + 1 + 1)). lia.
    + destruct (ascii_dec x "u"); [|done]. eapply steps_bind.
      { eapply steps_from; [|apply parse_unicode_steps]. specialize (Hlt' (position c + 1 + 1)). lia. }
      intros u c1 _ H1. cbn beta iota. unfold append_utf8.
      destruct (infiltratr_utf8_encode_codepoint u); [|done]. cbn [mbind exc_bind].
      apply (steps_from _ c1); [lia|]. apply IH. unfold left in *. rewrite E in H1. simpl in H1. lia.
  - eapply steps_from; [|apply IH; unfold left; simpl; lia]. specialize (Hlt (position c + 1)). lia.
Qed.

Lemma parse_string_steps c : steps c (fun _ => True) (parse_string c).
Proof.
  unfold parse_string. destruct (consume QUOTE c) as [c'|] eqn:E; [|done]. apply consume_left in E.
  eapply steps_from; [|by apply string_loop_steps]. lia.
Qed.

Section Values.
  Context (parse_value : cursor -> exc (Json * cursor)) (Q : Json -> Prop).
  Context (Hvalue : forall c, steps c Q (parse_value c)).

Lemma array_loop_steps fuel acc c :
  (left c < fuel)%nat -> Forall Q acc -> steps c (Forall Q) (array_loop parse_value fuel acc c).
Proof.
  revert acc c. induction fuel as [|fuel IH]; intros acc c Hf Hacc; [lia|]. cbn [array_loop].
  eapply steps_bind; [apply Hvalue|]. intros v c1 Hv H1. cbv beta iota zeta.
  assert (Forall Q (acc ++ [v])) by (apply Forall_app; split; [done|by constructor]).
  pose proof (skip_space_left c1). destruct (consume "]" _) as [c2|] eqn:E2.
  { apply consume_left in E2. split; [lia|done]. }
  destruct (consume "," _) as [c3|] eqn:E3; [|done]. apply consume_left in E3.
  pose proof (skip_space_left c3). eapply (steps_from _ (skip_space c3)); [lia|]. apply IH; [lia|done].
Qed.

Lemma parse_array_steps c : steps c (Forall Q) (parse_array parse_value c).
Proof.
  unfold parse_array. destruct (consume "[" c) as [c1|] eqn:E1; [|done]. apply consume_left in E1.
  cbv zeta. pose proof (skip_space_left c1). destruct (consume "]" _) as [c2|] eqn:E2.
  { apply consume_left in E2. split; [lia|constructor]. }
  eapply (steps_from _ (skip_space c1)); [lia|]. apply array_loop_steps; [unfold left; lia|constructor].
Qed.

Definition members_ok (members : list (string * Json)) : Prop :=
  keys_sorted (map fst members) = true /\ Forall (fun kv => Q (snd kv)) members.

Lemma object_loop_steps fuel acc c :
  (left c < fuel)%nat -> members_ok acc -> steps c members_ok (object_loop parse_value fuel acc c).
Proof.
  revert acc c. induction fuel as [|fuel IH]; intros acc c Hf [Hs Hacc]; [lia|]. cbn [object_loop].
  destruct (bool_decide _); [|done].
  eapply steps_bind; [apply parse_string_steps|]. intros k c1 _ H1. cbv beta iota zeta.
  pose proof (skip_space_left c1). destruct (consume ":" _) as [c2|] eqn:E2; [|done].
  apply consume_left in E2. pose proof (skip_space_left c2).
  eapply steps_bind; [eapply (steps_from _ (skip_space c2)); [lia|apply Hvalue]|].
  intros v c3 Hv H3. cbv beta iota zeta. destruct (emplace k v acc) as [acc'|] eqn:Ha; [|done].
  destruct (emplace_keys (fun kv => Q (snd kv)) k v acc acc' Ha Hs Hacc Hv) as (Hs' & Hacc' & _).
  pose proof (skip_space_left c3). destruct (consume "}" _) as [c4|] eqn:E4.
  { apply consume_left in E4. split; [lia|by split]. }
  destruct (consume "," _) as [c5|] eqn:E5; [|done]. apply consume_left in E5.
  pose proof (skip_space_left c5). eapply (steps_from _ (skip_space c5)); [lia|]. apply IH; [lia|by split].
Qed.

Lemma parse_object_steps c : steps c members_ok (parse_object parse_value c).
Proof.
  unfold parse_object. destruct (consume "{" c) as [c1|] eqn:E1; [|done]. apply consume_left in E1.
  cbv zeta. pose proof (skip_space_left c1). destruct (consume "}" _) as [c2|] eqn:E2.
  { apply consume_left in E2. split; [lia|by split]. }
  eapply (steps_from _ (skip_space c1)); [lia|]. apply object_loop_steps; [unfold left; lia|by split].
Qed.

End Values.

Lemma parse_number_steps c : steps c number_grammar (parse_number c).
Proof.
  destruct c as [p s]. pose proof (parse_number_eq p s) as H. destruct (number_end s) as [r|].
  - destruct H as (t & -> & Ht & ->). split; [|done]. unfold left. simpl.
    assert (strlen r < strlen (t ++ r)); [|unfold strlen in *; lia]. rewrite strlen_app.
    destruct t as [|d t]; [|rewrite strlen_cons; pose proof (strlen_nonneg t); lia].
    by apply number_start_head in Ht.
  - destruct H as (w & -> & Hw). done.
Qed.

(** What the parser of a nesting level gives. *)
Definition parsed (levels : nat) (v : Json) : Prop :=
  well_formed v = true /\ (depth v < levels)%nat.

Lemma forallb_Forall {A} (f : A -> bool) l : Forall (fun x => f x = true) l -> forallb f l = true.
Proof. rewrite List.Forall_forall, forallb_forall. done. Qed.

Lemma parsed_array levels vs : Forall (parsed levels) vs -> parsed (S levels) (JArray vs).
Proof.
  intros H. split.
  - apply forallb_Forall. revert H. apply List.Forall_impl. by intros v [? _].
  - cbn [depth]. induction H as [|v vs [_ Hv] _ IH]; simpl; lia.
Qed.

Lemma parsed_object levels ms : members_ok (parsed levels) ms -> parsed (S levels) (JObject ms).
Proof.
  intros [Hs H]. split.
  - simpl. rewrite Hs. apply forallb_Forall. revert H. apply List.Forall_impl. by intros v [? _].
  - cbn [depth]. clear Hs. induction H as [|v vs [_ Hv] _ IH]; simpl; lia.
Qed.

Lemma parse_value_steps levels c : steps c (parsed levels) (parse_value levels c).
Proof.
  revert c. induction levels as [|levels IH]; intros c; [done|]. cbn [parse_value]. cbv zeta.
  eapply (steps_from _ (skip_space c)); [apply skip_space_left|]. destruct (rest (skip_space c)) as [|d s]; [done|].
  assert (Hb : forall v, well_formed v = true -> depth v = O -> parsed (S levels) v)
    by (intros v H1 H2; split; [done|lia]).
  destruct (ascii_dec d "n"); [by apply literal_steps, Hb|].
  destruct (ascii_dec d "t"); [by apply literal_steps, Hb|].
  destruct (ascii_dec d "f"); [by apply literal_steps, Hb|].
  destruct (ascii_dec d QUOTE).
  { eapply steps_bind; [apply parse_string_steps|]. intros s' c' _ H. by split; [|apply Hb]. }
  destruct (ascii_dec d "[").
  { eapply steps_bind; [by apply parse_array_steps|]. intros vs c' Hvs H. by split; [|apply parsed_array]. }
  destruct (ascii_dec d "{").
  { eapply steps_bind; [by apply parse_object_steps|]. intros vs c' Hvs H. by split; [|apply parsed_object]. }
  destruct (_ || _); [|done].
  eapply steps_bind; [apply parse_number_steps|]. intros t c' Ht H. cbn beta iota.
  rewrite number_complete by done. split; [done|]. apply Hb; [|done]. cbn [well_formed].
  by rewrite number_complete.
Qed.

End Progress.

(** ** Integers *)

Lemma digit_cases c : isdigit c = true -> exists k, 0 <= k < 10 /\ c = chr (48 + k).
Proof.
  intros H. apply digit_range in H. exists (code c - 48). split; [lia|].
  rewrite <- (chr_code c) at 1. f_equal. lia.
Qed.

Lemma digits_uint s : forall_char isdigit s = true -> exists u, s = NilEmpty.string_of_uint u.
Proof.
  induction s as [|c s IH]; simpl; intros H; [by exists Decimal.Nil|].
  apply andb_true_iff in H as [Hc H]. destruct (IH H) as [u ->].
  apply digit_cases in Hc as (k & Hk & ->).
  assert (k = 0 \/ k = 1 \/ k = 2 \/ k = 3 \/ k = 4 \/ k = 5 \/ k = 6 \/ k = 7 \/ k = 8 \/ k = 9)
    as Hks by lia.
  destruct Hks as [-> | [-> | [-> | [-> | [-> | [-> | [-> | [-> | [-> | ->]]]]]]]]];
    [exists (Decimal.D0 u)|exists (Decimal.D1 u)|exists (Decimal.D2 u)|exists (Decimal.D3 u)
    |exists (Decimal.D4 u)|exists (Decimal.D5 u)|exists (Decimal.D6 u)|exists (Decimal.D7 u)
    |exists (Decimal.D8 u)|exists (Decimal.D9 u)]; reflexivity.
Qed.

(** Digits without a needless zero are the decimal form of their value. *)
Lemma utoa_decimal s : integer_part s -> utoa (decimal_value s) = s.
Proof.
  intros [-> | (d & ds & -> & Hd & Hds)]; [done|].
  destruct (digits_uint (String d ds)) as [u Hu].
  { simpl. rewrite Hds, (proj2 (digit_range d)) by lia. done. }
  rewrite Hu, decimal_value_uint. unfold utoa.
  replace (Z.to_N (Z.of_N (Pos.of_uint u))) with (N.of_uint u) by (rewrite N2Z.id; done).
  rewrite DecimalN.Unsigned.to_of. assert (Hn : Decimal.unorm u = u).
  { destruct u as [|u|u|u|u|u|u|u|u|u|u]; try done. simpl in Hu. injection Hu as -> _.
    change (code "0") with 48 in Hd. lia. }
  rewrite Hn. unfold NilZero.string_of_uint. by destruct u.
Qed.

Lemma decimal_value_nonneg s : forall_char isdigit s = true -> 0 <= decimal_value s.
Proof.
  intros H. destruct (digits_uint s H) as [u ->]. rewrite decimal_value_uint. lia.
Qed.

(** A number that is digits only has no fraction and no exponent. *)
Lemma integer_part_digits i f e :
  integer_part i -> fraction_part f -> exponent_part e ->
  forall_char isdigit (i ++ f ++ e) = true -> integer_part (i ++ f ++ e).
Proof.
  intros Hi Hf He. rewrite !forall_char_app. intros H. breflect.
  destruct Hf as [-> | (ds & -> & _)]; [|done].
  destruct He as [-> | (x & sg & ds & -> & Hx & _)]; [by rewrite !append_nil_r|].
  simpl in *. breflect. unfold is_exponent in Hx.
  apply orb_true_iff in Hx as [Hx|Hx]; apply bool_decide_eq_true in Hx as ->; done.
Qed.

Lemma all_digits s d :
  leading_digits s = (d, EmptyString) -> s = d /\ forall_char isdigit s = true.
Proof.
  intros H. pose proof (leading_digits_spec s) as Hs. rewrite H in Hs. destruct Hs as (-> & Hd & _).
  by rewrite append_nil_r.
Qed.


Lemma leading_digits_utoa n : leading_digits (utoa n) = (utoa n, EmptyString).
Proof.
  rewrite <- (append_nil_r (utoa n)) at 1. apply leading_digits_app; [apply utoa_digits|done].
Qed.

Lemma from_chars_unsigned_iff t n :
  number_grammar t -> from_chars_unsigned t = Some n <-> is_u64 n /\ t = utoa n.
Proof.
  intros Ht. unfold from_chars_unsigned. split.
  - destruct (leading_digits t) as [d r] eqn:E. destruct (is_empty d || negb (is_empty r)) eqn:Hd; [done|].
    destruct (UINT64_MAX <? decimal_value d) eqn:Hr; [done|]. cbn [orb]. intros [= <-].
    apply orb_false_iff in Hd as [Hd Hr']. destruct r; [|done]. apply all_digits in E as [-> Hall]. breflect.
    pose proof (decimal_value_nonneg d Hall). split; [unfold is_u64; lia|].
    destruct Ht as [m i f e Hm Hi Hf He]. destruct Hm as [-> | ->]; [|done]. cbn [append] in *.
    symmetry. apply utoa_decimal. by apply integer_part_digits.
  - intros [Hn ->]. unfold is_u64 in Hn. rewrite leading_digits_utoa, decimal_value_utoa by lia.
    rewrite (proj2 (Z.ltb_ge _ n)) by lia. destruct (utoa n) eqn:E; [|done].
    by apply utoa_nonempty in E.
Qed.

Lemma from_chars_signed_iff t n :
  number_grammar t ->
  from_chars_signed t = Some n <->
  - INT64_MAX - 1 <= n <= INT64_MAX /\ (t = itoa n \/ t = "-0"%string /\ n = 0).
Proof.
  intros Ht. unfold from_chars_signed. split.
  - destruct (leading_digits (number_minus t)) as [d r] eqn:E.
    destruct (is_empty d || negb (is_empty r)) eqn:Hd; [done|]. cbn [orb].
    set (v := if bool_decide _ then _ else _). destruct ((INT64_MAX <? v) || (v <? - INT64_MAX - 1)) eqn:Hr; [done|].
    intros [= <-]. apply orb_false_iff in Hd as [Hd Hr']. destruct r; [|done].
    apply all_digits in E as [E Hall]. breflect. split; [lia|].
    destruct Ht as [m i f e Hm Hi Hf He]. rewrite number_minus_app in E, Hall by (done || by apply integer_head).
    subst d. pose proof (utoa_decimal _ (integer_part_digits i f e Hi Hf He Hall)) as Hu.
    pose proof (decimal_value_nonneg _ Hall) as Hnn. subst v. unfold itoa. destruct Hm as [-> | ->].
    + cbn [append] in *. rewrite (bool_decide_false (head_char _ = _)) by (by apply integer_head).
      left. rewrite (proj2 (Z.ltb_ge _ 0)) by lia. done.
    + cbn [append head_char]. rewrite bool_decide_true by done.
      destruct (Z.eq_dec (decimal_value (i ++ f ++ e)) 0) as [Hz|Hz].
      * right. rewrite <- Hu, Hz. done.
      * left. rewrite (proj2 (Z.ltb_lt _ 0)), Z.opp_involutive, Hu by lia. done.
  - intros [Hn [-> | [-> ->]]]; [|done]. unfold itoa. destruct (Z.ltb_spec n 0).
    + cbn [number_minus head_char]. destruct (ascii_dec "-" "-"); [|done]. rewrite bool_decide_true by done.
      rewrite leading_digits_utoa, decimal_value_utoa, Z.opp_involutive by lia.
      rewrite (proj2 (Z.ltb_ge _ n)), (proj2 (Z.ltb_ge n _)) by lia.
      destruct (utoa (- n)) eqn:E; [|done]. by apply utoa_nonempty in E.
    + pose proof (utoa_head_digit n) as Hh.
      assert (Hm : head_char (utoa n) <> "-"%char) by (intros E; by rewrite E in Hh).
      pose proof (number_minus_app "" (utoa n) (or_introl eq_refl) Hm) as E. cbn [append] in E. rewrite E.
      clear E.
      rewrite bool_decide_false by done. rewrite leading_digits_utoa, decimal_value_utoa by lia.
      rewrite (proj2 (Z.ltb_ge _ n)), (proj2 (Z.ltb_ge n _)) by lia.
      destruct (utoa n) eqn:E; [|done]. by apply utoa_nonempty in E.
Qed.

Lemma unorm_zero d x : Decimal.unorm d = Decimal.D0 x -> x = Decimal.Nil.
Proof. unfold Decimal.unorm. induction d; simpl; try congruence. exact IHd. Qed.

(** The decimal form of a number is a JSON number. *)
Lemma utoa_number k : number_grammar (utoa k).
Proof.
  assert (H : integer_part (utoa k)).
  { pose proof (utoa_digits k) as Hd. pose proof (utoa_head_digit k) as Hh. unfold utoa, NilZero.string_of_uint in *.
    set (u := N.to_uint (Z.to_N k)) in *. assert (Hu : Decimal.unorm u = u).
    { unfold u. rewrite <- DecimalN.Unsigned.to_of. by rewrite DecimalN.Unsigned.of_to. }
    destruct u as [|u|u|u|u|u|u|u|u|u|u]; [by left|by left; rewrite (unorm_zero _ _ Hu)|..];
      right; (eexists _, _; split; [reflexivity|]); (split; [vm_compute; split; discriminate|]);
      simpl in Hd; exact Hd. }
  rewrite <- (append_nil_r (utoa k)). change (number_grammar ("" ++ utoa k ++ "" ++ "")).
  constructor; [by left|done|by left|by left].
Qed.

(** ** Properties *)

(** [Json::number] accepts exactly the numbers of RFC 8259, and keeps their
    text. *)
Theorem number_iff_grammar t v : number t = Value v <-> v = JNumber t /\ number_grammar t.
Proof. split; [apply number_value|]. intros [-> H]. by apply number_complete. Qed.

(** C6: [Json::parse] always answers (the fuel of its loops is enough, and its
    exceptions are the ones the code throws), and a value it gives is well formed
    (numbers in the grammar, the keys of every object strictly increasing) and
    nested at most 64 deep. *)
Theorem parse_total_well_formed {common : Infiltratr} text :
  match parse text with
  | Value v => well_formed v = true /\ (depth v <= 64)%nat
  | Throw w => w <> EmptyString
  end.
Proof.
  unfold parse. pose proof (parse_value_steps kLevels (skip_space (mkCursor 0 text))) as H.
  destruct (parse_value kLevels _) as [[v c]|w]; [|done]. cbn [mbind exc_bind steps] in *.
  destruct (is_empty _); [|done]. destruct H as (_ & H1 & H2). unfold kLevels in H2. split; [done|lia].
Qed.

(** What is printed is read back in canonical form. *)
Lemma canonical_read {common : Infiltratr} {L : InfiltratrLaws common} v w t :
  printable v = true -> (depth v <= 64)%nat -> dump v = Value t -> canonical v = Some w -> parse t = Value w.
Proof. intros Hp Hd Ht Hw. apply (parse_reads (depth v)); [by apply printed_reads|unfold kLevels; lia]. Qed.

(** C5: what [dump] prints, [parse] reads back: a value whose texts hold no NUL
    byte and that is nested at most 64 deep gives its canonical form (the members
    of each object sorted, no key twice), which is the value itself when it is
    well formed, as every parsed value is. *)
Theorem parse_dump {common : Infiltratr} {L : InfiltratrLaws common} v w t :
  printable v = true -> (depth v <= 64)%nat -> dump v = Value t ->
  (canonical v = Some w -> parse t = Value w) /\
  (well_formed v = true -> parse t = Value v).
Proof.
  intros Hp Hd Ht. split; [by apply (canonical_read v)|]. intros Hv. by apply (canonical_read v), canonical_id.
Qed.

(** The integer accessors: [unsigned_value] gives [n] exactly when the number
    is written as the decimal of a 64-bit [n], [integer_value] exactly when it is
    that of a signed 64-bit [n] or a negative zero; fractions, exponents and
    overflow throw. *)
Theorem integer_accessors_exact t n :
  number_grammar t ->
  (unsigned_value (JNumber t) = Value n <-> is_u64 n /\ t = utoa n) /\
  (integer_value (JNumber t) = Value n <->
   - INT64_MAX - 1 <= n <= INT64_MAX /\ (t = itoa n \/ t = "-0"%string /\ n = 0)).
Proof.
  intros Ht. rewrite <- from_chars_unsigned_iff, <- from_chars_signed_iff by done.
  unfold unsigned_value, integer_value. cbn [number_text mbind exc_bind]. split.
  - destruct (from_chars_unsigned t); split; congruence.
  - destruct (from_chars_signed t); split; congruence.
Qed.

(** ** Witnesses *)

Definition sample : Json :=
  JObject [("name", JString "ext4"); ("cells", JArray [JNumber "1"; JNumber "-2.5e+3"; JNull]);
           ("ok", JBool true)]%string.

Lemma parse_dump_witness :
  exists t, dump (common := infiltratr_reference) sample = Value t /\
    parse (common := infiltratr_reference) t =
      Value (JObject [("cells", JArray [JNumber "1"; JNumber "-2.5e+3"; JNull]);
                      ("name", JString "ext4"); ("ok", JBool true)]%string).
Proof.
  eexists. split; [vm_compute; reflexivity|].
  apply (parse_dump (L := infiltratr_reference_laws) sample); [vm_compute; reflexivity|simpl; lia| |];
    vm_compute; reflexivity.
Defined.

Lemma integer_accessors_exact_witness :
  number_grammar "-42" /\ integer_value (JNumber "-42") = Value (-42).
Proof.
  assert (H : number_grammar "-42") by (apply (number_value "-42" (JNumber "-42")); vm_compute; reflexivity).
  split; [exact H|]. apply (integer_accessors_exact "-42" (-42) H).
  split; [lia|left; vm_compute; reflexivity].
Defined.

(** A text with a NUL byte, which the parser builds from [\u0000], is printed
    up to the byte; two keys that differ after it are printed as one, which the
    parser refuses. *)
Lemma dump_cuts_at_nul :
  let v := JObject [(String "a" (String NUL "b"), JNull); (String "a" (String NUL "c"), JNull)]%string in
  exists t, dump (common := infiltratr_reference) v = Value t /\
    well_formed v = true /\ is_value (parse (common := infiltratr_reference) t) = false.
Proof. eexists. split; [vm_compute; reflexivity|]. split; vm_compute; reflexivity. Qed.
