(* ===== verification/Runtime.v ===== *)
(** The format registry and program resolution of [native/runtime.cpp]. *)
From S2P Require Import Prelude Effects CString Infiltratr Exceptions.

(** ** Data *)

Definition CAP_ANALYSE : Z := 1.
Definition CAP_MAP : Z := 2.
Definition CAP_DEFRAG : Z := 4.
Definition CAP_RECOVER : Z := 8.
Definition CAP_LIVE_MAP : Z := 16.
Definition CAP_GROWTH_DEFRAG : Z := 32.

Record OperationSpec := mkOperation {
  op_name : string;
  op_worker : string;
  layout_policy : string;
  op_label : string;
  description : string;
  warning : string;
  default_options : list string;
  unsupported_options : list string;
  raw_offline : bool;
  live_updates : bool;
}.

Inductive MapAdapter := NativeMap | Affs | Exfat | Ext | Fat | HfsPlus | Ntfs | Xfs.
Inductive QualificationMode := QualifyNone | WorkerPreflight | MapOrWorkerPreflight.

#[export] Instance MapAdapter_eq_dec : EqDecision MapAdapter.
Proof. solve_decision. Defined.
#[export] Instance QualificationMode_eq_dec : EqDecision QualificationMode.
Proof. solve_decision. Defined.
#[export] Instance OperationSpec_eq_dec : EqDecision OperationSpec.
Proof. solve_decision. Defined.

Record BackendInfo := mkBackend {
  id : string;
  display_name : string;
  aliases : list string;
  capabilities : Z;
  map_accuracy : string;
  worker : string;
  map_adapter : MapAdapter;
  operations : list OperationSpec;
  qualification_mode : QualificationMode;
  map_auxiliary_worker : string;
  accepted_map_accuracies : list string;
}.

#[export] Instance BackendInfo_eq_dec : EqDecision BackendInfo.
Proof. solve_decision. Defined.

(** ** Operations of a backend *)

Definition worker_default_options (worker operation_name : string) : list string :=
  if String.eqb operation_name "recover" then []
  else if String.eqb worker "fat-native" || String.eqb worker "exfat-native" then
    ["--batch-clusters"; "4096"; "--ram-buffer"; "auto"]
  else if String.eqb worker "ext-native" then ["--batch-clusters"; "4096"]
  else [].

Definition operation (name worker warning : string) : exc OperationSpec :=
  '(policy, label, description) ←
    (if String.eqb name "defrag" then
       Value ("packed", "Defragment", "Rewrite the unmounted filesystem directly so files and directories are contiguous and every relocatable allocation is packed into the earliest legal allocation units.")
     else if String.eqb name "growth-defrag" then
       Value ("growth-10", "Growth Defrag", "Apply the same packed contiguous layout while reserving 10% of each regular file's allocated length immediately after that file.")
     else if String.eqb name "recover" then
       Value ("recovery", "Recover", "Complete or roll back an interrupted raw-device journal transaction.")
     else Throw "invalid operation declaration")%string;
  Value (mkOperation name worker policy label description warning
    (worker_default_options worker name) [] true true).

Definition standard_write_ops (worker defrag_warning growth_warning : string) : exc (list OperationSpec) :=
  d ← operation "defrag" worker defrag_warning;
  g ← operation "growth-defrag" worker growth_warning;
  r ← operation "recover" worker "";
  Value [d; g; r].

Definition lower_ascii (text : string) : string := map_char tolower text.

(** ** Programs *)

Record ProgramSpec := mkProgram {
  program_id : string;
  environment : string;
  installed : string;
  build_name : string;
}.

Definition kPrograms : list ProgramSpec :=
  [mkProgram "hfsplus-native" "DEFRAGMENTER_HFSPLUS_WORKER"
     "/System/Commands/Defragmenter/hfsplus/defragmenter-hfsplus-worker" "defragmenter-hfsplus-worker";
   mkProgram "hfs-native" "DEFRAGMENTER_HFS_ANALYSER"
     "/System/Commands/Defragmenter/hfs/hfs_analyser" "hfs_analyser";
   mkProgram "affs-native" "DEFRAGMENTER_AFFS_WORKER"
     "/System/Commands/Defragmenter/affs/defragmenter-affs-worker" "defragmenter-affs-worker";
   mkProgram "btrfs-native" "DEFRAGMENTER_BTRFS_WORKER"
     "/System/Commands/Defragmenter/btrfs/defragmenter-btrfs-worker" "defragmenter-btrfs-worker";
   mkProgram "fat-native" "DEFRAGMENTER_FAT_WORKER"
     "/System/Commands/Defragmenter/fat/defragmenter-fat-worker" "defragmenter-fat-worker";
   mkProgram "exfat-native" "DEFRAGMENTER_EXFAT_WORKER"
     "/System/Commands/Defragmenter/exfat/defragmenter-exfat-worker" "defragmenter-exfat-worker";
   mkProgram "ntfs-native" "DEFRAGMENTER_NTFS_WORKER"
     "/System/Commands/Defragmenter/ntfs/defragmenter-ntfs-worker" "defragmenter-ntfs-worker";
   mkProgram "ext-native" "DEFRAGMENTER_EXT_WORKER"
     "/System/Commands/Defragmenter/ext4/defragmenter-ext-worker" "defragmenter-ext-worker";
   mkProgram "ext-metadata" "DEFRAGMENTER_EXT_METADATA_WORKER"
     "/System/Commands/Defragmenter/ext4/ext-metadata-worker" "ext-metadata-worker";
   mkProgram "xfs-native" "DEFRAGMENTER_XFS_WORKER"
     "/System/Commands/Defragmenter/xfs/defragmenter-xfs-worker" "defragmenter-xfs-worker";
   mkProgram "apfs-native" "DEFRAGMENTER_APFS_WORKER"
     "/System/Commands/Defragmenter/apfs/defragmenter-apfs-worker" "defragmenter-apfs-worker";
   mkProgram "minix-native" "DEFRAGMENTER_MINIX_WORKER"
     "/System/Commands/Defragmenter/minix/defragmenter-minix-worker" "defragmenter-minix-worker";
   mkProgram "sfs-native" "DEFRAGMENTER_SFS_WORKER"
     "/System/Commands/Defragmenter/sfs/defragmenter-sfs-worker" "defragmenter-sfs-worker";
   mkProgram "pfs3-native" "DEFRAGMENTER_PFS3_WORKER"
     "/System/Commands/Defragmenter/pfs3/defragmenter-pfs3-worker" "defragmenter-pfs3-worker";
   mkProgram "swap-native" "DEFRAGMENTER_SWAP_WORKER"
     "/System/Commands/Defragmenter/swap/defragmenter-swap-worker" "defragmenter-swap-worker";
   mkProgram "ufs-native" "DEFRAGMENTER_UFS_WORKER"
     "/System/Commands/Defragmenter/ufs/defragmenter-ufs-worker" "defragmenter-ufs-worker";
   mkProgram "zfs-native" "DEFRAGMENTER_ZFS_WORKER"
     "/System/Commands/Defragmenter/zfs/defragmenter-zfs-worker" "defragmenter-zfs-worker";
   mkProgram "mapper" "DEFRAGMENTER_MAPPER"
     "/System/Commands/Defragmenter/defragmenter-mapper" "defragmenter-mapper";
   mkProgram "operation-engine" "DEFRAGMENTER_OPERATION_ENGINE"
     "/System/Commands/Defragmenter/defragmenter-operation-engine" "defragmenter-operation-engine";
   mkProgram "helper" "DEFRAGMENTER_HELPER"
     "/System/Commands/Defragmenter/defragmenter-privileged-helper" "defragmenter-privileged-helper";
   mkProgram "test-media" "DEFRAGMENTER_TEST_MEDIA"
     "/Programs/defragmenter-test-media" "defragmenter-test-media"].

Definition program_spec (id : string) : option ProgramSpec :=
  List.find (fun item => String.eqb id (program_id item)) kPrograms.

(** ** The registry *)

Definition read_capabilities : Z := Z.lor CAP_ANALYSE CAP_MAP.
Definition write_capabilities : Z :=
  Z.lor (Z.lor (Z.lor (Z.lor read_capabilities CAP_DEFRAG) CAP_RECOVER) CAP_LIVE_MAP)
    CAP_GROWTH_DEFRAG.

Definition writer (id display_name : string) (aliases : list string) (map_accuracy worker : string)
    (adapter : MapAdapter) (defrag_warning growth_warning : string) (mode : QualificationMode)
    (auxiliary : string) (accuracies : list string) : exc BackendInfo :=
  operations ← standard_write_ops worker defrag_warning growth_warning;
  Value (mkBackend id display_name aliases write_capabilities map_accuracy worker adapter operations
    mode auxiliary accuracies).

Definition reader (id display_name : string) (aliases : list string) (map_accuracy worker : string)
    (accuracies : list string) : exc BackendInfo :=
  Value (mkBackend id display_name aliases read_capabilities map_accuracy worker NativeMap []
    QualifyNone "" accuracies).

(** One iteration of the loop over 12, 16 and 32. *)
Definition fat_backend (bits : Z) : exc BackendInfo :=
  let id := ("fat" ++ utoa bits)%string in
  writer id ("FAT" ++ utoa bits) [id; if bits =? 32 then "vfat" else ("msdos" ++ utoa bits)%string]
    "exact" "fat-native" Fat "" "" QualifyNone "" [].

Definition registry_entries : list (exc BackendInfo) :=
  [writer "affs" "Amiga OFS/FFS" ["affs"; "amiga"; "ofs"; "ffs"; "dostype"] "exact" "affs-native" Affs
     "Amiga OFS/FFS writing runs in the independently installed OFS.so or FFS.so; Defragmenter hosts the verified module only."
     "Amiga Growth Defrag runs in OFS.so or FFS.so and reserves 10% free blocks after each supported regular file."
     QualifyNone "" [];
   writer "apfs" "Apple APFS" ["apfs"] "exact-bounded-spaceman" "apfs-native" NativeMap
     "APFS writing is offline and fail-closed to the qualified one-CIB, unencrypted, snapshot-free flat-tree subset; validated older descriptor-ring checkpoint history is retained unchanged."
     "APFS Growth Defrag leaves an exact 10% free-block reserve after each supported regular-file data stream."
     WorkerPreflight "" [];
   writer "btrfs" "Btrfs" ["btrfs"] "exact" "btrfs-native" NativeMap
     "Btrfs writing is offline and fail-closed to the qualified single-device, CRC32C, level-0 mixed data/metadata subset, including relocation and verification of ordinary checksum-tree-protected regular-file extents."
     "Btrfs Growth Defrag leaves an exact 10% free-sector reserve after each supported regular file."
     WorkerPreflight "" ["exact-single-device"];
   writer "exfat" "exFAT" ["exfat"] "exact" "exfat-native" Exfat
     "exFAT writing is dispatched to the independently installed exFAT.so; the application has no private exFAT parser, allocator or journal."
     "exFAT Growth Defrag runs in exFAT.so and reserves 10% free clusters after each regular file."
     QualifyNone "" [];
   writer "ext2" "EXT2" ["ext2"] "exact" "ext-native" Ext "" "" WorkerPreflight "ext-metadata" [];
   writer "ext3" "EXT3" ["ext3"] "exact" "ext-native" Ext "" "" WorkerPreflight "ext-metadata" [];
   writer "ext4" "EXT4" ["ext4"] "exact" "ext-native" Ext "" "" WorkerPreflight "ext-metadata" [];
   fat_backend 12; fat_backend 16; fat_backend 32;
   writer "hfs" "Apple HFS" ["hfs"] "exact" "hfs-native" NativeMap
     "Classic HFS writing runs in HFS.so and relocates supported regular-file forks while preserving validated B-tree topology."
     "Classic HFS Growth Defrag leaves a 10% free allocation-block reserve after each supported non-empty file fork."
     WorkerPreflight "" [];
   writer "hfsplus" "Apple HFS+/HFSX" ["hfsplus"; "hfs+"; "hfsx"] "exact" "hfsplus-native" HfsPlus
     "HFS+/HFSX writing runs in the independently installed HFSPLUS.so module."
     "HFS+/HFSX Growth Defrag runs in HFSPLUS.so and reserves 10% free allocation blocks after each supported fork."
     WorkerPreflight "" [];
   writer "minix" "Minix Filesystem" ["minix"; "minix2"; "minix3"] "exact" "minix-native" NativeMap
     "Minix filesystem writing runs in the independently installed MINIX.so module."
     "Minix Growth Defrag leaves an exact 10% free-zone reserve after every regular file."
     QualifyNone "" [];
   writer "ntfs" "NTFS" ["ntfs"; "ntfs3"] "exact" "ntfs-native" Ntfs
     "NTFS writing runs in NTFS.so using offline raw I/O. No kernel filesystem mount, filesystem ioctl or external repair utility is used."
     "NTFS Growth Defrag runs in NTFS.so and reserves 10% free clusters after each supported regular-file stream."
     MapOrWorkerPreflight "" [];
   writer "pfs3" "Amiga PFS3" ["pfs3"; "pfs"; "professionalfilesystem"] "exact-allocation" "pfs3-native"
     NativeMap
     "Amiga PFS3 writing runs in PFS3.so, validates supported directories and links, and fails closed on unsupported entries or layouts."
     "PFS3 Growth Defrag leaves an exact 10% free-block reserve after every supported regular file."
     QualifyNone "" [];
   writer "sfs" "Amiga SFS" ["sfs"; "sfs0"; "sfs2"; "smartfilesystem"] "exact-allocation" "sfs-native"
     NativeMap
     "Amiga SFS0/SFS2 writing runs in the independently installed SFS.so module."
     "SFS0/SFS2 Growth Defrag leaves an exact 10% free-block reserve after every regular file."
     QualifyNone "" [];
   reader "swap" "Linux Swap" ["swap"; "swapspace"; "linux-swap"] "summary" "swap-native"
     ["summary"; "exact"];
   writer "ufs" "Solaris/BSD UFS" ["ufs"; "ufs1"; "ufs2"; "4.2bsd"] "exact" "ufs-native" NativeMap
     "UFS1/UFS2 writing runs in its matching UFS1.so or UFS2.so and fails closed on unsupported filesystem states or allocation layouts."
     "UFS Growth Defrag runs in the selected UFS.so engine and reserves 10% free fragments after each supported regular file."
     WorkerPreflight "" ["summary"; "exact-allocation"; "exact"];
   writer "xfs" "XFS" ["xfs"] "exact" "xfs-native" Xfs
     "XFS writing runs in XFS.so using offline raw I/O. No kernel filesystem mount, filesystem ioctl or external repair utility is used."
     "XFS Growth Defrag runs in XFS.so, requires staging space, and reserves 10% free extents after each supported regular file."
     WorkerPreflight "" [];
   reader "zfs" "ZFS/OpenZFS Member" ["zfs"; "zfs_member"] "exact-bounded" "zfs-native"
     ["summary"; "exact"]].

(** *** Validation *)

Definition string_in (s : string) (l : list string) : bool := existsb (String.eqb s) l.

Fixpoint check_accuracies (backend_id : string) (seen accuracies : list string) : exc unit :=
  match accuracies with
  | [] => Value tt
  | accuracy :: rest =>
      throw_if (is_empty accuracy)
        ("backend " ++ backend_id ++ " contains an empty accepted map accuracy")%string ≫= fun _ =>
      throw_if (string_in accuracy seen)
        ("backend " ++ backend_id ++ " repeats accepted map accuracy: " ++ accuracy)%string ≫= fun _ =>
      check_accuracies backend_id (seen ++ [accuracy]) rest
  end.

Fixpoint check_aliases (backend_id primary_name : string) (names aliases : list string) :
    exc (list string) :=
  match aliases with
  | [] => Value names
  | raw_alias :: rest =>
      throw_if (is_empty raw_alias) ("backend " ++ backend_id ++ " contains an empty alias")%string
        ≫= fun _ =>
      let alias := lower_ascii raw_alias in
      if String.eqb alias primary_name then check_aliases backend_id primary_name names rest
      else
        throw_if (string_in alias names) ("backend registry contains colliding alias: " ++ alias)%string
          ≫= fun _ =>
        check_aliases backend_id primary_name (names ++ [alias]) rest
  end.

Fixpoint check_operations (backend_id : string) (operations : list OperationSpec) : exc unit :=
  match operations with
  | [] => Value tt
  | operation :: rest =>
      throw_if (is_null (program_spec (op_worker operation)))
        ("backend " ++ backend_id ++ " operation " ++ op_name operation ++
         " names an unknown worker: " ++ op_worker operation)%string ≫= fun _ =>
      throw_if (existsb is_empty (default_options operation))
        ("backend " ++ backend_id ++ " operation " ++ op_name operation ++
         " contains an empty default option")%string ≫= fun _ =>
      check_operations backend_id rest
  end.

Definition has_capability (backend : BackendInfo) (bit : Z) : bool :=
  negb (Z.land (capabilities backend) bit =? 0).

(** One round of the loop: the names collected so far, extended. *)
Definition check_backend (names : list string) (backend : BackendInfo) : exc (list string) :=
  let writable := has_capability backend CAP_DEFRAG in
  throw_if (is_empty (id backend)) "backend registry contains an empty id" ≫= fun _ =>
  throw_if (is_empty (map_accuracy backend))
    ("backend " ++ id backend ++ " has no map accuracy contract")%string ≫= fun _ =>
  throw_if (is_null (program_spec (worker backend)))
    ("backend " ++ id backend ++ " names an unknown worker: " ++ worker backend)%string ≫= fun _ =>
  throw_if (negb (is_empty (map_auxiliary_worker backend)) &&
            is_null (program_spec (map_auxiliary_worker backend)))
    ("backend " ++ id backend ++ " names an unknown map auxiliary worker: " ++
     map_auxiliary_worker backend)%string ≫= fun _ =>
  check_accuracies (id backend) [] (accepted_map_accuracies backend) ≫= fun _ =>
  throw_if (negb (Bool.eqb writable (negb (is_null (head (operations backend))))))
    ("backend " ++ id backend ++ " has inconsistent mutation capabilities and operations")%string
    ≫= fun _ =>
  throw_if (negb writable && negb (bool_decide (qualification_mode backend = QualifyNone)))
    ("read-only backend " ++ id backend ++ " declares mutation qualification policy")%string ≫= fun _ =>
  let primary_name := lower_ascii (id backend) in
  throw_if (string_in primary_name names)
    ("backend registry contains duplicate id: " ++ primary_name)%string ≫= fun _ =>
  names ← check_aliases (id backend) primary_name (names ++ [primary_name]) (aliases backend);
  check_operations (id backend) (operations backend) ≫= fun _ => Value names.

Fixpoint check_backends (names : list string) (registry : list BackendInfo) : exc unit :=
  match registry with
  | [] => Value tt
  | backend :: rest => names ← check_backend names backend; check_backends names rest
  end.

Definition validate_backend_registry (registry : list BackendInfo) : exc unit :=
  check_backends [] registry.

Fixpoint sequence {A} (l : list (exc A)) : exc (list A) :=
  match l with [] => Value [] | p :: l => a ← p; l ← sequence l; Value (a :: l) end.

(** The static initialiser of [backend_registry]. *)
Definition backend_registry : exc (list BackendInfo) :=
  result ← sequence registry_entries;
  validate_backend_registry result ≫= fun _ => Value result.

(** Its value; that it has one is [backend_registry_valid]. *)
Definition registry : list BackendInfo := value_or backend_registry [].

(** *** Lookup *)

Definition names_key (key : string) (backend : BackendInfo) : bool :=
  String.eqb (lower_ascii (id backend)) key ||
  existsb (fun alias => String.eqb (lower_ascii alias) key) (aliases backend).

Definition backend_by_fstype_in (registry : list BackendInfo) (filesystem : string) : option BackendInfo :=
  List.find (names_key (lower_ascii filesystem)) registry.

Definition backend_by_fstype (filesystem : string) : option BackendInfo :=
  backend_by_fstype_in registry filesystem.

Definition operation_for (backend : BackendInfo) (operation_name : string) : option OperationSpec :=
  List.find (fun item => String.eqb (op_name item) operation_name) (operations backend).

Definition backend_accepts_map_accuracy (backend : BackendInfo) (accuracy : string) : bool :=
  match accepted_map_accuracies backend with
  | [] => String.eqb accuracy (map_accuracy backend)
  | l => string_in accuracy l
  end.

(** ** Options *)

(** [token] is [option] or starts with [option=]. *)
Definition blocks (token option : string) : bool :=
  String.eqb token option || String.prefix (option ++ "=") token.

(** The loop of [without_options]; the argument after a blocked option is
    dropped with it unless it is empty or starts with a dash. *)
Fixpoint filter_options (unsupported arguments : list string) : list string :=
  match arguments with
  | [] => []
  | token :: rest =>
      if existsb (blocks token) unsupported then
        match rest with
        | next :: rest' =>
            if negb (is_empty next) && negb (String.prefix "-" next)
            then filter_options unsupported rest'
            else filter_options unsupported rest
        | [] => []
        end
      else token :: filter_options unsupported rest
  end.

Definition without_options (arguments unsupported : list string) : list string :=
  match unsupported with [] => arguments | _ => filter_options unsupported arguments end.

(** ** Program resolution *)

Inductive runtimeE : Type -> Type :=
| RuntimeGetenv (name : string) : runtimeE (option string)
(** [readlink("/proc/self/exe")] into 4095 bytes; [None] when it is not positive. *)
| ReadSelfExe : runtimeE (option string)
(** [fs::is_regular_file] and [access(X_OK)]. *)
| ExecutableFile (path : string) : runtimeE bool.

(** The directory part of a path text, the root for a name below it. *)
Fixpoint strip_slashes (s : string) : string :=
  match s with
  | EmptyString => EmptyString
  | String c s =>
      let r := strip_slashes s in
      if is_empty r && bool_decide (c = "/"%char) then EmptyString else String c r
  end.

Definition parent_text (path : string) : string :=
  match rsplit_char "/" path with
  | None => EmptyString
  | Some (directory, _) => if is_empty (strip_slashes directory) then "/" else strip_slashes directory
  end.

(** [fs::path / name] for a relative name. *)
Definition append_path (directory name : string) : string :=
  match rsplit_char "/" directory with
  | Some (_, EmptyString) => (directory ++ name)%string
  | _ => (directory ++ "/" ++ name)%string
  end.

Definition executable_directory : prog runtimeE string :=
  let* exe := call ReadSelfExe in
  Ret (match exe with Some path => parent_text (cut_nul path) | None => EmptyString end).

(** The first candidate that is an executable regular file. *)
Fixpoint first_executable (candidates : list string) : prog runtimeE (option string) :=
  match candidates with
  | [] => Ret None
  | candidate :: rest =>
      let* (found : bool) := call (ExecutableFile candidate) in
      if found then Ret (Some candidate) else first_executable rest
  end.

(** Joining with a comma, as the loop over [checked] does. *)
Definition checked_text (candidates : list string) : string :=
  foldl (fun checked candidate =>
    ((if is_empty checked then checked else (checked ++ ", ")) ++ candidate)%string) EmptyString candidates.

Definition override_candidate (spec : ProgramSpec) (program : string) (allow_environment_override : bool) :
    prog runtimeE (list string) :=
  if allow_environment_override && negb (String.eqb program "helper") then
    let* value := call (RuntimeGetenv (environment spec)) in
    Ret (match value with
         | Some path => if is_empty path then [] else [path]
         | None => []
         end)
  else Ret [].

Definition installed_candidates (spec : ProgramSpec) (directory : string) : list string :=
  (if is_empty directory then [] else [append_path directory (build_name spec)]) ++ [installed spec].

Definition resolve_program (program : string) (allow_environment_override : bool) :
    prog runtimeE (exc string) :=
  match program_spec program with
  | None => Ret (Throw ("unknown Defragmenter program: " ++ program)%string)
  | Some spec =>
      let* overridden := override_candidate spec program allow_environment_override in
      let* directory := executable_directory in
      let candidates := overridden ++ installed_candidates spec directory in
      let* found := first_executable candidates in
      Ret (match found with
           | Some path => Value path
           | None =>
               Throw ("could not locate " ++ program ++ "; checked: " ++ checked_text candidates)%string
           end)
  end.


(** ** Names of the registry *)

(** The names a backend answers to, in lower case. *)
Definition lower_names (backend : BackendInfo) : list string :=
  map lower_ascii (id backend :: aliases backend).

Lemma string_in_iff s l : string_in s l = true <-> In s l.
Proof.
  unfold string_in. rewrite existsb_exists. split.
  - intros (x & Hx & E). by apply String.eqb_eq in E as ->.
  - intros H. exists s. by rewrite String.eqb_refl.
Qed.

Lemma string_in_false s l : string_in s l = false <-> ~ In s l.
Proof. rewrite <- string_in_iff. by destruct (string_in s l). Qed.

Lemma names_key_iff key backend : names_key key backend = true <-> In key (lower_names backend).
Proof.
  unfold names_key, lower_names. simpl. rewrite orb_true_iff, String.eqb_eq, existsb_exists, in_map_iff.
  split; (intros [H|(x & H1 & H2)]; [by left|right; exists x]).
  - by apply String.eqb_eq in H2.
  - by rewrite H1, String.eqb_refl.
Qed.

Lemma check_aliases_names backend_id primary names aliases names' :
  check_aliases backend_id primary names aliases = Value names' -> In primary names ->
  (forall x, In x names' <-> In x names \/ In x (map lower_ascii aliases)) /\
  (forall x, In x (map lower_ascii aliases) -> x = primary \/ ~ In x names).
Proof.
  revert names. induction aliases as [|raw rest IH]; intros names H Hp; simpl in H.
  { injection H as <-. simpl. intuition. }
  apply guard_value in H as [_ H]. destruct (String.eqb_spec (lower_ascii raw) primary) as [E|E].
  - destruct (IH names H Hp) as [H1 H2]. simpl. split.
    + intros x. rewrite H1. split; [tauto|]. intros [?|[?|?]]; [tauto|left; congruence|tauto].
    + intros x [?|?]; [left; congruence|auto].
  - apply guard_value in H as [Hn H]. apply string_in_false in Hn.
    destruct (IH _ H) as [H1 H2]; [apply in_or_app; by left|]. simpl. split.
    + intros x. rewrite H1, in_app_iff. simpl. tauto.
    + intros x [Hx|Hx]; [subst; by right|]. destruct (H2 x Hx) as [?|H3]; [by left|right].
      intros Hin. apply H3. apply in_or_app. by left.
Qed.

(** What a backend that passed the checks promises. *)
Definition sound_backend (backend : BackendInfo) : Prop :=
  (has_capability backend CAP_DEFRAG = true <-> operations backend <> []) /\
  program_spec (worker backend) <> None /\
  Forall (fun op => program_spec (op_worker op) <> None /\ ~ In EmptyString (default_options op))
    (operations backend).

Lemma is_null_false {A} (p : option A) : is_null p = false -> p <> None.
Proof. by destruct p. Qed.

Lemma check_operations_sound backend_id ops :
  check_operations backend_id ops = Value tt ->
  Forall (fun op => program_spec (op_worker op) <> None /\ ~ In EmptyString (default_options op)) ops.
Proof.
  induction ops as [|op ops IH]; intros H; [constructor|]. simpl in H.
  apply guard_value in H as [H1 H]. apply guard_value in H as [H2 H].
  constructor; [|by apply IH]. split; [by apply is_null_false|].
  intros Hin. assert (existsb is_empty (default_options op) = true); [|congruence].
  apply existsb_exists. by exists EmptyString.
Qed.

Lemma check_backend_names names backend names' :
  check_backend names backend = Value names' ->
  (forall x, In x names' <-> In x names \/ In x (lower_names backend)) /\
  (forall x, In x (lower_names backend) -> ~ In x names) /\ sound_backend backend.
Proof.
  unfold check_backend. cbv zeta. intros H.
  do 2 (apply guard_value in H as [_ H]). apply guard_value in H as [Hw H].
  apply guard_value in H as [_ H]. apply bind_value in H as ([] & _ & H).
  apply guard_value in H as [Hops H]. apply guard_value in H as [_ H].
  apply guard_value in H as [Hid H]. apply bind_value in H as (names1 & Ha & H).
  apply bind_value in H as ([] & Ho & H). injection H as <-.
  apply string_in_false in Hid. apply check_aliases_names in Ha as [H1 H2];
    [|apply in_or_app; right; by left].
  unfold lower_names. simpl. split_and!.
  - intros x. rewrite H1, in_app_iff. simpl. tauto.
  - intros x [<-|Hx]; [done|]. destruct (H2 x Hx) as [->|H3]; [done|]. rewrite in_app_iff in H3. tauto.
  - split_and!; [|by apply is_null_false|by apply (check_operations_sound (id backend))].
    apply negb_false_iff, Bool.eqb_prop in Hops. rewrite Hops. by destruct (operations backend).
Qed.

Lemma check_backends_names names registry :
  check_backends names registry = Value tt ->
  Forall (fun backend => sound_backend backend /\ (forall x, In x (lower_names backend) -> ~ In x names) /\
    forall key, In key (lower_names backend) -> List.find (names_key key) registry = Some backend) registry.
Proof.
  revert names. induction registry as [|b registry IH]; intros names H; [constructor|].
  simpl in H. apply bind_value in H as (names' & Hb & H).
  apply check_backend_names in Hb as (H1 & H2 & Hs). constructor.
  - split_and!; [done..|]. intros key Hk. simpl. by rewrite (proj2 (names_key_iff key b)).
  - specialize (IH names' H). revert IH. apply List.Forall_impl. intros b' (Hs' & Hn & Hf).
    split_and!; [done| |].
    + intros x Hx Hin. apply (Hn x Hx). apply H1. by left.
    + intros key Hk. simpl. destruct (names_key key b) eqn:E; [|by apply Hf].
      apply names_key_iff in E. exfalso. apply (Hn key Hk). apply H1. by right.
Qed.

(** ** Arguments *)

Lemma filter_options_clean unsupported arguments :
  Forall (fun token => existsb (blocks token) unsupported = false) (filter_options unsupported arguments) /\
  sublist (filter_options unsupported arguments) arguments.
Proof.
  assert (H : forall n arguments, (length arguments <= n)%nat ->
    Forall (fun token => existsb (blocks token) unsupported = false) (filter_options unsupported arguments) /\
    sublist (filter_options unsupported arguments) arguments); [|by apply (H (length arguments))].
  induction n as [|n IH]; intros [|token rest] Hn; simpl in Hn; try lia; try (split; constructor).
  simpl. destruct (existsb (blocks token) unsupported) eqn:E.
  - destruct rest as [|next rest]; [by split; repeat constructor|]. simpl in Hn.
    destruct (negb (is_empty next) && negb (String.prefix "-" next)).
    + destruct (IH rest) as [H1 H2]; [lia|]. split; [done|]. by do 2 apply sublist_cons.
    + destruct (IH (next :: rest)) as [H1 H2]; [simpl; lia|]. split; [done|]. by apply sublist_cons.
  - destruct (IH rest) as [H1 H2]; [lia|]. split; [by constructor|]. by apply sublist_skip.
Qed.

Lemma filter_options_id unsupported arguments :
  Forall (fun token => existsb (blocks token) unsupported = false) arguments ->
  filter_options unsupported arguments = arguments.
Proof. induction 1 as [|token rest E _ IH]; [done|]. simpl. by rewrite E, IH. Qed.

(** An option the list does not name stays, when it is not taken for the value of
    one that goes. *)
Lemma filter_options_keeps unsupported arguments token :
  In token arguments -> existsb (blocks token) unsupported = false -> String.prefix "-" token = true ->
  In token (filter_options unsupported arguments).
Proof.
  intros Hin Hb Hd. assert (H : forall n arguments, (length arguments <= n)%nat -> In token arguments ->
    In token (filter_options unsupported arguments)); [|by apply (H (length arguments))].
  induction n as [|n IH]; intros [|t rest] Hn Hi; simpl in Hn; try lia; try done.
  simpl. destruct (existsb (blocks t) unsupported) eqn:E.
  - destruct Hi as [->|Hi]; [congruence|]. destruct rest as [|next rest]; [done|]. simpl in Hn.
    destruct (negb (is_empty next) && negb (String.prefix "-" next)) eqn:E2.
    + destruct Hi as [->|Hi]; [rewrite Hd, andb_false_r in E2; done|]. apply IH; [lia|done].
    + apply (IH (next :: rest)); [simpl; lia|done].
  - destruct Hi as [->|Hi]; [by left|]. right. apply IH; [lia|done].
Qed.

(** ** Properties *)

(** C38: a registry that passes validation is unambiguous: every backend is found
    under its id and each of its aliases, in any spelling of their case, and under
    no other backend's; it declares operations exactly when it has the mutation
    capability, and the programs it names exist. *)
Theorem validated_registry_unambiguous registry :
  validate_backend_registry registry = Value tt ->
  Forall (fun backend =>
    (forall spelled, In (lower_ascii spelled) (lower_names backend) <->
       backend_by_fstype_in registry spelled = Some backend) /\ sound_backend backend) registry.
Proof.
  intros H. apply check_backends_names in H. revert H. apply List.Forall_impl. intros b (Hs & _ & Hf).
  split; [|done]. intros spelled. split; [apply Hf|]. unfold backend_by_fstype_in. intros H.
  apply find_some in H as [_ H]. by apply names_key_iff.
Qed.

(** The trace never asks for an environment variable. *)
Definition no_environment (t : list (event runtimeE)) : Prop :=
  Forall (fun ev => match ev with Event e _ => match e with RuntimeGetenv _ => False | _ => True end end) t.

Lemma first_executable_runs candidates t o :
  runs (first_executable candidates) t o ->
  no_environment t /\
  forall path, o = Returned (Some path) ->
    In path candidates /\ exists pre, t = pre ++ [Event (ExecutableFile path) true].
Proof.
  revert t. induction candidates as [|c rest IH]; intros t H; simpl in H.
  { apply runs_inv in H as [-> ->]. split; [constructor|]. done. }
  apply runs_inv in H as (found & t' & -> & H). destruct found.
  - apply runs_inv in H as [-> ->]. split; [by repeat constructor|]. intros path [= <-].
    split; [by left|]. by exists [].
  - apply IH in H as [H1 H2]. split; [by constructor|]. intros path Hp.
    destruct (H2 path Hp) as [Hin [pre ->]]. split; [by right|]. by eexists (_ :: pre).
Qed.

(** Program resolution.  Without the override, and for the privileged helper
    in any case, no environment variable is read.  A program is only ever resolved
    to a path that the last call found to be an executable regular file: the
    installed path, the build name next to the running executable, or, where the
    override is allowed, the value of the program's own variable. *)
Theorem resolve_program_sound program allow t o :
  runs (resolve_program program allow) t o ->
  (allow = false \/ program = "helper"%string -> no_environment t) /\
  forall path, o = Returned (Value path) ->
  exists spec pre, program_spec program = Some spec /\ t = pre ++ [Event (ExecutableFile path) true] /\
    (path = installed spec \/
     (exists exe, In (Event ReadSelfExe (Some exe)) t /\
        path = append_path (parent_text (cut_nul exe)) (build_name spec)) \/
     (allow = true /\ program <> "helper"%string /\
        In (Event (RuntimeGetenv (environment spec)) (Some path)) t)).
Proof.
  unfold resolve_program. destruct (program_spec program) as [spec|]; intros H.
  2:{ apply runs_inv in H as [-> ->]. split; [constructor|]. intros path [=]. }
  apply pbind_runs in H as [(m & H & ->)|(overridden & t1 & t' & -> & H1 & H)].
  { unfold override_candidate in H. destruct (_ && _); [|by apply runs_inv in H as [_ ?]].
    apply runs_inv in H as (v & t' & -> & H). by apply runs_inv in H as [_ ?]. }
  apply runs_inv in H as (exe & t2 & -> & H). cbn [pbind] in H.
  apply pbind_runs in H as [(m & H & ->)|(found & t3 & t4 & -> & H3 & H)].
  { apply first_executable_runs in H as [H2 _]. split; [|done]. intros Ha. unfold override_candidate in H1.
    destruct (allow && negb (String.eqb program "helper")) eqn:E.
    - exfalso. apply andb_true_iff in E as [-> E]. destruct Ha as [?| ->]; [done|]. by vm_compute in E.
    - apply runs_inv in H1 as [-> _]. by constructor. }
  apply runs_inv in H as [-> ->]. rewrite app_nil_r. apply first_executable_runs in H3 as [Hn Hf].
  assert (Ho : (allow && negb (String.eqb program "helper") = false /\ t1 = [] /\ overridden = []) \/
    (allow = true /\ program <> "helper"%string /\
     forall p, In p overridden -> t1 = [Event (RuntimeGetenv (environment spec)) (Some p)])).
  { unfold override_candidate in H1. destruct (allow && negb (String.eqb program "helper")) eqn:E.
    - right. apply andb_true_iff in E as [-> E]. apply negb_true_iff, String.eqb_neq in E.
      split_and!; [done..|]. apply runs_inv in H1 as (v & t' & -> & H1). apply runs_inv in H1 as [-> [= ->]].
      intros p Hp. destruct v as [v|]; [|done]. destruct (is_empty v); [done|]. by destruct Hp as [->|[]].
    - left. by apply runs_inv in H1 as [-> [= ->]]. }
  split.
  - intros Ha. destruct Ho as [(_ & -> & _)|(-> & Hh & _)].
    + constructor; [done|exact Hn].
    + by destruct Ha as [?| ?].
  - intros path [= Hp]. destruct found as [p|]; [|done]. injection Hp as ->.
    destruct (Hf path eq_refl) as [Hin [pre ->]].
    exists spec, (t1 ++ Event ReadSelfExe exe :: pre). split_and!; [done|by rewrite <- app_assoc|].
    unfold installed_candidates in Hin.
    apply in_app_or in Hin as [Hin|Hin]; [|apply in_app_or in Hin as [Hin|Hin]].
    + destruct Ho as [(_ & _ & ->)|(-> & Hh & Ho)]; [done|]. right. right. split_and!; [done..|].
      rewrite (Ho path Hin). by left.
    + destruct exe as [exe|]; [|done]. destruct (is_empty _); [done|]. destruct Hin as [<-|[]].
      right. left. exists exe. split; [|done]. apply in_or_app. right. by left.
    + destruct Hin as [<-|[]]. by left.
Qed.

(** [without_options] removes every blocked option, in both spellings, keeps
    the order of what it keeps and every other option, and is idempotent. *)
Theorem without_options_correct arguments unsupported :
  let filtered := without_options arguments unsupported in
  Forall (fun token => existsb (blocks token) unsupported = false) filtered /\
  sublist filtered arguments /\
  (forall token, In token arguments -> existsb (blocks token) unsupported = false ->
     String.prefix "-" token = true -> In token filtered) /\
  without_options filtered unsupported = filtered.
Proof.
  unfold without_options. destruct unsupported as [|u us].
  - simpl. split_and!; [by apply List.Forall_forall|done|auto|done].
  - destruct (filter_options_clean (u :: us) arguments) as [H1 H2].
    split_and!; [done..| |by apply filter_options_id]. intros. by apply filter_options_keeps.
Qed.

(** ** The production registry *)

(** The static initialiser does not throw. *)
Lemma backend_registry_valid : backend_registry = Value registry.
Proof. vm_compute. reflexivity. Qed.

Lemma registry_validated : validate_backend_registry registry = Value tt.
Proof. vm_compute. reflexivity. Qed.

(** Every entry of the registry is found by its own identifier. *)
Lemma validated_registry_unambiguous_witness :
  validate_backend_registry registry = Value tt /\
  Forall (fun backend => backend_by_fstype_in registry (id backend) = Some backend) registry.
Proof.
  assert (H : validate_backend_registry registry = Value tt) by (vm_compute; reflexivity).
  split; [exact H|]. eapply List.Forall_impl; [|exact (validated_registry_unambiguous registry H)].
  intros backend [Hb _]. apply Hb. left. reflexivity.
Defined.

Lemma resolve_program_sound_witness :
  let t := [Event (E := runtimeE) ReadSelfExe (Some "/opt/d/desktop"%string);
            Event (ExecutableFile "/opt/d/defragmenter-mapper") false;
            Event (ExecutableFile "/System/Commands/Defragmenter/defragmenter-mapper") true] in
  no_environment t.
Proof.
  intros t. eapply (resolve_program_sound "mapper" false t); [|by left].
  unfold resolve_program. simpl. do 3 constructor. cbn. constructor.
Defined.
