(* ===== verification/RuntimeManifest.v ===== *)
(** The machine-readable registry manifest of [native/runtime.cpp], printed by
    hand there, and that the parser of [native/json.cpp] reads it back. *)
From S2P Require Import Prelude CString Infiltratr Exceptions NativeJson Runtime.

(** ** Printing *)

Definition qualification_mode_key (mode : QualificationMode) : string :=
  match mode with
  | QualifyNone => "none"
  | WorkerPreflight => "worker-preflight"
  | MapOrWorkerPreflight => "map-or-worker-preflight"
  end.

(** The literal parts of the C++ text: a quoted name and its colon; an object
    of such fields and an array of texts, each with their commas. *)
Definition field_text (name value : string) : string :=
  (String QUOTE (name ++ String QUOTE EmptyString) ++ ":" ++ value)%string.

Definition object_text (fields : list (string * string)) : string :=
  ("{" ++ comma_separated (map (fun f => field_text (fst f) (snd f)) fields) ++ "}")%string.

Definition array_text (texts : list string) : string := ("[" ++ comma_separated texts ++ "]")%string.

Definition bool_text (b : bool) : string := if b then "true" else "false".

Section Manifest.
  Context {common : Infiltratr}.

(** The measuring and the writing call of the C function are one operation of
    the interface; both see the text up to its first NUL. *)
Definition json_quote (value : string) : exc string :=
  match infiltratr_escape_json (cut_nul value) with
  | None => Throw "JSON escaping measurement failed"
  | Some escaped => Value (String QUOTE (escaped ++ String QUOTE EmptyString))
  end.

Definition operation_json (op : OperationSpec) : exc string :=
  name ← json_quote (op_name op);
  worker ← json_quote (op_worker op);
  layout_policy ← json_quote (layout_policy op);
  label ← json_quote (op_label op);
  description ← json_quote (description op);
  warning ← json_quote (warning op);
  default_options ← mapM json_quote (default_options op);
  unsupported_options ← mapM json_quote (unsupported_options op);
  Value (object_text
    [("name", name); ("worker", worker); ("layout_policy", layout_policy); ("label", label);
     ("description", description); ("warning", warning);
     ("default_options", array_text default_options);
     ("unsupported_options", array_text unsupported_options);
     ("raw_offline", bool_text (raw_offline op)); ("live_updates", bool_text (live_updates op))])%string.

Definition backend_json (backend : BackendInfo) : exc string :=
  id ← json_quote (id backend);
  display_name ← json_quote (display_name backend);
  aliases ← mapM json_quote (aliases backend);
  map_accuracy ← json_quote (map_accuracy backend);
  accepted ← (match accepted_map_accuracies backend with
              | [] => mapM json_quote [Runtime.map_accuracy backend]
              | accuracies => mapM json_quote accuracies
              end);
  mode ← json_quote (qualification_mode_key (qualification_mode backend));
  auxiliary ← json_quote (map_auxiliary_worker backend);
  operations ← mapM operation_json (operations backend);
  Value (object_text
    [("id", id); ("display_name", display_name); ("aliases", array_text aliases);
     ("capabilities", utoa (capabilities backend)); ("map_accuracy", map_accuracy);
     ("accepted_map_accuracies", array_text accepted); ("qualification_mode", mode);
     ("map_auxiliary_worker", auxiliary); ("operations", array_text operations)])%string.

Definition registry_manifest_json (schema : Z) : exc string :=
  throw_if (schema =? 0) "manifest schema must be non-zero" ≫= fun _ =>
  backends ← mapM backend_json registry;
  Value (object_text [("schema", utoa schema); ("backends", array_text backends)])%string.

End Manifest.

(** ** The value a reader sees, the members of each object in the order of the map *)

Definition operation_value (op : OperationSpec) : Json :=
  JObject
    [("default_options", JArray (map JString (default_options op)));
     ("description", JString (description op)); ("label", JString (op_label op));
     ("layout_policy", JString (layout_policy op)); ("live_updates", JBool (live_updates op));
     ("name", JString (op_name op)); ("raw_offline", JBool (raw_offline op));
     ("unsupported_options", JArray (map JString (unsupported_options op)));
     ("warning", JString (warning op)); ("worker", JString (op_worker op))]%string.

Definition accepted_accuracies (backend : BackendInfo) : list string :=
  match accepted_map_accuracies backend with [] => [map_accuracy backend] | l => l end.

Definition backend_value (backend : BackendInfo) : Json :=
  JObject
    [("accepted_map_accuracies", JArray (map JString (accepted_accuracies backend)));
     ("aliases", JArray (map JString (aliases backend)));
     ("capabilities", unsigned_integer (capabilities backend));
     ("display_name", JString (display_name backend)); ("id", JString (id backend));
     ("map_accuracy", JString (map_accuracy backend));
     ("map_auxiliary_worker", JString (map_auxiliary_worker backend));
     ("operations", JArray (map operation_value (operations backend)));
     ("qualification_mode", JString (qualification_mode_key (qualification_mode backend)))]%string.

Definition manifest_value (schema : Z) : Json :=
  JObject [("backends", JArray (map backend_value registry)); ("schema", unsigned_integer schema)]%string.

(** ** Reading the pieces *)

Definition clean (s : string) : bool := negb (has_char NUL s).

Definition operation_clean (op : OperationSpec) : bool :=
  forallb clean ([op_name op; op_worker op; layout_policy op; op_label op; description op; warning op] ++
    default_options op ++ unsupported_options op).

Definition backend_clean (b : BackendInfo) : bool :=
  forallb clean ([id b; display_name b; map_accuracy b; map_auxiliary_worker b] ++ aliases b ++
    accepted_map_accuracies b) &&
  forallb operation_clean (operations b) && (0 <=? capabilities b).

Section Reading.
  Context {common : Infiltratr} {L : InfiltratrLaws common}.

Lemma reads_quote n s t : clean s = true -> json_quote s = Value t -> reads n (JString s) t.
Proof.
  intros Hs Ht. apply (reads_mono 0); [lia|]. apply reads_string; [by apply negb_true_iff|exact Ht].
Qed.

Lemma reads_bool n b : reads n (JBool b) (bool_text b).
Proof.
  apply (reads_mono 0); [lia|].
  destruct b; [apply (reads_word "true" _ 4)|apply (reads_word "false" _ 5)]; (done || by intros).
Qed.

Lemma reads_unsigned n k : reads n (unsigned_integer k) (utoa k).
Proof. apply (reads_mono 0); [lia|]. apply reads_number, utoa_number. Qed.

(** An array of pieces that are read, one level up. *)
Lemma reads_array_map {A} n (f : A -> exc string) (g : A -> Json) l texts :
  mapM f l = Value texts -> (forall x t, In x l -> f x = Value t -> reads n (g x) t) ->
  reads (S n) (JArray (map g l)) (array_text texts).
Proof.
  intros H Hr. apply mapM_value in H.
  apply (reads_mono (if is_null (head (map g l)) then 0 else S n)); [destruct (is_null _); lia|].
  apply reads_array. revert Hr. induction H as [|x t l ts Hx _ IH]; intros Hr; constructor.
  - by apply Hr; [left|].
  - apply IH. intros. apply Hr; [by right|done].
Qed.

Lemma reads_texts n l texts :
  forallb clean l = true -> mapM json_quote l = Value texts -> reads (S n) (JArray (map JString l)) (array_text texts).
Proof.
  intros Hl H. rewrite forallb_forall in Hl. eapply reads_array_map; [exact H|].
  intros x t Hx Ht. by apply reads_quote; [apply Hl|].
Qed.

(** An object of fields that are read, one level up. *)
Definition reads_field (n : nat) (w : string * Json) (f : string * string) : Prop :=
  fst w = fst f /\ forall_char plain_char (fst f) = true /\ reads n (snd w) (snd f).

Lemma reads_object_fields n ws fields ws' :
  Forall2 (reads_field n) ws fields -> insert_all [] ws = Some ws' ->
  reads (S n) (JObject ws') (object_text fields).
Proof.
  intros H Hi. apply (reads_mono (if is_null (head ws) then 0 else S n)); [destruct (is_null _); lia|].
  apply reads_object; [|done]. clear Hi. induction H as [|[k w] [k' t] ws fs (Hk & Hp & Hw) _ IH]; constructor.
  - simpl in *. subst k'. eexists _, t. split; [reflexivity|]. split; [by apply reads_key_plain|done].
  - exact IH.
Qed.

End Reading.

(** One field: the key is literal, the value is read. *)
Ltac read_field :=
  split; [reflexivity|split; [vm_compute; reflexivity|]]; cbn [fst snd];
  first [ apply reads_bool | apply reads_unsigned
        | apply reads_quote; [assumption|assumption]
        | apply reads_texts; [assumption|assumption] ].

Section Backends.
  Context {common : Infiltratr} {L : InfiltratrLaws common}.

Lemma operation_reads op t :
  operation_clean op = true -> operation_json op = Value t -> reads 2 (operation_value op) t.
Proof.
  unfold operation_clean. rewrite forallb_app, forallb_app. simpl. intros Hc Ht.
  repeat match goal with H : _ && _ = true |- _ => apply andb_true_iff in H as [? ?] end.
  unfold operation_json in Ht. unthrow. injection Ht as <-.
  apply (reads_object_fields 1
    [("name", JString (op_name op)); ("worker", JString (op_worker op));
     ("layout_policy", JString (layout_policy op)); ("label", JString (op_label op));
     ("description", JString (description op)); ("warning", JString (warning op));
     ("default_options", JArray (map JString (default_options op)));
     ("unsupported_options", JArray (map JString (unsupported_options op)));
     ("raw_offline", JBool (raw_offline op)); ("live_updates", JBool (live_updates op))]%string);
    [|reflexivity].
  repeat (constructor; [read_field|]). constructor.
Qed.

Lemma backend_reads b t :
  backend_clean b = true -> backend_json b = Value t -> reads 4 (backend_value b) t.
Proof.
  unfold backend_clean. rewrite forallb_app, forallb_app. simpl. intros Hc Ht.
  repeat match goal with H : _ && _ = true |- _ => apply andb_true_iff in H as [? ?] end.
  unfold backend_json in Ht. unthrow. injection Ht as <-.
  apply (reads_object_fields 3
    [("id", JString (id b)); ("display_name", JString (display_name b));
     ("aliases", JArray (map JString (aliases b)));
     ("capabilities", unsigned_integer (capabilities b));
     ("map_accuracy", JString (map_accuracy b));
     ("accepted_map_accuracies", JArray (map JString (accepted_accuracies b)));
     ("qualification_mode", JString (qualification_mode_key (qualification_mode b)));
     ("map_auxiliary_worker", JString (map_auxiliary_worker b));
     ("operations", JArray (map operation_value (operations b)))]%string); [|reflexivity].
  assert (clean (qualification_mode_key (qualification_mode b)) = true)
    by (by destruct (qualification_mode b)).
  assert (Hacc : forallb clean (accepted_accuracies b) = true).
  { unfold accepted_accuracies. destruct (accepted_map_accuracies b); [|done]. simpl. by rewrite andb_true_r. }
  repeat (constructor; [solve [read_field]|]).
  constructor; [split; [reflexivity|split; [vm_compute; reflexivity|]]; cbn [fst snd]|].
  { apply reads_texts; [done|]. unfold accepted_accuracies. by destruct (accepted_map_accuracies b). }
  repeat (constructor; [solve [read_field]|]).
  constructor; [split; [reflexivity|split; [vm_compute; reflexivity|]]; cbn [fst snd]|constructor].
  eapply reads_array_map; [eassumption|]. intros op t Hin Ht. apply operation_reads; [|done].
  rewrite forallb_forall in *. auto.
Qed.
End Backends.

(** ** The manifest *)

Lemma registry_clean : forallb backend_clean registry = true.
Proof. vm_compute. reflexivity. Qed.

Lemma manifest_reads {common : Infiltratr} {L : InfiltratrLaws common} schema text :
  registry_manifest_json schema = Value text -> parse text = Value (manifest_value schema).
Proof.
  unfold registry_manifest_json. intros H. unthrow. injection H as <-.
  apply (parse_reads 6); [|unfold kLevels; lia].
  apply (reads_object_fields 5
    [("schema", unsigned_integer schema); ("backends", JArray (map backend_value registry))]%string);
    [|reflexivity].
  constructor; [read_field|].
  constructor; [split; [reflexivity|split; [vm_compute; reflexivity|]]; cbn [fst snd]|constructor].
  eapply reads_array_map; [eassumption|].
  intros b t Hin Ht. apply backend_reads; [|done].
  pose proof registry_clean as Hc. rewrite forallb_forall in Hc. auto.
Qed.

(** ** Properties *)

(** The manifest is valid JSON and says what the registry holds: whatever
    [registry_manifest_json] prints, [Json::parse] reads back as the object of the
    schema number and of every backend with its aliases, accuracies, capabilities,
    qualification mode and operations. *)
Theorem manifest_parses {common : Infiltratr} {L : InfiltratrLaws common} schema text :
  registry_manifest_json schema = Value text -> parse text = Value (manifest_value schema).
Proof. apply manifest_reads. Qed.

Lemma manifest_parses_witness :
  exists text, registry_manifest_json (common := infiltratr_reference) 3 = Value text /\
    parse (common := infiltratr_reference) text = Value (manifest_value 3).
Proof.
  destruct (registry_manifest_json (common := infiltratr_reference) 3) as [text|w] eqn:E.
  - exists text. split; [reflexivity|]. by apply (manifest_parses (L := infiltratr_reference_laws)).
  - assert (H : is_value (registry_manifest_json (common := infiltratr_reference) 3) = true)
      by (vm_compute; reflexivity).
    rewrite E in H. discriminate H.
Defined.
