(* ===== verification/HelperPath.v ===== *)
(** The paths of [std::filesystem] as [native/helper_policy.cpp] uses them: the
    element sequence of an absolute path, its lexically normal form, its parent
    and its last element. *)
From S2P Require Import Prelude CString.

(** A path is what its iteration yields: whether it starts at the root, its
    names, and the empty element a slash at the end adds.  Two paths compare
    equal when these do. *)
Record fs_path := mkPath {
  absolute : bool;
  names : list string;
  trailing : bool;
}.

#[export] Instance fs_path_eq_dec : EqDecision fs_path.
Proof. solve_decision. Defined.

Definition is_nil {A} (l : list A) : bool := match l with [] => true | _ => false end.

Definition path_of (s : string) : fs_path :=
  let fields := fields_on "/" s in
  let names := List.filter (fun f => negb (is_empty f)) fields in
  mkPath (bool_decide (head_char s = "/"%char)) names
    (negb (is_nil names) && is_empty (List.last fields EmptyString)).

(** [/] of a path that names a directory and one more name. *)
Definition append_name (p : fs_path) (name : string) : fs_path :=
  mkPath (absolute p) (names p ++ [name]) false.

(** One element of the normalisation of an absolute path, on the elements kept
    so far: a dot leaves a slash at the end, two dots remove the name before. *)
Definition normal_element (kept : list string * bool) (name : string) : list string * bool :=
  if String.eqb name "." then (fst kept, true)
  else if String.eqb name ".." then (removelast (fst kept), true)
  else (fst kept ++ [name], false).

(** [lexically_normal], for the absolute paths the code asks it of. *)
Definition lexically_normal (p : fs_path) : fs_path :=
  let '(kept, slash) := foldl normal_element ([], false) (names p) in
  mkPath (absolute p) kept (negb (is_nil kept) && (slash || trailing p)).

Definition parent_path (p : fs_path) : fs_path :=
  mkPath (absolute p) (if trailing p then names p else removelast (names p)) false.

Definition filename (p : fs_path) : string :=
  if trailing p then EmptyString else List.last (names p) EmptyString.

(** ** Facts *)

(** A name that normalisation keeps. *)
Definition plain_name (name : string) : bool :=
  negb (is_empty name) && negb (has_char "/" name) &&
  negb (String.eqb name ".") && negb (String.eqb name "..").

Lemma fields_on_join c name s :
  has_char c name = false -> fields_on c (String c (name ++ s)) = EmptyString :: fields_on c (name ++ s).
Proof. intros _. simpl. by destruct (ascii_dec c c). Qed.

(** The text of an absolute path with no slash at its end. *)
Fixpoint join_names (names : list string) : string :=
  match names with [] => EmptyString | name :: names => (String "/" (name ++ join_names names))%string end.

Lemma fields_of_join names :
  Forall (fun name => has_char "/" name = false) names -> names <> [] ->
  fields_on "/" (join_names names) = EmptyString :: names.
Proof.
  induction 1 as [|name names Hn Hns IH]; [done|]. intros _. cbn [join_names fields_on].
  destruct (ascii_dec "/" "/"); [|done]. f_equal. destruct names as [|name' names].
  - simpl. by rewrite append_nil_r, fields_on_none.
  - specialize (IH ltac:(done)). cbn [join_names] in *. rewrite fields_on_app by done. f_equal.
    cbn [fields_on] in IH. destruct (ascii_dec "/" "/"); [|done]. by injection IH.
Qed.

Lemma path_of_join names :
  Forall (fun name => has_char "/" name = false /\ name <> EmptyString) names -> names <> [] ->
  path_of (join_names names) = mkPath true names false.
Proof.
  intros H Hne. unfold path_of. rewrite fields_of_join; [|revert H; apply List.Forall_impl; tauto|done].
  assert (Hf : List.filter (fun f => negb (is_empty f)) names = names).
  { clear Hne. induction H as [|name names [_ Hn] _ IH]; [done|]. simpl. rewrite IH. by destruct name. }
  cbn [List.filter is_empty negb]. rewrite Hf. f_equal.
  - by destruct names.
  - destruct names as [|name names]; [done|]. simpl negb. cbn [andb].
    change (List.last (EmptyString :: name :: names) EmptyString) with (List.last (name :: names) EmptyString).
    clear Hf Hne. assert (Hl : List.last (name :: names) EmptyString <> EmptyString).
    { revert name H. induction names as [|name' names IH]; intros name H; apply Forall_cons_iff in H as [[_ Hn] H].
      - done.
      - by apply (IH name'). }
    by destruct (List.last _ _).
Qed.

Lemma normal_plain kept ns slash :
  Forall (fun name => plain_name name = true) ns ->
  foldl normal_element (kept, slash) ns = (kept ++ ns, slash && is_nil ns).
Proof.
  revert kept slash. induction ns as [|name ns IH]; intros kept slash H; simpl.
  - by rewrite app_nil_r, andb_true_r.
  - apply Forall_cons_iff in H as [Hn H]. unfold normal_element at 2. unfold plain_name in Hn. breflect.
    rewrite H1, H2. cbn [fst]. rewrite IH by done. rewrite <- app_assoc. cbn [app].
    f_equal. by rewrite andb_false_r.
Qed.

(** A path of plain names is in normal form. *)
Lemma lexically_normal_plain ns :
  Forall (fun name => plain_name name = true) ns ->
  lexically_normal (mkPath true ns false) = mkPath true ns false.
Proof.
  intros H. unfold lexically_normal. cbn [names trailing absolute]. rewrite normal_plain by done.
  cbn [app andb]. f_equal. by destruct ns.
Qed.
