(* ===== verification/HelperPolicy.v ===== *)
(** The command policy of the privileged helper, [native/helper_policy.cpp]:
    which requests of an authenticated desktop user run as root. *)
From S2P Require Import Prelude Effects CString Infiltratr Exceptions HelperPath.

(** ** Data *)

Definition kMapper : string := "/System/Commands/Defragmenter/defragmenter-mapper".
Definition kOperationEngine : string := "/System/Commands/Defragmenter/defragmenter-operation-engine".
Definition kUdisksctl : string := "/usr/bin/udisksctl".
Definition kStateRoot : string := "/var/lib/defragmenter/state".
Definition kMaxMapCells : Z := 1048576.

Record HelperCommand := mkCommand {
  executable : string;
  arguments : list string;
}.

(** ** Values *)

Fixpoint parse_uid_loop (parsed : Z) (value : string) : exc Z :=
  match value with
  | EmptyString => Value parsed
  | String character value =>
      if (code character <? 48) || (57 <? code character) then Throw "invalid invoking UID"
      else
        let parsed := u64 (u64 (parsed * 10) + (code character - 48)) in
        if UINT32_MAX <? parsed then Throw "invoking UID is out of range" else parse_uid_loop parsed value
  end.

Definition parse_uid (raw : option string) : exc Z :=
  match raw with
  | None => Throw "empty invoking UID"
  | Some value => if is_empty value then Throw "empty invoking UID" else parse_uid_loop 0 value
  end.

(** The characters of the two regular expressions. *)
Definition is_alnum (c : ascii) : bool :=
  isdigit c || ((65 <=? code c) && (code c <=? 90)) || ((97 <=? code c) && (code c <=? 122)).

Definition in_filesystem_class (c : ascii) : bool :=
  is_alnum c || bool_decide (c = "+"%char) || bool_decide (c = "_"%char) ||
  bool_decide (c = "."%char) || bool_decide (c = "-"%char).

Definition in_journal_class (c : ascii) : bool :=
  is_alnum c || bool_decide (c = "_"%char) || bool_decide (c = "."%char) || bool_decide (c = "-"%char).

Definition valid_filesystem_identifier (value : string) : bool :=
  negb (is_empty value) && forall_char in_filesystem_class value.

(** A journal name: one character of the class or more before the suffix. *)
Definition ends_with (suffix s : string) : bool :=
  (strlen suffix <=? strlen s) &&
  String.eqb (String.substring (Z.to_nat (strlen s - strlen suffix)) (String.length suffix) s) suffix.

Definition valid_journal_name (value : string) : bool :=
  ends_with ".journal" value && (strlen ".journal" <? strlen value) && forall_char in_journal_class value.

Definition drop_text (n : nat) (s : string) : string := String.substring n (String.length s - n) s.

Definition validate_device_path (value purpose : string) : exc unit :=
  let path := path_of value in
  throw_if (negb (String.prefix "/dev/" value) || negb (absolute path) ||
            negb (bool_decide (lexically_normal path = path)))
    (purpose ++ " must be a normalised /dev/... path")%string ≫= fun _ =>
  let relative := drop_text 5 value in
  let direct := negb (is_empty relative) && negb (has_char "/" relative) in
  let mapper := String.prefix "mapper/" relative && (7 <? strlen relative) &&
                negb (has_char "/" (drop_text 7 relative)) in
  throw_if (negb direct && negb mapper)
    (purpose ++ " is outside the authorised device namespace")%string.

Fixpoint parse_mapper_cells_loop (parsed : Z) (value : string) : exc Z :=
  match value with
  | EmptyString => Value parsed
  | String character value =>
      if (code character <? 48) || (57 <? code character) then Throw "mapper cell count is not decimal"
      else
        let digit := code character - 48 in
        if (kMaxMapCells - digit) / 10 <? parsed then Throw "mapper cell count is out of range"
        else parse_mapper_cells_loop (parsed * 10 + digit) value
  end.

Definition parse_mapper_cells (value : string) : exc Z :=
  throw_if (is_empty value) "mapper cell count is empty" ≫= fun _ =>
  parsed ← parse_mapper_cells_loop 0 value;
  throw_if ((parsed =? 0) || (kMaxMapCells <? parsed)) "mapper cell count is out of range" ≫= fun _ =>
  Value parsed.

(** ** Arguments *)

Definition validate_mapper_args (arguments : list string) : exc unit :=
  match arguments with
  | [target; option1; filesystem; option2; cells] =>
      throw_if (negb (String.eqb option1 "--fstype") || negb (String.eqb option2 "--cells"))
        "mapper command is not allowed" ≫= fun _ =>
      validate_device_path target "mapper target" ≫= fun _ =>
      throw_if (negb (valid_filesystem_identifier filesystem))
        "mapper filesystem identifier is not valid" ≫= fun _ =>
      parse_mapper_cells cells ≫= fun _ => Value tt
  | _ => Throw "mapper command is not allowed"
  end.

(** The locals of the option loop. *)
Record request := mkRequest {
  has_filesystem : bool;
  has_write : bool;
  has_confirm : bool;
  has_growth : bool;
  journal_count : nat;
  journal : string;
}.

Definition empty_request : request := mkRequest false false false false 0 EmptyString.

Definition takes_value (token : string) : bool :=
  String.eqb token "--filesystem" || String.eqb token "--confirm" || String.eqb token "--journal" ||
  String.eqb token "--growth-percent" || String.eqb token "--batch-clusters" ||
  String.eqb token "--ram-buffer" || String.eqb token "--live-map-cells".

(** One option with a value. *)
Definition request_option (operation device : string) (r : request) (token value : string) : exc request :=
  if String.eqb token "--filesystem" then
    throw_if (has_filesystem r) "operation-engine request repeats --filesystem" ≫= fun _ =>
    throw_if (negb (valid_filesystem_identifier value)) "operation filesystem identifier is not valid"
      ≫= fun _ =>
    Value (mkRequest true (has_write r) (has_confirm r) (has_growth r) (journal_count r) (journal r))
  else if String.eqb token "--confirm" then
    throw_if (has_confirm r) "operation-engine request repeats --confirm" ≫= fun _ =>
    throw_if (negb (String.eqb value device)) "operation confirmation does not match target" ≫= fun _ =>
    Value (mkRequest (has_filesystem r) (has_write r) true (has_growth r) (journal_count r) (journal r))
  else if String.eqb token "--journal" then
    Value (mkRequest (has_filesystem r) (has_write r) (has_confirm r) (has_growth r)
             (S (journal_count r)) value)
  else if String.eqb token "--growth-percent" then
    throw_if (has_growth r || negb (String.eqb operation "growth-defrag") || negb (String.eqb value "10"))
      "growth percentage is permitted only once as 10 for growth-defrag" ≫= fun _ =>
    Value (mkRequest (has_filesystem r) (has_write r) (has_confirm r) true (journal_count r) (journal r))
  else Value r.

Fixpoint request_loop (operation device : string) (r : request) (arguments : list string) : exc request :=
  match arguments with
  | [] => Value r
  | token :: rest =>
      if String.eqb token "--write" then
        throw_if (has_write r) "operation-engine request repeats --write" ≫= fun _ =>
        request_loop operation device
          (mkRequest (has_filesystem r) true (has_confirm r) (has_growth r) (journal_count r) (journal r)) rest
      else
        throw_if (negb (takes_value token))
          ("operation-engine request contains an unsupported option: " ++ token)%string ≫= fun _ =>
        match rest with
        | [] => Throw ("operation-engine request has a truncated option: " ++ token)%string
        | value :: rest =>
            throw_if (is_empty value)
              ("operation-engine request has an empty option value: " ++ token)%string ≫= fun _ =>
            r ← request_option operation device r token value;
            request_loop operation device r rest
        end
  end.

Definition expected_parent (invoking_uid : Z) : fs_path :=
  append_name (path_of kStateRoot) (utoa invoking_uid).

Definition validate_operation_args (arguments : list string) (invoking_uid : Z) : exc unit :=
  match arguments with
  | operation :: device :: options =>
      throw_if (negb (String.eqb operation "defrag" || String.eqb operation "growth-defrag" ||
                      String.eqb operation "recover")) "operation-engine command is not allowed" ≫= fun _ =>
      throw_if (negb (bool_decide (head_char device = "/"%char))) "operation target must be an absolute path"
        ≫= fun _ =>
      r ← request_loop operation device empty_request options;
      throw_if (negb (has_filesystem r) || negb (has_write r) || negb (has_confirm r))
        "operation-engine request is missing required mutation authority" ≫= fun _ =>
      throw_if (String.eqb operation "growth-defrag" && negb (has_growth r))
        "growth-defrag request must provide the fixed 10 percent reserve" ≫= fun _ =>
      throw_if (negb (Nat.eqb (journal_count r) 1))
        "operation-engine request must provide exactly one journal" ≫= fun _ =>
      let path := path_of (journal r) in
      throw_if (negb (absolute path) ||
                negb (bool_decide (parent_path (lexically_normal path) = expected_parent invoking_uid)))
        ("operation journal must be directly below " ++ kStateRoot ++ "/" ++ utoa invoking_uid)%string
        ≫= fun _ =>
      throw_if (negb (valid_journal_name (filename path))) "operation journal filename is not valid"
  | _ => Throw "operation-engine command is not allowed"
  end.

(** ** The policy *)

Definition helper_command (program : string) (arguments : list string) (invoking_uid : Z) :
    exc HelperCommand :=
  if String.eqb program "operation-engine" then
    validate_operation_args arguments invoking_uid ≫= fun _ => Value (mkCommand kOperationEngine arguments)
  else if String.eqb program "mapper" then
    validate_mapper_args arguments ≫= fun _ => Value (mkCommand kMapper arguments)
  else if String.eqb program "udisksctl" then
    match arguments with
    | [verb; option; target] =>
        throw_if (negb (String.eqb verb "unmount") || negb (String.eqb option "-b"))
          "only udisksctl unmount -b /dev/... is allowed" ≫= fun _ =>
        validate_device_path target "unmount target" ≫= fun _ =>
        Value (mkCommand kUdisksctl arguments)
    | _ => Throw "only udisksctl unmount -b /dev/... is allowed"
    end
  else Throw "unknown helper program".

(** *** The caller *)

Inductive callerE : Type -> Type :=
| CallerGetenv (name : string) : callerE (option string)
| Geteuid : callerE Z
| Getuid : callerE Z.

Fixpoint uid_from_variables (names : list string) (otherwise : prog callerE (exc Z)) : prog callerE (exc Z) :=
  match names with
  | [] => otherwise
  | name :: names =>
      let* raw := call (CallerGetenv name) in
      match raw with
      | Some value => if is_empty value then uid_from_variables names otherwise else Ret (parse_uid raw)
      | None => uid_from_variables names otherwise
      end
  end.

Definition invoking_uid_from_environment : prog callerE (exc Z) :=
  uid_from_variables ["PKEXEC_UID"; "SUDO_UID"]%string
    (let* euid := call Geteuid in
     if (euid =? 0)%Z then Ret (Throw "cannot determine the unprivileged caller UID")
     else let* uid := call Getuid in Ret (Value (u32 uid))).

(** ** Device paths *)

Lemma drop_text_app s t : drop_text (String.length s) (s ++ t) = t.
Proof.
  unfold drop_text. replace (String.length (s ++ t) - String.length s)%nat with (String.length t).
  - apply substring_after.
  - pose proof (strlen_app s t) as H. unfold strlen in H. lia.
Qed.

Lemma drop_dev rel : drop_text 5 ("/dev/" ++ rel) = rel.
Proof. exact (drop_text_app "/dev/" rel). Qed.

Lemma drop_mapper name : drop_text 7 ("mapper/" ++ name) = name.
Proof. exact (drop_text_app "mapper/" name). Qed.

Lemma removelast_le {A} (l : list A) : (length (removelast l) <= length l)%nat.
Proof. induction l as [|x [|y l] IH]; simpl in *; lia. Qed.

(** A normal path ends in a plain name. *)
Lemma normal_last pre name :
  Forall (fun n => plain_name n = true) pre -> name <> EmptyString -> has_char "/" name = false ->
  lexically_normal (mkPath true (pre ++ [name]) false) = mkPath true (pre ++ [name]) false <->
  plain_name name = true.
Proof.
  intros Hpre Hne Hs. split.
  - intros H. unfold plain_name. rewrite Hs. apply (f_equal names) in H. unfold lexically_normal in H.
    cbn [names trailing absolute] in H. rewrite foldl_app, normal_plain in H by done. cbn [foldl app andb] in H.
    unfold normal_element in H. destruct (String.eqb_spec name ".") as [->|].
    { cbn in H. apply (f_equal length) in H. rewrite length_app in H. simpl in H. lia. }
    destruct (String.eqb_spec name "..") as [->|]; [|by destruct name].
    cbn in H. apply (f_equal length) in H. rewrite length_app in H.
    pose proof (removelast_le pre). simpl in H. lia.
  - intros H. apply lexically_normal_plain. apply Forall_app. split; [done|by constructor].
Qed.

Lemma plain_name_parts name :
  plain_name name = true -> has_char "/" name = false /\ name <> EmptyString.
Proof. unfold plain_name. intros H. breflect. split; [done|]. by destruct name. Qed.

Lemma device_path_normal pre name :
  Forall (fun n => plain_name n = true) pre -> name <> EmptyString -> has_char "/" name = false ->
  path_of (join_names (pre ++ [name])) = mkPath true (pre ++ [name]) false.
Proof.
  intros Hpre Hne Hs. apply path_of_join.
  - apply Forall_app. split; [|by repeat constructor]. revert Hpre. apply List.Forall_impl.
    intros n Hn. by apply plain_name_parts.
  - by destruct pre.
Qed.

(** The two name spaces. *)
Definition device_directory (pre : list string) : Prop := pre = ["dev"]%string \/ pre = ["dev"; "mapper"]%string.

Lemma validate_device_iff value purpose :
  validate_device_path value purpose = Value tt <->
  exists pre name, device_directory pre /\ plain_name name = true /\ value = join_names (pre ++ [name]).
Proof.
  unfold validate_device_path. cbv zeta. split.
  - intros H. apply guard_value in H as [H1 H2]. apply orb_false_iff in H1 as [H1 Hn].
    apply orb_false_iff in H1 as [Hp _]. apply negb_false_iff in Hp, Hn. apply bool_decide_eq_true in Hn.
    apply prefix_inv in Hp as [rel ->]. rewrite drop_dev in H2. apply (throw_if_value _ _ (fun _ => Value tt)) in H2.
    apply andb_false_iff in H2 as [H2|H2]; apply negb_false_iff in H2.
    + apply andb_true_iff in H2 as [He Hs]. apply negb_true_iff in He, Hs.
      assert (Hne : rel <> EmptyString) by (by destruct rel).
      assert (Hd : Forall (fun n => plain_name n = true) ["dev"%string]) by (by repeat constructor).
      assert (E : ("/dev/" ++ rel)%string = join_names (["dev"%string] ++ [rel]))
        by (simpl; by rewrite append_nil_r).
      rewrite E, (device_path_normal ["dev"%string]) in Hn by done.
      exists ["dev"%string], rel. split_and!; [by left| |done].
      by apply (normal_last ["dev"%string]).
    + apply andb_true_iff in H2 as [H2 Hs]. apply andb_true_iff in H2 as [Hm Hl].
      apply prefix_inv in Hm as [name ->]. rewrite drop_mapper in Hs. apply negb_true_iff in Hs.
      assert (Hne : name <> EmptyString) by (by intros ->).
      assert (Hd : Forall (fun n => plain_name n = true) ["dev"; "mapper"]%string) by (by repeat constructor).
      assert (E : ("/dev/" ++ "mapper/" ++ name)%string = join_names (["dev"; "mapper"]%string ++ [name]))
        by (simpl; by rewrite append_nil_r).
      rewrite E, (device_path_normal ["dev"; "mapper"]%string) in Hn by done.
      exists ["dev"; "mapper"]%string, name. split_and!; [by right| |done].
      by apply (normal_last ["dev"; "mapper"]%string).
  - intros (pre & name & Hpre & Hname & ->). destruct (plain_name_parts name Hname) as [Hs Hne].
    assert (Hd : Forall (fun n => plain_name n = true) pre) by (by destruct Hpre as [-> | ->]; repeat constructor).
    rewrite device_path_normal by done. rewrite (proj2 (normal_last pre name Hd Hne Hs)) by done.
    rewrite bool_decide_true by done. cbn [absolute negb orb].
    destruct Hpre as [-> | ->]; cbn [app join_names]; rewrite append_nil_r.
    + change ("/" ++ "dev" ++ String "/" name)%string with ("/dev/" ++ name)%string.
      change (String "/" ("dev" ++ String "/" name)) with ("/dev/" ++ name)%string.
      rewrite prefix_append. cbn [negb orb]. rewrite drop_dev, Hs. by destruct name.
    + change (String "/" ("dev" ++ String "/" ("mapper" ++ String "/" name)))
        with ("/dev/" ++ ("mapper/" ++ name))%string.
      rewrite prefix_append. cbn [negb orb]. rewrite drop_dev, prefix_append, drop_mapper, Hs.
      rewrite (proj2 (Z.ltb_lt 7 _)); [by rewrite andb_false_r|].
      rewrite strlen_app. change (strlen "mapper/") with 7. destruct name; [done|]. unfold strlen. simpl. lia.
Qed.

(** ** Numbers *)

Lemma digit_test c : (code c <? 48) || (57 <? code c) = negb (isdigit c).
Proof. unfold isdigit. rewrite negb_andb, <- !Z.ltb_antisym. done. Qed.

Lemma decimal_from_le acc s : 0 <= acc -> forall_char isdigit s = true -> acc <= decimal_value_from acc s.
Proof.
  revert acc. induction s as [|c s IH]; intros acc Ha H; simpl in *; [lia|].
  apply andb_true_iff in H as [Hc H]. unfold isdigit in Hc. breflect. specialize (IH (10 * acc + (code c - 48)) ltac:(lia) H).
  lia.
Qed.

(** The accumulating loops with a limit that is checked in every round. *)
Lemma uid_loop_iff acc s n :
  0 <= acc <= UINT32_MAX ->
  parse_uid_loop acc s = Value n <->
  forall_char isdigit s = true /\ decimal_value_from acc s = n /\ n <= UINT32_MAX.
Proof.
  revert acc. induction s as [|c s IH]; intros acc Ha; cbn [parse_uid_loop forall_char decimal_value_from].
  { split; [intros [= <-]; split_and!; (done || lia)|]. by intros (_ & -> & _). }
  rewrite digit_test. destruct (isdigit c) eqn:Hc; cbn [negb andb]; [|split; [done|by intros [? _]]].
  unfold isdigit in Hc. breflect. rewrite (u64_small (acc * 10)) by (unfold is_u64; lia).
  rewrite u64_small by (unfold is_u64; lia). replace (acc * 10 + (code c - 48)) with (10 * acc + (code c - 48)) by lia.
  destruct (Z.ltb_spec UINT32_MAX (10 * acc + (code c - 48))).
  - split; [done|]. intros (Hd & Hv & Hn). pose proof (decimal_from_le (10 * acc + (code c - 48)) s ltac:(lia) Hd). lia.
  - rewrite IH by lia. tauto.
Qed.

Lemma cells_loop_iff acc s n :
  0 <= acc <= kMaxMapCells ->
  parse_mapper_cells_loop acc s = Value n <->
  forall_char isdigit s = true /\ decimal_value_from acc s = n /\ n <= kMaxMapCells.
Proof.
  unfold kMaxMapCells. revert acc.
  induction s as [|c s IH]; intros acc Ha; cbn [parse_mapper_cells_loop forall_char decimal_value_from].
  { split; [intros [= <-]; split_and!; (done || lia)|]. by intros (_ & -> & _). }
  rewrite digit_test. destruct (isdigit c) eqn:Hc; cbn [negb andb]; [|split; [done|by intros [? _]]].
  unfold isdigit in Hc. breflect. unfold kMaxMapCells.
  replace (acc * 10 + (code c - 48)) with (10 * acc + (code c - 48)) by lia.
  pose proof (Z.div_mod (1048576 - (code c - 48)) 10) as Hdm.
  pose proof (Z.mod_pos_bound (1048576 - (code c - 48)) 10) as Hm.
  destruct (Z.ltb_spec ((1048576 - (code c - 48)) / 10) acc).
  - split; [done|]. intros (Hd & Hv & Hn). pose proof (decimal_from_le (10 * acc + (code c - 48)) s ltac:(lia) Hd). lia.
  - rewrite IH by lia. tauto.
Qed.

(** ** The request grammar

    The declarative contract: a request is an operation, a target and a list of
    options. *)

Inductive option_group :=
| OWrite
| OFilesystem (value : string)
| OConfirm (value : string)
| OJournal (value : string)
| OGrowth (value : string)
| OTuning (name value : string).

Definition group_arguments (o : option_group) : list string :=
  match o with
  | OWrite => ["--write"]
  | OFilesystem v => ["--filesystem"; v]
  | OConfirm v => ["--confirm"; v]
  | OJournal v => ["--journal"; v]
  | OGrowth v => ["--growth-percent"; v]
  | OTuning name v => [name; v]
  end%string.

Definition flatten (opts : list option_group) : list string := List.concat (map group_arguments opts).

Definition is_tuning (name : string) : bool :=
  String.eqb name "--batch-clusters" || String.eqb name "--ram-buffer" || String.eqb name "--live-map-cells".

(** A group that can stand in a request at all. *)
Definition group_ok (o : option_group) : bool :=
  match o with
  | OWrite => true
  | OFilesystem v | OConfirm v | OJournal v | OGrowth v => negb (is_empty v)
  | OTuning name v => is_tuning name && negb (is_empty v)
  end.

Definition writes (opts : list option_group) : list unit :=
  omap (fun o => match o with OWrite => Some tt | _ => None end) opts.
Definition filesystems (opts : list option_group) : list string :=
  omap (fun o => match o with OFilesystem v => Some v | _ => None end) opts.
Definition confirms (opts : list option_group) : list string :=
  omap (fun o => match o with OConfirm v => Some v | _ => None end) opts.
Definition journals (opts : list option_group) : list string :=
  omap (fun o => match o with OJournal v => Some v | _ => None end) opts.
Definition growths (opts : list option_group) : list string :=
  omap (fun o => match o with OGrowth v => Some v | _ => None end) opts.

Definition journal_ok (journal : string) (uid : Z) : Prop :=
  absolute (path_of journal) = true /\
  parent_path (lexically_normal (path_of journal)) = expected_parent uid /\
  valid_journal_name (filename (path_of journal)) = true.

Definition is_operation (operation : string) : bool :=
  String.eqb operation "defrag" || String.eqb operation "growth-defrag" || String.eqb operation "recover".

(** What the helper promises to run for [uid]. *)
Record authorised (operation device : string) (opts : list option_group) (uid : Z) : Prop := {
  auth_operation : is_operation operation = true;
  auth_device : head_char device = "/"%char;
  auth_groups : forallb group_ok opts = true;
  auth_write : writes opts = [tt];
  auth_filesystem : exists v, filesystems opts = [v] /\ valid_filesystem_identifier v = true;
  auth_confirm : confirms opts = [device];
  auth_journal : exists v, journals opts = [v] /\ journal_ok v uid;
  auth_growth : growths opts = if String.eqb operation "growth-defrag" then ["10"%string] else [];
}.

(** *** The loop reads groups *)

Lemma takes_value_cases token :
  takes_value token = true ->
  token = "--filesystem"%string \/ token = "--confirm"%string \/ token = "--journal"%string \/
  token = "--growth-percent"%string \/ is_tuning token = true.
Proof.
  unfold takes_value, is_tuning. rewrite !orb_true_iff, !String.eqb_eq. tauto.
Qed.

Lemma request_loop_groups operation device r args r' :
  request_loop operation device r args = Value r' ->
  exists opts, args = flatten opts /\ forallb group_ok opts = true.
Proof.
  assert (H : forall n args r, (length args <= n)%nat -> request_loop operation device r args = Value r' ->
    exists opts, args = flatten opts /\ forallb group_ok opts = true); [|by apply (H (length args))].
  clear. induction n as [|n IH]; intros [|token rest] r Hn H; simpl in Hn; try lia; try (by exists []).
  cbn [request_loop] in H. destruct (String.eqb_spec token "--write") as [->|_].
  { apply guard_value in H as [_ H]. apply IH in H as (opts & -> & Ho); [|lia].
    by exists (OWrite :: opts). }
  apply guard_value in H as [Ht H]. apply negb_false_iff, takes_value_cases in Ht.
  destruct rest as [|value rest]; [done|]. apply guard_value in H as [Hv H].
  apply bind_value in H as (r1 & _ & H). simpl in Hn. apply IH in H as (opts & -> & Ho); [|lia].
  destruct Ht as [-> | [-> | [-> | [-> | Ht]]]];
    [exists (OFilesystem value :: opts)|exists (OConfirm value :: opts)|exists (OJournal value :: opts)
    |exists (OGrowth value :: opts)|exists (OTuning token value :: opts)];
    (split; [done|]); cbn [forallb group_ok]; by rewrite Hv, ?Ht, Ho.
Qed.

(** *** What the loop collects *)

Definition non_nil {A} (l : list A) : bool := match l with [] => false | _ => true end.

(** At most one of a kind, counting the one already seen. *)
Definition at_most_one {A} (seen : bool) (l : list A) : Prop := (Nat.b2n seen + length l <= 1)%nat.

Definition collected (r : request) (opts : list option_group) : request :=
  mkRequest (has_filesystem r || non_nil (filesystems opts)) (has_write r || non_nil (writes opts))
    (has_confirm r || non_nil (confirms opts)) (has_growth r || non_nil (growths opts))
    (journal_count r + length (journals opts)) (List.last (journals opts) (journal r)).

Record acceptable (operation device : string) (r : request) (opts : list option_group) : Prop := {
  acc_write : at_most_one (has_write r) (writes opts);
  acc_filesystem : at_most_one (has_filesystem r) (filesystems opts);
  acc_valid : Forall (fun v => valid_filesystem_identifier v = true) (filesystems opts);
  acc_confirm : at_most_one (has_confirm r) (confirms opts);
  acc_device : Forall (fun v => v = device) (confirms opts);
  acc_growth : at_most_one (has_growth r) (growths opts);
  acc_ten : Forall (fun v => v = "10"%string /\ operation = "growth-defrag"%string) (growths opts);
}.

Lemma last_cons {A} (l : list A) x y : List.last (x :: l) y = List.last l x.
Proof. revert x. induction l as [|z l IH]; intros x; [done|]. simpl in *. destruct l; [done|]. apply IH. Qed.

Lemma at_most_one_cons {A} seen (x : A) l : at_most_one seen (x :: l) <-> seen = false /\ at_most_one true l.
Proof. unfold at_most_one. simpl. destruct seen; simpl; split; [lia|by intros []|intros; split; [done|lia]|lia]. Qed.

(** One group in front. *)
Lemma request_loop_cons operation device r o opts :
  group_ok o = true ->
  request_loop operation device r (flatten (o :: opts)) =
  (r1 ← (match o with
         | OWrite =>
             throw_if (has_write r) "operation-engine request repeats --write" ≫= fun _ =>
             Value (mkRequest (has_filesystem r) true (has_confirm r) (has_growth r) (journal_count r) (journal r))
         | OFilesystem v => request_option operation device r "--filesystem" v
         | OConfirm v => request_option operation device r "--confirm" v
         | OJournal v => request_option operation device r "--journal" v
         | OGrowth v => request_option operation device r "--growth-percent" v
         | OTuning name v => Value r
         end);
   request_loop operation device r1 (flatten opts)).
Proof.
  intros Ho. destruct o as [|v|v|v|v|name v]; cbn [flatten map List.concat group_arguments app request_loop];
    fold (flatten opts).
  - by destruct (has_write r).
  - simpl in Ho. apply negb_true_iff in Ho. by rewrite Ho.
  - simpl in Ho. apply negb_true_iff in Ho. by rewrite Ho.
  - simpl in Ho. apply negb_true_iff in Ho. by rewrite Ho.
  - simpl in Ho. apply negb_true_iff in Ho. by rewrite Ho.
  - simpl in Ho. apply andb_true_iff in Ho as [Hn Hv]. apply negb_true_iff in Hv. rewrite Hv.
    unfold is_tuning in Hn. rewrite !orb_true_iff, !String.eqb_eq in Hn.
    destruct Hn as [[-> | ->] | ->]; done.
Qed.

Lemma acceptable_iff operation device r opts :
  acceptable operation device r opts <->
  at_most_one (has_write r) (writes opts) /\ at_most_one (has_filesystem r) (filesystems opts) /\
  Forall (fun v => valid_filesystem_identifier v = true) (filesystems opts) /\
  at_most_one (has_confirm r) (confirms opts) /\ Forall (fun v => v = device) (confirms opts) /\
  at_most_one (has_growth r) (growths opts) /\
  Forall (fun v => v = "10"%string /\ operation = "growth-defrag"%string) (growths opts).
Proof. split; [by intros []|]. intros (? & ? & ? & ? & ? & ? & ?). by split. Qed.

Lemma collected_nil r : collected r [] = r.
Proof. destruct r. unfold collected. simpl. by rewrite !orb_false_r, Nat.add_0_r. Qed.

(** A guard in front of one round. *)
Lemma guarded_round operation device r r1 o opts (c : bool) w (f : request -> exc request) r' :
  (f r1 = Value r' <-> acceptable operation device r1 opts /\ r' = collected r1 opts) ->
  (acceptable operation device r (o :: opts) <-> c = false /\ acceptable operation device r1 opts) ->
  collected r (o :: opts) = collected r1 opts ->
  ((if c then Throw w else Value tt) ≫= fun _ => Value r1) ≫= f = Value r' <->
  acceptable operation device r (o :: opts) /\ r' = collected r (o :: opts).
Proof.
  intros Hf Ha ->. rewrite Ha. destruct c; simpl; [split; [done|by intros [[? _] _]]|].
  rewrite Hf. tauto.
Qed.

Lemma journals_cons v opts : journals (OJournal v :: opts) = v :: journals opts.
Proof. done. Qed.

Ltac collect_eq :=
  unfold collected; rewrite ?journals_cons, ?last_cons; simpl; rewrite ?orb_true_r; f_equal; lia.

Lemma request_loop_iff operation device opts r r' :
  forallb group_ok opts = true ->
  request_loop operation device r (flatten opts) = Value r' <->
  acceptable operation device r opts /\ r' = collected r opts.
Proof.
  revert r. induction opts as [|o opts IH]; intros r Hok.
  { rewrite collected_nil. split; [intros [= <-]; split; [|done]|by intros [_ ->]].
    rewrite acceptable_iff. unfold at_most_one. simpl.
    destruct (has_write r), (has_filesystem r), (has_confirm r), (has_growth r); simpl;
      split_and!; (lia || constructor). }
  simpl in Hok. apply andb_true_iff in Hok as [Ho Hok]. rewrite request_loop_cons by done.
  specialize (fun r => IH r Hok).
  destruct o as [|v|v|v|v|name v].
  - unfold throw_if. eapply guarded_round; [apply IH| |collect_eq].
    rewrite !acceptable_iff. simpl. rewrite at_most_one_cons. tauto.
  - unfold request_option, throw_if. simpl String.eqb. cbv iota.
    destruct (valid_filesystem_identifier v) eqn:Hv; cbn [negb mbind exc_bind].
    + eapply guarded_round; [apply IH| |collect_eq].
      rewrite !acceptable_iff. simpl. rewrite at_most_one_cons, Forall_cons_iff. tauto.
    + split; [by destruct (has_filesystem r)|]. rewrite acceptable_iff. simpl. rewrite Forall_cons_iff.
      intros [(_ & _ & [? _] & _) _]. congruence.
  - unfold request_option, throw_if. simpl String.eqb. cbv iota.
    destruct (String.eqb_spec v device) as [->|Hv]; cbn [negb mbind exc_bind].
    + eapply guarded_round; [apply IH| |collect_eq].
      rewrite !acceptable_iff. simpl. rewrite at_most_one_cons, Forall_cons_iff. tauto.
    + split; [by destruct (has_confirm r)|]. rewrite acceptable_iff. simpl. rewrite Forall_cons_iff.
      intros [(_ & _ & _ & _ & [? _] & _) _]. congruence.
  - unfold request_option. simpl String.eqb. cbv iota. cbn [mbind exc_bind]. rewrite IH, !acceptable_iff. simpl.
    replace (collected r (OJournal v :: opts)) with
      (collected (mkRequest (has_filesystem r) (has_write r) (has_confirm r) (has_growth r) (S (journal_count r)) v) opts)
      by (symmetry; collect_eq). done.
  - unfold request_option, throw_if. simpl String.eqb. cbv iota.
    destruct (String.eqb_spec operation "growth-defrag") as [Hop|Hop], (String.eqb_spec v "10") as [->|Hv];
      cbn [negb]; rewrite ?orb_true_r, ?orb_false_r; cbn [negb mbind exc_bind].
    + eapply guarded_round; [apply IH| |collect_eq].
      rewrite !acceptable_iff. simpl. rewrite at_most_one_cons, Forall_cons_iff. tauto.
    + split; [done|]. rewrite acceptable_iff. simpl. rewrite Forall_cons_iff. tauto.
    + split; [done|]. rewrite acceptable_iff. simpl. rewrite Forall_cons_iff. tauto.
    + split; [done|]. rewrite acceptable_iff. simpl. rewrite Forall_cons_iff. tauto.
  - cbn [mbind exc_bind]. rewrite IH, !acceptable_iff. done.
Qed.

(** *** The whole request *)

Lemma one_seen {A} (l : list A) : at_most_one false l -> non_nil l = true -> exists x, l = [x].
Proof. unfold at_most_one. destruct l as [|x [|y l]]; simpl; [done|eauto|lia]. Qed.

Lemma growth_of operation opts :
  at_most_one false (growths opts) ->
  Forall (fun v => v = "10"%string /\ operation = "growth-defrag"%string) (growths opts) ->
  String.eqb operation "growth-defrag" && negb (non_nil (growths opts)) = false <->
  growths opts = if String.eqb operation "growth-defrag" then ["10"%string] else [].
Proof.
  intros H1 H2. destruct (growths opts) as [|x [|y l]] eqn:E; simpl; [| |unfold at_most_one in H1; simpl in H1; lia].
  - rewrite andb_true_r. by destruct (String.eqb operation "growth-defrag").
  - apply Forall_cons_iff in H2 as [[-> ->] _]. rewrite andb_false_r. done.
Qed.

Lemma validate_operation_iff args uid :
  validate_operation_args args uid = Value tt <->
  exists operation device opts, args = operation :: device :: flatten opts /\
    authorised operation device opts uid.
Proof.
  split.
  - unfold validate_operation_args. destruct args as [|operation [|device options]]; [done..|]. intros H.
    apply guard_value in H as [Hop H]. apply guard_value in H as [Hd H].
    apply bind_value in H as (r & Hr & H). apply guard_value in H as [Hm H].
    apply guard_value in H as [Hg H]. apply guard_value in H as [Hj H]. cbv zeta in H.
    apply guard_value in H as [Hp H]. apply (throw_if_value _ _ (fun _ => Value tt)) in H.
    destruct (request_loop_groups _ _ _ _ _ Hr) as (opts & -> & Hok).
    apply request_loop_iff in Hr as [[Hw Hf Hv Hc Hcd Hgr Hten] ->]; [|done].
    unfold collected in *. cbn [has_filesystem has_write has_confirm has_growth journal_count journal orb
      empty_request Nat.add] in *.
    apply orb_false_iff in Hm as [Hm Hcc]. apply orb_false_iff in Hm as [Hmf Hmw].
    apply negb_false_iff in Hop, Hd, Hcc, Hmf, Hmw, Hj, H. apply orb_false_iff in Hp as [Hp1 Hp2].
    apply negb_false_iff in Hp1, Hp2. apply bool_decide_eq_true in Hd, Hp2. apply Nat.eqb_eq in Hj.
    destruct (one_seen _ Hw Hmw) as [[] Ew]. destruct (one_seen _ Hf Hmf) as [v Ev].
    destruct (one_seen _ Hc Hcc) as [d Ed]. rewrite Ev, Ed in *.
    apply Forall_cons_iff in Hv as [Hv _], Hcd as [-> _].
    destruct (journals opts) as [|j [|? ?]] eqn:Ej; [done| |done]. simpl in Hp1, Hp2, H.
    exists operation, device, opts. split; [done|].
    split; [done|done|done|done|by exists v|done|by exists j|by apply growth_of].
  - intros (operation & device & opts & -> & [Hop Hd Hok Hw (v & Ev & Hv) Hc (j & Ej & Hj1 & Hj2 & Hj3) Hg]).
    unfold validate_operation_args. fold (is_operation operation). rewrite Hop, bool_decide_true by done.
    cbn [negb throw_if mbind exc_bind].
    assert (Hg1 : at_most_one false (growths opts)) by (rewrite Hg; unfold at_most_one; destruct (String.eqb _ _); simpl; lia).
    assert (Hg2 : Forall (fun v => v = "10"%string /\ operation = "growth-defrag"%string) (growths opts)).
    { rewrite Hg. destruct (String.eqb_spec operation "growth-defrag"); [by repeat constructor|constructor]. }
    rewrite (proj2 (request_loop_iff operation device opts empty_request (collected empty_request opts) Hok)).
    2:{ split; [|done]. split; simpl; try done; rewrite ?Hw, ?Ev, ?Hc; unfold at_most_one; simpl;
        (lia || by repeat constructor). }
    cbn [mbind exc_bind]. apply (growth_of operation opts Hg1 Hg2) in Hg.
    unfold collected. cbn [has_filesystem has_write has_confirm has_growth journal_count journal orb
      empty_request Nat.add]. rewrite Hg, Hw, Ev, Hc, Ej. cbn [non_nil negb orb List.last length Nat.eqb throw_if].
    by rewrite Hj1, Hj2, bool_decide_true, Hj3 by done.
Qed.

(** The decimal forms of the two numbers. *)
Definition decimal_text (value : string) (n : Z) : Prop :=
  value <> EmptyString /\ forall_char isdigit value = true /\ decimal_value value = n.

Lemma parse_mapper_cells_iff value n :
  parse_mapper_cells value = Value n <-> decimal_text value n /\ 1 <= n <= kMaxMapCells.
Proof.
  unfold parse_mapper_cells, decimal_text, decimal_value. rewrite guard_value, bind_value. split.
  - intros (He & p & Hp & H). apply guard_value in H as [Hr [= <-]]. breflect.
    apply cells_loop_iff in Hp as (H1 & H2 & H3); [|unfold kMaxMapCells; lia].
    pose proof (decimal_from_le 0 value ltac:(lia) H1). split_and!; try done; [by destruct value|lia].
  - intros ((Hne & H1 & H2) & H3). split; [by destruct value|]. exists n. split.
    + apply cells_loop_iff; [unfold kMaxMapCells; lia|]. split_and!; (done || lia).
    + rewrite (proj2 (Z.eqb_neq n 0)), (proj2 (Z.ltb_ge _ n)) by lia. done.
Qed.

Lemma validate_mapper_iff args :
  validate_mapper_args args = Value tt <->
  exists target filesystem cells n, args = [target; "--fstype"; filesystem; "--cells"; cells]%string /\
    validate_device_path target "mapper target" = Value tt /\
    valid_filesystem_identifier filesystem = true /\ parse_mapper_cells cells = Value n.
Proof.
  split.
  - destruct args as [|target [|o1 [|filesystem [|o2 [|cells [|]]]]]]; try done. unfold validate_mapper_args.
    intros H. apply guard_value in H as [Ho H]. apply bind_value in H as ([] & Hd & H).
    apply guard_value in H as [Hf H]. apply bind_value in H as (n & Hn & _).
    apply orb_false_iff in Ho as [H1 H2]. apply negb_false_iff, String.eqb_eq in H1 as ->.
    apply negb_false_iff, String.eqb_eq in H2 as ->. apply negb_false_iff in Hf.
    by exists target, filesystem, cells, n.
  - intros (target & filesystem & cells & n & -> & Hd & Hf & Hn). unfold validate_mapper_args.
    cbn [String.eqb]. simpl. rewrite Hd. simpl. rewrite Hf. simpl. by rewrite Hn.
Qed.

(** ** Properties *)

(** The device name space: a path is accepted exactly when it is /dev/NAME or
    /dev/mapper/NAME for a NAME that is not empty, holds no slash and is no dot
    directory; in particular nothing below a user-writable directory of /dev. *)
Theorem device_path_exact value purpose :
  validate_device_path value purpose = Value tt <->
  exists name, plain_name name = true /\
    (value = "/dev/" ++ name \/ value = "/dev/mapper/" ++ name)%string.
Proof.
  rewrite validate_device_iff. split.
  - intros (pre & name & Hpre & Hname & ->). exists name. split; [done|].
    destruct Hpre as [-> | ->]; [left|right]; simpl; by rewrite append_nil_r.
  - intros (name & Hname & [-> | ->]); [exists ["dev"%string], name|exists ["dev"; "mapper"]%string, name];
      (split_and!; [by (left + right)|done|simpl; by rewrite append_nil_r]).
Qed.

(** C3: the authority of the helper: exactly three programs run, with their
    arguments unchanged: the engine for a request that is a list of well-formed
    options with one write flag, one valid filesystem, one confirmation equal to
    the target, one journal below the caller's state directory and the fixed
    growth reserve when and only when the operation is growth; the mapper and the
    unmounter for their fixed forms on an authorised device. *)
Theorem helper_command_authority program args uid c :
  helper_command program args uid = Value c <->
  arguments c = args /\
  ((program = "operation-engine"%string /\ executable c = kOperationEngine /\
    exists operation device opts, args = operation :: device :: flatten opts /\
      authorised operation device opts uid) \/
   (program = "mapper"%string /\ executable c = kMapper /\
    exists target filesystem cells n, args = [target; "--fstype"; filesystem; "--cells"; cells]%string /\
      validate_device_path target "mapper target" = Value tt /\
      valid_filesystem_identifier filesystem = true /\
      decimal_text cells n /\ 1 <= n <= kMaxMapCells) \/
   (program = "udisksctl"%string /\ executable c = kUdisksctl /\
    exists target, args = ["unmount"; "-b"; target]%string /\
      validate_device_path target "unmount target" = Value tt)).
Proof.
  unfold helper_command. split.
  - destruct (String.eqb_spec program "operation-engine") as [->|_].
    { intros H. apply bind_value in H as ([] & H & [= <-]). split; [done|]. left. split_and!; [done..|].
      by apply validate_operation_iff. }
    destruct (String.eqb_spec program "mapper") as [->|_].
    { intros H. apply bind_value in H as ([] & H & [= <-]). split; [done|]. right. left. split_and!; [done..|].
      apply validate_mapper_iff in H as (t & f & k & n & -> & Hd & Hf & Hn).
      apply parse_mapper_cells_iff in Hn. by exists t, f, k, n. }
    destruct (String.eqb_spec program "udisksctl") as [->|_]; [|done].
    destruct args as [|verb [|option [|target [|]]]]; try done. intros H. apply guard_value in H as [Ho H].
    apply bind_value in H as ([] & Hd & [= <-]). apply orb_false_iff in Ho as [H1 H2].
    apply negb_false_iff, String.eqb_eq in H1 as ->. apply negb_false_iff, String.eqb_eq in H2 as ->.
    split; [done|]. right. right. split_and!; [done..|]. by exists target.
  - destruct c as [e a]. cbn [executable arguments].
    intros (<- & [(-> & -> & H)|[(-> & -> & t & f & k & n & -> & Hd & Hf & Hn)|(-> & -> & t & -> & Hd)]]).
    + by rewrite (proj2 (validate_operation_iff a uid) H).
    + change (String.eqb "mapper" "operation-engine") with false.
      change (String.eqb "mapper" "mapper") with true. cbv iota.
      rewrite (proj2 (validate_mapper_iff _)); [done|]. exists t, f, k, n. split_and!; [done..|].
      by apply parse_mapper_cells_iff.
    + simpl. by rewrite Hd.
Qed.

Lemma parse_uid_iff raw n :
  parse_uid raw = Value n <-> exists value, raw = Some value /\ decimal_text value n /\ n <= UINT32_MAX.
Proof.
  unfold parse_uid, decimal_text, decimal_value. destruct raw as [value|]; [|split; [done|by intros (? & ? & _)]].
  destruct value as [|c s] eqn:E; [split; [done|by intros (? & [= <-] & [? _] & _)]|]. rewrite <- E in *.
  assert (Hne : value <> EmptyString) by (by rewrite E). replace (is_empty value) with false by (by rewrite E).
  rewrite uid_loop_iff by lia. split.
  - intros (H1 & H2 & H3). by exists value.
  - intros (v & [= <-] & (_ & H1 & H2) & H3). done.
Qed.

(** A variable that was asked for and is unset or empty. *)
Definition unset (ev : event callerE) : Prop :=
  match ev with
  | Event e x =>
      match e in callerE X return X -> Prop with
      | CallerGetenv _ => fun x => x = None \/ x = Some EmptyString
      | _ => fun _ => False
      end x
  end.

Lemma parse_uid_range raw n : parse_uid raw = Value n -> 0 <= n <= UINT32_MAX.
Proof.
  intros H. apply parse_uid_iff in H as (v & _ & (_ & Hd & <-) & Hn). split; [|done].
  pose proof (decimal_from_le 0 v ltac:(lia) Hd). unfold decimal_value. lia.
Qed.

Lemma uid_from_variables_runs names otherwise t o :
  runs (uid_from_variables names otherwise) t o ->
  (exists pre t', t = pre ++ t' /\ Forall unset pre /\ runs otherwise t' o) \/
  (exists pre name raw, In name names /\ t = pre ++ [Event (CallerGetenv name) raw] /\ Forall unset pre /\
     o = Returned (parse_uid raw)).
Proof.
  revert t. induction names as [|name names IH]; intros t H.
  { left. exists [], t. by repeat constructor. }
  apply runs_inv in H as (raw & t1 & -> & H). cbn [pbind] in H.
  assert (Hskip : unset (Event (CallerGetenv name) raw) -> runs (uid_from_variables names otherwise) t1 o ->
    (exists pre t', Event (CallerGetenv name) raw :: t1 = pre ++ t' /\ Forall unset pre /\ runs otherwise t' o) \/
    (exists pre name' raw', In name' (name :: names) /\
       Event (CallerGetenv name) raw :: t1 = pre ++ [Event (CallerGetenv name') raw'] /\ Forall unset pre /\
       o = Returned (parse_uid raw'))).
  { intros Hu Hr. destruct (IH _ Hr) as [(pre & t' & -> & Hp & Ho)|(pre & name' & raw' & Hin & -> & Hp & ->)].
    - left. exists (Event (CallerGetenv name) raw :: pre), t'. split_and!; [done|by constructor|done].
    - right. exists (Event (CallerGetenv name) raw :: pre), name', raw'. split_and!; [by right|done|by constructor|done]. }
  destruct raw as [value|]; [destruct (is_empty value) eqn:E|].
  - apply Hskip; [|done]. right. by destruct value.
  - apply runs_inv in H as [-> ->]. right. exists [], name, (Some value). by split_and!; [left| |constructor|].
  - apply Hskip; [by left|done].
Qed.

(** Whom the helper serves: the UID is that of the first of PKEXEC_UID and
    SUDO_UID that is set and not empty, read as a 32-bit decimal, or else the real
    UID of a caller that is not root; root without either variable is refused. *)
Theorem invoking_uid_sound t n :
  runs invoking_uid_from_environment t (Returned (Value n)) ->
  0 <= n <= UINT32_MAX /\
  ((exists pre name value, t = pre ++ [Event (CallerGetenv name) (Some value)] /\ Forall unset pre /\
      In name ["PKEXEC_UID"; "SUDO_UID"]%string /\ decimal_text value n) \/
   exists pre euid uid, t = pre ++ [Event Geteuid euid; Event Getuid uid] /\ Forall unset pre /\
      euid <> 0 /\ n = u32 uid).
Proof.
  intros H. apply uid_from_variables_runs in H as [(pre & t' & -> & Hp & H)|(pre & name & raw & Hin & -> & Hp & H)].
  - apply runs_inv in H as (euid & t1 & -> & H). cbn [pbind] in H.
    destruct (Z.eqb_spec euid 0); [by apply runs_inv in H as [_ ?]|].
    apply runs_inv in H as (uid & t2 & -> & H). apply runs_inv in H as [-> [= ->]].
    pose proof (u32_range uid) as Hr. unfold is_u32 in Hr. split; [lia|]. right. by exists pre, euid, uid.
  - assert (Hv : parse_uid raw = Value n) by congruence. split; [by apply (parse_uid_range raw)|]. left.
    apply parse_uid_iff in Hv as (value & -> & Hd & _). by exists pre, name, value.
Qed.

Lemma invoking_uid_sound_witness :
  let t := [Event (E := callerE) (CallerGetenv "PKEXEC_UID") (Some "1000"%string)] in
  runs invoking_uid_from_environment t (Returned (Value 1000)) /\ 0 <= 1000 <= UINT32_MAX.
Proof.
  assert (H : runs invoking_uid_from_environment
    [Event (E := callerE) (CallerGetenv "PKEXEC_UID") (Some "1000"%string)] (Returned (Value 1000))).
  { unfold invoking_uid_from_environment. cbn. constructor. vm_compute. constructor. }
  split; [exact H|]. apply (invoking_uid_sound _ _ H).
Defined.

(** The journal is checked in its normal form and passed on as it was given: a
    name under a further directory and two dots passes. *)
Lemma journal_not_normal :
  is_value (helper_command "operation-engine"
    ["recover"; "/dev/sda1"; "--filesystem"; "ext4"; "--write"; "--confirm"; "/dev/sda1";
     "--journal"; "/var/lib/defragmenter/state/1000/x/../a.journal"]%string 1000) = true.
Proof. vm_compute. reflexivity. Qed.
