(* ===== verification/DesktopPolicy.v ===== *)
(** The desktop's policy, [native/desktop_policy.cpp] and
    [native/desktop_map_geometry.cpp]: which volumes it offers, which controls it
    enables, where a volume's journal is and which engine command it builds. *)
From S2P Require Import Prelude CString Infiltratr Exceptions NativeJson Runtime HelperPath HelperPolicy.

(** The SHA-256 of OpenSSL is a parameter; of its contract the code relies on
    the size of the digest. *)
Class Sha256 := sha256 : string -> list Z.
Class Sha256Laws (S : Sha256) :=
  sha256_digest : forall text, length (sha256 text) = 32%nat /\ Forall is_u8 (sha256 text).

(** ** Data *)

Record DesktopVolume := mkVolume {
  path : string;
  filesystem : string;
  label : string;
  filesystem_uuid : string;
  partition_uuid : string;
  serial : string;
  wwn : string;
  size : Z;
  start_sector : Z;
  mounted : bool;
  readonly : bool;
  image : bool;
  verified : bool;
  exact_analysis : bool;
  defrag_qualified : bool;
  growth_qualified : bool;
  defrag_reason : string;
  growth_reason : string;
}.

Record DesktopControls := mkControls {
  analyse : bool;
  unmount : bool;
  defrag : bool;
  growth_defrag : bool;
  recover : bool;
  stop : bool;
}.

(** ** Discovery *)

Definition value (obj : Json) (key : string) : string :=
  match find key obj with Some field => string_or EmptyString field | None => EmptyString end.

Definition flag (obj : Json) (key : string) : bool :=
  match find key obj with
  | None => false
  | Some (JBool b) => b
  | Some field =>
      let text := string_or EmptyString field in
      negb (unsigned_or 0 field =? 0) ||
      String.eqb text "true" || String.eqb text "1" || String.eqb text "yes"
  end.

Definition filesystem_from_test_media_label (label : string) : string :=
  if (strlen label <=? 3) || negb (String.prefix "LD_" label) then EmptyString
  else
    let candidate := lower_ascii (drop_text 3 label) in
    if is_null (backend_by_fstype candidate) then EmptyString else candidate.

Definition generic_fat (filesystem : string) : bool :=
  String.eqb filesystem "fat" || String.eqb filesystem "vfat" || String.eqb filesystem "msdos".

Definition is_mounted (node : Json) : bool :=
  match find "mountpoints" node with
  | None => false
  | Some (JArray mounts) => existsb (fun mount => negb (is_empty (string_or EmptyString mount))) mounts
  | Some mounts => negb (is_empty (string_or EmptyString mounts))
  end.

Definition unsigned_field (key : string) (node : Json) : Z :=
  match find key node with Some field => unsigned_or 0 field | None => 0 end.

(** The filesystem a node is offered as. *)
Definition node_filesystem (node : Json) : string :=
  let filesystem := lower_ascii (value node "fstype") in
  let partition_label := value node "partlabel" in
  let discovery_label :=
    if negb (is_empty partition_label) then partition_label else value node "label" in
  if is_empty filesystem then filesystem_from_test_media_label discovery_label else filesystem.

Definition node_volume (node : Json) : list DesktopVolume :=
  let filesystem := node_filesystem node in
  if (negb (is_null (backend_by_fstype filesystem)) || generic_fat filesystem) &&
     negb (is_empty (value node "path")) then
    [mkVolume (value node "path") filesystem
       (if is_empty (value node "label") then value node "partlabel" else value node "label")
       (value node "uuid") (value node "partuuid") (value node "serial") (value node "wwn")
       (unsigned_field "size" node) (unsigned_field "start" node)
       (is_mounted node) (flag node "ro") false false false false false EmptyString EmptyString]
  else [].

(** [visit]; the fuel bounds the nesting of [children]. *)
Fixpoint visit (fuel : nat) (result : list DesktopVolume) (node : Json) : list DesktopVolume :=
  match fuel with
  | O => result
  | S fuel =>
      match node with
      | JObject _ =>
          let result := result ++ node_volume node in
          match find "children" node with
          | Some (JArray children) => foldl (visit fuel) result children
          | _ => result
          end
      | _ => result
      end
  end.

Definition desktop_discover (lsblk : Json) : list DesktopVolume :=
  match find "blockdevices" lsblk with
  | Some (JArray nodes) => foldl (visit (S (depth lsblk))) [] nodes
  | _ => []
  end.

(** ** Controls *)

Definition no_controls : DesktopControls := mkControls false false false false false false.

Definition desktop_controls (v : option DesktopVolume) (busy stopping journal_exists : bool) :
    DesktopControls :=
  let stop := busy && negb stopping in
  match v with
  | None => mkControls false false false false false stop
  | Some v =>
      if busy then mkControls false false false false false stop
      else
        let unmount := mounted v && negb (image v) in
        match backend_by_fstype (filesystem v) with
        | None => mkControls true unmount false false false stop
        | Some backend =>
            if readonly v || mounted v then mkControls true unmount false false false stop
            else
              let recover := journal_exists && negb (is_null (operation_for backend "recover")) in
              if negb (verified v) then mkControls true unmount false false recover stop
              else
                mkControls true unmount (negb (is_null (operation_for backend "defrag")))
                  (negb (is_null (operation_for backend "growth-defrag"))) recover stop
        end
  end.

(** ** Journals *)

Definition join_bar (a b : string) : string := (a ++ "|" ++ b)%string.

(** The identity of the volume, empty when nothing is known of it. *)
Definition stable_identity (v : DesktopVolume) : string :=
  let identity := filesystem_uuid v in
  let identity :=
    if negb (is_empty (partition_uuid v)) then
      ((if negb (is_empty identity) then identity ++ "|" else identity) ++ partition_uuid v)%string
    else identity in
  if is_empty identity && (negb (is_empty (serial v)) || negb (is_empty (wwn v))) then
    ("media:" ++ serial v ++ "|" ++ wwn v ++ "|" ++ utoa (start_sector v) ++ "|" ++ utoa (size v))%string
  else identity.

Fixpoint strip_leading_slashes (s : string) : string :=
  match s with
  | String c s' => if ascii_dec c "/" then strip_leading_slashes s' else s
  | EmptyString => EmptyString
  end.

Definition stem_char (c : ascii) : ascii := if in_journal_class c then c else "_"%char.

(** The last [n] bytes of a longer text. *)
Definition keep_last (n : Z) (s : string) : string :=
  if n <? strlen s then drop_text (Z.to_nat (strlen s - n)) s else s.

Definition journal_stem (v : DesktopVolume) : string :=
  let stem := if is_empty (stable_identity v) then path v else "volume"%string in
  let stem := keep_last 80 (map_char stem_char (strip_leading_slashes stem)) in
  if is_empty stem then "volume"%string else stem.

(** [%02x] of a byte. *)
Definition hex_byte (b : Z) : string :=
  String (hex_letter (b / 16)) (String (hex_letter (b mod 16)) EmptyString).

Definition journal_material (v : DesktopVolume) : string :=
  if is_empty (stable_identity v) then path v else stable_identity v.

Section Journal.
  Context {digest : Sha256}.

Definition journal_suffix (v : DesktopVolume) : string :=
  String.concat EmptyString (map hex_byte (take 8 (sha256 (journal_material v)))).

Definition desktop_journal (v : DesktopVolume) (uid : Z) : string :=
  ("/var/lib/defragmenter/state/" ++ utoa uid ++ "/" ++ journal_stem v ++ "-" ++ journal_suffix v ++
   ".journal")%string.
End Journal.

(** ** Identity *)

Definition fat_variant (backend : BackendInfo) : bool :=
  String.eqb (id backend) "fat12" || String.eqb (id backend) "fat16" || String.eqb (id backend) "fat32".

Definition desktop_verify_identity (v : DesktopVolume) (detected : string) : exc DesktopVolume :=
  let candidate := backend_by_fstype (filesystem v) in
  match backend_by_fstype detected with
  | None => Throw "Native filesystem identity conflicts with discovery metadata"
  | Some actual =>
      let generic := generic_fat (filesystem v) in
      throw_if ((negb generic && negb (bool_decide (candidate = Some actual))) ||
                (generic && negb (fat_variant actual)))
        "Native filesystem identity conflicts with discovery metadata" ≫= fun _ =>
      Value (mkVolume (path v) (id actual) (label v) (filesystem_uuid v) (partition_uuid v) (serial v)
        (wwn v) (size v) (start_sector v) (mounted v) (readonly v) (image v) true false false false
        EmptyString EmptyString)
  end.

(** ** Mutation *)

Definition clamp (x low high : Z) : Z := if x <? low then low else if high <? x then high else x.

Definition reason_or (reason fallback : string) : string := if is_empty reason then fallback else reason.

Definition desktop_mutation (v : DesktopVolume) (operation engine journal : string) (cells : Z)
    (journal_exists : bool) : exc (list string) :=
  let recovery := String.eqb operation "recover" in
  match backend_by_fstype (filesystem v) ≫= fun backend => operation_for backend operation with
  | None => Throw "Volume is not verified, unmounted, writable or supported"
  | Some spec =>
      throw_if ((negb recovery && negb (verified v)) || mounted v || readonly v)
        "Volume is not verified, unmounted, writable or supported" ≫= fun _ =>
      throw_if (negb recovery && negb (exact_analysis v))
        "An exact allocation analysis is required before filesystem mutation" ≫= fun _ =>
      throw_if (String.eqb operation "defrag" && negb (defrag_qualified v))
        (reason_or (defrag_reason v)
          "This exact filesystem layout is outside the qualified Defragment writer contract") ≫= fun _ =>
      throw_if (String.eqb operation "growth-defrag" && negb (growth_qualified v))
        (reason_or (growth_reason v)
          "This exact filesystem layout is outside the qualified Growth Defrag writer contract") ≫= fun _ =>
      throw_if (negb (Bool.eqb recovery journal_exists))
        "An unfinished journal must be recovered before further writes" ≫= fun _ =>
      throw_if (is_empty journal) "A persistent journal path is required" ≫= fun _ =>
      Value
        ([engine; operation; path v; "--filesystem"; filesystem v; "--write"; "--confirm"; path v;
          "--journal"; journal] ++
         default_options spec ++
         (if String.eqb operation "growth-defrag" then ["--growth-percent"; "10"] else []) ++
         (if negb recovery then ["--live-map-cells"; utoa (clamp cells 256 1048576)] else []))
  end.

(** ** The registry as the policy sees it *)

(** Default options are pairs of a tuning option and its value. *)
Fixpoint tunings (options : list string) : option (list option_group) :=
  match options with
  | [] => Some []
  | name :: value :: options =>
      if is_tuning name && negb (is_empty value) then cons (OTuning name value) <$> tunings options else None
  | _ => None
  end.

Definition backend_fits_helper (b : BackendInfo) : bool :=
  forallb valid_filesystem_identifier (lower_names b) &&
  forallb (fun op => is_operation (op_name op) && negb (is_null (tunings (default_options op)))) (operations b).

Lemma registry_fits_helper : forallb backend_fits_helper registry = true.
Proof. vm_compute. reflexivity. Qed.

Lemma backend_found fs b :
  backend_by_fstype fs = Some b -> In b registry /\ In (lower_ascii fs) (lower_names b).
Proof. intros H. apply find_some in H as [H1 H2]. split; [done|]. by apply names_key_iff. Qed.

Lemma backend_of_name b name :
  In b registry -> In (lower_ascii name) (lower_names b) -> backend_by_fstype name = Some b.
Proof.
  intros Hb Hn. pose proof registry_validated as H. apply check_backends_names in H.
  rewrite List.Forall_forall in H. by apply (H b Hb).
Qed.

Definition lower_class_ok (c : ascii) : bool :=
  Bool.eqb (in_filesystem_class (tolower c)) (in_filesystem_class c).

Lemma lower_class s : forall_char in_filesystem_class (lower_ascii s) = forall_char in_filesystem_class s.
Proof.
  induction s as [|c s IH]; [done|]. unfold lower_ascii in *. simpl. rewrite IH. f_equal.
  apply Bool.eqb_prop. apply (ascii_forall lower_class_ok). vm_compute. done.
Qed.

(** A filesystem of the registry passes the helper's test of names. *)
Lemma registry_identifier fs b : backend_by_fstype fs = Some b -> valid_filesystem_identifier fs = true.
Proof.
  intros H. apply backend_found in H as [Hb Hn]. pose proof registry_fits_helper as Hr.
  rewrite forallb_forall in Hr. specialize (Hr b Hb). apply andb_true_iff in Hr as [Hr _].
  rewrite forallb_forall in Hr. specialize (Hr _ Hn). unfold valid_filesystem_identifier in *.
  rewrite lower_class in Hr. apply andb_true_iff in Hr as [H1 H2]. rewrite H2, andb_true_r. by destruct fs.
Qed.

Lemma operation_found fs b name op :
  backend_by_fstype fs = Some b -> operation_for b name = Some op ->
  is_operation name = true /\ exists opts, tunings (default_options op) = Some opts.
Proof.
  intros Hb Ho. apply backend_found in Hb as [Hb _]. apply find_some in Ho as [Ho Hn].
  apply String.eqb_eq in Hn as <-. pose proof registry_fits_helper as Hr. rewrite forallb_forall in Hr.
  specialize (Hr b Hb). apply andb_true_iff in Hr as [_ Hr]. rewrite forallb_forall in Hr.
  specialize (Hr op Ho). apply andb_true_iff in Hr as [H1 H2]. split; [done|].
  destruct (tunings (default_options op)) as [opts|]; [eauto|done].
Qed.

Lemma tunings_flatten options opts :
  tunings options = Some opts ->
  options = flatten opts /\ forallb group_ok opts = true /\
  writes opts = [] /\ filesystems opts = [] /\ confirms opts = [] /\ journals opts = [] /\ growths opts = [].
Proof.
  assert (H : forall n options opts, (length options <= n)%nat -> tunings options = Some opts ->
    options = flatten opts /\ forallb group_ok opts = true /\
    writes opts = [] /\ filesystems opts = [] /\ confirms opts = [] /\ journals opts = [] /\ growths opts = []);
    [|by apply (H (length options))].
  clear. induction n as [|n IH]; intros [|name [|value options]] opts Hn H; simpl in Hn; try lia; try done;
    try (by injection H as <-).
  simpl in H. destruct (is_tuning name && negb (is_empty value)) eqn:E; [|done].
  apply fmap_Some in H as (opts' & H & ->).
  apply IH in H as (-> & Hok & H1 & H2 & H3 & H4 & H5); [|lia]. split; [done|].
  split; [|done]. simpl. by rewrite E, Hok.
Qed.

(** ** The journal *)

Lemma in_class_slash s : forall_char in_journal_class s = true -> has_char "/" s = false.
Proof. intros H. by apply (forall_char_has in_journal_class). Qed.

Definition stem_char_ok (c : ascii) : bool := in_journal_class (stem_char c).

Lemma stem_class s : forall_char in_journal_class (map_char stem_char s) = true.
Proof.
  induction s as [|c s IH]; [done|]. simpl. rewrite IH, andb_true_r.
  apply (ascii_forall stem_char_ok). vm_compute. done.
Qed.

Lemma forall_char_substring P n m s : forall_char P s = true -> forall_char P (String.substring n m s) = true.
Proof.
  revert n m. induction s as [|c s IH]; intros n m H; [by destruct n, m|].
  simpl in H. apply andb_true_iff in H as [Hc H]. destruct n as [|n]; simpl.
  - destruct m as [|m]; [done|]. simpl. rewrite Hc. by apply IH.
  - by apply IH.
Qed.

Lemma journal_stem_class v : forall_char in_journal_class (journal_stem v) = true /\ journal_stem v <> EmptyString.
Proof.
  unfold journal_stem. set (stem := keep_last 80 _).
  assert (H : forall_char in_journal_class stem = true).
  { unfold stem, keep_last. destruct (80 <? _); [|apply stem_class].
    unfold drop_text. apply forall_char_substring, stem_class. }
  destruct stem; simpl; [done|]. by split.
Qed.

Definition hex_byte_class (k : Z) : bool := forall_char in_journal_class (hex_byte k).

Lemma hex_byte_ok b : is_u8 b -> forall_char in_journal_class (hex_byte b) = true.
Proof.
  intros Hb. unfold is_u8 in Hb. assert (H : forallb (fun n => hex_byte_class (Z.of_nat n)) (List.seq 0 256) = true)
    by (vm_compute; reflexivity).
  rewrite forallb_forall in H. specialize (H (Z.to_nat b)). rewrite Z2Nat.id in H by lia. apply H.
  apply in_seq. lia.
Qed.

Lemma ends_with_append s suffix : ends_with suffix (s ++ suffix) = true.
Proof.
  unfold ends_with. rewrite strlen_app. pose proof (strlen_nonneg s).
  rewrite (proj2 (Z.leb_le _ _)) by lia. cbn [andb].
  replace (Z.to_nat (strlen s + strlen suffix - strlen suffix)) with (String.length s) by (unfold strlen; lia).
  apply String.eqb_eq. clear. induction s as [|c s IH]; simpl; [apply substring_all|done].
Qed.

Section Composition.
  Context {digest : Sha256} {D : Sha256Laws digest}.

Definition journal_name (v : DesktopVolume) : string :=
  (journal_stem v ++ "-" ++ journal_suffix v ++ ".journal")%string.

Lemma concat_class l :
  Forall (fun s => forall_char in_journal_class s = true) l ->
  forall_char in_journal_class (String.concat EmptyString l) = true.
Proof.
  induction 1 as [|s l Hs Hl IH]; [done|]. destruct l as [|t l]; [done|].
  change (String.concat EmptyString (s :: t :: l)) with (s ++ "" ++ String.concat EmptyString (t :: l))%string.
  by rewrite !forall_char_app, Hs, IH.
Qed.

Lemma journal_suffix_class v : forall_char in_journal_class (journal_suffix v) = true.
Proof.
  apply concat_class. apply List.Forall_forall. intros s Hs. apply in_map_iff in Hs as (b & <- & Hb).
  apply hex_byte_ok. destruct (sha256_digest (journal_material v)) as [_ H].
  apply (Forall_take _ 8) in H. rewrite List.Forall_forall in H. by apply H.
Qed.

Lemma journal_name_valid v : valid_journal_name (journal_name v) = true /\ plain_name (journal_name v) = true.
Proof.
  destruct (journal_stem_class v) as [Hc Hne]. pose proof (journal_suffix_class v) as Hs.
  assert (Hall : forall_char in_journal_class (journal_name v) = true).
  { unfold journal_name. by rewrite !forall_char_app, Hc, Hs. }
  assert (Hl : 9 <= strlen (journal_name v)).
  { unfold journal_name. rewrite !strlen_app. change (strlen "-") with 1. change (strlen ".journal") with 8.
    pose proof (strlen_nonneg (journal_stem v)). pose proof (strlen_nonneg (journal_suffix v)). lia. }
  split.
  - unfold valid_journal_name. rewrite Hall, andb_true_r.
    unfold journal_name at 1. rewrite !append_assoc'. rewrite ends_with_append. cbn [andb].
    apply Z.ltb_lt. change (strlen ".journal") with 8. lia.
  - unfold plain_name. rewrite (in_class_slash _ Hall).
    destruct (journal_name v) as [|c1 [|c2 [|c3 t]]]; try (unfold strlen in Hl; simpl in Hl; lia).
    simpl. destruct (Ascii.eqb c1 "."); [|done]. by destruct (Ascii.eqb c2 ".").
Qed.

Lemma utoa_plain n : plain_name (utoa n) = true.
Proof.
  unfold plain_name. rewrite (utoa_no_char "/") by done. pose proof (utoa_digits n) as Hd.
  pose proof (utoa_nonempty n) as Hne. destruct (utoa n) as [|c s]; [done|]. cbn [forall_char] in Hd.
  apply andb_true_iff in Hd as [Hd _]. simpl. destruct (Ascii.eqb_spec c ".") as [->|]; [done|].
  done.
Qed.

Lemma desktop_journal_join v uid :
  desktop_journal v uid =
  join_names ["var"; "lib"; "defragmenter"; "state"; utoa uid; journal_name v].
Proof.
  unfold desktop_journal. cbn [join_names append]. rewrite append_nil_r.
  unfold journal_name. by rewrite ?append_assoc.
Qed.

Lemma desktop_journal_ok v uid : journal_ok (desktop_journal v uid) uid.
Proof.
  destruct (journal_name_valid v) as [Hv Hp]. unfold journal_ok. rewrite desktop_journal_join.
  assert (Hall : Forall (fun name => plain_name name = true)
    ["var"; "lib"; "defragmenter"; "state"; utoa uid; journal_name v]).
  { repeat (constructor; [first [exact Hp | apply utoa_plain | reflexivity]|]). constructor. }
  rewrite path_of_join; [|by revert Hall; apply List.Forall_impl; intros n Hn; apply plain_name_parts|done].
  rewrite lexically_normal_plain by done. split_and!; [done|done|exact Hv].
Qed.

(** *** The engine command *)

Definition mutation_options (v : DesktopVolume) (operation journal : string) (cells : Z)
    (tuning : list option_group) : list option_group :=
  [OFilesystem (filesystem v); OWrite; OConfirm (path v); OJournal journal] ++ tuning ++
  (if String.eqb operation "growth-defrag" then [OGrowth "10"] else []) ++
  (if negb (String.eqb operation "recover")
   then [OTuning "--live-map-cells" (utoa (clamp cells 256 1048576))] else []).

Lemma flatten_app a b : flatten (a ++ b) = flatten a ++ flatten b.
Proof. unfold flatten. by rewrite map_app, concat_app. Qed.

Lemma mutation_request v operation engine journal cells journal_exists args :
  desktop_mutation v operation engine journal cells journal_exists = Value args ->
  exists backend spec tuning,
    backend_by_fstype (filesystem v) = Some backend /\ operation_for backend operation = Some spec /\
    tunings (default_options spec) = Some tuning /\ journal <> EmptyString /\
    args = engine :: operation :: path v :: flatten (mutation_options v operation journal cells tuning).
Proof.
  unfold desktop_mutation. cbv zeta. intros H.
  destruct (backend_by_fstype (filesystem v)) as [backend|] eqn:Hb; [|done]. cbn [mbind option_bind] in H.
  destruct (operation_for backend operation) as [spec|] eqn:Ho; [|done].
  do 5 (apply guard_value in H as [_ H]). apply guard_value in H as [Hj H]. injection H as <-.
  destruct (operation_found _ _ _ _ Hb Ho) as [_ [tuning Ht]].
  exists backend, spec, tuning. split_and!; [done..|by destruct journal|].
  destruct (tunings_flatten _ _ Ht) as [-> _]. unfold mutation_options. rewrite !flatten_app.
  by destruct (String.eqb operation "growth-defrag"), (negb (String.eqb operation "recover")).
Qed.

Lemma tuning_projection {A} (f : option_group -> option A) tuning operation cells :
  (forall n x, f (OTuning n x) = None) ->
  omap f (tuning ++ (if String.eqb operation "growth-defrag" then [OGrowth "10"] else []) ++
          (if negb (String.eqb operation "recover") then [OTuning "--live-map-cells" cells] else [])) =
  omap f tuning ++ (if String.eqb operation "growth-defrag" then omap f [OGrowth "10"] else []).
Proof.
  intros Hf. rewrite !omap_app. f_equal.
  destruct (String.eqb operation "growth-defrag"), (negb (String.eqb operation "recover")); simpl;
    rewrite ?Hf, ?app_nil_r; done.
Qed.

(** The request is one the helper authorises. *)
Lemma mutation_options_authorised v operation journal cells tuning uid :
  is_operation operation = true -> head_char (path v) = "/"%char ->
  valid_filesystem_identifier (filesystem v) = true -> journal <> EmptyString -> journal_ok journal uid ->
  (exists options, tunings options = Some tuning) ->
  authorised operation (path v) (mutation_options v operation journal cells tuning) uid.
Proof.
  intros Hop Hd Hf Hne Hj [options Ht].
  destruct (tunings_flatten _ _ Ht) as (_ & Hok & H1 & H2 & H3 & H4 & H5).
  assert (Hp : forall A (f : option_group -> option A) head, (forall n x, f (OTuning n x) = None) ->
    omap f tuning = [] -> omap f [OFilesystem (filesystem v); OWrite; OConfirm (path v); OJournal journal] = head ->
    omap f (mutation_options v operation journal cells tuning) =
    head ++ (if String.eqb operation "growth-defrag" then omap f [OGrowth "10"] else [])).
  { intros A f head Hn Hz <-. unfold mutation_options. rewrite omap_app, tuning_projection, Hz by done. done. }
  assert (Hid : filesystem v <> EmptyString) by (intros E; by rewrite E in Hf).
  assert (Hpa : path v <> EmptyString) by (intros E; by rewrite E in Hd).
  assert (Hg : forallb group_ok (mutation_options v operation journal cells tuning) = true).
  { unfold mutation_options. rewrite !forallb_app, Hok. pose proof (utoa_nonempty (clamp cells 256 1048576)) as Hu.
    destruct (filesystem v), (path v), journal, (utoa _); try done.
    by destruct (String.eqb operation "growth-defrag"), (negb (String.eqb operation "recover")). }
  split; [done|done|done|..].
  - unfold writes. rewrite (Hp _ _ [tt]) by done. by destruct (String.eqb operation "growth-defrag").
  - exists (filesystem v). split; [|done]. unfold filesystems. rewrite (Hp _ _ [filesystem v]) by done.
    by destruct (String.eqb operation "growth-defrag").
  - unfold confirms. rewrite (Hp _ _ [path v]) by done. by destruct (String.eqb operation "growth-defrag").
  - exists journal. split; [|done]. unfold journals. rewrite (Hp _ _ [journal]) by done.
    by destruct (String.eqb operation "growth-defrag").
  - unfold growths. by rewrite (Hp _ _ []) by done.
Qed.

(** ** Properties *)

(** The desktop and the privileged helper agree: every command the desktop
    builds for a volume with an absolute device path, with the journal it computes
    for the user, is one the helper authorises for that user, unchanged. *)
Theorem mutation_authorised v operation engine uid cells journal_exists args :
  head_char (path v) = "/"%char ->
  desktop_mutation v operation engine (desktop_journal v uid) cells journal_exists = Value (engine :: args) ->
  helper_command "operation-engine" args uid = Value (mkCommand kOperationEngine args).
Proof.
  intros Hd H. apply mutation_request in H as (backend & spec & tuning & Hb & Ho & Ht & Hj & [= ->]).
  unfold helper_command. simpl String.eqb. cbv iota.
  rewrite (proj2 (validate_operation_iff _ uid)); [done|]. eexists _, _, _. split; [reflexivity|].
  destruct (operation_found _ _ _ _ Hb Ho) as [Hop _].
  apply mutation_options_authorised; [done..|by eapply registry_identifier|done|apply desktop_journal_ok|eauto].
Qed.

End Composition.

(** C10: the destructive path is guarded: a command is built exactly for an
    operation of the volume's registered filesystem, on a volume that is not
    mounted and not read-only, with no unfinished journal unless the operation is
    recovery (which needs one), and, recovery apart, on a volume whose identity is
    verified, whose allocation was analysed exactly and which is qualified for that
    operation. *)
Theorem mutation_guarded v operation engine journal cells journal_exists :
  is_value (desktop_mutation v operation engine journal cells journal_exists) = true <->
  (exists backend, backend_by_fstype (filesystem v) = Some backend /\
     operation_for backend operation <> None) /\
  mounted v = false /\ readonly v = false /\ journal <> EmptyString /\
  (journal_exists = true <-> operation = "recover") /\
  (operation <> "recover" -> verified v = true /\ exact_analysis v = true) /\
  (operation = "defrag" -> defrag_qualified v = true) /\
  (operation = "growth-defrag" -> growth_qualified v = true).
Proof.
  unfold desktop_mutation. cbv zeta. split.
  - destruct (backend_by_fstype (filesystem v)) as [backend|]; [|done]. cbn [mbind option_bind].
    destruct (operation_for backend operation) as [spec|] eqn:Ho; [|done].
    destruct (_ || readonly v) eqn:H1; [done|]. destruct (_ && negb (exact_analysis v)) eqn:H2; [done|].
    destruct (_ && negb (defrag_qualified v)) eqn:H3; [done|].
    destruct (_ && negb (growth_qualified v)) eqn:H4; [done|].
    destruct (negb (Bool.eqb _ journal_exists)) eqn:H5; [done|].
    destruct (is_empty journal) eqn:H6; [done|]. intros _.
    apply orb_false_iff in H1 as [H1 Hro]. apply orb_false_iff in H1 as [H1 Hmo].
    apply negb_false_iff, Bool.eqb_prop in H5. split_and!; try done.
    + exists backend. by rewrite Ho.
    + by destruct journal.
    + rewrite <- H5. apply String.eqb_eq.
    + intros Hr. apply String.eqb_neq in Hr. rewrite Hr in H1, H2. simpl in H1, H2. split; by apply negb_false_iff.
    + intros ->. simpl in H3. by apply negb_false_iff.
    + intros ->. simpl in H4. by apply negb_false_iff.
  - intros ((backend & -> & Ho) & Hmo & Hro & Hj & Hrec & Hver & Hdef & Hgr). cbn [mbind option_bind].
    destruct (operation_for backend operation) as [spec|]; [|done]. rewrite Hmo, Hro.
    assert (E : String.eqb operation "recover" = journal_exists).
    { destruct journal_exists; [by apply String.eqb_eq, Hrec|]. apply String.eqb_neq. intros H. by apply Hrec in H. }
    rewrite E, Bool.eqb_reflx. replace (is_empty journal) with false by (by destruct journal).
    assert (H1 : negb journal_exists && negb (verified v) = false /\
                 negb journal_exists && negb (exact_analysis v) = false).
    { destruct journal_exists; [done|]. apply String.eqb_neq in E. by destruct (Hver E) as [-> ->]. }
    destruct H1 as [-> ->].
    assert (H3 : String.eqb operation "defrag" && negb (defrag_qualified v) = false)
      by (destruct (String.eqb_spec operation "defrag") as [e|]; [by rewrite (Hdef e)|done]).
    assert (H4 : String.eqb operation "growth-defrag" && negb (growth_qualified v) = false)
      by (destruct (String.eqb_spec operation "growth-defrag") as [e|]; [by rewrite (Hgr e)|done]).
    by rewrite H3, H4.
Qed.

(** The proofs below never look into the registry. *)
#[local] Opaque registry.

(** ** Discovery *)

(** The nodes of the device tree. *)
Inductive below (root : Json) : Json -> Prop :=
| below_here : below root root
| below_child node children child :
    below root node -> find "children" node = Some (JArray children) -> In child children ->
    below root child.

Lemma find_depth key node v : find key node = Some v -> (S (depth v) <= depth node)%nat.
Proof.
  destruct node as [| | | | |members]; try done. simpl find. intros H.
  apply fmap_Some in H as ([k w] & H & ->). apply find_some in H as [H _].
  by apply (depth_object members (k, w)).
Qed.

Lemma below_trans a b c : below a b -> below b c -> below a c.
Proof. intros H. induction 1; [done|by eapply below_child]. Qed.

Lemma below_step root children child v :
  find "children" root = Some (JArray children) -> In child children -> below child v -> below root v.
Proof. intros Hf Hc. apply below_trans. eapply below_child; [apply below_here|done..]. Qed.

Lemma below_inv root v :
  below root v -> v = root \/
  exists children child, find "children" root = Some (JArray children) /\ In child children /\ below child v.
Proof.
  induction 1 as [|node children child _ IH Hf Hc]; [by left|]. right.
  destruct IH as [->|(cs & c & H1 & H2 & H3)].
  - exists children, child. split_and!; [done..|apply below_here].
  - exists cs, c. split_and!; [done..|]. by eapply below_child.
Qed.

Lemma node_volume_object node v : In v (node_volume node) -> exists members, node = JObject members.
Proof.
  unfold node_volume. destruct node as [| | | | |members]; [..|by exists members];
    (replace (value _ "path") with EmptyString by done); rewrite andb_false_r; done.
Qed.

Lemma foldl_visit fuel v cs acc :
  (forall node result, (depth node < fuel)%nat ->
     In v (visit fuel result node) <-> In v result \/ exists n, below node n /\ In v (node_volume n)) ->
  (forall c, In c cs -> (depth c < fuel)%nat) ->
  In v (foldl (visit fuel) acc cs) <->
  In v acc \/ exists c n, In c cs /\ below c n /\ In v (node_volume n).
Proof.
  intros IH. revert acc. induction cs as [|c cs IHc]; intros acc Hcs; cbn [foldl].
  - split; [by left|]. by intros [?|(? & ? & [] & _)].
  - rewrite IHc by (intros; apply Hcs; by right). rewrite IH by (apply Hcs; by left). split.
    + intros [[?|(n & H1 & H2)]|(child & n & H0 & H1 & H2)]; [by left|right..].
      * exists c, n. split_and!; [by left|done..].
      * exists child, n. split_and!; [by right|done..].
    + intros [?|(child & n & [->|H0] & H1 & H2)]; [by left; left|left; right; by exists n|].
      right. by exists child, n.
Qed.

(** [visit] collects the volumes of every node below the one it is given. *)
Lemma visit_below fuel node result v :
  (depth node < fuel)%nat ->
  In v (visit fuel result node) <-> In v result \/ exists n, below node n /\ In v (node_volume n).
Proof.
  revert node result. induction fuel as [|fuel IH]; intros node result Hf; [lia|].
  assert (Hleaf : forall r, (In v r <-> In v result \/ In v (node_volume node)) ->
    (forall cs, find "children" node <> Some (JArray cs)) ->
    In v r <-> In v result \/ exists n, below node n /\ In v (node_volume n)).
  { intros r -> Hno. split; (intros [?|H]; [by left|right]).
    - exists node. by split; [apply below_here|].
    - destruct H as (n & Hn & Hv). apply below_inv in Hn as [->|(cs & c & H & _)]; [done|]. by apply Hno in H. }
  cbn [visit]. destruct node as [| | | | |members] eqn:En;
    try (apply Hleaf; [|done]; split; [by left|intros [?|H]; [done|]];
         by apply node_volume_object in H as [? ?]).
  rewrite <- En in *. destruct (find "children" node) as [[| | | |children|]|] eqn:Ec;
    try (apply Hleaf; [by rewrite in_app_iff|done]).
  apply find_depth in Ec as Hd. clear Hleaf.
  assert (Hall : forall child, In child children -> (depth child < fuel)%nat).
  { intros child Hc. apply depth_array in Hc. lia. }
  rewrite (foldl_visit fuel v children) by done. rewrite in_app_iff. split.
  - intros [[?|H]|(child & n & H0 & H1 & H2)]; [by left|right..].
    + exists node. by split; [apply below_here|].
    + exists n. split; [|done]. by eapply below_step.
  - intros [?|(n & Hn & Hv)]; [by left; left|]. apply below_inv in Hn as [->|(cs & c & H & Hc & Hb)].
    + left. by right.
    + injection (eq_trans (eq_sym Ec) H) as <-. right. by exists c, n.
Qed.

(** A volume of the discovery carries no authority. *)
Definition unproved (v : DesktopVolume) : Prop :=
  verified v = false /\ exact_analysis v = false /\ defrag_qualified v = false /\
  growth_qualified v = false /\ image v = false.

Lemma node_volume_unproved node v :
  In v (node_volume node) ->
  unproved v /\ path v = value node "path" /\ path v <> EmptyString /\ mounted v = is_mounted node /\
  readonly v = flag node "ro" /\
  (backend_by_fstype (filesystem v) <> None \/ generic_fat (filesystem v) = true).
Proof.
  unfold node_volume. destruct (_ && _) eqn:E; [|done]. apply andb_true_iff in E as [Hb Hp].
  apply orb_true_iff in Hb. intros [<-|[]]. unfold unproved. cbn. split_and!; try done.
  - by destruct (value node "path").
  - destruct Hb as [Hb|Hb]; [left|by right]. by destruct (backend_by_fstype _).
Qed.

(** Discovery finds exactly the volumes of the nodes below the listed block
    devices, at any depth, and grants nothing: each has a path and a filesystem the
    registry or the generic FAT names know, with its mount and read-only state, and
    no command other than recovery can be built for it. *)
Theorem discovery_grants_nothing lsblk v :
  (In v (desktop_discover lsblk) <->
   exists nodes root node, find "blockdevices" lsblk = Some (JArray nodes) /\ In root nodes /\
     below root node /\ In v (node_volume node)) /\
  (In v (desktop_discover lsblk) ->
   unproved v /\ path v <> EmptyString /\
   forall operation engine journal cells journal_exists,
     is_value (desktop_mutation v operation engine journal cells journal_exists) = true ->
     operation = "recover").
Proof.
  assert (H : In v (desktop_discover lsblk) <->
   exists nodes root node, find "blockdevices" lsblk = Some (JArray nodes) /\ In root nodes /\
     below root node /\ In v (node_volume node)).
  { unfold desktop_discover. destruct (find "blockdevices" lsblk) as [[| | | |nodes|]|] eqn:E;
      try (split; [done|by intros (? & ? & ? & ? & _)]).
    apply find_depth in E as Hd.
    assert (Hall : forall node, In node nodes -> (depth node < S (depth lsblk))%nat).
    { intros node Hn. apply depth_array in Hn. lia. }
    rewrite foldl_visit by (done || by intros; apply visit_below). split.
    - intros [[]|(c & n & H1 & H2 & H3)]. by exists nodes, c, n.
    - intros (ns & c & n & [= <-] & H1 & H2 & H3). right. by exists c, n. }
  split; [done|]. rewrite H. intros (nodes & root & node & _ & _ & _ & Hv).
  apply node_volume_unproved in Hv as (Hu & _ & Hp & _). split_and!; [done..|].
  intros operation engine journal cells journal_exists Hm. apply mutation_guarded in Hm as (_ & _ & _ & _ & _ & Hm & _).
  destruct (string_eq_decision operation "recover") as [|Hne]; [done|]. apply Hm in Hne as [Hne _].
  destruct Hu as [Hu _]. congruence.
Qed.

(** Proving the identity: it succeeds exactly when the detected name belongs to
    the backend the discovery named, or to a FAT width for a generic FAT hint; the
    volume then carries the canonical name, which the registry resolves to that
    backend, and no stale qualification: recovery apart, no command can be built
    until a fresh analysis. *)
Theorem identity_verified v detected v' :
  desktop_verify_identity v detected = Value v' <->
  exists actual, backend_by_fstype detected = Some actual /\
    (if generic_fat (filesystem v) then fat_variant actual = true
     else backend_by_fstype (filesystem v) = Some actual) /\
    backend_by_fstype (filesystem v') = Some actual /\ filesystem v' = id actual /\
    v' = mkVolume (path v) (id actual) (label v) (filesystem_uuid v) (partition_uuid v) (serial v) (wwn v)
           (size v) (start_sector v) (mounted v) (readonly v) (image v) true false false false "" "" /\
    forall operation engine journal cells journal_exists,
      is_value (desktop_mutation v' operation engine journal cells journal_exists) = true ->
      operation = "recover".
Proof.
  unfold desktop_verify_identity. split.
  - destruct (backend_by_fstype detected) as [actual|] eqn:Ha; [|done]. intros H.
    apply guard_value in H as [Hc [= <-]]. exists actual. split_and!; try done.
    + apply orb_false_iff in Hc as [H1 H2]. destruct (generic_fat (filesystem v)); simpl in *.
      * by apply negb_false_iff.
      * apply negb_false_iff in H1. by apply bool_decide_eq_true in H1.
    + apply backend_found in Ha as [Hin _]. apply backend_of_name; [done|]. by left.
    + intros operation engine journal cells journal_exists Hm.
      apply mutation_guarded in Hm as (_ & _ & _ & _ & _ & Hm & _).
      destruct (string_eq_decision operation "recover") as [|Hne]; [done|]. by apply Hm in Hne as [_ ?].
  - intros (actual & -> & Hc & _ & _ & -> & _). destruct (generic_fat (filesystem v)); simpl.
    + by rewrite Hc.
    + by rewrite Hc, bool_decide_true.
Qed.

(** The controls and the commands agree: a command that can be built has its
    control enabled on an idle desktop, the recovery control is enabled exactly
    when the recovery command can be built, and a busy desktop offers only to stop. *)
Theorem controls_match_commands v operation engine journal cells journal_exists stopping :
  journal <> EmptyString ->
  let controls := desktop_controls (Some v) false stopping journal_exists in
  (is_value (desktop_mutation v operation engine journal cells journal_exists) = true ->
   (operation = "defrag" /\ defrag controls = true) \/
   (operation = "growth-defrag" /\ growth_defrag controls = true) \/
   (operation = "recover" /\ recover controls = true)) /\
  (recover controls = is_value (desktop_mutation v "recover" engine journal cells journal_exists) \/
   journal_exists = false /\ recover controls = false) /\
  desktop_controls (Some v) true stopping journal_exists =
    mkControls false false false false false (negb stopping).
Proof.
  intros Hj controls. split_and!.
  - intros H. apply mutation_guarded in H as ((backend & Hb & Ho) & Hm & Hr & _ & Hrec & Hver & _).
    unfold controls, desktop_controls. rewrite Hb, Hm, Hr. cbn [orb].
    destruct (operation_for backend operation) as [spec|] eqn:Hs; [|done].
    destruct (operation_found _ _ _ _ Hb Hs) as [Hop _]. unfold is_operation in Hop.
    rewrite !orb_true_iff, !String.eqb_eq in Hop. destruct Hop as [[-> | ->] | ->].
    + left. destruct (Hver ltac:(done)) as [-> _]. by rewrite Hs.
    + right. left. destruct (Hver ltac:(done)) as [-> _]. by rewrite Hs.
    + right. right. rewrite (proj2 Hrec eq_refl), Hs. by destruct (verified v).
  - destruct journal_exists; [left|right].
    + unfold controls, desktop_controls, desktop_mutation. cbv zeta.
      destruct (backend_by_fstype (filesystem v)) as [backend|]; [|done]. cbn [mbind option_bind].
      destruct (operation_for backend "recover") as [spec|]; [|by destruct (readonly v), (mounted v), (verified v)].
      destruct journal; [done|]. by destruct (readonly v), (mounted v), (verified v).
    + split; [done|]. unfold controls, desktop_controls.
      destruct (backend_by_fstype (filesystem v)); [|done]. by destruct (readonly v), (mounted v), (verified v).
  - unfold desktop_controls. by destruct stopping.
Qed.

(** The journal follows the medium, not the device name: two volumes with the
    same stable identity share their journal whatever their paths are, and every
    journal is a plain file directly below the user's state directory. *)
Theorem journal_follows_identity {digest : Sha256} {D : Sha256Laws digest} v w uid :
  stable_identity v <> EmptyString -> stable_identity w = stable_identity v ->
  desktop_journal w uid = desktop_journal v uid /\ journal_ok (desktop_journal v uid) uid.
Proof.
  intros Hne He. split; [|apply desktop_journal_ok].
  unfold desktop_journal, journal_stem, journal_suffix, journal_material. rewrite He.
  by destruct (stable_identity v).
Qed.

(** ** Witnesses *)

Definition demo_volume : DesktopVolume :=
  mkVolume "/dev/sdb1" "vfat" "data" "1234-ABCD" "" "" "" 1048576 2048 false false false true true true true "" "".

#[export] Instance sha256_zero : Sha256 := fun _ => repeat 0 32.
#[export] Instance sha256_zero_laws : Sha256Laws sha256_zero.
Proof. intros text. split; [done|]. unfold sha256, sha256_zero. repeat (constructor; [unfold is_u8; lia|]). constructor. Qed.

Lemma mutation_authorised_witness :
  exists args,
    desktop_mutation demo_volume "growth-defrag" "engine"
      (desktop_journal (digest := sha256_zero) demo_volume 1000) 4096 false = Value ("engine" :: args) /\
    helper_command "operation-engine" args 1000 = Value (mkCommand kOperationEngine args).
Proof.
  eexists. split; [vm_compute; reflexivity|].
  apply (mutation_authorised (D := sha256_zero_laws) demo_volume "growth-defrag" "engine" 1000 4096 false);
    [reflexivity|vm_compute; reflexivity].
Defined.

Lemma controls_match_commands_witness :
  let controls := desktop_controls (Some demo_volume) false false false in
  defrag controls = true /\ recover controls = false.
Proof.
  destruct (controls_match_commands demo_volume "defrag" "engine" "/j" 4096 false false ltac:(done))
    as (H1 & _ & _).
  destruct H1 as [[_ H]|[[H _]|[H _]]]; [vm_compute; reflexivity|split; [exact H|vm_compute; reflexivity]
    |discriminate H|discriminate H].
Defined.

Lemma journal_follows_identity_witness :
  let other := mkVolume "/dev/sdc7" "vfat" "x" "1234-ABCD" "" "S" "W" 7 9 true true false false false false false "" "" in
  desktop_journal (digest := sha256_zero) other 1000 = desktop_journal (digest := sha256_zero) demo_volume 1000.
Proof.
  intros other. apply (journal_follows_identity (D := sha256_zero_laws) demo_volume other 1000);
    [discriminate|reflexivity].
Defined.
