(* ===== verification/DesktopMap.v ===== *)
(** The raster of the allocation map, [native/desktop_map_geometry.cpp]: which
    cells a device pixel stands for, and how many units at least and at most. *)
From S2P Require Import Prelude CString Infiltratr Exceptions NativeJson.

Record DesktopMapRasterGeometry := mkRaster {
  pixels : Z;
  enlarged : bool;
  minimum_units : Z;
  maximum_units : Z;
}.

Definition cell_number (data : Json) (key : string) : Z :=
  match find key data with Some value => unsigned_or 0 value | None => 0 end.

(** [end - start + 1] of a group of cells from [first] to [last], which wraps. *)
Definition group_span (first last : Json) : Z :=
  u64 (u64 (cell_number last "end" - cell_number first "start") + 1).

Definition widen (raster : DesktopMapRasterGeometry) (span : Z) : DesktopMapRasterGeometry :=
  mkRaster (pixels raster) (enlarged raster) (Z.min (minimum_units raster) span)
    (Z.max (maximum_units raster) span).

(** The first cell of a pixel, and the one after its last. *)
Definition pixel_begin (cells capacity pixel : Z) : Z := u64 (pixel * cells) / capacity.
Definition pixel_end (cells capacity pixel : Z) : Z := u64 (u64 (pixel + 1) * cells) / capacity.

(** [cells[index]]; outside the array the C++ is undefined. *)
Definition cell_at (cells : list Json) (index : Z) : Json := nth (Z.to_nat index) cells JNull.

Definition pixel_span (cells : list Json) (capacity pixel : Z) : Z :=
  let n := Z.of_nat (length cells) in
  group_span (cell_at cells (pixel_begin n capacity pixel)) (cell_at cells (pixel_end n capacity pixel - 1)).

Definition pixel_numbers (capacity : Z) : list Z := map Z.of_nat (List.seq 0 (Z.to_nat capacity)).

Definition desktop_map_raster_geometry (cells : list Json) (capacity : Z) : DesktopMapRasterGeometry :=
  let raster := mkRaster 0 false 0 0 in
  match cells with
  | [] => raster
  | _ =>
      if capacity =? 0 then raster
      else
        let enlarged := Z.of_nat (length cells) <? capacity in
        let raster := mkRaster capacity enlarged UINT64_MAX 0 in
        foldl widen raster
          (if enlarged then map (fun cell => group_span cell cell) cells
           else map (pixel_span cells capacity) (pixel_numbers capacity))
  end.

(** ** Facts *)

Lemma foldl_widen spans raster :
  foldl widen raster spans =
  mkRaster (pixels raster) (enlarged raster) (foldl Z.min (minimum_units raster) spans)
    (foldl Z.max (maximum_units raster) spans).
Proof. revert raster. induction spans as [|s spans IH]; intros raster; simpl; [by destruct raster|]. by rewrite IH. Qed.

Lemma foldl_min_le acc l : foldl Z.min acc l <= acc /\ Forall (fun x => foldl Z.min acc l <= x) l.
Proof.
  revert acc. induction l as [|x l IH]; intros acc; simpl; [split; [lia|constructor]|].
  destruct (IH (Z.min acc x)) as [H1 H2]. split; [lia|]. constructor; [lia|done].
Qed.

Lemma foldl_min_in acc l : foldl Z.min acc l = acc \/ In (foldl Z.min acc l) l.
Proof.
  revert acc. induction l as [|x l IH]; intros acc; simpl; [by left|].
  destruct (IH (Z.min acc x)) as [->|H]; [|by right; right]. destruct (Z.min_spec acc x) as [[_ ->]|[_ ->]]; auto.
Qed.

Lemma foldl_max_ge acc l : acc <= foldl Z.max acc l /\ Forall (fun x => x <= foldl Z.max acc l) l.
Proof.
  revert acc. induction l as [|x l IH]; intros acc; simpl; [split; [lia|constructor]|].
  destruct (IH (Z.max acc x)) as [H1 H2]. split; [lia|]. constructor; [lia|done].
Qed.

Lemma foldl_max_in acc l : foldl Z.max acc l = acc \/ In (foldl Z.max acc l) l.
Proof.
  revert acc. induction l as [|x l IH]; intros acc; simpl; [by left|].
  destruct (IH (Z.max acc x)) as [->|H]; [|by right; right]. destruct (Z.max_spec acc x) as [[_ ->]|[_ ->]]; auto.
Qed.

Lemma group_span_range a b : is_u64 (group_span a b).
Proof. apply u64_range. Qed.

Definition raster_spans (enlarged : bool) (cells : list Json) (capacity : Z) : list Z :=
  if enlarged then map (fun cell => group_span cell cell) cells
  else map (pixel_span cells capacity) (pixel_numbers capacity).

Lemma raster_value cells capacity :
  cells <> [] -> 0 < capacity ->
  desktop_map_raster_geometry cells capacity =
  let enlarged := Z.of_nat (length cells) <? capacity in
  let spans := raster_spans enlarged cells capacity in
  mkRaster capacity enlarged (foldl Z.min UINT64_MAX spans) (foldl Z.max 0 spans).
Proof.
  intros Hne Hc. unfold desktop_map_raster_geometry. destruct cells as [|c cs]; [done|].
  rewrite (proj2 (Z.eqb_neq capacity 0)) by lia. by rewrite foldl_widen.
Qed.

Lemma raster_spans_range enlarged cells capacity :
  cells <> [] -> 0 < capacity ->
  raster_spans enlarged cells capacity <> [] /\ Forall is_u64 (raster_spans enlarged cells capacity).
Proof.
  intros Hne Hc. unfold raster_spans. split.
  - destruct enlarged; [by destruct cells|]. unfold pixel_numbers. by destruct (Z.to_nat capacity) eqn:E; [lia|].
  - destruct enlarged; apply List.Forall_forall; intros x Hx; apply in_map_iff in Hx as (y & <- & _);
      apply group_span_range.
Qed.

(** ** Properties *)

(** The pixels of a map with at least as many cells as pixels share out the
    cells: each pixel stands for a group of one cell or more inside the array, the
    groups follow each other, the first starts at the first cell and the last ends
    at the last; no product overflows while cells times pixels fits in 64 bits. *)
Theorem pixels_partition_cells cells capacity pixel :
  0 < capacity <= cells -> capacity * cells <= UINT64_MAX -> 0 <= pixel < capacity ->
  0 <= pixel_begin cells capacity pixel < pixel_end cells capacity pixel /\
  pixel_end cells capacity pixel <= cells /\
  pixel_begin cells capacity 0 = 0 /\ pixel_end cells capacity (capacity - 1) = cells /\
  (pixel + 1 < capacity -> pixel_begin cells capacity (pixel + 1) = pixel_end cells capacity pixel).
Proof.
  intros Hc Hn Hp. unfold pixel_begin, pixel_end.
  assert (H1 : pixel * cells <= capacity * cells) by nia.
  assert (H2 : (pixel + 1) * cells <= capacity * cells) by nia.
  assert (H3 : capacity <= capacity * cells) by nia.
  rewrite (u64_small (pixel + 1)), (u64_small (pixel * cells)), (u64_small ((pixel + 1) * cells))
    by (unfold is_u64; nia).
  rewrite (u64_small (0 * cells)), (u64_small (capacity - 1 + 1)) by (unfold is_u64; lia).
  replace (capacity - 1 + 1) with capacity by lia. rewrite (u64_small (capacity * cells)) by (unfold is_u64; lia).
  split_and!.
  - apply Z.div_pos; nia.
  - assert (E : (pixel + 1) * cells = pixel * cells + cells) by lia.
    assert (pixel * cells / capacity + 1 <= (pixel + 1) * cells / capacity); [|lia].
    rewrite <- Z.div_add by lia. apply Z.div_le_mono; lia.
  - apply Z.div_le_upper_bound; lia.
  - done.
  - rewrite Z.mul_comm. apply Z.div_mul. lia.
  - intros _. done.
Qed.

(** The bounds of the raster are attained and hold: when there is anything to
    show, the minimum and maximum are the least and the greatest span of the groups
    (the cells themselves when the map is enlarged), never the initial sentinels. *)
Theorem raster_bounds_exact cells capacity :
  cells <> [] -> 0 < capacity ->
  let raster := desktop_map_raster_geometry cells capacity in
  let spans := raster_spans (enlarged raster) cells capacity in
  pixels raster = capacity /\
  (enlarged raster = true <-> Z.of_nat (length cells) < capacity) /\
  In (minimum_units raster) spans /\ In (maximum_units raster) spans /\
  Forall (fun span => minimum_units raster <= span <= maximum_units raster) spans.
Proof.
  intros Hne Hc. cbv zeta. rewrite raster_value by done. cbv zeta. cbn [pixels enlarged minimum_units maximum_units].
  set (e := Z.of_nat (length cells) <? capacity). destruct (raster_spans_range e cells capacity Hne Hc) as [Hs Hr].
  set (spans := raster_spans e cells capacity) in *.
  destruct (foldl_min_le UINT64_MAX spans) as [Hm1 Hm2], (foldl_max_ge 0 spans) as [HM1 HM2].
  destruct spans as [|s ss] eqn:Es; [done|]. rewrite <- Es in *.
  assert (Hin : In s spans) by (rewrite Es; by left).
  rewrite List.Forall_forall in Hm2, HM2, Hr. specialize (Hr s Hin) as Hs0. unfold is_u64 in Hs0.
  specialize (Hm2 s Hin) as Hms. specialize (HM2 s Hin) as HMs. split_and!.
  - done.
  - unfold e. apply Z.ltb_lt.
  - destruct (foldl_min_in UINT64_MAX spans) as [E|H]; [|done]. replace (foldl Z.min UINT64_MAX spans) with s by lia. done.
  - destruct (foldl_max_in 0 spans) as [E|H]; [|done]. replace (foldl Z.max 0 spans) with s by lia. done.
  - apply List.Forall_forall. intros x Hx. split; [by apply Hm2|by apply HM2].
Qed.

Lemma pixels_partition_cells_witness :
  0 <= pixel_begin 10 4 2 < pixel_end 10 4 2.
Proof. apply (pixels_partition_cells 10 4 2); lia. Defined.

Lemma raster_bounds_exact_witness :
  let cell a b := JObject [("end", unsigned_integer b); ("start", unsigned_integer a)] in
  pixels (desktop_map_raster_geometry [cell 0 9; cell 10 14; cell 15 99] 2) = 2.
Proof. intros cell. apply (raster_bounds_exact [cell 0 9; cell 10 14; cell 15 99] 2); [discriminate|lia]. Defined.
