(* ===== verification/ModuleHost.v ===== *)
(** The module host, [native/filesystem_module_host.c]: how a format module is
    found in the trusted directory, loaded, validated and run.  The production
    build is modelled (the branches of [IFS_MODULE_TESTING] are not in it). *)
From S2P Require Import Prelude Effects CString Sys.

(** ** Modules *)

(** A versioned interface table a module exports: the numbers and names of its
    head and the function pointers that are not NULL. *)
Record module_api := mkApi {
  abi_version : Z;
  structure_bytes : Z;
  format_id : option string;
  capabilities : Z;
  methods : list string;
}.

(** Beside system calls: the directory stream, the dynamic loader, the functions
    of a loaded module, the stop handlers and the standard streams. *)
Inductive loadE : Type -> Type :=
| LSys {X} (e : sysE X) : loadE X
(** [fdopendir] and [readdir] to the end; [None] when [fdopendir] fails. *)
| ReadDirFd (fd : Z) : loadE (option (list string))
| CloseDir (fd : Z) : loadE unit
(** [read] and [pread] of at most [size] bytes; [None] on failure. *)
| ReadFd (fd size : Z) : loadE (option string)
(** [dlopen]: the image, or the text of [dlerror]. *)
| Dlopen (path : string) : loadE (Z + string)
| Dlsym (image : Z) (symbol : string) : loadE bool
(** [dlsym] and the call of the entry function it gives. *)
| EntryTable (image : Z) (symbol : string) : loadE (option module_api)
| Invoke (image : Z) (symbol method : string) (arguments : list string) : loadE Z
| Dlclose (image : Z) : loadE unit
| StopClear : loadE unit
(** [sigaction] of both handlers. *)
| StopInstall : loadE bool
| Fputs (text : string) : loadE unit
| FputsError (text : string) : loadE unit
| FerrorStdout : loadE bool.

Definition load := prog loadE.
Definition on_system {X} (e : sysE X) : load X := call (LSys e).
Definition close (fd : Z) : load unit := on_system (Close fd) ;;; Ret tt.

Definition IFS_DEFRAG_ABI_V2 : Z := 2.
Definition IFS_DEFRAG_ANALYSE : Z := 1.
Definition IFS_DEFRAG_RELAYOUT : Z := 2.
Definition IFS_DEFRAG_GROWTH : Z := 4.
Definition IFS_DEFRAG_RECOVER : Z := 8.
(** [sizeof(IfsDefragModuleV2)]: two words, a pointer, 64 bits, a pointer. *)
Definition sizeof_module_v2 : Z := 32.
Definition interface_v2 : string := "infiltrator_filesystem_defrag_v2".

Definition has_method (name : string) (api : module_api) : bool := existsb (String.eqb name) (methods api).

(** ** Trust *)

Definition owner : Z := 0.

(** Owned by root and not writable by group or others (022). *)
Definition trusted_status (directory : bool) (st : stat) : bool :=
  (if directory then S_ISDIR (st_mode st) else S_ISREG (st_mode st)) &&
  (st_uid st =? owner) && (Z.land (st_mode st) 18 =? 0).

Definition trusted (fd : Z) (directory : bool) : load bool :=
  let* r := on_system (Fstat fd) in
  Ret (match r with Ok st => trusted_status directory st | Err _ => false end).

Definition directory_flags : list oflag := [O_RDONLY; O_DIRECTORY; O_NOFOLLOW; O_CLOEXEC].
Definition file_flags : list oflag := [O_RDONLY; O_NOFOLLOW; O_CLOEXEC].

(** The trust test of a descriptor just opened, which is closed when it fails. *)
Definition keep_trusted (opened : result Z) (directory : bool) : load (option Z) :=
  match opened with
  | Err _ => Ret None
  | Ok fd =>
      let* ok := trusted fd directory in
      if ok : bool then Ret (Some fd) else close fd ;;; Ret None
  end.

Definition ifs_open_module_directory : load (option Z) :=
  let* opened := on_system (Open "/System" directory_flags) in
  let* parent := keep_trusted opened true in
  match parent with
  | None => Ret None
  | Some parent =>
      let* opened := on_system (Openat parent "Filesystems" directory_flags) in
      close parent ;;;
      keep_trusted opened true
  end.

(** [/proc/self/fd/%d] *)
Definition fd_path (fd : Z) : string := ("/proc/self/fd/" ++ utoa fd)%string.

(** ** Loading one module *)

Definition accepts_v2 (format : string) (api : option module_api) : bool :=
  match api with
  | None => false
  | Some api =>
      (abi_version api =? IFS_DEFRAG_ABI_V2) && (sizeof_module_v2 <=? structure_bytes api) &&
      bool_decide (format_id api = Some format) && has_method "run" api &&
      negb (Z.land (capabilities api)
        (Z.lor (Z.lor (Z.lor IFS_DEFRAG_ANALYSE IFS_DEFRAG_RELAYOUT) IFS_DEFRAG_GROWTH) IFS_DEFRAG_RECOVER) =? 0)
  end.

(** The caller of a module, over the user state it gets and leaves. *)
Definition module_caller (U : Type) : Type := Z -> U -> load (Z * U).

(** From the loaded image on; [fd] stays open until it is closed. *)
Definition use_image {U} (format filename interface : string) (caller : module_caller U) (user : U)
    (fd image : Z) : load (Z * U) :=
  let* valid :=
    if String.eqb interface interface_v2 then
      let* api := call (EntryTable image interface) in
      Ret (accepts_v2 format api)
    else Ret true in
  if negb valid then
    call (FputsError (filename ++ " lacks the required " ++ format ++ " Defragmenter interface" ++
      String LF "")) ;;;
    call (Dlclose image) ;;; close fd ;;; Ret (1, user)
  else
    let* requested := call (Dlsym image interface) in
    let* r := if requested : bool then caller image user else Ret (1, user) in
    call (Dlclose image) ;;; close fd ;;; Ret r.

Definition ifs_filesystem_module_call {U} (format filename : option string) (interface : string)
    (caller : module_caller U) (user : U) : load (Z * U) :=
  match format, filename with
  | Some format, Some filename =>
      let missing :=
        call (FputsError ("Install or update the trusted /System/Filesystems/" ++ filename ++
          " module; " ++ format ++ " operations require its SO interface." ++ String LF "")) ;;;
        Ret (1, user) in
      if is_empty filename || has_char "/" filename || (15 <? strlen format) then Ret (1, user)
      else
        let* directory := ifs_open_module_directory in
        match directory with
        | None => missing
        | Some directory =>
            let* opened := on_system (Openat directory filename file_flags) in
            close directory ;;;
            let* fd := keep_trusted opened false in
            match fd with
            | None => missing
            | Some fd =>
                let* image := call (Dlopen (fd_path fd)) in
                match image with
                | inr error =>
                    call (FputsError ("Cannot load " ++ filename ++ ": " ++ error ++ String LF "")) ;;;
                    close fd ;;; Ret (1, user)
                | inl image => use_image format filename interface caller user fd image
                end
            end
        end
  | _, _ => Ret (1, user)
  end.

(** ** Discovery *)

Definition in_filename_class (c : ascii) : bool :=
  ((code "a" <=? code c) && (code c <=? code "z")) || ((code "A" <=? code c) && (code c <=? code "Z")) ||
  isdigit c || bool_decide (c = "_"%char) || bool_decide (c = "-"%char) || bool_decide (c = "."%char).

Definition ifs_safe_module_filename (name : string) : bool :=
  (4 <=? strlen name) && (strlen name <=? 59) &&
  String.eqb (String.substring (String.length name - 3) 3 name) ".so" && forall_char in_filename_class name.

Definition in_format_class (c : ascii) : bool :=
  ((code "a" <=? code c) && (code c <=? code "z")) || isdigit c || bool_decide (c = "_"%char).

(** The checks of a format name, of the module's and of the caller's. *)
Definition valid_format (name : string) : bool :=
  (0 <? strlen name) && (strlen name <=? 15) && forall_char in_format_class name.

(** What an interface table offers: the name and capabilities of a provider. *)
Definition offered (api : option module_api) : option (string * Z) :=
  match api with
  | None => None
  | Some api =>
      match format_id api with
      | None => None
      | Some format =>
          if (abi_version api =? IFS_DEFRAG_ABI_V2) && (sizeof_module_v2 <=? structure_bytes api) &&
             has_method "run" api &&
             negb (Z.land (capabilities api)
               (Z.lor (Z.lor (Z.lor IFS_DEFRAG_ANALYSE IFS_DEFRAG_RELAYOUT) IFS_DEFRAG_GROWTH)
                  IFS_DEFRAG_RECOVER) =? 0) && valid_format format
          then Some (format, capabilities api) else None
      end
  end.

Definition ifs_probe_module_v2 (directory : Z) (name : string) : load (option (string * Z)) :=
  if negb (ifs_safe_module_filename name) then Ret None
  else
    let* opened := on_system (Openat directory name file_flags) in
    let* fd := keep_trusted opened false in
    match fd with
    | None => Ret None
    | Some fd =>
        if negb (fits (fd_path fd) 64) then close fd ;;; Ret None
        else
          let* image := call (Dlopen (fd_path fd)) in
          match image with
          | inr _ => close fd ;;; Ret None
          | inl image =>
              let* api := call (EntryTable image interface_v2) in
              call (Dlclose image) ;;; close fd ;;; Ret (offered api)
          end
    end.

(** A JSON string with nothing to escape. *)
Definition in_quotes (s : string) : string := String QUOTE (s ++ String QUOTE "").

Definition module_text (format filename : string) (capabilities : Z) : string :=
  ("{" ++ in_quotes "format_id" ++ ":" ++ in_quotes format ++ "," ++ in_quotes "filename" ++ ":" ++
   in_quotes filename ++ "," ++ in_quotes "capabilities" ++ ":" ++ utoa capabilities ++ "}")%string.

Definition list_head : string := ("{" ++ in_quotes "schema" ++ ":1," ++ in_quotes "modules" ++ ":[")%string.
Definition list_tail : string := ("]}" ++ String LF "")%string.

Fixpoint list_loop (directory : Z) (entries : list string) (first : bool) : load unit :=
  match entries with
  | [] => Ret tt
  | name :: entries =>
      let* probe := ifs_probe_module_v2 directory name in
      match probe with
      | None => list_loop directory entries first
      | Some (format, capabilities) =>
          (if first then Ret tt else call (Fputs ",")) ;;;
          call (Fputs (module_text format name capabilities)) ;;;
          list_loop directory entries false
      end
  end.

Definition ifs_filesystem_module_list_v2 : load Z :=
  let* directory := ifs_open_module_directory in
  match directory with
  | None => call (Fputs (list_head ++ list_tail)) ;;; Ret 0
  | Some directory =>
      let* entries := call (ReadDirFd directory) in
      match entries with
      | None => close directory ;;; Ret 1
      | Some entries =>
          call (Fputs list_head) ;;;
          list_loop directory entries true ;;;
          call (Fputs list_tail) ;;;
          call (CloseDir directory) ;;;
          let* failed := call FerrorStdout in
          Ret (if failed : bool then 1 else 0)
      end
  end.

(** The walk of [find]: the name selected and the number of matches seen. *)
Fixpoint find_loop (directory : Z) (format : string) (entries : list string) (selected : string)
    (matches : Z) : load (string * Z) :=
  match entries with
  | [] => Ret (selected, matches)
  | name :: entries =>
      let* probe := ifs_probe_module_v2 directory name in
      match probe with
      | None => find_loop directory format entries selected matches
      | Some (discovered, _) =>
          if negb (String.eqb discovered format) then find_loop directory format entries selected matches
          else if negb (matches + 1 =? 1) then Ret (selected, matches + 1)
          else if (strlen name =? 0) || (64 <=? strlen name) then Ret (selected, 2)
          else find_loop directory format entries name (matches + 1)
      end
  end.

Definition ifs_filesystem_module_find_v2 (format : option string) (capacity : Z) : load (option string) :=
  match format with
  | None => Ret None
  | Some format =>
      if (capacity =? 0) || negb (valid_format format) then Ret None
      else
        let* directory := ifs_open_module_directory in
        match directory with
        | None => Ret None
        | Some directory =>
            let* entries := call (ReadDirFd directory) in
            match entries with
            | None => close directory ;;; Ret None
            | Some entries =>
                let* (selected, matches) := find_loop directory format entries EmptyString 0 in
                call (CloseDir directory) ;;;
                Ret (if negb (matches =? 1) || (strlen selected =? 0) || (capacity <? strlen selected + 1)
                     then None else Some selected)
            end
        end
  end.

(** ** Commands *)

(** The capabilities a command needs; none for a command it does not know. *)
Definition required_capabilities (operation : string) : Z :=
  if String.eqb operation "defrag" then
    Z.lor (Z.lor IFS_DEFRAG_ANALYSE IFS_DEFRAG_RELAYOUT) IFS_DEFRAG_RECOVER
  else if String.eqb operation "growth-defrag" then
    Z.lor (Z.lor IFS_DEFRAG_ANALYSE IFS_DEFRAG_GROWTH) IFS_DEFRAG_RECOVER
  else if String.eqb operation "recover" then IFS_DEFRAG_RECOVER
  else if String.eqb operation "analyse" || String.eqb operation "analyse-json" ||
          String.eqb operation "map" then IFS_DEFRAG_ANALYSE
  else 0.

Definition run_command : module_caller (list string) := fun image arguments =>
  let* api := call (EntryTable image interface_v2) in
  match api, arguments with
  | Some api, _ :: operation :: _ =>
      let required := required_capabilities operation in
      if negb (required =? 0) && negb (Z.land (capabilities api) required =? required) then
        call (FputsError ("Filesystem module does not provide " ++ operation ++ " capability" ++
          String LF "")) ;;;
        Ret (1, arguments)
      else
        let* r := call (Invoke image interface_v2 "run" arguments) in
        Ret (r, arguments)
  | _, _ => Ret (1, arguments)
  end.

Definition LD_STOP_READY_MARKER : string := "@@STOP_READY".

Definition mutates (operation : string) : bool :=
  String.eqb operation "defrag" || String.eqb operation "growth-defrag" || String.eqb operation "recover".

(** [ld_stop_clear], [ld_stop_install_handlers] and [ld_stop_report_ready]. *)
Definition prepare_stop : load unit :=
  call StopClear ;;;
  let* installed := call StopInstall in
  if negb installed then Die "install stop handlers"
  else call (Fputs (LD_STOP_READY_MARKER ++ String LF "")).

Definition ifs_filesystem_module_run (format filename : string) (arguments : list string) : load Z :=
  (match arguments with
   | _ :: operation :: _ => if mutates operation then prepare_stop else Ret tt
   | _ => Ret tt
   end) ;;;
  let* (r, _) :=
    ifs_filesystem_module_call (Some format) (Some filename) interface_v2 run_command arguments in
  Ret r.

(** ** Journals *)

Definition journal_head (format : string) : string :=
  ("IFS-DEFRAG-JOURNAL:1:" ++ format ++ String LF "")%string.

Definition ifs_filesystem_journal_matches (path format : option string) : load bool :=
  match path, format with
  | Some path, Some format =>
      let* opened := on_system (Open path file_flags) in
      match opened with
      | Err _ => Ret false
      | Ok fd =>
          let* first := call (ReadFd fd 63) in
          close fd ;;;
          let expected := journal_head format in
          Ret (match first with
               | None => false
               | Some first => (strlen expected <? 64) && String.prefix expected first
               end)
      end
  | _, _ => Ret false
  end.

(** ** What is loaded and what is run *)

Abbreviation trace := (list (event loadE)).

(** The events that open the module directory: [/System] and then [Filesystems]
    below it, each opened without following a link and found a trusted directory
    through its own descriptor. *)
Definition opened_directory (t : trace) (d : Z) : Prop :=
  exists root sr x sd,
    t = [Event (LSys (Open "/System" directory_flags)) (Ok root);
         Event (LSys (Fstat root)) (Ok sr);
         Event (LSys (Openat root "Filesystems" directory_flags)) (Ok d);
         Event (LSys (Close root)) x;
         Event (LSys (Fstat d)) (Ok sd)] /\
    trusted_status true sr = true /\ trusted_status true sd = true.

(** Only descriptors opened below [d] are closed. *)
Definition own_closes (d : Z) (t : trace) : Prop :=
  forall c x, In (Event (LSys (Close c)) x) t ->
  exists name, In (Event (LSys (Openat d name file_flags)) (Ok c)) t.

(** The trace has just found [name] in the module directory to be a trusted
    regular file, open as [fd]. *)
Definition pinned (t : trace) (name : string) (fd : Z) : Prop :=
  exists pre head d mid tail st,
    t = pre ++ head ++ mid ++ Event (LSys (Openat d name file_flags)) (Ok fd) :: tail ++
        [Event (LSys (Fstat fd)) (Ok st)] /\
    opened_directory head d /\ own_closes d mid /\
    (tail = [] \/ exists x, tail = [Event (LSys (Close d)) x]) /\
    has_char "/" name = false /\ trusted_status false st = true.

(** The module [filename] has been loaded as [image] and its interface asked for,
    and validated for the generic interface. *)
Definition loaded (t : trace) (format filename interface : string) (image : Z) : Prop :=
  exists h fd check,
    pinned h filename fd /\
    t = h ++ Event (Dlopen (fd_path fd)) (inl image) :: check ++ [Event (Dlsym image interface) true] /\
    (if String.eqb interface interface_v2
     then exists api, check = [Event (EntryTable image interface) api] /\ accepts_v2 format api = true
     else check = []).

(** Calls that neither load nor run anything. *)
Definition idle (X : Type) (e : loadE X) : Prop :=
  match e with Dlopen _ | Invoke _ _ _ _ => False | _ => True end.

#[export] Hint Extern 1 (calls_in _ (close _)) => split; [exact I|intros; exact I] : calls.
#[export] Hint Extern 1 (calls_in _ (on_system _)) => split; [exact I|intros; exact I] : calls.

Definition any_end {A} (o : outcome A) (t : trace) : Prop := True.

Section Loading.
  Context (P : call_pred (E := loadE)).
  Context (P_idle : forall t X (e : loadE X), idle X e -> P t X e).
  Context (P_load : forall t name fd, pinned t name fd -> P t _ (Dlopen (fd_path fd))).

Lemma idle_wp {A} (p : load A) t : calls_in idle p -> wp P any_end p t.
Proof.
  revert t. induction p as [a|m|X e k IH]; intros t Hc; simpl in *; [done..|].
  destruct Hc as [H1 H2]. split; [by apply P_idle|]. intros x. by apply IH.
Qed.

(** A descriptor that is kept is trusted. *)
Lemma keep_trusted_wp opened directory t :
  wp P (fun o t' => match o with
        | Returned (Some fd) => opened = Ok fd /\ exists st,
            t' = t ++ [Event (LSys (Fstat fd)) (Ok st)] /\ trusted_status directory st = true
        | _ => True end) (keep_trusted opened directory) t.
Proof.
  destruct opened as [fd|e]; [|done]. split; [by apply P_idle|]. intros [st|e]; simpl.
  - destruct (trusted_status directory st) eqn:Ht; simpl.
    + split; [done|]. by exists st.
    + split; [by apply P_idle|]. by intros _.
  - split; [by apply P_idle|]. by intros _.
Qed.

Lemma open_directory_wp t :
  wp P (fun o t' => match o with
        | Returned (Some d) => exists head, t' = t ++ head /\ opened_directory head d
        | _ => True end) ifs_open_module_directory t.
Proof.
  split; [by apply P_idle|]. intros opened. cbn [pbind]. apply wp_bind.
  eapply wp_mono; [apply keep_trusted_wp|done|]. intros [[root|]|m] t1; [|done..].
  intros (-> & sr & -> & Hr). split; [by apply P_idle|]. intros opened. cbn [pbind]. split; [by apply P_idle|]. intros x. cbn [pbind].
  eapply wp_mono; [apply keep_trusted_wp|done|]. intros [[d|]|m] t2; [|done..].
  intros (-> & sd & -> & Hd). eexists. rewrite <- !app_assoc. split; [reflexivity|].
  exists root, sr, x, sd. split; [reflexivity|done].
Qed.

(** What holds of an answer, once it is given. *)
Definition answered {A} (Q : A -> trace -> Prop) (o : outcome A) (t : trace) : Prop :=
  match o with Returned a => Q a t | Died _ => True end.

Section Answers.
  (** A property of the caller's answers that a refusal has and that lasts. *)
  Context {U : Type} (Q : Z * U -> trace -> Prop) (user : U).
  Context (Q_refused : forall t, Q (1, user) t) (Q_lasts : forall r t t', t `prefix_of` t' -> Q r t -> Q r t').

Lemma refuses_wp (p : load (Z * U)) t :
  calls_in idle p -> returns (fun r => r = (1, user)) p -> wp P (answered Q) p t.
Proof.
  revert t. induction p as [a|m|X e k IH]; intros t Hc Hr; cbn in *; [by rewrite Hr|done|].
  destruct Hc as [H1 H2]. split; [by apply P_idle|]. intros x. by apply IH.
Qed.

Lemma use_image_answers format filename interface (caller : module_caller U) t fd image :
  pinned t filename fd ->
  (forall t' image, t `prefix_of` t' -> loaded t' format filename interface image ->
     wp P (answered Q) (caller image user) t') ->
  wp P (answered Q) (use_image format filename interface caller user fd image)
    (t ++ [Event (Dlopen (fd_path fd)) (inl image)]).
Proof.
  intros Hp Hc. unfold use_image.
  assert (Hrest : forall check, (if String.eqb interface interface_v2
      then exists api, check = [Event (EntryTable image interface) api] /\ accepts_v2 format api = true
      else check = []) ->
    wp P (answered Q)
      (let* requested := call (Dlsym image interface) in
       let* r := if requested : bool then caller image user else Ret (1, user) in
       call (Dlclose image) ;;; close fd ;;; Ret r)
      ((t ++ [Event (Dlopen (fd_path fd)) (inl image)]) ++ check)).
  { intros check Hcheck. split; [by apply P_idle|]. intros requested. cbn [pbind]. apply wp_bind.
    eapply (wp_mono P P (answered Q)).
    - destruct requested; [|apply Q_refused]. apply Hc; [by rewrite <- !app_assoc; apply prefix_app_r|].
      exists t, fd, check. split; [done|]. split; [|done]. by rewrite <- !app_assoc.
    - done.
    - intros [r|m] t' Hq; [|done]. split; [by apply P_idle|]. intros u. split; [by apply P_idle|]. intros u'.
      eapply Q_lasts; [|exact Hq]. rewrite <- app_assoc. by apply prefix_app_r. }
  destruct (String.eqb interface interface_v2).
  - split; [by apply P_idle|]. intros api. cbn [pbind]. destruct (accepts_v2 format api) eqn:Ha; cbn [negb].
    + apply Hrest. by exists api.
    + apply refuses_wp; [calls|done].
  - cbn [pbind negb]. specialize (Hrest [] eq_refl). by rewrite app_nil_r in Hrest.
Qed.

(** The contract of the loader for its callers, with what they answer. *)
Lemma module_call_answers format filename interface (caller : module_caller U) t :
  (forall t' image, t `prefix_of` t' -> loaded t' format filename interface image ->
     wp P (answered Q) (caller image user) t') ->
  wp P (answered Q) (ifs_filesystem_module_call (Some format) (Some filename) interface caller user) t.
Proof.
  intros Hc. unfold ifs_filesystem_module_call. destruct (_ || _) eqn:Hg; [apply Q_refused|]. breflect.
  apply wp_bind. eapply wp_mono; [apply open_directory_wp|done|].
  intros [[d|]|m] t1 Hd; [|apply refuses_wp; [calls|done]|done]. destruct Hd as (head & -> & Hd).
  split; [by apply P_idle|]. intros opened. cbn [pbind]. split; [by apply P_idle|]. intros x. cbn [pbind].
  apply wp_bind. eapply wp_mono; [apply keep_trusted_wp|done|].
  intros [[fd|]|m] t2; [|intros _; apply refuses_wp; [calls|done]|done]. intros (-> & st & -> & Hst).
  assert (Hp : pinned ((((t ++ head) ++ [Event (LSys (Openat d filename file_flags)) (Ok fd)]) ++
    [Event (LSys (Close d)) x]) ++ [Event (LSys (Fstat fd)) (Ok st)]) filename fd).
  { exists t, head, d, [], [Event (LSys (Close d)) x], st. rewrite <- !app_assoc.
    split; [done|]. split; [done|]. split; [by intros ? ? []|]. split; [right; by exists x|].
    split; [by destruct (has_char "/" filename)|done]. }
  split; [by apply (P_load _ filename)|]. intros [image|error].
  - apply use_image_answers; [done|]. intros t' i Ht. apply Hc. etransitivity; [|exact Ht].
    rewrite <- !app_assoc. by apply prefix_app_r.
  - cbn [pbind]. apply refuses_wp; [calls|done].
Qed.
End Answers.

(** The contract of the loader for its callers. *)
Lemma module_call_wp {U} format filename interface (caller : module_caller U) user t :
  (forall t' image, t `prefix_of` t' -> loaded t' format filename interface image ->
     wp P any_end (caller image user) t') ->
  wp P any_end (ifs_filesystem_module_call (Some format) (Some filename) interface caller user) t.
Proof.
  intros Hc. eapply wp_mono; [apply (module_call_answers (fun _ _ => True)); try done| |done]; [|done].
  intros t' image Ht Hl. eapply wp_mono; [by apply Hc|done|]. by intros [].
Qed.

(** The module directory is open; the descriptors closed since were modules'. *)
Definition walking (t : trace) (d : Z) : Prop :=
  exists pre head mid, t = pre ++ head ++ mid /\ opened_directory head d /\ own_closes d mid.

Lemma walking_app t d s :
  walking t d -> own_closes d s -> walking (t ++ s) d.
Proof.
  intros (pre & head & mid & -> & Hd & Hm) Hs. exists pre, head, (mid ++ s).
  rewrite <- !app_assoc. split; [done|]. split; [done|]. intros c x Hin.
  apply in_app_or in Hin as [Hin|Hin]; [apply Hm in Hin|apply Hs in Hin]; destruct Hin as [name Hin];
    exists name; apply in_or_app; auto.
Qed.

Definition walked (d : Z) {A} (o : outcome A) (t : trace) : Prop :=
  match o with Returned _ => walking t d | Died _ => True end.

Definition closed (ev : event loadE) : option Z :=
  match ev with Event (LSys (Close c)) _ => Some c | _ => None end.

(** Idle calls that close nothing but [fd]. *)
Definition tidy (fd : Z) (X : Type) (e : loadE X) : Prop :=
  idle X e /\ match e with LSys (Close c) => c = fd | _ => True end.

Lemma tidy_wp {A} fd (p : load A) t :
  calls_in (tidy fd) p ->
  wp P (fun _ t' => exists s, t' = t ++ s /\ forall c x, In (Event (LSys (Close c)) x) s -> c = fd) p t.
Proof.
  revert t. induction p as [a|m|X e k IH]; intros t Hc; simpl in *.
  - exists []. by rewrite app_nil_r.
  - exists []. by rewrite app_nil_r.
  - destruct Hc as [[Hi He] Hk]. split; [by apply P_idle|]. intros x.
    eapply wp_mono; [by apply IH|done|]. intros o t' (s & -> & Hs). exists (Event e x :: s).
    rewrite <- app_assoc. split; [done|]. intros c y [Heq|Hin]; [|by eapply Hs].
    apply (f_equal closed) in Heq. clear -Heq He. destruct e as [X [] | | | | | | | | | | | | | ];
      simpl in *; congruence.
Qed.

(** One module in the walk: what was opened is closed again. *)
Lemma probe_tail_wp {A} d name fd (p : load A) t s :
  walking t d -> calls_in (tidy fd) p ->
  (forall c x, In (Event (LSys (Close c)) x) s -> c = fd) ->
  wp P (walked d) p (t ++ Event (LSys (Openat d name file_flags)) (Ok fd) :: s).
Proof.
  intros Hw Hp Hs. eapply wp_mono; [by apply (tidy_wp fd)|done|].
  intros o t' (r & -> & Hr). unfold walked. destruct o; [|done]. rewrite <- app_assoc.
  apply walking_app; [done|]. intros c x [?|Hin]; [done|]. exists name.
  apply in_app_or in Hin as [Hin|Hin]; [apply Hs in Hin|apply Hr in Hin]; subst; by left.
Qed.

Ltac tidy := repeat (cbv zeta; match goal with
  | |- calls_in _ (call _) => split; [done|intros; exact I]
  | |- calls_in _ (close _) => split; [done|intros; exact I]
  | |- calls_in _ (on_system _) => split; [done|intros; exact I]
  | |- _ => calls_step end).

Lemma probe_wp d name t :
  walking t d -> wp P (walked d) (ifs_probe_module_v2 d name) t.
Proof.
  intros Hw. unfold ifs_probe_module_v2. destruct (ifs_safe_module_filename name) eqn:Hn; [|done]. cbn [negb].
  assert (Hslash : has_char "/" name = false).
  { unfold ifs_safe_module_filename in Hn. breflect. by apply (forall_char_has in_filename_class). }
  split; [by apply P_idle|]. intros [fd|e]; cbn [pbind keep_trusted].
  2:{ apply walking_app; [done|]. by intros c x [?|[]]. }
  split; [by apply P_idle|]. intros st. cbn [pbind]. rewrite <- app_assoc. cbn [app].
  assert (Hs : forall c (x : result ()), In (Event (LSys (Close c)) x) [Event (LSys (Fstat fd)) st] -> c = fd)
    by (by intros c x [?|[]]).
  destruct st as [st|e]; [|by apply probe_tail_wp; [| |tidy]].
  destruct (trusted_status false st) eqn:Ht; [|by apply probe_tail_wp; [| |tidy]].
  cbn [pbind]. destruct (negb (fits (fd_path fd) 64)); [by apply probe_tail_wp; [| |tidy]|].
  split.
  { apply (P_load _ name). destruct Hw as (pre & head & mid & -> & Hd & Hm). exists pre, head, d, mid, [], st.
    rewrite <- !app_assoc. split; [done|]. split; [done|]. split; [done|]. split; [by left|]. done. }
  intros image. cbn [pbind]. rewrite <- app_assoc. cbn [app]. apply probe_tail_wp; [done| |].
  - destruct image; tidy.
  - intros c x [?|[?|[]]]; done.
Qed.
End Loading.

(** ** The walks of discovery *)

(** [name] of the directory was probed in [sub] with this answer. *)
Definition probed (d : Z) (p : string * option (string * Z)) (sub : trace) : Prop :=
  runs (ifs_probe_module_v2 d (fst p)) sub (Returned (snd p)).

(** Every one of [entries] was probed, in order. *)
Definition probed_all (d : Z) (probes : list (string * option (string * Z))) (entries : list string)
    (t : trace) : Prop :=
  exists subs, map fst probes = entries /\ Forall2 (probed d) probes subs /\ t = concat subs.

Lemma probed_all_cons d name r entries probes t1 t2 :
  probed d (name, r) t1 -> probed_all d probes entries t2 ->
  probed_all d ((name, r) :: probes) (name :: entries) (t1 ++ t2).
Proof.
  intros H (subs & <- & Hs & ->). exists (t1 :: subs). split; [done|]. split; [by constructor|done].
Qed.

Lemma probed_all_nil d : probed_all d [] [] [].
Proof. exists []. split; [done|]. split; [constructor|done]. Qed.

(** What a positive probe saw. *)
Lemma probe_offers d name sub format caps :
  runs (ifs_probe_module_v2 d name) sub (Returned (Some (format, caps))) ->
  ifs_safe_module_filename name = true /\
  exists image api, In (Event (EntryTable image interface_v2) (Some api)) sub /\
    offered (Some api) = Some (format, caps).
Proof.
  unfold ifs_probe_module_v2. destruct (ifs_safe_module_filename name); intros H.
  2:{ by apply runs_inv in H as [_ ?]. }
  split; [done|]. cbn [negb] in H. apply runs_inv in H as (opened & t1 & -> & H). cbn [pbind] in H.
  apply pbind_runs in H as [(m & _ & ?)|(fd & t2 & t3 & -> & _ & H)]; [done|].
  destruct fd as [fd|]; [|by apply runs_inv in H as [_ ?]].
  destruct (negb (fits _ _)).
  { apply runs_inv in H as (? & ? & -> & H). by apply runs_inv in H as [_ ?]. }
  apply runs_inv in H as (image & t4 & -> & H). cbn [pbind] in H.
  destruct image as [image|error].
  2:{ apply runs_inv in H as (? & ? & -> & H). by apply runs_inv in H as [_ ?]. }
  apply runs_inv in H as (api & t5 & -> & H). cbn [pbind] in H.
  do 2 (apply runs_inv in H as (? & ? & -> & H); cbn [pbind] in H).
  apply runs_inv in H as [_ [= H]]. symmetry in H. destruct api as [api|]; [|done].
  exists image, api. split; [|done]. right. apply in_or_app. right. right. by left.
Qed.

Definition provides (format : string) (p : string * option (string * Z)) : bool :=
  match snd p with Some (discovered, _) => String.eqb discovered format | None => false end.

(** After one match the rest of the directory must hold no other. *)
Lemma find_loop_rest d format entries selected t name :
  runs (find_loop d format entries selected 1) t (Returned (name, 1)) ->
  name = selected /\ exists probes, probed_all d probes entries t /\ List.filter (provides format) probes = [].
Proof.
  revert t. induction entries as [|e entries IH]; intros t H; cbn [find_loop] in H.
  - apply runs_inv in H as [-> [= ->]]. split; [done|]. exists []. split; [apply probed_all_nil|done].
  - apply pbind_runs in H as [(m & _ & ?)|(r & t1 & t2 & -> & Hp & H)]; [done|].
    assert (Hskip : provides format (e, r) = false ->
      runs (find_loop d format entries selected 1) t2 (Returned (name, 1)) ->
      name = selected /\ exists probes, probed_all d probes (e :: entries) (t1 ++ t2) /\
        List.filter (provides format) probes = []).
    { intros Hr H2. apply IH in H2 as (-> & probes & Ha & Hf). split; [done|].
      exists ((e, r) :: probes). split; [by apply probed_all_cons|]. simpl. by rewrite Hr. }
    destruct r as [[discovered caps]|]; [|by apply Hskip].
    destruct (String.eqb discovered format) eqn:E; cbn [negb] in H; [by apply runs_inv in H as [_ ?]|].
    by apply Hskip.
Qed.

Lemma find_loop_first d format entries t name :
  runs (find_loop d format entries EmptyString 0) t (Returned (name, 1)) ->
  exists probes caps, probed_all d probes entries t /\
    List.filter (provides format) probes = [(name, Some (format, caps))].
Proof.
  revert t. induction entries as [|e entries IH]; intros t H; cbn [find_loop] in H.
  - by apply runs_inv in H as [_ ?].
  - apply pbind_runs in H as [(m & _ & ?)|(r & t1 & t2 & -> & Hp & H)]; [done|].
    assert (Hskip : provides format (e, r) = false ->
      runs (find_loop d format entries EmptyString 0) t2 (Returned (name, 1)) ->
      exists probes caps, probed_all d probes (e :: entries) (t1 ++ t2) /\
        List.filter (provides format) probes = [(name, Some (format, caps))]).
    { intros Hr H2. apply IH in H2 as (probes & caps & Ha & Hf).
      exists ((e, r) :: probes), caps. split; [by apply probed_all_cons|]. simpl. by rewrite Hr. }
    destruct r as [[discovered caps]|]; [|by apply Hskip].
    destruct (String.eqb_spec discovered format) as [->|E]; cbn [negb] in H.
    + cbn [Z.add Z.eqb negb Pos.eqb] in H. destruct (_ || _) in H; [by apply runs_inv in H as [_ ?]|].
      apply find_loop_rest in H as (-> & probes & Ha & Hf).
      exists ((e, Some (format, caps)) :: probes), caps. split; [by apply probed_all_cons|].
      simpl. unfold provides at 1. cbn [snd]. by rewrite String.eqb_refl, Hf.
    + apply Hskip; [|done]. unfold provides. cbn [snd]. by apply String.eqb_neq.
Qed.

(** The opening of the directory, read off a run. *)
Lemma open_directory_runs t d :
  runs ifs_open_module_directory t (Returned (Some d)) -> opened_directory t d.
Proof.
  intros H. pose proof (open_directory_wp (fun _ _ _ => True) (fun _ _ _ _ => I) []) as Hw.
  apply (wp_runs _ _ _ _ _ _ Hw) in H as [(head & E & Hd) _]. cbn [app] in E. by subst.
Qed.

(** ** Discovery is read-only *)

Definition discovery_allowed (t : trace) (X : Type) (e : loadE X) : Prop :=
  match e with
  | Dlopen path => exists name fd, path = fd_path fd /\ pinned t name fd
  | Invoke _ _ _ _ => False
  | _ => True
  end.

Lemma idle_discovery t X (e : loadE X) : idle X e -> discovery_allowed t X e.
Proof. by destruct e. Qed.

Lemma pinned_discovery (t : trace) name fd : pinned t name fd -> discovery_allowed t _ (Dlopen (fd_path fd)).
Proof. intros H. by exists name, fd. Qed.

Lemma walking_silent d t X (e : loadE X) x :
  closed (Event e x) = None -> walking t d -> walking (t ++ [Event e x]) d.
Proof.
  intros He Hw. apply walking_app; [done|]. intros c y [Heq|[]].
  apply (f_equal closed) in Heq. by rewrite He in Heq.
Qed.

Lemma probe_discovery d name t :
  walking t d -> wp discovery_allowed (walked d) (ifs_probe_module_v2 d name) t.
Proof. apply probe_wp; [apply idle_discovery|apply pinned_discovery]. Qed.

Lemma list_loop_discovery d entries first t :
  walking t d -> wp discovery_allowed any_end (list_loop d entries first) t.
Proof.
  revert first t. induction entries as [|name entries IH]; intros first t Hw; [done|].
  cbn [list_loop]. apply wp_bind. eapply wp_mono; [by apply probe_discovery|done|].
  intros [[[format caps]|]|m] t' Ht; [|by apply IH|done].
  destruct first; cbn [pbind].
  - split; [done|]. intros u. apply IH. by apply walking_silent.
  - split; [done|]. intros u. cbn [pbind]. split; [done|]. intros v. apply IH. by repeat (apply walking_silent; [done|]).
Qed.

Lemma find_loop_discovery d format entries selected matches t :
  walking t d -> wp discovery_allowed any_end (find_loop d format entries selected matches) t.
Proof.
  revert selected matches t. induction entries as [|name entries IH]; intros selected matches t Hw; [done|].
  cbn [find_loop]. apply wp_bind. eapply wp_mono; [by apply probe_discovery|done|].
  intros [[[discovered caps]|]|m] t' Ht; [|by apply IH|done].
  destruct (negb (String.eqb _ _)); [by apply IH|]. destruct (negb _); [done|].
  destruct (_ || _); [done|]. by apply IH.
Qed.

(** Both walks begin with the opened directory and its entries. *)
Lemma discovery_wp {A} (k : option Z -> load A) :
  calls_in idle (k None) ->
  (forall d t, walking t d -> wp discovery_allowed any_end (k (Some d)) t) ->
  wp discovery_allowed any_end (pbind ifs_open_module_directory k) [].
Proof.
  intros Hn Hk. apply wp_bind.
  eapply wp_mono; [apply open_directory_wp; apply idle_discovery|done|].
  intros [[d|]|m] t Ht; [|apply (idle_wp discovery_allowed); [apply idle_discovery|done]|done].
  apply Hk. destruct Ht as (head & -> & Hd). exists [], head, []. rewrite app_nil_r.
  split; [done|]. split; [done|]. by intros c x [].
Qed.

Lemma idle_end {A} (p : load A) t : calls_in idle p -> wp discovery_allowed any_end p t.
Proof. apply idle_wp, idle_discovery. Qed.

Lemma list_discovery : wp discovery_allowed any_end ifs_filesystem_module_list_v2 [].
Proof.
  apply discovery_wp; [calls|]. intros d t Hw. split; [done|]. intros [entries|]; [|cbn [pbind]; apply idle_end; calls].
  cbn [pbind]. split; [done|]. intros u. cbn [pbind]. apply wp_bind. eapply wp_mono.
  - apply list_loop_discovery. by repeat (apply walking_silent; [done|]).
  - done.
  - intros [r|m] t' _; [|done]. apply idle_end. calls.
Qed.

Lemma find_discovery format capacity : wp discovery_allowed any_end (ifs_filesystem_module_find_v2 format capacity) [].
Proof.
  destruct format as [format|]; [|done]. unfold ifs_filesystem_module_find_v2. destruct (_ || _); [done|].
  apply discovery_wp; [calls|]. intros d t Hw. split; [done|]. intros [entries|]; [|cbn [pbind]; apply idle_end; calls].
  cbn [pbind]. apply wp_bind. eapply wp_mono.
  - apply find_loop_discovery. by apply walking_silent.
  - done.
  - intros [[selected matches]|m] t' _; [|done]. apply idle_end. calls.
Qed.

(** ** Running a module *)

(** What a command may load and run. *)
Definition run_allowed (format filename : string) (arguments : list string) (t : trace) (X : Type)
    (e : loadE X) : Prop :=
  match e with
  | Dlopen path => exists name fd, path = fd_path fd /\ pinned t name fd
  | Invoke image symbol method args =>
      symbol = interface_v2 /\ method = "run"%string /\ args = arguments /\
      exists h api argv0 operation rest,
        t = h ++ [Event (EntryTable image interface_v2) (Some api)] /\
        loaded h format filename interface_v2 image /\ arguments = argv0 :: operation :: rest /\
        Z.land (capabilities api) (required_capabilities operation) = required_capabilities operation /\
        (mutates operation = true -> exists u v s,
           t = Event StopClear u :: Event StopInstall true ::
               Event (Fputs (LD_STOP_READY_MARKER ++ String LF "")) v :: s)
  | _ => True
  end.

(** The stop handlers that precede a mutation. *)
Definition stop_ready (arguments : list string) (t : trace) : Prop :=
  match arguments with
  | _ :: operation :: _ => mutates operation = true -> exists u v s,
      t = Event StopClear u :: Event StopInstall true ::
          Event (Fputs (LD_STOP_READY_MARKER ++ String LF "")) v :: s
  | _ => True
  end.

Lemma stop_ready_prefix arguments t t' : t `prefix_of` t' -> stop_ready arguments t -> stop_ready arguments t'.
Proof.
  intros [k ->]. destruct arguments as [|a [|operation rest]]; [done..|]. intros H Hm.
  destruct (H Hm) as (u & v & s & ->). by exists u, v, (s ++ k).
Qed.

Lemma run_command_wp format filename image arguments t :
  loaded t format filename interface_v2 image -> stop_ready arguments t ->
  wp (run_allowed format filename arguments) any_end (run_command image arguments) t.
Proof.
  intros Hl Hs. split; [done|]. intros [api|]; [|done]. cbn [pbind].
  destruct arguments as [|argv0 [|operation rest]]; [done..|]. cbv zeta.
  destruct (_ && _) eqn:E; [split; [done|]; by intros ?|].
  split; [|done]. split; [done|]. split; [done|]. split; [done|].
  exists t, api, argv0, operation, rest. split; [done|]. split; [done|]. split; [done|]. split.
  - apply andb_false_iff in E as [E|E]; breflect; [by rewrite E, Z.land_0_r|done].
  - intros Hm. destruct (Hs Hm) as (u & v & s & ->).
    by exists u, v, (s ++ [Event (EntryTable image interface_v2) (Some api)]).
Qed.

Lemma module_run_wp format filename arguments :
  wp (run_allowed format filename arguments) any_end (ifs_filesystem_module_run format filename arguments) [].
Proof.
  unfold ifs_filesystem_module_run. apply wp_bind.
  eapply (wp_mono (run_allowed format filename arguments) _
    (fun o t => match o with Returned _ => stop_ready arguments t | Died _ => True end)).
  - destruct arguments as [|argv0 [|operation rest]]; [done..|]. destruct (mutates operation) eqn:Hm;
      [|by simpl; rewrite Hm].
    split; [done|]. intros u. split; [done|]. intros [|]; [|done]. cbn [pbind negb]. split; [done|]. intros v _.
    by exists u, v, [].
  - done.
  - intros [u|m] t Ht; [|done]. apply wp_bind. eapply (wp_mono (run_allowed format filename arguments)).
    + apply module_call_wp; [by intros ? ? [] ?|by intros; exists name, fd|].
      intros t' image Hpre Hl. apply run_command_wp; [exact Hl|]. by eapply stop_ready_prefix.
    + done.
    + intros [[r a]|m] t' _; done.
Qed.

(** ** A directory with two providers *)

(** [APFS.so] is open as 5 and [MINIX.so] as 6, their images have the same
    numbers; the second only analyses. *)
Definition demo_module (image : Z) : option module_api :=
  if image =? 5 then Some (mkApi 2 32 (Some "apfs") 15 ["run"])%string
  else if image =? 6 then Some (mkApi 2 32 (Some "minix") 1 ["run"])%string
  else None.

Definition demo_fd (name : string) : result Z :=
  if String.eqb name "Filesystems" then Ok 4
  else if String.eqb name "APFS.so" then Ok 5
  else if String.eqb name "MINIX.so" then Ok 6
  else Err ENOENT.

Definition demo_loader (X : Type) (e : loadE X) (s : unit) : X * unit :=
  (match e in loadE X return X with
   | LSys e =>
       match e in sysE Y return Y with
       | Open _ _ => Ok 3
       | Openat _ name _ => demo_fd name
       | Fstat fd => Ok (mkStat (if fd <=? 4 then 16877 else 33188) 1 fd 0 4096 0 1)
       | Close _ => Ok tt
       | e => sys_default e
       end
   | ReadDirFd _ => Some ["."; ".."; "APFS.so"; "MINIX.so"; "old.so"]%string
   | ReadFd _ _ => None
   | Dlopen path => if String.eqb path (fd_path 5) then inl 5 else inl 6
   | Dlsym _ _ => true
   | EntryTable image _ => demo_module image
   | Invoke _ _ _ _ => 0
   | StopInstall => true
   | FerrorStdout => false
   | CloseDir _ | Dlclose _ | StopClear | Fputs _ | FputsError _ => tt
   end, s).

Definition demo_arguments : list string := ["worker"; "defrag"; "/dev/sdb1"]%string.
Definition demo_run := execute demo_loader (ifs_filesystem_module_run "apfs" "APFS.so" demo_arguments) tt.
Definition demo_find := execute demo_loader (ifs_filesystem_module_find_v2 (Some "minix"%string) 64) tt.

(** ** Properties *)

(** C23: a module is run only when it is what was trusted, and only within what it
    offers.  Whatever [ifs_filesystem_module_run] does, every image it loads is
    the descriptor of a regular file, owned by root and not writable by others,
    just opened without following a link below [/System/Filesystems], whose two
    directories passed the same test; and the module's [run] is called only on
    the image of the requested file name, after its table was found to have the
    ABI, size, format name and function required, with capabilities that include
    all the command needs (recovery too, for a mutation), and for a mutation
    after the stop handlers were installed and announced. *)
Theorem module_run_confined format filename arguments t o pre X (e : loadE X) x post :
  runs (ifs_filesystem_module_run format filename arguments) t o ->
  t = pre ++ Event e x :: post -> run_allowed format filename arguments pre X e.
Proof.
  intros H Ht. destruct (wp_runs _ _ _ _ _ _ (module_run_wp format filename arguments) H) as [_ Hp].
  by eapply Hp.
Qed.

(** Discovery runs nothing.  Neither [ifs_filesystem_module_list_v2] nor
    [ifs_filesystem_module_find_v2] ever calls a function of a module's table, and
    every image they load is a trusted file of the trusted directory, as for a
    command. *)
Theorem discovery_runs_nothing format capacity t pre X (e : loadE X) x post :
  (exists r, runs ifs_filesystem_module_list_v2 t (Returned r)) \/
  (exists r, runs (ifs_filesystem_module_find_v2 format capacity) t (Returned r)) ->
  t = pre ++ Event e x :: post -> discovery_allowed pre X e.
Proof.
  intros H Ht. assert (Hp : forall A (p : load A) r, wp discovery_allowed any_end p [] ->
    runs p t (Returned r) -> discovery_allowed pre X e).
  { intros A p r Hw Hr. destruct (wp_runs _ _ _ _ _ _ Hw Hr) as [_ Hall]. by eapply Hall. }
  destruct H as [(r & H)|(r & H)].
  - apply (Hp _ _ _ list_discovery H).
  - apply (Hp _ _ _ (find_discovery format capacity) H).
Qed.

(** A format has one provider or none.  When [ifs_filesystem_module_find_v2]
    answers a file name, it probed every entry of the trusted directory, exactly
    one of them offered the format in its own versioned table, and the answer is
    that entry; its name is safe and fits the caller's buffer. *)
Theorem find_unique_provider format capacity t name :
  runs (ifs_filesystem_module_find_v2 (Some format) capacity) t (Returned (Some name)) ->
  exists d h entries probes caps s u,
    t = h ++ Event (ReadDirFd d) (Some entries) :: s ++ [Event (CloseDir d) u] /\
    opened_directory h d /\ probed_all d probes entries s /\
    List.filter (provides format) probes = [(name, Some (format, caps))] /\
    ifs_safe_module_filename name = true /\ strlen name < capacity.
Proof.
  unfold ifs_filesystem_module_find_v2. destruct (_ || _); intros H; [by apply runs_inv in H as [_ ?]|].
  apply pbind_runs in H as [(m & _ & ?)|(d & h & t2 & -> & Hd & H)]; [done|].
  destruct d as [d|]; [|by apply runs_inv in H as [_ ?]]. apply open_directory_runs in Hd.
  apply runs_inv in H as (entries & t3 & -> & H). cbn [pbind] in H. destruct entries as [entries|].
  2:{ apply runs_inv in H as (? & ? & -> & H). by apply runs_inv in H as [_ ?]. }
  apply pbind_runs in H as [(m & _ & ?)|([selected matches] & s & t4 & -> & Hl & H)]; [done|].
  apply runs_inv in H as (u & t5 & -> & H). cbn [pbind] in H. apply runs_inv in H as [-> [= E]].
  destruct (_ || _) eqn:Hg in E; [done|]. injection E as <-. breflect. subst matches.
  apply find_loop_first in Hl as (probes & caps & Ha & Hf).
  exists d, h, entries, probes, caps, s, u. split_and!; try done; [|lia].
  destruct Ha as (subs & _ & Hs & _).
  assert (Hin : In (name, Some (format, caps)) probes).
  { eapply proj1, List.filter_In. rewrite Hf. by left. }
  apply list_elem_of_In, list_elem_of_lookup_1 in Hin as [i Hi].
  destruct (Forall2_lookup_l _ _ _ i _ Hs Hi) as (sub & _ & Hsub).
  by apply probe_offers in Hsub as [? _].
Qed.

(** The demonstration runs the module after fifteen other calls. *)
Lemma module_run_confined_witness :
  run_allowed "apfs" "APFS.so" demo_arguments (take 15 (snd demo_run)) Z
    (Invoke 5 interface_v2 "run" demo_arguments).
Proof.
  apply (module_run_confined "apfs" "APFS.so" demo_arguments (snd demo_run) (fst demo_run)
    (take 15 (snd demo_run)) Z (Invoke 5 interface_v2 "run" demo_arguments) 0 (drop 16 (snd demo_run))).
  - exact (execute_runs demo_loader _ tt).
  - vm_compute. reflexivity.
Defined.

Lemma find_unique_provider_witness :
  fst demo_find = Returned (Some "MINIX.so"%string) /\ ifs_safe_module_filename "MINIX.so" = true.
Proof.
  assert (Ho : fst demo_find = Returned (Some "MINIX.so"%string)) by (vm_compute; reflexivity).
  split; [exact Ho|].
  destruct (find_unique_provider "minix" 64 (snd demo_find) "MINIX.so")
    as (d & h & entries & probes & caps & s & u & _ & _ & _ & _ & Hsafe & _); [|exact Hsafe].
  rewrite <- Ho. exact (execute_runs demo_loader _ tt).
Defined.

Lemma discovery_runs_nothing_witness :
  discovery_allowed (take 14 (snd demo_find)) (Z + string) (Dlopen (fd_path 6)).
Proof.
  apply (discovery_runs_nothing (Some "minix"%string) 64 (snd demo_find) (take 14 (snd demo_find)) _
    (Dlopen (fd_path 6)) (inl 6) (drop 15 (snd demo_find))).
  - right. exists (Some "MINIX.so"%string).
    assert (Ho : fst demo_find = Returned (Some "MINIX.so"%string)) by (vm_compute; reflexivity).
    rewrite <- Ho. exact (execute_runs demo_loader _ tt).
  - vm_compute. reflexivity.
Defined.
