(* ===== verification/ModuleList.v ===== *)
(** The list of installed modules that [ifs_filesystem_module_list_v2] of
    [native/filesystem_module_host.c] prints piece by piece, and that the JSON
    parser of the desktop reads it back. *)
From S2P Require Import Prelude Effects CString Infiltratr Exceptions Sys NativeJson RuntimeManifest ModuleHost.

(** ** What was printed *)

Definition printed_event (ev : event loadE) : string :=
  match ev with Event (Fputs text) _ => text | _ => EmptyString end.

Definition printed (t : list (event loadE)) : string := String.concat EmptyString (map printed_event t).

Lemma concat_app l l' :
  String.concat EmptyString (l ++ l') = (String.concat EmptyString l ++ String.concat EmptyString l')%string.
Proof.
  induction l as [|x l IH]; [done|]. cbn [app]. destruct l as [|y l].
  - simpl. destruct l'; [by rewrite append_nil_r|done].
  - cbn [app] in *. cbn [String.concat append] in *. by rewrite IH, append_assoc.
Qed.

Lemma printed_app t t' : printed (t ++ t') = (printed t ++ printed t')%string.
Proof. unfold printed. by rewrite map_app, concat_app. Qed.

Lemma printed_cons ev t : printed (ev :: t) = (printed_event ev ++ printed t)%string.
Proof. change (ev :: t) with ([ev] ++ t). by rewrite printed_app. Qed.

Definition silent (X : Type) (e : loadE X) : Prop := match e with Fputs _ => False | _ => True end.

Lemma silent_printed {A} (p : load A) t o : calls_in silent p -> runs p t o -> printed t = EmptyString.
Proof.
  intros Hp Hr. pose proof (calls_runs _ _ _ _ Hp Hr) as H. clear Hr.
  induction H as [|[X e x] t He _ IH]; [done|]. rewrite printed_cons, IH. by destruct e.
Qed.

Lemma open_directory_silent : calls_in silent ifs_open_module_directory.
Proof. unfold ifs_open_module_directory, keep_trusted, trusted. calls. Qed.

Lemma probe_silent d name : calls_in silent (ifs_probe_module_v2 d name).
Proof. unfold ifs_probe_module_v2, keep_trusted, trusted. calls. Qed.

(** ** The list *)

(** A module as the reader of the list sees it. *)
Definition listed_module (p : string * option (string * Z)) : option (string * (string * Z)) :=
  match snd p with Some m => Some (fst p, m) | None => None end.

Definition entry_text (m : string * (string * Z)) : string := module_text (fst (snd m)) (fst m) (snd (snd m)).

(** The comma of the first flag. *)
Definition with_commas (first : bool) (texts : list string) : string :=
  match texts with
  | [] => EmptyString
  | _ => ((if first then "" else ",") ++ comma_separated texts)%string
  end.

Lemma with_commas_cons first text texts :
  with_commas first (text :: texts) = ((if first then "" else ",") ++ text ++ with_commas false texts)%string.
Proof.
  unfold with_commas. destruct texts as [|u texts]; [|done].
  by destruct first; cbn [comma_separated]; rewrite append_nil_r.
Qed.

Lemma list_loop_prints d entries first t :
  runs (list_loop d entries first) t (Returned tt) ->
  exists probes subs, map fst probes = entries /\ Forall2 (probed d) probes subs /\
    (forall image api sub, In (Event (EntryTable image interface_v2) (Some api)) sub -> In sub subs ->
       In (Event (EntryTable image interface_v2) (Some api)) t) /\
    printed t = with_commas first (map entry_text (omap listed_module probes)).
Proof.
  revert first t. induction entries as [|name entries IH]; intros first t H; cbn [list_loop] in H.
  { apply runs_inv in H as [-> _]. exists [], []. split; [done|]. split; [constructor|]. split; [by intros ? ? ? ? []|done]. }
  apply pbind_runs in H as [(m & _ & ?)|(r & t1 & t2 & -> & Hp & H)]; [done|].
  pose proof (silent_printed _ _ _ (probe_silent d name) Hp) as Hq.
  destruct r as [[format caps]|].
  - assert (Hloop : exists s t3, t2 = s ++ t3 /\ runs (list_loop d entries false) t3 (Returned tt) /\
      printed s = ((if first then "" else ",") ++ module_text format name caps)%string).
    { destruct first; cbn [pbind] in H.
      - apply runs_inv in H as (u & t3 & -> & H). cbn [pbind] in H.
        exists [Event (Fputs (module_text format name caps)) u], t3. split; [done|]. split; [done|].
        by rewrite printed_cons, append_nil_r.
      - apply runs_inv in H as (v & t3 & -> & H). cbn [pbind] in H.
        apply runs_inv in H as (u & t4 & -> & H). cbn [pbind] in H.
        exists [Event (Fputs ",") v; Event (Fputs (module_text format name caps)) u], t4.
        split; [done|]. split; [done|]. rewrite !printed_cons. cbn [printed_event append]. by rewrite append_nil_r. }
    destruct Hloop as (s & t3 & -> & H3 & Hs). apply IH in H3 as (probes & subs & <- & Hsubs & Hin & Ht).
    exists ((name, Some (format, caps)) :: probes), (t1 :: subs). split; [done|]. split; [by constructor|]. split.
    + intros image api sub Hi [<-|Hsub]; apply in_or_app; [by left|right]. apply in_or_app. right. by eapply Hin.
    + rewrite !printed_app, Hq, Hs, Ht. cbn [append omap list_omap listed_module snd fst List.map].
      rewrite with_commas_cons. by rewrite append_assoc.
  - apply IH in H as (probes & subs & <- & Hsubs & Hin & Ht).
    exists ((name, None) :: probes), (t1 :: subs). split; [done|]. split; [by constructor|]. split.
    + intros image api sub Hi [<-|Hsub]; apply in_or_app; [by left|right]. by eapply Hin.
    + rewrite printed_app, Hq, Ht. done.
Qed.

(** ** Reading it back *)

Definition module_value (m : string * (string * Z)) : Json :=
  JObject [("capabilities", unsigned_integer (snd (snd m))); ("filename", JString (fst m));
           ("format_id", JString (fst (snd m)))]%string.

Definition list_value (modules : list (string * (string * Z))) : Json :=
  JObject [("modules", JArray (map module_value modules)); ("schema", JNumber "1")]%string.

(** The names a probe lets through need no escaping. *)
Definition plain_module (m : string * (string * Z)) : Prop :=
  forall_char plain_char (fst m) = true /\ forall_char plain_char (fst (snd m)) = true.

Lemma forall_char_impl (P Q : ascii -> bool) s :
  (forall c, P c = true -> Q c = true) -> forall_char P s = true -> forall_char Q s = true.
Proof.
  intros H. induction s as [|c s IH]; simpl; [done|]. intros Hs. apply andb_true_iff in Hs as [Hc Hs].
  by rewrite H, IH.
Qed.

Lemma filename_plain c : in_filename_class c = true -> plain_char c = true.
Proof. by destruct c as [[] [] [] [] [] [] [] []]. Qed.

Lemma format_plain c : in_format_class c = true -> plain_char c = true.
Proof. by destruct c as [[] [] [] [] [] [] [] []]. Qed.

Lemma probed_plain d name format caps sub :
  probed d (name, Some (format, caps)) sub -> plain_module (name, (format, caps)) /\
  exists image api, In (Event (EntryTable image interface_v2) (Some api)) sub /\ capabilities api = caps.
Proof.
  intros H. apply probe_offers in H as (Hn & image & api & Hin & Ho). unfold offered in Ho.
  destruct (format_id api) as [f|]; [|done]. destruct (_ && _) eqn:E in Ho; [|done]. injection Ho as -> <-.
  split; [|by exists image, api]. unfold ifs_safe_module_filename in Hn. breflect. unfold valid_format in *. breflect.
  split; cbn [fst snd].
  - by eapply forall_char_impl; [apply filename_plain|].
  - by eapply forall_char_impl; [apply format_plain|].
Qed.

Section List.
  Context {common : Infiltratr}.

Lemma reads_plain n s : forall_char plain_char s = true -> reads n (JString s) (in_quotes s).
Proof.
  intros Hs. apply (reads_mono 0); [lia|]. destruct (reads_key_plain s Hs) as [_ Hp]. split; [done|].
  intros p r [|levels] Hl Hr; [lia|]. specialize (Hp p r). unfold in_quotes. cbn [append] in *.
  change (parse_value (S levels) (mkCursor p (String QUOTE ((s ++ String QUOTE "") ++ r)))) with
    ('(s, c) ← parse_string (mkCursor p (String QUOTE ((s ++ String QUOTE "") ++ r))); Value (JString s, c)).
  by rewrite Hp.
Qed.

Lemma field_text_quotes name value : field_text name value = (in_quotes name ++ ":" ++ value)%string.
Proof. done. Qed.

Lemma module_reads m : plain_module m -> reads 1 (module_value m) (entry_text m).
Proof.
  intros [Hn Hf]. destruct m as [name [format caps]]. cbn [fst snd] in *.
  assert (E : entry_text (name, (format, caps)) =
    object_text [("format_id", in_quotes format); ("filename", in_quotes name); ("capabilities", utoa caps)]%string).
  { unfold entry_text, module_text, object_text. cbn [fst snd List.map comma_separated].
    rewrite !field_text_quotes, !append_assoc. done. }
  rewrite E. apply (reads_object_fields 0 [("format_id", JString format); ("filename", JString name);
    ("capabilities", unsigned_integer caps)]%string); [|reflexivity].
  repeat (constructor; [split; [done|split; [done|by first [apply reads_plain|apply reads_unsigned]]]|]). constructor.
Qed.

Lemma list_reads modules :
  Forall plain_module modules ->
  reads 3 (list_value modules)
    (object_text [("schema", "1"); ("modules", array_text (map entry_text modules))]%string).
Proof.
  intros Hm. apply (reads_object_fields 2 [("schema", JNumber "1"); ("modules", JArray (map module_value modules))]%string);
    [|reflexivity].
  constructor; [split; [done|split; [done|]]|constructor; [split; [done|split; [done|]]|constructor]]; cbn [fst snd].
  - apply (reads_unsigned 2 1).
  - apply (reads_mono (if is_null (head modules) then 0 else 2)); [destruct (is_null _); lia|].
    replace (is_null (head modules)) with (is_null (head (map module_value modules))) by (by destruct modules).
    apply reads_array. induction Hm as [|m modules Hp _ IH]; constructor; [by apply module_reads|done].
Qed.
End List.

(** ** Properties *)

Section ListProperty.
  Context {common : Infiltratr}.

(** The module list is valid JSON and says what was found.  When
    [ifs_filesystem_module_list_v2] answers 0, the text it printed is read back by
    [Json::parse] as schema 1 and the list of the modules whose probe succeeded,
    in directory order, each with the format its own table offers, its file name
    and its capabilities (an unsigned number): no file name or format name the
    probes let through can break out of the unescaped text. *)
Theorem module_list_parses t :
  runs ifs_filesystem_module_list_v2 t (Returned 0) ->
  exists modules, parse (printed t) = Value (list_value modules) /\ Forall plain_module modules /\
    (modules = [] \/ exists d probes subs entries,
       In (Event (ReadDirFd d) (Some entries)) t /\ map fst probes = entries /\
       Forall2 (probed d) probes subs /\ modules = omap listed_module probes).
Proof.
  unfold ifs_filesystem_module_list_v2. intros H.
  apply pbind_runs in H as [(m & _ & ?)|(d & t1 & t2 & -> & Hd & H)]; [done|].
  pose proof (silent_printed _ _ _ open_directory_silent Hd) as Hq. rewrite printed_app, Hq. clear Hd Hq.
  assert (Hread : forall modules, Forall plain_module modules ->
    parse ((list_head ++ with_commas true (map entry_text modules)) ++ list_tail) = Value (list_value modules)).
  { intros modules Hm. rewrite <- (parse_reads_line 3 _ _ (list_reads modules Hm)) by (unfold kLevels; lia).
    f_equal. unfold list_head, list_tail, object_text, array_text, field_text, with_commas.
    cbn [fst snd List.map comma_separated append]. destruct (map entry_text modules); cbn [append comma_separated];
      rewrite ?append_assoc; reflexivity. }
  destruct d as [d|].
  2:{ apply runs_inv in H as (u & t3 & -> & H). cbn [pbind] in H. apply runs_inv in H as [-> _].
      exists []. split; [|split; [constructor|by left]]. rewrite printed_cons, append_nil_r. cbn [printed_event append].
      rewrite <- (Hread [] ltac:(constructor)). cbn [List.map with_commas]. by rewrite append_nil_r. }
  apply runs_inv in H as (entries & t3 & -> & H). cbn [pbind] in H. destruct entries as [entries|].
  2:{ apply runs_inv in H as (? & ? & -> & H). by apply runs_inv in H as [_ ?]. }
  apply runs_inv in H as (u & t4 & -> & H). cbn [pbind] in H.
  apply pbind_runs in H as [(m & _ & ?)|([] & t5 & t6 & -> & Hl & H)]; [done|].
  apply list_loop_prints in Hl as (probes & subs & Hp & Hsubs & _ & Ht).
  do 3 (apply runs_inv in H as (? & ? & -> & H); cbn [pbind] in H). apply runs_inv in H as [-> _].
  assert (Hplain : Forall plain_module (omap listed_module probes)).
  { clear -Hsubs. induction Hsubs as [|[name [[format caps]|]] sub probes subs Hs _ IH]; [constructor|constructor|done].
    - by apply probed_plain in Hs as [? _].
    - done. }
  exists (omap listed_module probes). split; [|split; [done|right]].
  - rewrite <- (Hread _ Hplain). f_equal. rewrite !printed_cons, printed_app, Ht, !printed_cons.
    cbn [printed_event append printed List.map String.concat]. by rewrite !append_nil_r, append_assoc.
  - exists d, probes, subs, entries. split; [|done]. apply in_or_app. right. by left.
Qed.
End ListProperty.

Definition demo_list := execute demo_loader ifs_filesystem_module_list_v2 tt.

Lemma module_list_parses_witness :
  exists modules, parse (common := infiltratr_reference) (printed (snd demo_list)) = Value (list_value modules) /\
    Forall plain_module modules.
Proof.
  assert (Ho : fst demo_list = Returned 0) by (vm_compute; reflexivity).
  destruct (module_list_parses (common := infiltratr_reference) (snd demo_list))
    as (modules & Hp & Hm & _).
  - rewrite <- Ho. exact (execute_runs demo_loader _ tt).
  - exists modules. split; [exact Hp|exact Hm].
Defined.
