(* ===== verification/ModuleTarget.v ===== *)
(** The target and file services a module is given by
    [native/filesystem_module_host.c]: the exclusive, identity-bound opener, the
    reads and writes through the bound descriptor, the staging files and the
    private journal files.  The production build is modelled; the allocation of the
    handle does not fail. *)
From S2P Require Import Prelude Effects CString Infiltratr Sys CoreIO Path DeviceTopology Device ModuleHost.

Definition TARGET_IDENTITY_REFRESH_WRITES : Z := 128.
Definition IFS_DEFRAG_PATH_BYTES : Z := 4096.
Definition IFS_DEFRAG_ID_BYTES : Z := 512.

(** ** Data *)

(** A [char] array of [size] bytes that holds a C string: the bytes behind the
    text are zero, as [memset] leaves them. *)
Definition buffer_of (size : Z) (text : string) : string :=
  (text ++ string_of_list_ascii (repeat NUL (Z.to_nat (size - strlen text))))%string.

(** The host's side of a target; [bound_identity] is the whole array. *)
Record Target := mkTarget {
  device : LdDevice;
  stage : bool;
  writes_since_identity_refresh : Z;
  bound_identity : string;
}.

(** The module's side, which it may change; the handle is passed beside it. *)
Record IfsDefragTarget := mkView {
  bytes : Z;
  view_path : string;
  identity : string;
}.

Section Targets.
  Context {common : Infiltratr}.

(** ** Opening *)

Definition wrap_target (t : Target) : sys (option (Target * IfsDefragTarget)) :=
  let path := default EmptyString (dev_path (device t)) in
  if IFS_DEFRAG_PATH_BYTES <=? strlen path then Ret None
  else
    let* text := ld_device_format_identity (device t) IFS_DEFRAG_ID_BYTES in
    Ret (match text with
         | Err _ => None
         | Ok text =>
             let array := buffer_of IFS_DEFRAG_ID_BYTES text in
             Some (mkTarget (device t) (stage t) (writes_since_identity_refresh t) array,
                   mkView (dev_size_bytes (device t)) path array)
         end).

Definition target_open (path : option string) (write : bool) (wanted : option string) (size : Z) :
    sys (result (Target * IfsDefragTarget)) :=
  let* opened := ld_device_try_open path write in
  match opened with
  | Err e => Ret (Err e)
  | Ok d =>
      let close_and_fail e : sys (result (Target * IfsDefragTarget)) := ld_device_close d ;;; Ret (Err e) in
      let* stale :=
        match wanted with
        | None => Ret false
        | Some _ => let* same := ld_device_matches_identity d wanted size in Ret (negb same)
        end in
      if stale || (negb (size =? 0) && negb (size =? dev_size_bytes d)) then close_and_fail ESTALE
      else
        let* locked := call (Flock (dev_fd d) write) in
        match locked with
        | Err e => close_and_fail e
        | Ok _ =>
            let* wrapped := wrap_target (mkTarget d false 0 (buffer_of IFS_DEFRAG_ID_BYTES EmptyString)) in
            match wrapped with
            | None => close_and_fail EINVAL
            | Some r => Ret (Ok r)
            end
        end
  end.

Definition target_close (t : option Target) : sys unit :=
  match t with
  | None => Ret tt
  | Some t => ld_device_close (device t) ;;; Ret tt
  end.

(** ** Reading and writing *)

(** The open kernel object is still the bound one. *)
Definition bound_status (t : Target) (opened : stat) : bool :=
  let d := device t in
  (Z.land (st_mode opened) S_IFMT =? (if dev_is_block d then S_IFBLK else S_IFREG)) &&
  (st_dev opened =? dev_host_device d) && (st_ino opened =? dev_inode d) &&
  (negb (dev_is_block d) || (st_rdev opened =? dev_device_number d)).

Definition target_fd_matches_binding (t : Target) (out : IfsDefragTarget) : sys bool :=
  if (dev_fd (device t) <? 0) || negb (bytes out =? dev_size_bytes (device t)) ||
     negb (String.eqb (identity out) (bound_identity t)) then Ret false
  else
    let* opened := call (Fstat (dev_fd (device t))) in
    Ret (match opened with Ok st => bound_status t st | Err _ => false end).

(** [ld_device_matches_identity] on the host's own copy of the identity. *)
Definition still_identified (t : Target) : sys bool :=
  ld_device_matches_identity (device t) (Some (cut_nul (bound_identity t))) (dev_size_bytes (device t)).

Definition outside (at_ count : Z) (out : IfsDefragTarget) : bool :=
  (bytes out <? at_) || (bytes out - at_ <? count).

Definition target_read (t : option Target) (out : IfsDefragTarget) (at_ count : Z) : sys (option (list Z)) :=
  match t with
  | None => Ret None
  | Some t =>
      if outside at_ count out then Ret None
      else
        let* r := ld_pread_full (dev_fd (device t)) count at_ in
        Ret (match r with Ok (n, data) => if n =? count then Some data else None | Err _ => None end)
  end.

Definition with_writes (t : Target) (n : Z) : Target := mkTarget (device t) (stage t) n (bound_identity t).

(** The write itself; the counter is an [unsigned]. *)
Definition write_bound (t : Target) (at_ : Z) (data : list Z) : sys (Target * bool) :=
  let count := Z.of_nat (length data) in
  let* r := ld_pwrite_full (dev_fd (device t)) data count at_ in
  Ret (match r with
       | Ok n => if n =? count then (with_writes t (u32 (writes_since_identity_refresh t + 1)), true) else (t, false)
       | Err _ => (t, false)
       end).

Definition write_target (t : Target) (out : IfsDefragTarget) (at_ : Z) (data : list Z) : sys (Target * bool) :=
  if negb (dev_writable (device t)) then Ret (t, false)
  else
    let* bound := target_fd_matches_binding t out in
    if negb bound || outside at_ (Z.of_nat (length data)) out then Ret (t, false)
    else if TARGET_IDENTITY_REFRESH_WRITES <=? writes_since_identity_refresh t then
      let* same := still_identified t in
      if negb same then Ret (t, false) else write_bound (with_writes t 0) at_ data
    else write_bound t at_ data.

(** The callback: a view without a handle is refused. *)
Definition target_write (t : option Target) (out : IfsDefragTarget) (at_ : Z) (data : list Z) :
    sys (option Target * bool) :=
  match t with
  | None => Ret (None, false)
  | Some t => let* (t, ok) := write_target t out at_ data in Ret (Some t, ok)
  end.

(** [fuel] bounds the interrupted attempts of [ld_sync_fd]. *)
Definition sync_target (fuel : nat) (t : Target) (out : IfsDefragTarget) : sys (option (Target * bool)) :=
  let* bound := target_fd_matches_binding t out in
  if negb bound then Ret (Some (t, false))
  else
    let* same := still_identified t in
    if negb same then Ret (Some (t, false))
    else
      let* r := ld_sync_fd fuel (dev_fd (device t)) in
      Ret (match r with
           | None => None
           | Some (Ok _) => Some (with_writes t 0, true)
           | Some (Err _) => Some (t, false)
           end).

Definition target_sync (fuel : nat) (t : option Target) (out : IfsDefragTarget) :
    sys (option (option Target * bool)) :=
  match t with
  | None => Ret (Some (None, false))
  | Some t =>
      let* r := sync_target fuel t out in
      Ret (match r with Some (t, ok) => Some (Some t, ok) | None => None end)
  end.

(** ** Files of the host *)

Definition parents (path : string) : sys (result unit) :=
  ld_path_ensure_trusted_directory_tree (Some (ld_path_parent_directory path)).

Definition stage_flags : list oflag := [O_RDWR; O_CREAT; O_EXCL; O_NOFOLLOW; O_CLOEXEC].

(** The new file, with its size made durable. *)
Definition fill_stage (fd size : Z) : sys bool :=
  let* truncated := call (Ftruncate fd size) in
  let* filled :=
    match truncated with
    | Ok _ => let* synced := call (Fsync fd) in Ret (is_ok synced)
    | Err _ => Ret false
    end in
  call (Close fd) ;;; Ret filled.

Definition stage_create (path : string) (size : Z) : sys (option (Target * IfsDefragTarget)) :=
  if INT64_MAX <? size then Ret None
  else
    let* tree := parents path in
    if negb (is_ok tree) then Ret None
    else
      let* (capacity, _) := ld_path_require_staging_capacity (Some path) size false in
      if negb (is_ok capacity) then Ret None
      else
        let* created := call (Open path stage_flags) in
        match created with
        | Err _ => Ret None
        | Ok fd =>
            let* filled := fill_stage fd size in
            let* opened := if filled : bool then target_open (Some path) true None size else Ret (Err EIO) in
            match opened with
            | Err _ => call (UnlinkDurable path) ;;; Ret None
            | Ok (t, view) =>
                Ret (Some (mkTarget (device t) true (writes_since_identity_refresh t) (bound_identity t), view))
            end
        end.

(** 1 exists, 0 absent, -1 error. *)
Definition file_exists (path : string) : sys Z :=
  let* r := call (Lstat path) in
  Ret (match r with Ok _ => 1 | Err ENOENT => 0 | Err _ => -1 end).

Definition read_trusted (fd capacity : Z) : sys (option (list Z)) :=
  let* status := call (Fstat fd) in
  match status with
  | Err _ => Ret None
  | Ok st =>
      if negb (trusted_status false st) then Ret None
      else
        let* status := call (Fstat fd) in
        match status with
        | Err _ => Ret None
        | Ok st =>
            if (st_size st <? 0) || (capacity <? st_size st) then Ret None
            else
              let* r := ld_pread_full fd (st_size st) 0 in
              Ret (match r with Ok (n, data) => if n =? st_size st then Some data else None | Err _ => None end)
        end
  end.

Definition file_read (path : string) (capacity : Z) : sys (option (list Z)) :=
  let* tree := parents path in
  if negb (is_ok tree) then Ret None
  else
    let* opened := call (Open path file_flags) in
    match opened with
    | Err _ => Ret None
    | Ok fd =>
        let* data := read_trusted fd capacity in
        call (Close fd) ;;; Ret data
    end.

Definition file_atomic (path : string) (data : list Z) : sys bool :=
  let* tree := parents path in
  if negb (is_ok tree) then Ret false
  else let* r := call (AtomicWrite path data) in Ret (is_ok r).

Definition file_remove (path : string) : sys bool :=
  let* r := call (UnlinkDurable path) in Ret (is_ok r).

(** ** What a write did *)

(** The check that precedes every write and every flush. *)
Definition binding_checked (t : Target) (out : IfsDefragTarget) (ev : event sysE) : Prop :=
  0 <= dev_fd (device t) /\ bytes out = dev_size_bytes (device t) /\ identity out = bound_identity t /\
  exists st, ev = Event (Fstat (dev_fd (device t))) (Ok st) /\ bound_status t st = true.

Lemma binding_runs t out tr r :
  runs (target_fd_matches_binding t out) tr (Returned r) ->
  (r = true -> exists ev, tr = [ev] /\ binding_checked t out ev) /\
  (r = false -> tr = [] \/ exists x, tr = [Event (Fstat (dev_fd (device t))) x]).
Proof.
  unfold target_fd_matches_binding. destruct (_ || _) eqn:E; intros H.
  - apply runs_inv in H as [-> [= ->]]. split; [done|by left].
  - breflect. apply runs_inv in H as (x & tr' & -> & H). cbn [pbind] in H. apply runs_inv in H as [-> [= ->]].
    split; [|right; by exists x]. destruct x as [st|e]; [|done]. intros Hst.
    exists (Event (Fstat (dev_fd (device t))) (Ok st)). split; [done|].
    split; [done|]. split; [done|]. split; [by apply String.eqb_eq|]. by exists st.
Qed.

(** The counter of a target after one more write. *)
Definition counted (t : Target) (n : Z) : Target := with_writes t (u32 (n + 1)).

(** A successful write: the binding check, the refresh when it is due, and the
    one write, all of it inside the target. *)
Definition written (t : Target) (out : IfsDefragTarget) (at_ : Z) (data : list Z) (tr : list (event sysE))
    (t' : Target) : Prop :=
  exists ev refresh,
    tr = ev :: refresh ++ [Event (PwriteFull (dev_fd (device t)) data at_) (Ok tt)] /\
    binding_checked t out ev /\ dev_writable (device t) = true /\
    at_ <= dev_size_bytes (device t) /\ Z.of_nat (length data) <= dev_size_bytes (device t) - at_ /\
    if TARGET_IDENTITY_REFRESH_WRITES <=? writes_since_identity_refresh t
    then runs (still_identified t) refresh (Returned true) /\ t' = counted t 0
    else refresh = [] /\ t' = counted t (writes_since_identity_refresh t).

Definition pwrite_of (ev : event sysE) : option (Z * list Z * Z * result unit) :=
  match ev with
  | Event e x =>
      match e in sysE X return X -> option (Z * list Z * Z * result unit) with
      | PwriteFull fd d off => fun x => Some (fd, d, off, x)
      | _ => fun _ => None
      end x
  end.

(** What a refused write may have done: no write, or one that failed, at the same
    place of the same object. *)
Definition refused (t : Target) (at_ : Z) (data : list Z) (tr : list (event sysE)) : Prop :=
  forall fd d off r, In (Event (PwriteFull fd d off) r) tr ->
  fd = dev_fd (device t) /\ d = data /\ off = at_ /\ exists e, r = Err e.

Definition no_write (X : Type) (e : sysE X) : Prop := match e with PwriteFull _ _ _ => False | _ => True end.

Lemma no_write_refused {A} (p : sys A) t at_ data tr o :
  calls_in no_write p -> runs p tr o -> refused t at_ data tr.
Proof.
  intros Hp Hr fd d off r Hin. pose proof (calls_runs _ _ _ _ Hp Hr) as HF.
  by apply (proj1 (List.Forall_forall _ _) HF) in Hin.
Qed.

Lemma refused_app t at_ data tr1 tr2 :
  refused t at_ data tr1 -> refused t at_ data tr2 -> refused t at_ data (tr1 ++ tr2).
Proof. intros H1 H2 fd d off r Hin. apply in_app_or in Hin as [?|?]; eauto. Qed.

Lemma identified_refused t at_ data tr r :
  runs (still_identified t) tr (Returned r) -> refused t at_ data tr.
Proof.
  apply no_write_refused. unfold still_identified.
  eapply calls_impl; [|apply matches_identity_neutral]. by intros X [].
Qed.

(** The write and its answer. *)
Lemma write_bound_runs t0 t at_ data tr t' ok :
  device t = device t0 -> runs (write_bound t at_ data) tr (Returned (t', ok)) ->
  if ok : bool
  then tr = [Event (PwriteFull (dev_fd (device t)) data at_) (Ok tt)] /\
       t' = counted t (writes_since_identity_refresh t)
  else t' = t /\ refused t0 at_ data tr.
Proof.
  intros Hd. unfold write_bound, ld_pwrite_full. destruct (SSIZE_MAX <? _); intros H.
  - apply runs_inv in H as [-> [= -> ->]]. split; [done|]. by intros ? ? ? ? [].
  - apply runs_inv in H as (r & tr' & -> & H). cbn [pbind] in H. destruct r as [[]|e].
    + cbn [pbind] in H. rewrite Z.eqb_refl in H. by apply runs_inv in H as [-> [= -> ->]].
    + apply runs_inv in H as [-> [= -> ->]]. split; [done|]. intros fd d off r [Heq|[]]. rewrite <- Hd.
      apply (f_equal pwrite_of) in Heq. injection Heq as <- <- <- <-. split_and!; [done..|by exists e].
Qed.

(** The write callback on every path. *)
Lemma write_target_runs t out at_ data tr t' ok :
  0 <= writes_since_identity_refresh t <= TARGET_IDENTITY_REFRESH_WRITES ->
  runs (write_target t out at_ data) tr (Returned (t', ok)) ->
  if ok : bool then written t out at_ data tr t'
  else refused t at_ data tr /\ (t' = t \/ t' = with_writes t 0).
Proof.
  intros Hn. unfold write_target. destruct (dev_writable (device t)) eqn:Hw; intros H; cbn [negb] in H.
  2:{ apply runs_inv in H as [-> [= -> ->]]. split; [by intros ? ? ? ? []|by left]. }
  apply pbind_runs in H as [(m & _ & ?)|(bound & tr1 & tr2 & -> & Hb & H)]; [done|].
  apply binding_runs in Hb as [Hyes Hno].
  assert (Hcheck : refused t at_ data tr1).
  { destruct bound.
    - destruct (Hyes eq_refl) as (ev & -> & _ & _ & _ & st & -> & _). by intros ? ? ? ? [?|[]].
    - destruct (Hno eq_refl) as [->|(x & ->)]; [by intros ? ? ? ? []|by intros ? ? ? ? [?|[]]]. }
  destruct bound; cbn [negb orb] in H.
  2:{ apply runs_inv in H as [-> [= -> ->]]. rewrite app_nil_r. split; [done|by left]. }
  destruct (Hyes eq_refl) as (ev & -> & Hev).
  destruct (outside at_ (Z.of_nat (length data)) out) eqn:Hout.
  { apply runs_inv in H as [-> [= -> ->]]. rewrite app_nil_r. split; [done|by left]. }
  unfold outside in Hout. breflect. destruct Hev as (Hfd & Hsize & Hid & Hst).
  destruct (TARGET_IDENTITY_REFRESH_WRITES <=? writes_since_identity_refresh t) eqn:Hdue.
  - apply pbind_runs in H as [(m & _ & ?)|(same & tr3 & tr4 & -> & Hs & H)]; [done|].
    pose proof (identified_refused t at_ data _ _ Hs) as Hsr.
    destruct same; cbn [negb] in H.
    + apply (write_bound_runs t) in H; [|done]. destruct ok.
      * destruct H as [-> ->]. exists ev, tr3. split; [done|]. split; [by split_and!|].
        split_and!; [done|lia|lia|]. rewrite Hdue. done.
      * destruct H as [-> Hr]. split; [|by right]. by repeat apply refused_app.
    + apply runs_inv in H as [-> [= -> ->]]. rewrite app_nil_r. split; [by apply refused_app|by left].
  - apply (write_bound_runs t) in H; [|done]. destruct ok.
    + destruct H as [-> ->]. exists ev, []. split; [done|]. split; [by split_and!|].
      split_and!; [done|lia|lia|]. rewrite Hdue. done.
    + destruct H as [-> Hr]. split; [by apply refused_app|by left].
Qed.

(** ** Sequences of writes *)

(** The module's writes, with the view it passes each time, up to the first that
    is refused. *)
Fixpoint target_writes (t : Target) (ws : list (IfsDefragTarget * (Z * list Z))) : sys (Target * bool) :=
  match ws with
  | [] => Ret (t, true)
  | (out, (at_, data)) :: ws =>
      let* (t, ok) := write_target t out at_ data in
      if ok : bool then target_writes t ws else Ret (t, false)
  end.

Definition counter_ok (t : Target) : Prop := 0 <= writes_since_identity_refresh t <= TARGET_IDENTITY_REFRESH_WRITES.

(** The same target, apart from its counter. *)
Definition same_target (t t' : Target) : Prop := device t' = device t /\ bound_identity t' = bound_identity t.

Lemma written_next t out at_ data tr t' :
  counter_ok t -> written t out at_ data tr t' ->
  same_target t t' /\ counter_ok t' /\
  (writes_since_identity_refresh t < TARGET_IDENTITY_REFRESH_WRITES /\
     writes_since_identity_refresh t' = writes_since_identity_refresh t + 1 \/
   exists t1 t2 t3, tr = t1 ++ t2 ++ t3 /\ runs (still_identified t) t2 (Returned true)).
Proof.
  unfold counter_ok, TARGET_IDENTITY_REFRESH_WRITES. intros Hc (ev & refresh & -> & _ & _ & _ & _ & H).
  unfold TARGET_IDENTITY_REFRESH_WRITES in H. destruct (Z.leb_spec 128 (writes_since_identity_refresh t)).
  - destruct H as [H ->]. split; [done|]. split; [done|]. right.
    by eexists [ev], refresh, _.
  - destruct H as [-> ->]. cbn [counted with_writes writes_since_identity_refresh]. rewrite u32_small by (unfold is_u32; lia).
    split; [done|]. split; [lia|]. left. lia.
Qed.

Lemma target_writes_runs t ws tr t' :
  counter_ok t -> runs (target_writes t ws) tr (Returned (t', true)) ->
  counter_ok t' /\ same_target t t' /\
  (TARGET_IDENTITY_REFRESH_WRITES - writes_since_identity_refresh t < Z.of_nat (length ws) ->
   exists t0 t1 t2 t3, tr = t1 ++ t2 ++ t3 /\ same_target t t0 /\ runs (still_identified t0) t2 (Returned true)).
Proof.
  revert t tr. induction ws as [|[out [at_ data]] ws IH]; intros t tr Hc H; cbn [target_writes] in H.
  { apply runs_inv in H as [_ [= ->]]. split; [done|]. split; [done|]. unfold counter_ok in Hc. simpl. lia. }
  apply pbind_runs in H as [(m & _ & ?)|([t1 ok] & tr1 & tr2 & -> & H1 & H2)]; [done|].
  destruct ok; [|by apply runs_inv in H2 as [_ ?]].
  apply write_target_runs in H1; [|done]. apply written_next in H1 as ([Hd Hb] & Hc1 & Hn); [|done].
  destruct (IH _ _ Hc1 H2) as (Hc' & [Hd' Hb'] & Hlong). split; [done|].
  split; [split; congruence|]. intros Hl. destruct Hn as [[Hlt Hn]|(u1 & u2 & u3 & -> & Hi)].
  - destruct Hlong as (t0 & v1 & v2 & v3 & -> & [E1 E2] & Hi); [cbn [length] in Hl; lia|].
    exists t0, (tr1 ++ v1), v2, v3. rewrite <- app_assoc. split; [done|]. split; [|done]. split; congruence.
  - exists t, u1, u2, (u3 ++ tr2). rewrite <- !app_assoc. done.
Qed.

(** ** Opening *)

Lemma wrap_target_runs t tr r :
  runs (wrap_target t) tr (Returned r) -> neutral_trace tr /\
  forall t' view, r = Some (t', view) ->
    device t' = device t /\ stage t' = stage t /\
    writes_since_identity_refresh t' = writes_since_identity_refresh t /\
    bytes view = dev_size_bytes (device t) /\ identity view = bound_identity t' /\
    exists text, runs (ld_device_format_identity (device t) IFS_DEFRAG_ID_BYTES) tr (Returned (Ok text)) /\
      bound_identity t' = buffer_of IFS_DEFRAG_ID_BYTES text.
Proof.
  unfold wrap_target. cbv zeta. destruct (_ <=? _); intros H.
  - apply runs_inv in H as [-> [= ->]]. by split.
  - apply pbind_runs in H as [(m & _ & ?)|(text & t1 & t2 & -> & H1 & H)]; [done|].
    apply runs_inv in H as [-> [= ->]]. rewrite app_nil_r.
    split; [by eapply neutral_runs; [apply format_identity_neutral|]|].
    intros t' view E. destruct text as [text|]; [|done]. injection E as <- <-.
    split_and!; [done..|]. by exists text.
Qed.

(** A bound open: the safe open, the wanted identity and size, the lock. *)
Definition opened_bound (path : string) (write : bool) (wanted : option string) (size : Z)
    (tr : list (event sysE)) (t : Target) (view : IfsDefragTarget) : Prop :=
  exists t1 t2 t3,
    tr = t1 ++ t2 ++ Event (Flock (dev_fd (device t)) write) (Ok tt) :: t3 /\
    opened_safely t1 path write (device t) /\
    match wanted with
    | Some _ => runs (ld_device_matches_identity (device t) wanted size) t2 (Returned true)
    | None => t2 = []
    end /\
    (size <> 0 -> dev_size_bytes (device t) = size) /\
    bytes view = dev_size_bytes (device t) /\ identity view = bound_identity t /\
    stage t = false /\ counter_ok t /\
    exists text, runs (ld_device_format_identity (device t) IFS_DEFRAG_ID_BYTES) t3 (Returned (Ok text)) /\
      bound_identity t = buffer_of IFS_DEFRAG_ID_BYTES text.

Lemma closing_runs {A} d (e : errno) tr (o : outcome (result A)) :
  0 <= dev_fd d -> runs (ld_device_close d ;;; Ret (Err e)) tr o ->
  o = Returned (Err e) /\ fds_opened tr = [] /\ fds_closed tr = [dev_fd d].
Proof.
  intros Hfd H. apply pbind_runs in H as [(m & H & ->)|(a & t1 & t2 & -> & H1 & H)].
  - by apply device_close_runs in H as (? & ? & _).
  - apply runs_inv in H as [-> ->]. rewrite app_nil_r.
    apply device_close_runs in H1 as (? & _ & -> & ->). by rewrite (proj2 (Z.leb_le 0 (dev_fd d)) Hfd).
Qed.

Lemma target_open_runs path write wanted size tr r :
  (forall fd, In fd (fds_opened tr) -> 0 <= fd) ->
  runs (target_open (Some path) write wanted size) tr (Returned r) ->
  match r with
  | Err _ => Permutation (fds_opened tr) (fds_closed tr)
  | Ok (t, view) => fds_opened tr = [dev_fd (device t)] /\ fds_closed tr = [] /\
                    opened_bound path write wanted size tr t view
  end.
Proof.
  unfold target_open. intros Hfd H.
  apply pbind_runs in H as [(m & _ & ?)|(opened & t1 & u1 & -> & H1 & H)]; [done|].
  rewrite fds_opened_app in Hfd.
  apply try_open_runs in H1 as [(m & ?)|[(e & [= ->] & HP)|(d & [= ->] & Ho & Hc & Hsafe)]]; [done| |].
  { apply runs_inv in H as [-> [= ->]]. by rewrite !app_nil_r. }
  assert (Hd : 0 <= dev_fd d) by (apply Hfd; rewrite Ho; by left).
  assert (Hgive : forall t2 e u2, neutral_trace t2 -> u1 = t2 ++ u2 ->
    runs (ld_device_close d ;;; Ret (Err e)) u2 (Returned r) ->
    exists e, r = Err e /\ Permutation (fds_opened (t1 ++ u1)) (fds_closed (t1 ++ u1))).
  { intros t2 e u2 [N1 N2] -> Hu. apply closing_runs in Hu as ([= ->] & O & C); [|done]. exists e.
    split; [done|]. by rewrite !fds_opened_app, !fds_closed_app, Ho, Hc, N1, N2, O, C. }
  apply pbind_runs in H as [(m & _ & ?)|(stale & t2 & u2 & -> & H2 & H)]; [done|].
  assert (N2 : neutral_trace t2 /\ (stale = false ->
    match wanted with
    | Some _ => runs (ld_device_matches_identity d wanted size) t2 (Returned true)
    | None => t2 = []
    end)).
  { destruct wanted as [w|]; [|by apply runs_inv in H2 as [-> _]].
    apply pbind_runs in H2 as [(m & _ & ?)|(same & v1 & v2 & -> & H2 & H3)]; [done|].
    apply runs_inv in H3 as [-> [= ->]]. rewrite app_nil_r.
    split; [by eapply neutral_runs; [apply matches_identity_neutral|]|]. by destruct same. }
  destruct N2 as [N2 Hwanted]. destruct (stale || _) eqn:Hstale.
  { destruct (Hgive _ _ _ N2 eq_refl H) as (e & -> & HP). done. }
  apply runs_inv in H as (locked & u3 & -> & H). cbn [pbind] in H. destruct locked as [[]|e].
  2:{ destruct (Hgive (t2 ++ [Event (Flock (dev_fd d) write) (Err e)]) e u3) as (e' & -> & HP); try done.
      - destruct N2 as [A B]. unfold neutral_trace. by rewrite fds_opened_app, fds_closed_app, A, B.
      - by rewrite <- app_assoc. }
  apply pbind_runs in H as [(m & _ & ?)|(wrapped & t3 & u4 & -> & H3 & H)]; [done|].
  apply wrap_target_runs in H3 as [N3 Hw]. cbn [device stage writes_since_identity_refresh] in Hw.
  assert (N23 : neutral_trace (t2 ++ Event (Flock (dev_fd d) write) (Ok tt) :: t3)).
  { destruct N2 as [A B], N3 as [A' B']. unfold neutral_trace.
    rewrite fds_opened_app, fds_closed_app, A, B. done. }
  destruct wrapped as [[t view]|].
  - apply runs_inv in H as [-> [= ->]]. rewrite app_nil_r.
    destruct (Hw _ _ eq_refl) as (-> & Hs & Hn & Hb & Hi & Ht).
    destruct N23 as [A B]. rewrite fds_opened_app, fds_closed_app, Ho, Hc, A, B.
    split; [done|]. split; [done|]. apply orb_false_iff in Hstale as [-> Hsz]. exists t1, t2, t3.
    destruct (Hw _ _ eq_refl) as (Hdev & _). rewrite Hdev. specialize (Hwanted eq_refl).
    split_and!; try done; [|unfold counter_ok; rewrite Hn; done].
    intros Hne. apply andb_false_iff in Hsz as [Hz|Hz]; breflect; done.
  - edestruct (Hgive (t2 ++ Event (Flock (dev_fd d) write) (Ok tt) :: t3)) as (e & -> & HP);
      [done| |exact H|done]. by rewrite <- app_assoc.
Qed.

Lemma target_open_unstaged path write wanted size tr t view :
  runs (target_open path write wanted size) tr (Returned (Ok (t, view))) -> stage t = false.
Proof.
  unfold target_open. intros H.
  apply pbind_runs in H as [(m & _ & ?)|([d|e] & t1 & u1 & _ & _ & H)]; [done| |by apply runs_inv in H as [_ ?]].
  apply pbind_runs in H as [(m & _ & ?)|(stale & t2 & u2 & _ & _ & H)]; [done|].
  assert (Hgive : forall e u, ~ runs (ld_device_close d ;;; Ret (Err e)) u
    (Returned (Ok (t, view) : result (Target * IfsDefragTarget)))).
  { intros e u Hu. apply pbind_runs in Hu as [(m & _ & ?)|(a & v1 & v2 & _ & _ & Hu)]; [done|].
    by apply runs_inv in Hu as [_ ?]. }
  destruct (stale || _); [by apply Hgive in H|].
  apply runs_inv in H as (locked & u3 & _ & H). cbn [pbind] in H. destruct locked; [|by apply Hgive in H].
  apply pbind_runs in H as [(m & _ & ?)|([[u v]|] & t3 & u4 & _ & H3 & H)]; [done| |by apply Hgive in H].
  apply runs_inv in H as [_ [= -> ->]]. apply wrap_target_runs in H3 as [_ Hw].
  by destruct (Hw _ _ eq_refl) as (_ & -> & _).
Qed.

(** ** The flush *)

(** A flush that succeeded: the binding and the identity, then the object synced,
    which starts a new batch of writes. *)
Definition flushed (fuel : nat) (t : Target) (out : IfsDefragTarget) (tr : list (event sysE)) (t' : Target) :
    Prop :=
  exists ev t1 t2, tr = ev :: t1 ++ t2 /\ binding_checked t out ev /\
    runs (still_identified t) t1 (Returned true) /\
    runs (ld_sync_fd fuel (dev_fd (device t))) t2 (Returned (Some (Ok tt))) /\ t' = with_writes t 0.

Lemma sync_target_runs fuel t out tr t' ok :
  runs (sync_target fuel t out) tr (Returned (Some (t', ok))) ->
  if ok : bool then flushed fuel t out tr t' else t' = t.
Proof.
  unfold sync_target. intros H.
  apply pbind_runs in H as [(m & _ & ?)|(bound & t1 & u1 & -> & H1 & H)]; [done|].
  apply binding_runs in H1 as [Hyes _]. destruct bound; cbn [negb] in H; [|by apply runs_inv in H as [_ [= -> ->]]].
  destruct (Hyes eq_refl) as (ev & -> & Hev).
  apply pbind_runs in H as [(m & _ & ?)|(same & t2 & u2 & -> & H2 & H)]; [done|].
  destruct same; cbn [negb] in H; [|by apply runs_inv in H as [_ [= -> ->]]].
  apply pbind_runs in H as [(m & _ & ?)|(synced & t3 & u3 & -> & H3 & H)]; [done|].
  apply runs_inv in H as [-> E]. rewrite app_nil_r. destruct synced as [[[]|e]|]; [| |done];
    injection E as -> ->; [|done]. by exists ev, t2, t3.
Qed.

(** ** Staging files *)

(** A call that creates no file exclusively. *)
Definition no_creation (X : Type) (e : sysE X) : Prop :=
  match e with Open _ flags => flags <> stage_flags | _ => True end.

Lemma child_no_creation directory component : calls_in no_creation (open_or_create_child directory component).
Proof. unfold open_or_create_child, open_child_directory. calls. Qed.
#[local] Hint Resolve child_no_creation : calls.

Lemma walk_no_creation uid directory components :
  calls_in no_creation (trusted_walk_loop uid directory components).
Proof.
  revert directory. induction components as [|c cs IH]; intros directory; cbn [trusted_walk_loop]; calls; apply IH.
Qed.
#[local] Hint Resolve walk_no_creation : calls.

Lemma parents_no_creation path : calls_in no_creation (parents path).
Proof.
  unfold parents, ld_path_ensure_trusted_directory_tree. destruct (negb _); [exact I|]. split; [done|].
  intros [fd|e]; calls.
Qed.

Lemma capacity_no_creation path size nulls :
  calls_in no_creation (ld_path_require_staging_capacity path size nulls).
Proof. unfold ld_path_require_staging_capacity. calls. Qed.

Definition creates (tr : list (event sysE)) : Prop :=
  exists path fd, In (Event (Open path stage_flags) (Ok fd)) tr.

Lemma no_creation_runs {A} (p : sys A) tr o : calls_in no_creation p -> runs p tr o -> ~ creates tr.
Proof.
  intros Hp Hr (path & fd & Hin). pose proof (calls_runs _ _ _ _ Hp Hr) as HF.
  by apply (proj1 (List.Forall_forall _ _) HF) in Hin.
Qed.

Lemma creates_app t1 t2 : ~ creates t1 -> ~ creates t2 -> ~ creates (t1 ++ t2).
Proof. intros H1 H2 (path & fd & Hin). apply in_app_or in Hin as [?|?]; [apply H1|apply H2]; by exists path, fd. Qed.

(** The new file: created exclusively, sized, made durable and closed. *)
Definition filled_stage (path : string) (fd size : Z) (tr : list (event sysE)) : Prop :=
  exists x, tr = [Event (Open path stage_flags) (Ok fd); Event (Ftruncate fd size) (Ok tt);
                  Event (Fsync fd) (Ok tt); Event (Close fd) x].

Lemma fill_stage_runs path fd size tr :
  runs (fill_stage fd size) tr (Returned true) ->
  filled_stage path fd size (Event (Open path stage_flags) (Ok fd) :: tr).
Proof.
  unfold fill_stage. intros H. apply runs_inv in H as (r & t1 & -> & H). cbn [pbind] in H.
  destruct r as [[]|e]; cbn [pbind] in H.
  - apply runs_inv in H as (r & t2 & -> & H). cbn [pbind] in H.
    apply runs_inv in H as (x & t3 & -> & H). cbn [pbind] in H. apply runs_inv in H as [-> [= H]].
    destruct r as [[]|]; [by exists x|done].
  - apply runs_inv in H as (x & t3 & -> & H). by apply runs_inv in H as [-> [= H]].
Qed.

(** What a staging call left: a durable file opened and bound for writing, or
    nothing. *)
Definition staged (path : string) (size : Z) (tr : list (event sysE)) (t : Target) (view : IfsDefragTarget) :
    Prop :=
  exists t1 fd t2 t3, tr = t1 ++ t2 ++ t3 /\ filled_stage path fd size t2 /\
    runs (target_open (Some path) true None size) t3
      (Returned (Ok (mkTarget (device t) false (writes_since_identity_refresh t) (bound_identity t), view))) /\
    stage t = true.

Lemma stage_create_runs path size tr r :
  runs (stage_create path size) tr (Returned r) ->
  match r with
  | Some (t, view) => staged path size tr t view
  | None => ~ creates tr \/ exists t1 x, tr = t1 ++ [Event (UnlinkDurable path) x]
  end.
Proof.
  assert (Hnil : ~ creates []) by (by intros (? & ? & [])).
  unfold stage_create. destruct (INT64_MAX <? size); intros H.
  { apply runs_inv in H as [-> [= ->]]. by left. }
  apply pbind_runs in H as [(m & _ & ?)|(tree & t1 & u1 & -> & H1 & H)]; [done|].
  apply no_creation_runs in H1; [|apply parents_no_creation].
  destruct (is_ok tree); cbn [negb] in H; [|apply runs_inv in H as [-> [= ->]]; left; by apply creates_app].
  apply pbind_runs in H as [(m & _ & ?)|([capacity o] & t2 & u2 & -> & H2 & H)]; [done|].
  apply no_creation_runs in H2; [|apply capacity_no_creation].
  destruct (is_ok capacity); cbn [negb] in H;
    [|apply runs_inv in H as [-> [= ->]]; left; by repeat apply creates_app].
  apply runs_inv in H as (created & u3 & -> & H). cbn [pbind] in H. destruct created as [fd|e].
  2:{ apply runs_inv in H as [-> [= ->]]. left. repeat apply creates_app; [done..|].
      intros (p & fd & [E|[]]). by apply (f_equal fd_opened) in E. }
  apply pbind_runs in H as [(m & _ & ?)|(filled & t3 & u4 & -> & H3 & H)]; [done|].
  apply pbind_runs in H as [(m & _ & ?)|(opened & t4 & u5 & -> & H4 & H)]; [done|].
  destruct opened as [[t view]|e].
  - apply runs_inv in H as [-> [= ->]]. destruct filled; [|by apply runs_inv in H4 as [_ ?]].
    exists (t1 ++ t2), fd, (Event (Open path stage_flags) (Ok fd) :: t3), t4.
    split; [by rewrite app_nil_r, <- app_assoc|]. split; [by apply fill_stage_runs|]. split; [|done].
    cbn [device writes_since_identity_refresh bound_identity].
    apply target_open_unstaged in H4 as Hs. by destruct t; cbn in *; subst.
  - apply runs_inv in H as (x & u6 & -> & H). apply runs_inv in H as [-> [= ->]]. right.
    exists (t1 ++ t2 ++ Event (Open path stage_flags) (Ok fd) :: t3 ++ t4), x. by rewrite <- !app_assoc, <- app_comm_cons, <- app_assoc.
Qed.

(** ** Properties *)

(** C24: A module writes only inside its bound target.  A write that succeeds was
    preceded by the check that the descriptor is still the opened object and the
    view unchanged, is exactly one write of the given bytes to that descriptor at
    the given offset, lies within the size recorded at the open, and is counted; a
    write that is refused has written nothing, or tried the same place and
    failed. *)
Theorem write_lands_in_binding t out at_ data tr t' ok :
  counter_ok t -> runs (target_write (Some t) out at_ data) tr (Returned (t', ok)) ->
  exists u, t' = Some u /\ same_target t u /\ counter_ok u /\
  if ok : bool then written t out at_ data tr u else refused t at_ data tr.
Proof.
  intros Hc H. apply pbind_runs in H as [(m & _ & ?)|([u b] & t1 & t2 & -> & H & Hr)]; [done|].
  apply runs_inv in Hr as [-> [= -> ->]]. rewrite app_nil_r. exists u. split; [done|].
  apply write_target_runs in H; [|done]. destruct b.
  - by edestruct (written_next t) as (? & ? & _).
  - destruct H as [Hr [->| ->]]; done.
Qed.

(** The identity is refreshed: whatever views a module passes, a run of
    successful writes longer than what is left of the batch of 128 contains a full
    re-identification of the same target that succeeded. *)
Theorem writes_reidentified t ws tr t' :
  counter_ok t -> runs (target_writes t ws) tr (Returned (t', true)) ->
  TARGET_IDENTITY_REFRESH_WRITES - writes_since_identity_refresh t < Z.of_nat (length ws) ->
  exists t0 t1 t2 t3, tr = t1 ++ t2 ++ t3 /\ same_target t t0 /\ runs (still_identified t0) t2 (Returned true).
Proof. intros Hc H. by apply target_writes_runs in H as (_ & _ & H). Qed.

(** A target is handed to a module only bound: the object was opened safely,
    has the wanted identity and size, is locked by this process, and the view
    carries its size and the identity recorded for every later check; the one
    descriptor stays open.  An open that fails has closed what it opened. *)
Theorem target_open_bound path write wanted size tr r :
  (forall fd, In fd (fds_opened tr) -> 0 <= fd) ->
  runs (target_open (Some path) write wanted size) tr (Returned r) ->
  match r with
  | Err _ => Permutation (fds_opened tr) (fds_closed tr)
  | Ok (t, view) => fds_opened tr = [dev_fd (device t)] /\ fds_closed tr = [] /\
                    opened_bound path write wanted size tr t view
  end.
Proof. apply target_open_runs. Qed.

(** A flush is answered with success only when the descriptor and the identity
    were checked again and the object was synced after that; then, and only then,
    a new batch of writes starts. *)
Theorem sync_after_identity fuel t out tr t' ok :
  runs (target_sync fuel (Some t) out) tr (Returned (Some (t', ok))) ->
  exists u, t' = Some u /\ if ok : bool then flushed fuel t out tr u else u = t.
Proof.
  intros H. apply pbind_runs in H as [(m & _ & ?)|([[u b]|] & t1 & t2 & -> & H & Hr)]; [done| |].
  - apply runs_inv in Hr as [-> [= -> ->]]. rewrite app_nil_r. exists u. split; [done|].
    by apply sync_target_runs in H.
  - by apply runs_inv in Hr as [_ ?].
Qed.

(** A staging file is created exclusively or not at all: the file a module is
    given did not exist, was sized, synced and closed, and then opened and bound
    like any target; a call that fails has created nothing, or has removed what it
    created as its last act. *)
Theorem stage_created_or_removed path size tr r :
  runs (stage_create path size) tr (Returned r) ->
  match r with
  | Some (t, view) => staged path size tr t view
  | None => ~ creates tr \/ exists t1 x, tr = t1 ++ [Event (UnlinkDurable path) x]
  end.
Proof. apply stage_create_runs. Qed.

End Targets.

(** ** Witnesses *)

(** [Device.image_host] with locks, writes and syncs that succeed. *)
Definition target_host (X : Type) (e : sysE X) (s : unit) : X * unit :=
  match e in sysE X return X * unit with
  | Flock _ _ => (Ok tt, s)
  | PwriteFull _ _ _ => (Ok tt, s)
  | Fsync _ => (Ok tt, s)
  | e => image_host _ e s
  end.

Definition demo_identity : string := file_identity_text 7 42.

Definition demo_array : string := buffer_of IFS_DEFRAG_ID_BYTES demo_identity.

Definition demo_target (n : Z) : Target :=
  mkTarget (mkDevice 5 (Some "/img") true false 4096 0 7 42) false n demo_array.

Definition demo_view : IfsDefragTarget := mkView 4096 "/img" demo_array.

Definition demo_target_open :=
  execute target_host
    (target_open (common := infiltratr_reference) (Some "/img") true (Some demo_identity) 4096) tt.

Definition demo_target_write :=
  execute target_host
    (target_write (common := infiltratr_reference) (Some (demo_target 128)) demo_view 4092 [1; 2; 3; 4]) tt.

Definition demo_writes : list (IfsDefragTarget * (Z * list Z)) :=
  [(demo_view, (0, [1])); (demo_view, (8, [2])); (demo_view, (16, [3]))].

Definition demo_target_writes :=
  execute target_host (target_writes (common := infiltratr_reference) (demo_target 126) demo_writes) tt.

Definition demo_target_sync :=
  execute target_host (target_sync (common := infiltratr_reference) 1 (Some (demo_target 3)) demo_view) tt.

Lemma write_lands_in_binding_witness :
  written (common := infiltratr_reference) (demo_target 128) demo_view 4092 [1; 2; 3; 4]
    (snd demo_target_write) (demo_target 1).
Proof.
  destruct (write_lands_in_binding (common := infiltratr_reference) (demo_target 128) demo_view 4092
    [1; 2; 3; 4] (snd demo_target_write) (Some (demo_target 1)) true) as (u & [= <-] & _ & _ & H).
  - unfold counter_ok, TARGET_IDENTITY_REFRESH_WRITES. simpl. lia.
  - replace (Returned _) with (fst demo_target_write) by (vm_compute; reflexivity). apply execute_runs.
  - exact H.
Defined.

Lemma writes_reidentified_witness :
  exists t0 t1 t2 t3, snd demo_target_writes = t1 ++ t2 ++ t3 /\ same_target (demo_target 126) t0 /\
    runs (still_identified (common := infiltratr_reference) t0) t2 (Returned true).
Proof.
  apply (writes_reidentified (common := infiltratr_reference) (demo_target 126) demo_writes
    (snd demo_target_writes) (demo_target 1)).
  - unfold counter_ok, TARGET_IDENTITY_REFRESH_WRITES. simpl. lia.
  - replace (Returned _) with (fst demo_target_writes) by (vm_compute; reflexivity). apply execute_runs.
  - vm_compute. reflexivity.
Defined.

Lemma target_open_bound_witness :
  opened_bound (common := infiltratr_reference) "/img" true (Some demo_identity) 4096
    (snd demo_target_open) (demo_target 0) demo_view.
Proof.
  apply (target_open_bound (common := infiltratr_reference) "/img" true (Some demo_identity) 4096
    (snd demo_target_open) (Ok (demo_target 0, demo_view))).
  - intros fd. replace (fds_opened (snd demo_target_open)) with [5] by (vm_compute; reflexivity).
    intros [<-|[]]. lia.
  - replace (Returned _) with (fst demo_target_open) by (vm_compute; reflexivity). apply execute_runs.
Defined.

Lemma sync_after_identity_witness :
  flushed (common := infiltratr_reference) 1 (demo_target 3) demo_view (snd demo_target_sync) (demo_target 0).
Proof.
  destruct (sync_after_identity (common := infiltratr_reference) 1 (demo_target 3) demo_view
    (snd demo_target_sync) (Some (demo_target 0)) true) as (u & [= <-] & H).
  - replace (Returned _) with (fst demo_target_sync) by (vm_compute; reflexivity). apply execute_runs.
  - exact H.
Defined.

(** [target_host] with room for a staging file. *)
Definition stage_host (X : Type) (e : sysE X) (s : unit) : X * unit :=
  match e in sysE X return X * unit with
  | Statvfs _ => (Ok (mkStatvfs 4096 4096 1000), s)
  | Ftruncate _ _ => (Ok tt, s)
  | e => target_host _ e s
  end.

Definition demo_stage :=
  execute stage_host (stage_create (common := infiltratr_reference) "/img" 4096) tt.

Definition demo_staged : Target := mkTarget (device (demo_target 0)) true 0 demo_array.

Lemma stage_created_or_removed_witness :
  staged (common := infiltratr_reference) "/img" 4096 (snd demo_stage) demo_staged demo_view.
Proof.
  apply (stage_created_or_removed (common := infiltratr_reference) "/img" 4096 (snd demo_stage)
    (Some (demo_staged, demo_view))).
  replace (Returned _) with (fst demo_stage) by (vm_compute; reflexivity). apply execute_runs.
Defined.
