(* ===== verification/ModuleLoaders.v ===== *)
(** The workers that only load a format module, [native/*_module_loader.c]: what
    each requires of the interface table of its module, and which module is chosen
    when a format has several.  The FAT loader, which does not use the module host, is in
    [FatLoader.v]. *)
From S2P Require Import Prelude Effects CString Sys Exceptions Runtime ModuleHost.

(** ** Interfaces *)

(** A versioned interface: the symbol that gives its table, and what a table must
    have to be used. *)
Record interface := mkInterface {
  symbol : string;
  version : Z;
  table_bytes : Z;
  format : string;
  required : Z;
  functions : list string;
  (** What is printed when the table is not that. *)
  refusal : string;
}.

(** The test of a table; the capabilities are all required. *)
Definition accepts (i : interface) (api : option module_api) : bool :=
  match api with
  | None => false
  | Some api =>
      (abi_version api =? version i) && (table_bytes i <=? structure_bytes api) &&
      bool_decide (format_id api = Some (format i)) &&
      (Z.land (capabilities api) (required i) =? required i) &&
      forallb (fun name => has_method name api) (functions i)
  end.

Definition line (text : string) : string := (text ++ String LF "")%string.

(** [sizeof] of the tables: two words, a pointer and 64 bits before the functions. *)
Definition table_with (functions : Z) : Z := 24 + 8 * functions.

Definition CAP_RUN : Z := 1.
Definition CAP_FIXTURE : Z := 2.

(** A worker with one module: its interface and its file. *)
Record worker := mkWorker { its : interface; file : string }.

#[local] Open Scope string_scope.

Definition apfs_worker : worker := mkWorker
  (mkInterface "infiltrator_filesystem_apfs_v1" 1 (table_with 2) "apfs" (Z.lor CAP_RUN CAP_FIXTURE) ["run"; "fixture"]
     "APFS.so: unsupported or incomplete module ABI") "APFS.so".
Definition btrfs_worker : worker := mkWorker
  (mkInterface "infiltrator_filesystem_btrfs_v1" 1 (table_with 2) "btrfs" CAP_RUN ["run"]
     "BTRFS.so: missing or incompatible driver") "BTRFS.so".
Definition exfat_worker : worker := mkWorker
  (mkInterface "infiltrator_filesystem_exfat_defrag_v1" 1 (table_with 1) "exfat" CAP_RUN ["run"]
     "exFAT.so: missing or incompatible defragmentation interface") "exFAT.so".
Definition hfs_worker : worker := mkWorker
  (mkInterface "infiltrator_filesystem_hfs_v1" 1 (table_with 2) "hfs" CAP_RUN ["run"]
     "HFS.so: missing or incompatible module") "HFS.so".
Definition hfsplus_worker : worker := mkWorker
  (mkInterface "infiltrator_filesystem_hfsplus_v1" 1 (table_with 2) "hfsplus" CAP_RUN ["run"]
     "HFSPLUS.so: incomplete or incompatible filesystem module") "HFSPLUS.so".
Definition minix_worker : worker := mkWorker
  (mkInterface "infiltrator_filesystem_minix_defrag_v1" 1 (table_with 2) "minix" CAP_RUN ["run"]
     "MINIX.so: missing or incompatible defrag module") "MINIX.so".
Definition ntfs_worker : worker := mkWorker
  (mkInterface "infiltrator_filesystem_ntfs_v1" 1 (table_with 2) "ntfs" CAP_RUN ["run"]
     "NTFS.so: invalid or incomplete module") "NTFS.so".
Definition pfs3_worker : worker := mkWorker
  (mkInterface "infiltrator_filesystem_pfs3_v1" 1 (table_with 2) "pfs3" (Z.lor CAP_RUN CAP_FIXTURE) ["run"; "fixture"]
     "PFS3.so: unsupported or incomplete module ABI") "PFS3.so".
Definition sfs_worker : worker := mkWorker
  (mkInterface "infiltrator_filesystem_sfs_v1" 1 (table_with 2) "sfs" (Z.lor CAP_RUN CAP_FIXTURE) ["run"; "fixture"]
     "SFS.so: unsupported or incomplete module ABI") "SFS.so".
Definition swap_worker : worker := mkWorker
  (mkInterface "infiltrator_filesystem_swap_v1" 1 (table_with 3) "swap" CAP_RUN ["run"]
     "SWAP.so has no valid swap worker interface") "SWAP.so".
Definition xfs_worker : worker := mkWorker
  (mkInterface "infiltrator_filesystem_xfs_v1" 1 (table_with 2) "xfs" CAP_RUN ["run"]
     "XFS.so: invalid or incomplete module") "XFS.so".
Definition zfs_worker : worker := mkWorker
  (mkInterface "infiltrator_filesystem_zfs_v1" 1 (table_with 2) "zfs" CAP_RUN ["run"]
     "ZFS.so: unrecognised ZFS worker API") "ZFS.so".
(** The FFS module of the Amiga worker. *)
Definition ffs_worker : worker := mkWorker
  (mkInterface "infiltrator_filesystem_ffs_defrag_v1" 1 (table_with 1) "ffs" CAP_RUN ["run"]
     "FFS.so: missing native defragmentation interface") "FFS.so".

Definition one_module_workers : list worker :=
  [apfs_worker; btrfs_worker; exfat_worker; hfs_worker; hfsplus_worker; minix_worker; ntfs_worker; pfs3_worker;
   sfs_worker; swap_worker; xfs_worker; zfs_worker].

(** [execute]: the function [method] of an accepted table, called with the
    arguments of the worker. *)
Definition execute (i : interface) (method : string) : module_caller (list string) := fun image arguments =>
  let* api := call (EntryTable image (symbol i)) in
  if negb (accepts i api) then call (FputsError (line (refusal i))) ;;; Ret (1, arguments)
  else let* r := call (Invoke image (symbol i) method arguments) in Ret (r, arguments).

(** [main] of these workers. *)
Definition worker_main (w : worker) (arguments : list string) : load Z :=
  let* (r, _) := ifs_filesystem_module_call (Some (format (its w))) (Some (file w)) (symbol (its w))
                   (execute (its w) "run") arguments in
  Ret r.

(** ** EXT *)

Definition EXT_NOT_THIS_FORMAT : Z := 253.

(** Run, metadata, fixture and probe. *)
Definition ext_interface (format : string) : interface :=
  mkInterface "infiltrator_filesystem_ext_v1" 1 (table_with 4) format 15 ["probe"; "run"; "metadata"; "fixture"]
    "EXT.so: incomplete module API".

Definition ext_formats : list (string * string) := [("ext2", "EXT2.so"); ("ext3", "EXT3.so"); ("ext4", "EXT4.so")].

(** [argv[2]], when there is one. *)
Definition target_of (arguments : list string) : option string := nth_error arguments 2.

(** [invoke]; the state is [matched]. *)
Definition ext_invoke (metadata : bool) (i : interface) (arguments : list string) : module_caller bool := fun image matched =>
  let* api := call (EntryTable image (symbol i)) in
  if negb (accepts i api) then call (FputsError (line (refusal i))) ;;; Ret (1, matched)
  else
    let* recognised :=
      match target_of arguments with
      | None => Ret 0
      | Some path => call (Invoke image (symbol i) "probe" [path])
      end in
    if negb (recognised =? 0)%Z then Ret (EXT_NOT_THIS_FORMAT, matched)
    else
      let* r := call (Invoke image (symbol i) (if metadata then "metadata" else "run") arguments) in
      Ret (r, true).

Definition ext_call (metadata : bool) (format filename : string) (arguments : list string) : load (Z * bool) :=
  let i := ext_interface format in
  ifs_filesystem_module_call (Some format) (Some filename) (symbol i) (ext_invoke metadata i arguments) false.

Fixpoint ext_loop (metadata : bool) (arguments : list string) (formats : list (string * string)) : load Z :=
  match formats with
  | [] => call (FputsError (line "EXT2/3/4.so: no available module recognised the device")) ;;; Ret 1
  | (format, filename) :: formats =>
      let* (r, matched) := ext_call metadata format filename arguments in
      if matched : bool then Ret r else ext_loop metadata arguments formats
  end.

(** [main], of the worker and of the metadata worker. *)
Definition ext_main (metadata : bool) (arguments : list string) : load Z :=
  match target_of arguments with
  | None => let* (r, _) := ext_call metadata "ext4" "EXT4.so" arguments in Ret r
  | Some _ => ext_loop metadata arguments ext_formats
  end.

(** ** UFS *)

Definition ufs_interface (format : string) : interface :=
  mkInterface "infiltrator_filesystem_ufs_v1" 1 (table_with 2) format CAP_RUN ["run"]
    "Incompatible or missing UFS1/UFS2 filesystem module interface".
(** [sizeof] of the tables of the read-only questions: two words, a pointer and one
    function; they have no capabilities. *)
Definition question_table : Z := 24.
Definition ufs_probe_interface (format : string) : interface :=
  mkInterface "infiltrator_filesystem_ufs_probe_v1" 1 question_table format 0 ["accepts_volume"] "".

(** A read-only question to a module about the target: [probe_volume] and
    [run_volume_check]. *)
Definition ask_volume (i : interface) (method target : string) : module_caller unit := fun image user =>
  let* api := call (EntryTable image (symbol i)) in
  if negb (accepts i api) then Ret (1, user)
  else let* r := call (Invoke image (symbol i) method [target]) in Ret (if (r =? 0)%Z then 0 else 1, user)%Z.

Definition use_driver (format filename : string) (arguments : list string) : load Z :=
  worker_main (mkWorker (ufs_interface format) filename) arguments.

Definition detect_driver (format filename target : string) : load Z :=
  let i := ufs_probe_interface format in
  let* (r, _) := ifs_filesystem_module_call (Some format) (Some filename) (symbol i)
                   (ask_volume i "accepts_volume" target) tt in
  Ret r.

(** [argc == 2] and the option. *)
Definition asks_version (arguments : list string) : bool :=
  match arguments with [_; option] => String.eqb option "--version" | _ => false end.

(** [main] with a target: both modules may be asked before one is used. *)
Definition ufs_dispatch (arguments : list string) (target : string) : load Z :=
  let* second := detect_driver "ufs2" "UFS2.so" target in
  if (second =? 0)%Z then use_driver "ufs2" "UFS2.so" arguments
  else
    let* first := detect_driver "ufs1" "UFS1.so" target in
    if (first =? 0)%Z then use_driver "ufs1" "UFS1.so" arguments
    else
      call (FputsError (line "Neither trusted UFS1.so nor UFS2.so recognises the target; operation refused")) ;;; Ret 1%Z.

Definition ufs_main (arguments : list string) : load Z :=
  if asks_version arguments then use_driver "ufs2" "UFS2.so" arguments
  else
    match target_of arguments with
    | None => call (FputsError (line "Specify the UFS target device or image")) ;;; Ret 2%Z
    | Some target => ufs_dispatch arguments target
    end.

(** The test-media command of UFS. *)
Definition ufs_format_interface : interface :=
  mkInterface "infiltrator_filesystem_ufs_v1" 1 (table_with 2) "ufs2" 2 ["format_test_media"]
    "UFS2.so lacks the required Test Media formatter".
Definition ufs_check_interface : interface :=
  mkInterface "infiltrator_filesystem_ufs_volume_check_v1" 1 question_table "ufs2" 0 ["is_ufs2_little_endian"] "".

(** Without exactly one target the check refuses after it looked at the table. *)
Definition run_volume_check (arguments : list string) : module_caller unit := fun image user =>
  match arguments with
  | [_; _; target] => ask_volume ufs_check_interface "is_ufs2_little_endian" target image user
  | _ => let* _ := call (EntryTable image (symbol ufs_check_interface)) in Ret (1, user)%Z
  end.

Definition ufs_test_media_main (arguments : list string) : load Z :=
  if match nth_error arguments 1 with Some option => String.eqb option "--check-ufs2-le" | None => false end then
    let* (r, _) := ifs_filesystem_module_call (Some "ufs2") (Some "UFS2.so") (symbol ufs_check_interface)
                     (run_volume_check arguments) tt in
    Ret r
  else
    let* (r, _) := ifs_filesystem_module_call (Some "ufs2") (Some "UFS2.so") (symbol ufs_format_interface)
                     (execute ufs_format_interface "format_test_media") arguments in
    Ret r.

(** ** Amiga *)

Section Amiga.
  (** [LD_VERSION]. *)
  Variable version_text : string.

Definition ofs_main (arguments : list string) : load Z :=
  if asks_version arguments then call (Fputs (line version_text)) ;;; Ret 0%Z
  else if Nat.ltb (length arguments) 3 then
    call (FputsError (line "Usage: defragmenter-ofs-worker COMMAND DEVICE [OPTIONS]")) ;;; Ret 2%Z
  else ifs_filesystem_module_run "ofs" "OFS.so" arguments.

(** The value of the last [--journal] among the arguments from the fourth. *)
Fixpoint journal_of (found : option string) (arguments : list string) : option string :=
  match arguments with
  | name :: ((value :: _) as rest) => journal_of (if String.eqb name "--journal" then Some value else found) rest
  | _ => found
  end.

(** The first four bytes of the target; zeros when they cannot be read. *)
Definition read_signature (path : string) : load (list Z) :=
  let* opened := on_system (Open path file_flags) in
  match opened with
  | Err _ => Ret [0; 0; 0; 0]%Z
  | Ok fd =>
      let* bytes := call (ReadFd fd 4) in
      close fd ;;;
      Ret (match bytes with
           | Some bytes => if (strlen bytes =? 4)%Z then map code (list_ascii_of_string bytes) else [0; 0; 0; 0]%Z
           | None => [0; 0; 0; 0]%Z
           end)
  end.

Definition is_dos (signature : list Z) (accepted : Z -> bool) : bool :=
  match signature with
  | [d; o; s; variant] => (d =? code "D") && (o =? code "O") && (s =? code "S") && accepted variant
  | _ => false
  end%Z.

Definition is_ofs_signature (signature : list Z) : bool :=
  is_dos signature (fun v => (v <=? 6) && (Z.land v 1 =? 0))%Z.
Definition is_ffs_signature (signature : list Z) : bool :=
  is_dos signature (fun v => (v =? 1) || (v =? 3) || (v =? 5))%Z.

Definition affs_main (arguments : list string) : load Z :=
  if asks_version arguments then call (Fputs (line version_text)) ;;; Ret 0%Z
  else
  match arguments with
  | _ :: mode :: target :: options =>
      let recover := String.eqb mode "recover" in
      let* of_ofs := if recover then ifs_filesystem_journal_matches (journal_of None options) (Some "ofs") else Ret false in
      if of_ofs : bool then ifs_filesystem_module_run "ofs" "OFS.so" arguments
      else
        let* signature := read_signature target in
        if is_ofs_signature signature then ifs_filesystem_module_run "ofs" "OFS.so" arguments
        else if negb recover && negb (is_ffs_signature signature) then
          call (FputsError (line "No supported OFS/FFS filesystem signature")) ;;; Ret 1%Z
        else worker_main ffs_worker arguments
  | _ => call (FputsError (line "Usage: affs-worker MODE DEVICE [OPTIONS]")) ;;; Ret 2%Z
  end.
End Amiga.

(** ** What is run *)

#[local] Open Scope Z_scope.

(** The table of the trusted module [filename] has just been accepted, but for the
    calls [mid] made since. *)
Definition called (t : list (event loadE)) (i : interface) (filename : string) (image : Z) (mid : list (event loadE)) : Prop :=
  exists h api, t = (h ++ Event (EntryTable image (symbol i)) (Some api) :: mid)%list /\
    loaded h (format i) filename (symbol i) image /\ accepts i (Some api) = true.

(** The module [filename] answered zero when it was asked about the target. *)
Definition recognised (t : list (event loadE)) (i : interface) (filename method target : string) : Prop :=
  exists h image mid, t = (h ++ Event (Invoke image (symbol i) method [target]) 0 :: mid)%list /\ called h i filename image [].

Lemma recognised_more t t' i filename method target :
  t `prefix_of` t' -> recognised t i filename method target -> recognised t' i filename method target.
Proof.
  intros [k ->] (h & image & mid & -> & Hc). exists h, image, (mid ++ k)%list. split; [|done].
  by rewrite <- app_assoc.
Qed.

(** What a worker may do: load trusted modules, and call functions as [calls_ok]
    says. *)
Definition confined (calls_ok : list (event loadE) -> Z -> string -> string -> list string -> Prop) :
    call_pred (E := loadE) := fun t X e =>
  match e with
  | Dlopen path => exists name fd, pinned t name fd /\ path = fd_path fd
  | Invoke image sym method arguments => calls_ok t image sym method arguments
  | _ => True
  end.

Section Confined.
  Context (ok : list (event loadE) -> Z -> string -> string -> list string -> Prop).

Lemma confined_idle t X (e : loadE X) : idle X e -> confined ok t X e.
Proof. by destruct e. Qed.

Lemma confined_load t name fd : pinned t name fd -> confined ok t _ (Dlopen (fd_path fd)).
Proof. intros H. by exists name, fd. Qed.

(** A call of a module that may call what its caller may. *)
Lemma confined_call {U} format filename interface (caller : module_caller U) user t :
  (forall t' image, t `prefix_of` t' -> loaded t' format filename interface image ->
     wp (confined ok) any_end (caller image user) t') ->
  wp (confined ok) any_end (ifs_filesystem_module_call (Some format) (Some filename) interface caller user) t.
Proof. apply module_call_wp; [exact confined_idle|exact confined_load]. Qed.

Lemma confined_end {A} (p : load A) t : calls_in idle p -> wp (confined ok) any_end p t.
Proof. apply idle_wp. exact confined_idle. Qed.

Lemma confined_runs {A} (p : load A) t o pre X (e : loadE X) x post :
  wp (confined ok) any_end p [] -> runs p t o -> t = (pre ++ Event e x :: post)%list -> confined ok pre X e.
Proof. intros Hw Hr Ht. destruct (wp_runs _ _ _ _ _ _ Hw Hr) as [_ Hp]. by eapply Hp. Qed.
End Confined.

(** [execute] calls its function once, just after it accepted the table. *)
Lemma execute_wp ok i filename method image arguments t :
  loaded t (format i) filename (symbol i) image ->
  (forall t', t `prefix_of` t' -> called t' i filename image [] -> ok t' image (symbol i) method arguments) ->
  wp (confined ok) any_end (execute i method image arguments) t.
Proof.
  intros Hl Hok. split; [done|]. intros api. cbn [pbind]. destruct (accepts i api) eqn:Ha; cbn [negb]; [|split; [done|by intros ?]].
  split; [|done]. destruct api as [api|]; [|done]. apply Hok; [by apply prefix_app_r|by exists t, api].
Qed.

Definition only_run (w : worker) (arguments : list string) :=
  fun t image sym method args =>
    sym = symbol (its w) /\ method = "run"%string /\ args = arguments /\ called t (its w) (file w) image [].

Lemma worker_main_wp ok w arguments t :
  (forall t' image, t `prefix_of` t' -> called t' (its w) (file w) image [] -> ok t' image (symbol (its w)) "run"%string arguments) ->
  wp (confined ok) any_end (worker_main w arguments) t.
Proof.
  intros Hok. unfold worker_main. apply wp_bind. eapply wp_mono; [apply confined_call| |].
  - intros t' image Hpre Hl. eapply execute_wp; [exact Hl|]. intros t2 Ht2. apply Hok. by etransitivity.
  - done.
  - intros [[r u]|m] t' _; done.
Qed.

(** A worker of one module calls nothing but that module's [run], with its own
    arguments, and only after the trusted file of that module gave, through the
    symbol of its format, a table of the right version and size, of the format,
    with the capabilities and the functions; and everything it loads is trusted. *)
Theorem worker_confined w arguments t o pre X (e : loadE X) x post :
  runs (worker_main w arguments) t o -> t = (pre ++ Event e x :: post)%list -> confined (only_run w arguments) pre X e.
Proof. apply confined_runs. apply worker_main_wp. intros t' image _ Hc. by repeat split. Qed.

(** The workers belong to the registry: each loads the module of a registered
    format, and no two share a file or a symbol. *)
Theorem workers_registered :
  forallb (fun w => negb (is_null (backend_by_fstype (format (its w))))) one_module_workers = true /\
  NoDup (map file one_module_workers) /\ NoDup (map (fun w => symbol (its w)) one_module_workers).
Proof.
  split; [vm_compute; reflexivity|]. split; apply (bool_decide_unpack _); vm_compute; exact I.
Qed.

(** *** EXT *)

Definition ext_ok (metadata : bool) (arguments : list string) :=
  fun t image sym method args => exists format filename,
    In (format, filename) ext_formats /\ sym = symbol (ext_interface format) /\
    match target_of arguments with
    | None => method = (if metadata then "metadata" else "run")%string /\ args = arguments /\
        called t (ext_interface format) filename image []
    | Some path =>
        method = "probe"%string /\ args = [path] /\ called t (ext_interface format) filename image [] \/
        method = (if metadata then "metadata" else "run")%string /\ args = arguments /\
          called t (ext_interface format) filename image [Event (Invoke image sym "probe" [path]) 0]
    end.

Lemma ext_call_wp metadata f filename arguments t :
  In (f, filename) ext_formats ->
  wp (confined (ext_ok metadata arguments)) any_end (ext_call metadata f filename arguments) t.
Proof.
  intros Hin. unfold ext_call. apply confined_call. intros t' image _ Hl. unfold ext_invoke.
  split; [done|]. intros api. cbn [pbind].
  destruct (accepts (ext_interface f) api) eqn:Ha; cbn [negb]; [|split; [done|by intros ?]].
  destruct api as [api|]; [|done].
  assert (Hc : called (t' ++ [Event (EntryTable image (symbol (ext_interface f))) (Some api)]) (ext_interface f) filename image [])
    by (by exists t', api).
  destruct (target_of arguments) as [path|] eqn:Ht; cbn [pbind].
  - split; [exists f, filename; rewrite Ht; by split_and!; [| |left]|]. intros r. cbn [pbind].
    destruct (Z.eqb_spec r 0) as [->|]; cbn [negb]; [|done]. split; [|done].
    exists f, filename. rewrite Ht. split_and!; [done..|]. right. split_and!; [done..|].
    exists t', api. split; [|done]. by rewrite <- app_assoc.
  - split; [|done]. exists f, filename. rewrite Ht. by split_and!.
Qed.

(** An EXT engine is run only on a volume it recognised: with a target, the
    function of a module of EXT2, EXT3 or EXT4 that may change it is called just
    after that module's own read-only probe answered zero for the target, on the
    same image, which was trusted and whose table was accepted for that format. *)
Theorem ext_runs_recognised metadata arguments t o pre X (e : loadE X) x post :
  runs (ext_main metadata arguments) t o -> t = (pre ++ Event e x :: post)%list ->
  confined (ext_ok metadata arguments) pre X e.
Proof.
  apply confined_runs. unfold ext_main. destruct (target_of arguments) as [path|] eqn:Ht.
  - assert (H : forall formats t, (forall p, In p formats -> In p ext_formats) ->
      wp (confined (ext_ok metadata arguments)) any_end (ext_loop metadata arguments formats) t).
    { induction formats as [|[f filename] formats IH]; intros t' Hin; [split; [done|by intros ?]|].
      apply wp_bind. eapply wp_mono; [apply ext_call_wp; apply Hin; by left|done|].
      intros [[r matched]|m] t2 _; [|done]. destruct matched; [done|]. apply IH. intros p Hp. apply Hin. by right. }
    by apply H.
  - apply wp_bind. eapply wp_mono; [apply ext_call_wp; right; right; by left|done|]. by intros [[r m]|w] t2 _.
Qed.

(** *** UFS *)

Definition ufs_modules : list (string * string) := [("ufs2", "UFS2.so"); ("ufs1", "UFS1.so")]%string.

Definition ufs_ok (arguments : list string) :=
  fun t image sym method args => exists format filename, In (format, filename) ufs_modules /\
    (sym = symbol (ufs_probe_interface format) /\ method = "accepts_volume"%string /\
     (exists target, target_of arguments = Some target /\ args = [target]) /\
     called t (ufs_probe_interface format) filename image [] \/
     sym = symbol (ufs_interface format) /\ method = "run"%string /\ args = arguments /\
     called t (ufs_interface format) filename image [] /\
     ((exists name, arguments = [name; "--version"%string]) \/
      exists target, target_of arguments = Some target /\
        recognised t (ufs_probe_interface format) filename "accepts_volume" target)).

(** A module that is asked and answers zero has recognised the target. *)
Lemma ask_volume_wp ok i filename method target image t :
  loaded t (format i) filename (symbol i) image ->
  (forall t', called t' i filename image [] -> ok t' image (symbol i) method [target]) ->
  wp (confined ok) (answered (fun r t => fst r = 0 -> recognised t i filename method target)) (ask_volume i method target image tt) t.
Proof.
  intros Hl Hok. split; [done|]. intros api. cbn [pbind]. destruct (accepts i api) eqn:Ha; cbn [negb answered]; [|done].
  destruct api as [api|]; [|done].
  assert (Hc : called (t ++ [Event (EntryTable image (symbol i)) (Some api)]) i filename image []) by (by exists t, api).
  split; [by apply Hok|]. intros r. cbn. destruct (Z.eqb_spec r 0) as [->|]; [|done]. intros _.
  by exists (t ++ [Event (EntryTable image (symbol i)) (Some api)])%list, image, [].
Qed.

Lemma detect_wp arguments f filename target t :
  In (f, filename) ufs_modules -> target_of arguments = Some target ->
  wp (confined (ufs_ok arguments))
    (answered (fun r t => r = 0 -> recognised t (ufs_probe_interface f) filename "accepts_volume" target))
    (detect_driver f filename target) t.
Proof.
  intros Hin Ht. unfold detect_driver. apply wp_bind. eapply wp_mono.
  - apply (module_call_answers (confined (ufs_ok arguments)) (confined_idle _) (confined_load _)
      (fun r t => fst r = 0 -> recognised t (ufs_probe_interface f) filename "accepts_volume" target)); [done| |].
    + intros r t1 t2 Hpre H Hr. eapply recognised_more; [exact Hpre|auto].
    + intros t' image _ Hl. apply ask_volume_wp; [exact Hl|]. intros t2 Hc. exists f, filename. split; [done|]. left.
      split_and!; [done|done|by exists target|done].
  - done.
  - intros [[r u]|m] t' H; [exact H|done].
Qed.

Lemma driver_wp arguments f filename t :
  In (f, filename) ufs_modules ->
  ((exists name, arguments = [name; "--version"%string]) \/
   exists target, target_of arguments = Some target /\ recognised t (ufs_probe_interface f) filename "accepts_volume" target) ->
  wp (confined (ufs_ok arguments)) any_end (use_driver f filename arguments) t.
Proof.
  intros Hin Hr. apply worker_main_wp. intros t' image Hpre Hc. exists f, filename. split; [done|]. right.
  split_and!; try done. destruct Hr as [Hr|(target & Ht & Hr)]; [by left|right].
  exists target. split; [done|]. by eapply recognised_more.
Qed.

Lemma ufs_dispatch_wp arguments target :
  target_of arguments = Some target -> wp (confined (ufs_ok arguments)) any_end (ufs_dispatch arguments target) [].
Proof.
  intros Ht. apply wp_bind. eapply wp_mono; [by apply detect_wp; [left|]|done|].
  intros [r|m] t1 H1; [|done]. destruct (Z.eqb_spec r 0) as [->|].
  { apply driver_wp; [by left|]. right. exists target. split; [done|]. by apply H1. }
  apply wp_bind. eapply wp_mono; [by apply detect_wp; [right; left|]|done|]. intros [r2|m] t2 H2; [|done].
  destruct (Z.eqb_spec r2 0) as [->|]; [|apply confined_end; calls].
  apply driver_wp; [by right; left|]. right. exists target. split; [done|]. by apply H2.
Qed.

(** The UFS worker runs only the module that recognised the target: with a
    target, [run] of [UFS2.so] or [UFS1.so] is called after the same file, trusted
    and with an accepted table, answered its read-only probe with zero for that
    target; and nothing else is called. *)
Theorem ufs_runs_recognised arguments t o pre X (e : loadE X) x post :
  runs (ufs_main arguments) t o -> t = (pre ++ Event e x :: post)%list -> confined (ufs_ok arguments) pre X e.
Proof.
  apply confined_runs. unfold ufs_main. destruct (asks_version arguments) eqn:V.
  - apply driver_wp; [by left|left]. destruct arguments as [|name [|option [|]]]; try done.
    apply String.eqb_eq in V as ->. by exists name.
  - destruct (target_of arguments) as [target|] eqn:Ht; [by apply ufs_dispatch_wp|apply confined_end; calls].
Qed.

(** ** Instances *)

(** Every module is open as 5 and gives that table; its functions answer zero. *)
Definition loader_with (api : option module_api) (X : Type) (e : loadE X) (s : unit) : X * unit :=
  match e in loadE X return X * unit with
  | LSys e =>
      match e in sysE Y return Y * unit with
      | Openat _ name _ => (Ok (if String.eqb name "Filesystems" then 4 else 5), s)
      | e => demo_loader _ (LSys e) s
      end
  | EntryTable _ _ => (api, s)
  | e => demo_loader _ e s
  end.

Definition apfs_run := Effects.execute (loader_with (Some (mkApi 1 40 (Some "apfs") 3 ["run"; "fixture"])%string))
  (worker_main apfs_worker demo_arguments) tt.

Lemma worker_confined_witness :
  only_run apfs_worker demo_arguments (take 11 (snd apfs_run)) 5 "infiltrator_filesystem_apfs_v1" "run" demo_arguments.
Proof.
  apply (worker_confined apfs_worker demo_arguments (snd apfs_run) (fst apfs_run) (take 11 (snd apfs_run)) Z
    (Invoke 5 "infiltrator_filesystem_apfs_v1" "run" demo_arguments) 0 (drop 12 (snd apfs_run))).
  - exact (execute_runs _ _ tt).
  - vm_compute. reflexivity.
Defined.

Definition ext_run := Effects.execute (loader_with (Some (mkApi 1 56 (Some "ext2") 15 ["probe"; "run"; "metadata"; "fixture"])%string))
  (ext_main false demo_arguments) tt.

Lemma ext_runs_recognised_witness :
  ext_ok false demo_arguments (take 12 (snd ext_run)) 5 "infiltrator_filesystem_ext_v1" "run" demo_arguments.
Proof.
  apply (ext_runs_recognised false demo_arguments (snd ext_run) (fst ext_run) (take 12 (snd ext_run)) Z
    (Invoke 5 "infiltrator_filesystem_ext_v1" "run" demo_arguments) 0 (drop 13 (snd ext_run))).
  - exact (execute_runs _ _ tt).
  - vm_compute. reflexivity.
Defined.

Definition ufs_run := Effects.execute (loader_with (Some (mkApi 1 40 (Some "ufs2") 3 ["run"; "accepts_volume"])%string))
  (ufs_main demo_arguments) tt.

Lemma ufs_runs_recognised_witness :
  ufs_ok demo_arguments (take 25 (snd ufs_run)) 5 "infiltrator_filesystem_ufs_v1" "run" demo_arguments.
Proof.
  apply (ufs_runs_recognised demo_arguments (snd ufs_run) (fst ufs_run) (take 25 (snd ufs_run)) Z
    (Invoke 5 "infiltrator_filesystem_ufs_v1" "run" demo_arguments) 0 (drop 26 (snd ufs_run))).
  - exact (execute_runs _ _ tt).
  - vm_compute. reflexivity.
Defined.
