(* ===== verification/FatLoader.v ===== *)
(** The FAT worker, [native/fat_module_loader.c]: it finds the FAT modules in the
    trusted directory by itself, asks each that is installed about the target, and
    runs the first that recognises it.  The production build is modelled (the
    branches of [IFS_FAT_TESTING] are not in it). *)
From S2P Require Import Prelude Effects CString Sys ModuleHost ModuleLoaders.
#[local] Open Scope Z_scope.

Definition IFS_FAT_DEFRAG_ABI_VERSION : Z := 1.
(** [sizeof(IfsFatDefragV1)]: three words, padding and two pointers. *)
Definition sizeof_fat_defrag : Z := 32.
Definition fat_symbol : string := "infiltrator_filesystem_defrag_v1".

Definition fat_modules : list (string * Z) := [("FAT12.so", 12); ("FAT16.so", 16); ("FAT32.so", 32)]%string.

(** The test of a table; the third number of its head is the width of the FAT, which
    stands where other tables have their capabilities. *)
Definition fat_table_ok (width : Z) (api : option module_api) : bool :=
  match api with
  | None => false
  | Some api =>
      (abi_version api =? IFS_FAT_DEFRAG_ABI_VERSION) && (sizeof_fat_defrag <=? structure_bytes api) &&
      (capabilities api =? width) && has_method "probe" api && has_method "run" api
  end.

(** A descriptor that is open and trusted. *)
Definition opened_trusted (opened : result Z) (directory : bool) : load bool :=
  match opened with Ok fd => trusted fd directory | Err _ => Ret false end.

Definition close_opened (opened : result Z) : load unit :=
  match opened with Ok fd => close fd | Err _ => Ret tt end.

(** The end of a failure in the loop: what it printed, then the descriptors. *)
Definition fat_refuse (text : string) (fd directory : Z) : load Z :=
  call (FputsError (line text)) ;;; close fd ;;; close directory ;;; Ret 1.

Section Fat.
  (** [LD_VERSION]. *)
  Variable version_text : string.

(** A module that is loaded: [None] to go on with the next one. *)
Definition fat_use (arguments : list string) (target name : string) (width fd directory image : Z) : load (option Z) :=
  let* found := call (Dlsym image fat_symbol) in
  if negb found then call (Dlclose image) ;;; close fd ;;; Ret None
  else
    let* api := call (EntryTable image fat_symbol) in
    if negb (fat_table_ok width api) then
      call (FputsError (line (name ++ " does not provide the required FAT defrag ABI"))) ;;; call (Dlclose image) ;;;
      close fd ;;; close directory ;;; Ret (Some 1)
    else
      let* matched := call (Invoke image fat_symbol "probe" [target]) in
      if matched <? 0 then
        call (FputsError (line (name ++ " rejected its host ABI"))) ;;; call (Dlclose image) ;;;
        close fd ;;; close directory ;;; Ret (Some 1)
      else if matched =? 1 then
        close directory ;;;
        let* r := call (Invoke image fat_symbol "run" arguments) in
        Ret (Some (if r <? 0 then 1 else r))
      else call (Dlclose image) ;;; close fd ;;; Ret None.

Fixpoint fat_loop (arguments : list string) (target : string) (directory : Z) (modules : list (string * Z)) : load Z :=
  match modules with
  | [] =>
      close directory ;;;
      call (FputsError (line
        "No installed FAT defrag module matches the target; install or update the matching Filesystems module")) ;;;
      Ret 1
  | (name, width) :: modules =>
      let* opened := on_system (Openat directory name file_flags) in
      match opened with
      | Err ENOENT => fat_loop arguments target directory modules
      | Err _ =>
          call (FputsError (line ("FAT module is not trusted: " ++ name))) ;;; close directory ;;; Ret 1
      | Ok fd =>
          let* ok := trusted fd false in
          if negb ok then fat_refuse ("FAT module is not trusted: " ++ name) fd directory
          else if negb (fits (fd_path fd) 64) then close fd ;;; close directory ;;; Ret 1
          else
            let* image := call (Dlopen (fd_path fd)) in
            match image with
            | inr error => fat_refuse ("Cannot load " ++ name ++ ": " ++ error) fd directory
            | inl image =>
                let* r := fat_use arguments target name width fd directory image in
                match r with Some r => Ret r | None => fat_loop arguments target directory modules end
            end
      end
  end.

Definition fat_main (arguments : list string) : load Z :=
  if asks_version arguments then call (Fputs (line ("defragmenter-fat-worker " ++ version_text))) ;;; Ret 0
  else
    match target_of arguments with
    | None => call (FputsError (line "Usage: defragmenter-fat-worker COMMAND DEVICE [OPTIONS]")) ;;; Ret 1
    | Some target =>
        let* parent := on_system (Open "/System" directory_flags) in
        let* ok := opened_trusted parent true in
        match parent, ok with
        | Ok parent, true =>
            let* directory := on_system (Openat parent "Filesystems" directory_flags) in
            close parent ;;;
            let* ok := opened_trusted directory true in
            match directory, ok with
            | Ok directory, true => fat_loop arguments target directory fat_modules
            | _, _ =>
                call (FputsError (line "FAT module directory is missing or not trusted")) ;;;
                close_opened directory ;;; Ret 1
            end
        | _, _ => call (FputsError (line "FAT module parent is missing or not trusted")) ;;; close_opened parent ;;; Ret 1
        end
    end.

(** ** What is run *)

(** The module [name] was trusted and loaded, its table accepted for its width, and
    then [mid] happened. *)
Definition fat_called (t : list (event loadE)) (name : string) (width image : Z) (mid : list (event loadE)) : Prop :=
  exists h fd api, pinned h name fd /\ fat_table_ok width (Some api) = true /\
    t = (h ++ Event (Dlopen (fd_path fd)) (inl image) :: Event (Dlsym image fat_symbol) true ::
         Event (EntryTable image fat_symbol) (Some api) :: mid)%list.

Definition fat_ok (arguments : list string) :=
  fun t image sym method args => exists target name width,
    target_of arguments = Some target /\ In (name, width) fat_modules /\ sym = fat_symbol /\
    (method = "probe"%string /\ args = [target] /\ fat_called t name width image [] \/
     method = "run"%string /\ args = arguments /\
       exists directory x, fat_called t name width image
         [Event (Invoke image fat_symbol "probe" [target]) 1; Event (LSys (Close directory)) x]).

Ltac tidy := repeat (cbv zeta; match goal with
  | |- calls_in _ (call _) => split; [done|intros; exact I]
  | |- calls_in _ (close _) => split; [done|intros; exact I]
  | |- _ => calls_step end).

Definition fat_walked (directory : Z) : outcome (option Z) -> list (event loadE) -> Prop :=
  fun o t => match o with Returned None => walking t directory | _ => True end.

Section Use.
  Context (arguments : list string) (target name : string) (width fd directory image : Z) (t : list (event loadE)) (st : result stat).
  Context (Hin : In (name, width) fat_modules) (Htarget : target_of arguments = Some target) (Hw : walking t directory).

Definition fat_opened : list (event loadE) := [Event (LSys (Openat directory name file_flags)) (Ok fd); Event (LSys (Fstat fd)) st].

(** What only closes the module again leaves the walk where it was. *)
Lemma fat_tail_wp (p : load (option Z)) more :
  calls_in (tidy fd) p -> (forall c x, In (Event (LSys (Close c)) x) more -> c = fd) ->
  wp (confined (fat_ok arguments)) (fat_walked directory) p (t ++ fat_opened ++ more).
Proof.
  intros Hc Hm. unfold fat_opened. cbn [app].
  eapply wp_mono; [apply (probe_tail_wp (confined (fat_ok arguments)) (confined_idle _)); [exact Hw|exact Hc|]|done|].
  - intros c x [?|Hx]; [done|]. by eapply Hm.
  - by intros [[r|]|m] t' H.
Qed.

Lemma fat_stop_wp (p : load (option Z)) t' :
  calls_in idle p -> returns (fun r => r <> None) p ->
  wp (confined (fat_ok arguments)) (fat_walked directory) p t'.
Proof.
  intros Hc Hr. eapply wp_mono; [apply (wp_and _ _ _ _ _ _ (idle_wp (confined (fat_ok arguments)) (confined_idle _) _ _ Hc) (wp_returns _ _ _ Hr))| |].
  - by intros ? ? ? [].
  - by intros [[r|]|m] t2 [_ H].
Qed.

Lemma fat_use_wp :
  pinned (t ++ fat_opened) name fd ->
  wp (confined (fat_ok arguments)) (fat_walked directory)
    (fat_use arguments target name width fd directory image)
    (t ++ fat_opened ++ [Event (Dlopen (fd_path fd)) (inl image)]).
Proof.
  intros Hp. unfold fat_use. split; [done|]. intros found. cbn [pbind]. rewrite <- !app_assoc. cbn [app].
  destruct found; cbn [negb]; [|apply fat_tail_wp; [tidy|by intros c x [?|[?|[]]]]].
  split; [done|]. intros api. cbn [pbind]. rewrite <- !app_assoc. cbn [app].
  destruct (fat_table_ok width api) eqn:Ha; cbn [negb]; [|apply fat_stop_wp; [calls|done]].
  destruct api as [api|]; [|done].
  assert (Hc : forall mid, fat_called (t ++ fat_opened ++ Event (Dlopen (fd_path fd)) (inl image) :: Event (Dlsym image fat_symbol) true ::
      Event (EntryTable image fat_symbol) (Some api) :: mid)%list name width image mid).
  { intros mid. exists (t ++ fat_opened)%list, fd, api. split; [done|]. split; [done|]. by rewrite <- app_assoc. }
  split; [exists target, name, width; do 3 (split; [done|]); left; by split_and!|].
  intros matched. cbn [pbind]. rewrite <- !app_assoc. cbn [app].
  destruct (matched <? 0) eqn:Hneg; [apply fat_stop_wp; [calls|done]|].
  destruct (Z.eqb_spec matched 1) as [->|]; [|apply fat_tail_wp; [tidy|by intros c x [?|[?|[?|[?|[]]]]]]].
  split; [done|]. intros x. cbn [pbind]. rewrite <- !app_assoc. cbn [app]. split; [|done].
  exists target, name, width. do 3 (split; [done|]). right. split_and!; [done..|]. by exists directory, x.
Qed.
End Use.

Lemma fat_refuse_wp arguments text fd directory t :
  wp (confined (fat_ok arguments)) any_end (fat_refuse text fd directory) t.
Proof. apply confined_end. unfold fat_refuse. calls. Qed.

Lemma fat_loop_wp arguments target directory modules t :
  target_of arguments = Some target -> (forall p, In p modules -> In p fat_modules) -> walking t directory ->
  wp (confined (fat_ok arguments)) any_end (fat_loop arguments target directory modules) t.
Proof.
  intros Htarget. revert t. induction modules as [|[name width] modules IH]; intros t Hin Hw; cbn [fat_loop]; [apply confined_end; calls|].
  assert (Hm : In (name, width) fat_modules) by (apply Hin; by left).
  assert (Hs : has_char "/" name = false) by (destruct Hm as [[= <- <-]|[[= <- <-]|[[= <- <-]|[]]]]; done).
  split; [done|]. intros [fd|e]; cbn [pbind].
  2:{ destruct e; try (apply confined_end; calls; done). apply IH; [intros p Hp; apply Hin; by right|].
      apply walking_app; [done|]. by intros c x [?|[]]. }
  split; [done|]. intros st. cbn [pbind]. rewrite <- app_assoc. cbn [app].
  destruct st as [st|e]; [|apply fat_refuse_wp].
  destruct (trusted_status false st) eqn:Ht; cbn [negb]; [|apply fat_refuse_wp].
  destruct (negb (fits (fd_path fd) 64)); [apply confined_end; calls|].
  assert (Hp : pinned (t ++ fat_opened name fd directory (Ok st)) name fd).
  { destruct Hw as (pre & head & mid & -> & Hd & Ho). exists pre, head, directory, mid, [], st.
    rewrite <- !app_assoc. split_and!; try done. by left. }
  split; [by exists name, fd|]. intros [image|error]; cbn [pbind]; [|apply fat_refuse_wp].
  rewrite <- app_assoc. apply wp_bind. eapply wp_mono; [by apply fat_use_wp|done|].
  intros [[r|]|m] t' H; [done| |done]. apply IH; [|exact H]. intros p Hp'. apply Hin. by right.
Qed.

Ltac fat_ends := cbn [opened_trusted close_opened pbind]; apply confined_end; calls.

(** C32: the FAT worker runs only a module that recognised the target: [run] is called
    just after the same image answered 1 to its own read-only probe of the target,
    and the image is that of [FAT12.so], [FAT16.so] or [FAT32.so], opened without
    following links in the trusted directory, itself trusted, with a table accepted
    for the width of that file; nothing else is called and nothing else is loaded. *)
Theorem fat_runs_recognised arguments t o pre X (e : loadE X) x post :
  runs (fat_main arguments) t o -> t = (pre ++ Event e x :: post)%list ->
  confined (fat_ok arguments) pre X e.
Proof.
  apply confined_runs. unfold fat_main. destruct (asks_version arguments); [fat_ends|].
  destruct (target_of arguments) as [target|] eqn:Htarget; [|fat_ends].
  split; [done|]. intros [parent|err]; [|fat_ends]. cbn [pbind].
  split; [done|]. intros sr. cbn [pbind].
  destruct sr as [sr|err]; [|fat_ends]. destruct (trusted_status true sr) eqn:Hr; [|fat_ends].
  split; [done|]. intros [directory|err]; cbn [pbind]; [|fat_ends].
  split; [done|]. intros closing. cbn [pbind].
  split; [done|]. intros sd. cbn [pbind].
  destruct sd as [sd|err]; [|fat_ends]. destruct (trusted_status true sd) eqn:Hd; [|fat_ends].
  apply fat_loop_wp; [done..|]. exists [], (([] ++ [Event (LSys (Open "/System" directory_flags)) (Ok parent)]) ++
    [Event (LSys (Fstat parent)) (Ok sr)] ++ [Event (LSys (Openat parent "Filesystems" directory_flags)) (Ok directory)] ++
    [Event (LSys (Close parent)) closing] ++ [Event (LSys (Fstat directory)) (Ok sd)])%list, [].
  rewrite <- !app_assoc. split; [done|]. split; [|by intros c y []]. by exists parent, sr, closing, sd.
Qed.
End Fat.

(** ** Instance *)

(** [FAT12.so] is installed and recognises every target; its engine succeeds. *)
Definition fat_loader (X : Type) (e : loadE X) (s : unit) : X * unit :=
  match e in loadE X return X * unit with
  | Invoke _ _ method _ => ((if String.eqb method "probe" then 1 else 0)%Z, s)
  | e => loader_with (Some (mkApi 1 32 None 12 ["probe"; "run"]%string)) _ e s
  end.

Definition fat_run := Effects.execute fat_loader (fat_main "1.0" demo_arguments) tt.

Lemma fat_runs_recognised_witness :
  fst fat_run = Returned 0 /\ fat_ok demo_arguments (take 12 (snd fat_run)) 5 fat_symbol "run" demo_arguments.
Proof.
  split; [vm_compute; reflexivity|].
  apply (fat_runs_recognised "1.0" demo_arguments (snd fat_run) (fst fat_run) (take 12 (snd fat_run)) Z
    (Invoke 5 fat_symbol "run" demo_arguments) 0 (drop 13 (snd fat_run))).
  - exact (execute_runs _ _ tt).
  - vm_compute. reflexivity.
Defined.
