(* ===== verification/TestMediaFat.v ===== *)
(** The FAT fixtures of [src/defragger/test_media/test_media_fat_module.c]: the
    corpus is created and verified through the file operations of the installed FAT
    module, whose engine is not in the repository.  A call of the engine, and of the
    host's target service, is a call of the environment; the callbacks it makes into
    the host happen inside it. *)
From stdpp Require Import gmap fin_maps strings.
From S2P Require Import Prelude Effects CString Sys TestMediaCore TestMediaRaw ModuleHost.

(** ** Tables *)

(** [IfsFatfsModuleV4] with its [v3], and [IfsExfatModuleV5] with its [compat_v4]. *)
Definition fatfs_v4 : Type := module_api * option module_api.
Definition exfat_v5 : Type := module_api * option fatfs_v4.

(** [sizeof] of the three tables. *)
Definition sizeof_fatfs_v3 : Z := 112.
Definition sizeof_fatfs_v4 : Z := 72.
Definition sizeof_exfat_v5 : Z := 64.

(** [IfsFatfsEntry] *)
Record fatfs_entry := mkFatfsEntry { fe_name : string; fe_bytes : Z; fe_attributes : Z }.

Inductive fatE : Type -> Type :=
(** [ifs_filesystem_module_call]: whether the trusted module was loaded and its
    caller is run. *)
| ModuleCall (format filename symbol : string) : fatE bool
(** [entry] *)
| EntryV4 : fatE (option fatfs_v4)
| EntryV5 : fatE (option exfat_v5)
(** The services of the host: the size of the target when it is opened. *)
| OpenTarget (path : string) (writable : bool) : fatE (option Z)
| CloseTarget : fatE unit
| StopRequested : fatE bool
| WriteTarget (at_ : Z) (data : list Z) : fatE Z
(** The operations of the engine on the volume of the given size. *)
| VFormat (bytes unit : Z) : fatE Z
| VMount (bytes clock : Z) : fatE Z
| VUnmount : fatE Z
| VCreate (name : string) : fatE Z
| VWrite (name : string) (at_ : Z) (data : list Z) : fatE Z
| VRead (name : string) (at_ count : Z) : fatE (Z * list Z)
| VStat (name : string) : fatE (Z * fatfs_entry)
| VDirectoryEntry (path : string) (index : nat) : fatE (Z * fatfs_entry).

Definition fat := prog fatE.

(** [timestamp_io], 2000-01-01, and [timestamp_verify_io]. *)
Definition timestamp_io : Z := Z.lor (Z.lor (Z.shiftl 20 25) (Z.shiftl 1 21)) (Z.shiftl 1 16).
Definition timestamp_verify_io : Z := 0.

Definition identified (api : module_api) (version size : Z) (format : string) : bool :=
  (abi_version api =? version) && (size <=? structure_bytes api) && bool_decide (format_id api = Some format).
Definition capable (api : module_api) (required : Z) : bool := Z.land (capabilities api) required =? required.

(** The end of [interface]: the two tables that are used. *)
Definition fatfs_interface (spec : LdtmFilesystemSpec) (api : option fatfs_v4) : option (module_api * module_api) :=
  match api with
  | Some (v4, Some v3) =>
      if identified v4 4 sizeof_fatfs_v4 (key spec) && capable v4 128 && has_method "format" v4 &&
         identified v3 3 sizeof_fatfs_v3 (key spec) && capable v3 6 &&
         forallb (fun name => has_method name v3) ["mount"; "unmount"; "create"; "write"]%string
      then Some (v4, v3) else None
  | _ => None
  end.

Definition exfat_compat (api : option exfat_v5) : option fatfs_v4 :=
  match api with
  | Some (v5, Some v4) =>
      if identified v5 5 sizeof_exfat_v5 "exfat" && has_method "read64" v5 && has_method "stat64" v5 && capable v5 9
      then Some v4 else None
  | _ => None
  end.

Definition is_exfat (spec : LdtmFilesystemSpec) : bool := bool_decide (creator spec = LDTM_CREATOR_EXFAT).

Definition interface (spec : LdtmFilesystemSpec) : fat (option (module_api * module_api)) :=
  if is_exfat spec then let* v5 := call EntryV5 in Ret (fatfs_interface spec (exfat_compat v5))
  else let* v4 := call EntryV4 in Ret (fatfs_interface spec v4).

Definition available (spec : LdtmFilesystemSpec) : fat Z :=
  let* api := interface spec in Ret (match api with Some _ => 0 | None => -1 end).

(** ** Creation *)

(** The size of an allocation unit. *)
Definition fixture_unit (spec : LdtmFilesystemSpec) : Z :=
  if bool_decide (creator spec = LDTM_CREATOR_FAT32) then 16384 else 65536.

(** [n] blocks of zeros at both ends of the target; whether all were written. *)
Fixpoint clear_ends (n : nat) (bytes at_ : Z) : fat bool :=
  match n with
  | O => Ret true
  | S n =>
      let* stop := call StopRequested in
      if stop : bool then Ret false
      else
        let* head := call (WriteTarget at_ raw_zero_block) in
        if negb (head =? 0) then Ret false
        else
          let* tail := call (WriteTarget (bytes -64 LDTM_MIB +64 at_) raw_zero_block) in
          if negb (tail =? 0) then Ret false else clear_ends n bytes (at_ + RAW_BUFFER)
  end.

Fixpoint create_files (files : list nat) : fat Z :=
  match files with
  | [] => Ret 0
  | file :: files =>
      let* result := call (VCreate (ldtm_raw_name file)) in
      if negb (result =? 0) then Ret result else create_files files
  end.

(** The bytes from [at_] to [limit] of a file; one unit of fuel for each write. *)
Fixpoint write_bytes (fuel : nat) (file : nat) (at_ limit : Z) : fat Z :=
  match fuel with
  | O => Ret (-1)
  | S fuel =>
      if limit <=? at_ then Ret 0
      else
        let n := Z.min (limit - at_) RAW_BUFFER in
        let* stop := call StopRequested in
        if stop : bool then Ret (-1)
        else
          let* result := call (VWrite (ldtm_raw_name file) (u32 at_) (ldtm_raw_payload n file at_)) in
          if negb (result =? 0) then Ret result else write_bytes fuel file (at_ + n) limit
  end.

(** Where the first half of a file ends. *)
Definition fixture_split (unit bytes : Z) : Z :=
  Z.min (raw_first_half (raw_units bytes unit) *64 unit) bytes.

Definition write_half (spec : LdtmFilesystemSpec) (unit : Z) (second : bool) (file : nat) : fat Z :=
  let bytes := ldtm_raw_file_bytes (Some spec) file in
  if UINT32_MAX <? bytes then Ret (-1)
  else
    let split := fixture_split unit bytes in
    let at_ := if second then split else 0 in
    let limit := if second then bytes else split in
    write_bytes (Z.to_nat ((limit - at_) / RAW_BUFFER + 2)) file at_ limit.

Fixpoint write_halves (spec : LdtmFilesystemSpec) (unit : Z) (steps : list (bool * nat)) : fat Z :=
  match steps with
  | [] => Ret 0
  | (second, file) :: steps =>
      let* result := write_half spec unit second file in
      if negb (result =? 0) then Ret result else write_halves spec unit steps
  end.

(** What is done on a mounted volume; the phases are the steps of the plan. *)
Definition fill_volume (spec : LdtmFilesystemSpec) : fat Z :=
  let* result := create_files (List.seq 0 LDTM_RAW_FILES) in
  let* result := if negb (result =? 0) then Ret result else write_halves spec (fixture_unit spec) raw_plan_steps in
  let* unmounted := call VUnmount in
  Ret (if result =? 0 then unmounted else result).

(** The target has the size of the filesystem. *)
Definition sized (spec : LdtmFilesystemSpec) (bytes : Z) : bool := bytes =? size_mib spec *64 LDTM_MIB.

Definition create_on (spec : LdtmFilesystemSpec) (bytes : Z) : fat Z :=
  if negb (sized spec bytes) then Ret (-1)
  else
    let* stop := call StopRequested in
    if stop : bool then Ret (-1)
    else
      let* cleared := clear_ends 16 bytes 0 in
      if negb cleared then Ret (-1)
      else
        let* formatted := call (VFormat bytes (fixture_unit spec)) in
        if negb (formatted =? 0) then Ret (-1)
        else
          let* mounted := call (VMount bytes timestamp_io) in
          if negb (mounted =? 0) then Ret (-1) else fill_volume spec.

Definition create_fixture (spec : LdtmFilesystemSpec) (path : string) : fat Z :=
  let* api := interface spec in
  match api with
  | None => Ret (-1)
  | Some _ =>
      let* opened := call (OpenTarget path true) in
      match opened with
      | None => Ret (-1)
      | Some bytes => let* result := create_on spec bytes in call CloseTarget ;;; Ret result
      end
  end.

(** ** Verification *)

Definition is_directory (entry : fatfs_entry) : bool := negb (Z.land (fe_attributes entry) 16 =? 0).

(** The first [n] entries from [index] on; the files that were seen, or [None]. *)
Fixpoint list_files (spec : LdtmFilesystemSpec) (n index : nat) (seen : list nat) : fat (option (list nat)) :=
  let* (status, entry) := call (VDirectoryEntry "/" index) in
  match n with
  | O => Ret (if status =? 1 then Some seen else None)
  | S n =>
      if negb (status =? 0) then Ret None
      else
        let file := ldtm_raw_name_index (fe_name entry) in
        if (file <? 0) || (Z.of_nat LDTM_RAW_FILES <=? file) || bool_decide (Z.to_nat file ∈ seen) ||
           is_directory entry || negb (fe_bytes entry =? ldtm_raw_file_bytes (Some spec) (Z.to_nat file))
        then Ret None
        else list_files spec n (S index) (Z.to_nat file :: seen)
  end.

Fixpoint compare_bytes (fuel : nat) (file : nat) (offset length : Z) : fat bool :=
  match fuel with
  | O => Ret false
  | S fuel =>
      if length <=? offset then Ret true
      else
        let count := Z.min (length - offset) RAW_BUFFER in
        let* stop := call StopRequested in
        if stop : bool then Ret false
        else
          let* (status, actual) := call (VRead (ldtm_raw_name file) (u32 offset) count) in
          if negb (status =? 0) then Ret false
          else if negb (bool_decide (actual = ldtm_raw_payload count file offset)) then Ret false
          else compare_bytes fuel file (offset + count) length
  end.

Fixpoint compare_files (spec : LdtmFilesystemSpec) (seen files : list nat) : fat bool :=
  match files with
  | [] => Ret true
  | file :: files =>
      if negb (bool_decide (file ∈ seen)) then Ret false
      else
        let length := ldtm_raw_file_bytes (Some spec) file in
        if UINT32_MAX <? length then Ret false
        else
          let* (status, entry) := call (VStat (ldtm_raw_name file)) in
          if negb (status =? 0) || negb (fe_bytes entry =? length) || is_directory entry then Ret false
          else
            let* same := compare_bytes (Z.to_nat (length / RAW_BUFFER + 2)) file 0 length in
            if same : bool then compare_files spec seen files else Ret false
  end.

(** What is done on a mounted volume. *)
Definition check_volume (spec : LdtmFilesystemSpec) : fat Z :=
  let* seen := list_files spec LDTM_RAW_FILES 0 [] in
  let* same := match seen with
               | None => Ret false
               | Some seen => compare_files spec seen (List.seq 0 LDTM_RAW_FILES)
               end in
  let* unmounted := call VUnmount in
  Ret (if same && (unmounted =? 0) then 0 else -1).

Definition verify_on (spec : LdtmFilesystemSpec) (bytes : Z) : fat Z :=
  if negb (sized spec bytes) then Ret (-1)
  else
    let* mounted := call (VMount bytes timestamp_verify_io) in
    if negb (mounted =? 0) then Ret (-1) else check_volume spec.

Definition readable (v3 : module_api) : bool :=
  capable v3 33 && forallb (fun name => has_method name v3) ["read"; "stat"; "directory_entry"]%string.

Definition verify_fixture (spec : LdtmFilesystemSpec) (path : string) : fat Z :=
  let* api := interface spec in
  match api with
  | None => Ret (-1)
  | Some (_, v3) =>
      if negb (readable v3) then Ret (-1)
      else
        let* opened := call (OpenTarget path false) in
        match opened with
        | None => Ret (-1)
        | Some bytes => let* result := verify_on spec bytes in call CloseTarget ;;; Ret result
        end
  end.

(** ** Entry points *)

(** The format, the file and the symbol of the module. *)
Definition module_of (spec : LdtmFilesystemSpec) : option (string * string * string) :=
  match creator spec with
  | LDTM_CREATOR_EXFAT => Some ("exfat", "exFAT.so", "infiltrator_filesystem_module_v5")
  | LDTM_CREATOR_FAT12 => Some (key spec, "FAT12.so", "infiltrator_filesystem_module_v4")
  | LDTM_CREATOR_FAT16 => Some (key spec, "FAT16.so", "infiltrator_filesystem_module_v4")
  | LDTM_CREATOR_FAT32 => Some (key spec, "FAT32.so", "infiltrator_filesystem_module_v4")
  | _ => None
  end%string.

(** The host answers 1 itself when it refuses the module. *)
Definition call_module (spec : LdtmFilesystemSpec) (caller : fat Z) : fat Z :=
  match module_of spec with
  | None => Ret (-1)
  | Some (format, filename, symbol) =>
      let* loaded := call (ModuleCall format filename symbol) in
      if loaded : bool then caller else Ret 1
  end.

Definition ldtm_fat_module_available (spec : option LdtmFilesystemSpec) : fat bool :=
  match spec with
  | None => Ret false
  | Some spec => let* r := call_module spec (available spec) in Ret (r =? 0)
  end.

Definition ldtm_fat_module_create (spec : option LdtmFilesystemSpec) (path : option string) : fat Z :=
  match spec, path with
  | Some spec, Some path => call_module spec (create_fixture spec path)
  | _, _ => Ret (-1)
  end.

Definition ldtm_raw_fat (spec : option LdtmFilesystemSpec) (path : option string) (create : bool) : fat Z :=
  match spec, path with
  | Some s, Some p =>
      if create then ldtm_fat_module_create spec path else call_module s (verify_fixture s p)
  | _, _ => Ret (-1)
  end.

Definition ldtm_raw_exfat (spec : option LdtmFilesystemSpec) (path : option string) (create : bool) : fat Z :=
  match spec with
  | Some s => if is_exfat s then ldtm_raw_fat spec path create else Ret (-1)
  | None => Ret (-1)
  end.

(** ** The volume

    What a volume holds is a map from the names of its root directory to the bytes
    of the files. *)

Abbreviation volume := (gmap string (list Z)).

(** What an accepted operation does to it. *)
Definition volume_effect {X} (e : fatE X) : X -> volume -> volume :=
  match e in fatE X return X -> volume -> volume with
  | VFormat _ _ => fun r m => if r =? 0 then ∅ else m
  | VCreate name => fun r m => if r =? 0 then <[name := []]> m else m
  | VWrite name at_ data => fun r m =>
      if r =? 0
      then alter (fun c => take (Z.to_nat at_) c ++ data ++ drop (Z.to_nat at_ + length data) c) name m
      else m
  | _ => fun _ m => m
  end.

Fixpoint volume_after (t : list (event fatE)) (m : volume) : volume :=
  match t with
  | [] => m
  | Event e x :: t => volume_after t (volume_effect e x m)
  end.

(** The first [n] bytes of a file of the corpus. *)
Definition corpus_prefix (file : nat) (n : Z) : list Z := map (raw_byte file) (seqZ 0 n).

(** The first [count] files, each up to [upto]. *)
Definition partial_corpus (count : nat) (upto : nat -> Z) : volume :=
  list_to_map (map (fun file => (ldtm_raw_name file, corpus_prefix file (upto file))) (List.seq 0 count)).

Definition corpus (spec : LdtmFilesystemSpec) : volume :=
  partial_corpus LDTM_RAW_FILES (ldtm_raw_file_bytes (Some spec)).

(** *** Lemmas: the corpus *)

Lemma volume_after_app t1 t2 m : volume_after (t1 ++ t2) m = volume_after t2 (volume_after t1 m).
Proof. revert m. induction t1 as [|[X e x] t1 IH]; intros m; simpl; auto. Qed.

Lemma raw_names_nodup : NoDup (map ldtm_raw_name (List.seq 0 LDTM_RAW_FILES)).
Proof. apply (bool_decide_unpack _). vm_compute. exact I. Qed.

Lemma raw_name_inj i j : (i < LDTM_RAW_FILES)%nat -> (j < LDTM_RAW_FILES)%nat -> ldtm_raw_name i = ldtm_raw_name j -> i = j.
Proof.
  intros Hi Hj E. apply (NoDup_lookup _ i j (ldtm_raw_name i) raw_names_nodup).
  - rewrite list_lookup_fmap, lookup_seq_lt by done. done.
  - rewrite list_lookup_fmap, lookup_seq_lt by done. simpl. by rewrite E.
Qed.

Lemma partial_lookup count upto i :
  (count <= LDTM_RAW_FILES)%nat -> (i < count)%nat ->
  partial_corpus count upto !! ldtm_raw_name i = Some (corpus_prefix i (upto i)).
Proof.
  intros Hc Hi. apply elem_of_list_to_map.
  - rewrite <- list_fmap_compose. eapply sublist_NoDup; [apply raw_names_nodup|].
    apply (fmap_sublist ldtm_raw_name). replace LDTM_RAW_FILES with (count + (LDTM_RAW_FILES - count))%nat by lia.
    rewrite seq_app. by apply sublist_inserts_r.
  - apply list_elem_of_fmap. exists i. split; [done|]. apply elem_of_seq. lia.
Qed.

Lemma partial_lookup_inv count upto name c :
  partial_corpus count upto !! name = Some c ->
  exists i, (i < count)%nat /\ name = ldtm_raw_name i /\ c = corpus_prefix i (upto i).
Proof.
  intros H%elem_of_list_to_map_2. apply list_elem_of_fmap in H as (i & [= -> ->] & Hi).
  apply elem_of_seq in Hi. exists i. split; [lia|done].
Qed.

(** Two maps of files of the corpus are told apart file by file. *)
Lemma partial_ext count upto (m : volume) :
  (count <= LDTM_RAW_FILES)%nat ->
  (forall i, (i < count)%nat -> m !! ldtm_raw_name i = Some (corpus_prefix i (upto i))) ->
  (forall name c, m !! name = Some c -> exists i, (i < count)%nat /\ name = ldtm_raw_name i) ->
  m = partial_corpus count upto.
Proof.
  intros Hc H1 H2. apply map_eq. intros name. destruct (m !! name) as [c|] eqn:E.
  - destruct (H2 _ _ E) as (i & Hi & ->). rewrite H1 in E by done. by rewrite partial_lookup, <- E.
  - destruct (partial_corpus count upto !! name) as [c|] eqn:E2; [|done].
    apply partial_lookup_inv in E2 as (i & Hi & -> & _). by rewrite H1 in E.
Qed.

(** *** Lemmas: creation *)

Lemma partial_cong count f g :
  (forall i, (i < count)%nat -> f i = g i) -> partial_corpus count f = partial_corpus count g.
Proof.
  intros H. unfold partial_corpus. f_equal. apply map_ext_in. intros i [_ Hi]%in_seq. by rewrite H by lia.
Qed.

Definition moved (upto : nat -> Z) (file : nat) (limit : Z) : nat -> Z :=
  fun j => if decide (j = file) then limit else upto j.

Lemma partial_alter f file limit upto :
  (file < LDTM_RAW_FILES)%nat -> f (corpus_prefix file (upto file)) = corpus_prefix file limit ->
  alter f (ldtm_raw_name file) (partial_corpus LDTM_RAW_FILES upto) = partial_corpus LDTM_RAW_FILES (moved upto file limit).
Proof.
  intros Hf Hs. apply partial_ext; [done| |].
  - intros i Hi. unfold moved. destruct (decide (i = file)) as [->|Hn].
    + rewrite lookup_alter_eq, partial_lookup by done. simpl. by rewrite Hs.
    + rewrite lookup_alter_ne, partial_lookup; [done|done|done|]. intros E. by apply raw_name_inj in E.
  - intros name c H. destruct (decide (name = ldtm_raw_name file)) as [->|Hn]; [by exists file|].
    rewrite lookup_alter_ne in H by done. apply partial_lookup_inv in H as (i & Hi & -> & _). by exists i.
Qed.

Lemma partial_insert count upto :
  (count < LDTM_RAW_FILES)%nat -> upto count = 0 ->
  <[ldtm_raw_name count := []]> (partial_corpus count upto) = partial_corpus (S count) upto.
Proof.
  intros Hc H0. apply partial_ext; [lia| |].
  - intros i Hi. destruct (decide (i = count)) as [->|Hn].
    + by rewrite lookup_insert_eq, H0.
    + rewrite lookup_insert_ne, partial_lookup; [done|lia|lia|]. intros E. apply raw_name_inj in E; [done|lia..].
  - intros name c H. destruct (decide (name = ldtm_raw_name count)) as [->|Hn]; [exists count; split; [lia|done]|].
    rewrite lookup_insert_ne in H by done. apply partial_lookup_inv in H as (i & Hi & -> & _). exists i. split; [lia|done].
Qed.

Lemma create_files_spec upto n count t :
  (forall i, upto i = 0) -> (count + n <= LDTM_RAW_FILES)%nat ->
  runs (create_files (List.seq count n)) t (Returned 0) ->
  volume_after t (partial_corpus count upto) = partial_corpus (count + n) upto.
Proof.
  intros H0. revert count t. induction n as [|n IH]; intros count t Hc H.
  { apply runs_inv in H as [-> _]. by rewrite Nat.add_0_r. }
  apply runs_inv in H as (r & t' & -> & H). cbn [pbind] in H.
  destruct (Z.eqb_spec r 0) as [->|Hr]; cbn [negb] in H; [|by apply runs_inv in H as [_ [= <-]]].
  cbn [volume_after volume_effect Z.eqb]. rewrite partial_insert by (done || lia).
  apply IH in H; [|lia]. by rewrite H, Nat.add_succ_r.
Qed.

(** Bytes added at the end. *)
Lemma corpus_prefix_grows file at_ n :
  0 <= at_ -> 0 <= n -> at_ + n <= 62914560 ->
  take (Z.to_nat (u32 at_)) (corpus_prefix file at_) ++ ldtm_raw_payload n file at_ ++
  drop (Z.to_nat (u32 at_) + length (ldtm_raw_payload n file at_)) (corpus_prefix file at_) = corpus_prefix file (at_ + n).
Proof.
  intros Ha Hn Hl. assert (u32 at_ = at_) as -> by (unfold u32; rewrite Z.mod_small; lia).
  rewrite raw_payload_spec by lia. unfold corpus_prefix.
  rewrite take_ge, drop_ge, app_nil_r, <- map_app; [|rewrite !length_map, !length_seqZ; lia..].
  f_equal. rewrite <- (Z.add_0_l at_) at 2. symmetry. apply seqZ_app; lia.
Qed.

Lemma write_bytes_spec fuel file at_ limit upto t :
  (file < LDTM_RAW_FILES)%nat -> 0 <= at_ <= limit -> limit <= 62914560 -> upto file = at_ ->
  runs (write_bytes fuel file at_ limit) t (Returned 0) ->
  volume_after t (partial_corpus LDTM_RAW_FILES upto) = partial_corpus LDTM_RAW_FILES (moved upto file limit).
Proof.
  revert at_ upto t. induction fuel as [|fuel IH]; intros at_ upto t Hf Ha Hl Hu H; cbn [write_bytes] in H;
    [by apply runs_inv in H as [_ ?]|].
  destruct (Z.leb_spec limit at_) as [Hle|Hlt].
  { apply runs_inv in H as [-> _]. apply partial_cong. intros i _. unfold moved. destruct (decide (i = file)); [subst; lia|done]. }
  cbv zeta in H. apply runs_inv in H as (stop & t1 & -> & H). cbn [pbind] in H.
  destruct stop; [by apply runs_inv in H as [_ ?]|].
  apply runs_inv in H as (r & t2 & -> & H). cbn [pbind] in H.
  destruct (Z.eqb_spec r 0) as [->|Hr]; cbn [negb] in H; [|by apply runs_inv in H as [_ [= <-]]].
  set (n := Z.min (limit - at_) RAW_BUFFER) in *.
  assert (0 < n <= limit - at_) by (unfold n, RAW_BUFFER; lia).
  cbn [volume_after volume_effect Z.eqb].
  rewrite (partial_alter _ file (at_ + n)) by (done || rewrite Hu; apply corpus_prefix_grows; lia).
  erewrite (IH (at_ + n)); [|done|lia|done| |exact H].
  - apply partial_cong. intros i _. unfold moved. by destruct (decide (i = file)).
  - unfold moved. by rewrite decide_True.
Qed.

(** The bounds of one half of a file. *)
Definition half_from (spec : LdtmFilesystemSpec) (unit : Z) (second : bool) (file : nat) : Z :=
  if second then fixture_split unit (ldtm_raw_file_bytes (Some spec) file) else 0.
Definition half_to (spec : LdtmFilesystemSpec) (unit : Z) (second : bool) (file : nat) : Z :=
  if second then ldtm_raw_file_bytes (Some spec) file else fixture_split unit (ldtm_raw_file_bytes (Some spec) file).

Lemma half_bounds spec unit second file :
  0 <= half_from spec unit second file <= half_to spec unit second file /\ half_to spec unit second file <= 62914560.
Proof.
  pose proof (raw_file_bytes_range (Some spec) file) as Hb. unfold half_from, half_to, fixture_split.
  pose proof (u64_range (raw_first_half (raw_units (ldtm_raw_file_bytes (Some spec) file) unit) * unit)) as [? ?].
  destruct second; lia.
Qed.

Lemma write_half_spec spec unit second file upto t :
  (file < LDTM_RAW_FILES)%nat -> upto file = half_from spec unit second file ->
  runs (write_half spec unit second file) t (Returned 0) ->
  volume_after t (partial_corpus LDTM_RAW_FILES upto) =
  partial_corpus LDTM_RAW_FILES (moved upto file (half_to spec unit second file)).
Proof.
  intros Hf Hu H. unfold write_half in H. pose proof (half_bounds spec unit second file) as [Hb Hl].
  destruct (UINT32_MAX <? _) in H; [by apply runs_inv in H as [_ ?]|].
  eapply write_bytes_spec; [done|exact Hb|exact Hl|done|exact H].
Qed.

(** One phase over distinct files. *)
Lemma write_phase_spec spec unit second files steps upto t :
  NoDup files -> (forall i, i ∈ files -> (i < LDTM_RAW_FILES)%nat /\ upto i = half_from spec unit second i) ->
  runs (write_halves spec unit (map (pair second) files ++ steps)) t (Returned 0) ->
  exists t1 t2, t = t1 ++ t2 /\ runs (write_halves spec unit steps) t2 (Returned 0) /\
    volume_after t1 (partial_corpus LDTM_RAW_FILES upto) =
    partial_corpus LDTM_RAW_FILES (fun i => if decide (i ∈ files) then half_to spec unit second i else upto i).
Proof.
  revert upto t. induction files as [|file files IH]; intros upto t Hn Hin H.
  { exists [], t. split; [done|]. split; [exact H|]. by apply partial_cong. }
  inversion Hn as [|? ? Hnot Hn']; subst; clear Hn; rename Hn' into Hn.
  cbn [map app write_halves] in H. apply pbind_runs in H as [(w & _ & ?)|(r & t1 & t2 & -> & H1 & H)]; [done|].
  destruct (Z.eqb_spec r 0) as [->|Hr]; cbn [negb] in H; [|by apply runs_inv in H as [_ [= <-]]].
  destruct (Hin file) as [Hf Hu]; [left|]. apply (write_half_spec _ _ _ _ upto) in H1; [|done..].
  apply (IH (moved upto file (half_to spec unit second file))) in H as (t3 & t4 & -> & H3 & H4); [|done|].
  - exists (t1 ++ t3), t4. rewrite app_assoc. split; [done|]. split; [done|]. rewrite volume_after_app, H1, H4.
    apply partial_cong. intros i _. unfold moved. clear -Hnot.
    destruct (decide (i ∈ files)) as [Hi|Hi], (decide (i = file)) as [E|Hne], (decide (i ∈ file :: files)) as [Hc|Hc];
      rewrite ?elem_of_cons in Hc; subst; intuition congruence.
  - intros i Hi. destruct (Hin i) as [? ?]; [by right|]. split; [done|]. unfold moved.
    by destruct (decide (i = file)) as [->|].
Qed.

(** Every file has its first half and none has more. *)
Definition first_halves (spec : LdtmFilesystemSpec) : volume :=
  partial_corpus LDTM_RAW_FILES (fun file => fixture_split (fixture_unit spec) (ldtm_raw_file_bytes (Some spec) file)).

Lemma write_halves_spec spec t :
  runs (write_halves spec (fixture_unit spec) raw_plan_steps) t (Returned 0) ->
  exists t1 t2, t = t1 ++ t2 /\ volume_after t1 (partial_corpus LDTM_RAW_FILES (fun _ => 0)) = first_halves spec /\
    volume_after t2 (first_halves spec) = corpus spec.
Proof.
  intros H. unfold raw_plan_steps in H.
  assert (Hn : NoDup (List.seq 0 LDTM_RAW_FILES)) by apply NoDup_seq.
  assert (Hin : forall i, i ∈ List.seq 0 LDTM_RAW_FILES -> (i < LDTM_RAW_FILES)%nat) by (intros i Hi%elem_of_seq; lia).
  apply (write_phase_spec _ _ _ _ _ (fun _ => 0)) in H as (t1 & t2 & -> & H & H1); [|done|by auto].
  exists t1, t2. split; [done|]. rewrite <- (app_nil_r (map (pair true) _)) in H. split.
  - rewrite H1. apply partial_cong. intros i Hi. by rewrite decide_True by (apply elem_of_seq; lia).
  - eapply (write_phase_spec _ _ _ _ _ _) in H as (t3 & t4 & -> & H & H2); [|done|].
    + apply runs_inv in H as [-> _]. unfold first_halves. rewrite app_nil_r, H2. apply partial_cong. intros i Hi.
      by rewrite decide_True by (apply elem_of_seq; lia).
    + intros i Hi. split; [by apply Hin|done].
Qed.

Lemma fill_volume_spec spec t :
  runs (fill_volume spec) t (Returned 0) ->
  exists t1 t2, t = t1 ++ t2 /\ volume_after t1 ∅ = first_halves spec /\ volume_after t2 (first_halves spec) = corpus spec.
Proof.
  intros H. unfold fill_volume in H.
  apply pbind_runs in H as [(w & _ & ?)|(r & t1 & t2 & -> & H1 & H)]; [done|].
  apply pbind_runs in H as [(w & _ & ?)|(r2 & t3 & t4 & -> & H2 & H)]; [done|].
  apply runs_inv in H as (unmounted & t5 & -> & H). apply runs_inv in H as [-> [= Hr]].
  destruct (Z.eqb_spec r2 0) as [->|Hr2]; [|done].
  destruct (Z.eqb_spec r 0) as [->|Hr0]; cbn [negb] in H2; [|apply runs_inv in H2 as [_ [= ?]]; done].
  apply (create_files_spec (fun _ => 0)) in H1; [|done|done].
  apply write_halves_spec in H2 as (h1 & h2 & -> & Hh1 & Hh2).
  change (partial_corpus 0 (fun _ => 0)) with (∅ : volume) in H1.
  exists (t1 ++ h1), (h2 ++ [Event VUnmount unmounted]). rewrite !volume_after_app, H1, <- !app_assoc. by split_and!.
Qed.

Lemma create_on_spec spec bytes t m :
  runs (create_on spec bytes) t (Returned 0) ->
  sized spec bytes = true /\
  exists t1 t2, t = t1 ++ t2 /\ volume_after t1 m = first_halves spec /\ volume_after t2 (first_halves spec) = corpus spec.
Proof.
  intros H. unfold create_on in H. destruct (sized spec bytes); cbn [negb] in H; [|by apply runs_inv in H as [_ ?]].
  split; [done|]. apply runs_inv in H as (stop & t1 & -> & H). cbn [pbind] in H.
  destruct stop; [by apply runs_inv in H as [_ ?]|].
  apply pbind_runs in H as [(w & _ & ?)|(cleared & t2 & t3 & -> & _ & H)]; [done|].
  destruct cleared; cbn [negb] in H; [|by apply runs_inv in H as [_ ?]].
  apply runs_inv in H as (formatted & t4 & -> & H). cbn [pbind] in H.
  destruct (Z.eqb_spec formatted 0) as [->|]; cbn [negb] in H; [|by apply runs_inv in H as [_ ?]].
  apply runs_inv in H as (mounted & t5 & -> & H). cbn [pbind] in H.
  destruct (Z.eqb_spec mounted 0) as [->|]; cbn [negb] in H; [|by apply runs_inv in H as [_ ?]].
  apply fill_volume_spec in H as (h1 & h2 & -> & H1 & H2).
  exists (Event StopRequested false :: t2 ++ Event (VFormat bytes (fixture_unit spec)) 0 :: Event (VMount bytes timestamp_io) 0 :: h1), h2.
  split; [by rewrite <- !app_comm_cons, <- app_assoc|]. split; [|done].
  cbn [volume_after volume_effect]. rewrite volume_after_app. exact H1.
Qed.

(** The module is asked for its table, then the target is opened. *)
Lemma call_module_runs spec caller t :
  runs (call_module spec caller) t (Returned 0) ->
  exists format filename symbol t', module_of spec = Some (format, filename, symbol) /\
    t = Event (ModuleCall format filename symbol) true :: t' /\ runs caller t' (Returned 0).
Proof.
  unfold call_module. destruct (module_of spec) as [[[format filename] symbol]|]; intros H; [|by apply runs_inv in H as [_ ?]].
  apply runs_inv in H as (loaded & t' & -> & H). cbn [pbind] in H. destruct loaded; [|by apply runs_inv in H as [_ ?]].
  by exists format, filename, symbol, t'.
Qed.

Lemma interface_runs {A} spec (k : option (module_api * module_api) -> fat A) t o :
  runs (pbind (interface spec) k) t o ->
  exists api ev t', t = ev :: t' /\ runs (k api) t' o /\ (forall m, volume_after [ev] m = m).
Proof.
  unfold interface. destruct (is_exfat spec); intros H; cbn [pbind call] in H; apply runs_inv in H as (x & t' & -> & H);
    eexists _, _, t'; (split; [reflexivity|]); (split; [exact H|done]).
Qed.

Lemma raw_fat_create_runs spec path t :
  runs (ldtm_raw_fat (Some spec) (Some path) true) t (Returned 0) ->
  exists pre bytes body, t = pre ++ Event (OpenTarget path true) (Some bytes) :: body ++ [Event CloseTarget tt] /\
    length pre = 2%nat /\ runs (create_on spec bytes) body (Returned 0).
Proof.
  intros H. apply call_module_runs in H as (format & filename & symbol & t' & _ & -> & H).
  apply interface_runs in H as (api & ev & t2 & -> & H & _).
  destruct api as [api|]; [|by apply runs_inv in H as [_ ?]].
  apply runs_inv in H as (opened & t3 & -> & H). cbn [pbind] in H.
  destruct opened as [bytes|]; [|by apply runs_inv in H as [_ ?]].
  apply pbind_runs in H as [(w & _ & ?)|(r & t4 & t5 & -> & H4 & H)]; [done|].
  apply runs_inv in H as ([] & t6 & -> & H). apply runs_inv in H as [-> [= <-]].
  exists [Event (ModuleCall format filename symbol) true; ev], bytes, t4. by repeat split.
Qed.

(** *** Lemmas: verification *)

(** The [count] bytes of a content from [at_] on. *)
Definition slice (at_ count : Z) (c : list Z) : list Z := take (Z.to_nat count) (drop (Z.to_nat at_) c).

Definition entry_describes (entry : fatfs_entry) (c : list Z) : Prop :=
  fe_bytes entry = Z.of_nat (length c) /\ is_directory entry = false.

(** The answers of an engine that reads the volume [m], whose root directory lists
    its files in the order of [listing]. *)
Definition engine_reads (m : volume) (listing : list string) {X} (e : fatE X) : X -> Prop :=
  match e in fatE X return X -> Prop with
  | VStat name => fun x =>
      match m !! name with Some c => fst x = 0 /\ entry_describes (snd x) c | None => fst x <> 0 end
  | VRead name at_ count => fun x =>
      match m !! name with
      | Some c => at_ + count <= Z.of_nat (length c) -> x = (0, slice at_ count c)
      | None => fst x <> 0
      end
  | VDirectoryEntry _ index => fun x =>
      match listing !! index with
      | Some name => fst x = 0 /\ fe_name (snd x) = name /\ entry_describes (snd x) (default [] (m !! name))
      | None => fst x = 1
      end
  | _ => fun _ => True
  end.

(** The rest of the answers, when nothing goes wrong. *)
Definition serves (spec : LdtmFilesystemSpec) {X} (e : fatE X) : X -> Prop :=
  match e in fatE X return X -> Prop with
  | ModuleCall _ _ _ => fun x => x = true
  | EntryV4 => fun x => exists v4 v3, fatfs_interface spec x = Some (v4, v3) /\ readable v3 = true
  | EntryV5 => fun x => exists v4 v3, fatfs_interface spec (exfat_compat x) = Some (v4, v3) /\ readable v3 = true
  | OpenTarget _ _ => fun x => exists bytes, x = Some bytes /\ sized spec bytes = true
  | StopRequested => fun x => x = false
  | VMount _ _ | VUnmount => fun x => x = 0
  | _ => fun _ => True
  end.

Definition all_events (P : forall X, fatE X -> X -> Prop) (t : list (event fatE)) : Prop :=
  Forall (fun ev => match ev with Event e x => P _ e x end) t.

Lemma all_events_cons (P : forall X, fatE X -> X -> Prop) X (e : fatE X) x t :
  all_events P (Event e x :: t) -> P X e x /\ all_events P t.
Proof. intros H. by inversion H. Qed.

Lemma all_events_app P t1 t2 : all_events P (t1 ++ t2) -> all_events P t1 /\ all_events P t2.
Proof. apply Forall_app. Qed.

Lemma corpus_slice file at_ count n :
  0 <= at_ -> 0 <= count -> at_ + count <= n <= 62914560 ->
  slice at_ count (corpus_prefix file n) = ldtm_raw_payload count file at_.
Proof.
  intros Ha Hc Hn. rewrite raw_payload_spec by lia. unfold slice, corpus_prefix.
  replace (seqZ 0 n) with (seqZ 0 at_ ++ seqZ at_ count ++ seqZ (at_ + count) (n - (at_ + count))).
  - rewrite !map_app, drop_app_length', take_app_length'; [done|rewrite length_map, length_seqZ; lia..].
  - rewrite <- seqZ_app, <- (Z.add_0_l at_) at 1 by lia. rewrite <- seqZ_app by lia. f_equal. lia.
Qed.

Lemma length_corpus_prefix file n : 0 <= n -> Z.of_nat (length (corpus_prefix file n)) = n.
Proof. intros H. unfold corpus_prefix. rewrite length_map, length_seqZ. lia. Qed.

Lemma corpus_prefix_app file at_ n :
  0 <= at_ -> 0 <= n -> at_ + n <= 62914560 ->
  corpus_prefix file (at_ + n) = corpus_prefix file at_ ++ ldtm_raw_payload n file at_.
Proof.
  intros Ha Hn Hl. rewrite raw_payload_spec by lia. unfold corpus_prefix. rewrite <- map_app. f_equal.
  rewrite <- (Z.add_0_l at_) at 2. apply seqZ_app; lia.
Qed.

Section Reading.
  Context (spec : LdtmFilesystemSpec) (m : volume) (listing : list string).
  Context (Hlisting : listing ≡ₚ elements (dom m)).

  #[local] Abbreviation honest := (all_events (@engine_reads m listing)).

Lemma listed name : name ∈ listing <-> exists c, m !! name = Some c.
Proof. rewrite Hlisting, elem_of_elements, elem_of_dom. done. Qed.

Lemma listing_nodup : NoDup listing.
Proof. rewrite Hlisting. apply NoDup_elements. Qed.

(** The files seen so far are the listing so far. *)
Definition listing_seen (index : nat) (seen : list nat) : Prop :=
  take index listing = map ldtm_raw_name (rev seen) /\ length seen = index /\
  Forall (fun file => (file < LDTM_RAW_FILES)%nat) seen.

Lemma listing_seen_next index seen file :
  listing_seen index seen -> listing !! index = Some (ldtm_raw_name file) -> (file < LDTM_RAW_FILES)%nat ->
  listing_seen (S index) (file :: seen).
Proof.
  intros (Ht & Hl & Hs) Hi Hf. split; [|split; [simpl; by rewrite Hl|by constructor]].
  rewrite (take_S_r _ _ _ Hi), Ht. simpl. by rewrite map_app.
Qed.

Lemma list_files_sound n index seen t seen' :
  listing_seen index seen -> honest t -> runs (list_files spec n index seen) t (Returned (Some seen')) ->
  listing_seen (index + n) seen' /\ length listing = (index + n)%nat.
Proof.
  revert index seen t. induction n as [|n IH]; intros index seen t Hs Ht H; cbn [list_files] in H;
    apply runs_inv in H as ([status entry] & t' & -> & H); cbn [pbind] in H;
    apply all_events_cons in Ht as [Ha Ht]; cbn [engine_reads fst snd] in Ha.
  - destruct (Z.eqb_spec status 1) as [->|]; apply runs_inv in H as [_ [= <-]]. rewrite Nat.add_0_r. split; [done|].
    destruct (listing !! index) as [name|] eqn:E; [by destruct Ha|]. apply lookup_ge_None in E.
    destruct Hs as (Htake & Hlen & _). apply (f_equal length) in Htake.
    rewrite length_take, length_map, length_rev in Htake. lia.
  - destruct (Z.eqb_spec status 0) as [->|]; cbn [negb] in H; [|by apply runs_inv in H as [_ ?]].
    set (file := ldtm_raw_name_index (fe_name entry)) in *.
    destruct (_ || _) eqn:Hg in H; [by apply runs_inv in H as [_ ?]|]. breflect.
    destruct (listing !! index) as [name|] eqn:E; [|done]. destruct Ha as (_ & <- & _).
    destruct (raw_name_index_from_sound _ _ _ _ (eq_refl file)) as [Hf Hname]; [lia|].
    rewrite <- Nat.add_succ_comm. eapply (IH (S index)); [|exact Ht|exact H].
    apply listing_seen_next; [done| |lia]. by rewrite E, Hname.
Qed.

Lemma compare_bytes_sound fuel file offset size c t :
  m !! ldtm_raw_name file = Some c -> Z.of_nat (length c) = size -> 0 <= offset <= size -> size <= 62914560 ->
  take (Z.to_nat offset) c = corpus_prefix file offset -> honest t ->
  runs (compare_bytes fuel file offset size) t (Returned true) -> c = corpus_prefix file size.
Proof.
  intros Hm Hc. revert offset t. induction fuel as [|fuel IH]; intros offset t Ho Hsize Htake Ht H; cbn [compare_bytes] in H;
    [by apply runs_inv in H as [_ ?]|].
  destruct (Z.leb_spec size offset) as [Hle|Hlt].
  { assert (offset = size) as -> by lia. rewrite <- Htake. symmetry. apply take_ge. lia. }
  cbv zeta in H. apply runs_inv in H as (stop & t1 & -> & H). cbn [pbind] in H.
  destruct stop; [by apply runs_inv in H as [_ ?]|]. apply all_events_cons in Ht as [_ Ht].
  apply runs_inv in H as ([status actual] & t2 & -> & H). cbn [pbind] in H.
  apply all_events_cons in Ht as [Ha Ht]. cbn [engine_reads] in Ha. rewrite Hm in Ha.
  assert (u32 offset = offset) as Hu by (unfold u32; rewrite Z.mod_small; lia). rewrite Hu in Ha.
  set (n := Z.min (size - offset) RAW_BUFFER) in *.
  assert (0 < n <= size - offset) by (unfold n, RAW_BUFFER; lia).
  specialize (Ha ltac:(lia)). injection Ha as -> ->. cbn [Z.eqb negb] in H.
  destruct (bool_decide _) eqn:E in H; cbn [negb] in H; [|by apply runs_inv in H as [_ ?]].
  apply bool_decide_eq_true in E. eapply (IH (offset + n)); [lia|done| |exact Ht|exact H].
  rewrite Z2Nat.inj_add, <- take_take_drop, Htake, corpus_prefix_app by lia. f_equal. exact E.
Qed.

Lemma compare_files_sound seen files t :
  honest t -> runs (compare_files spec seen files) t (Returned true) ->
  forall file, file ∈ files -> m !! ldtm_raw_name file = Some (corpus_prefix file (ldtm_raw_file_bytes (Some spec) file)).
Proof.
  revert t. induction files as [|f files IH]; intros t Ht H file Hin; [by apply not_elem_of_nil in Hin|].
  cbn [compare_files] in H. destruct (negb (bool_decide _)) in H; [by apply runs_inv in H as [_ ?]|].
  destruct (UINT32_MAX <? _) in H; [by apply runs_inv in H as [_ ?]|].
  apply runs_inv in H as ([status entry] & t1 & -> & H). cbn [pbind] in H.
  apply all_events_cons in Ht as [Ha Ht]. cbn [engine_reads fst snd] in Ha.
  destruct (_ || _) eqn:Hg in H; [by apply runs_inv in H as [_ ?]|]. breflect.
  apply pbind_runs in H as [(w & _ & ?)|(same & t2 & t3 & -> & Hsame & H)]; [done|].
  apply all_events_app in Ht as [Ht2 Ht3]. destruct same; [|by apply runs_inv in H as [_ ?]].
  apply elem_of_cons in Hin as [->|Hin]; [|by eapply IH].
  destruct (m !! ldtm_raw_name f) as [c|] eqn:Hm; [|done]. destruct Ha as (_ & Hb & _).
  pose proof (raw_file_bytes_range (Some spec) f). f_equal.
  eapply (compare_bytes_sound _ f 0 (ldtm_raw_file_bytes (Some spec) f)); [exact Hm|lia|lia|lia|done|exact Ht2|exact Hsame].
Qed.

Lemma check_volume_sound t : honest t -> runs (check_volume spec) t (Returned 0) -> m = corpus spec.
Proof.
  intros Ht H. unfold check_volume in H.
  apply pbind_runs in H as [(w & _ & ?)|(seen & t1 & t2 & -> & H1 & H)]; [done|].
  apply all_events_app in Ht as [Ht1 Ht].
  apply pbind_runs in H as [(w & _ & ?)|(same & t3 & t4 & -> & H2 & H)]; [done|].
  apply all_events_app in Ht as [Ht3 Ht].
  apply runs_inv in H as (unmounted & t5 & -> & H). apply runs_inv in H as [-> [= Hr]].
  destruct same; [|done]. destruct seen as [seen|]; [|by apply runs_inv in H2 as [_ ?]].
  apply list_files_sound in H1 as [(Htake & Hlen & Hs) Hsize]; [|by repeat split|done].
  pose proof (compare_files_sound _ _ _ Ht3 H2) as Hall.
  apply partial_ext; [done| |].
  - intros i Hi. apply Hall. apply elem_of_seq. lia.
  - intros name c Hn. assert (Hin : name ∈ listing) by (apply listed; by exists c).
    rewrite <- (take_ge listing (0 + LDTM_RAW_FILES)), Htake in Hin by lia.
    apply list_elem_of_fmap in Hin as (i & -> & Hi). exists i. split; [|done].
    rewrite Forall_forall in Hs. apply Hs. apply in_rev. by apply list_elem_of_In.
Qed.
End Reading.

(** A volume that holds the corpus passes. *)
Section Serving.
  Context (spec : LdtmFilesystemSpec) (listing : list string).
  Context (Hlisting : listing ≡ₚ elements (dom (corpus spec))).

  #[local] Abbreviation good := (all_events (fun X e x => @engine_reads (corpus spec) listing X e x /\ @serves spec X e x)).

Lemma raw_name_index_name file : (file < LDTM_RAW_FILES)%nat -> ldtm_raw_name_index (ldtm_raw_name file) = Z.of_nat file.
Proof. intros Hf. unfold LDTM_RAW_FILES in Hf. do 16 (destruct file as [|file]; [vm_compute; done|]). lia. Qed.

Lemma corpus_listing : listing ≡ₚ map ldtm_raw_name (List.seq 0 LDTM_RAW_FILES).
Proof.
  apply NoDup_Permutation; [by eapply listing_nodup|apply raw_names_nodup|]. intros name.
  rewrite (listed _ _ Hlisting). split.
  - intros (c & (i & Hi & -> & _)%partial_lookup_inv). apply list_elem_of_fmap. exists i. split; [done|]. apply elem_of_seq. lia.
  - intros (i & -> & Hi)%list_elem_of_fmap. apply elem_of_seq in Hi. eexists. apply partial_lookup; lia.
Qed.

Lemma corpus_lookup file :
  (file < LDTM_RAW_FILES)%nat ->
  corpus spec !! ldtm_raw_name file = Some (corpus_prefix file (ldtm_raw_file_bytes (Some spec) file)).
Proof. intros H. by apply partial_lookup. Qed.

Lemma list_files_complete n index seen t o :
  listing_seen listing index seen -> (index + n = LDTM_RAW_FILES)%nat -> good t ->
  runs (list_files spec n index seen) t o -> exists seen', o = Returned (Some seen') /\ listing_seen listing LDTM_RAW_FILES seen'.
Proof.
  pose proof (Permutation_length corpus_listing) as Hlen. rewrite length_map, length_seq in Hlen.
  revert index seen t. induction n as [|n IH]; intros index seen t Hs Hn Ht H; cbn [list_files] in H;
    apply runs_inv in H as ([status entry] & t' & -> & H); cbn [pbind] in H;
    apply all_events_cons in Ht as [[Ha _] Ht]; cbn [engine_reads fst snd] in Ha.
  - rewrite lookup_ge_None_2 in Ha by lia. subst status. apply runs_inv in H as [_ ->].
    exists seen. rewrite <- Hn, Nat.add_0_r. done.
  - destruct (lookup_lt_is_Some_2 listing index) as [name Hname]; [lia|]. rewrite Hname in Ha.
    destruct Ha as (-> & He & Hb & Hd). cbn [Z.eqb negb] in H.
    assert (Hin : name ∈ listing) by (by eapply list_elem_of_lookup_2).
    rewrite corpus_listing in Hin. apply list_elem_of_fmap in Hin as (file & -> & Hf). apply elem_of_seq in Hf.
    rewrite He, raw_name_index_name, Nat2Z.id, Hb, Hd, corpus_lookup in H by lia. cbn [from_option] in H. unfold id in H.
    rewrite length_corpus_prefix, Z.eqb_refl in H by apply raw_file_bytes_range.
    assert (Hnot : file ∉ seen).
    { intros Hin. destruct Hs as (Htake & Hl & _).
      assert (Hin' : ldtm_raw_name file ∈ take index listing).
      { rewrite Htake. apply list_elem_of_fmap. exists file. split; [done|]. apply list_elem_of_In. rewrite <- in_rev. by apply list_elem_of_In. }
      apply list_elem_of_lookup_1 in Hin' as [j Hj]. apply lookup_take_Some in Hj as [Hj Hlt].
      pose proof (NoDup_lookup _ _ _ _ (listing_nodup _ _ Hlisting) Hj Hname). lia. }
    rewrite (bool_decide_eq_false_2 _ Hnot) in H.
    rewrite (proj2 (Z.ltb_ge _ _)), (proj2 (Z.leb_gt _ _)) in H by lia. cbn [orb negb] in H.
    eapply (IH (S index)); [|lia|exact Ht|exact H]. apply listing_seen_next; [done|done|lia].
Qed.

Lemma compare_bytes_complete fuel file offset t o :
  let size := ldtm_raw_file_bytes (Some spec) file in
  (file < LDTM_RAW_FILES)%nat -> 0 <= offset <= size -> size - offset <= RAW_BUFFER * (Z.of_nat fuel - 1) -> good t ->
  runs (compare_bytes fuel file offset size) t o -> o = Returned true.
Proof.
  intros size Hf. pose proof (raw_file_bytes_range (Some spec) file) as Hsize. fold size in Hsize.
  revert offset t. induction fuel as [|fuel IH]; intros offset t Ho Hfuel Ht H; cbn [compare_bytes] in H;
    [unfold RAW_BUFFER in *; lia|].
  destruct (Z.leb_spec size offset) as [Hle|Hlt]; [by apply runs_inv in H as [_ ->]|].
  cbv zeta in H. apply runs_inv in H as (stop & t1 & -> & H). cbn [pbind] in H.
  apply all_events_cons in Ht as [[_ Hs] Ht]. cbn [serves] in Hs. subst stop.
  apply runs_inv in H as ([status actual] & t2 & -> & H). cbn [pbind] in H.
  apply all_events_cons in Ht as [[Ha _] Ht]. cbn [engine_reads] in Ha. rewrite corpus_lookup in Ha by done.
  assert (u32 offset = offset) as Hu by (unfold u32; rewrite Z.mod_small; lia). rewrite Hu in Ha.
  set (n := Z.min (size - offset) RAW_BUFFER) in *. fold size in Ha.
  assert (0 < n <= size - offset) by (unfold n, RAW_BUFFER; lia).
  rewrite length_corpus_prefix, corpus_slice in Ha by lia. specialize (Ha ltac:(lia)). injection Ha as -> ->.
  rewrite bool_decide_eq_true_2 in H by done. cbn [Z.eqb negb] in H.
  eapply IH; [| |exact Ht|exact H]; unfold n, RAW_BUFFER in *; lia.
Qed.

Lemma compare_files_complete seen files t o :
  (forall file, file ∈ files -> (file < LDTM_RAW_FILES)%nat /\ file ∈ seen) -> good t ->
  runs (compare_files spec seen files) t o -> o = Returned true.
Proof.
  revert t. induction files as [|f files IH]; intros t Hin Ht H; [by apply runs_inv in H as [_ ->]|].
  destruct (Hin f) as [Hf Hseen]; [left|]. cbn [compare_files] in H. rewrite bool_decide_eq_true_2 in H by done. cbn [negb] in H.
  pose proof (raw_file_bytes_range (Some spec) f) as Hsize. rewrite (proj2 (Z.ltb_ge _ _)) in H by lia.
  apply runs_inv in H as ([status entry] & t1 & -> & H). cbn [pbind] in H.
  apply all_events_cons in Ht as [[Ha _] Ht]. cbn [engine_reads fst snd] in Ha. rewrite corpus_lookup in Ha by done.
  destruct Ha as (-> & Hb & Hd). rewrite length_corpus_prefix in Hb by lia. rewrite Hb, Hd, (Z.eqb_refl (ldtm_raw_file_bytes _ _)) in H. cbn [Z.eqb negb orb] in H.
  apply pbind_runs in H as [(w & Hw & ->)|(same & t2 & t3 & -> & Hsame & H)].
  - apply compare_bytes_complete in Hw; [done|done|lia|rewrite Z.sub_0_r; apply raw_fuel_enough; lia|done].
  - apply all_events_app in Ht as [Ht2 Ht3].
    apply compare_bytes_complete in Hsame as [= ->]; [|done|lia|rewrite Z.sub_0_r; apply raw_fuel_enough; lia|done].
    eapply IH; [|exact Ht3|exact H]. intros file Hfile. apply Hin. by right.
Qed.

Lemma check_volume_complete t o : good t -> runs (check_volume spec) t o -> o = Returned 0.
Proof.
  intros Ht H. unfold check_volume in H.
  assert (H0 : listing_seen listing 0 []) by (by repeat split).
  apply pbind_runs in H as [(w & Hw & ->)|(seen & t1 & t2 & -> & H1 & H)].
  { apply list_files_complete in Hw as (? & ? & _); done. }
  apply all_events_app in Ht as [Ht1 Ht].
  apply list_files_complete in H1 as (seen' & [= ->] & (Htake & Hl & Hs)); [|done..].
  assert (Hall : forall file, file ∈ List.seq 0 LDTM_RAW_FILES -> (file < LDTM_RAW_FILES)%nat /\ file ∈ seen').
  { intros file Hf%elem_of_seq. split; [lia|]. pose proof (Permutation_length corpus_listing) as Hlen.
    rewrite length_map, length_seq in Hlen. rewrite take_ge in Htake by lia.
    assert (Hin : ldtm_raw_name file ∈ listing).
    { rewrite corpus_listing. apply list_elem_of_fmap. exists file. split; [done|]. apply elem_of_seq. lia. }
    rewrite Htake in Hin. apply list_elem_of_fmap in Hin as (g & Hg & Hin).
    apply list_elem_of_In, in_rev, list_elem_of_In in Hin. rewrite Forall_forall in Hs.
    apply raw_name_inj in Hg as ->; [done|lia|]. apply Hs. by apply list_elem_of_In. }
  apply pbind_runs in H as [(w & Hw & ->)|(same & t3 & t4 & -> & H2 & H)].
  { apply compare_files_complete in Hw; done. }
  apply all_events_app in Ht as [Ht3 Ht]. apply compare_files_complete in H2 as [= ->]; [|done..].
  apply runs_inv in H as (unmounted & t5 & -> & H). apply all_events_cons in Ht as [[_ Hu] _]. cbn [serves] in Hu. subst unmounted.
  by apply runs_inv in H as [_ ->].
Qed.
End Serving.

(** *** Lemmas: a volume that takes every write *)

(** What the engine and the host answer when they accept everything. *)
Definition accepted (spec : LdtmFilesystemSpec) {X} (e : fatE X) : X -> Prop :=
  match e in fatE X return X -> Prop with
  | WriteTarget _ _ | VFormat _ _ | VCreate _ | VWrite _ _ _ => fun x => x = 0
  | e => serves spec e
  end.

(** A program that ends in [a] whenever the answers are of a kind. *)
Definition completes {A} (P : forall X, fatE X -> X -> Prop) (p : fat A) (a : A) : Prop :=
  forall t o, all_events P t -> runs p t o -> o = Returned a.

Section Completing.
  Context (P : forall X, fatE X -> X -> Prop).

Lemma completes_ret {A} (a : A) : completes P (Ret a) a.
Proof. intros t o _ H. by apply runs_inv in H as [_ ->]. Qed.

Lemma completes_call {X A} (e : fatE X) (k : X -> fat A) a :
  (forall x, P X e x -> completes P (k x) a) -> completes P (Vis e k) a.
Proof. intros Hk t o Ht H. apply runs_inv in H as (x & t' & -> & H). apply all_events_cons in Ht as [Hx Ht]. by apply (Hk x Hx t'). Qed.

Lemma completes_bind {A B} (p : fat A) (k : A -> fat B) a b :
  completes P p a -> completes P (k a) b -> completes P (pbind p k) b.
Proof.
  intros Hp Hk t o Ht H. apply pbind_runs in H as [(w & H & ->)|(a' & t1 & t2 & -> & H1 & H)].
  - by apply Hp in H.
  - apply all_events_app in Ht as [Ht1 Ht2]. apply Hp in H1 as [= ->]; [|done]. by apply (Hk t2).
Qed.

(** The calls around the work on the target. *)
Context (spec : LdtmFilesystemSpec) (P_serves : forall X (e : fatE X) x, P X e x -> serves spec e x).

Lemma interface_completes {A} (k : option (module_api * module_api) -> fat A) (a : A) :
  (forall v4 v3, readable v3 = true -> completes P (k (Some (v4, v3))) a) -> completes P (pbind (interface spec) k) a.
Proof.
  intros Hk. unfold interface. destruct (is_exfat spec); apply completes_call; intros x Hx; apply P_serves in Hx;
    destruct Hx as (v4 & v3 & Hx & Hr); cbn [pbind]; rewrite Hx; by apply Hk.
Qed.

Lemma raw_fat_completes path (create : bool) :
  is_null (module_of spec) = false ->
  (forall bytes, sized spec bytes = true -> completes P (if create then create_on spec bytes else verify_on spec bytes) 0) ->
  completes P (ldtm_raw_fat (Some spec) (Some path) create) 0.
Proof.
  intros Hm Hon.
  assert (Hbody : completes P (if create then create_fixture spec path else verify_fixture spec path) 0).
  { destruct create; apply interface_completes; intros v4 v3 Hr; rewrite ?Hr; cbn [negb];
      (apply completes_call; intros opened Ho; apply P_serves in Ho; destruct Ho as (bytes & -> & Hs); cbn [pbind]);
      (apply (completes_bind _ _ 0); [by apply Hon|apply completes_call; intros ? _; apply completes_ret]). }
  unfold ldtm_raw_fat, ldtm_fat_module_create, call_module. destruct (module_of spec) as [[[format filename] symbol]|]; [|done].
  destruct create; (apply completes_call; intros loaded Hl; apply P_serves in Hl; cbn in Hl; subst loaded; cbn [pbind]); exact Hbody.
Qed.
End Completing.

Section Accepting.
  Context (spec : LdtmFilesystemSpec).

  #[local] Abbreviation completes := (completes (@accepted spec)).

Lemma clear_ends_completes n bytes at_ : completes (clear_ends n bytes at_) true.
Proof.
  revert at_. induction n as [|n IH]; intros at_; [apply completes_ret|]. cbn [clear_ends].
  do 3 (apply completes_call; intros ? ->; cbn [pbind Z.eqb negb]). apply IH.
Qed.

Lemma create_files_completes files : completes (create_files files) 0.
Proof. induction files as [|f files IH]; [apply completes_ret|]. apply completes_call. intros ? ->. apply IH. Qed.

Lemma write_bytes_completes fuel file at_ limit :
  limit - at_ <= RAW_BUFFER * (Z.of_nat fuel - 1) -> at_ <= limit -> completes (write_bytes fuel file at_ limit) 0.
Proof.
  revert at_. induction fuel as [|fuel IH]; intros at_ Hf Ha; [unfold RAW_BUFFER in *; lia|]. cbn [write_bytes].
  destruct (Z.leb_spec limit at_); [apply completes_ret|].
  do 2 (apply completes_call; intros ? ->; cbn [pbind Z.eqb negb]). apply IH; unfold RAW_BUFFER in *; lia.
Qed.

Lemma write_halves_completes unit steps : completes (write_halves spec unit steps) 0.
Proof.
  induction steps as [|[second file] steps IH]; [apply completes_ret|]. cbn [write_halves].
  apply (completes_bind _ _ _ 0); [|exact IH]. unfold write_half.
  pose proof (raw_file_bytes_range (Some spec) file). rewrite (proj2 (Z.ltb_ge _ _)) by lia.
  pose proof (half_bounds spec unit second file) as [Hb _]. unfold half_from, half_to in Hb.
  apply write_bytes_completes; [|lia]. apply raw_fuel_enough. destruct second; lia.
Qed.

Lemma create_on_completes bytes : sized spec bytes = true -> completes (create_on spec bytes) 0.
Proof.
  intros Hs. unfold create_on. rewrite Hs. cbn [negb]. apply completes_call. intros ? ->.
  apply (completes_bind _ _ _ true); [apply clear_ends_completes|].
  do 2 (apply completes_call; intros ? ->; cbn [pbind Z.eqb negb]). unfold fill_volume.
  apply (completes_bind _ _ _ 0); [apply create_files_completes|].
  apply (completes_bind _ _ _ 0); [apply write_halves_completes|].
  apply completes_call. intros ? ->. apply completes_ret.
Qed.

End Accepting.

Lemma raw_fat_verify_runs spec path t :
  runs (ldtm_raw_fat (Some spec) (Some path) false) t (Returned 0) ->
  exists pre body, t = pre ++ body ++ [Event CloseTarget tt] /\ runs (check_volume spec) body (Returned 0).
Proof.
  intros H. apply call_module_runs in H as (format & filename & symbol & t' & _ & -> & H).
  apply interface_runs in H as (api & ev & t2 & -> & H & _).
  destruct api as [[v4 v3]|]; [|by apply runs_inv in H as [_ ?]].
  destruct (negb (readable v3)); [by apply runs_inv in H as [_ ?]|].
  apply runs_inv in H as (opened & t3 & -> & H). cbn [pbind] in H.
  destruct opened as [bytes|]; [|by apply runs_inv in H as [_ ?]].
  apply pbind_runs in H as [(w & _ & ?)|(r & t4 & t5 & -> & H4 & H)]; [done|].
  apply runs_inv in H as ([] & t6 & -> & H). apply runs_inv in H as [-> [= <-]].
  unfold verify_on in H4. destruct (negb (sized spec bytes)); [by apply runs_inv in H4 as [_ ?]|].
  apply runs_inv in H4 as (mounted & t5 & -> & H4). cbn [pbind] in H4.
  destruct (negb _) in H4; [by apply runs_inv in H4 as [_ ?]|].
  exists [Event (ModuleCall format filename symbol) true; ev; Event (OpenTarget path false) (Some bytes);
    Event (VMount bytes timestamp_verify_io) mounted], t5. by split.
Qed.

Lemma raw_fat_verify_sound spec path m listing t :
  listing ≡ₚ elements (dom m) -> all_events (@engine_reads m listing) t ->
  runs (ldtm_raw_fat (Some spec) (Some path) false) t (Returned 0) -> m = corpus spec.
Proof.
  intros Hl Ht H. apply raw_fat_verify_runs in H as (pre & body & -> & H).
  apply all_events_app in Ht as [_ Ht]. apply all_events_app in Ht as [Ht _]. by eapply check_volume_sound.
Qed.

Lemma raw_fat_verify_complete spec path listing t o :
  is_null (module_of spec) = false -> listing ≡ₚ elements (dom (corpus spec)) ->
  all_events (fun X e x => @engine_reads (corpus spec) listing X e x /\ @serves spec X e x) t ->
  runs (ldtm_raw_fat (Some spec) (Some path) false) t o -> o = Returned 0.
Proof.
  intros Hm Hl Ht H. eapply raw_fat_completes; [|exact Hm| |exact Ht|exact H].
  - by intros X e x [_ Hs].
  - intros bytes Hs. unfold verify_on. rewrite Hs. cbn [negb]. apply completes_call. cbn [serves]. intros x [_ ->].
    cbn [pbind Z.eqb negb]. intros t' o' Ht' H'. by eapply check_volume_complete.
Qed.

Lemma all_events_and (P Q : forall X, fatE X -> X -> Prop) t :
  all_events P t -> all_events Q t -> all_events (fun X e x => P X e x /\ Q X e x) t.
Proof. unfold all_events. rewrite !Forall_forall. intros H1 H2 [X e x] Hin. split; [apply (H1 _ Hin)|apply (H2 _ Hin)]. Qed.

(** The answers of an environment without a state. *)
Lemma execute_all_events {A} (P : forall X, fatE X -> X -> Prop) (h : forall X, fatE X -> unit -> X * unit) (p : fat A) s :
  (forall X (e : fatE X), P X e (fst (h X e s))) -> all_events P (snd (execute h p s)).
Proof.
  intros Hh. destruct s. induction p as [a|w|X e k IH]; [constructor..|]. cbn [execute].
  specialize (Hh X e) as He. destruct (h X e tt) as [x []]. specialize (IH x).
  destruct (execute h (k x) tt) as [o t]. by constructor.
Qed.

Lemma raw_fat_create_volume spec path t m :
  runs (ldtm_raw_fat (Some spec) (Some path) true) t (Returned 0) ->
  (exists bytes, In (Event (OpenTarget path true) (Some bytes)) t /\ sized spec bytes = true) /\
  volume_after t m = corpus spec /\
  exists t1 t2, t = t1 ++ t2 /\ volume_after t1 m = first_halves spec.
Proof.
  intros H. apply raw_fat_create_runs in H as (pre & bytes & body & -> & _ & H).
  apply (create_on_spec _ _ _ (volume_after (pre ++ [Event (OpenTarget path true) (Some bytes)]) m)) in H
    as (Hs & t1 & t2 & -> & H1 & H2).
  split; [exists bytes; split; [apply in_or_app; right; by left|done]|]. split.
  - change (?x :: ?l) with ([x] ++ l). rewrite app_assoc, volume_after_app, <- app_assoc, volume_after_app, H1, volume_after_app, H2. done.
  - exists (pre ++ Event (OpenTarget path true) (Some bytes) :: t1), (t2 ++ [Event CloseTarget tt]).
    split; [by rewrite <- !app_assoc|]. change (?x :: ?l) with ([x] ++ l). by rewrite app_assoc, volume_after_app.
Qed.

(** ** Properties *)

Lemma fixture_split_inside unit bytes :
  0 < unit <= 65536 -> unit < bytes <= 62914560 -> 0 < fixture_split unit bytes < bytes.
Proof.
  intros Hu Hb. destruct (raw_units_spec bytes unit) as [(H1 & H2 & H3)|[? _]]; [lia|lia|unfold is_u32; lia| |lia].
  destruct (first_half_spec (raw_units bytes unit)) as (Hr & Hin & _); [lia|].
  assert (1 < raw_units bytes unit) as H by nia. apply Hin in H.
  unfold fixture_split. assert (raw_first_half (raw_units bytes unit) * unit < bytes) by nia.
  rewrite u64_small by (unfold is_u64; nia). nia.
Qed.

(** C31: A fixture that was created holds the corpus, in two parts.  When [ldtm_raw_fat]
    returns 0 for a creation, the target had the size of the filesystem, and after
    the accepted calls of the engine its volume holds the sixteen files of the
    corpus byte for byte and nothing else; and at one moment before that, every file
    had its first half and none had more, so that the second half of a file longer
    than an allocation unit was allocated after the first halves of all. *)
Theorem fat_creation_fills_volume spec path t m :
  runs (ldtm_raw_fat (Some spec) (Some path) true) t (Returned 0) ->
  (exists bytes, In (Event (OpenTarget path true) (Some bytes)) t /\ sized spec bytes = true) /\
  volume_after t m = corpus spec /\
  (exists t1 t2, t = t1 ++ t2 /\ volume_after t1 m = first_halves spec) /\
  forall file, fixture_unit spec < ldtm_raw_file_bytes (Some spec) file ->
    0 < fixture_split (fixture_unit spec) (ldtm_raw_file_bytes (Some spec) file) < ldtm_raw_file_bytes (Some spec) file.
Proof.
  intros H. apply (raw_fat_create_volume _ _ _ m) in H as (Hs & Hv & Hh). split_and!; try done.
  intros file Hf. apply fixture_split_inside; [unfold fixture_unit; destruct (bool_decide _); lia|].
  pose proof (raw_file_bytes_range (Some spec) file). lia.
Qed.

(** C30: verification accepts exactly the corpus.  For an engine that reads a volume
    correctly, whatever the order in which its directory lists the files: when
    [ldtm_raw_fat] returns 0 for a verification the volume holds the corpus, byte for
    byte and with no other file; and it returns 0 for the corpus when the module is
    accepted, the target has its size and nothing fails or asks to stop. *)
Theorem fat_verification_exact spec path m listing t o :
  listing ≡ₚ elements (dom m) -> all_events (@engine_reads m listing) t ->
  runs (ldtm_raw_fat (Some spec) (Some path) false) t o ->
  (o = Returned 0 -> m = corpus spec) /\
  (m = corpus spec -> is_null (module_of spec) = false -> all_events (@serves spec) t -> o = Returned 0).
Proof.
  intros Hl Ht H. split.
  - intros ->. by eapply raw_fat_verify_sound.
  - intros -> Hm Hs. eapply raw_fat_verify_complete; [done|exact Hl| |exact H]. by apply all_events_and.
Qed.

(** What was created is verified.  When every call of a creation is accepted, it
    returns 0; and when an engine then reads the volume those calls made, in
    whatever order it lists the files, the verification returns 0. *)
Theorem fat_fixture_roundtrip spec path m listing t1 o1 t2 o2 :
  is_null (module_of spec) = false ->
  all_events (@accepted spec) t1 -> runs (ldtm_raw_fat (Some spec) (Some path) true) t1 o1 ->
  listing ≡ₚ elements (dom (volume_after t1 m)) ->
  all_events (@engine_reads (volume_after t1 m) listing) t2 -> all_events (@serves spec) t2 ->
  runs (ldtm_raw_fat (Some spec) (Some path) false) t2 o2 ->
  o1 = Returned 0 /\ o2 = Returned 0.
Proof.
  intros Hm Ha H1 Hl Hr Hs H2.
  assert (o1 = Returned 0) as ->.
  { eapply raw_fat_completes; [|exact Hm| |exact Ha|exact H1].
    - intros X []; cbn [accepted serves]; done.
    - intros bytes Hb. by apply create_on_completes. }
  split; [done|]. apply (raw_fat_create_volume _ _ _ m) in H1 as (_ & Hv & _). rewrite Hv in Hl, Hr.
  eapply raw_fat_verify_complete; [done|exact Hl| |exact H2]. by apply all_events_and.
Qed.

(** ** Instances *)

Definition demo_fat_spec : LdtmFilesystemSpec := mkSpec "fat16" "LD_FAT16" 2048 200 LDTM_CREATOR_FAT16 "".

Definition demo_fat_table : fatfs_v4 :=
  (mkApi 4 72 (Some "fat16") 128 ["format"], Some (mkApi 3 112 (Some "fat16") 39
    ["mount"; "unmount"; "create"; "write"; "read"; "stat"; "directory_entry"]))%string.

Definition demo_entry (m : volume) (name : string) : Z * fatfs_entry :=
  match m !! name with
  | Some c => (0, mkFatfsEntry name (Z.of_nat (length c)) 32)
  | None => (4, mkFatfsEntry "" 0 0)
  end.

(** A host that serves [demo_fat_spec] and an engine that reads [m]. *)
Definition demo_engine (m : volume) (X : Type) (e : fatE X) (s : unit) : X * unit :=
  (match e in fatE X return X with
   | ModuleCall _ _ _ => true
   | EntryV4 => Some demo_fat_table
   | EntryV5 => Some (mkApi 5 64 (Some "exfat") 9 ["read64"; "stat64"]%string, Some demo_fat_table)
   | OpenTarget _ _ => Some 2147483648
   | CloseTarget => tt
   | StopRequested => false
   | VStat name => demo_entry m name
   | VRead name at_ count => match m !! name with Some c => (0, slice at_ count c) | None => (4, []) end
   | VDirectoryEntry _ index =>
       match elements (dom m) !! index with Some name => demo_entry m name | None => (1, mkFatfsEntry "" 0 0) end
   | _ => 0
   end, s).

Lemma demo_reads m X (e : fatE X) : @engine_reads m (elements (dom m)) X e (fst (demo_engine m X e tt)).
Proof.
  destruct e; cbn [engine_reads demo_engine fst]; try exact I.
  - by destruct (m !! name).
  - unfold demo_entry. destruct (m !! name); done.
  - destruct (elements (dom m) !! index) as [name|] eqn:E; [|done].
    assert (is_Some (m !! name)) as [c Hc] by (apply elem_of_dom, elem_of_elements; by eapply list_elem_of_lookup_2).
    unfold demo_entry. by rewrite Hc.
Qed.

Lemma demo_serves m X (e : fatE X) : @serves demo_fat_spec X e (fst (demo_engine m X e tt)).
Proof. destruct e; cbn [serves demo_engine fst]; try done; repeat eexists; vm_compute; reflexivity. Qed.

Lemma demo_accepted m X (e : fatE X) : @accepted demo_fat_spec X e (fst (demo_engine m X e tt)).
Proof. pose proof (demo_serves m X e) as H. by destruct e. Qed.

#[local] Abbreviation demo_request := (ldtm_raw_fat (Some demo_fat_spec) (Some "/dev/sdb1"%string)).

Definition demo_creation := execute (demo_engine ∅) (demo_request true) tt.
Definition demo_verification :=
  execute (demo_engine (corpus demo_fat_spec)) (demo_request false) tt.

Lemma demo_created : fst demo_creation = Returned 0.
Proof.
  assert (H : completes (@accepted demo_fat_spec) (demo_request true) 0).
  { apply raw_fat_completes.
    - intros X []; cbn [accepted serves]; done.
    - done.
    - intros bytes Hb. by apply create_on_completes. }
  apply (H (snd demo_creation)); [apply execute_all_events; apply demo_accepted|apply execute_runs].
Qed.

Lemma fat_creation_fills_volume_witness :
  exists t, runs (demo_request true) t (Returned 0) /\
    volume_after t ∅ = corpus demo_fat_spec.
Proof.
  assert (H : runs (demo_request true) (snd demo_creation) (Returned 0))
    by (rewrite <- demo_created; apply execute_runs).
  exists (snd demo_creation). split; [exact H|].
  exact (proj1 (proj2 (fat_creation_fills_volume demo_fat_spec "/dev/sdb1"%string (snd demo_creation) ∅ H))).
Defined.

Lemma fat_verification_exact_witness : fst demo_verification = Returned 0.
Proof.
  apply (fat_verification_exact demo_fat_spec "/dev/sdb1"%string (corpus demo_fat_spec) (elements (dom (corpus demo_fat_spec)))
    (snd demo_verification) (fst demo_verification)).
  - apply Permutation_refl.
  - exact (execute_all_events _ (demo_engine (corpus demo_fat_spec)) (demo_request false) tt (demo_reads _)).
  - exact (execute_runs (demo_engine (corpus demo_fat_spec)) (demo_request false) tt).
  - exact eq_refl.
  - exact eq_refl.
  - exact (execute_all_events _ (demo_engine (corpus demo_fat_spec)) (demo_request false) tt (demo_serves _)).
Defined.

Lemma fat_fixture_roundtrip_witness : fst demo_creation = Returned 0 /\
  fst (execute (demo_engine (volume_after (snd demo_creation) ∅)) (demo_request false) tt) = Returned 0.
Proof.
  eapply (fat_fixture_roundtrip demo_fat_spec "/dev/sdb1"%string ∅ (elements (dom (volume_after (snd demo_creation) ∅)))
    (snd demo_creation) (fst demo_creation)).
  - exact eq_refl.
  - exact (execute_all_events _ (demo_engine ∅) (demo_request true) tt (demo_accepted _)).
  - exact (execute_runs (demo_engine ∅) (demo_request true) tt).
  - apply Permutation_refl.
  - exact (execute_all_events _ (demo_engine (volume_after (snd demo_creation) ∅)) (demo_request false) tt (demo_reads _)).
  - exact (execute_all_events _ (demo_engine (volume_after (snd demo_creation) ∅)) (demo_request false) tt (demo_serves _)).
  - exact (execute_runs (demo_engine (volume_after (snd demo_creation) ∅)) (demo_request false) tt).
Defined.
