(* ===== verification/OperationEngine.v ===== *)
(** The operation engine, [native/operation_engine.cpp]: the command line it
    accepts, the checks before a mutation and the worker or module it starts. *)
From S2P Require Import Prelude Effects CString Infiltratr Sys DeviceTopology Device Exceptions Runtime RuntimeManifest HelperPath HelperPolicy DesktopPolicy ModuleHost.

(** Beside module loading and program resolution: the environment, the two
    streams and the replacement of the process. *)
Inductive engineE : Type -> Type :=
| EngineLoad {X} (e : loadE X) : engineE X
| EngineRuntime {X} (e : runtimeE X) : engineE X
| Setenv (name value : string) : engineE unit
(** [execv]: [None] when the process is replaced, the errno of the failure
    otherwise. *)
| Execv (command : list string) : engineE (option errno)
(** A line on the standard output, and on the error stream. *)
| PutsLine (text : string) : engineE unit
| PutsError (text : string) : engineE unit.

Definition engine := prog engineE.

Definition on_load {A} (p : load A) : engine A := interp (fun X e => call (EngineLoad e)) p.
Definition on_engine_sys {A} (p : sys A) : engine A := interp (fun X e => call (EngineLoad (LSys e))) p.
Definition on_runtime {A} (p : prog runtimeE A) : engine A := interp (fun X e => call (EngineRuntime e)) p.

(** How [main] ends. *)
Inductive ending := Exit (status : Z) | Replaced.

Definition engine_refuse {A} (text : string) : engine (option A) := call (PutsError text) ;;; Ret None.

(** ** The command line *)

Inductive cli :=
| ShowVersion
| ListPlugins
| ListModules
| Usage
| Request (operation device filesystem : string) (forwarded : list string).

(** [token.empty() || token[0] != '-']. *)
Definition positional (token : string) : bool := is_empty token || negb (bool_decide (head_char token = "-"%char)).

(** The loop over [argv], with the values collected so far. *)
Fixpoint engine_arguments (operation device filesystem : string) (forwarded tokens : list string) : cli :=
  match tokens with
  | [] =>
      if is_empty operation || is_empty device || is_empty filesystem then Usage
      else Request operation device filesystem forwarded
  | token :: tokens =>
      if String.eqb token "--version" then ShowVersion
      else if String.eqb token "--list-plugins" then ListPlugins
      else if String.eqb token "--list-installed-modules" then ListModules
      else if String.eqb token "--filesystem" then
        match tokens with
        | [] => Usage
        | value :: tokens => engine_arguments operation device value forwarded tokens
        end
      else if String.prefix "--filesystem=" token then
        engine_arguments operation device (drop_text 13 token) forwarded tokens
      else if is_empty operation && positional token then
        engine_arguments token device filesystem forwarded tokens
      else if is_empty device && positional token then
        engine_arguments operation token filesystem forwarded tokens
      else engine_arguments operation device filesystem (forwarded ++ [token]) tokens
  end.

Definition command_line (arguments : list string) : cli :=
  engine_arguments EmptyString EmptyString EmptyString [] arguments.

Section Engine.
  Context {common : Infiltratr}.
  Variable LD_VERSION : string.
  Variable strerror : errno -> string.

(** ** Choosing the plugin *)

Inductive plan := GenericModule (filename : string) | Plugin (backend : BackendInfo) (spec : OperationSpec).

Definition choose (operation filesystem : string) : engine (option plan) :=
  match backend_by_fstype filesystem with
  | None =>
      if is_empty filesystem || (15 <? strlen filesystem)%Z ||
         negb (String.eqb operation "defrag" || String.eqb operation "growth-defrag" ||
               String.eqb operation "recover")
      then engine_refuse "defragmenter-operation-engine: unsupported generic filesystem or operation"
      else if negb (forall_char in_format_class filesystem)
      then engine_refuse "invalid generic filesystem identifier"
      else
        let* found := on_load (ifs_filesystem_module_find_v2 (Some filesystem) 64) in
        match found with
        | None =>
            engine_refuse ("defragmenter-operation-engine: no installed trusted Defrag V2 SO advertises " ++ filesystem)
        | Some filename => Ret (Some (GenericModule filename))
        end
  | Some backend =>
      match operation_for backend operation with
      | None =>
          engine_refuse ("defragmenter-operation-engine: the " ++ display_name backend ++
            " plugin does not implement " ++ operation)
      | Some spec => Ret (Some (Plugin backend spec))
      end
  end%string.

(** ** The checks of the target *)

Definition preflight (device : string) : engine (option unit) :=
  let* status := on_engine_sys (call (Stat device)) in
  match status with
  | Err e =>
      engine_refuse ("defragmenter-operation-engine: cannot inspect target " ++ device ++ ": " ++ strerror e)
  | Ok status =>
      if negb (S_ISREG (st_mode status)) && negb (S_ISBLK (st_mode status))
      then engine_refuse "defragmenter-operation-engine: target is neither a regular image nor a block device"
      else
        let* mounted := on_engine_sys (ld_path_is_mounted (Some device)) in
        if mounted : bool
        then engine_refuse ("defragmenter-operation-engine: " ++ device ++
               " or overlapping storage is mounted; unmount it before mutation")
        else if S_ISBLK (st_mode status) then
          let* system_use := on_engine_sys (ld_block_device_has_system_use (Some device)) in
          match system_use with
          | Err e =>
              engine_refuse ("defragmenter-operation-engine: cannot prove " ++ device ++
                " is free of active system use: " ++ strerror e)
          | Ok true =>
              engine_refuse ("defragmenter-operation-engine: " ++ device ++
                " or related storage is in active system use (including swap); disable that use before mutation")
          | Ok false => Ret (Some tt)
          end
        else Ret (Some tt)
  end%string.

(** ** Starting the work *)

Definition plain_locale : engine unit := call (Setenv "LC_ALL" "C") ;;; call (Setenv "LANG" "C").

Definition generic_command (operation device : string) (forwarded : list string) : list string :=
  ["defragmenter-generic-module"%string; operation; device] ++ forwarded.

Definition worker_command (worker operation device : string) (spec : OperationSpec) (forwarded : list string) :
    list string :=
  [worker; operation; device] ++ without_options forwarded (unsupported_options spec).

Definition launch (p : plan) (operation device filesystem : string) (forwarded : list string) : engine ending :=
  match p with
  | GenericModule filename =>
      plain_locale ;;;
      let* status :=
        on_load (ifs_filesystem_module_run filesystem filename (generic_command operation device forwarded)) in
      Ret (Exit status)
  | Plugin backend spec =>
      let* worker := on_runtime (resolve_program (op_worker spec) false) in
      match worker with
      | Throw what => call (PutsError ("defragmenter-operation-engine: " ++ what)) ;;; Ret (Exit 2)
      | Value worker =>
          plain_locale ;;;
          let* failure := call (Execv (worker_command worker operation device spec forwarded)) in
          match failure with
          | None => Ret Replaced
          | Some e =>
              call (PutsError ("defragmenter-operation-engine: exec " ++ worker ++ " failed: " ++ strerror e)) ;;;
              Ret (Exit 127)
          end
      end
  end%string.

Definition usage_text : string :=
  ("usage: defragmenter-operation-engine-cpp " ++
   "[--list-plugins|--list-installed-modules] OPERATION DEVICE --filesystem TYPE [worker options...]").

Definition operate (operation device filesystem : string) (forwarded : list string) : engine ending :=
  let* p := choose operation filesystem in
  match p with
  | None => Ret (Exit 2)
  | Some p =>
      let* clear := preflight device in
      match clear with
      | None => Ret (Exit 2)
      | Some _ => launch p operation device filesystem forwarded
      end
  end.

Definition main (arguments : list string) : engine ending :=
  match command_line arguments with
  | ShowVersion => call (PutsLine ("defragmenter-operation-engine-cpp " ++ LD_VERSION)) ;;; Ret (Exit 0)
  | ListPlugins =>
      match registry_manifest_json 3 with
      | Value text => call (PutsLine text) ;;; Ret (Exit 0)
      | Throw what => Die what
      end
  | ListModules => let* status := on_load ifs_filesystem_module_list_v2 in Ret (Exit status)
  | Usage => call (PutsError usage_text) ;;; Ret (Exit 2)
  | Request operation device filesystem forwarded => operate operation device filesystem forwarded
  end.
(** ** What precedes the work *)

Abbreviation etrace := (list (event engineE)).

(** Calls that start neither a worker nor a module. *)
Definition quiet (X : Type) (e : engineE X) : Prop :=
  match e with Execv _ => False | EngineLoad (Invoke _ _ _ _) => False | _ => True end.

(** The checks of [device] that a trace holds: a regular file or block device,
    then not mounted, then for a block device not in system use. *)
Definition cleared (device : string) (t : etrace) : Prop :=
  exists status mounts uses,
    t = Event (EngineLoad (LSys (Stat device))) (Ok status) :: mounts ++ uses /\
    (S_ISREG (st_mode status) = true \/ S_ISBLK (st_mode status) = true) /\
    runs (on_engine_sys (ld_path_is_mounted (Some device))) mounts (Returned false) /\
    (S_ISBLK (st_mode status) = true ->
     runs (on_engine_sys (ld_block_device_has_system_use (Some device))) uses (Returned (Ok false))).

(** The plugin is the registered one, or a module of a plain format. *)
Definition chosen (operation filesystem : string) (p : plan) : Prop :=
  match p with
  | Plugin backend spec =>
      backend_by_fstype filesystem = Some backend /\ operation_for backend operation = Some spec
  | GenericModule filename =>
      backend_by_fstype filesystem = None /\ valid_format filesystem = true /\
      is_operation operation = true
  end.

(** The one thing that may be started after [t]. *)
Definition start_allowed (operation device filesystem : string) (forwarded : list string) (t : etrace)
    (X : Type) (e : engineE X) : Prop :=
  match e with
  | Execv command =>
      exists backend spec worker t1 clear t2 resolve t3,
        chosen operation filesystem (Plugin backend spec) /\
        command = worker_command worker operation device spec forwarded /\
        t = t1 ++ clear ++ t2 ++ resolve ++ t3 /\ cleared device clear /\
        runs (on_runtime (resolve_program (op_worker spec) false)) resolve (Returned (Value worker))
  | EngineLoad (Invoke image symbol method arguments) =>
      exists filename t1 clear t2,
        chosen operation filesystem (GenericModule filename) /\
        arguments = generic_command operation device forwarded /\
        t = t1 ++ clear ++ t2 /\ cleared device clear
  | _ => True
  end.

Lemma quiet_allowed operation device filesystem forwarded t X (e : engineE X) :
  quiet X e -> start_allowed operation device filesystem forwarded t X e.
Proof. by destruct e as [? []| | | | |]. Qed.

Lemma quiet_calls {A} operation device filesystem forwarded (p : engine A) :
  calls_in quiet p ->
  calls_in (fun X e => forall t, start_allowed operation device filesystem forwarded t X e) p.
Proof. apply calls_impl. intros X e He t. by apply quiet_allowed. Qed.

Lemma on_engine_sys_quiet {A} (p : sys A) : calls_in quiet (on_engine_sys p).
Proof. apply calls_interp. intros X e. by split. Qed.

Lemma on_runtime_quiet {A} (p : prog runtimeE A) : calls_in quiet (on_runtime p).
Proof. apply calls_interp. intros X e. by split. Qed.

Lemma on_load_calls {A} (P : forall X, loadE X -> Prop) (Q : forall X, engineE X -> Prop) (p : load A) :
  (forall X (e : loadE X), P X e -> Q X (EngineLoad e)) -> calls_in P p -> calls_in Q (on_load p).
Proof.
  intros H. induction p as [a|m|X e k IH]; simpl; [done..|]. intros [He Hk]. split; [by apply H|].
  intros x. by apply IH.
Qed.

(** No module is called while modules are listed or searched. *)
Definition passive (X : Type) (e : loadE X) : Prop := match e with Invoke _ _ _ _ => False | _ => True end.

Lemma directory_passive : calls_in passive ifs_open_module_directory.
Proof. unfold ifs_open_module_directory, keep_trusted, trusted. calls. Qed.

Lemma probe_passive d name : calls_in passive (ifs_probe_module_v2 d name).
Proof. unfold ifs_probe_module_v2, keep_trusted, trusted. calls. Qed.
#[local] Hint Resolve directory_passive probe_passive : calls.

Lemma find_loop_passive d format entries selected matches :
  calls_in passive (find_loop d format entries selected matches).
Proof.
  revert selected matches. induction entries as [|name entries IH]; intros selected matches;
    cbn [find_loop]; calls; apply IH.
Qed.

Lemma list_loop_passive d entries first : calls_in passive (list_loop d entries first).
Proof. revert first. induction entries as [|name entries IH]; intros first; cbn [list_loop]; calls; apply IH. Qed.
#[local] Hint Resolve find_loop_passive list_loop_passive : calls.

Lemma find_passive format capacity : calls_in passive (ifs_filesystem_module_find_v2 format capacity).
Proof. unfold ifs_filesystem_module_find_v2. calls. Qed.

Lemma list_passive : calls_in passive ifs_filesystem_module_list_v2.
Proof. unfold ifs_filesystem_module_list_v2. calls. Qed.

(** A module is run with the arguments of the command only. *)
Definition with_arguments (arguments : list string) (X : Type) (e : loadE X) : Prop :=
  match e with Invoke _ _ _ a => a = arguments | _ => True end.

Lemma run_command_arguments image arguments : calls_in (with_arguments arguments) (run_command image arguments).
Proof. unfold run_command. calls. split; [done|]. intros. exact I. Qed.
#[local] Hint Resolve run_command_arguments : calls.

Lemma module_run_arguments format filename arguments :
  calls_in (with_arguments arguments) (ifs_filesystem_module_run format filename arguments).
Proof.
  unfold ifs_filesystem_module_run, prepare_stop, ifs_filesystem_module_call, use_image,
    ifs_open_module_directory, keep_trusted, trusted.
  calls.
Qed.

Lemma choose_quiet operation filesystem : calls_in quiet (choose operation filesystem).
Proof.
  unfold choose, engine_refuse. calls. apply (on_load_calls passive); [by intros X []|apply find_passive].
Qed.

Lemma choose_returns operation filesystem :
  returns (fun p => match p with Some p => chosen operation filesystem p | None => True end)
    (choose operation filesystem).
Proof.
  unfold choose. destruct (backend_by_fstype filesystem) as [backend|] eqn:Hb.
  - destruct (operation_for backend operation) as [spec|] eqn:Ho; [by split|]. by intros ?.
  - destruct (_ || _) eqn:E1; [by intros ?|]. destruct (forall_char in_format_class filesystem) eqn:E2; [|by intros ?].
    apply returns_bind_any. intros [filename|]; [|by intros ?]. cbn [negb returns chosen].
    apply orb_false_iff in E1 as [E1 E3]. apply orb_false_iff in E1 as [E0 E1]. apply negb_false_iff in E3.
    split; [done|]. split; [|done]. unfold valid_format. breflect. rewrite E2, andb_true_r.
    destruct filesystem; [done|]. unfold strlen in *. simpl in *. by apply Z.leb_le.
Qed.

Lemma preflight_quiet device : calls_in quiet (preflight device).
Proof. unfold preflight, engine_refuse. calls; apply on_engine_sys_quiet. Qed.

Lemma engine_refuse_runs {A} text t (a : A) : ~ runs (engine_refuse text) t (Returned (Some a)).
Proof. intros H. apply runs_inv in H as (x & u & _ & H). by apply runs_inv in H as [_ ?]. Qed.

Lemma preflight_runs device t :
  runs (preflight device) t (Returned (Some tt)) -> cleared device t.
Proof.
  unfold preflight. intros H. apply runs_inv in H as (status & t1 & -> & H). cbn [pbind interp] in H.
  destruct status as [status|e]; [|by apply engine_refuse_runs in H].
  destruct (negb _ && negb _) eqn:Hk in H; [by apply engine_refuse_runs in H|].
  apply pbind_runs in H as [(m & _ & ?)|(mounted & mounts & t2 & -> & H1 & H)]; [done|].
  destruct mounted; [by apply engine_refuse_runs in H|].
  exists status, mounts, t2. split; [done|]. split; [|split; [done|]].
  - apply andb_false_iff in Hk as [Hk|Hk]; apply negb_false_iff in Hk; eauto.
  - intros Hb. rewrite Hb in H. apply pbind_runs in H as [(m & _ & ?)|(use & uses & t3 & -> & H2 & H)]; [done|].
    destruct use as [[]|e]; [by apply engine_refuse_runs in H| |by apply engine_refuse_runs in H].
    apply runs_inv in H as [-> _]. by rewrite app_nil_r.
Qed.

(** Harmless calls are allowed anywhere, and what they did is known. *)
Lemma quiet_engine_wp {A} operation device filesystem forwarded (p : engine A) t :
  calls_in quiet p ->
  wp (start_allowed operation device filesystem forwarded)
    (fun o t' => exists s, t' = t ++ s /\ runs p s o) p t.
Proof. intros Hp. apply wp_of_runs; [by apply quiet_calls|]. intros s o H. by exists s. Qed.

Lemma launch_wp p operation device filesystem forwarded t1 clear t2 :
  chosen operation filesystem p -> cleared device clear ->
  wp (start_allowed operation device filesystem forwarded) (fun _ _ => True)
    (launch p operation device filesystem forwarded) (t1 ++ clear ++ t2).
Proof.
  intros Hp Hc. destruct p as [filename|backend spec]; cbn [launch].
  - apply (wp_calls (fun X e => match e with
      | EngineLoad e => with_arguments (generic_command operation device forwarded) _ e
      | Execv _ => False | _ => True end)).
    + unfold plain_locale. calls. eapply on_load_calls; [|apply module_run_arguments]. by intros X [].
    + intros t' X [Y e| | | | |] He; try done. destruct e; try done. cbn [start_allowed].
      exists filename, t1, clear, (t2 ++ t'). by rewrite <- !app_assoc.
  - apply wp_bind. eapply wp_mono; [apply quiet_engine_wp, on_runtime_quiet|done|].
    intros [[worker|what]|m] t (resolve & -> & Hr); [| |done].
    + split; [done|]. intros u. split; [done|]. intros v. cbn [pbind]. split.
      * exists backend, spec, worker, t1, clear, t2, resolve,
          [Event (Setenv "LC_ALL" "C") u; Event (Setenv "LANG" "C") v].
        by rewrite <- !app_assoc.
      * intros [e|]; [|done]. split; [done|]. done.
    + by split.
Qed.

Lemma operate_wp operation device filesystem forwarded :
  wp (start_allowed operation device filesystem forwarded) (fun _ _ => True)
    (operate operation device filesystem forwarded) [].
Proof.
  unfold operate. apply wp_bind. eapply wp_mono; [apply quiet_engine_wp, choose_quiet|done|].
  intros [[p|]|m] t (t1 & -> & H1); [|done..]. apply returns_runs with (1 := choose_returns _ _) in H1.
  apply wp_bind. eapply wp_mono; [apply quiet_engine_wp, preflight_quiet|done|].
  intros [[[]|]|m] t (clear & -> & H2); [|done..]. apply preflight_runs in H2.
  rewrite <- (app_nil_r clear). by apply launch_wp.
Qed.

End Engine.

(** ** What the helper forwards *)

Definition dash (token : string) : bool := bool_decide (head_char token = "-"%char).

(** Tuning values that cannot be taken for an option of the engine. *)
Definition plain_tuning (o : option_group) : bool :=
  match o with OTuning _ v => negb (dash v) | _ => true end.

(** No value of the group can. *)
Definition plain_group (o : option_group) : bool :=
  match o with
  | OWrite | OFilesystem _ => true
  | OConfirm v | OJournal v | OGrowth v => negb (dash v)
  | OTuning name v => is_tuning name && negb (dash v)
  end.

(** The options that pass through the engine. *)
Definition passed (o : option_group) : bool := match o with OFilesystem _ => false | _ => true end.

Section Forwarding.
  Variables operation device : string.
  Hypothesis operation_set : operation <> EmptyString.
  Hypothesis device_set : device <> EmptyString.

Lemma forward_value filesystem forwarded token tokens :
  dash token = false ->
  engine_arguments operation device filesystem forwarded (token :: tokens) =
  engine_arguments operation device filesystem (forwarded ++ [token]) tokens.
Proof.
  intros Ht. cbn [engine_arguments].
  assert (Hne : forall text, head_char text = "-"%char -> String.eqb token text = false).
  { intros text Hh. apply String.eqb_neq. intros ->. unfold dash in Ht. by rewrite Hh in Ht. }
  rewrite !Hne by done. replace (String.prefix "--filesystem=" token) with false.
  - destruct operation, device; done.
  - destruct token as [|c token]; [done|]. unfold dash in Ht. cbn [head_char] in Ht.
    cbn [String.prefix]. apply bool_decide_eq_false in Ht. by destruct (ascii_dec "-" c) as [<-|].
Qed.

Lemma forward_option filesystem forwarded name tokens :
  In name ["--write"; "--confirm"; "--journal"; "--growth-percent"; "--batch-clusters"; "--ram-buffer";
           "--live-map-cells"]%string ->
  engine_arguments operation device filesystem forwarded (name :: tokens) =
  engine_arguments operation device filesystem (forwarded ++ [name]) tokens.
Proof.
  intros Hin. destruct operation, device; [done..|].
  repeat (destruct Hin as [<-|Hin]; [reflexivity|]). destruct Hin.
Qed.

Lemma forward_group filesystem forwarded o tokens :
  plain_group o = true ->
  engine_arguments operation device filesystem forwarded (group_arguments o ++ tokens) =
  engine_arguments operation device (match o with OFilesystem v => v | _ => filesystem end)
    (forwarded ++ if passed o then group_arguments o else []) tokens.
Proof.
  intros Hp. destruct o as [|v|v|v|v|name v]; cbn [group_arguments app plain_group passed] in *.
  1: by rewrite forward_option by (simpl; tauto).
  1: by rewrite app_nil_r.
  1-3: apply negb_true_iff in Hp; rewrite forward_option, forward_value by (done || (simpl; tauto));
       by rewrite <- app_assoc.
  apply andb_true_iff in Hp as [Hn Hp]. apply negb_true_iff in Hp.
  rewrite forward_option, forward_value; [by rewrite <- app_assoc|done|].
  unfold is_tuning in Hn. rewrite !orb_true_iff, !String.eqb_eq in Hn.
  destruct Hn as [[-> | ->]| ->]; simpl; tauto.
Qed.

Lemma forward_groups opts filesystem forwarded :
  forallb plain_group opts = true ->
  engine_arguments operation device filesystem forwarded (flatten opts) =
  let chosen := List.last (filesystems opts) filesystem in
  if is_empty chosen then Usage
  else Request operation device chosen (forwarded ++ flatten (List.filter passed opts)).
Proof.
  revert filesystem forwarded. induction opts as [|o opts IH]; intros filesystem forwarded Hp.
  - cbn. rewrite app_nil_r. by destruct operation, device, filesystem.
  - cbn [forallb] in Hp. apply andb_true_iff in Hp as [Ho Hp].
    change (flatten (o :: opts)) with (group_arguments o ++ flatten opts).
    rewrite forward_group, IH by done. cbv zeta.
    replace (List.last (filesystems (o :: opts)) filesystem) with
      (List.last (filesystems opts) (match o with OFilesystem v => v | _ => filesystem end)).
    + rewrite <- app_assoc. by destruct o.
    + destruct o as [|value|?|?|?|? ?]; try done.
      change (filesystems (OFilesystem value :: opts)) with (value :: filesystems opts).
      destruct (filesystems opts) as [|x l]; [done|].
      clear. revert x. induction l as [|y l IH]; intros x; [done|]. apply IH.
Qed.
End Forwarding.

Lemma authorised_plain operation device opts uid :
  authorised operation device opts uid -> forallb plain_tuning opts = true -> forallb plain_group opts = true.
Proof.
  intros Ha Hp. rewrite forallb_forall in Hp |- *. pose proof (auth_groups _ _ _ _ Ha) as Hg.
  rewrite forallb_forall in Hg. intros o Ho. specialize (Hp _ Ho). specialize (Hg _ Ho).
  assert (Hone : forall (f : option_group -> option string) v l, f o = Some v -> omap f opts = l -> In v l).
  { intros f v l Hf <-. apply list_elem_of_In, list_elem_of_omap. exists o. split; [|done].
    by apply list_elem_of_In. }
  assert (Hslash : forall v, head_char v = "/"%char -> negb (dash v) = true).
  { intros v Hv. unfold dash. by rewrite Hv. }
  destruct o as [|v|v|v|v|name v]; try done; cbn [plain_group].
  - apply Hslash. rewrite <- (auth_device _ _ _ _ Ha).
    destruct (Hone (fun o => match o with OConfirm v => Some v | _ => None end) v _ eq_refl
      (auth_confirm _ _ _ _ Ha)) as [->|[]]; done.
  - apply Hslash. destruct (auth_journal _ _ _ _ Ha) as (j & Hj & Hok & _).
    destruct (Hone (fun o => match o with OJournal v => Some v | _ => None end) v _ eq_refl Hj) as [->|[]].
    exact (bool_decide_eq_true_1 _ Hok).
  - pose proof (Hone (fun o => match o with OGrowth v => Some v | _ => None end) v _ eq_refl
      (auth_growth _ _ _ _ Ha)) as Hin.
    destruct (String.eqb operation "growth-defrag"); [|done]. by destruct Hin as [<-|[]].
  - cbn [group_ok plain_tuning] in *. apply andb_true_iff in Hg as [-> _]. done.
Qed.

Lemma authorised_arguments operation device opts uid :
  authorised operation device opts uid -> forallb plain_tuning opts = true ->
  exists filesystem,
    filesystems opts = [filesystem] /\ valid_filesystem_identifier filesystem = true /\
    command_line (operation :: device :: flatten opts) =
    Request operation device filesystem (flatten (List.filter passed opts)).
Proof.
  intros Ha Hp. destruct (auth_filesystem _ _ _ _ Ha) as (filesystem & Hf & Hv). exists filesystem.
  split; [done|]. split; [done|]. pose proof (auth_device _ _ _ _ Ha) as Hd.
  assert (Hdne : device <> EmptyString) by (by intros ->).
  assert (Hstep : command_line (operation :: device :: flatten opts) =
    engine_arguments operation device EmptyString [] (flatten opts)).
  { unfold command_line. pose proof (auth_operation _ _ _ _ Ha) as Ho. unfold is_operation in Ho.
    rewrite !orb_true_iff, !String.eqb_eq in Ho. destruct device as [|c device]; [done|]. cbn in Hd. subst c.
    by destruct Ho as [[-> | ->]| ->]. }
  rewrite Hstep, forward_groups; [|by pose proof (auth_operation _ _ _ _ Ha); intros ->|done|
    by eapply authorised_plain].
  cbv zeta. rewrite Hf. cbn [List.last]. unfold valid_filesystem_identifier in Hv.
  apply andb_true_iff in Hv as [Hv _]. apply negb_true_iff in Hv. by rewrite Hv.
Qed.

(** The default options of the registry cannot be taken for options. *)
Lemma registry_tuning_plain fs b name op tuning :
  backend_by_fstype fs = Some b -> operation_for b name = Some op ->
  tunings (default_options op) = Some tuning -> forallb plain_tuning tuning = true.
Proof.
  intros Hb Ho Ht. apply backend_found in Hb as [Hb _]. apply find_some in Ho as [Ho _].
  assert (Hr : forallb (fun b => forallb (fun op => match tunings (default_options op) with
    | Some t => forallb plain_tuning t | None => true end) (operations b)) registry = true)
    by (vm_compute; reflexivity).
  rewrite forallb_forall in Hr. specialize (Hr _ Hb). rewrite forallb_forall in Hr. specialize (Hr _ Ho).
  by rewrite Ht in Hr.
Qed.

Lemma tunings_passed options tuning :
  tunings options = Some tuning -> List.filter passed tuning = tuning.
Proof.
  revert options tuning. fix IH 1. intros [|name [|value options]] tuning H; cbn [tunings] in H; [by injection H as <-|done|].
  destruct (_ && _); [|done]. apply fmap_Some in H as (rest & H & ->). cbn. by rewrite (IH _ _ H).
Qed.

Lemma utoa_plain_tuning n : dash (utoa n) = false.
Proof.
  unfold dash. apply bool_decide_eq_false. intros E. pose proof (utoa_head_digit n) as H. by rewrite E in H.
Qed.

(** The options of the command line of a mutation that reach the worker. *)
Definition mutation_tail (v : DesktopVolume) (operation journal : string) (cells : Z) (spec : OperationSpec) :
    list string :=
  ["--write"; "--confirm"; DesktopPolicy.path v; "--journal"; journal]%string ++ default_options spec ++
  (if String.eqb operation "growth-defrag" then ["--growth-percent"; "10"]%string else []) ++
  (if String.eqb operation "recover" then [] else ["--live-map-cells"%string; utoa (clamp cells 256 1048576)]).

Lemma mutation_filesystem v operation journal cells tuning options :
  tunings options = Some tuning ->
  filesystems (mutation_options v operation journal cells tuning) = [DesktopPolicy.filesystem v].
Proof.
  intros Ht. destruct (tunings_flatten _ _ Ht) as (_ & _ & _ & Hf & _).
  unfold filesystems, mutation_options in *. rewrite omap_app, tuning_projection, Hf by done.
  by destruct (String.eqb operation "growth-defrag").
Qed.

Lemma mutation_passed v operation journal cells tuning spec :
  tunings (default_options spec) = Some tuning ->
  flatten (List.filter passed (mutation_options v operation journal cells tuning)) =
  mutation_tail v operation journal cells spec.
Proof.
  intros Ht. destruct (tunings_flatten _ _ Ht) as [Hf _]. unfold mutation_options, mutation_tail.
  rewrite !List.filter_app, (tunings_passed _ _ Ht), !flatten_app, Hf.
  by destruct (String.eqb operation "growth-defrag"), (String.eqb operation "recover").
Qed.

(** ** Properties *)

(** C11: The engine starts nothing on a target it has not checked.  Whatever the
    system answers, a worker is executed or a module is run only for an operation,
    a target and a filesystem that its command line names, after the target was
    found a regular file or block device, not mounted and, for a block device,
    not in system use; the worker is the one registered for the filesystem and
    operation, at the path its resolution gave, with the options it supports, and
    the module gets the operation, the target and the options unchanged. *)
Theorem engine_starts_checked `{Infiltratr} version strerror arguments pre X (e : engineE X) x post o :
  runs (main version strerror arguments) (pre ++ Event e x :: post) o -> ~ quiet X e ->
  exists operation device filesystem forwarded,
    command_line arguments = Request operation device filesystem forwarded /\
    start_allowed operation device filesystem forwarded pre X e.
Proof.
  intros Hr He.
  assert (Hq : calls_in quiet (main version strerror arguments) -> False).
  { intros Hc. apply (calls_runs _ _ _ _ Hc) in Hr. apply Forall_app in Hr as [_ Hr].
    apply List.Forall_inv in Hr. by apply He. }
  unfold main in Hr, Hq. destruct (command_line arguments) as [| | | |operation device filesystem forwarded].
  1,2,4: destruct Hq; calls.
  1: destruct Hq; calls; eapply on_load_calls; [|apply list_passive]; by intros Y [].
  exists operation, device, filesystem, forwarded. split; [done|].
  destruct (wp_runs _ _ _ _ _ _ (operate_wp strerror operation device filesystem forwarded) Hr) as [_ H'].
  by specialize (H' _ _ _ _ _ eq_refl).
Qed.

(** The engine obeys the helper: for every request the helper authorises whose
    tuning values do not look like options, the engine performs the authorised
    operation on the authorised target with the one filesystem that was validated,
    and passes every other option on unchanged and in order. *)
Theorem engine_obeys_helper operation device opts uid :
  authorised operation device opts uid -> forallb plain_tuning opts = true ->
  exists filesystem,
    filesystems opts = [filesystem] /\ valid_filesystem_identifier filesystem = true /\
    command_line (operation :: device :: flatten opts) =
    Request operation device filesystem (flatten (List.filter passed opts)).
Proof. intros Ha Hp. by eapply authorised_arguments. Qed.

(** C12: A mutation of the desktop arrives as it was meant: for every command the
    desktop builds with the journal of the user, the engine performs that operation
    on the path of the volume with the plugin registered for its filesystem, and
    the worker gets the write flag, the confirmation, the journal and the tuning of
    the command. *)
Theorem desktop_request_reaches_engine `{D : !Sha256Laws digest} v operation program uid cells
    journal_exists args :
  head_char (DesktopPolicy.path v) = "/"%char ->
  desktop_mutation v operation program (desktop_journal v uid) cells journal_exists = Value (program :: args) ->
  exists backend spec,
    chosen operation (DesktopPolicy.filesystem v) (Plugin backend spec) /\
    command_line args = Request operation (DesktopPolicy.path v) (DesktopPolicy.filesystem v)
      (mutation_tail v operation (desktop_journal v uid) cells spec).
Proof.
  intros Hd H. apply mutation_request in H as (backend & spec & tuning & Hb & Ho & Ht & Hj & [= ->]).
  exists backend, spec. split; [done|]. destruct (operation_found _ _ _ _ Hb Ho) as [Hop _].
  pose proof (mutation_options_authorised v operation (desktop_journal v uid) cells tuning uid Hop Hd
    (registry_identifier _ _ Hb) Hj (desktop_journal_ok v uid) (ex_intro _ _ Ht)) as Ha.
  destruct (authorised_arguments _ _ _ _ Ha) as (filesystem & Hf & _ & ->).
  - unfold mutation_options. rewrite !forallb_app, (registry_tuning_plain _ _ _ _ _ Hb Ho Ht).
    destruct (String.eqb operation "growth-defrag"), (negb _); cbn; rewrite ?utoa_plain_tuning; done.
  - rewrite (mutation_filesystem _ _ _ _ _ _ Ht) in Hf. injection Hf as <-. f_equal. by apply mutation_passed.
Qed.

(** The engine and the helper disagree about values that look like options: a
    request the helper accepts after it validated the filesystem ext4 is run by the
    engine with the plugin for ntfs, and another one only prints the version. *)
Theorem tuning_value_escapes :
  exists opts opts' forwarded,
    let request := fun o => "defrag"%string :: "/dev/sdb1"%string :: flatten o in
    filesystems opts = ["ext4"%string] /\
    helper_command "operation-engine" (request opts) 1000 = Value (mkCommand kOperationEngine (request opts)) /\
    command_line (request opts) = Request "defrag" "/dev/sdb1" "ntfs" forwarded /\
    helper_command "operation-engine" (request opts') 1000 = Value (mkCommand kOperationEngine (request opts')) /\
    command_line (request opts') = ShowVersion.
Proof.
  set (common := [OFilesystem "ext4"; OWrite; OConfirm "/dev/sdb1";
                  OJournal "/var/lib/defragmenter/state/1000/a.journal"]).
  exists (common ++ [OTuning "--batch-clusters" "--filesystem=ntfs"]),
    (common ++ [OTuning "--ram-buffer" "--version"]). eexists.
  cbv zeta. split_and!; vm_compute; reflexivity.
Qed.

(** ** Witnesses *)

(** [Device.image_host], with the engine installed beside its workers. *)
Definition engine_host (X : Type) (e : engineE X) (s : unit) : X * unit :=
  (match e in engineE X return X with
   | EngineLoad e =>
       match e in loadE X return X with
       | LSys e => fst (image_host _ e tt)
       | e => fst (demo_loader _ e tt)
       end
   | EngineRuntime e =>
       match e in runtimeE X return X with
       | RuntimeGetenv _ => None
       | ReadSelfExe => Some "/System/Commands/Defragmenter/defragmenter-operation-engine"%string
       | ExecutableFile _ => true
       end
   | Setenv _ _ => tt
   | Execv _ => None
   | PutsLine _ => tt
   | PutsError _ => tt
   end, s).

Definition demo_engine_arguments : list string := ["defrag"; "/img"; "--filesystem"; "ext4"; "--write"]%string.

Definition demo_engine :=
  execute engine_host (main (common := infiltratr_reference) "1" (fun _ => "error"%string) demo_engine_arguments) tt.

Definition demo_worker_path : string := Eval vm_compute in
  match List.last (snd demo_engine) (Event (Setenv "" "") tt) with
  | Event (Execv (worker :: _)) _ => worker
  | _ => ""
  end.

Lemma engine_starts_checked_witness :
  start_allowed (common := infiltratr_reference) "defrag" "/img" "ext4" ["--write"%string]
    (removelast (snd demo_engine)) _ (Execv [demo_worker_path; "defrag"; "/img"; "--write"]%string).
Proof.
  pose proof (execute_runs engine_host
    (main (common := infiltratr_reference) "1" (fun _ => "error"%string) demo_engine_arguments) tt) as Hr.
  destruct (engine_starts_checked (H := infiltratr_reference) "1" (fun _ => "error"%string) demo_engine_arguments
    (removelast (snd demo_engine)) _ (Execv [demo_worker_path; "defrag"; "/img"; "--write"]%string) None []
    (fst demo_engine)) as (operation & device & filesystem & forwarded & E & Ha).
  - replace (_ ++ _) with (snd demo_engine) by (vm_compute; reflexivity). exact Hr.
  - intros Hq. exact Hq.
  - vm_compute in E. injection E as <- <- <- <-. exact Ha.
Defined.

Definition demo_options : list option_group :=
  [OFilesystem "ext4"; OWrite; OConfirm "/dev/sdb1"; OJournal "/var/lib/defragmenter/state/1000/a.journal";
   OTuning "--live-map-cells" "256"].

Lemma demo_authorised : authorised "defrag" "/dev/sdb1" demo_options 1000.
Proof.
  split; try reflexivity; (eexists; split; [reflexivity|]); [reflexivity|].
  split_and!; vm_compute; reflexivity.
Qed.

Lemma engine_obeys_helper_witness :
  command_line ("defrag" :: "/dev/sdb1" :: flatten demo_options)%string =
  Request "defrag" "/dev/sdb1" "ext4" (flatten (List.filter passed demo_options)).
Proof.
  destruct (engine_obeys_helper "defrag" "/dev/sdb1" demo_options 1000 demo_authorised) as (f & [= <-] & _ & H);
    [reflexivity|exact H].
Defined.

Lemma desktop_request_reaches_engine_witness :
  exists backend spec args,
    desktop_mutation demo_volume "growth-defrag" "engine"
      (desktop_journal (digest := sha256_zero) demo_volume 1000) 4096 false = Value ("engine"%string :: args) /\
    chosen "growth-defrag" "vfat" (Plugin backend spec) /\
    command_line args = Request "growth-defrag" "/dev/sdb1" "vfat"
      (mutation_tail demo_volume "growth-defrag" (desktop_journal (digest := sha256_zero) demo_volume 1000) 4096 spec).
Proof.
  eassert (H : desktop_mutation demo_volume "growth-defrag" "engine"
      (desktop_journal (digest := sha256_zero) demo_volume 1000) 4096 false = Value ("engine"%string :: _))
    by (vm_compute; reflexivity).
  destruct (desktop_request_reaches_engine (D := sha256_zero_laws) demo_volume "growth-defrag" "engine" 1000 4096
    false _ eq_refl H) as (backend & spec & H1 & H2).
  eexists backend, spec, _. split; [exact H|]. split; [exact H1|exact H2].
Defined.
