(* ===== verification/MapRanges.v ===== *)
(** The allocation ranges of [native/map.cpp]: merging, complement and the
    aggregation of ranges into the cells of a map. *)
From S2P Require Import Prelude Exceptions.
From stdpp Require Import sorting list_numbers.
#[local] Open Scope Z_scope.

(** ** Data *)

Record UnitRange := mkRange { start : Z; end_ : Z }.
Record StateRange := mkState { range : UnitRange; state : Z }.

(** The comparisons given to [std::sort]: lexicographic, with equality. *)
Definition range_le (a b : UnitRange) : Prop := start a < start b \/ (start a = start b /\ end_ a <= end_ b).
Definition state_le (a b : StateRange) : Prop :=
  start (range a) < start (range b) \/
  (start (range a) = start (range b) /\
   (end_ (range a) < end_ (range b) \/ (end_ (range a) = end_ (range b) /\ state a <= state b))).

#[export] Instance range_le_dec a b : Decision (range_le a b).
Proof. unfold range_le. apply _. Defined.
#[export] Instance state_le_dec a b : Decision (state_le a b).
Proof. unfold state_le. apply _. Defined.

(** ** Merging *)

(** One range of the loop of [merge_ranges]; [merged] holds its back first. *)
Definition merge_step (merged : list UnitRange) (r : UnitRange) : list UnitRange :=
  if end_ r <=? start r then merged
  else
    match merged with
    | back :: rest =>
        if start r <=? end_ back then mkRange (start back) (Z.max (end_ back) (end_ r)) :: rest
        else r :: merged
    | [] => [r]
    end.

Definition merge_ranges (ranges : list UnitRange) : list UnitRange :=
  rev (foldl merge_step [] (merge_sort range_le ranges)).

(** The loop of [complement_ranges] from [cursor] on; it stops at the end. *)
Fixpoint complement_from (total_units cursor : Z) (occupied : list UnitRange) : list UnitRange :=
  match occupied with
  | [] => if cursor <? total_units then [mkRange cursor total_units] else []
  | r :: occupied =>
      let s := Z.min total_units (start r) in
      let e := Z.min total_units (end_ r) in
      let after := Z.max cursor e in
      (if cursor <? s then [mkRange cursor s] else []) ++
      (if total_units <=? after then [] else complement_from total_units after occupied)
  end.

Definition complement_ranges (total_units : Z) (occupied : list UnitRange) : list UnitRange :=
  complement_from total_units 0 (merge_ranges occupied).

(** ** Cells *)

Definition cell_boundary (index total count : Z) : exc Z :=
  if count =? 0 then Throw "zero map-cell count"
  else
    let quotient := total / count in
    let remainder := total mod count in
    Value ((index *64 quotient) +64 ((index *64 remainder) / count)).

(** One range of the loop that orders the states; [ordered] holds its back
    first. *)
Definition order_step (total_units : Z) (ordered : list StateRange) (r : StateRange) : exc (list StateRange) :=
  let s := Z.min (start (range r)) total_units in
  let e := Z.min (end_ (range r)) total_units in
  if e <=? s then Value ordered
  else if 3 <? state r then Throw "invalid allocation state"
  else
    match ordered with
    | back :: rest =>
        if s <? end_ (range back) then Throw "overlapping allocation-state ranges"
        else if (s =? end_ (range back)) && (state r =? state back)
        then Value (mkState (mkRange (start (range back)) e) (state back) :: rest)
        else Value (mkState (mkRange s e) (state r) :: ordered)
    | [] => Value [mkState (mkRange s e) (state r)]
    end.

Fixpoint order_loop (total_units : Z) (ordered ranges : list StateRange) : exc (list StateRange) :=
  match ranges with
  | [] => Value (rev ordered)
  | r :: ranges => ordered ← order_step total_units ordered r; order_loop total_units ordered ranges
  end.

Definition order_ranges (total_units : Z) (ranges : list StateRange) : exc (list StateRange) :=
  order_loop total_units [] (merge_sort state_le ranges).

(** [counts[state]] of a cell: free, used, unknown and bad. *)
Record Counts := mkCounts { c_free : Z; c_used : Z; c_unknown : Z; c_bad : Z }.

Definition no_counts : Counts := mkCounts 0 0 0 0.

Definition count_at (counts : Counts) (s : Z) : Z :=
  if s =? 0 then c_free counts else if s =? 1 then c_used counts
  else if s =? 2 then c_unknown counts else c_bad counts.

(** [counts[s] += n]. *)
Definition add_count (s n : Z) (counts : Counts) : Counts :=
  let 'mkCounts f u k b := counts in
  if s =? 0 then mkCounts (f +64 n) u k b else if s =? 1 then mkCounts f (u +64 n) k b
  else if s =? 2 then mkCounts f u (k +64 n) b else mkCounts f u k (b +64 n).

(** [range_index] moves past the ranges that end before the cell. *)
Fixpoint skip_ranges (cell_start : Z) (ordered : list StateRange) : list StateRange :=
  match ordered with
  | r :: rest => if end_ (range r) <=? cell_start then skip_ranges cell_start rest else ordered
  | [] => []
  end.

(** The inner loop over the ranges that meet the cell. *)
Fixpoint count_ranges (cell_start cell_end cursor : Z) (counts : Counts) (ordered : list StateRange) : Z * Counts :=
  match ordered with
  | r :: rest =>
      if start (range r) <? cell_end then
        let overlap_start := Z.max cell_start (start (range r)) in
        let overlap_end := Z.min cell_end (end_ (range r)) in
        let counts :=
          if cursor <? overlap_start then add_count 2 (overlap_start -64 cursor) counts else counts in
        let '(cursor, counts) :=
          if overlap_start <? overlap_end
          then (Z.max cursor overlap_end, add_count (state r) (overlap_end -64 overlap_start) counts)
          else (cursor, counts) in
        if cell_end <? end_ (range r) then (cursor, counts)
        else count_ranges cell_start cell_end cursor counts rest
      else (cursor, counts)
  | [] => (cursor, counts)
  end.

Definition cell_counts (cell_start cell_end : Z) (ordered : list StateRange) : Counts :=
  let '(cursor, counts) := count_ranges cell_start cell_end cell_start no_counts ordered in
  if cursor <? cell_end then add_count 2 (cell_end -64 cursor) counts else counts.

Definition add_counts (a b : Counts) : Counts :=
  mkCounts (c_free a +64 c_free b) (c_used a +64 c_used b) (c_unknown a +64 c_unknown b) (c_bad a +64 c_bad b).

(** A cell of the map and the totals so far. *)
Record Cell := mkCell { cell_start : Z; cell_end : Z; cell_count_of : Counts }.

(** [n] cells from [index] on. *)
Fixpoint cells_loop (n : nat) (index total_units cell_count : Z) (ordered : list StateRange) (totals : Counts) :
    exc (list Cell * Counts) :=
  match n with
  | O => Value ([], totals)
  | S n =>
      s ← cell_boundary index total_units cell_count;
      e ← cell_boundary (index +64 1) total_units cell_count;
      let ordered := skip_ranges s ordered in
      let counts := cell_counts s e ordered in
      '(cells, totals) ← cells_loop n (index +64 1) total_units cell_count ordered (add_counts totals counts);
      Value (mkCell s e counts :: cells, totals)
  end.

Definition clamp_cells (cell_count total_units : Z) : Z := Z.max 1 (Z.min cell_count (Z.min total_units SIZE_MAX)).

(** The cells and totals of [aggregate_ranges]. *)
Definition aggregate_cells (total_units cell_count : Z) (ranges : list StateRange) : exc (list Cell * Counts) :=
  if total_units =? 0 then Throw "allocation-unit count must be positive"
  else
    let cell_count := clamp_cells cell_count total_units in
    ordered ← order_ranges total_units ranges;
    cells_loop (Z.to_nat cell_count) 0 total_units cell_count ordered no_counts.

(** ** Overlays *)

(** The ranges that end before a cell are passed for good. *)
Fixpoint skip_merged (cell_start : Z) (merged : list UnitRange) : list UnitRange :=
  match merged with
  | r :: rest => if end_ r <=? cell_start then skip_merged cell_start rest else merged
  | [] => []
  end.

Fixpoint overlap_units (cell_start cell_end overlap : Z) (merged : list UnitRange) : Z :=
  match merged with
  | r :: rest =>
      if start r <? cell_end then
        let overlap := overlap +64 Z.max 0 (Z.min cell_end (end_ r) -64 Z.max cell_start (start r)) in
        if cell_end <? end_ r then overlap else overlap_units cell_start cell_end overlap rest
      else overlap
  | [] => overlap
  end.

Definition total_of (merged : list UnitRange) : Z := foldl (fun total r => total +64 (end_ r -64 start r)) 0 merged.

(** ** Lemmas: sets of units *)

(** [x] lies in one of the ranges. *)
Definition covered (ranges : list UnitRange) (x : Z) : bool :=
  existsb (fun r => (start r <=? x) && (x <? end_ r)) ranges.

(** Non-empty ranges in order, with a gap between any two. *)
Definition normal (ranges : list UnitRange) : Prop :=
  Forall (fun r => start r < end_ r) ranges /\ StronglySorted (fun a b => end_ a < start b) ranges.

Lemma covered_iff ranges x :
  covered ranges x = true <-> exists r, In r ranges /\ start r <= x < end_ r.
Proof.
  unfold covered. rewrite existsb_exists. split; intros (r & Hr & H); exists r; (split; [done|]).
  - breflect. lia.
  - apply andb_true_iff. rewrite Z.leb_le, Z.ltb_lt. lia.
Qed.

Lemma covered_app a b x : covered (a ++ b) x = covered a x || covered b x.
Proof. apply existsb_app. Qed.

Lemma covered_perm a b x : a ≡ₚ b -> covered a x = covered b x.
Proof.
  intros H. apply Bool.eq_iff_eq_true. rewrite !covered_iff.
  split; intros (r & Hr & Hx); exists r; (split; [|done]); (eapply Permutation_in; [|exact Hr]); done.
Qed.

Lemma StronglySorted_rev {A} (R : relation A) l :
  StronglySorted R (rev l) <-> StronglySorted (fun a b => R b a) l.
Proof.
  induction l as [|x l IH]; [split; intros _; constructor|]. cbn [rev].
  rewrite StronglySorted_app, (StronglySorted_cons (fun a b => R b a)), IH, List.Forall_forall. split.
  - intros (H1 & H2 & _). split; [|done]. intros y Hy.
    apply H1; [by apply list_elem_of_In, in_rev; rewrite rev_involutive|by apply list_elem_of_singleton].
  - intros [H1 H2]. split_and!; [|done|repeat constructor].
    intros y z Hy Hz. apply list_elem_of_singleton in Hz as ->. apply H1, in_rev. by apply list_elem_of_In.
Qed.

Lemma Forall_rev_iff {A} (P : A -> Prop) l : Forall P (rev l) <-> Forall P l.
Proof. split; intros H; [rewrite <- (rev_involutive l)|]; by apply Forall_rev. Qed.

Lemma normal_cons r l :
  normal (r :: l) <-> start r < end_ r /\ Forall (fun s => end_ r < start s) l /\ normal l.
Proof. unfold normal. rewrite Forall_cons, StronglySorted_cons. tauto. Qed.

Lemma normal_nil : normal [].
Proof. split; constructor. Qed.

(** Ranges from [c] on lie above what ends before [c]. *)
Lemma covered_below c l x :
  Forall (fun r => c < start r) l -> x <= c -> covered l x = false.
Proof.
  intros Hl Hx. apply not_true_is_false. rewrite covered_iff. intros (r & Hr & H).
  rewrite List.Forall_forall in Hl. specialize (Hl _ Hr). simpl in Hl. lia.
Qed.

Lemma covered_cons r l x : covered (r :: l) x = (start r <=? x) && (x <? end_ r) || covered l x.
Proof. done. Qed.

(** A set of units has one normal form. *)
Lemma normal_unique a b : normal a -> normal b -> (forall x, covered a x = covered b x) -> a = b.
Proof.
  assert (Hhead : forall r l s m, normal (r :: l) -> normal (s :: m) ->
    (forall x, covered (r :: l) x = covered (s :: m) x) -> start s <= start r).
  { intros r l s m Hr Hs H. apply normal_cons in Hr as (Hr & _ & _). apply normal_cons in Hs as (Hs & Hm & _).
    specialize (H (start r)). rewrite (covered_cons r), (proj2 (Z.leb_le _ _) (Z.le_refl _)),
      (proj2 (Z.ltb_lt _ _) Hr) in H. cbn [andb orb] in H. symmetry in H. apply covered_iff in H as (t & [<-|Ht] & Hx); [lia|].
    rewrite List.Forall_forall in Hm. specialize (Hm _ Ht). simpl in Hm. lia. }
  assert (Hend : forall r l s m, normal (r :: l) -> normal (s :: m) -> start r = start s ->
    (forall x, covered (r :: l) x = covered (s :: m) x) -> end_ s <= end_ r).
  { intros r l s m Hr Hs E H. apply normal_cons in Hr as (Hr & Hl & _). apply normal_cons in Hs as (Hs & _ & _).
    destruct (Z.le_gt_cases (end_ s) (end_ r)) as [|Hlt]; [done|]. specialize (H (end_ r)).
    rewrite !covered_cons, (covered_below _ l _ Hl (Z.le_refl _)) in H.
    rewrite Z.ltb_irrefl, andb_false_r in H. symmetry in H. apply orb_false_iff in H as [H _].
    apply andb_false_iff in H as [H|H]; breflect; lia. }
  revert b. induction a as [|r l IH]; intros [|s m] Ha Hb H; [done|..].
  - apply normal_cons in Hb as (Hs & _). specialize (H (start s)).
    rewrite covered_cons, (proj2 (Z.leb_le _ _) (Z.le_refl _)), (proj2 (Z.ltb_lt _ _) Hs) in H. done.
  - apply normal_cons in Ha as (Hs & _). specialize (H (start r)).
    rewrite covered_cons, (proj2 (Z.leb_le _ _) (Z.le_refl _)), (proj2 (Z.ltb_lt _ _) Hs) in H. done.
  - assert (H' : forall x, covered (s :: m) x = covered (r :: l) x) by (intros; by rewrite H).
    pose proof (Hhead _ _ _ _ Ha Hb H). pose proof (Hhead _ _ _ _ Hb Ha H').
    assert (E : start r = start s) by lia.
    pose proof (Hend _ _ _ _ Ha Hb E H). pose proof (Hend _ _ _ _ Hb Ha (eq_sym E) H').
    destruct r as [r1 r2], s as [s1 s2]; cbn [start end_] in *. replace s1 with r1 in * by lia. replace s2 with r2 in * by lia.
    f_equal. apply normal_cons in Ha as (Hr & Hl & Ha), Hb as (_ & Hm & Hb). apply IH; [done..|].
    intros x. destruct (Z.le_gt_cases x r2) as [Hx|Hx].
    + by rewrite (covered_below _ _ _ Hl Hx), (covered_below _ _ _ Hm Hx).
    + specialize (H x). rewrite !covered_cons in H. cbn [start end_] in H.
      rewrite (proj2 (Z.ltb_ge x r2)) in H by lia. by rewrite andb_false_r in H.
Qed.

(** *** Merging *)

Lemma merge_steps rs acc :
  StronglySorted range_le rs -> normal (rev acc) ->
  (forall back rest, acc = back :: rest -> Forall (fun r => start back <= start r) rs) ->
  normal (rev (foldl merge_step acc rs)) /\
  forall x, covered (foldl merge_step acc rs) x = covered acc x || covered rs x.
Proof.
  revert acc. induction rs as [|r rs IH]; intros acc Hs Hn Hb.
  { split; [done|]. intros x. by rewrite orb_false_r. }
  apply StronglySorted_cons in Hs as [Hr Hs]. cbn [foldl].
  assert (Hstarts : Forall (fun s => start r <= start s) rs).
  { eapply Forall_impl; [exact Hr|]. intros s [H|[H _]]; simpl; lia. }
  unfold merge_step at 2 4. destruct (Z.leb_spec (end_ r) (start r)) as [He|He].
  { destruct (IH acc Hs Hn) as [H1 H2]; [intros back rest E; by apply Hb in E; apply Forall_cons in E as [_ E]|].
    split; [done|]. intros x. rewrite H2, covered_cons. destruct (Z.leb_spec (start r) x); [|done].
    by rewrite (proj2 (Z.ltb_ge x (end_ r))) by lia. }
  destruct acc as [|back rest].
  { destruct (IH [r] Hs) as [H1 H2]; [|by intros ? ? [= <- <-]|split; [done|]; intros x; rewrite H2;
      by rewrite !covered_cons, orb_false_r].
    apply normal_cons. split; [done|]. split; [constructor|apply normal_nil]. }
  specialize (Hb _ _ eq_refl) as Hback. apply Forall_cons in Hback as [Hback Hbacks].
  unfold normal in Hn. rewrite Forall_rev_iff, StronglySorted_rev, Forall_cons, StronglySorted_cons in Hn.
  destruct Hn as [[Hne Hnes] [Hlt Hlts]]. destruct (Z.leb_spec (start r) (end_ back)) as [Hj|Hj].
  - set (joined := mkRange (start back) (Z.max (end_ back) (end_ r))).
    destruct (IH (joined :: rest) Hs) as [H1 H2].
    + unfold normal. rewrite Forall_rev_iff, StronglySorted_rev, Forall_cons, StronglySorted_cons.
      unfold joined. cbn. split; [split; [lia|done]|done].
    + by intros ? ? [= <- <-].
    + split; [done|]. intros x. rewrite H2, !covered_cons. unfold joined. cbn [start end_].
      destruct (covered rest x), (covered rs x); rewrite ?orb_true_r, ?orb_false_r; try done.
      apply Bool.eq_iff_eq_true. rewrite orb_true_iff, !andb_true_iff, !Z.leb_le, !Z.ltb_lt. lia.
  - destruct (IH (r :: back :: rest) Hs) as [H1 H2].
    + unfold normal. rewrite Forall_rev_iff, StronglySorted_rev, !Forall_cons, !StronglySorted_cons, Forall_cons.
      split_and!; try done. eapply Forall_impl; [exact Hlt|]. simpl. intros s Hs'.
      pose proof Hne. simpl in *. lia.
    + by intros ? ? [= <- <-].
    + split; [done|]. intros x. rewrite H2, !covered_cons.
      destruct (covered rest x), (covered rs x), ((start back <=? x) && _), ((start r <=? x) && _); done.
Qed.

Lemma range_le_total : Total range_le.
Proof. intros a b. unfold range_le. lia. Qed.
Lemma range_le_trans : Transitive range_le.
Proof. intros a b c. unfold range_le. lia. Qed.
#[local] Existing Instances range_le_total range_le_trans.

Lemma merge_ranges_spec ranges :
  normal (merge_ranges ranges) /\ forall x, covered (merge_ranges ranges) x = covered ranges x.
Proof.
  unfold merge_ranges. destruct (merge_steps (merge_sort range_le ranges) []) as [H1 H2];
    [apply (StronglySorted_merge_sort _)|apply normal_nil|done|].
  split; [done|]. intros x. rewrite (covered_perm _ _ x (Permutation_sym (Permutation_rev _))), H2.
  apply covered_perm, merge_sort_Permutation.
Qed.

(** *** Complement *)

(** What the loop leaves after [cursor], and where. *)
Definition gaps_in (lo hi : Z) (gaps : list UnitRange) : Prop :=
  normal gaps /\ Forall (fun g => lo <= start g /\ end_ g <= hi) gaps.

Lemma gaps_cons lo hi m g gaps :
  lo <= start g -> start g < end_ g -> end_ g < m -> end_ g <= hi -> gaps_in m hi gaps -> gaps_in lo hi (g :: gaps).
Proof.
  intros H1 H2 H3 H4 [Hn Hg]. unfold gaps_in. rewrite normal_cons, Forall_cons. split_and!; try done.
  - eapply Forall_impl; [exact Hg|]. simpl. intros. lia.
  - eapply Forall_impl; [exact Hg|]. simpl. intros. lia.
Qed.

Lemma gaps_weaken lo lo' hi gaps : lo <= lo' -> gaps_in lo' hi gaps -> gaps_in lo hi gaps.
Proof. intros H [Hn Hg]. split; [done|]. eapply Forall_impl; [exact Hg|]. simpl. intros. lia. Qed.

Lemma gaps_nil lo hi : gaps_in lo hi [].
Proof. split; [apply normal_nil|constructor]. Qed.

Lemma complement_from_spec total cursor occupied :
  normal occupied ->
  gaps_in cursor total (complement_from total cursor occupied) /\
  forall x, covered (complement_from total cursor occupied) x =
            (cursor <=? x) && (x <? total) && negb (covered occupied x).
Proof.
  revert cursor. induction occupied as [|r occupied IH]; intros cursor Hn; cbn [complement_from].
  - destruct (Z.ltb_spec cursor total).
    + split; [by eapply (gaps_cons _ _ (total + 1)); [..|apply gaps_nil]; cbn; lia|].
      intros x. rewrite covered_cons. cbn. by rewrite orb_false_r, andb_true_r.
    + split; [apply gaps_nil|]. intros x. cbn. destruct (Z.leb_spec cursor x), (Z.ltb_spec x total); [lia|done..].
  - apply normal_cons in Hn as (Hr & Hl & Hn). cbv zeta.
    set (s := Z.min total (start r)). set (e := Z.min total (end_ r)). set (after := Z.max cursor e).
    assert (Hrest : gaps_in after total (if total <=? after then [] else complement_from total after occupied) /\
      forall x, covered (if total <=? after then [] else complement_from total after occupied) x =
        (after <=? x) && (x <? total) && negb (covered occupied x)).
    { destruct (Z.leb_spec total after); [|by apply IH]. split; [apply gaps_nil|]. intros x. cbn.
      destruct (Z.leb_spec after x), (Z.ltb_spec x total); [lia|done..]. }
    destruct Hrest as [Hg Hc]. set (gaps := if total <=? after then _ else _) in *. clearbody gaps.
    assert (Hcov : forall x, after <= x -> covered occupied x = covered (r :: occupied) x \/ total <= x).
    { intros x Hx. rewrite covered_cons. destruct (Z.le_gt_cases total x); [by right|left].
      rewrite (proj2 (Z.ltb_ge x (end_ r))) by lia. by rewrite andb_false_r. }
    split.
    + destruct (Z.ltb_spec cursor s); [|eapply gaps_weaken; [|exact Hg]; lia].
      cbn [app]. destruct (Z.lt_ge_cases s after); [by eapply gaps_cons; [..|exact Hg]; cbn; lia|].
      assert (gaps = []) as ->; [|by eapply (gaps_cons _ _ (s + 1)); [..|apply gaps_nil]; cbn; lia].
      destruct gaps as [|g gaps]; [done|]. destruct Hg as [Hg1 Hg2]. apply normal_cons in Hg1 as (Hg1 & _).
      apply Forall_cons in Hg2 as [Hg2 _]. lia.
    + intros x. rewrite covered_app, Hc. 
      assert (Hfirst : covered (if cursor <? s then [mkRange cursor s] else []) x = (cursor <=? x) && (x <? s)).
      { destruct (Z.ltb_spec cursor s); [rewrite covered_cons; cbn; by rewrite orb_false_r|]. cbn.
        destruct (Z.leb_spec cursor x), (Z.ltb_spec x s); [lia|done..]. }
      rewrite Hfirst. destruct (Z.leb_spec after x) as [Hx|Hx].
      * destruct (Hcov x Hx) as [<-|Ht].
        -- rewrite (proj2 (Z.leb_le cursor x)) by lia. destruct (Z.ltb_spec x s); [|done].
           rewrite (proj2 (Z.ltb_lt x total)) by lia. lia.
        -- rewrite (proj2 (Z.ltb_ge x total)), (proj2 (Z.ltb_ge x s)) by lia. by rewrite !andb_false_r.
      * cbn [andb]. rewrite orb_false_r. destruct (Z.leb_spec cursor x); [|done]. cbn [andb].
        rewrite (proj2 (Z.ltb_lt x total)) by lia. rewrite covered_cons, (proj2 (Z.ltb_lt x (end_ r))) by lia.
        rewrite andb_true_r, (covered_below _ _ _ Hl) by lia. rewrite orb_false_r. cbn [andb].
        destruct (Z.ltb_spec x s), (Z.leb_spec (start r) x); try done; lia.
Qed.

(** *** Cell boundaries *)

Lemma cell_boundary_exact i total count :
  0 < count -> count < TWO32 -> is_u64 total -> 0 <= i <= count ->
  cell_boundary i total count = Value (i * total / count).
Proof.
  intros Hc Hc32 Ht Hi. unfold cell_boundary. rewrite (proj2 (Z.eqb_neq count 0)) by lia. f_equal.
  pose proof (Z.mod_pos_bound total count Hc) as Hm. pose proof (Z.div_mod total count ltac:(lia)) as Hd.
  unfold is_u64 in Ht. pose proof (Z.div_pos total count ltac:(lia) Hc) as Hq.
  assert (H1 : i * (total / count) <= count * (total / count)) by nia.
  assert (H2 : i * (total mod count) <= count * (total mod count)) by nia.
  assert (H3 : count * (total mod count) < TWO64) by nia.
  rewrite (u64_small (i * (total / count))), (u64_small (i * (total mod count))) by (unfold is_u64; nia).
  assert (Hsum : i * total / count = i * (total / count) + i * (total mod count) / count).
  { rewrite <- Z.div_add_l by lia. f_equal. rewrite Hd at 1. ring. }
  rewrite <- Hsum. apply u64_small. split; [apply Z.div_pos; nia|].
  apply Z.le_lt_trans with total; [|lia]. apply Z.div_le_upper_bound; nia.
Qed.

Lemma boundary_mono i total count :
  0 < count -> 0 <= total -> 0 <= i -> i * total / count <= (i + 1) * total / count.
Proof. intros. apply Z.div_le_mono; nia. Qed.

(** No cell is empty when there are at least as many units as cells. *)
Lemma boundary_strict i total count :
  0 < count -> count <= total -> 0 <= i -> i * total / count < (i + 1) * total / count.
Proof.
  intros Hc Ht Hi. assert (H : i * total / count + 1 <= (i + 1) * total / count); [|lia].
  rewrite <- Z.div_add by lia. apply Z.div_le_mono; nia.
Qed.

(** ** Lemmas: counting units

    The state of every unit is a function; a count is the number of units of an
    interval where it has a value. *)

Definition units (f : Z -> Z) (s lo hi : Z) : Z :=
  Z.of_nat (length (List.filter (fun x => f x =? s) (seqZ lo (hi - lo)))).

Lemma units_split f s lo mid hi : lo <= mid -> mid <= hi -> units f s lo hi = units f s lo mid + units f s mid hi.
Proof.
  intros H1 H2. unfold units. replace (hi - lo) with ((mid - lo) + (hi - mid)) by lia.
  rewrite seqZ_app by lia. rewrite List.filter_app, length_app. replace (lo + (mid - lo)) with mid by lia. lia.
Qed.

Lemma units_const f s c lo hi :
  lo <= hi -> (forall x, lo <= x < hi -> f x = c) -> units f s lo hi = if c =? s then hi - lo else 0.
Proof.
  intros Hle Hf. unfold units.
  assert (H : List.filter (fun x => f x =? s) (seqZ lo (hi - lo)) = if c =? s then seqZ lo (hi - lo) else []).
  { assert (Hall : Forall (fun x => f x = c) (seqZ lo (hi - lo))).
    { apply Forall_seqZ. intros x Hx. apply Hf. lia. }
    induction Hall as [|x l Hx _ IH]; [by destruct (c =? s)|]. cbn [List.filter].
    rewrite Hx, IH. by destruct (c =? s). }
  rewrite H. destruct (c =? s); [rewrite length_seqZ; lia|done].
Qed.

Lemma units_nonneg f s lo hi : 0 <= units f s lo hi.
Proof. unfold units. lia. Qed.

Lemma units_le f s lo hi : lo <= hi -> units f s lo hi <= hi - lo.
Proof.
  intros H. unfold units. pose proof (List.filter_length_le (fun x => f x =? s) (seqZ lo (hi - lo))) as Hl.
  rewrite length_seqZ in Hl. lia.
Qed.

Lemma units_empty f s lo : units f s lo lo = 0.
Proof. unfold units. by rewrite Z.sub_diag. Qed.

(** The counts of a part of a cell. *)
Definition counts_ok (f : Z -> Z) (lo hi : Z) (counts : Counts) : Prop :=
  forall s, 0 <= s <= 3 -> count_at counts s = units f s lo hi.

Lemma count_at_add s s' n counts :
  0 <= s <= 3 -> 0 <= s' <= 3 ->
  count_at (add_count s n counts) s' = if s' =? s then count_at counts s' +64 n else count_at counts s'.
Proof.
  intros Hs Hs'. destruct counts as [f u k b]. unfold add_count, count_at.
  assert (s = 0 \/ s = 1 \/ s = 2 \/ s = 3) as [-> | [-> | [-> | ->]]] by lia;
    assert (s' = 0 \/ s' = 1 \/ s' = 2 \/ s' = 3) as [-> | [-> | [-> | ->]]] by lia; done.
Qed.

Lemma counts_ok_none f lo : counts_ok f lo lo no_counts.
Proof.
  intros s Hs. rewrite units_empty.
  assert (s = 0 \/ s = 1 \/ s = 2 \/ s = 3) as [-> | [-> | [-> | ->]]] by lia; done.
Qed.

(** More units of one state. *)
Lemma counts_ok_extend f a lo hi s counts :
  0 <= a -> a <= lo -> lo <= hi -> is_u64 hi -> 0 <= s <= 3 -> (forall x, lo <= x < hi -> f x = s) ->
  counts_ok f a lo counts -> counts_ok f a hi (add_count s (hi -64 lo) counts).
Proof.
  intros Ha H1 H2 Hu Hs Hf Hc s' Hs'. rewrite count_at_add by done.
  rewrite (units_split f s' a lo hi), <- (Hc s'), (units_const f s' s lo hi) by (done || lia).
  unfold is_u64 in Hu. pose proof (units_nonneg f s' a lo) as Hn. pose proof (units_le f s' a lo H1) as Hl.
  rewrite <- (Hc s' Hs') in Hn, Hl. rewrite (Z.eqb_sym s s').
  destruct (s' =? s); [|lia]. rewrite (u64_small (hi - lo)) by (unfold is_u64; lia).
  apply u64_small. unfold is_u64. lia.
Qed.

(** *** Ordered states *)

Definition covers (x : Z) (r : StateRange) : bool := (start (range r) <=? x) && (x <? end_ (range r)).

(** The state of a unit, unknown where no range is, and how often it is given. *)
Definition state_of (ranges : list StateRange) (x : Z) : Z :=
  match List.filter (covers x) ranges with [] => 2 | r :: _ => state r end.
Definition depth (ranges : list StateRange) (x : Z) : nat := length (List.filter (covers x) ranges).

Definition tiled (ordered : list StateRange) : Prop :=
  Forall (fun r => start (range r) < end_ (range r) /\ 0 <= state r <= 3) ordered /\
  StronglySorted (fun a b => end_ (range a) <= start (range b)) ordered.

Lemma tiled_cons r l :
  tiled (r :: l) <-> start (range r) < end_ (range r) /\ 0 <= state r <= 3 /\
                    Forall (fun s => end_ (range r) <= start (range s)) l /\ tiled l.
Proof. unfold tiled. rewrite Forall_cons, StronglySorted_cons. tauto. Qed.

Lemma state_of_cons r l x : state_of (r :: l) x = if covers x r then state r else state_of l x.
Proof. unfold state_of. cbn [List.filter]. by destruct (covers x r). Qed.

Lemma covers_spec x r : covers x r = true <-> start (range r) <= x < end_ (range r).
Proof. unfold covers. rewrite andb_true_iff, Z.leb_le, Z.ltb_lt. done. Qed.

Lemma covers_false x r : x < start (range r) \/ end_ (range r) <= x -> covers x r = false.
Proof. intros H. apply not_true_is_false. rewrite covers_spec. lia. Qed.

Lemma state_of_below l x : Forall (fun s => x < start (range s)) l -> state_of l x = 2.
Proof.
  induction 1 as [|r l Hr _ IH]; [done|]. rewrite state_of_cons, covers_false by (left; done). done.
Qed.

Lemma depth_below l x : Forall (fun s => x < start (range s)) l -> depth l x = 0%nat.
Proof.
  induction 1 as [|r l Hr _ IH]; [done|]. unfold depth in *. cbn [List.filter].
  by rewrite covers_false by (left; done).
Qed.

(** Passing the ranges before a cell. *)
Lemma skip_ranges_spec a ordered :
  tiled ordered ->
  tiled (skip_ranges a ordered) /\ Forall (fun r => a < end_ (range r)) (skip_ranges a ordered) /\
  forall x, a <= x -> state_of (skip_ranges a ordered) x = state_of ordered x.
Proof.
  induction ordered as [|r ordered IH]; intros Ht; cbn [skip_ranges]; [by repeat split; constructor|].
  pose proof Ht as Ht'. apply tiled_cons in Ht' as (Hr & _ & Hl & Hn).
  destruct (Z.leb_spec (end_ (range r)) a) as [He|He].
  - destruct (IH Hn) as (H1 & H2 & H3). split_and!; [done|done|]. intros x Hx.
    by rewrite H3, state_of_cons, covers_false by lia.
  - split_and!; [done| |done]. constructor; [done|]. destruct Hn as [Hn _].
    rewrite List.Forall_forall in *. intros s Hs. specialize (Hl _ Hs). specialize (Hn _ Hs). simpl in *. lia.
Qed.

(** The inner loop counts what it passes. *)
Lemma count_ranges_spec f a b ordered cursor counts :
  0 <= a -> a <= cursor <= b -> a < b -> is_u64 b -> tiled ordered ->
  Forall (fun r => a < end_ (range r) /\ cursor <= Z.max a (start (range r))) ordered ->
  counts_ok f a cursor counts -> (forall x, cursor <= x < b -> f x = state_of ordered x) ->
  let '(cursor', counts') := count_ranges a b cursor counts ordered in
  cursor <= cursor' <= b /\ counts_ok f a cursor' counts' /\ forall x, cursor' <= x < b -> f x = 2.
Proof.
  intros Ha Hcur Hab Hb. revert cursor counts Hcur.
  induction ordered as [|r ordered IH]; intros cursor counts Hcur Ht Hin Hc Hf; cbn [count_ranges].
  { split_and!; [lia|lia|done|done]. }
  apply tiled_cons in Ht as (Hr & Hstate & Hl & Ht). apply Forall_cons in Hin as [[Hend Hos] Hin].
  unfold is_u64 in Hb. destruct (Z.ltb_spec (start (range r)) b) as [Hs|Hs].
  2:{ split_and!; [lia|lia|done|]. intros x Hx. rewrite Hf by done. apply state_of_below.
      constructor; [lia|]. eapply Forall_impl; [exact Hl|]. simpl. intros. lia. }
  cbv zeta. set (os := Z.max a (start (range r))) in *. set (oe := Z.min b (end_ (range r))).
  assert (Hgap : counts_ok f a os (if cursor <? os then add_count 2 (os -64 cursor) counts else counts)).
  { destruct (Z.ltb_spec cursor os); [|by replace os with cursor by lia].
    apply counts_ok_extend; unfold is_u64; try lia; [|done]. intros x Hx. rewrite Hf by lia.
    apply state_of_below. constructor; [lia|]. eapply Forall_impl; [exact Hl|]. simpl. intros. lia. }
  set (counts1 := if cursor <? os then _ else _) in *. clearbody counts1.
  rewrite (proj2 (Z.ltb_lt os oe)), (Z.max_r cursor oe) by lia.
  assert (Hover : counts_ok f a oe (add_count (state r) (oe -64 os) counts1)).
  { apply counts_ok_extend; unfold is_u64; try lia; [|done]. intros x Hx. rewrite Hf by lia.
    by rewrite state_of_cons, (proj2 (covers_spec x r)) by lia. }
  destruct (Z.ltb_spec b (end_ (range r))) as [Hbr|Hbr].
  { split_and!; [lia|lia|done|]. intros x Hx. lia. }
  assert (Hcall : let '(cursor', counts') := count_ranges a b oe (add_count (state r) (oe -64 os) counts1) ordered in
    oe <= cursor' <= b /\ counts_ok f a cursor' counts' /\ forall x, cursor' <= x < b -> f x = 2).
  { apply IH; [lia|done| |done|].
    - rewrite List.Forall_forall in *. intros s Hins. specialize (Hin _ Hins). specialize (Hl _ Hins).
      simpl in *. lia.
    - intros x Hx. rewrite Hf by lia. by rewrite state_of_cons, covers_false by lia. }
  destruct (count_ranges a b oe _ ordered) as [cursor' counts']. destruct Hcall as (H1 & H2 & H3).
  split_and!; [lia|lia|done|done].
Qed.

Lemma cell_counts_spec f a b ordered :
  0 <= a -> a < b -> is_u64 b -> tiled ordered ->
  Forall (fun r => a < end_ (range r)) ordered -> (forall x, a <= x < b -> f x = state_of ordered x) ->
  counts_ok f a b (cell_counts a b ordered).
Proof.
  intros Ha Hab Hb Ht Hin Hf. unfold cell_counts.
  pose proof (count_ranges_spec f a b ordered a no_counts Ha ltac:(lia) Hab Hb Ht) as H.
  destruct (count_ranges a b a no_counts ordered) as [cursor counts].
  destruct H as (H1 & H2 & H3); [|apply counts_ok_none|done|].
  { eapply Forall_impl; [exact Hin|]. simpl. intros. lia. }
  destruct (Z.ltb_spec cursor b); [|by replace b with cursor by lia].
  apply counts_ok_extend; try done; try lia.
Qed.

(** *** Cells *)

(** Consecutive non-empty cells from [lo] to [hi] whose counts are exact. *)
Fixpoint cells_exact (f : Z -> Z) (lo hi : Z) (cells : list Cell) : Prop :=
  match cells with
  | [] => lo = hi
  | c :: cells =>
      cell_start c = lo /\ lo < cell_end c /\ counts_ok f lo (cell_end c) (cell_count_of c) /\
      cells_exact f (cell_end c) hi cells
  end.

Lemma counts_ok_sum f a m b x y :
  a <= m -> m <= b -> 0 <= a -> is_u64 b -> counts_ok f a m x -> counts_ok f m b y -> counts_ok f a b (add_counts x y).
Proof.
  intros H1 H2 Ha Hb Hx Hy s Hs. rewrite (units_split f s a m b), <- (Hx s), <- (Hy s) by done.
  assert (E : count_at (add_counts x y) s = count_at x s +64 count_at y s).
  { assert (s = 0 \/ s = 1 \/ s = 2 \/ s = 3) as [-> | [-> | [-> | ->]]] by lia; done. }
  rewrite E. apply u64_small. rewrite (Hx s), (Hy s) by done. unfold is_u64 in *.
  pose proof (units_nonneg f s a m). pose proof (units_nonneg f s m b).
  pose proof (units_le f s a m H1). pose proof (units_le f s m b H2). lia.
Qed.

Lemma cells_loop_spec f n i total count ordered totals :
  0 < count -> count < TWO32 -> count <= total -> is_u64 total -> 0 <= i -> i + Z.of_nat n = count ->
  tiled ordered -> (forall x, i * total / count <= x < total -> f x = state_of ordered x) ->
  counts_ok f 0 (i * total / count) totals ->
  exists cells totals', cells_loop n i total count ordered totals = Value (cells, totals') /\
    length cells = n /\ cells_exact f (i * total / count) total cells /\ counts_ok f 0 total totals'.
Proof.
  intros Hc Hc32 Hct Ht. revert i ordered totals. induction n as [|n IH]; intros i ordered totals Hi Hn Htl Hf Hk.
  { exists [], totals. replace i with count in * by lia. rewrite Z.mul_comm, Z.div_mul in * by lia. done. }
  pose proof (boundary_strict i total count Hc Hct Hi) as Hlt. cbn [cells_loop].
  assert (Ei : i +64 1 = i + 1) by (apply u64_small; unfold is_u64; lia).
  rewrite Ei, !cell_boundary_exact by (done || lia). cbn [mbind exc_bind].
  set (a := i * total / count) in *. set (b := (i + 1) * total / count) in *.
  assert (Hbt : b <= total) by (apply Z.div_le_upper_bound; nia).
  assert (Ha : 0 <= a) by (apply Z.div_pos; [unfold is_u64 in Ht; nia|lia]).
  assert (Hb : is_u64 b) by (unfold is_u64 in *; lia).
  destruct (skip_ranges_spec a ordered Htl) as (H1 & H2 & H3).
  assert (Hcell : counts_ok f a b (cell_counts a b (skip_ranges a ordered))).
  { apply cell_counts_spec; [done..|]. intros x Hx. rewrite H3 by lia. apply Hf. lia. }
  destruct (IH (i + 1) (skip_ranges a ordered) (add_counts totals (cell_counts a b (skip_ranges a ordered))))
    as (cells & totals' & E & Hlen & Hcells & Hk'); [lia|lia|done| |by apply (counts_ok_sum f 0 a b); try lia|].
  { intros x Hx. rewrite H3 by lia. apply Hf. lia. }
  rewrite E. cbn [mbind exc_bind]. eexists _, totals'. split; [reflexivity|]. split; [simpl; lia|].
  split; [|done]. cbn [cells_exact cell_start cell_end cell_count_of]. done.
Qed.

(** *** Ordering *)

Lemma filter_perm {A} (p : A -> bool) l l' : l ≡ₚ l' -> List.filter p l ≡ₚ List.filter p l'.
Proof.
  induction 1 as [|x l l' _ IH|x y l|l1 l2 l3 _ IH1 _ IH2]; cbn [List.filter]; [done|..].
  - destruct (p x); [by constructor|done].
  - destruct (p x), (p y); try done. apply perm_swap.
  - by etrans.
Qed.

Lemma state_of_perm l l' x : l ≡ₚ l' -> (depth l x <= 1)%nat -> state_of l x = state_of l' x.
Proof.
  intros Hp Hd. unfold state_of, depth in *. apply (filter_perm (covers x)) in Hp.
  destruct (List.filter (covers x) l) as [|r [|]]; simpl in Hd; [|..|lia].
  - by apply Permutation_nil in Hp as ->.
  - by apply Permutation_length_1_inv in Hp as ->.
Qed.

Lemma depth_perm l l' x : l ≡ₚ l' -> depth l x = depth l' x.
Proof. intros Hp. apply Permutation_length, (filter_perm (covers x)), Hp. Qed.

Lemma depth_app a b x : depth (a ++ b) x = (depth a x + depth b x)%nat.
Proof. unfold depth. by rewrite List.filter_app, length_app. Qed.

(** A range that is not empty below the end, with a state the map knows. *)
Definition known_state (total : Z) (r : StateRange) : Prop :=
  Z.min (start (range r)) total < Z.min (end_ (range r)) total -> state r <= 3.

(** What has been ordered, back first, describes the ranges already seen. *)
Record describes (total : Z) (ordered seen : list StateRange) : Prop := {
  d_tiled : tiled (rev ordered);
  d_below : Forall (fun r => end_ (range r) <= total) ordered;
  d_start : Forall (fun r => exists q, In q seen /\ start (range r) <= start (range q)) ordered;
  d_depth : forall x, 0 <= x < total -> depth seen x = depth (rev ordered) x;
  d_state : forall x, 0 <= x < total -> state_of seen x = state_of (rev ordered) x;
  d_once : forall x, 0 <= x < total -> (depth seen x <= 1)%nat;
}.

Lemma state_of_app a b x : state_of (a ++ b) x = if (depth a x =? 0)%nat then state_of b x else state_of a x.
Proof. unfold state_of, depth. rewrite List.filter_app. by destruct (List.filter (covers x) a). Qed.

Lemma depth_one r x : depth [r] x = if covers x r then 1%nat else 0%nat.
Proof. unfold depth. cbn [List.filter]. by destruct (covers x r). Qed.

Lemma depth_covered l r x : In r l -> covers x r = true -> (1 <= depth l x)%nat.
Proof.
  intros Hin Hc. unfold depth. assert (H : In r (List.filter (covers x) l)) by (by apply filter_In).
  destruct (List.filter (covers x) l); [done|simpl; lia].
Qed.

Lemma tiled_rev l :
  tiled (rev l) <-> Forall (fun r => start (range r) < end_ (range r) /\ 0 <= state r <= 3) l /\
                    StronglySorted (fun a b => end_ (range b) <= start (range a)) l.
Proof. unfold tiled. by rewrite Forall_rev_iff, StronglySorted_rev. Qed.

(** Ranges that cover the same units of the interval describe the same. *)
Lemma describes_next total ordered ordered' seen r :
  describes total ordered seen -> tiled (rev ordered') ->
  Forall (fun r => end_ (range r) <= total) ordered' ->
  Forall (fun q => exists p, In p (seen ++ [r]) /\ start (range q) <= start (range p)) ordered' ->
  (forall x, 0 <= x < total -> depth (rev ordered') x = (depth (rev ordered) x + depth [r] x)%nat) ->
  (forall x, 0 <= x < total -> state_of (rev ordered') x =
     if (depth (rev ordered) x =? 0)%nat then state_of [r] x else state_of (rev ordered) x) ->
  (forall x, 0 <= x < total -> (depth (rev ordered) x + depth [r] x <= 1)%nat) ->
  describes total ordered' (seen ++ [r]).
Proof.
  intros [H1 H2 H3 H4 H5 H6] Ht Hb Hs Hd Hst Ho. split; try done.
  - intros x Hx. by rewrite depth_app, Hd, H4.
  - intros x Hx. by rewrite state_of_app, Hst, H4, H5.
  - intros x Hx. rewrite depth_app, H4 by done. by apply Ho.
Qed.

Lemma seen_more (seen : list StateRange) r ordered :
  Forall (fun q => exists p, In p seen /\ start (range q) <= start (range p)) ordered ->
  Forall (fun q => exists p, In p (seen ++ [r]) /\ start (range q) <= start (range p)) ordered.
Proof. apply List.Forall_impl. intros q (p & Hp & Hle). exists p. split; [|done]. apply in_or_app. by left. Qed.

(** [s] and [e] are the clipped bounds of [r]. *)
Lemma clipped_covers total r x :
  0 <= x < total ->
  covers x r = (Z.min (start (range r)) total <=? x) && (x <? Z.min (end_ (range r)) total).
Proof.
  intros Hx. apply Bool.eq_iff_eq_true. rewrite covers_spec, andb_true_iff, Z.leb_le, Z.ltb_lt. lia.
Qed.

Lemma order_step_spec total ordered seen r :
  describes total ordered seen -> 0 <= start (range r) -> 0 <= state r ->
  Forall (fun q => start (range q) <= start (range r)) seen ->
  match order_step total ordered r with
  | Value ordered' => describes total ordered' (seen ++ [r]) /\ known_state total r
  | Throw _ => ~ known_state total r \/ exists x, 0 <= x < total /\ (2 <= depth (seen ++ [r]) x)%nat
  end.
Proof.
  intros Hd Hs0 Hst0 Hsorted. pose proof Hd as [H1 H2 H3 H4 H5 H6]. unfold order_step. cbv zeta.
  set (s := Z.min (start (range r)) total). set (e := Z.min (end_ (range r)) total).
  assert (Hc : forall x, 0 <= x < total -> covers x r = (s <=? x) && (x <? e)) by (intros; by apply clipped_covers).
  destruct (Z.leb_spec e s) as [He|He].
  { split; [|unfold known_state; lia].
    assert (Hn : forall x, 0 <= x < total -> covers x r = false).
    { intros x Hx. rewrite Hc by done. destruct (Z.leb_spec s x), (Z.ltb_spec x e); [lia|done..]. }
    eapply describes_next; try done; [by apply seen_more|..]; intros x Hx; rewrite ?depth_one, ?state_of_cons, Hn by done.
    - lia.
    - destruct (Nat.eqb_spec (depth (rev ordered) x) 0) as [E|]; [|done]. unfold depth in E. unfold state_of.
      by destruct (List.filter (covers x) (rev ordered)).
    - rewrite <- H4 by done. specialize (H6 x Hx). lia. }
  destruct (Z.ltb_spec 3 (state r)) as [H3r|H3r]; [left; unfold known_state; lia|].
  assert (Hnew : forall x, covers x (mkState (mkRange s e) (state r)) = (s <=? x) && (x <? e)) by done.
  destruct ordered as [|back rest].
  { split; [|unfold known_state; lia].
    eapply describes_next; [exact Hd|..]; cbn [rev app].
    - apply tiled_cons. cbn. split_and!; [lia|lia|lia|constructor|split; constructor].
    - constructor; [cbn; lia|constructor].
    - constructor; [|constructor]. exists r. split; [apply in_or_app; right; by left|cbn; lia].
    - intros x Hx. by rewrite !depth_one, Hnew, Hc.
    - intros x Hx. by rewrite !state_of_cons, Hnew, Hc.
    - intros x Hx. rewrite depth_one. cbn. destruct (covers x r); lia. }
  apply tiled_rev in H1. destruct H1 as [Hb Hss].
  pose proof Hb as Hb0. apply Forall_cons in Hb0 as [[Hbne Hbst] _].
  apply StronglySorted_cons in Hss as [Hback Hss]. apply Forall_cons in H2 as [H2 H2s].
  assert (Hbs : start (range back) <= s).
  { apply Forall_cons in H3 as [(q & Hq & Hle) _]. rewrite List.Forall_forall in Hsorted.
    specialize (Hsorted _ Hq). simpl in Hsorted, H2, Hle. lia. }
  destruct (Z.ltb_spec s (end_ (range back))) as [Hover|Hover].
  { right. exists s. split; [lia|]. rewrite depth_app, depth_one, Hc by lia.
    rewrite (proj2 (Z.leb_le s s)), (proj2 (Z.ltb_lt s e)) by lia. cbn [andb].
    assert (1 <= depth seen s)%nat; [|lia]. rewrite H4 by lia. apply (depth_covered _ back).
    - apply in_rev. rewrite rev_involutive. by left.
    - apply covers_spec. lia. }
  assert (Hbelow : forall x, s <= x -> depth (rev (back :: rest)) x = 0%nat).
  { intros x Hx. unfold depth. apply length_zero_iff_nil. destruct (List.filter _ _) as [|q l] eqn:E; [done|].
    assert (Hq : In q (List.filter (covers x) (rev (back :: rest)))) by (rewrite E; by left).
    apply filter_In in Hq as [Hq Hqx]. apply in_rev in Hq. rewrite List.Forall_forall in Hback. rewrite List.Forall_forall in Hb.
    apply covers_spec in Hqx. destruct Hq as [<-|Hq]; [lia|]. specialize (Hback _ Hq). simpl in Hback. lia. }
  assert (Hone : forall x, 0 <= x < total -> (depth (rev (back :: rest)) x + depth [r] x <= 1)%nat).
  { intros x Hx. rewrite depth_one, Hc by done. destruct (Z.leb_spec s x); [rewrite Hbelow by done; by destruct (x <? e); cbn; lia|].
    cbn [andb]. rewrite <- H4 by done. specialize (H6 x Hx). lia. }
  destruct ((s =? end_ (range back)) && (state r =? state back)) eqn:Hj; (split; [|unfold known_state; lia]).
  - breflect. set (joined := mkState (mkRange (start (range back)) e) (state back)).
    assert (Hjc : forall x, 0 <= x < total -> covers x joined = covers x back || covers x r).
    { intros x Hx. rewrite Hc by done. apply Bool.eq_iff_eq_true. unfold covers, joined. cbn.
      rewrite orb_true_iff, !andb_true_iff, !Z.leb_le, !Z.ltb_lt. lia. }
    assert (Hnot : forall x, covers x back = true -> 0 <= x < total -> covers x r = false).
    { intros x Hx Hx'. rewrite Hc by done. apply covers_spec in Hx. rewrite (proj2 (Z.leb_gt s x)) by lia. done. }
    eapply describes_next; [exact Hd|..].
    + apply tiled_rev. rewrite Forall_cons, StronglySorted_cons. cbn. apply Forall_cons in Hb as [_ Hb].
      split_and!; try done; lia.
    + constructor; [cbn; lia|done].
    + apply Forall_cons in H3 as [(q & Hq & Hle) H3]. constructor; [|by apply seen_more].
      exists q. split; [apply in_or_app; by left|done].
    + intros x Hx. cbn [rev]. rewrite !depth_app, !depth_one, Hjc by done.
      destruct (covers x back) eqn:Ex; [rewrite (Hnot x Ex Hx); cbn; lia|]. cbn [orb]. lia.
    + intros x Hx. cbn [rev]. rewrite !state_of_app, !depth_app, !depth_one, !state_of_cons, Hjc by done.
      destruct (depth (rev rest) x) as [|k]; cbn [Nat.eqb Nat.add]; [|done].
      destruct (covers x back) eqn:Ex; cbn [orb Nat.eqb]; [done|]. destruct (covers x r); done.
    + done.
  - eapply describes_next; [exact Hd|..].
    + apply tiled_rev. rewrite Forall_cons, !StronglySorted_cons, Forall_cons. cbn.
      split_and!; try done; try lia; [by apply Forall_cons in Hb as [_ Hb]|]. constructor; [simpl; lia|].
      eapply Forall_impl; [exact Hback|]. simpl. intros q Hq. lia.
    + constructor; [cbn; lia|by constructor].
    + constructor; [|by apply seen_more]. exists r. split; [apply in_or_app; right; by left|cbn; lia].
    + intros x Hx. cbn [rev]. rewrite !depth_app, !depth_one, Hnew, Hc by done. lia.
    + intros x Hx. cbn [rev]. rewrite (state_of_app (rev rest ++ [back])), !(state_of_cons _ []), Hnew, Hc by done.
      done.
    + done.
Qed.

Lemma order_loop_spec total ordered seen ranges :
  describes total ordered seen -> StronglySorted state_le ranges ->
  Forall (fun r => 0 <= start (range r) /\ 0 <= state r) ranges ->
  (forall q r, In q seen -> In r ranges -> start (range q) <= start (range r)) ->
  match order_loop total ordered ranges with
  | Value ordered' => describes total (rev ordered') (seen ++ ranges) /\ Forall (known_state total) ranges
  | Throw _ => (exists r, In r ranges /\ ~ known_state total r) \/
               exists x, 0 <= x < total /\ (2 <= depth (seen ++ ranges) x)%nat
  end.
Proof.
  revert ordered seen. induction ranges as [|r ranges IH]; intros ordered seen Hd Hs Hr Hq; cbn [order_loop].
  { rewrite rev_involutive, app_nil_r. by split. }
  apply StronglySorted_cons in Hs as [Hrs Hs]. apply Forall_cons in Hr as [[Hr0 Hst] Hr].
  assert (Hstep := order_step_spec total ordered seen r Hd Hr0 Hst). ospecialize (Hstep _).
  { apply List.Forall_forall. intros q Hin. apply Hq; [done|by left]. }
  destruct (order_step total ordered r) as [ordered'|w]; cbn [mbind exc_bind].
  - destruct Hstep as [Hd' Hk]. specialize (IH ordered' (seen ++ [r]) Hd' Hs Hr). ospecialize (IH _).
    { intros q r' Hin Hin'. apply in_app_or in Hin as [Hin|[<-|[]]]; [apply Hq; [done|by right]|].
      rewrite List.Forall_forall in Hrs. destruct (Hrs _ Hin') as [H|[H _]]; simpl in H; lia. }
    rewrite <- app_assoc in IH. destruct (order_loop total ordered' ranges).
    + destruct IH as [H1 H2]. split; [done|]. by constructor.
    + destruct IH as [(r' & Hin & H)|H]; [left; exists r'; by split; [right|]|by right].
  - destruct Hstep as [Hk|(x & Hx & H)]; [left; exists r; by split; [left|]|right]. exists x. split; [done|].
    rewrite !depth_app, depth_one in *. replace (r :: ranges) with ([r] ++ ranges) by done.
    rewrite depth_app, depth_one. lia.
Qed.

Lemma state_le_total : Total state_le.
Proof. intros a b. unfold state_le. lia. Qed.
Lemma state_le_trans : Transitive state_le.
Proof. intros a b c. unfold state_le. lia. Qed.
#[local] Existing Instances state_le_total state_le_trans.

Lemma describes_nil total : describes total [] [].
Proof. split; try done; [split; constructor|by intros; cbn; lia]. Qed.

(** The states of the ranges, below the end, are unambiguous and known. *)
Definition consistent (total : Z) (ranges : list StateRange) : Prop :=
  Forall (known_state total) ranges /\ forall x, 0 <= x < total -> (depth ranges x <= 1)%nat.

Definition natural_range (r : StateRange) : Prop := 0 <= start (range r) /\ 0 <= state r.

Lemma order_ranges_spec total ranges :
  Forall natural_range ranges ->
  match order_ranges total ranges with
  | Value ordered =>
      consistent total ranges /\ tiled ordered /\
      forall x, 0 <= x < total -> state_of ordered x = state_of ranges x
  | Throw _ => ~ consistent total ranges
  end.
Proof.
  intros Hn. unfold order_ranges. pose proof (merge_sort_Permutation state_le ranges) as Hp.
  assert (H := order_loop_spec total [] [] (merge_sort state_le ranges) (describes_nil total)
    (StronglySorted_merge_sort _ _)). ospecialize (H _ _).
  { by rewrite Hp. }
  { by intros ? ? []. }
  cbn [app] in H. destruct (order_loop total [] _) as [ordered|w].
  - destruct H as [[H1 _ _ _ H5 H6] Hk]. rewrite rev_involutive in *.
    assert (Ho : forall x, 0 <= x < total -> (depth ranges x <= 1)%nat).
    { intros x Hx. rewrite <- (depth_perm _ _ x Hp). by apply H6. }
    split; [split; [by rewrite <- Hp|done]|]. split; [done|]. intros x Hx. rewrite <- H5 by done.
    apply state_of_perm; [done|by apply H6].
  - intros [Hk Ho]. destruct H as [(r & Hin & Hr)|(x & Hx & H)].
    + apply Hr. rewrite List.Forall_forall in Hk. apply Hk. by apply (Permutation_in r Hp).
    + specialize (Ho x Hx). rewrite (depth_perm _ _ x Hp) in H. lia.
Qed.

Lemma clamp_cells_bounds cell_count total :
  0 < total -> is_u64 total -> cell_count < TWO32 ->
  0 < clamp_cells cell_count total /\ clamp_cells cell_count total <= total /\ clamp_cells cell_count total < TWO32.
Proof. unfold clamp_cells, is_u64. intros. lia. Qed.

Lemma aggregate_cells_spec total cell_count ranges :
  is_u64 total -> 0 < total -> cell_count < TWO32 -> Forall natural_range ranges ->
  match aggregate_cells total cell_count ranges with
  | Value (cells, totals) =>
      consistent total ranges /\ Z.of_nat (length cells) = clamp_cells cell_count total /\
      cells_exact (state_of ranges) 0 total cells /\ counts_ok (state_of ranges) 0 total totals
  | Throw _ => ~ consistent total ranges
  end.
Proof.
  intros Ht H0 Hc Hn. unfold aggregate_cells. rewrite (proj2 (Z.eqb_neq total 0)) by lia. cbv zeta.
  destruct (clamp_cells_bounds cell_count total H0 Ht Hc) as (B1 & B2 & B3).
  set (n := clamp_cells cell_count total) in *. pose proof (order_ranges_spec total ranges Hn) as Ho.
  destruct (order_ranges total ranges) as [ordered|w]; cbn [mbind exc_bind]; [|done].
  destruct Ho as (Hcons & Htl & Hst).
  destruct (cells_loop_spec (state_of ranges) (Z.to_nat n) 0 total n ordered no_counts)
    as (cells & totals & -> & Hlen & Hcells & Hk); try done; try lia.
  - intros x Hx. rewrite Z.mul_0_l, Zdiv_0_l in Hx. by rewrite Hst.
  - rewrite Z.mul_0_l, Zdiv_0_l. apply counts_ok_none.
  - rewrite Z.mul_0_l, Zdiv_0_l in Hcells. split; [done|]. split; [lia|]. done.
Qed.

(** ** Lemmas: overlays *)

Definition covered_units (ranges : list UnitRange) (lo hi : Z) : Z :=
  units (fun x => if covered ranges x then 1 else 0) 1 lo hi.

Lemma covered_units_split ranges lo mid hi :
  lo <= mid -> mid <= hi -> covered_units ranges lo hi = covered_units ranges lo mid + covered_units ranges mid hi.
Proof. apply units_split. Qed.

Lemma covered_units_const ranges (b : bool) lo hi :
  lo <= hi -> (forall x, lo <= x < hi -> covered ranges x = b) ->
  covered_units ranges lo hi = if b then hi - lo else 0.
Proof.
  intros Hle H. unfold covered_units. rewrite (units_const _ 1 (if b then 1 else 0)); [by destruct b|done|].
  intros x Hx. by rewrite H.
Qed.

Lemma covered_units_ext a b lo hi :
  (forall x, lo <= x < hi -> covered a x = covered b x) -> covered_units a lo hi = covered_units b lo hi.
Proof.
  intros H. unfold covered_units, units. f_equal. f_equal. apply List.filter_ext_in. intros x Hx.
  apply list_elem_of_In, elem_of_seqZ in Hx. rewrite H by lia. done.
Qed.

Lemma skip_merged_spec lo merged :
  normal merged ->
  normal (skip_merged lo merged) /\ Forall (fun r => lo < end_ r) (skip_merged lo merged) /\
  forall x, lo <= x -> covered (skip_merged lo merged) x = covered merged x.
Proof.
  induction merged as [|r merged IH]; intros Hn; cbn [skip_merged]; [by repeat split; constructor|].
  pose proof Hn as Hn'. apply normal_cons in Hn' as (Hr & Hl & Hn').
  destruct (Z.leb_spec (end_ r) lo) as [He|He].
  - destruct (IH Hn') as (H1 & H2 & H3). split_and!; [done|done|]. intros x Hx.
    rewrite H3, covered_cons by done. rewrite (proj2 (Z.ltb_ge x (end_ r))) by lia. by rewrite andb_false_r.
  - split_and!; [done| |done]. constructor; [done|]. destruct Hn' as [Hn' _].
    rewrite List.Forall_forall in *. intros s Hs. specialize (Hl _ Hs). specialize (Hn' _ Hs). simpl in *. lia.
Qed.

(** The overlap of a cell is the number of its covered units. *)
Lemma overlap_units_spec lo hi merged cursor overlap :
  0 <= lo -> lo <= cursor <= hi -> lo < hi -> is_u64 hi -> normal merged ->
  Forall (fun r => lo < end_ r /\ cursor <= Z.max lo (start r)) merged -> 0 <= overlap <= cursor - lo ->
  overlap_units lo hi overlap merged = overlap + covered_units merged cursor hi.
Proof.
  intros Hlo. revert cursor overlap. induction merged as [|r merged IH]; intros cursor overlap Hc Hlt Hu Hn Hin Ho;
    cbn [overlap_units].
  { rewrite (covered_units_const [] false) by (done || lia). lia. }
  pose proof Hn as Hn'. apply normal_cons in Hn' as (Hr & Hl & Hn'). apply Forall_cons in Hin as [[He Hs] Hin].
  unfold is_u64 in Hu. destruct (Z.ltb_spec (start r) hi) as [Hs'|Hs'].
  2:{ rewrite (covered_units_const _ false); [lia|lia|]. intros x Hx. apply (covered_below (hi - 1)); [|lia].
      constructor; [lia|]. eapply Forall_impl; [exact Hl|]. simpl. intros. lia. }
  cbv zeta. set (os := Z.max lo (start r)) in *. set (oe := Z.min hi (end_ r)).
  assert (Hlow : forall x, cursor <= x < os -> covered (r :: merged) x = false).
  { intros x Hx. apply (covered_below (os - 1)); [|lia]. constructor; [lia|].
    eapply Forall_impl; [exact Hl|]. simpl. intros. lia. }
  assert (Hmid : forall x, os <= x < oe -> covered (r :: merged) x = true).
  { intros x Hx. rewrite covered_cons, (proj2 (Z.leb_le _ _)), (proj2 (Z.ltb_lt _ _)) by lia. done. }
  rewrite (covered_units_split _ cursor os hi), (covered_units_split _ os oe hi) by lia.
  rewrite (covered_units_const _ false cursor os), (covered_units_const _ true os oe) by (done || lia).
  rewrite (u64_small (oe - os)), (Z.max_r 0 (oe - os)), u64_small by (unfold is_u64; lia).
  destruct (Z.ltb_spec hi (end_ r)) as [Hb|Hb].
  - replace oe with hi by lia. unfold covered_units. rewrite units_empty. lia.
  - rewrite (covered_units_ext (r :: merged) merged oe hi).
    + rewrite (IH oe); try done; try lia.
      rewrite List.Forall_forall in *. intros s Hins. specialize (Hin _ Hins). specialize (Hl _ Hins).
      simpl in *. lia.
    + intros x Hx. rewrite covered_cons, (proj2 (Z.ltb_ge x (end_ r))) by lia. by rewrite andb_false_r.
Qed.

Lemma overlap_exact lo hi merged :
  0 <= lo -> lo < hi -> is_u64 hi -> normal merged -> Forall (fun r => lo < end_ r) merged ->
  overlap_units lo hi 0 merged = covered_units merged lo hi.
Proof.
  intros. rewrite (overlap_units_spec lo hi merged lo); try done; try lia.
  eapply Forall_impl; [eassumption|]. simpl. intros. lia.
Qed.

(** The total of the merged ranges counts every covered unit once. *)
Lemma total_of_spec merged lo hi acc :
  normal merged -> lo <= hi -> 0 <= lo -> Forall (fun r => lo <= start r /\ end_ r <= hi) merged -> is_u64 (acc + (hi - lo)) ->
  0 <= acc ->
  foldl (fun total r => total +64 (end_ r -64 start r)) acc merged = acc + covered_units merged lo hi.
Proof.
  revert lo acc. induction merged as [|r merged IH]; intros lo acc Hn Hle H0 Hin Hu Ha; cbn [foldl].
  { rewrite (covered_units_const [] false) by (done || lia). lia. }
  pose proof Hn as Hn'. apply normal_cons in Hn' as (Hr & Hl & Hn'). apply Forall_cons in Hin as [[H1 H2] Hin].
  unfold is_u64 in Hu. rewrite (u64_small (end_ r - start r)), u64_small by (unfold is_u64; lia).
  rewrite (IH (end_ r)); try done; try lia.
  - rewrite (covered_units_split (r :: merged) lo (start r) hi), (covered_units_split _ (start r) (end_ r) hi) by lia.
    rewrite (covered_units_const _ false lo (start r)), (covered_units_const _ true (start r) (end_ r)).
    + rewrite (covered_units_ext (r :: merged) merged (end_ r) hi); [lia|].
      intros x Hx. rewrite covered_cons, (proj2 (Z.ltb_ge x (end_ r))) by lia. by rewrite andb_false_r.
    + lia.
    + intros x Hx. rewrite covered_cons, (proj2 (Z.leb_le _ _)), (proj2 (Z.ltb_lt _ _)) by lia. done.
    + lia.
    + intros x Hx. apply (covered_below (start r - 1)); [|lia]. constructor; [lia|].
      eapply Forall_impl; [exact Hl|]. simpl. intros. lia.
  - rewrite List.Forall_forall in *. intros s Hs. specialize (Hin _ Hs). specialize (Hl _ Hs). simpl in *. lia.
  - unfold is_u64. lia.
Qed.

(** ** Properties *)

(** Merging gives the normal form of a set of units: the result is made of
    non-empty ranges in order with a gap between any two, holds the same units as
    the input, and any two inputs that hold the same units, in any order and with
    any overlaps, have the same result. *)
Theorem merge_ranges_canonical a b :
  normal (merge_ranges a) /\ (forall x, covered (merge_ranges a) x = covered a x) /\
  ((forall x, covered a x = covered b x) -> merge_ranges a = merge_ranges b).
Proof.
  destruct (merge_ranges_spec a) as [Na Ca], (merge_ranges_spec b) as [Nb Cb].
  split; [done|]. split; [done|]. intros H. apply normal_unique; [done..|]. intros x. by rewrite Ca, Cb.
Qed.

(** The complement is exact: the gaps are in normal form and hold exactly the
    units from 0 to the total that no given range holds, whatever the order, the
    overlaps and the bounds of the ranges. *)
Theorem complement_exact total occupied :
  normal (complement_ranges total occupied) /\
  forall x, covered (complement_ranges total occupied) x = (0 <=? x) && (x <? total) && negb (covered occupied x).
Proof.
  unfold complement_ranges. destruct (merge_ranges_spec occupied) as [Hn Hc].
  destruct (complement_from_spec total 0 _ Hn) as [[H1 _] H2]. split; [done|]. intros x. by rewrite H2, Hc.
Qed.

(** The aggregation is exact: it succeeds precisely when below the total every
    non-empty range has a known state and no unit is in two ranges; the cells then
    are consecutive, non-empty and cover all units, and each of the four counts of
    each cell, as of the totals, is the number of its units in that state, with the
    units of no range unknown.  No count wraps. *)
Theorem aggregate_exact total cell_count ranges :
  is_u64 total -> 0 < total -> cell_count < TWO32 -> Forall natural_range ranges ->
  (is_value (aggregate_cells total cell_count ranges) = true <-> consistent total ranges) /\
  forall cells totals, aggregate_cells total cell_count ranges = Value (cells, totals) ->
    Z.of_nat (length cells) = clamp_cells cell_count total /\
    cells_exact (state_of ranges) 0 total cells /\ counts_ok (state_of ranges) 0 total totals.
Proof.
  intros Ht H0 Hc Hn. pose proof (aggregate_cells_spec total cell_count ranges Ht H0 Hc Hn) as H.
  destruct (aggregate_cells total cell_count ranges) as [[cells totals]|w].
  - split; [split; [intros _; apply H|done]|]. intros ? ? [= <- <-]. apply H.
  - split; [by split|done].
Qed.

Lemma aggregate_exact_witness :
  counts_ok (state_of [mkState (mkRange 5 9) 0; mkState (mkRange 0 3) 1]) 0 10
    (mkCounts 4 3 3 0) /\ units (state_of [mkState (mkRange 5 9) 0; mkState (mkRange 0 3) 1]) 0 0 10 = 4.
Proof.
  destruct (aggregate_exact 10 3 [mkState (mkRange 5 9) 0; mkState (mkRange 0 3) 1]) as [_ H].
  - unfold is_u64. lia.
  - lia.
  - lia.
  - repeat constructor; cbn; lia.
  - destruct (H [mkCell 0 3 (mkCounts 0 3 0 0); mkCell 3 6 (mkCounts 1 0 2 0); mkCell 6 10 (mkCounts 3 0 1 0)]
      (mkCounts 4 3 3 0)) as (_ & _ & Hk); [vm_compute; reflexivity|].
    split; [exact Hk|]. symmetry. exact (Hk 0 ltac:(lia)).
Defined.

Lemma merge_ranges_canonical_witness :
  merge_ranges [mkRange 4 6; mkRange 0 2; mkRange 1 4] = merge_ranges [mkRange 0 6].
Proof.
  destruct (merge_ranges_canonical [mkRange 4 6; mkRange 0 2; mkRange 1 4] [mkRange 0 6]) as (_ & _ & H).
  apply H. intros x. unfold covered. cbn.
  destruct (Z.leb_spec 4 x), (Z.ltb_spec x 6), (Z.leb_spec 0 x), (Z.ltb_spec x 2), (Z.leb_spec 1 x), (Z.ltb_spec x 4);
    cbn; (done || lia).
Defined.
