(* ===== verification/AllocationMap.v ===== *)
(** The allocation mapper, [native/map.cpp]: the reports of the analysers, the
    common map built from them, the check of a native map and the qualification of
    a volume for mutation. *)
From stdpp Require Import sorting list_numbers.
From S2P Require Import Prelude Effects CString Infiltratr Exceptions NativeJson Runtime MapRanges.
#[local] Open Scope Z_scope.

(** ** JSON objects *)

(** [operator[]] of [std::map], assigned to. *)
Fixpoint set_member (key : string) (value : Json) (members : list (string * Json)) : list (string * Json) :=
  match members with
  | [] => [(key, value)]
  | (k, v) :: rest =>
      match String.compare key k with
      | Lt => (key, value) :: members
      | Eq => (k, value) :: rest
      | Gt => (k, v) :: set_member key value rest
      end
  end.

(** An object filled by assignments, in their order. *)
Definition object_of (fields : list (string * Json)) : list (string * Json) :=
  foldl (fun members kv => set_member (fst kv) (snd kv) members) [] fields.

Definition array_items (v : Json) : exc (list Json) :=
  match v with JArray values => Value values | _ => Throw "JSON value is not an array" end.

(** [set]: the member of an object. *)
Definition set (key : string) (value v : Json) : exc Json :=
  match v with
  | JObject members => Value (JObject (set_member key value members))
  | _ => Throw "JSON value is not an object"
  end.

(** Several calls of [set]. *)
Fixpoint set_all (fields : list (string * Json)) (v : Json) : exc Json :=
  match fields with
  | [] => Value v
  | (key, value) :: fields => v ← set key value v; set_all fields v
  end.

Definition required_u64 (object : Json) (key : string) : exc Z := value ← at_key key object; unsigned_value value.

Definition optional_u64 (object : Json) (key : string) (fallback : Z) : exc Z :=
  match find key object with None => Value fallback | Some value => unsigned_value value end.

Definition optional_bool (object : Json) (key : string) (fallback : bool) : exc bool :=
  match find key object with None => Value fallback | Some value => boolean value end.

Definition optional_string (object : Json) (key fallback : string) : exc string :=
  match find key object with None => Value fallback | Some value => string_value value end.

Definition is_object (v : Json) : bool := match v with JObject _ => true | _ => false end.
Definition is_string (v : Json) : bool := match v with JString _ => true | _ => false end.
Definition is_bool (v : Json) : bool := match v with JBool _ => true | _ => false end.

Definition has_key (key : string) (v : Json) : bool := negb (is_null (find key v)).

(** The members of [keys] that the payload has. *)
Definition selected_details (payload : Json) (keys : list string) : list (string * Json) :=
  foldl (fun details key => match find key payload with
    | Some value => match emplace key value details with Some details => details | None => details end
    | None => details end) [] keys.

(** The doubles the mapper prints: [Json::real(value->real_value())] of a member,
    and a percentage of two counts. *)
Class Doubles := {
  real_copy : Json -> exc Json;
  percentage : Z -> Z -> Json;
}.

(** ** Ranges and cells in JSON *)

Section Cells.
  Context {common : Infiltratr}.

Definition multiply_or_throw (left right : Z) (context : string) : exc Z :=
  match infiltratr_u64_multiply_checked left right with
  | Some product => Value product
  | None => Throw (context ++ " overflows uint64")%string
  end.

(** One pair of the array. *)
Definition pair_range (key : string) (total : Z) (value : Json) : exc UnitRange :=
  match value with
  | JArray [a; b] =>
      s ← unsigned_value a;
      e ← unsigned_value b;
      throw_if ((e <=? s)%Z || (total <? e)%Z) ("native analyser returned out-of-range " ++ key) ≫= fun _ =>
      Value (mkRange s e)
  | _ => Throw ("native analyser returned malformed " ++ key)
  end%string.

Definition pair_ranges (payload : Json) (key : string) (total : Z) (required : bool) : exc (list UnitRange) :=
  match find key payload with
  | None => if required then Throw ("native analyser omitted " ++ key) else Value []
  | Some (JArray values) => mapM (pair_range key total) values
  | Some _ => Throw ("native analyser returned invalid " ++ key)
  end%string.

Definition cell_json (c : Cell) : Json :=
  JObject (object_of
    [("start", unsigned_integer (cell_start c)); ("end", unsigned_integer (cell_end c -64 1));
     ("free", unsigned_integer (c_free (cell_count_of c))); ("used", unsigned_integer (c_used (cell_count_of c)));
     ("unknown", unsigned_integer (c_unknown (cell_count_of c))); ("bad", unsigned_integer (c_bad (cell_count_of c)));
     ("fragmented", unsigned_integer 0); ("directory", unsigned_integer 0)])%string.

Definition aggregate_ranges (total_units cell_count unit_size : Z) (filesystem : string) (ranges : list StateRange)
    (accuracy : string) (details : list (string * Json)) : exc Json :=
  '(cells, totals) ← aggregate_cells total_units cell_count ranges;
  total_bytes ← multiply_or_throw total_units unit_size "filesystem capacity";
  free_bytes ← multiply_or_throw (c_free totals) unit_size "free-space total";
  used_bytes ← multiply_or_throw (c_used totals) unit_size "used-space total";
  unknown_bytes ← multiply_or_throw (c_unknown totals +64 c_bad totals) unit_size "unknown-space total";
  Value (JObject (object_of
    ([("schema", unsigned_integer 1); ("backend", JString "read-only-domain"); ("filesystem", JString filesystem);
      ("map_accuracy", JString accuracy); ("unit_size", unsigned_integer unit_size);
      ("total_units", unsigned_integer total_units);
      ("cell_count", unsigned_integer (clamp_cells cell_count total_units));
      ("total_bytes", unsigned_integer total_bytes); ("free_bytes", unsigned_integer free_bytes);
      ("used_bytes", unsigned_integer used_bytes); ("unknown_bytes", unsigned_integer unknown_bytes);
      ("cells", JArray (map cell_json cells))] ++
     match details with [] => [] | _ => [("details", JObject details)] end)))%string.

(** One cell of [overlay_ranges], with the ranges not yet passed. *)
Definition overlay_cell (field : string) (merged : list UnitRange) (cell : Json) : exc (Json * list UnitRange) :=
  s ← required_u64 cell "start";
  e ← required_u64 cell "end";
  let e := e +64 1 in
  let merged := skip_merged s merged in
  let overlap := overlap_units s e 0 merged in
  used ← optional_u64 cell "used" 0;
  cell ← set field (unsigned_integer (Z.min used overlap)) cell;
  Value (cell, merged).

Fixpoint overlay_loop (field : string) (merged : list UnitRange) (cells : list Json) : exc (list Json) :=
  match cells with
  | [] => Value []
  | cell :: cells =>
      '(cell, merged) ← overlay_cell field merged cell;
      cells ← overlay_loop field merged cells;
      Value (cell :: cells)
  end.

(** The cells overlaid, and the units of the ranges. *)
Definition overlay_ranges (cells : list Json) (ranges : list UnitRange) (field : string) : exc (list Json * Z) :=
  let merged := merge_ranges ranges in
  cells ← overlay_loop field merged cells;
  Value (cells, total_of merged).
End Cells.

(** ** Workers *)

#[local] Open Scope string_scope.

Record CommandResult := mkResult {
  return_code : Z;
  standard_output : string;
  standard_error : string;
}.

(** Program resolution, [run_capture] of process.cpp (command, output limit,
    timeout in milliseconds; it throws on a failure of its own) and the progress
    lines on the error stream. *)
Inductive mapE : Type -> Type :=
| MapRuntime {X} (e : runtimeE X) : mapE X
| RunCapture (command : list string) (output_limit timeout : Z) : mapE (exc CommandResult)
| AnalysisPhase (text : string) : mapE unit.

Definition mapper A := prog mapE (exc A).

(** A step that may throw, and a pure one. *)
Definition ebind {A B} (p : mapper A) (f : A -> mapper B) : mapper B :=
  pbind p (fun r => match r with Value a => f a | Throw w => Ret (Throw w) end).
Definition pure {A} (r : exc A) : mapper A := Ret r.

Notation "'let!' x := p 'in' f" := (ebind p (fun x => f))
  (at level 10, x pattern, p at level 100, f at level 200).

Definition progress_mark : string := "@@ANALYSIS ".

(** The lines of a text, each with its newline. *)
Fixpoint keep_lines (line : string) (s : string) : list string :=
  match s with
  | EmptyString => if is_empty line then [] else [line]
  | String c s =>
      let line := (line ++ String c "")%string in
      if bool_decide (c = LF) then line :: keep_lines EmptyString s else keep_lines line s
  end.

(** What remains of the error stream without the progress lines. *)
Definition diagnostics (text : string) : string :=
  String.concat EmptyString
    (List.filter (fun line => negb (String.prefix progress_mark line)) (keep_lines EmptyString text)).

Definition default_output_limit : Z := 67108864.

Definition worker_program (program_id mode path : string) (options : list string) (output_limit timeout : Z) :
    mapper CommandResult :=
  let! program := interp (fun X e => call (MapRuntime e)) (resolve_program program_id true) in
  let! result := call (RunCapture ([program; mode; path] ++ options) output_limit timeout) in
  pure (Value (mkResult (return_code result) (standard_output result) (diagnostics (standard_error result)))).

Definition run_worker (backend : BackendInfo) := worker_program (worker backend).

Section Mapper.
  Context {common : Infiltratr} {doubles : Doubles}.

Definition parse_worker_json (result : CommandResult) (action : string) : exc Json :=
  if negb (return_code result =? 0)%Z then
    let detail := if negb (is_empty (standard_error result)) then standard_error result else standard_output result in
    Throw (action ++ " failed" ++ (if is_empty detail then "" else ": " ++ detail))
  else
    parsed ← parse (standard_output result);
    if is_object parsed then Value parsed else Throw (action ++ " returned a non-object JSON value").

Definition analysis_phase (phase : string) : mapper unit :=
  match dump (JObject [("phase", JString phase)]) with
  | Value text => let* _ := call (AnalysisPhase (progress_mark ++ text)) in Ret (Value tt)
  | Throw w => Ret (Throw w)
  end.

(** An analyser's report. *)
Definition report (backend : BackendInfo) (path : string) (options : list string) (action : string) : mapper Json :=
  let! result := run_worker backend "analyse-json" path options default_output_limit 0 in
  pure (parse_worker_json result action).

Fixpoint strip_line_ends (s : string) : string :=
  match s with
  | EmptyString => EmptyString
  | String c s =>
      let r := strip_line_ends s in
      if is_empty r && (bool_decide (c = LF) || bool_decide (c = CR)) then EmptyString else String c r
  end.

(** At most 2048 bytes, with dots when cut. *)
Definition concise (text : string) : string :=
  let text := strip_line_ends text in
  if (2048 <? strlen text)%Z then String.substring 0 2048 text ++ "..." else text.

Definition concise_child_detail (result : CommandResult) : string :=
  concise (if negb (is_empty (standard_error result)) then standard_error result else standard_output result).

Record MutationQualification := mkQualification { qualified : bool; reason : string }.

Definition mutation_qualification (backend : BackendInfo) (path mode : string) : prog mapE MutationQualification :=
  let* r := run_worker backend mode path [] 2097152 60000 in
  Ret (match r with
       | Throw what => mkQualification false what
       | Value result =>
           if (return_code result =? 0)%Z then mkQualification true ""
           else
             let detail := concise_child_detail result in
             mkQualification false
               (if is_empty detail then "The native writer rejected this on-disk layout." else detail)
       end).

(** ** The common map *)

Definition summary_keys : list string := ["regular_files"; "directories"; "fragmented_files"; "fragmented_directories"].

Fixpoint add_summary (payload : Json) (keys : list string) (result : Json) : exc Json :=
  match keys with
  | [] => Value result
  | key :: keys =>
      n ← optional_u64 payload key 0;
      result ← set key (unsigned_integer n) result;
      add_summary payload keys result
  end.

Definition add_fragmentation_summary (result payload : Json) (copy_percentage : bool) : exc Json :=
  result ← add_summary payload summary_keys result;
  match find "fragmentation_percent" payload with
  | Some value =>
      if copy_percentage then percent ← real_copy value; set "fragmentation_percent" percent result
      else Value result
  | None => Value result
  end.

(** [overlay_ranges] on the cells of a map. *)
Definition overlay_map (result : Json) (ranges : list UnitRange) (field : string) : exc (Json * Z) :=
  cells ← at_key "cells" result;
  cells ← array_items cells;
  '(cells, n) ← overlay_ranges cells ranges field;
  result ← set "cells" (JArray cells) result;
  Value (result, n).

(** Assignments to the details of a map. *)
Definition set_details (fields : list (string * Json)) (result : Json) : exc Json :=
  details ← set_all fields (default (JObject []) (find "details" result));
  set "details" details result.

Definition overlay_fragmentation (result payload : Json) (total : Z) (units_name : string) : exc Json :=
  fragmented ← pair_ranges payload "fragmented_ranges" total false;
  directories ← pair_ranges payload "directory_ranges" total false;
  '(result, fragmented_units) ← overlay_map result fragmented "fragmented";
  '(result, directory_units) ← overlay_map result directories "directory";
  set_details [("fragmented_" ++ units_name ++ "_mapped", unsigned_integer fragmented_units);
               ("directory_" ++ units_name ++ "_mapped", unsigned_integer directory_units)] result.

Definition free_and_used (total : Z) (free : list UnitRange) : list StateRange :=
  map (fun r => mkState r 0) free ++ map (fun r => mkState r 1) (complement_ranges total free).

Definition generic_free_range_map (backend : BackendInfo) (payload : Json) (cells total unit_size : Z)
    (filesystem : string) (details : list (string * Json)) (copy_percentage : bool) (unit_name : string) :
    exc Json :=
  free ← pair_ranges payload "free_ranges" total true;
  result ← aggregate_ranges total cells unit_size filesystem (free_and_used total free)
             (map_accuracy backend) details;
  result ← add_fragmentation_summary result payload copy_percentage;
  overlay_fragmentation result payload total unit_name.

(** ** The adapters *)

(** The identity a report must have. *)
Definition require_identity (payload : Json) (filesystem name : string) : exc unit :=
  identity ← at_key "filesystem" payload;
  identity ← string_value identity;
  throw_if (negb (String.eqb identity filesystem)) ("native " ++ name ++ " analyser returned wrong identity").

Definition copy_member (key : string) (payload result : Json) : exc Json :=
  match find key payload with Some value => set key value result | None => Value result end.

Definition affs_map (backend : BackendInfo) (payload : Json) (cells : Z) : exc Json :=
  require_identity payload "affs" "Amiga" ≫= fun _ =>
  total ← required_u64 payload "total_blocks";
  size ← required_u64 payload "block_size";
  dostype ← optional_u64 payload "dostype" 0;
  variant ← optional_string payload "variant" "Amiga DOS";
  generic_free_range_map backend payload cells total size "affs"
    (object_of [("block_size", unsigned_integer size); ("dostype", JString ("DOS\" ++ utoa dostype));
                ("variant", JString variant); ("fragmentation_available", JBool true);
                ("fragmentation_basis", JString "first-party native C OFS/FFS block catalogue")])
    false "blocks".

Definition map_affs (backend : BackendInfo) (path : string) (cells : Z) : mapper Json :=
  let! payload := report backend path [] "native Amiga analyser" in
  pure (affs_map backend payload cells).

Definition exfat_map (backend : BackendInfo) (payload : Json) (cells : Z) : exc Json :=
  require_identity payload "exfat" "exFAT" ≫= fun _ =>
  size ← required_u64 payload "cluster_size";
  total ← required_u64 payload "total_clusters";
  result ← generic_free_range_map backend payload cells total size "exfat"
    (set_member "fragmentation_basis" (JString "native C exFAT FAT/bitmap/directory catalogue")
      (set_member "fragmentation_available" (JBool true)
        (selected_details payload ["cluster_size"; "serial"])))
    true "clusters";
  copy_member "growth_10_satisfied" payload result.

Definition map_exfat (backend : BackendInfo) (path : string) (cells : Z) : mapper Json :=
  let! payload := report backend path [] "native exFAT analyser" in
  pure (exfat_map backend payload cells).

Definition hfsplus_map (backend : BackendInfo) (payload : Json) (cells : Z) : exc Json :=
  require_identity payload "hfsplus" "HFS+" ≫= fun _ =>
  total ← required_u64 payload "total_blocks";
  size ← required_u64 payload "block_size";
  variant ← optional_string payload "variant" "HFS+";
  journaled ← optional_bool payload "journaled" false;
  signature ← optional_string payload "signature" "";
  result ← generic_free_range_map backend payload cells total size
    (if String.eqb signature "HX" then "hfsx" else "hfsplus")
    (object_of [("block_size", unsigned_integer size); ("variant", JString variant); ("journaled", JBool journaled);
                ("fragmentation_available", JBool true);
                ("fragmentation_basis",
                 JString "first-party native C HFS+/HFSX catalog and allocation-file scan")])
    false "blocks";
  match find "free_blocks" payload with
  | Some value =>
      details ← at_key "details" result;
      details ← set "header_free_blocks" value details;
      set "details" details result
  | None => Value result
  end.

Definition map_hfsplus (backend : BackendInfo) (path : string) (cells : Z) : mapper Json :=
  let! payload := report backend path [] "native HFS+ analyser" in
  pure (hfsplus_map backend payload cells).

(** [analysis_warning], which must be text. *)
Definition copy_text (key message : string) (payload result : Json) : exc Json :=
  match find key payload with
  | Some value => throw_if (negb (is_string value)) message ≫= fun _ => set key value result
  | None => Value result
  end.

Definition ext_details (payload : Json) : list (string * Json) :=
  foldl (fun details key => match find key payload with
    | Some value => set_member key value details
    | None => details end)
    (object_of [("fragmentation_available", JBool true);
                ("fragmentation_basis", JString "native C EXT inode allocation scanner");
                ("metadata_basis", JString "native C EXT block-group and reserved-inode classifier")])
    ["inodes_scanned"; "malformed_inodes"; "growth_10_satisfied"].

(** The map of the analyser's report, before the classifier is asked. *)
Definition ext_report (payload : Json) : exc (string * Z * Z) :=
  filesystem ← at_key "filesystem" payload;
  filesystem ← string_value filesystem;
  throw_if (negb (String.eqb filesystem "ext2" || String.eqb filesystem "ext3" || String.eqb filesystem "ext4"))
    "native EXT analyser returned wrong identity" ≫= fun _ =>
  size ← required_u64 payload "block_size";
  total ← required_u64 payload "total_blocks";
  Value (filesystem, size, total).

Definition ext_map (backend : BackendInfo) (payload metadata : Json) (filesystem : string) (size total cells : Z) :
    exc Json :=
  size' ← required_u64 metadata "block_size";
  total' ← (if (size' =? size)%Z then required_u64 metadata "total_blocks" else Value total);
  throw_if (negb (size' =? size)%Z || negb (total' =? total)%Z)
    "native EXT metadata classifier returned mismatched geometry" ≫= fun _ =>
  result ← generic_free_range_map backend payload cells total size filesystem (ext_details payload) false "blocks";
  result ← copy_text "analysis_warning" "EXT analysis warning is not text" payload result;
  ranges ← pair_ranges metadata "metadata_ranges" total true;
  '(result, metadata_units) ← overlay_map result ranges "bad";
  details ← at_key "details" result;
  details ← set "metadata_blocks_mapped" (unsigned_integer metadata_units) details;
  result ← set "details" details result;
  regular ← optional_u64 payload "regular_files" 0;
  fragmented ← optional_u64 payload "fragmented_files" 0;
  set "fragmentation_percent" (percentage fragmented (Z.max 1 regular)) result.

Definition map_ext (backend : BackendInfo) (path : string) (cells : Z) : mapper Json :=
  let! payload := report backend path [] "native EXT analyser" in
  let! (filesystem, size, total) := pure (ext_report payload) in
  if is_empty (map_auxiliary_worker backend) then pure (Throw "EXT backend omitted its metadata worker")
  else
    let! result := worker_program (map_auxiliary_worker backend) "analyse-json" path [] default_output_limit 0 in
    let! metadata := pure (parse_worker_json result "native EXT metadata classifier") in
    pure (ext_map backend payload metadata filesystem size total cells).

Definition xfs_details (payload : Json) : list (string * Json) :=
  let rename old new details :=
    match List.find (fun kv => String.eqb (fst kv) old) details with
    | Some (_, value) =>
        List.filter (fun kv => negb (String.eqb (fst kv) old)) (set_member new value details)
    | None => details
    end in
  let details := selected_details payload
    ["block_size"; "sector_size"; "inode_size"; "agblocks"; "allocation_groups"; "bnobt_blocks"; "fdblocks";
     "inodes_scanned"; "malformed_inodes"; "realtime_inodes"; "inobt_blocks"; "bmap_blocks"] in
  set_member "fragmentation_basis" (JString "native C XFS inode B+tree and data-fork extent scanner")
    (set_member "fragmentation_available" (JBool true)
      (set_member "free_space_basis" (JString "XFS per-allocation-group block-number free-space B+trees")
        (rename "realtime_inodes" "realtime_inodes_not_mapped"
          (rename "fdblocks" "superblock_free_blocks" (rename "agblocks" "allocation_group_blocks" details))))).

Definition xfs_map (backend : BackendInfo) (payload : Json) (cells : Z) : exc Json :=
  require_identity payload "xfs" "XFS" ≫= fun _ =>
  size ← required_u64 payload "block_size";
  total ← required_u64 payload "dblocks";
  generic_free_range_map backend payload cells total size "xfs" (xfs_details payload) true "blocks".

Definition map_xfs (backend : BackendInfo) (path : string) (cells : Z) : mapper Json :=
  let! payload := report backend path [] "native XFS analyser" in
  pure (xfs_map backend payload cells).

(** Both qualifications or none, and boolean. *)
Definition copy_qualification (payload result : Json) : exc Json :=
  match find "defrag_qualified" payload, find "growth_qualified" payload with
  | None, None => Value result
  | Some defrag, Some growth =>
      throw_if (negb (is_bool defrag) || negb (is_bool growth)) "NTFS qualification is not boolean" ≫= fun _ =>
      set_all [("defrag_qualified", defrag); ("growth_qualified", growth)] result
  | _, _ => Throw "NTFS analyser returned incomplete qualification"
  end.

Definition ntfs_map (backend : BackendInfo) (payload : Json) (cells : Z) : exc Json :=
  require_identity payload "ntfs" "NTFS" ≫= fun _ =>
  size ← required_u64 payload "cluster_size";
  total ← required_u64 payload "total_clusters";
  result ← generic_free_range_map backend payload cells total size "ntfs"
    (set_member "fragmentation_basis" (JString "native C NTFS MFT and mapping-pairs catalogue")
      (set_member "fragmentation_available" (JBool true)
        (selected_details payload ["cluster_size"; "serial"; "mft_records_scanned"; "mft_malformed_records";
                                   "hibernation_active"])))
    true "clusters";
  result ← copy_member "growth_10_satisfied" payload result;
  result ← copy_qualification payload result;
  result ← copy_text "defrag_reason" "NTFS qualification reason is not text" payload result;
  copy_text "growth_reason" "NTFS qualification reason is not text" payload result.

Definition map_ntfs (backend : BackendInfo) (path : string) (cells : Z) : mapper Json :=
  let! payload := report backend path ["--qualify"] "native NTFS analyser" in
  pure (ntfs_map backend payload cells).
End Mapper.

(** ** Maps the workers make *)

#[local] Open Scope Z_scope.

Definition map_capture_limit (cells : Z) : exc Z :=
  throw_if ((cells =? 0) || (1048576 <? cells)) "map-cell count is outside the supported range" ≫= fun _ =>
  Value (67108864 + cells * 256).

(** A map made by the worker itself. *)
Definition native_report (backend : BackendInfo) (path : string) (cells : Z) : mapper CommandResult :=
  let! limit := pure (map_capture_limit cells) in
  run_worker backend "map" path ["--cells"; utoa (Z.max 1 cells)]%string limit 0.

Section Native.
  Context {common : Infiltratr} {doubles : Doubles}.

(** *** The common contract *)

Definition geometry_error : string := "native filesystem mapper returned invalid map geometry".

(** One cell of the loop of [validate_native_map]: the start expected next. *)
Definition native_cell (total_units expected_start : Z) (cell : Json) : exc Z :=
  throw_if (negb (is_object cell)) "native filesystem mapper returned malformed allocation cell" ≫= fun _ =>
  start ← required_u64 cell "start";
  end_ ← required_u64 cell "end";
  throw_if (negb (start =? expected_start) || (end_ <? start) || (total_units <=? end_))
    "native filesystem mapper returned discontinuous allocation cells" ≫= fun _ =>
  let span := end_ -64 start +64 1 in
  free ← required_u64 cell "free";
  used ← required_u64 cell "used";
  unknown ← optional_u64 cell "unknown" 0;
  outside ← optional_u64 cell "outside" 0;
  bad ← optional_u64 cell "bad" 0;
  fragmented ← optional_u64 cell "fragmented" 0;
  directory ← optional_u64 cell "directory" 0;
  throw_if
    ((span <? free) || (span <? used) || (span <? unknown) || (span <? outside) || (span <? bad) ||
     (used <? fragmented) || (used <? directory) ||
     (UINT64_MAX - used <? free) || (UINT64_MAX - unknown <? free +64 used) ||
     (UINT64_MAX - outside <? free +64 used +64 unknown) ||
     (UINT64_MAX - bad <? free +64 used +64 unknown +64 outside) ||
     negb (free +64 used +64 unknown +64 outside +64 bad =? span))
    "native filesystem mapper returned inconsistent allocation counts" ≫= fun _ =>
  Value (end_ +64 1).

Fixpoint native_cells (total_units expected_start : Z) (cells : list Json) : exc Z :=
  match cells with
  | [] => Value expected_start
  | cell :: cells => next ← native_cell total_units expected_start cell; native_cells total_units next cells
  end.

Definition native_identity (backend : BackendInfo) (payload : Json) : exc unit :=
  schema ← match find "schema" payload with
           | None => Throw "native filesystem mapper returned incompatible map schema"
           | Some value => unsigned_value value
           end;
  throw_if (negb (schema =? 1)) "native filesystem mapper returned incompatible map schema" ≫= fun _ =>
  (match find "backend" payload with
   | Some (JString domain) =>
       throw_if (negb (String.eqb domain "read-only-domain")) "native filesystem mapper returned wrong backend domain"
   | _ => Throw "native filesystem mapper returned wrong backend domain"
   end) ≫= fun _ =>
  (match find "filesystem" payload with
   | Some (JString filesystem) =>
       match backend_by_fstype filesystem with
       | Some resolved =>
           throw_if (negb (String.eqb (id resolved) (id backend)))
             "native filesystem mapper returned wrong filesystem identity"
       | None => Throw "native filesystem mapper returned wrong filesystem identity"
       end
   | _ => Throw "native filesystem mapper omitted filesystem identity"
   end) ≫= fun _ =>
  match find "map_accuracy" payload with
  | Some (JString accuracy) =>
      throw_if (negb (backend_accepts_map_accuracy backend accuracy))
        "native filesystem mapper returned unexpected accuracy contract"
  | _ => Throw "native filesystem mapper returned unexpected accuracy contract"
  end.

Definition native_geometry (payload : Json) : exc unit :=
  match find "cells" payload with
  | Some (JArray cells) =>
      unit_size ← required_u64 payload "unit_size";
      total_units ← required_u64 payload "total_units";
      cell_count ← required_u64 payload "cell_count";
      throw_if ((unit_size =? 0) || (total_units =? 0) || (cell_count =? 0) ||
                negb (cell_count =? Z.of_nat (length cells))) geometry_error ≫= fun _ =>
      expected_start ← native_cells total_units 0 cells;
      throw_if (negb (expected_start =? total_units)) "native filesystem mapper did not cover the complete map"
  | _ => Throw "native filesystem mapper omitted allocation cells"
  end.

Definition validate_native_map (backend : BackendInfo) (payload : Json) : exc unit :=
  native_identity backend payload ≫= fun _ => native_geometry payload.

Definition native_map (backend : BackendInfo) (result : CommandResult) : exc Json :=
  payload ← parse_worker_json result "native filesystem mapper";
  validate_native_map backend payload ≫= fun _ =>
  let warning := concise (standard_error result) in
  if is_empty warning then Value payload else set "analysis_warning" (JString warning) payload.

Definition map_native (backend : BackendInfo) (path : string) (cells : Z) : mapper Json :=
  let! result := native_report backend path cells in
  pure (native_map backend result).

(** *** FAT *)

Record FatGeometry := mkFat {
  bytes_per_sector : Z;
  sectors_per_cluster : Z;
  cluster_size : Z;
  total_sectors : Z;
  data_start_sector : Z;
  data_clusters : Z;
  free_clusters : Z;
}.

(** The identity and the geometry of a FAT report, with its cells. *)
Definition fat_geometry (backend : BackendInfo) (payload : Json) : exc (FatGeometry * list Json) :=
  (match find "filesystem" payload with
   | Some (JString filesystem) =>
       match backend_by_fstype filesystem with
       | Some resolved =>
           throw_if (negb (String.eqb (id resolved) (id backend)))
             "native FAT mapper returned wrong filesystem identity"
       | None => Throw "native FAT mapper returned wrong filesystem identity"
       end
   | _ => Throw "native FAT mapper omitted filesystem identity"
   end) ≫= fun _ =>
  bytes ← required_u64 payload "bytes_per_sector";
  sectors ← required_u64 payload "sectors_per_cluster";
  cluster ← required_u64 payload "cluster_size";
  total_sectors ← required_u64 payload "total_sectors";
  data_start ← required_u64 payload "data_start_sector";
  total ← required_u64 payload "data_clusters";
  free ← required_u64 payload "free_clusters";
  cell_count ← required_u64 payload "cell_count";
  throw_if ((bytes =? 0) || (sectors =? 0) || (cluster =? 0) || (total_sectors =? 0) || (total =? 0) ||
            (total <? free)) "native FAT mapper returned invalid map geometry" ≫= fun _ =>
  product ← multiply_or_throw bytes sectors "FAT cluster geometry";
  match find "cells" payload with
  | Some (JArray cells) =>
      throw_if (negb (product =? cluster) || (cell_count =? 0) || negb (cell_count =? Z.of_nat (length cells)) ||
                (UINT64_MAX - 2 <? total)) "native FAT mapper returned invalid map geometry" ≫= fun _ =>
      data_sectors ← multiply_or_throw total sectors "FAT data sectors";
      throw_if ((total_sectors <? data_start) || (total_sectors -64 data_start <? data_sectors))
        "native FAT mapper returned invalid physical sector geometry" ≫= fun _ =>
      Value (mkFat bytes sectors cluster total_sectors data_start total free, cells)
  | _ => Throw "native FAT mapper returned invalid map geometry"
  end.

(** The start expected next and the totals so far. *)
Record FatTotals := mkFatTotals { fat_expected : Z; fat_free : Z; fat_used : Z }.

Definition fat_cell (total : Z) (sums : FatTotals) (cell : Json) : exc FatTotals :=
  throw_if (negb (is_object cell)) "native FAT mapper returned malformed allocation cell" ≫= fun _ =>
  start ← required_u64 cell "start";
  end_ ← required_u64 cell "end";
  free ← required_u64 cell "free";
  used ← required_u64 cell "used";
  fragmented ← required_u64 cell "fragmented";
  directory ← required_u64 cell "directory";
  bad ← required_u64 cell "bad";
  throw_if (negb (start =? fat_expected sums) || (end_ <? start) || (total +64 2 <=? end_))
    "native FAT mapper returned discontinuous allocation cells" ≫= fun _ =>
  let span := end_ -64 start +64 1 in
  throw_if ((span <? free) || (span <? used) || negb (free +64 used =? span) || (used <? fragmented) ||
            (used <? directory) || (used <? bad))
    "native FAT mapper returned inconsistent allocation counts" ≫= fun _ =>
  Value (mkFatTotals (end_ +64 1) (fat_free sums +64 free) (fat_used sums +64 used)).

Fixpoint fat_cells (total : Z) (sums : FatTotals) (cells : list Json) : exc FatTotals :=
  match cells with
  | [] => Value sums
  | cell :: cells => sums ← fat_cell total sums cell; fat_cells total sums cells
  end.

Definition fat_fields (backend : BackendInfo) (g : FatGeometry) (percent : Json) : exc (list (string * Json)) :=
  total_bytes ← multiply_or_throw (data_clusters g) (cluster_size g) "FAT capacity";
  free_bytes ← multiply_or_throw (free_clusters g) (cluster_size g) "FAT free space";
  used_bytes ← multiply_or_throw (data_clusters g -64 free_clusters g) (cluster_size g) "FAT used space";
  Value
    [("schema", unsigned_integer 1); ("backend", JString "read-only-domain");
     ("map_accuracy", JString (map_accuracy backend)); ("unit_size", unsigned_integer (cluster_size g));
     ("total_units", unsigned_integer (data_clusters g));
     ("display_unit_size", unsigned_integer (bytes_per_sector g));
     ("display_units_per_allocation_unit", unsigned_integer (sectors_per_cluster g));
     ("display_prefix_units", unsigned_integer (data_start_sector g));
     ("display_suffix_units", unsigned_integer
        (total_sectors g -64 data_start_sector g -64 (data_clusters g *64 sectors_per_cluster g)));
     ("display_total_units", unsigned_integer (total_sectors g)); ("display_unit_name", JString "sectors");
     ("total_bytes", unsigned_integer total_bytes); ("free_bytes", unsigned_integer free_bytes);
     ("used_bytes", unsigned_integer used_bytes); ("unknown_bytes", unsigned_integer 0);
     ("outside_bytes", unsigned_integer 0); ("filesystem_bytes", unsigned_integer total_bytes);
     ("fragmentation_percent", percent);
     ("details", JObject (object_of
        [("bytes_per_sector", unsigned_integer (bytes_per_sector g));
         ("sectors_per_cluster", unsigned_integer (sectors_per_cluster g));
         ("cluster_size", unsigned_integer (cluster_size g)); ("total_sectors", unsigned_integer (total_sectors g));
         ("data_start_sector", unsigned_integer (data_start_sector g));
         ("data_clusters", unsigned_integer (data_clusters g));
         ("free_clusters", unsigned_integer (free_clusters g)); ("fragmentation_available", JBool true);
         ("fragmentation_basis", JString "native C FAT directory catalogue and cluster-chain scan")]))]%string.

(** The percentage is zero without regular files. *)
Definition fat_percentage (payload : Json) : exc Json :=
  regular ← optional_u64 payload "regular_files" 0;
  fragmented ← optional_u64 payload "fragmented_files" 0;
  Value (if regular =? 0 then JNumber "0" else percentage fragmented regular).

Definition fat_map (backend : BackendInfo) (payload : Json) : exc Json :=
  '(g, cells) ← fat_geometry backend payload;
  sums ← fat_cells (data_clusters g) (mkFatTotals 2 0 0) cells;
  throw_if (negb (fat_expected sums =? data_clusters g +64 2) || negb (fat_free sums =? free_clusters g) ||
            negb (fat_used sums =? data_clusters g -64 free_clusters g))
    "native FAT mapper totals do not match filesystem geometry" ≫= fun _ =>
  percent ← fat_percentage payload;
  fields ← fat_fields backend g percent;
  set_all fields payload.

Definition map_fat (backend : BackendInfo) (path : string) (cells : Z) : mapper Json :=
  let! result := native_report backend path cells in
  let! payload := pure (parse_worker_json result "native FAT mapper") in
  pure (fat_map backend payload).

(** ** Identification and the whole map *)

Definition backend_identified_filesystem (backend : BackendInfo) (path : string) : prog mapE string :=
  let* r :=
    let! result := run_worker backend "identify" path [] 1048576 30000 in
    pure (parse_worker_json result "filesystem identifier") in
  Ret (match r with
       | Value payload =>
           match find "filesystem" payload with
           | Some (JString filesystem) =>
               let identified := lower_ascii filesystem in
               match backend_by_fstype identified with
               | Some resolved => if String.eqb (id resolved) (id backend) then identified else EmptyString
               | None => EmptyString
               end
           | _ => EmptyString
           end
       | Throw _ => EmptyString
       end).

Definition backend_probe (backend : BackendInfo) (path : string) : prog mapE bool :=
  let* identified := backend_identified_filesystem backend path in Ret (negb (is_empty identified)).

Definition map_with (backend : BackendInfo) (path : string) (cells : Z) : mapper Json :=
  match map_adapter backend with
  | NativeMap => map_native backend path cells
  | Affs => map_affs backend path cells
  | Exfat => map_exfat backend path cells
  | Ext => map_ext backend path cells
  | Fat => map_fat backend path cells
  | HfsPlus => map_hfsplus backend path cells
  | Ntfs => map_ntfs backend path cells
  | Xfs => map_xfs backend path cells
  end.

Definition runs_preflight (backend : BackendInfo) (result : Json) : bool :=
  match qualification_mode backend with
  | QualifyNone => false
  | WorkerPreflight => true
  | MapOrWorkerPreflight => negb (has_key "defrag_qualified" result && has_key "growth_qualified" result)
  end.

Definition keep_or_set (key : string) (value result : Json) : exc Json :=
  if has_key key result then Value result else set key value result.

Definition set_reason (key text : string) (result : Json) : exc Json :=
  if is_empty text then Value result else set key (JString text) result.

(** The qualification a volume is given. *)
Definition qualify (backend : BackendInfo) (path : string) (result : Json) :
    mapper (MutationQualification * MutationQualification) :=
  if runs_preflight backend result then
    let! _ := analysis_phase "Checking Defragment availability (up to 60 seconds)" in
    let* defrag := mutation_qualification backend path "preflight-defrag" in
    let! _ := analysis_phase "Checking Growth Defrag availability (up to 60 seconds)" in
    let* growth := mutation_qualification backend path "preflight-growth" in
    Ret (Value (defrag, growth))
  else Ret (Value (mkQualification true "", mkQualification true "")).

Definition add_qualification (defrag growth : MutationQualification) (result : Json) : exc Json :=
  result ← keep_or_set "defrag_qualified" (JBool (qualified defrag)) result;
  result ← keep_or_set "growth_qualified" (JBool (qualified growth)) result;
  result ← set_reason "defrag_reason" (reason defrag) result;
  set_reason "growth_reason" (reason growth) result.

Definition map_backend (backend : BackendInfo) (path : string) (cells : Z) : mapper Json :=
  let! _ := pure (map_capture_limit cells) in
  let! _ := analysis_phase "Scanning filesystem allocation and file metadata" in
  let! result := map_with backend path cells in
  let! result :=
    if negb (Z.land (capabilities backend) CAP_DEFRAG =? 0) then
      let! (defrag, growth) := qualify backend path result in
      pure (add_qualification defrag growth result)
    else Ret (Value result) in
  let! _ := analysis_phase "Preparing allocation map" in
  Ret (Value result).
End Native.

(** ** Lemmas: members *)

Section Facts.
  Context {common : Infiltratr} {doubles : Doubles}.

Lemma find_member key key' value members :
  find key (JObject (set_member key' value members)) =
  if String.eqb key key' then Some value else find key (JObject members).
Proof.
  unfold find. induction members as [|[k v] members IH]; cbn [set_member].
  - cbn [List.find fst]. rewrite String.eqb_sym. by destruct (String.eqb key key').
  - destruct (String.compare key' k) eqn:E; cbn [List.find fst].
    + apply String.compare_eq_iff in E as ->. rewrite String.eqb_sym. by destruct (String.eqb key k).
    + rewrite String.eqb_sym. by destruct (String.eqb key key').
    + destruct (String.eqb_spec k key) as [->|Hk]; [|exact IH].
      destruct (String.eqb_spec key key') as [->|]; [|done].
      pose proof (proj1 (string_compare_gt _ _) E) as E'. unfold string_lt in E'. congruence.
Qed.

Lemma find_set key key' value v v' :
  set key' value v = Value v' -> find key v' = if String.eqb key key' then Some value else find key v.
Proof. destruct v as [| | | | |members]; try done. intros [= <-]. apply find_member. Qed.

Lemma set_object key value v v' : set key value v = Value v' -> is_object v = true /\ is_object v' = true.
Proof. destruct v; try done. by intros [= <-]. Qed.

Lemma set_value key value v : is_object v = true -> exists v', set key value v = Value v'.
Proof. destruct v; try done. eauto. Qed.

Lemma find_set_other key key' value v v' :
  set key' value v = Value v' -> String.eqb key key' = false -> find key v' = find key v.
Proof. intros H E. by rewrite (find_set _ _ _ _ _ H), E. Qed.

(** Assignments leave the other members alone. *)
Lemma find_set_all fields v v' key :
  set_all fields v = Value v' -> forallb (fun kv => negb (String.eqb key (fst kv))) fields = true ->
  find key v' = find key v.
Proof.
  revert v. induction fields as [|[k x] fields IH]; intros v H Hk; cbn [set_all] in H; [by injection H as <-|].
  apply bind_value in H as (w & Hw & H). cbn [forallb fst] in Hk. apply andb_true_iff in Hk as [H1 H2].
  rewrite (IH _ H H2). eapply find_set_other; [exact Hw|]. by apply negb_true_iff in H1.
Qed.

Lemma add_summary_other payload keys result result' key :
  add_summary payload keys result = Value result' -> forallb (fun k => negb (String.eqb key k)) keys = true ->
  find key result' = find key result.
Proof.
  revert result. induction keys as [|k keys IH]; intros result H Hk; cbn [add_summary] in H; [by injection H as <-|].
  apply bind_value in H as (n & Hn & H). apply bind_value in H as (w & Hw & H).
  cbn [forallb] in Hk. apply andb_true_iff in Hk as [H1 H2].
  rewrite (IH _ H H2). eapply find_set_other; [exact Hw|]. by apply negb_true_iff in H1.
Qed.

Lemma unsigned_value_integer n : is_u64 n -> unsigned_value (unsigned_integer n) = Value n.
Proof.
  intros Hn. unfold unsigned_value, unsigned_integer. cbn [number_text mbind exc_bind].
  by rewrite (proj2 (from_chars_unsigned_iff _ _ (utoa_number n)) (conj Hn eq_refl)).
Qed.

Lemma unsigned_value_range v n : unsigned_value v = Value n -> is_u64 n.
Proof.
  unfold unsigned_value. intros H. apply bind_value in H as (t & Ht & H). unfold from_chars_unsigned in H.
  destruct (leading_digits t) as [d r] eqn:E. destruct (_ || _) eqn:Hb; [done|]. injection H as <-.
  breflect. unfold is_u64.
  pose proof (leading_digits_spec t) as Hs. rewrite E in Hs. destruct Hs as (_ & Hd & _).
  pose proof (decimal_value_nonneg d Hd). lia.
Qed.

Lemma required_u64_range v key n : required_u64 v key = Value n -> is_u64 n.
Proof. intros H. apply bind_value in H as (x & _ & H). by apply unsigned_value_range in H. Qed.

Lemma optional_u64_range v key d n : is_u64 d -> optional_u64 v key d = Value n -> is_u64 n.
Proof.
  unfold optional_u64. intros Hd H. destruct (find key v); [by apply unsigned_value_range in H|].
  by injection H as <-.
Qed.

Lemma required_find v key n : is_u64 n -> find key v = Some (unsigned_integer n) -> required_u64 v key = Value n.
Proof. intros Hn H. unfold required_u64, at_key. rewrite H. by apply unsigned_value_integer. Qed.

Lemma optional_find v key d n : is_u64 n -> find key v = Some (unsigned_integer n) -> optional_u64 v key d = Value n.
Proof. intros Hn H. unfold optional_u64. rewrite H. by apply unsigned_value_integer. Qed.

(** ** What a map says

    The numbers of a cell, and cells that divide an interval. *)

Record Report := mkReport {
  r_start : Z; r_end : Z; r_free : Z; r_used : Z; r_unknown : Z; r_outside : Z; r_bad : Z;
  r_fragmented : Z; r_directory : Z;
}.

Record reads_cell (v : Json) (c : Report) : Prop := {
  rc_object : is_object v = true;
  rc_start : required_u64 v "start" = Value (r_start c);
  rc_end : required_u64 v "end" = Value (r_end c);
  rc_free : required_u64 v "free" = Value (r_free c);
  rc_used : required_u64 v "used" = Value (r_used c);
  rc_unknown : optional_u64 v "unknown" 0 = Value (r_unknown c);
  rc_outside : optional_u64 v "outside" 0 = Value (r_outside c);
  rc_bad : optional_u64 v "bad" 0 = Value (r_bad c);
  rc_fragmented : optional_u64 v "fragmented" 0 = Value (r_fragmented c);
  rc_directory : optional_u64 v "directory" 0 = Value (r_directory c);
}.

(** Every unit of the cell is in exactly one of five counts; the overlays count
    used units only. *)
Definition balanced (c : Report) : Prop :=
  r_free c + r_used c + r_unknown c + r_outside c + r_bad c = r_end c - r_start c + 1 /\
  r_fragmented c <= r_used c /\ r_directory c <= r_used c.

(** Consecutive balanced cells from [lo] up to [hi]. *)
Fixpoint divides (lo hi : Z) (cells : list Json) : Prop :=
  match cells with
  | [] => lo = hi
  | v :: cells => exists c, reads_cell v c /\ r_start c = lo /\ lo <= r_end c < hi /\ balanced c /\
                            divides (r_end c + 1) hi cells
  end.

Record report_ranges (c : Report) : Prop := {
  rr_start : is_u64 (r_start c); rr_end : is_u64 (r_end c); rr_free : is_u64 (r_free c);
  rr_used : is_u64 (r_used c); rr_unknown : is_u64 (r_unknown c); rr_outside : is_u64 (r_outside c);
  rr_bad : is_u64 (r_bad c); rr_fragmented : is_u64 (r_fragmented c); rr_directory : is_u64 (r_directory c);
}.

Lemma zero_u64 : is_u64 0.
Proof. unfold is_u64. lia. Qed.

Lemma reads_cell_ranges v c : reads_cell v c -> report_ranges c.
Proof.
  intros []. pose proof zero_u64.
  split; first [by eapply required_u64_range | by eapply optional_u64_range].
Qed.

(** The test of the counts: no partial sum wraps when it holds. *)
Lemma sum_checked f u k o b n :
  is_u64 f -> is_u64 u -> is_u64 k -> is_u64 o -> is_u64 b -> is_u64 n ->
  (UINT64_MAX - u <? f) || (UINT64_MAX - k <? f +64 u) || (UINT64_MAX - o <? f +64 u +64 k) ||
  (UINT64_MAX - b <? f +64 u +64 k +64 o) || negb (f +64 u +64 k +64 o +64 b =? n) = false <->
  f + u + k + o + b = n.
Proof.
  unfold is_u64. intros Hf Hu Hk Ho Hb Hn. split.
  - rewrite !orb_false_iff, negb_false_iff, !Z.ltb_ge, Z.eqb_eq. intros ((((H1 & H2) & H3) & H4) & H5).
    rewrite (u64_small (f + u)) in * by (unfold is_u64; lia).
    rewrite (u64_small (f + u + k)) in * by (unfold is_u64; lia).
    rewrite (u64_small (f + u + k + o)) in * by (unfold is_u64; lia).
    by rewrite (u64_small (f + u + k + o + b)) in * by (unfold is_u64; lia).
  - intros H. rewrite (u64_small (f + u)), (u64_small (f + u + k)), (u64_small (f + u + k + o)),
      (u64_small (f + u + k + o + b)) by (unfold is_u64; lia).
    rewrite !orb_false_iff, negb_false_iff, !Z.ltb_ge, Z.eqb_eq. lia.
Qed.

Lemma counts_balanced c total :
  report_ranges c -> r_start c <= r_end c -> r_end c < total -> is_u64 total ->
  let span := r_end c -64 r_start c +64 1 in
  (span <? r_free c) || (span <? r_used c) || (span <? r_unknown c) || (span <? r_outside c) ||
  (span <? r_bad c) || (r_used c <? r_fragmented c) || (r_used c <? r_directory c) ||
  (UINT64_MAX - r_used c <? r_free c) || (UINT64_MAX - r_unknown c <? r_free c +64 r_used c) ||
  (UINT64_MAX - r_outside c <? r_free c +64 r_used c +64 r_unknown c) ||
  (UINT64_MAX - r_bad c <? r_free c +64 r_used c +64 r_unknown c +64 r_outside c) ||
  negb (r_free c +64 r_used c +64 r_unknown c +64 r_outside c +64 r_bad c =? span) = false
  <-> balanced c.
Proof.
  intros [H1 H2 H3 H4 H5 H6 H7 H8 H9] Hle Hlt Ht. cbv zeta. unfold is_u64 in H1, H2, Ht.
  rewrite (u64_small (r_end c - r_start c)), (u64_small (_ + 1)) by (unfold is_u64; lia).
  assert (Hn : is_u64 (r_end c - r_start c + 1)) by (unfold is_u64; lia).
  pose proof (sum_checked _ _ _ _ _ _ H3 H4 H5 H6 H7 Hn) as Hs.
  unfold balanced, is_u64 in *. split.
  - intros H. breflect. split; [|lia]. apply Hs.
    rewrite !orb_false_iff, negb_false_iff, !Z.ltb_ge, Z.eqb_eq. lia.
  - intros (Hsum & Hfr & Hdi). apply Hs in Hsum as Hb.
    rewrite !orb_false_iff, negb_false_iff, !Z.ltb_ge, Z.eqb_eq in Hb |- *. lia.
Qed.

Lemma native_cell_iff total s v next :
  is_u64 total ->
  native_cell total s v = Value next <->
  exists c, reads_cell v c /\ r_start c = s /\ s <= r_end c < total /\ balanced c /\ next = r_end c + 1.
Proof.
  intros Ht. unfold native_cell. split.
  - intros H. apply guard_value in H as [Hobj H]. apply negb_false_iff in Hobj.
    apply bind_value in H as (st & Hst & H). apply bind_value in H as (en & Hen & H).
    apply guard_value in H as [Hb H]. cbv zeta in H.
    apply bind_value in H as (fr & Hfr & H). apply bind_value in H as (us & Hus & H).
    apply bind_value in H as (un & Hun & H). apply bind_value in H as (ou & Hou & H).
    apply bind_value in H as (ba & Hba & H). apply bind_value in H as (fg & Hfg & H).
    apply bind_value in H as (di & Hdi & H). apply guard_value in H as [Hc [= <-]].
    set (c := mkReport st en fr us un ou ba fg di).
    assert (Hr : reads_cell v c) by (by split).
    exists c. split; [exact Hr|]. rewrite !orb_false_iff, negb_false_iff, Z.eqb_eq, Z.ltb_ge, Z.leb_gt in Hb.
    split; [apply Hb|]. split; [cbn; lia|].
    apply (counts_balanced c total) in Hc; [|by eapply reads_cell_ranges|cbn; lia|cbn; lia|done].
    split; [done|]. apply u64_small. unfold is_u64 in *. apply required_u64_range in Hen. unfold is_u64 in Hen. cbn; lia.
  - intros (c & Hr & <- & Hle & Hb & ->). pose proof (reads_cell_ranges _ _ Hr) as Hrr.
    pose proof (counts_balanced c total Hrr ltac:(lia) ltac:(lia) Ht) as Hc. apply Hc in Hb. cbv zeta in Hb.
    destruct Hr as [Ho R1 R2 R3 R4 R5 R6 R7 R8 R9]. rewrite Ho. cbn [negb throw_if mbind exc_bind].
    rewrite R1, R2. cbn [mbind exc_bind].
    rewrite Z.eqb_refl, (proj2 (Z.ltb_ge _ _)), (proj2 (Z.leb_gt _ _)) by lia. cbn [negb orb throw_if mbind exc_bind].
    cbv zeta. rewrite R3, R4, R5, R6, R7, R8, R9. cbn [mbind exc_bind]. rewrite Hb. cbn [throw_if mbind exc_bind].
    f_equal. apply u64_small. destruct Hrr. unfold is_u64 in *. lia.
Qed.

Lemma native_cells_iff total s cells :
  is_u64 total -> native_cells total s cells = Value total <-> divides s total cells.
Proof.
  intros Ht. revert s. induction cells as [|v cells IH]; intros s; cbn [native_cells divides].
  - split; [by intros [= ->]|by intros ->].
  - split.
    + intros H. apply bind_value in H as (next & Hn & H). apply native_cell_iff in Hn as (c & Hr & Hs & Hle & Hb & ->); [|done].
      exists c. split_and!; try done; try lia. by apply IH.
    + intros (c & Hr & Hs & Hle & Hb & H). rewrite (proj2 (native_cell_iff total s v (r_end c + 1) Ht)).
      * cbn [mbind exc_bind]. by apply IH.
      * by exists c.
Qed.

(** An accepted map: positive geometry and cells that divide it. *)
Definition divided_map (payload : Json) : Prop :=
  exists cells unit_size total_units,
    find "cells" payload = Some (JArray cells) /\
    required_u64 payload "unit_size" = Value unit_size /\ 0 < unit_size /\
    required_u64 payload "total_units" = Value total_units /\ 0 < total_units /\
    required_u64 payload "cell_count" = Value (Z.of_nat (length cells)) /\
    divides 0 total_units cells.

Lemma native_geometry_iff payload : native_geometry payload = Value tt <-> divided_map payload.
Proof.
  unfold native_geometry, divided_map. split.
  - destruct (find "cells" payload) as [[| | | |cells|]|]; try done. intros H.
    apply bind_value in H as (unit_size & Hu & H). apply bind_value in H as (total & Ht & H).
    apply bind_value in H as (count & Hc & H). apply guard_value in H as [Hg H].
    apply bind_value in H as (next & Hn & H). destruct (next =? total) eqn:E; [|done]. breflect. subst next.
    pose proof (required_u64_range _ _ _ Hu) as Ru. pose proof (required_u64_range _ _ _ Ht) as Rt.
    unfold is_u64 in Ru, Rt. exists cells, unit_size, total. split_and!; try done; try lia; [congruence|].
    by apply native_cells_iff.
  - intros (cells & unit_size & total & -> & Hu & Hu0 & Ht & Ht0 & Hc & Hd). rewrite Hu, Ht, Hc.
    cbn [mbind exc_bind]. pose proof (required_u64_range _ _ _ Ht) as Rt.
    assert (Hne : Z.of_nat (length cells) <> 0).
    { destruct cells; [cbn in Hd; lia|]. simpl. lia. }
    rewrite !(proj2 (Z.eqb_neq _ 0)), Z.eqb_refl by lia. cbn [negb orb throw_if mbind exc_bind].
    rewrite (proj2 (native_cells_iff total 0 cells Rt) Hd). cbn [mbind exc_bind]. by rewrite Z.eqb_refl.
Qed.

(** ** The map of free ranges *)

(** The numbers a cell shows; the maps made here have no units outside. *)
Definition shows (v : Json) (fields : list (string * Z)) : Prop :=
  is_object v = true /\ find "outside" v = None /\ Forall (fun kv => find (fst kv) v = Some (unsigned_integer (snd kv))) fields.

(** What stays of a cell when it is overlaid. *)
Definition cell_fields (c : Cell) (fragmented directory : Z) : list (string * Z) :=
  [("start", cell_start c); ("end", cell_end c - 1); ("free", c_free (cell_count_of c));
   ("used", c_used (cell_count_of c)); ("unknown", c_unknown (cell_count_of c)); ("bad", c_bad (cell_count_of c));
   ("fragmented", fragmented); ("directory", directory)]%string.

Record cell_ok (hi : Z) (c : Cell) : Prop := {
  ok_bounds : 0 <= cell_start c < cell_end c /\ cell_end c <= hi;
  ok_used : 0 <= c_used (cell_count_of c) <= hi;
}.

Lemma cells_exact_ok f lo hi cells :
  0 <= lo -> cells_exact f lo hi cells -> lo <= hi /\ Forall (cell_ok hi) cells.
Proof.
  revert lo. induction cells as [|c cells IH]; intros lo Hlo H; cbn [cells_exact] in H.
  - subst. split; [lia|constructor].
  - destruct H as (Hs & Hlt & Hc & H). destruct (IH (cell_end c) ltac:(lia) H) as [Hle Hall].
    split; [lia|]. constructor; [|done]. split; [lia|].
    pose proof (Hc 1 ltac:(lia)) as Hu. cbn in Hu. rewrite Hu.
    pose proof (units_nonneg f 1 lo (cell_end c)). pose proof (units_le f 1 lo (cell_end c) ltac:(lia)). lia.
Qed.

Lemma cell_json_shows hi c : is_u64 hi -> cell_ok hi c -> shows (cell_json c) (cell_fields c 0 0).
Proof.
  intros Hh [Hb _]. split; [done|]. split; [reflexivity|]. unfold cell_fields, cell_json.
  rewrite (u64_small (cell_end c - 1)) by (unfold is_u64 in *; lia).
  repeat (constructor; [reflexivity|]). constructor.
Qed.

Lemma shows_field v fields key n : shows v fields -> In (key, n) fields -> find key v = Some (unsigned_integer n).
Proof. intros (_ & _ & H) Hin. rewrite List.Forall_forall in H. by apply (H (key, n)). Qed.

(** One overlaid cell. *)
Lemma overlay_cell_spec field merged hi c fields v :
  is_u64 hi -> normal merged -> cell_ok hi c -> shows v fields ->
  In ("start"%string, cell_start c) fields -> In ("end"%string, cell_end c - 1) fields ->
  In ("used"%string, c_used (cell_count_of c)) fields ->
  exists v', overlay_cell field merged v = Value (v', skip_merged (cell_start c) merged) /\
    set field (unsigned_integer (Z.min (c_used (cell_count_of c))
      (covered_units merged (cell_start c) (cell_end c)))) v = Value v'.
Proof.
  intros Hh Hn [[Hb1 Hb2] Hu] Hs H1 H2 H3. unfold is_u64 in Hh. unfold overlay_cell.
  rewrite (required_find v "start" (cell_start c)), (required_find v "end" (cell_end c - 1)),
    (optional_find v "used" 0 (c_used (cell_count_of c))); try (by eapply shows_field); try (unfold is_u64; lia).
  cbn [mbind exc_bind]. cbv zeta. rewrite (u64_small (cell_end c - 1 + 1)) by (unfold is_u64; lia).
  replace (cell_end c - 1 + 1) with (cell_end c) by lia.
  destruct (skip_merged_spec (cell_start c) merged Hn) as (N1 & N2 & N3).
  rewrite overlap_exact; [|lia|lia|unfold is_u64; lia|done|done].
  rewrite (covered_units_ext (skip_merged (cell_start c) merged) merged) by (intros x Hx; apply N3; lia).
  destruct (set_value field (unsigned_integer (Z.min (c_used (cell_count_of c))
    (covered_units merged (cell_start c) (cell_end c)))) v (proj1 Hs)) as [v' E].
  exists v'. rewrite E. done.
Qed.

(** The fields with one of them replaced. *)
Definition put_field (field : string) (n : Z) (fields : list (string * Z)) : list (string * Z) :=
  map (fun kv => if String.eqb (fst kv) field then (field, n) else kv) fields.

Lemma shows_set field n v v' fields :
  set field (unsigned_integer n) v = Value v' -> String.eqb "outside" field = false -> shows v fields ->
  shows v' (put_field field n fields).
Proof.
  intros E Hout (Ho & Hn & Hf). split; [by apply set_object in E as [_ ?]|].
  split; [by rewrite (find_set_other _ _ _ _ _ E Hout)|]. unfold put_field. apply List.Forall_map.
  revert Hf. apply List.Forall_impl. intros [key m] Hm. cbn [fst snd] in *.
  destruct (String.eqb_spec key field) as [->|Hne]; cbn [fst snd].
  - by rewrite (find_set _ _ _ _ _ E), String.eqb_refl.
  - rewrite (find_set_other _ _ _ _ _ E); [done|]. by apply String.eqb_neq.
Qed.

(** All cells overlaid in one pass. *)
Lemma overlay_loop_spec field f merged hi lo vs cells (F : Cell -> list (string * Z)) :
  is_u64 hi -> 0 <= lo -> normal merged -> String.eqb "outside" field = false -> cells_exact f lo hi cells ->
  (forall c, In ("start"%string, cell_start c) (F c) /\ In ("end"%string, cell_end c - 1) (F c) /\
             In ("used"%string, c_used (cell_count_of c)) (F c)) ->
  Forall2 (fun v c => shows v (F c)) vs cells ->
  exists vs', overlay_loop field merged vs = Value vs' /\
    Forall2 (fun v c => shows v (put_field field (Z.min (c_used (cell_count_of c))
      (covered_units merged (cell_start c) (cell_end c))) (F c))) vs' cells.
Proof.
  intros Hh Hlo Hn Hf Hc HF H. revert lo merged Hlo Hn Hc.
  induction H as [|v c vs cells Hv _ IH]; intros lo merged Hlo Hn Hc; [by exists []|].
  destruct (cells_exact_ok _ _ _ _ Hlo Hc) as [_ Hok]. apply Forall_cons_1 in Hok as [Hok _].
  cbn [cells_exact] in Hc. destruct Hc as (Hs & Hlt & _ & Hc). destruct (HF c) as (F1 & F2 & F3).
  destruct (overlay_cell_spec field merged hi c (F c) v Hh Hn Hok Hv F1 F2 F3) as (v' & E & Es).
  destruct (skip_merged_spec (cell_start c) merged Hn) as (N1 & N2 & N3).
  destruct (IH (cell_end c) (skip_merged (cell_start c) merged)) as (vs' & E' & H'); [lia|done|done|].
  cbn [overlay_loop]. rewrite E. cbn [mbind exc_bind]. rewrite E'. cbn [mbind exc_bind].
  eexists. split; [reflexivity|]. constructor; [by eapply shows_set|].
  assert (Hall : Forall (fun c' => cell_end c <= cell_start c') cells).
  { clear -Hc. revert Hc. generalize (cell_end c). induction cells as [|d cells IH]; intros lo Hc; [constructor|].
    cbn [cells_exact] in Hc. destruct Hc as (Hs & Hlt & _ & Hc). constructor; [lia|].
    eapply List.Forall_impl; [|exact (IH _ Hc)]. simpl. intros. lia. }
  clear -H' Hall N3 Hs Hlt. revert Hall. induction H' as [|w d vs' cells Hw _ IH]; intros Hall; constructor.
  - apply Forall_cons_1 in Hall as [Hd _]. simpl in Hd.
    rewrite (covered_units_ext merged (skip_merged (cell_start c) merged)); [exact Hw|].
    intros x Hx. symmetry. apply N3. lia.
  - apply Forall_cons_1 in Hall as [_ Hall]. by apply IH.
Qed.

(** A pass over the cells of a map, and its other members. *)
Lemma overlay_map_spec field f ranges hi result vs cells (F : Cell -> list (string * Z)) result' n :
  is_u64 hi -> String.eqb "outside" field = false -> cells_exact f 0 hi cells ->
  (forall c, In ("start"%string, cell_start c) (F c) /\ In ("end"%string, cell_end c - 1) (F c) /\
             In ("used"%string, c_used (cell_count_of c)) (F c)) ->
  Forall2 (fun v c => shows v (F c)) vs cells -> find "cells" result = Some (JArray vs) ->
  overlay_map result ranges field = Value (result', n) ->
  (exists vs', find "cells" result' = Some (JArray vs') /\
    Forall2 (fun v c => shows v (put_field field (Z.min (c_used (cell_count_of c))
      (covered_units ranges (cell_start c) (cell_end c))) (F c))) vs' cells) /\
  (forall key, String.eqb key "cells" = false -> find key result' = find key result).
Proof.
  intros Hh Hf Hc HF Hv Hfind H. destruct (merge_ranges_spec ranges) as [Mn Mc].
  destruct (overlay_loop_spec field f (merge_ranges ranges) hi 0 vs cells F Hh ltac:(lia) Mn Hf Hc HF Hv)
    as (vs' & E & Hvs).
  unfold overlay_map, at_key in H. rewrite Hfind in H. cbn [mbind exc_bind array_items] in H.
  unfold overlay_ranges in H. cbv zeta in H. rewrite E in H. cbn [mbind exc_bind] in H.
  apply bind_value in H as (r & Hr & [= <- <-]). split.
  - exists vs'. split; [by rewrite (find_set _ _ _ _ _ Hr)|].
    eapply List.Forall2_impl; [|exact Hvs]. intros v c Hs. cbn beta in Hs.
    rewrite (covered_units_ext (merge_ranges ranges) ranges) in Hs by (intros; apply Mc). exact Hs.
  - intros key Hk. by rewrite (find_set_other _ _ _ _ _ Hr Hk).
Qed.

(** The ranges of a report are inside the volume. *)
Lemma pair_ranges_valid payload key total required l :
  pair_ranges payload key total required = Value l -> Forall (fun r => 0 <= start r < end_ r /\ end_ r <= total) l.
Proof.
  unfold pair_ranges. destruct (find key payload) as [[| | | |values|]|]; try done.
  - intros H. apply mapM_value in H. induction H as [|v r vs l Hr _ IH]; constructor; [|done].
    unfold pair_range in Hr. destruct v as [| | | |[|a [|b [|? ?]]]|]; try done.
    unthrow. injection Hr as <-. breflect. cbn [start end_].
    repeat match goal with H : unsigned_value _ = Value _ |- _ => apply unsigned_value_range in H; unfold is_u64 in H end. lia.
  - destruct required; [done|]. intros [= <-]. constructor.
Qed.

(** Marking ranges with one state. *)
Lemma mark_state s l x : state_of (map (fun r => mkState r s) l) x = if covered l x then s else 2.
Proof.
  induction l as [|r l IH]; [done|]. cbn [map]. rewrite state_of_cons, covered_cons, IH.
  unfold covers. cbn [range state]. by destruct ((start r <=? x) && (x <? end_ r)).
Qed.

Lemma mark_depth s l x : covered l x = false <-> depth (map (fun r => mkState r s) l) x = 0%nat.
Proof.
  unfold depth. induction l as [|r l IH]; [done|]. cbn [map List.filter]. rewrite covered_cons.
  unfold covers at 1. cbn [range]. destruct ((start r <=? x) && (x <? end_ r)); cbn [orb length]; [|exact IH].
  split; done.
Qed.

(** The state the free ranges give a unit. *)
Lemma free_and_used_state total free x :
  0 <= x < total -> state_of (free_and_used total free) x = if covered free x then 0 else 1.
Proof.
  intros Hx. unfold free_and_used. rewrite state_of_app, !mark_state. unfold complement_ranges.
  destruct (merge_ranges_spec free) as [Hn Hc]. destruct (complement_from_spec total 0 _ Hn) as [_ Hk].
  rewrite Hk, Hc, (proj2 (Z.leb_le 0 x)), (proj2 (Z.ltb_lt x total)) by lia.
  pose proof (mark_depth 0 free x) as Hd. destruct (covered free x).
  - destruct (depth _ x =? 0)%nat eqn:E; [|done]. apply Nat.eqb_eq, Hd in E. done.
  - rewrite (proj1 Hd eq_refl). done.
Qed.

Lemma free_and_used_natural total free :
  Forall (fun r => 0 <= start r) free -> Forall natural_range (free_and_used total free).
Proof.
  intros Hf. unfold free_and_used. apply Forall_app. split; apply List.Forall_map.
  - eapply List.Forall_impl; [|exact Hf]. intros r Hr. cbn in Hr; split; cbn; lia.
  - destruct (merge_ranges_spec free) as [Hn _]. destruct (complement_from_spec total 0 _ Hn) as [[_ Hg] _].
    eapply List.Forall_impl; [|exact Hg]. intros r Hr. split; cbn in *; lia.
Qed.

(** Counting with another function, and with two values. *)
Lemma units_ext f g s t lo hi :
  (forall x, lo <= x < hi -> (f x =? s) = (g x =? t)) -> units f s lo hi = units g t lo hi.
Proof.
  intros H. unfold units. f_equal. f_equal. apply List.filter_ext_in. intros x Hx.
  apply list_elem_of_In, elem_of_seqZ in Hx. apply H. lia.
Qed.

Lemma units_two f a b lo hi :
  a <> b -> lo <= hi -> (forall x, lo <= x < hi -> f x = a \/ f x = b) ->
  units f a lo hi + units f b lo hi = hi - lo.
Proof.
  intros Hab Hle H. unfold units.
  assert (G : forall l, Forall (fun x => f x = a \/ f x = b) l ->
    (length (List.filter (fun x => (f x =? a)%Z) l) + length (List.filter (fun x => (f x =? b)%Z) l) = length l)%nat).
  { induction 1 as [|x l Hx _ IH]; [done|]. cbn [List.filter length].
    destruct Hx as [-> | ->]; rewrite Z.eqb_refl; [rewrite (proj2 (Z.eqb_neq a b) Hab)|
      rewrite (proj2 (Z.eqb_neq b a)) by done]; cbn [length]; lia. }
  pose proof (G (seqZ lo (hi - lo))) as E. rewrite length_seqZ in E.
  enough (Forall (fun x => f x = a \/ f x = b) (seqZ lo (hi - lo))) by (specialize (E ltac:(done)); lia).
  apply Forall_seqZ. intros x Hx. apply H. lia.
Qed.

Lemma free_and_used_units total free lo hi :
  0 <= lo -> lo <= hi -> hi <= total ->
  units (state_of (free_and_used total free)) 0 lo hi = covered_units free lo hi /\
  units (state_of (free_and_used total free)) 1 lo hi = hi - lo - covered_units free lo hi /\
  units (state_of (free_and_used total free)) 2 lo hi = 0 /\ units (state_of (free_and_used total free)) 3 lo hi = 0.
Proof.
  intros Hlo Hle Hhi. set (f := state_of (free_and_used total free)).
  assert (Hf : forall x, lo <= x < hi -> f x = if covered free x then 0 else 1)
    by (intros; apply free_and_used_state; lia).
  assert (H0 : units f 0 lo hi = covered_units free lo hi).
  { apply units_ext. intros x Hx. rewrite Hf by done. by destruct (covered free x). }
  assert (H1 : units f 0 lo hi + units f 1 lo hi = hi - lo).
  { apply units_two; [done|done|]. intros x Hx. rewrite Hf by done. destruct (covered free x); tauto. }
  assert (Hn : forall s, 2 <= s -> units f s lo hi = 0).
  { intros s Hs. rewrite (units_ext f (fun _ => 0) s 1), (units_const _ 1 0); try done.
    intros x Hx. rewrite Hf by done.
    destruct (covered free x); apply Z.eqb_neq; lia. }
  split_and!; [done|lia|by apply Hn|by apply Hn].
Qed.

(** What [aggregate_ranges] makes. *)
Lemma aggregate_ranges_value total cell_count unit_size filesystem ranges accuracy details result :
  aggregate_ranges total cell_count unit_size filesystem ranges accuracy details = Value result ->
  exists cells totals, aggregate_cells total cell_count ranges = Value (cells, totals) /\
    find "cells" result = Some (JArray (map cell_json cells)) /\
    find "unit_size" result = Some (unsigned_integer unit_size) /\
    find "total_units" result = Some (unsigned_integer total) /\
    find "cell_count" result = Some (unsigned_integer (clamp_cells cell_count total)).
Proof.
  unfold aggregate_ranges. intros H. apply bind_value in H as ([cells totals] & Ha & H).
  exists cells, totals. split; [done|].
  repeat (apply bind_value in H as (? & _ & H)). injection H as <-.
  destruct details; split_and!; reflexivity.
Qed.

(** The cells of a map of free ranges, from [lo] to [hi]. *)
Fixpoint free_cells (free fragmented directory : list UnitRange) (lo hi : Z) (cells : list Json) : Prop :=
  match cells with
  | [] => lo = hi
  | v :: cells => exists next, lo < next /\
      let n := covered_units free lo next in
      let used := next - lo - n in
      shows v [("start", lo); ("end", next - 1); ("free", n); ("used", used); ("unknown", 0); ("bad", 0);
               ("fragmented", Z.min used (covered_units fragmented lo next));
               ("directory", Z.min used (covered_units directory lo next))]%string /\
      free_cells free fragmented directory next hi cells
  end.

Lemma cells_free_cells total free fragmented directory lo cells vs :
  0 <= lo -> cells_exact (state_of (free_and_used total free)) lo total cells ->
  Forall2 (fun v c => shows v (cell_fields c
    (Z.min (c_used (cell_count_of c)) (covered_units fragmented (cell_start c) (cell_end c)))
    (Z.min (c_used (cell_count_of c)) (covered_units directory (cell_start c) (cell_end c))))) vs cells ->
  free_cells free fragmented directory lo total vs.
Proof.
  intros Hlo Hc H. revert lo Hlo Hc. induction H as [|v c vs cells Hv _ IH]; intros lo Hlo Hc; [exact Hc|].
  destruct (cells_exact_ok _ _ _ _ Hlo Hc) as [_ Hok]. apply Forall_cons_1 in Hok as [[[_ Hhi] _] _].
  cbn [cells_exact] in Hc. destruct Hc as (<- & Hlt & Hk & Hc). cbn [free_cells]. exists (cell_end c). split; [done|].
  destruct (free_and_used_units total free (cell_start c) (cell_end c)) as (U0 & U1 & U2 & U3); try lia.
  pose proof (Hk 0 ltac:(lia)) as K0. pose proof (Hk 1 ltac:(lia)) as K1.
  pose proof (Hk 2 ltac:(lia)) as K2. pose proof (Hk 3 ltac:(lia)) as K3.
  change (count_at _ 0) with (c_free (cell_count_of c)) in K0.
  change (count_at _ 1) with (c_used (cell_count_of c)) in K1.
  change (count_at _ 2) with (c_unknown (cell_count_of c)) in K2.
  change (count_at _ 3) with (c_bad (cell_count_of c)) in K3. cbv zeta.
  rewrite U0 in K0. rewrite U1 in K1. rewrite U2 in K2. rewrite U3 in K3. unfold cell_fields in Hv.
  rewrite K0, K1, K2, K3 in Hv. split; [exact Hv|]. apply IH; [lia|done].
Qed.

Lemma covered_units_bounds ranges lo hi : lo <= hi -> 0 <= covered_units ranges lo hi <= hi - lo.
Proof. intros H. split; [apply units_nonneg|by apply units_le]. Qed.

(** Such cells pass the check of a native map. *)
Lemma free_cells_divide free fragmented directory lo hi cells :
  0 <= lo -> is_u64 hi -> free_cells free fragmented directory lo hi cells -> lo <= hi /\ divides lo hi cells.
Proof.
  intros Hlo Hh. revert lo Hlo. induction cells as [|v cells IH]; intros lo Hlo H; cbn [free_cells divides] in *; [lia|].
  destruct H as (next & Hlt & Hs & H). destruct (IH next ltac:(lia) H) as [Hle Hd]. split; [lia|].
  pose proof (covered_units_bounds free lo next ltac:(lia)) as Bf.
  pose proof (covered_units_bounds fragmented lo next ltac:(lia)) as Bg.
  pose proof (covered_units_bounds directory lo next ltac:(lia)) as Bd.
  cbv zeta in Hs. set (n := covered_units free lo next) in *. unfold is_u64 in Hh.
  set (fg := Z.min (next - lo - n) (covered_units fragmented lo next)) in *.
  set (di := Z.min (next - lo - n) (covered_units directory lo next)) in *.
  exists (mkReport lo (next - 1) n (next - lo - n) 0 0 0 fg di). cbn [r_start r_end]. split.
  { destruct Hs as (Ho & Hout & Hs). repeat (apply Forall_cons_1 in Hs as [? Hs]). cbn [fst snd] in *.
    split; cbn [r_start r_end r_free r_used r_unknown r_outside r_bad r_fragmented r_directory];
      first [done | apply required_find; [unfold is_u64; lia|done] | apply optional_find; [unfold is_u64; lia|done] |
             unfold optional_u64; by rewrite Hout]. }
  split; [done|]. split; [lia|]. split.
  - unfold balanced. cbn [r_start r_end r_free r_used r_unknown r_outside r_bad r_fragmented r_directory]. lia.
  - by replace (next - 1 + 1) with next by lia.
Qed.

Lemma set_details_other fields result result' key :
  set_details fields result = Value result' -> String.eqb key "details" = false -> find key result' = find key result.
Proof.
  intros H Hk. apply bind_value in H as (d & _ & H). by apply (find_set_other _ _ _ _ _ H).
Qed.

Lemma add_fragmentation_summary_other result payload copy result' key :
  add_fragmentation_summary result payload copy = Value result' ->
  forallb (fun k => negb (String.eqb key k)) ("fragmentation_percent" :: summary_keys)%string = true ->
  find key result' = find key result.
Proof.
  cbn [forallb]. intros H Hk. apply andb_true_iff in Hk as [H1 H2]. apply negb_true_iff in H1.
  apply bind_value in H as (r & Hr & H). rewrite <- (add_summary_other _ _ _ _ key Hr H2).
  destruct (find "fragmentation_percent" payload); [|by injection H as <-].
  destruct copy; [|by injection H as <-]. apply bind_value in H as (p & _ & H).
  by apply (find_set_other _ _ _ _ _ H).
Qed.

Lemma cell_fields_numbers c a b :
  In ("start"%string, cell_start c) (cell_fields c a b) /\ In ("end"%string, cell_end c - 1) (cell_fields c a b) /\
  In ("used"%string, c_used (cell_count_of c)) (cell_fields c a b).
Proof. unfold cell_fields. cbn. tauto. Qed.

Lemma cells_json_show f hi lo cells :
  is_u64 hi -> 0 <= lo -> cells_exact f lo hi cells ->
  Forall2 (fun v c => shows v (cell_fields c 0 0)) (map cell_json cells) cells.
Proof.
  intros Hh Hlo H. destruct (cells_exact_ok f lo hi cells Hlo H) as [_ Hok]. clear H.
  induction Hok as [|c cells Hc _ IH]; constructor; [|done]. by apply (cell_json_shows hi).
Qed.

(** The overlays of a report on exact cells. *)
Lemma overlay_fragmentation_spec f hi result payload units_name cells result' :
  is_u64 hi -> cells_exact f 0 hi cells -> find "cells" result = Some (JArray (map cell_json cells)) ->
  overlay_fragmentation result payload hi units_name = Value result' ->
  exists fragmented directory vs,
    pair_ranges payload "fragmented_ranges" hi false = Value fragmented /\
    pair_ranges payload "directory_ranges" hi false = Value directory /\
    find "cells" result' = Some (JArray vs) /\
    Forall2 (fun v c => shows v (cell_fields c
      (Z.min (c_used (cell_count_of c)) (covered_units fragmented (cell_start c) (cell_end c)))
      (Z.min (c_used (cell_count_of c)) (covered_units directory (cell_start c) (cell_end c))))) vs cells /\
    (forall key, String.eqb key "cells" = false -> String.eqb key "details" = false -> find key result' = find key result).
Proof.
  intros Hh Hc Hfind H. unfold overlay_fragmentation in H.
  apply bind_value in H as (fr & Hfr & H). apply bind_value in H as (di & Hdi & H).
  apply bind_value in H as ([r1 n1] & H1 & H). apply bind_value in H as ([r2 n2] & H2 & H).
  destruct (overlay_map_spec "fragmented" f fr hi result (map cell_json cells) cells (fun c => cell_fields c 0 0) r1 n1)
    as [(vs1 & F1 & S1) O1]; try done; [intros; apply cell_fields_numbers|by eapply cells_json_show|].
  destruct (overlay_map_spec "directory" f di hi r1 vs1 cells (fun c => cell_fields c
      (Z.min (c_used (cell_count_of c)) (covered_units fr (cell_start c) (cell_end c))) 0) r2 n2)
    as [(vs2 & F2 & S2) O2]; try done; [intros; apply cell_fields_numbers|].
  exists fr, di, vs2. split; [done|]. split; [done|]. split.
  - by rewrite (set_details_other _ _ _ _ H).
  - split; [exact S2|]. intros key K1 K2. by rewrite (set_details_other _ _ _ _ H), O2, O1.
Qed.

(** ** Runs of the mapper *)

Lemma ebind_runs {A B} (p : mapper A) (f : A -> mapper B) t b :
  runs (ebind p f) t (Returned (Value b)) ->
  exists a t1 t2, t = (t1 ++ t2)%list /\ runs p t1 (Returned (Value a)) /\ runs (f a) t2 (Returned (Value b)).
Proof.
  intros H. apply pbind_runs in H as [(m & _ & ?)|([a|w] & t1 & t2 & -> & H1 & H2)]; [done| |].
  - by exists a, t1, t2.
  - by apply runs_inv in H2 as [_ ?].
Qed.

(** A preflight of [mode] that a worker answered with success. *)
Definition passes (mode path : string) (ev : event mapE) : Prop :=
  match ev with
  | Event e x =>
      match e in mapE X return X -> Prop with
      | RunCapture command limit timeout => fun x =>
          exists program r, command = [program; mode; path] /\ limit = 2097152 /\ timeout = 60000 /\
                            x = Value r /\ return_code r = 0
      | _ => fun _ => False
      end x
  end.

Definition preflight_passed (mode path : string) (t : list (event mapE)) : Prop := Exists (passes mode path) t.
Definition silent_call X (e : mapE X) : Prop := match e with RunCapture _ _ _ => False | _ => True end.

Lemma silent_passes mode path t :
  Forall (fun ev => match ev with Event e _ => silent_call _ e end) t -> ~ preflight_passed mode path t.
Proof.
  intros H Hp. induction Hp as [[X e x] t Hp|ev t _ IH]; apply Forall_cons_1 in H as [He Ht]; [|by apply IH].
  by destruct e.
Qed.

Lemma passed_app mode path t1 t2 :
  preflight_passed mode path (t1 ++ t2)%list <-> preflight_passed mode path t1 \/ preflight_passed mode path t2.
Proof. unfold preflight_passed. apply List.Exists_app. Qed.

Lemma analysis_phase_silent phase : calls_in silent_call (analysis_phase phase).
Proof. unfold analysis_phase. destruct (dump _); cbn; auto. Qed.

Lemma runtime_silent {A} (p : prog runtimeE A) :
  calls_in silent_call (interp (fun X e => call (MapRuntime e)) p).
Proof. apply calls_interp. intros X e. by split. Qed.

(** A preflight qualifies exactly when its worker succeeds, and asks for no other. *)
Lemma mutation_qualification_runs backend path mode t q :
  runs (mutation_qualification backend path mode) t (Returned q) ->
  (qualified q = true <-> preflight_passed mode path t) /\
  (forall other, other <> mode -> ~ preflight_passed other path t).
Proof.
  unfold mutation_qualification, run_worker, worker_program. intros H.
  apply pbind_runs in H as [(m & _ & ?)|(r & t1 & t2 & -> & H1 & H2)]; [done|].
  apply runs_inv in H2 as [-> [= ->]]. rewrite app_nil_r.
  apply pbind_runs in H1 as [(m & _ & ?)|(p & t0 & t2 & -> & H0 & H2)]; [done|].
  pose proof (calls_runs silent_call _ _ _ (runtime_silent _) H0) as Hs.
  destruct p as [program|w].
  - apply pbind_runs in H2 as [(m & _ & ?)|(rr & t3 & t4 & -> & H2 & H3)]; [done|].
    apply call_runs in H2 as (x & -> & [= ->]).
    assert (H4 : t4 = [] /\ r = match x with
      | Value c => Value (mkResult (return_code c) (standard_output c) (diagnostics (standard_error c)))
      | Throw w => Throw w end) by (destruct x; apply runs_inv in H3 as [-> [= ->]]; done).
    destruct H4 as [-> ->]. rewrite app_nil_r.
    assert (Hp : forall m, preflight_passed m path (t0 ++ [Event (RunCapture ([program; mode; path] ++ [])%list 2097152 60000) x])%list
      <-> m = mode /\ exists c, x = Value c /\ return_code c = 0).
    { intros m. rewrite passed_app. split.
      - intros [Hn|Hn]; [by apply silent_passes in Hn|]. apply List.Exists_cons in Hn as [Hn|Hn]; [|by apply List.Exists_nil in Hn].
        destruct Hn as (pr & c & Hc & _ & _ & -> & Hz). injection Hc as _ ->. split; [done|]. by exists c.
      - intros (-> & c & -> & Hz). right. apply List.Exists_cons_hd. by exists program, c. }
    split; [|intros other Ho Hn; by apply Hp in Hn as [-> _]].
    rewrite Hp. destruct x as [c|w]; cbn [return_code qualified].
    + destruct (Z.eqb_spec (return_code c) 0) as [Hz|Hz]; cbn [qualified].
      * split; [|done]. intros _. split; [done|]. by exists c.
      * split; [done|]. intros (_ & ? & [= <-] & ?). done.
    + split; [done|]. by intros (_ & ? & ? & _).
  - apply runs_inv in H2 as [-> [= ->]]. rewrite app_nil_r. cbn [qualified].
    split; [|intros other _; by apply silent_passes]. split; [done|]. intros Hn. by apply silent_passes in Hn.
Qed.

Lemma find_keep_or_set key key' value v v' :
  keep_or_set key value v = Value v' ->
  find key' v' = if String.eqb key' key then Some (default value (find key v)) else find key' v.
Proof.
  unfold keep_or_set, has_key. intros H. destruct (find key v) as [w|] eqn:E.
  - injection H as <-. destruct (String.eqb_spec key' key) as [->|]; done.
  - by apply find_set with (key := key') in H.
Qed.

Lemma find_set_reason key key' text v v' :
  set_reason key text v = Value v' -> String.eqb key' key = false -> find key' v' = find key' v.
Proof.
  unfold set_reason. destruct (is_empty text); [by intros [= ->]|]. intros H Hk. by apply (find_set_other _ _ _ _ _ H).
Qed.

Lemma add_qualification_find defrag growth made result :
  add_qualification defrag growth made = Value result ->
  find "defrag_qualified" result = Some (default (JBool (qualified defrag)) (find "defrag_qualified" made)) /\
  find "growth_qualified" result = Some (default (JBool (qualified growth)) (find "growth_qualified" made)).
Proof.
  intros H. apply bind_value in H as (r1 & H1 & H). apply bind_value in H as (r2 & H2 & H).
  apply bind_value in H as (r3 & H3 & H4).
  split; rewrite (find_set_reason _ _ _ _ _ H4), (find_set_reason _ _ _ _ _ H3), (find_keep_or_set _ _ _ _ _ H2) by done; cbn [String.eqb Ascii.eqb Bool.eqb];
    rewrite (find_keep_or_set _ _ _ _ _ H1); reflexivity.
Qed.

(** Without one of the verdicts of the map, only a backend that needs none is not asked. *)
Lemma no_preflight_mode backend made :
  find "defrag_qualified" made = None \/ find "growth_qualified" made = None ->
  runs_preflight backend made = false <-> qualification_mode backend = QualifyNone.
Proof.
  intros H. unfold runs_preflight, has_key. destruct (qualification_mode backend); [done|done|].
  split; [|done]. destruct H as [->| ->]; [done|]. by rewrite andb_false_r.
Qed.

(** What [qualify] grants. *)
Lemma qualify_runs backend path made t defrag growth :
  runs (qualify backend path made) t (Returned (Value (defrag, growth))) ->
  (qualified defrag = true <-> runs_preflight backend made = false \/ preflight_passed "preflight-defrag" path t) /\
  (qualified growth = true <-> runs_preflight backend made = false \/ preflight_passed "preflight-growth" path t).
Proof.
  unfold qualify. destruct (runs_preflight backend made); intros H.
  - apply ebind_runs in H as ([] & t1 & t2 & -> & H1 & H).
    apply pbind_runs in H as [(m & _ & ?)|(d & t3 & t4 & -> & H3 & H)]; [done|].
    apply ebind_runs in H as ([] & t5 & t6 & -> & H5 & H).
    apply pbind_runs in H as [(m & _ & ?)|(g & t7 & t8 & -> & H7 & H)]; [done|].
    apply runs_inv in H as [-> [= <- <-]]. rewrite app_nil_r.
    apply (calls_runs silent_call _ _ _ (analysis_phase_silent _)) in H1, H5.
    pose proof (fun mode => silent_passes mode path t1 H1) as S1.
    pose proof (fun mode => silent_passes mode path t5 H5) as S5.
    apply mutation_qualification_runs in H3 as [Q3 N3]. apply mutation_qualification_runs in H7 as [Q7 N7].
    specialize (N3 "preflight-growth" ltac:(done)). specialize (N7 "preflight-defrag" ltac:(done)).
    specialize (S1 "preflight-growth") as S1g. specialize (S1 "preflight-defrag").
    specialize (S5 "preflight-growth") as S5g. specialize (S5 "preflight-defrag").
    rewrite Q3, Q7, !passed_app. split; split; try (right; tauto); intros [?|?]; [done|tauto|done|tauto].
  - apply runs_inv in H as [-> [= -> ->]]. cbn [qualified]. split; (split; [by left|done]).
Qed.

(** ** FAT maps *)

(** Consecutive cells from [lo] to [hi] whose units are free or used, with the
    totals of the two. *)
Fixpoint fat_divides (lo hi free used : Z) (cells : list Json) : Prop :=
  match cells with
  | [] => lo = hi /\ free = 0 /\ used = 0
  | v :: cells => exists next f u fg di ba,
      is_object v = true /\ required_u64 v "start" = Value lo /\ required_u64 v "end" = Value (next - 1) /\
      lo < next <= hi /\ required_u64 v "free" = Value f /\ required_u64 v "used" = Value u /\
      f + u = next - lo /\ required_u64 v "fragmented" = Value fg /\ required_u64 v "directory" = Value di /\
      required_u64 v "bad" = Value ba /\ fg <= u /\ di <= u /\ ba <= u /\
      fat_divides next hi (free - f) (used - u) cells
  end.

Lemma fat_cell_value total sums v sums' :
  is_u64 (total + 2) -> 0 <= total -> fat_cell total sums v = Value sums' ->
  2 <= fat_expected sums -> fat_free sums + fat_used sums = fat_expected sums - 2 ->
  0 <= fat_free sums -> 0 <= fat_used sums ->
  exists next f u fg di ba,
    is_object v = true /\ required_u64 v "start" = Value (fat_expected sums) /\
    required_u64 v "end" = Value (next - 1) /\ fat_expected sums < next <= total + 2 /\
    required_u64 v "free" = Value f /\ required_u64 v "used" = Value u /\ f + u = next - fat_expected sums /\
    required_u64 v "fragmented" = Value fg /\ required_u64 v "directory" = Value di /\
    required_u64 v "bad" = Value ba /\ fg <= u /\ di <= u /\ ba <= u /\
    sums' = mkFatTotals next (fat_free sums + f) (fat_used sums + u) /\ 0 <= f /\ 0 <= u.
Proof.
  intros Ht Ht0 H He Hsum Hf Hu. unfold fat_cell in H. apply guard_value in H as [Hobj H]. apply negb_false_iff in Hobj.
  apply bind_value in H as (st & Hst & H). apply bind_value in H as (en & Hen & H).
  apply bind_value in H as (fr & Hfr & H). apply bind_value in H as (us & Hus & H).
  apply bind_value in H as (fg & Hfg & H). apply bind_value in H as (di & Hdi & H).
  apply bind_value in H as (ba & Hba & H). apply guard_value in H as [Hb H]. cbv zeta in H.
  apply guard_value in H as [Hc [= <-]].
  pose proof (required_u64_range _ _ _ Hen) as Re. pose proof (required_u64_range _ _ _ Hfr) as Rf.
  pose proof (required_u64_range _ _ _ Hus) as Ru. unfold is_u64 in *.
  rewrite (u64_small (total + 2)) in Hb by done. breflect.
  assert (E : st = fat_expected sums) by lia. subst st.
  rewrite (u64_small (en - fat_expected sums)) in * by (unfold is_u64; lia).
  rewrite (u64_small (en - fat_expected sums + 1)) in * by (unfold is_u64; lia).
  assert (Hsp : fr + us = en - fat_expected sums + 1).
  { match goal with H : fr +64 us = _ |- _ => unfold u64 in H; revert H end. intros Hm.
    rewrite Z.mod_eq in Hm by lia. pose proof (Z.div_pos (fr + us) TWO64 ltac:(lia) ltac:(lia)).
    pose proof (Z.div_lt_upper_bound (fr + us) TWO64 2 ltac:(lia) ltac:(lia)). nia. }
  exists (en + 1), fr, us, fg, di, ba. replace (en + 1 - 1) with en by lia.
  split_and!; try done; try lia.
  f_equal; apply u64_small; unfold is_u64; lia.
Qed.

Lemma fat_cells_value total sums cells sums' :
  is_u64 (total + 2) -> 0 <= total -> fat_cells total sums cells = Value sums' ->
  2 <= fat_expected sums -> fat_free sums + fat_used sums = fat_expected sums - 2 ->
  0 <= fat_free sums -> 0 <= fat_used sums -> fat_expected sums' = total + 2 ->
  fat_divides (fat_expected sums) (total + 2) (fat_free sums' - fat_free sums) (fat_used sums' - fat_used sums) cells.
Proof.
  intros Ht Ht0. revert sums. induction cells as [|v cells IH]; intros sums H He Hs Hf Hu Hend.
  - injection H as ->. cbn [fat_divides]. lia.
  - apply bind_value in H as (next & Hc & H).
    destruct (fat_cell_value _ _ _ _ Ht Ht0 Hc He Hs Hf Hu)
      as (n & f & u & fg & di & ba & H1 & H2 & H3 & H4 & H5 & H6 & H7 & H8 & H9 & H10 & H11 & H12 & H13 & -> & ? & ?).
    cbn [fat_divides]. exists n, f, u, fg, di, ba. split_and!; try done; try lia.
    specialize (IH _ H). cbn [fat_expected fat_free fat_used] in IH.
    replace (fat_free sums' - fat_free sums - f) with (fat_free sums' - (fat_free sums + f)) by lia.
    replace (fat_used sums' - fat_used sums - u) with (fat_used sums' - (fat_used sums + u)) by lia.
    apply IH; try done; lia.
Qed.

Lemma multiply_value {laws : InfiltratrLaws common} a b context p :
  is_u64 a -> is_u64 b -> multiply_or_throw a b context = Value p -> p = a * b /\ is_u64 (a * b).
Proof.
  intros Ha Hb. unfold multiply_or_throw. rewrite multiply_spec by done.
  destruct (a * b <=? UINT64_MAX) eqn:E; [|done]. intros [= <-]. breflect. split; [done|].
  unfold is_u64 in *. nia.
Qed.

(** The geometry that is accepted. *)
Record fat_layout (g : FatGeometry) : Prop := {
  fl_cluster : cluster_size g = bytes_per_sector g * sectors_per_cluster g;
  fl_positive : 0 < bytes_per_sector g /\ 0 < sectors_per_cluster g /\ 0 < data_clusters g;
  fl_free : 0 <= free_clusters g <= data_clusters g;
  fl_clusters : is_u64 (data_clusters g + 2);
  fl_sectors : 0 <= data_start_sector g /\
               data_start_sector g + data_clusters g * sectors_per_cluster g <= total_sectors g;
  fl_words : is_u64 (cluster_size g) /\ is_u64 (total_sectors g);
}.

Lemma fat_geometry_value {laws : InfiltratrLaws common} backend payload g cells :
  fat_geometry backend payload = Value (g, cells) -> fat_layout g /\ find "cells" payload = Some (JArray cells).
Proof.
  intros H. apply bind_value in H as (? & _ & H).
  apply bind_value in H as (bytes & H1 & H). apply bind_value in H as (sectors & H2 & H).
  apply bind_value in H as (cluster & H3 & H). apply bind_value in H as (all & H4 & H).
  apply bind_value in H as (first & H5 & H). apply bind_value in H as (total & H6 & H).
  apply bind_value in H as (free & H7 & H). apply bind_value in H as (count & H8 & H).
  apply guard_value in H as [Hg H]. apply bind_value in H as (product & Hp & H).
  destruct (find "cells" payload) as [[| | | |vs|]|]; try done.
  apply guard_value in H as [Hg2 H]. apply bind_value in H as (data & Hd & H).
  apply guard_value in H as [Hg3 [= <- <-]]. split; [|done].
  apply required_u64_range in H1, H2, H3, H4, H5, H6, H7.
  destruct (multiply_value _ _ _ _ H1 H2 Hp) as [-> Rp]. destruct (multiply_value _ _ _ _ H6 H2 Hd) as [-> Rd].
  breflect. unfold is_u64 in *.
  rewrite (u64_small (all - first)) in * by (unfold is_u64; lia).
  split; cbn [cluster_size bytes_per_sector sectors_per_cluster data_clusters free_clusters data_start_sector total_sectors];
    unfold is_u64; lia.
Qed.

(** The value the last assignment to a member gives it. *)
Fixpoint assigned (key : string) (fields : list (string * Json)) : option Json :=
  match fields with
  | [] => None
  | (k, value) :: fields =>
      match assigned key fields with
      | Some last => Some last
      | None => if String.eqb key k then Some value else None
      end
  end.

Lemma find_assigned fields v v' key :
  set_all fields v = Value v' ->
  find key v' = match assigned key fields with Some value => Some value | None => find key v end.
Proof.
  revert v. induction fields as [|[k x] fields IH]; intros v H; cbn [set_all assigned] in *; [by injection H as ->|].
  apply bind_value in H as (w & Hw & H). rewrite (IH _ H), (find_set _ _ _ _ _ Hw).
  destruct (assigned key fields); [done|]. by destruct (String.eqb key k).
Qed.

Lemma assigned_u64 fields v v' key n :
  set_all fields v = Value v' -> assigned key fields = Some (unsigned_integer n) -> is_u64 n ->
  required_u64 v' key = Value n.
Proof. intros H Ha Hn. apply required_find; [done|]. by rewrite (find_assigned _ _ _ _ H), Ha. Qed.

(** ** Properties *)

(** C13: The map of an analyser's free ranges is exact: when it is made, its cells
    are consecutive from 0 to the total and as many as asked for (at least one, at
    most one per unit); in each the free count is the number of its units in a
    free range, in whatever order they come, the rest is used, none is
    unknown, bad or outside, and the fragmented and directory counts are the
    cell's units in those ranges, but at most its used units.  The map passes the
    check the mapper applies to the maps of its workers. *)
Theorem free_range_map_exact backend payload cells total unit_size filesystem details copy unit_name result :
  is_u64 total -> is_u64 unit_size -> 0 < unit_size -> cells < TWO32 ->
  generic_free_range_map backend payload cells total unit_size filesystem details copy unit_name = Value result ->
  exists free fragmented directory vs,
    pair_ranges payload "free_ranges" total true = Value free /\
    pair_ranges payload "fragmented_ranges" total false = Value fragmented /\
    pair_ranges payload "directory_ranges" total false = Value directory /\
    find "cells" result = Some (JArray vs) /\ Z.of_nat (length vs) = clamp_cells cells total /\
    free_cells free fragmented directory 0 total vs /\ native_geometry result = Value tt.
Proof.
  intros Ht Hu Hu0 Hc H. apply bind_value in H as (free & Hfree & H). apply bind_value in H as (r1 & H1 & H).
  apply bind_value in H as (r2 & H2 & H).
  destruct (aggregate_ranges_value _ _ _ _ _ _ _ _ H1) as (ccs & totals & Ha & Fc & Fu & Ft & Fn).
  assert (H0 : 0 < total).
  { destruct (Z.eq_dec total 0) as [-> |]; [done|]. unfold is_u64 in Ht. lia. }
  pose proof (aggregate_cells_spec total cells (free_and_used total free) Ht H0 Hc) as Hs.
  rewrite Ha in Hs. destruct Hs as (_ & Hlen & Hex & _).
  { apply free_and_used_natural. eapply List.Forall_impl; [|exact (pair_ranges_valid _ _ _ _ _ Hfree)]. simpl. lia. }
  pose proof (fun key => add_fragmentation_summary_other _ _ _ _ key H2) as O2.
  rewrite <- O2 in Fc, Fu, Ft, Fn by reflexivity.
  destruct (overlay_fragmentation_spec _ _ _ _ _ _ _ Ht Hex Fc H) as (fr & di & vs & Hfr & Hdi & Fv & Hv & O).
  rewrite <- O in Fu, Ft, Fn by reflexivity.
  pose proof (cells_free_cells _ _ _ _ _ _ _ (Z.le_refl 0) Hex Hv) as Hcells.
  assert (Hn : Z.of_nat (length vs) = clamp_cells cells total) by (by rewrite (List.Forall2_length Hv)).
  exists free, fr, di, vs. split_and!; try done. apply native_geometry_iff. exists vs, unit_size, total.
  destruct (clamp_cells_bounds cells total H0 Ht Hc) as (B1 & B2 & B3).
  split_and!; try done; try (by apply required_find).
  - rewrite Hn. apply required_find; [|done]. unfold is_u64 in *. lia.
  - apply (free_cells_divide _ _ _ _ _ _ (Z.le_refl 0) Ht Hcells).
Qed.

(** C21: Where the qualification of a volume comes from: in every run that makes a map
    of a backend that can defragment, the verdict the map itself gives on an operation
    is kept; when it gives none, the operation is granted exactly when the backend is
    registered to need no qualification, or the worker that was asked to preflight
    that operation on that path, after the map was made, ended with code 0. *)
Theorem qualification_sources backend path cells t result :
  runs (map_backend backend path cells) t (Returned (Value result)) ->
  Z.land (capabilities backend) CAP_DEFRAG <> 0 ->
  exists before mapping after made,
    t = (before ++ mapping ++ after)%list /\
    runs (map_with backend path cells) mapping (Returned (Value made)) /\
    forall key mode,
      key = "defrag_qualified"%string /\ mode = "preflight-defrag"%string \/
      key = "growth_qualified"%string /\ mode = "preflight-growth"%string ->
      (forall own, find key made = Some own -> find key result = Some own) /\
      (find key made = None -> exists granted, find key result = Some (JBool granted) /\
         (granted = true <-> qualification_mode backend = QualifyNone \/ preflight_passed mode path after)).
Proof.
  unfold map_backend. intros H Hcap. apply ebind_runs in H as (? & t0 & t1 & -> & H0 & H).
  apply ebind_runs in H as ([] & t2 & t3 & -> & _ & H). apply ebind_runs in H as (made & t4 & t5 & -> & Hm & H).
  apply ebind_runs in H as (r & t6 & t7 & -> & Hq & H). apply ebind_runs in H as ([] & t8 & t9 & -> & H8 & H).
  apply runs_inv in H as [-> [= <-]]. rewrite (proj2 (Z.eqb_neq _ _) Hcap) in Hq. cbn [negb] in Hq.
  apply ebind_runs in Hq as ([d g] & t10 & t11 & -> & Hq & Hadd). apply runs_inv in Hadd as [-> [= Hadd]].
  apply qualify_runs in Hq as [Qd Qg]. symmetry in Hadd. apply add_qualification_find in Hadd as [Fd Fg].
  apply (calls_runs silent_call _ _ _ (analysis_phase_silent _)) in H8.
  pose proof (fun mode => silent_passes mode path t8 H8) as S8.
  exists (t0 ++ t2)%list, t4, ((t10 ++ []) ++ t8 ++ [])%list, made.
  split; [by rewrite <- !app_assoc|]. split; [done|]. rewrite !app_nil_r.
  intros key mode [[-> ->]|[-> ->]].
  - rewrite Fd. split; [by intros own ->|]. intros Hno. rewrite Hno. exists (qualified d). split; [done|].
    rewrite passed_app, Qd, (no_preflight_mode _ _ (or_introl Hno)). specialize (S8 "preflight-defrag"). tauto.
  - rewrite Fg. split; [by intros own ->|]. intros Hno. rewrite Hno. exists (qualified g). split; [done|].
    rewrite passed_app, Qg, (no_preflight_mode _ _ (or_intror Hno)). specialize (S8 "preflight-growth"). tauto.
Qed.

(** C25: The check of a worker's map is exact: a map is accepted precisely when it
    has the right schema, domain, filesystem and accuracy, its geometry is
    positive, and its cells run without gap or overlap from 0 to the total with
    counts that add up to each cell's units, no sum of them wrapping. *)
Theorem validate_native_map_exact backend payload :
  validate_native_map backend payload = Value tt <->
  (required_u64 payload "schema" = Value 1 /\ find "backend" payload = Some (JString "read-only-domain") /\
   (exists filesystem resolved, find "filesystem" payload = Some (JString filesystem) /\
      backend_by_fstype filesystem = Some resolved /\ id resolved = id backend) /\
   (exists accuracy, find "map_accuracy" payload = Some (JString accuracy) /\
      backend_accepts_map_accuracy backend accuracy = true)) /\ divided_map payload.
Proof.
  unfold validate_native_map. rewrite bind_value, <- native_geometry_iff. split.
  - intros ([] & H & Hg). split; [|done]. unfold native_identity in H. apply bind_value in H as (schema & Hs & H).
    apply guard_value in H as [H1 H]. apply negb_false_iff, Z.eqb_eq in H1 as ->.
    apply bind_value in H as ([] & Hb & H). apply bind_value in H as ([] & Hf & H).
    unfold required_u64, at_key. destruct (find "schema" payload) as [sv|]; [|done]. split; [done|].
    destruct (find "backend" payload) as [[| | |domain| |]|]; try done.
    apply (throw_if_value _ _ (fun _ => Value tt)) in Hb. apply negb_false_iff, String.eqb_eq in Hb as ->. split; [done|].
    destruct (find "filesystem" payload) as [[| | |filesystem| |]|]; try done.
    destruct (backend_by_fstype filesystem) as [resolved|] eqn:Er; [|done].
    apply (throw_if_value _ _ (fun _ => Value tt)) in Hf. apply negb_false_iff, String.eqb_eq in Hf.
    split; [by exists filesystem, resolved|].
    destruct (find "map_accuracy" payload) as [[| | |accuracy| |]|]; try done.
    apply (throw_if_value _ _ (fun _ => Value tt)) in H. apply negb_false_iff in H. by exists accuracy.
  - intros ((Hs & Hb & (filesystem & resolved & Hf & Hr & Hi) & (accuracy & Ha & Hacc)) & Hg). exists tt. split; [|done].
    unfold native_identity. unfold required_u64, at_key in Hs. destruct (find "schema" payload) as [sv|]; [|done].
    cbn [mbind exc_bind] in Hs. rewrite Hs, Hb, Hf, Hr, Hi, Ha, Hacc, String.eqb_refl. reflexivity.
Qed.

(** C26: A FAT map is exact and stays inside the volume: in every map made from a
    worker's report the cells run from cluster 2 to the last without gap or
    overlap, each of their units is free or used, and their totals are the free
    and used clusters of the geometry; the map keeps those cells, the sectors
    before, in and after the clusters add up to all sectors, and the free and used
    bytes to the capacity, without wrapping. *)
Theorem fat_map_exact {laws : InfiltratrLaws common} backend payload result :
  fat_map backend payload = Value result ->
  exists g cells suffix,
    fat_layout g /\ find "cells" result = Some (JArray cells) /\
    fat_divides 2 (data_clusters g + 2) (free_clusters g) (data_clusters g - free_clusters g) cells /\
    required_u64 result "total_units" = Value (data_clusters g) /\
    required_u64 result "display_prefix_units" = Value (data_start_sector g) /\
    required_u64 result "display_suffix_units" = Value suffix /\
    required_u64 result "display_total_units" = Value (total_sectors g) /\
    data_start_sector g + data_clusters g * sectors_per_cluster g + suffix = total_sectors g /\
    required_u64 result "free_bytes" = Value (free_clusters g * cluster_size g) /\
    required_u64 result "used_bytes" = Value ((data_clusters g - free_clusters g) * cluster_size g) /\
    required_u64 result "total_bytes" = Value (data_clusters g * cluster_size g).
Proof.
  intros H. apply bind_value in H as ([g cells] & Hg & H).
  destruct (fat_geometry_value _ _ _ _ Hg) as [[G1 (G2a & G2b & G2c) G3 G4 G5 (G6a & G6b)] Hc].
  apply bind_value in H as (sums & Hs & H). apply guard_value in H as [Hb H].
  apply bind_value in H as (percent & _ & H). apply bind_value in H as (fields & Hf & H).
  unfold is_u64 in G4, G6a, G6b.
  rewrite (u64_small (data_clusters g + 2)), (u64_small (data_clusters g - free_clusters g)) in Hb
    by (unfold is_u64; lia).
  rewrite !orb_false_iff, !negb_false_iff, !Z.eqb_eq in Hb. destruct Hb as [[B1 B2] B3].
  unfold fat_fields in Hf. apply bind_value in Hf as (tb & Htb & Hf). apply bind_value in Hf as (fb & Hfb & Hf).
  apply bind_value in Hf as (ub & Hub & [= Hf]).
  rewrite (u64_small (data_clusters g - free_clusters g)) in Hub by (unfold is_u64; lia).
  apply multiply_value in Htb as [-> Rt]; [|unfold is_u64; lia..].
  apply multiply_value in Hfb as [-> Rf]; [|unfold is_u64; lia..].
  apply multiply_value in Hub as [-> Ru]; [|unfold is_u64; lia..].
  set (data := data_clusters g * sectors_per_cluster g) in *.
  assert (Hd : 0 <= data) by (subst data; nia).
  exists g, cells, (total_sectors g - data_start_sector g - data).
  split; [by split|]. split; [by rewrite (find_set_all _ _ _ "cells" H) by (by rewrite <- Hf)|]. split.
  { pose proof (fat_cells_value (data_clusters g) (mkFatTotals 2 0 0) cells sums G4 ltac:(lia) Hs) as Hv.
    cbn [fat_expected fat_free fat_used] in Hv. rewrite B2, B3, !Z.sub_0_r in Hv. apply Hv; lia. }
  pose proof (fun key n => assigned_u64 _ _ _ key n H) as A. rewrite <- Hf in A.
  rewrite (u64_small data), (u64_small (total_sectors g - data_start_sector g)), (u64_small (_ - data)) in A
    by (unfold is_u64; lia).
  split_and!; try (apply A; [reflexivity|unfold is_u64 in *; lia]). lia.
Qed.
End Facts.

(** ** Witnesses *)

Definition demo_doubles : Doubles := {| real_copy := fun v => Value v; percentage := fun _ _ => JNumber "0" |}.

Definition unnamed_backend : BackendInfo := mkBackend "" "" [] 0 "" "" NativeMap [] QualifyNone "" [].

(** A backend of the registry. *)
Definition demo_backend (fstype : string) : BackendInfo := default unnamed_backend (backend_by_fstype fstype).

Definition demo_pair (a b : Z) : Json := JArray [unsigned_integer a; unsigned_integer b].

(** An XFS report of ten blocks, out of order. *)
Definition demo_xfs : Json := JObject (object_of
  [("filesystem", JString "xfs"); ("block_size", unsigned_integer 4096); ("dblocks", unsigned_integer 10);
   ("free_ranges", JArray [demo_pair 5 9; demo_pair 0 2]);
   ("fragmented_ranges", JArray [demo_pair 2 5])])%string.

Definition demo_xfs_map : Json := Eval vm_compute in
  value_or (generic_free_range_map (common := infiltratr_reference) (doubles := demo_doubles)
    (demo_backend "xfs") demo_xfs 3 10 4096 "xfs" [] false "blocks") JNull.

Lemma free_range_map_exact_witness : native_geometry demo_xfs_map = Value tt.
Proof.
  destruct (free_range_map_exact (common := infiltratr_reference) (doubles := demo_doubles)
    (demo_backend "xfs") demo_xfs 3 10 4096 "xfs" [] false "blocks" demo_xfs_map
    ltac:(unfold is_u64; lia) ltac:(unfold is_u64; lia) ltac:(lia) ltac:(lia) ltac:(vm_compute; reflexivity))
    as (? & ? & ? & ? & _ & _ & _ & _ & _ & _ & Hg). exact Hg.
Defined.

(** A FAT report of four clusters in two cells. *)
Definition demo_fat_cell (lo hi free used : Z) : Json := JObject (object_of
  [("start", unsigned_integer lo); ("end", unsigned_integer hi); ("free", unsigned_integer free);
   ("used", unsigned_integer used); ("fragmented", unsigned_integer 0); ("directory", unsigned_integer 1);
   ("bad", unsigned_integer 0)])%string.

Definition demo_fat : Json := JObject (object_of
  [("filesystem", JString "fat16"); ("bytes_per_sector", unsigned_integer 512);
   ("sectors_per_cluster", unsigned_integer 4); ("cluster_size", unsigned_integer 2048);
   ("total_sectors", unsigned_integer 30); ("data_start_sector", unsigned_integer 10);
   ("data_clusters", unsigned_integer 4); ("free_clusters", unsigned_integer 1); ("cell_count", unsigned_integer 2);
   ("cells", JArray [demo_fat_cell 2 3 1 1; demo_fat_cell 4 5 0 2])])%string.

Definition demo_fat_result : Json := Eval vm_compute in
  value_or (fat_map (common := infiltratr_reference) (doubles := demo_doubles) (demo_backend "fat16") demo_fat) JNull.

Lemma fat_map_exact_witness :
  exists suffix, required_u64 demo_fat_result "display_suffix_units" = Value suffix.
Proof.
  destruct (fat_map_exact (common := infiltratr_reference) (doubles := demo_doubles)
    (laws := infiltratr_reference_laws) (demo_backend "fat16") demo_fat demo_fat_result
    ltac:(vm_compute; reflexivity)) as (g & cells & suffix & _ & _ & _ & _ & _ & H & _).
  exists suffix. exact H.
Defined.

(** A host with every program installed, whose XFS worker reports [demo_xfs],
    passes the preflight of Defragment and fails that of Growth Defrag. *)
Definition demo_worker (command : list string) : exc CommandResult :=
  match command with
  | [_; "analyse-json"; _] => Value (mkResult 0 (value_or (dump demo_xfs) "") "")
  | [_; "preflight-defrag"; _] => Value (mkResult 0 "" "")
  | _ => Value (mkResult 1 "" "no room")
  end%string.

Definition demo_mapper (X : Type) (e : mapE X) (s : unit) : X * unit :=
  (match e in mapE X return X with
   | MapRuntime e =>
       match e in runtimeE X return X with
       | RuntimeGetenv _ => None
       | ReadSelfExe => None
       | ExecutableFile _ => true
       end
   | RunCapture command _ _ => demo_worker command
   | AnalysisPhase _ => tt
   end, s).

Definition demo_mapping :=
  execute demo_mapper (map_backend (common := infiltratr_reference) (doubles := demo_doubles)
    (demo_backend "xfs") "/dev/sdb1" 3) tt.

Definition demo_result : Json := Eval vm_compute in
  match fst demo_mapping with Returned (Value v) => v | _ => JNull end.

Lemma qualification_sources_witness :
  exists made after, find "defrag_qualified" made = None -> exists granted,
    find "defrag_qualified" demo_result = Some (JBool granted) /\
    (granted = true <-> qualification_mode (demo_backend "xfs") = QualifyNone \/
                      preflight_passed "preflight-defrag" "/dev/sdb1" after).
Proof.
  pose proof (execute_runs demo_mapper (map_backend (common := infiltratr_reference) (doubles := demo_doubles)
    (demo_backend "xfs") "/dev/sdb1" 3) tt) as Hr.
  change (fst _) with (fst demo_mapping) in Hr.
  replace (fst demo_mapping) with (Returned (Value demo_result)) in Hr by (vm_compute; reflexivity).
  destruct (qualification_sources (common := infiltratr_reference) (doubles := demo_doubles)
    (demo_backend "xfs") "/dev/sdb1" 3 _ demo_result Hr ltac:(vm_compute; discriminate))
    as (t0 & t1 & t2 & made & _ & _ & H).
  exists made, t2. apply (H "defrag_qualified" "preflight-defrag"). by left.
Defined.
