(* ===== verification/ProcessRunner.v ===== *)
(** The process runner, [native/process.cpp]: [run_capture] starts a program in a
    group of its own, captures its two streams in a thread each, and waits for it
    within a limit of time and of output.  The calls before the start are a function
    of what each answers; after it the loop of [waitpid] and the two readers are
    steps taken in any order. *)
From S2P Require Import Prelude Effects CString Exceptions MapRanges AllocationMap.
#[local] Open Scope Z_scope.

(** ** The environment of the child *)

Definition C_locale : list string := ["LC_ALL=C"; "LANG=C"]%string.

Definition is_locale (item : string) : bool := String.prefix "LC_ALL=" item || String.prefix "LANG=" item.

Definition child_environment (environ : list string) : list string :=
  (List.filter (fun item => negb (is_locale item)) environ ++ C_locale)%list.

(** ** Before the start *)

Inductive Descriptor := StdoutRead | StdoutWrite | StderrRead | StderrWrite.

#[export] Instance descriptor_eq_dec : EqDecision Descriptor.
Proof. solve_decision. Defined.

Inductive SpawnAct :=
| Opened (read write : Descriptor)
| Closed (d : Descriptor)
| InitActions
| DestroyActions
| InitAttributes
| DestroyAttributes
| Spawned.

Section Spawn.
  Variable strerror : errno -> string.
  (** What the call of that name answers. *)
  Variable fails : string -> option errno.

Definition system_error (action : string) (e : errno) : string := (action ++ ": " ++ strerror e)%string.

(** A call that throws under its name: what is undone on the way out, or what the
    call did and what follows. *)
Definition attempt (name : string) (undone acts : list SpawnAct) (next : list SpawnAct * exc unit) :
    list SpawnAct * exc unit :=
  match fails name with
  | Some e => (undone, Throw (system_error name e))
  | None => let '(later, r) := next in ((acts ++ later)%list, r)
  end.

(** The destructors of the four [Fd]. *)
Definition close_stdout : list SpawnAct := [Closed StdoutWrite; Closed StdoutRead].
Definition close_all : list SpawnAct := [Closed StderrWrite; Closed StderrRead; Closed StdoutWrite; Closed StdoutRead].

Definition file_actions : list string :=
  ["posix_spawn stdout dup"; "posix_spawn stderr dup"; "posix_spawn stdout read close"; "posix_spawn stderr read close";
   "posix_spawn stdout write close"; "posix_spawn stderr write close"].

(** [run_capture] up to the threads. *)
Definition start_child (command : list string) : list SpawnAct * exc unit :=
  match command with
  | [] | EmptyString :: _ => ([], Throw "cannot run an empty command")
  | _ =>
      attempt "pipe stdout" [] [Opened StdoutRead StdoutWrite]
        (attempt "pipe stderr" close_stdout [Opened StderrRead StderrWrite]
          (attempt "posix_spawn_file_actions_init" close_all [InitActions]
            (fold_right (fun name next => attempt name (DestroyActions :: close_all) [] next)
              (attempt "posix_spawnattr_init" (DestroyActions :: close_all) [InitAttributes]
                (attempt "posix_spawn process group" (DestroyAttributes :: DestroyActions :: close_all) []
                  (attempt "posix_spawnp" (DestroyAttributes :: DestroyActions :: close_all)
                    [Spawned; DestroyAttributes; DestroyActions; Closed StdoutWrite; Closed StderrWrite] ([], Value tt))))
              file_actions)))
  end%string.
End Spawn.

(** ** A reader *)

Definition kObservedLine : Z := 4096.

(** What one [read] answers. *)
Inductive Read := Data (bytes : string) | Eof | Interrupted | ReadFails.

Record Stream := mkStream {
  captured : string;
  (** The line that is not complete, and the lines given to the observer. *)
  part : string;
  observed : list string;
  exceeded : bool;
  ended : bool;
}.

Definition new_stream : Stream := mkStream EmptyString EmptyString [] false false.

Fixpoint observe (line : string) (bytes : string) : list string * string :=
  match bytes with
  | EmptyString => ([], line)
  | String c bytes =>
      if bool_decide (c = LF) then
        let '(lines, last) := observe EmptyString bytes in (line :: lines, last)
      else observe (if strlen line <? kObservedLine then (line ++ String c EmptyString)%string else line) bytes
  end.

Definition first_bytes (n : Z) (s : string) : string := String.substring 0 (Z.to_nat n) s.

Section Reader.
  Variable limit : Z.
  Variable observer : bool.

(** One turn of [read_stream]; [None] once it returned. *)
Definition read_step (answer : Read) (x : Stream) : option Stream :=
  if ended x then None
  else
    match answer with
    | Eof | ReadFails => Some (mkStream (captured x) (part x) (observed x) (exceeded x) true)
    | Interrupted => Some x
    | Data bytes =>
        let '(lines, last) := if observer then observe (part x) bytes else ([], part x) in
        let available := if strlen (captured x) <? limit then limit - strlen (captured x) else 0 in
        let kept := Z.min available (strlen bytes) in
        let over := kept <? strlen bytes in
        Some (mkStream (captured x ++ first_bytes kept bytes) last (observed x ++ lines)%list over over)
    end.

Fixpoint read_stream (answers : list Read) (x : Stream) : option Stream :=
  match answers with
  | [] => Some x
  | answer :: answers => x ← read_step answer x; read_stream answers x
  end.
End Reader.

(** ** The wait *)

(** What [waitpid] answers. *)
Inductive Waited := WaitedChild (status : Z) | NotYet | WaitInterrupted | WaitFails (e : errno).

Inductive RunAct :=
| KillGroup
| KillChild
| Reaped (status : Z).

Inductive Phase :=
| Polling
| Reaping
(** The threads are joined, after the child ended or the wait failed. *)
| Joining (status : Z)
| JoiningFailed (e : errno)
| Finished (r : exc CommandResult).

Record Runner := mkRunner {
  phase : Phase;
  out : Stream;
  err : Stream;
  killed_for_output : bool;
  timed_out : bool;
  cancelled : bool;
}.

Definition new_runner : Runner := mkRunner Polling new_stream new_stream false false false.

Definition set_phase (x : Phase) (s : Runner) : Runner :=
  mkRunner x (out s) (err s) (killed_for_output s) (timed_out s) (cancelled s).
Definition set_out (x : Stream) (s : Runner) : Runner :=
  mkRunner (phase s) x (err s) (killed_for_output s) (timed_out s) (cancelled s).
Definition set_err (x : Stream) (s : Runner) : Runner :=
  mkRunner (phase s) (out s) x (killed_for_output s) (timed_out s) (cancelled s).
Definition set_cause (output time cancel : bool) (s : Runner) : Runner :=
  mkRunner (phase s) (out s) (err s) (killed_for_output s || output) (timed_out s || time) (cancelled s || cancel).

(** [terminate_process_group]: what it did, and the errno it leaves; the answers
    are those of the two calls of [kill]. *)
Definition terminate_process_group (group child : option errno) (e : errno) : list RunAct * errno :=
  match group with
  | None => ([KillGroup], e)
  | Some g => if decide (g = ESRCH) then ([KillGroup; KillChild], default g child) else ([KillGroup], g)
  end.

(** [WIFEXITED], [WEXITSTATUS], [WIFSIGNALED] and [WTERMSIG] of the C library. *)
Definition term_signal (status : Z) : Z := Z.land status 127.

Definition return_code_of (status : Z) : Z :=
  if term_signal status =? 0 then Z.land (Z.shiftr status 8) 255
  else if negb (term_signal status =? 127) then 128 + term_signal status
  else 126.

Section Run.
  Variable strerror : errno -> string.
  Variable limit timeout : Z.
  Variable observer : bool.

(** The end of [run_capture]. *)
Definition captured_result (status : Z) (s : Runner) : exc CommandResult :=
  throw_if (killed_for_output s || exceeded (out s) || exceeded (err s))
    "child process output exceeded safety limit" ≫= fun _ =>
  throw_if (timed_out s) "child process exceeded execution-time limit" ≫= fun _ =>
  throw_if (cancelled s) "child process cancelled" ≫= fun _ =>
  Value (mkResult (return_code_of status) (captured (out s)) (captured (err s))).

Inductive RunChoice :=
(** A turn of a reader. *)
| ReadOut (answer : Read)
| ReadErr (answer : Read)
(** A turn of the loop: what [waitpid] answers, the milliseconds since the start,
    the flag of the caller, and the answers of [kill]. *)
| Poll (answer : Waited) (elapsed : Z) (cancel : bool) (group child : option errno)
(** A turn of the loop after the group was killed. *)
| Reap (answer : Waited)
| Join.

(** The part of a turn after [waitpid] had no child. *)
Definition watch (elapsed : Z) (cancel : bool) (group child : option errno) (s : Runner) : Runner * list RunAct :=
  let over := exceeded (out s) || exceeded (err s) in
  let late := (0 <? timeout) && (timeout <=? elapsed) in
  if over || cancel || late then
    (set_phase Reaping (set_cause over (negb over && negb cancel) (negb over && cancel) s),
     fst (terminate_process_group group child Enone))
  else (s, []).

Definition poll (answer : Waited) (elapsed : Z) (cancel : bool) (group child : option errno) (s : Runner) :
    Runner * list RunAct :=
  match answer with
  | WaitedChild status => (set_phase (Joining status) s, [Reaped status])
  | WaitFails e =>
      if decide (e = EINTR) then watch elapsed cancel group child s
      else let '(acts, e) := terminate_process_group group child e in (set_phase (JoiningFailed e) s, acts)
  | WaitInterrupted | NotYet => watch elapsed cancel group child s
  end.

(** The blocking wait does not answer before the child ended; the status is the
    zero of its declaration when it fails. *)
Definition reap_killed (answer : Waited) (s : Runner) : option (Runner * list RunAct) :=
  match answer with
  | WaitedChild status => Some (set_phase (Joining status) s, [Reaped status])
  | WaitInterrupted => Some (s, [])
  | WaitFails e => if decide (e = EINTR) then Some (s, []) else Some (set_phase (Joining 0) s, [])
  | NotYet => None
  end.

Definition join (s : Runner) : option Runner :=
  if negb (ended (out s)) || negb (ended (err s)) then None
  else
    match phase s with
    | Joining status => Some (set_phase (Finished (captured_result status s)) s)
    | JoiningFailed e => Some (set_phase (Finished (Throw (system_error strerror "waitpid" e))) s)
    | _ => None
    end.

Definition runner_step (c : RunChoice) (s : Runner) : option (Runner * list RunAct) :=
  match c with
  | ReadOut answer => x ← read_step limit false answer (out s); Some (set_out x s, [])
  | ReadErr answer => x ← read_step limit observer answer (err s); Some (set_err x s, [])
  | Poll answer elapsed cancel group child =>
      match phase s with Polling => Some (poll answer elapsed cancel group child s) | _ => None end
  | Reap answer => match phase s with Reaping => reap_killed answer s | _ => None end
  | Join => s ← join s; Some (s, [])
  end.

Fixpoint run_capture (choices : list RunChoice) (s : Runner) : option (Runner * list RunAct) :=
  match choices with
  | [] => Some (s, [])
  | c :: choices =>
      '(s, acts) ← runner_step c s;
      '(s, later) ← run_capture choices s;
      Some (s, (acts ++ later)%list)
  end.
End Run.

(** ** Descriptors and the environment *)

Definition opened_by (a : SpawnAct) : list Descriptor := match a with Opened r w => [r; w] | _ => [] end.
Definition closed_by (a : SpawnAct) : list Descriptor := match a with Closed d => [d] | _ => [] end.

(** The descriptors left open. *)
Definition left_open (acts : list SpawnAct) : list Descriptor :=
  List.filter (fun d => negb (existsb (fun c => bool_decide (d = c)) (flat_map closed_by acts))) (flat_map opened_by acts).

Definition count (a : SpawnAct) (acts : list SpawnAct) : nat :=
  length (List.filter (fun b => match a, b with
                                | InitActions, InitActions | DestroyActions, DestroyActions
                                | InitAttributes, InitAttributes | DestroyAttributes, DestroyAttributes
                                | Spawned, Spawned => true | _, _ => false end) acts).

(** Whatever call before the start fails, and when none does: no descriptor and
    no attribute is left but the two ends that are read, nothing is released twice,
    and the child is started exactly when nothing is thrown. *)
Theorem start_releases strerror fails command :
  let '(acts, r) := start_child strerror fails command in
  left_open acts = (if is_value r then [StdoutRead; StderrRead] else []) /\
  NoDup (flat_map closed_by acts) /\
  count Spawned acts = (if is_value r then 1 else 0)%nat /\
  count DestroyActions acts = count InitActions acts /\ count DestroyAttributes acts = count InitAttributes acts.
Proof.
  assert (N : forall l : list Descriptor, bool_decide (NoDup l) = true -> NoDup l) by (intros l H; by apply bool_decide_eq_true in H).
  unfold start_child. destruct command as [|[|c program] arguments]; [split_and!; try done; constructor..|].
  unfold attempt, file_actions. cbn [fold_right].
  repeat (match goal with |- context [fails ?n] => destruct (fails n) end; cbv beta iota;
          [split_and!; [reflexivity|apply N; vm_compute; reflexivity|reflexivity..]|]).
  cbv beta iota. split_and!; [reflexivity|apply N; vm_compute; reflexivity|reflexivity..].
Qed.

(** The child runs in the C locale, with the rest of the environment unchanged. *)
Theorem environment_is_c environ :
  List.filter is_locale (child_environment environ) = C_locale /\
  List.filter (fun item => negb (is_locale item)) (child_environment environ) =
    List.filter (fun item => negb (is_locale item)) environ.
Proof.
  unfold child_environment. rewrite !List.filter_app. cbn [List.filter C_locale]. split.
  - change (List.filter is_locale C_locale) with C_locale. induction environ as [|x l IH]; [done|]. cbn [List.filter].
    destruct (is_locale x) eqn:E; cbn [negb List.filter app]; [done|]. by rewrite E.
  - rewrite app_nil_r. induction environ as [|x l IH]; [done|]. cbn [List.filter].
    destruct (is_locale x) eqn:E; cbn [negb List.filter]; [done|]. rewrite E. cbn [negb]. by f_equal.
Qed.

(** ** The readers *)

(** What was read. *)
Definition received (answers : list Read) : string :=
  String.concat EmptyString (map (fun a => match a with Data bytes => bytes | _ => EmptyString end) answers).

Lemma concat_text_cons x l : String.concat EmptyString (x :: l) = (x ++ String.concat EmptyString l)%string.
Proof. destruct l; cbn; [by rewrite append_nil_r|done]. Qed.

Lemma observe_app line a b :
  observe line (a ++ b) =
    (let '(l1, p) := observe line a in let '(l2, q) := observe p b in ((l1 ++ l2)%list, q)).
Proof.
  revert line. induction a as [|c a IH]; intros line; cbn [append observe].
  - by destruct (observe line b).
  - destruct (bool_decide (c = LF)); [|apply IH]. rewrite IH. destruct (observe EmptyString a) as [l1 p].
    by destruct (observe p b).
Qed.

Lemma first_bytes_all n s : strlen s <= n -> first_bytes n s = s.
Proof.
  unfold first_bytes, strlen. intros H. revert n H. induction s as [|c s IH]; intros n H; [by destruct (Z.to_nat n)|].
  cbn [String.length] in H. destruct (Z.to_nat n) as [|k] eqn:E; [lia|]. cbn [String.substring]. f_equal.
  specialize (IH (Z.of_nat k) ltac:(lia)). by rewrite Nat2Z.id in IH.
Qed.

Lemma first_bytes_app n s t : strlen s <= n -> first_bytes n (s ++ t) = (s ++ first_bytes (n - strlen s) t)%string.
Proof.
  unfold first_bytes, strlen. revert n. induction s as [|c s IH]; intros n H; cbn [append String.length] in *.
  - by replace (n - Z.of_nat 0) with n by lia.
  - destruct (Z.to_nat n) as [|k] eqn:E; [lia|]. cbn [String.substring]. f_equal.
    specialize (IH (Z.of_nat k) ltac:(lia)). rewrite Nat2Z.id in IH. rewrite IH. f_equal. f_equal. lia.
Qed.

Section Readers.
  Variable limit : Z.
  Variable observer : bool.

(** What a reader has done with the text it read. *)
Record has_read (text : string) (x : Stream) : Prop := {
  rd_captured : captured x = first_bytes limit text;
  rd_exceeded : exceeded x = (limit <? strlen text);
  rd_ended : exceeded x = true -> ended x = true;
  rd_observed : observer = true -> observe EmptyString text = (observed x, part x);
}.

Lemma reads_new : 0 <= limit -> has_read EmptyString new_stream.
Proof.
  intros H. split; try done; cbn; [by unfold first_bytes; destruct (Z.to_nat limit)|].
  symmetry. by apply Z.ltb_ge.
Qed.

Lemma read_step_reads answer text x x' :
  has_read text x -> read_step limit observer answer x = Some x' -> has_read (text ++ received [answer]) x'.
Proof.
  intros [Hc He Hx Ho] H. unfold read_step in H. destruct (ended x) eqn:E; [done|].
  assert (Hl : strlen text <= limit).
  { destruct (exceeded x) eqn:Ee; [by specialize (Hx eq_refl)|]. symmetry in He. by apply Z.ltb_ge in He. }
  destruct answer as [bytes| | |]; cbn; rewrite ?append_nil_r; [|injection H as <-; split; cbn; rewrite ?E; done..].
  rewrite (first_bytes_all _ _ Hl) in Hc. rewrite Hc in H.
  destruct (if observer then observe (part x) bytes else ([], part x)) as [lines last] eqn:Eo. injection H as <-.
  pose proof (strlen_nonneg bytes) as Hb.
  assert (Ek : (Z.min (if strlen text <? limit then limit - strlen text else 0) (strlen bytes) <? strlen bytes) =
               (limit <? strlen (text ++ bytes))).
  { rewrite strlen_app. destruct (Z.ltb_spec (strlen text) limit), (Z.ltb_spec limit (strlen text + strlen bytes));
      (apply Z.ltb_lt || apply Z.ltb_ge); lia. }
  split; cbn [captured exceeded ended observed part]; try done.
  - rewrite first_bytes_app by done. f_equal. destruct (Z.ltb_spec (strlen text) limit).
    + destruct (Z.min_spec (limit - strlen text) (strlen bytes)) as [[_ ->]|[? ->]]; [done|].
      by rewrite !first_bytes_all by lia.
    + replace (limit - strlen text) with 0 by lia. by rewrite Z.min_l by lia.
  - intros ->. rewrite observe_app, (Ho eq_refl), Eo. done.
Qed.

Lemma received_cons a l : received (a :: l) = (received [a] ++ received l)%string.
Proof. unfold received. cbn [map]. by rewrite !concat_text_cons, append_nil_r. Qed.

Lemma read_stream_reads answers text x x' :
  has_read text x -> read_stream limit observer answers x = Some x' -> has_read (text ++ received answers) x'.
Proof.
  revert text x. induction answers as [|a answers IH]; intros text x Hx H; cbn [read_stream] in H.
  - cbn. rewrite append_nil_r. by injection H as <-.
  - apply bind_Some in H as (y & Hy & H). rewrite received_cons, <- append_assoc.
    eapply IH; [|exact H]. by eapply read_step_reads.
Qed.

(** A reader keeps exactly the first [limit] bytes of what it read and tells
    exactly when there were more; the observer is given the lines of that text, each
    cut to what it keeps of a line; and none of it depends on how the bytes were
    split among the reads. *)
Theorem read_stream_exact answers x :
  0 <= limit -> read_stream limit observer answers new_stream = Some x ->
  captured x = first_bytes limit (received answers) /\ exceeded x = (limit <? strlen (received answers)) /\
  (observer = true -> observe EmptyString (received answers) = (observed x, part x)).
Proof. intros Hl H. by destruct (read_stream_reads answers EmptyString _ _ (reads_new Hl) H). Qed.
End Readers.

(** ** Whole runs *)

Definition outs (choices : list RunChoice) : list Read :=
  flat_map (fun c => match c with ReadOut answer => [answer] | _ => [] end) choices.
Definition errs (choices : list RunChoice) : list Read :=
  flat_map (fun c => match c with ReadErr answer => [answer] | _ => [] end) choices.

Definition is_reaped (a : RunAct) : bool := match a with Reaped _ => true | _ => false end.

(** A turn of the loop that found the time over, or the flag of the caller. *)
Definition polled_late (timeout : Z) (c : RunChoice) : Prop :=
  match c with Poll _ elapsed _ _ _ => 0 < timeout <= elapsed | _ => False end.
Definition polled_cancelled (c : RunChoice) : Prop := match c with Poll _ _ cancel _ _ => cancel = true | _ => False end.

Section Runs.
  Variable strerror : errno -> string.
  Variable limit timeout : Z.
  Variable observer : bool.

Abbreviation step := (runner_step strerror limit timeout observer).
Abbreviation run := (run_capture strerror limit timeout observer).

Lemma watch_streams elapsed cancel group child s :
  out (fst (watch timeout elapsed cancel group child s)) = out s /\
  err (fst (watch timeout elapsed cancel group child s)) = err s.
Proof. unfold watch. by destruct (_ || _). Qed.

Lemma poll_streams answer elapsed cancel group child s :
  out (fst (poll timeout answer elapsed cancel group child s)) = out s /\
  err (fst (poll timeout answer elapsed cancel group child s)) = err s.
Proof.
  destruct answer as [status| | |e]; cbn [poll]; [done|apply watch_streams..|].
  destruct (decide (e = EINTR)); [apply watch_streams|]. by destruct (terminate_process_group _ _ _).
Qed.

Lemma reap_streams answer s s' acts : reap_killed answer s = Some (s', acts) -> out s' = out s /\ err s' = err s.
Proof. unfold reap_killed. destruct answer as [status| | |e]; [..|destruct (decide (e = EINTR))]; intros H; by simplify_eq. Qed.

Lemma join_streams s s' : join strerror s = Some s' ->
  out s' = out s /\ err s' = err s /\ ended (out s) = true /\ ended (err s) = true.
Proof.
  unfold join. destruct (ended (out s)), (ended (err s)); try done. cbn. intros H.
  by destruct (phase s); simplify_eq.
Qed.

(** Each thread reads its own stream. *)
Lemma step_streams c s s' acts :
  step c s = Some (s', acts) ->
  read_stream limit false (outs [c]) (out s) = Some (out s') /\
  read_stream limit observer (errs [c]) (err s) = Some (err s').
Proof.
  intros H. destruct c as [a|a|a t f g k|a|]; cbn [runner_step] in H; cbn.
  - apply bind_Some in H as (x & -> & H). by simplify_eq.
  - apply bind_Some in H as (x & -> & H). by simplify_eq.
  - destruct (phase s); try done. pose proof (poll_streams a t f g k s) as [E1 E2]. injection H as H.
    rewrite H in E1, E2. cbn in E1, E2. by rewrite E1, E2.
  - destruct (phase s); try done. by apply reap_streams in H as [-> ->].
  - apply bind_Some in H as (x & H & E). simplify_eq. by apply join_streams in H as (-> & -> & _).
Qed.

Lemma read_stream_app l o a b x : read_stream l o (a ++ b) x = (y ← read_stream l o a x; read_stream l o b y).
Proof.
  revert x. induction a as [|c a IH]; intros x; [done|]. cbn [app read_stream].
  destruct (read_step l o c x); cbn; [apply IH|done].
Qed.

Lemma run_streams choices s s' acts :
  run choices s = Some (s', acts) ->
  read_stream limit false (outs choices) (out s) = Some (out s') /\
  read_stream limit observer (errs choices) (err s) = Some (err s').
Proof.
  revert s acts. induction choices as [|c choices IH]; intros s acts H; cbn [run_capture] in H; [by simplify_eq|].
  apply bind_Some in H as ([s1 a] & H1 & H). apply bind_Some in H as ([s2 b] & H2 & H). simplify_eq.
  apply step_streams in H1 as [O1 E1]. apply IH in H2 as [O2 E2].
  change (outs (c :: choices)) with (outs ([c] ++ choices)). change (errs (c :: choices)) with (errs ([c] ++ choices)).
  unfold outs, errs in *. rewrite !flat_map_app, !read_stream_app, O1, E1. done.
Qed.

(** *** What is known of a run *)

Definition stopped (s : Runner) : bool := killed_for_output s || timed_out s || cancelled s.

(** A failure says what happened. *)
Definition told (m : string) (s : Runner) : Prop :=
  (exists e, m = system_error strerror "waitpid" e) \/
  (m = "child process output exceeded safety limit"%string /\
   (killed_for_output s || exceeded (out s) || exceeded (err s)) = true) \/
  (m = "child process exceeded execution-time limit"%string /\ timed_out s = true) \/
  (m = "child process cancelled"%string /\ cancelled s = true).

Definition progress (s : Runner) (acts : list RunAct) : Prop :=
  match phase s with
  | Polling => acts = [] /\ stopped s = false
  | Reaping => stopped s = true /\ forallb (fun a => negb (is_reaped a)) acts = true
  | Joining status => stopped s = false -> acts = [Reaped status]
  | JoiningFailed _ => True
  | Finished (Throw m) => told m s
  | Finished (Value r) =>
      exists status, acts = [Reaped status] /\ exceeded (out s) = false /\ exceeded (err s) = false /\
        r = mkResult (return_code_of status) (captured (out s)) (captured (err s))
  end.

Record good (choices : list RunChoice) (s : Runner) (acts : list RunAct) : Prop := {
  gd_progress : progress s acts;
  (** Nothing is signalled once the child was reaped. *)
  gd_order : exists kills last, acts = (kills ++ last)%list /\ forallb (fun a => negb (is_reaped a)) kills = true /\
    (last = [] \/ exists status, last = [Reaped status]);
  gd_over : killed_for_output s = true -> exceeded (out s) = true \/ exceeded (err s) = true;
  gd_late : timed_out s = true -> Exists (polled_late timeout) choices;
  gd_cancel : cancelled s = true -> Exists polled_cancelled choices;
  gd_killed : stopped s = true -> In KillGroup acts;
  gd_out : exceeded (out s) = true -> ended (out s) = true;
  gd_err : exceeded (err s) = true -> ended (err s) = true;
  gd_finished : match phase s with Finished _ => ended (out s) = true /\ ended (err s) = true | _ => True end;
}.

Lemma good_new : good [] new_runner [].
Proof. split; try done. exists [], []. split_and!; [done..|by left]. Qed.

Lemma read_step_ends o answer x x' :
  read_step limit o answer x = Some x' ->
  ended x = false /\ ((exceeded x = true -> ended x = true) -> exceeded x' = true -> ended x' = true).
Proof.
  unfold read_step. destruct (ended x) eqn:E; [done|]. intros H. split; [done|]. intros Hx.
  destruct answer as [bytes| | |]; [|injection H as <-..]; cbn; [|done|by rewrite E|done].
  destruct (if o then _ else _) as [lines last]. by injection H as <-.
Qed.

(** A reader does not touch the rest. *)
Lemma good_read choices c s s' acts :
  good choices s acts -> phase s' = phase s -> killed_for_output s' = killed_for_output s ->
  timed_out s' = timed_out s -> cancelled s' = cancelled s ->
  (ended (out s) = false /\ err s' = err s \/ ended (err s) = false /\ out s' = out s) ->
  (exceeded (out s') = true -> ended (out s') = true) -> (exceeded (err s') = true -> ended (err s') = true) ->
  (exceeded (out s) = true -> exceeded (out s') = true) -> (exceeded (err s) = true -> exceeded (err s') = true) ->
  good (choices ++ [c]) s' (acts ++ []).
Proof.
  intros [] E1 E2 E3 E4 Hs Ho He Mo Me. rewrite app_nil_r.
  assert (Hf : match phase s with Finished _ => False | _ => True end)
    by (destruct (phase s); try done; destruct gd_finished0, Hs as [[? ?]|[? ?]]; congruence).
  split; rewrite ?E1, ?E2, ?E3, ?E4; try done.
  - unfold progress, stopped in *. rewrite E1, E2, E3, E4. by destruct (phase s).
  - intros H. destruct (gd_over0 H); auto.
  - intros H. apply Exists_app. left. auto.
  - intros H. apply Exists_app. left. auto.
  - unfold stopped. by rewrite E2, E3, E4.
  - by destruct (phase s).
Qed.

Lemma good_more choices more s acts : good choices s acts -> good (choices ++ more) s acts.
Proof. intros []. split; try done; intros H; apply Exists_app; left; auto. Qed.

Definition no_reaped (acts : list RunAct) : bool := forallb (fun a => negb (is_reaped a)) acts.

Lemma good_reaped choices s acts status :
  good choices s acts -> no_reaped acts = true -> (stopped s = false -> acts = []) ->
  good choices (set_phase (Joining status) s) (acts ++ [Reaped status]).
Proof.
  intros [] Hn Hs. split; try done.
  - intros E. by rewrite (Hs E).
  - exists acts, [Reaped status]. split_and!; [done|done|right; by eexists].
  - intros H. apply in_app_iff. left. by apply gd_killed0.
Qed.

(** Signals come before the child is reaped. *)
Lemma good_signals choices s acts more :
  good choices s acts -> no_reaped acts = true -> no_reaped more = true -> progress s (acts ++ more) ->
  good choices s (acts ++ more).
Proof.
  intros [] Ha Hm Hp. split; try done.
  - exists (acts ++ more)%list, []. rewrite app_nil_r. split_and!; [done| |by left].
    unfold no_reaped in *. by rewrite forallb_app, Ha, Hm.
  - intros H. apply in_app_iff. left. by apply gd_killed0.
Qed.

Lemma terminate_signals group child e :
  no_reaped (fst (terminate_process_group group child e)) = true /\ In KillGroup (fst (terminate_process_group group child e)).
Proof. unfold terminate_process_group. destruct group as [g|]; [destruct (decide (g = ESRCH))|]; (split; [done|by left]). Qed.

Lemma good_watch choices answer elapsed cancel group child s s' acts :
  good choices s [] -> phase s = Polling -> watch timeout elapsed cancel group child s = (s', acts) ->
  good (choices ++ [Poll answer elapsed cancel group child]) s' acts.
Proof.
  intros G P H. pose proof (gd_progress _ _ _ G) as Hp. unfold progress in Hp. rewrite P in Hp. destruct Hp as [_ Hp].
  unfold stopped in Hp. apply orb_false_iff in Hp as [Hp F3]. apply orb_false_iff in Hp as [F1 F2].
  unfold watch in H. destruct (_ || _) eqn:E; [|injection H as <- <-; by apply good_more].
  injection H as <- <-. destruct (terminate_signals group child Enone) as [T1 T2].
  set (over := exceeded (out s) || exceeded (err s)) in *. destruct G.
  assert (S : negb over && negb cancel = true -> 0 < timeout <= elapsed).
  { destruct over, cancel; try done. intros _. cbn in E. apply andb_true_iff in E as [E1 E2].
    apply Z.ltb_lt in E1. apply Z.leb_le in E2. lia. }
  split; unfold progress, stopped; cbn; rewrite ?F1, ?F2, ?F3; cbn.
  - split; [by destruct over, cancel|done].
  - exists (fst (terminate_process_group group child Enone)), []. rewrite app_nil_r. split_and!; [done..|by left].
  - unfold over. intros H. by apply orb_true_iff in H.
  - intros H. apply Exists_app. right. left. by apply S.
  - intros H. apply Exists_app. right. left. by destruct over.
  - done.
  - done.
  - done.
  - done.
Qed.

Lemma good_step choices c s s' a b : good choices s a -> step c s = Some (s', b) -> good (choices ++ [c]) s' (a ++ b).
Proof.
  intros G H. pose proof (gd_progress _ _ _ G) as Hp. unfold progress in Hp.
  destruct c as [r|r|r t f g k|r|]; cbn [runner_step] in H.
  - apply bind_Some in H as (x & Hx & H). simplify_eq. apply read_step_ends in Hx as [E Hx].
    pose proof (gd_out _ _ _ G) as Ho. pose proof (gd_err _ _ _ G) as He.
    apply good_read with s; try done; cbn; [by left|auto|]. intros H. specialize (Ho H). congruence.
  - apply bind_Some in H as (x & Hx & H). simplify_eq. apply read_step_ends in Hx as [E Hx].
    pose proof (gd_out _ _ _ G) as Ho. pose proof (gd_err _ _ _ G) as He.
    apply good_read with s; try done; cbn; [by right|auto|]. intros H. specialize (He H). congruence.
  - destruct (phase s) eqn:P; try done. destruct Hp as [-> Hs]. injection H as H. cbn [app].
    destruct r as [status| | |e]; cbn [poll] in H; [|by eapply good_watch..|].
    + injection H as <- <-. apply good_more. by apply (good_reaped _ _ []).
    + destruct (decide (e = EINTR)); [by eapply good_watch|].
      destruct (terminate_signals g k e) as [T _]. destruct (terminate_process_group g k e) as [signals e'] eqn:Et.
      injection H as <- <-. apply good_more. apply (good_signals _ _ [] signals); try done.
      destruct G. by split.
  - destruct (phase s) eqn:P; try done. destruct Hp as [Hs Hn]. unfold reap_killed in H.
    destruct r as [status| | |e]; [| |by injection H as <- <-; rewrite app_nil_r; apply good_more|]; try done.
    + injection H as <- <-. apply good_more, good_reaped; [done..|]. rewrite Hs. done.
    + destruct (decide (e = EINTR)); injection H as <- <-; rewrite app_nil_r; apply good_more; [done|].
      destruct G. split; try done. cbn. intros F. unfold stopped in *. cbn in F. congruence.
  - apply bind_Some in H as (x & H & Hx). injection Hx as -> <-. rewrite app_nil_r. apply good_more.
    pose proof (join_streams _ _ H) as (_ & _ & Eo & Ee). unfold join in H. rewrite Eo, Ee in H. cbn in H.
    destruct (phase s) eqn:P; try done; injection H as <-.
    + destruct G. split; try done. unfold progress. cbn. unfold captured_result.
      destruct (killed_for_output s || exceeded (out s) || exceeded (err s)) eqn:F1; cbn; [by right; left|].
      destruct (timed_out s) eqn:F2; cbn; [by right; right; left|]. destruct (cancelled s) eqn:F3; cbn; [by right; right; right|].
      apply orb_false_iff in F1 as [F1 F5]. apply orb_false_iff in F1 as [F1 F4].
      exists status. split_and!; [|done..]. apply Hp. unfold stopped. by rewrite F1, F2, F3.
    + destruct G. split; try done. left. by exists e.
Qed.

Lemma run_good before choices s s' a b :
  good before s a -> run choices s = Some (s', b) -> good (before ++ choices) s' (a ++ b).
Proof.
  revert before s a b. induction choices as [|c choices IH]; intros before s a b G H; cbn [run_capture] in H.
  - injection H as <- <-. by rewrite !app_nil_r.
  - apply bind_Some in H as ([s1 a1] & H1 & H). apply bind_Some in H as ([s2 b2] & H2 & H). injection H as <- <-.
    rewrite app_assoc. change (before ++ c :: choices)%list with (before ++ ([c] ++ choices))%list. rewrite app_assoc.
    eapply IH; [|exact H2]. by eapply good_step.
Qed.

Lemma run_from_start choices s acts : run choices new_runner = Some (s, acts) -> good choices s acts.
Proof. intros H. exact (run_good [] choices _ _ [] _ good_new H). Qed.

(** *** Properties *)

Lemma run_reads choices s acts :
  0 <= limit -> run choices new_runner = Some (s, acts) ->
  has_read limit false (received (outs choices)) (out s) /\ has_read limit observer (received (errs choices)) (err s).
Proof.
  intros Hl H. apply run_streams in H as [Ho He].
  split; [exact (read_stream_reads _ _ _ EmptyString _ _ (reads_new limit false Hl) Ho)|
          exact (read_stream_reads _ _ _ EmptyString _ _ (reads_new limit observer Hl) He)].
Qed.

(** C37: what [run_capture] returns is what the child wrote: in any interleaving of
    the loop and the two readers, a result carries everything that was read of each
    stream, within the limit, and the code of the status the child was reaped with,
    and nothing was ever signalled. *)
Theorem capture_exact choices s r acts :
  0 <= limit -> run choices new_runner = Some (s, acts) -> phase s = Finished (Value r) ->
  standard_output r = received (outs choices) /\ standard_error r = received (errs choices) /\
  strlen (received (outs choices)) <= limit /\ strlen (received (errs choices)) <= limit /\
  exists status, acts = [Reaped status] /\ return_code r = return_code_of status.
Proof.
  intros Hl H P. destruct (run_reads _ _ _ Hl H) as [Ho He].
  pose proof (gd_progress _ _ _ (run_from_start _ _ _ H)) as Hp. unfold progress in Hp. rewrite P in Hp.
  destruct Hp as (status & -> & E1 & E2 & ->). destruct Ho as [Co Xo _ _], He as [Ce Xe _ _].
  rewrite E1 in Xo. rewrite E2 in Xe. symmetry in Xo, Xe. apply Z.ltb_ge in Xo, Xe. cbn.
  rewrite Co, Ce, !first_bytes_all by done. split_and!; [done..|]. by exists status.
Qed.

(** What [run_capture] throws is what happened: more output than the limit was
    read, or the time was over when the loop looked, or the caller had set its flag,
    and then the group was killed; or the wait itself failed. *)
Theorem capture_failure_told choices s m acts :
  0 <= limit -> run choices new_runner = Some (s, acts) -> phase s = Finished (Throw m) ->
  (exists e, m = system_error strerror "waitpid" e) \/
  (m = "child process output exceeded safety limit"%string /\
   (limit < strlen (received (outs choices)) \/ limit < strlen (received (errs choices)))) \/
  (m = "child process exceeded execution-time limit"%string /\ Exists (polled_late timeout) choices /\ In KillGroup acts) \/
  (m = "child process cancelled"%string /\ Exists polled_cancelled choices /\ In KillGroup acts).
Proof.
  intros Hl H P. destruct (run_reads _ _ _ Hl H) as [Ho He]. pose proof (run_from_start _ _ _ H) as G.
  pose proof (gd_progress _ _ _ G) as Hp. unfold progress in Hp. rewrite P in Hp.
  assert (X : exceeded (out s) = true \/ exceeded (err s) = true ->
    limit < strlen (received (outs choices)) \/ limit < strlen (received (errs choices))).
  { rewrite (rd_exceeded _ _ _ _ Ho), (rd_exceeded _ _ _ _ He). by rewrite !Z.ltb_lt. }
  destruct Hp as [Hp|[[-> Hp]|[[-> Hp]|[-> Hp]]]]; [by left|right; left|right; right; left|right; right; right].
  - split; [done|]. apply X. apply orb_true_iff in Hp as [Hp|Hp]; [|by right].
    apply orb_true_iff in Hp as [Hp|Hp]; [by apply (gd_over _ _ _ G)|by left].
  - split_and!; [done|by apply (gd_late _ _ _ G)|]. apply (gd_killed _ _ _ G). unfold stopped. by rewrite Hp, orb_true_r.
  - split_and!; [done|by apply (gd_cancel _ _ _ G)|]. apply (gd_killed _ _ _ G). unfold stopped. by rewrite Hp, orb_true_r.
Qed.

(** No process is signalled after the child was reaped, when its number may
    be another's; and it is reaped once. *)
Theorem signals_before_reap choices s acts before status after :
  run choices new_runner = Some (s, acts) -> acts = (before ++ Reaped status :: after)%list ->
  after = [] /\ forallb (fun a => negb (is_reaped a)) before = true.
Proof.
  intros H ->. destruct (gd_order _ _ _ (run_from_start _ _ _ H)) as (kills & last & E & Hk & Hl).
  destruct Hl as [-> | [status' ->]].
  - rewrite app_nil_r in E. rewrite <- E, forallb_app in Hk. cbn in Hk. by rewrite andb_false_r in Hk.
  - destruct after as [|a after _] using rev_ind.
    + by apply app_inj_tail in E as [-> _].
    + rewrite app_comm_cons, app_assoc in E. apply app_inj_tail in E as [E ->].
      rewrite <- E, forallb_app in Hk. cbn in Hk. by rewrite andb_false_r in Hk.
Qed.

Lemma joining_step c s s' b status :
  phase s = Joining status -> step c s = Some (s', b) ->
  b = [] /\ (ended (out s') = false -> phase s' = Joining status).
Proof.
  intros P H. destruct c as [r|r|r t f g k|r|]; cbn [runner_step] in H; rewrite ?P in H; try done.
  - apply bind_Some in H as (x & _ & H). by simplify_eq.
  - apply bind_Some in H as (x & _ & H). by simplify_eq.
  - apply bind_Some in H as (x & H & Hx). simplify_eq. apply join_streams in H as (-> & _ & E & _).
    split; [done|]. by rewrite E.
Qed.

Lemma ended_stays choices s s' b : run choices s = Some (s', b) -> ended (out s') = false -> ended (out s) = false.
Proof.
  intros H He. apply run_streams in H as [H _]. destruct (outs choices) as [|a l]; cbn [read_stream] in H.
  - injection H as ->. done.
  - apply bind_Some in H as (x & H & _). by apply read_step_ends in H as [E _].
Qed.

(** Once the child was reaped nothing is signalled any more, and the call does not
    return before the stream ends. *)
Lemma joining_waits choices s s' b status :
  phase s = Joining status -> run choices s = Some (s', b) -> ended (out s') = false ->
  b = [] /\ phase s' = Joining status.
Proof.
  revert s b. induction choices as [|c choices IH]; intros s b P H He; cbn [run_capture] in H; [by simplify_eq|].
  apply bind_Some in H as ([s1 a1] & H1 & H). apply bind_Some in H as ([s2 b2] & H2 & H). injection H as <- <-.
  destruct (joining_step _ _ _ _ _ P H1) as [-> P1]. specialize (P1 (ended_stays _ _ _ _ H2 He)).
  by destruct (IH _ _ P1 H2 He) as [-> ->].
Qed.
End Runs.

(** The limit of time ends with the child: it exits in time, a descendant holds
    its output open, and from then on, however late it is, nothing is signalled and
    the call does not return before the descendant closes it. *)
Theorem descendant_outlives_timeout strerror limit observer :
  exists s, run_capture strerror limit 1000 observer [Poll (WaitedChild 0) 5 false None None] new_runner = Some (s, [Reaped 0]) /\
  forall later s' acts, run_capture strerror limit 1000 observer later s = Some (s', acts) -> ended (out s') = false ->
    acts = [] /\ forall r, phase s' <> Finished r.
Proof.
  eexists. split; [reflexivity|]. intros later s' acts H He.
  assert (P : phase (set_phase (Joining 0) new_runner) = Joining 0) by reflexivity.
  destruct (joining_waits _ _ _ _ _ _ _ _ _ P H He) as [-> E]. split; [done|]. intros r. by rewrite E.
Qed.

(** ** Instances *)

(** The child writes to both streams and exits with one. *)
Definition quiet_run : list RunChoice :=
  [ReadOut (Data "ab"); Poll NotYet 5 false None None; ReadErr (Data "no"); ReadOut Eof;
   Poll (WaitedChild 256) 10 false None None; ReadErr Eof; Join]%string.

(** It takes too long, and is killed. *)
Definition late_run : list RunChoice :=
  [Poll NotYet 1000 false None None; ReadOut Eof; ReadErr Eof; Reap (WaitedChild 9); Join].

Definition ended_run (choices : list RunChoice) : Runner * list RunAct :=
  default (new_runner, []) (run_capture (fun _ => EmptyString) 4 1000 true choices new_runner).

Lemma read_stream_exact_witness :
  exists x, read_stream 3 true [Data "a"; Interrupted; Data (String LF "bcd")]%string new_stream = Some x /\
    captured x = String "a" (String LF "b") /\ exceeded x = true.
Proof.
  eexists. split; [reflexivity|].
  by destruct (read_stream_exact 3 true [Data "a"; Interrupted; Data (String LF "bcd")]%string _ ltac:(lia) eq_refl) as (-> & -> & _).
Defined.

Lemma capture_exact_witness :
  phase (fst (ended_run quiet_run)) = Finished (Value (mkResult 1 "ab" "no")) /\
  "ab"%string = received (outs quiet_run).
Proof.
  split; [vm_compute; reflexivity|].
  apply (proj1 (capture_exact (fun _ => EmptyString) 4 1000 true quiet_run (fst (ended_run quiet_run)) (mkResult 1 "ab" "no")
    (snd (ended_run quiet_run)) ltac:(lia) ltac:(vm_compute; reflexivity) ltac:(vm_compute; reflexivity))).
Defined.

Lemma capture_failure_told_witness :
  exists m, phase (fst (ended_run late_run)) = Finished (Throw m) /\
  ((exists e, m = system_error (fun _ => EmptyString) "waitpid" e) \/
   (m = "child process output exceeded safety limit"%string /\
    (4 < strlen (received (outs late_run)) \/ 4 < strlen (received (errs late_run)))) \/
   (m = "child process exceeded execution-time limit"%string /\ Exists (polled_late 1000) late_run /\
    In KillGroup (snd (ended_run late_run))) \/
   (m = "child process cancelled"%string /\ Exists polled_cancelled late_run /\ In KillGroup (snd (ended_run late_run)))).
Proof.
  eexists. split; [vm_compute; reflexivity|].
  apply (capture_failure_told (fun _ => EmptyString) 4 1000 true late_run (fst (ended_run late_run)));
    [lia|vm_compute; reflexivity..].
Defined.

Lemma signals_before_reap_witness :
  snd (ended_run late_run) = [KillGroup; Reaped 9] /\ forallb (fun a => negb (is_reaped a)) [KillGroup] = true.
Proof.
  split; [vm_compute; reflexivity|].
  apply (signals_before_reap (fun _ => EmptyString) 4 1000 true late_run (fst (ended_run late_run)) (snd (ended_run late_run))
    [KillGroup] 9 []); vm_compute; reflexivity.
Defined.
