(* ===== verification/Mapper.v ===== *)
(** The allocation mapper's program, [native/mapper.cpp]: its command line, the
    choice of the backend, and what it prints. *)
From S2P Require Import Prelude Effects CString Infiltratr Exceptions NativeJson Runtime RuntimeManifest MapRanges AllocationMap.
#[local] Open Scope Z_scope.

(** ** The command line *)

Definition kMaxMapCells : Z := 1048576.

Definition parse_cell_count (text : string) : option Z :=
  if is_empty text || bool_decide (head_char text = "-"%char) || bool_decide (head_char text = "+"%char) then None
  else match from_chars_unsigned text with
       | Some value => if (value =? 0) || (kMaxMapCells <? value) then None else Some value
       | None => None
       end.

Record Options := mkOptions {
  o_path : string;
  o_filesystem : string;
  o_cells : Z;
  o_list : bool;
  o_probe : bool;
}.

Definition no_options : Options := mkOptions EmptyString EmptyString 4096 false false.

Inductive command := CVersion | CUsage | CRun (options : Options).

#[local] Open Scope string_scope.

Definition with_filesystem (value : string) (o : Options) : option Options :=
  if is_empty value then None else Some (mkOptions (o_path o) value (o_cells o) (o_list o) (o_probe o)).

Definition with_cells (value : string) (o : Options) : option Options :=
  match parse_cell_count value with
  | Some cells => Some (mkOptions (o_path o) (o_filesystem o) cells (o_list o) (o_probe o))
  | None => None
  end.

Definition suffix_from (n : nat) (s : string) : string := String.substring n (String.length s - n) s.

(** The loop over [argv]. *)
Fixpoint mapper_arguments (o : Options) (tokens : list string) : command :=
  match tokens with
  | [] => CRun o
  | token :: tokens =>
      let next (changed : option Options) :=
        match changed with None => CUsage | Some o => mapper_arguments o tokens end in
      if String.eqb token "--version" then CVersion
      else if String.eqb token "--list-backends" then
        next (Some (mkOptions (o_path o) (o_filesystem o) (o_cells o) true (o_probe o)))
      else if String.eqb token "--probe" then
        next (Some (mkOptions (o_path o) (o_filesystem o) (o_cells o) (o_list o) true))
      else if String.eqb token "--fstype" then
        match tokens with
        | [] => CUsage
        | value :: tokens =>
            match with_filesystem value o with None => CUsage | Some o => mapper_arguments o tokens end
        end
      else if String.prefix "--fstype=" token then next (with_filesystem (suffix_from 9 token) o)
      else if String.eqb token "--cells" then
        match tokens with
        | [] => CUsage
        | value :: tokens =>
            match with_cells value o with None => CUsage | Some o => mapper_arguments o tokens end
        end
      else if String.prefix "--cells=" token then next (with_cells (suffix_from 8 token) o)
      else if bool_decide (head_char token = "-"%char) then CUsage
      else if negb (is_empty (o_path o)) then CUsage
      else next (Some (mkOptions token (o_filesystem o) (o_cells o) (o_list o) (o_probe o)))
  end.

(** ** The program *)

Inductive mapperE : Type -> Type :=
| MapperCall {X} (e : mapE X) : mapperE X
| Puts (line : string) : mapperE unit
| PutsErr (text : string) : mapperE unit.

Section Mapper.
  Context {common : Infiltratr} {doubles : Doubles}.
  Variable LD_VERSION : string.

(** The entry of the manifest for a backend. *)
Fixpoint manifest_operations (backend : string) (entries : list Json) : exc Json :=
  match entries with
  | [] => Value (JArray [])
  | entry :: entries =>
      name ← at_key "id" entry;
      if String.eqb (string_or EmptyString name) backend then at_key "operations" entry
      else manifest_operations backend entries
  end.

Definition probe_result (backend : BackendInfo) (identified_filesystem : string) : exc Json :=
  text ← registry_manifest_json 2;
  manifest ← parse text;
  backends ← at_key "backends" manifest;
  entries ← array_items backends;
  operations ← manifest_operations (id backend) entries;
  Value (JObject (object_of
    [("filesystem", JString identified_filesystem); ("backend_id", JString (id backend));
     ("capabilities", unsigned_integer (capabilities backend)); ("map_accuracy", JString (map_accuracy backend));
     ("operations", operations)])).

(** The first backend that recognises the volume, with the name it gives. *)
Fixpoint first_identified (candidates : list BackendInfo) (path : string) :
    prog mapE (option (BackendInfo * string)) :=
  match candidates with
  | [] => Ret None
  | candidate :: candidates =>
      let* identified := backend_identified_filesystem candidate path in
      if negb (is_empty identified) then Ret (Some (candidate, identified)) else first_identified candidates path
  end.

Definition fat_candidates : list BackendInfo :=
  omap backend_by_fstype ["fat12"; "fat16"; "fat32"].

Definition generic_fat_name (filesystem : string) : bool :=
  String.eqb filesystem "vfat" || String.eqb filesystem "fat" || String.eqb filesystem "msdos".

Definition select_backend (path filesystem : string) (probe : bool) : prog mapE (option (BackendInfo * string)) :=
  if generic_fat_name filesystem then first_identified fat_candidates path
  else if negb (is_empty filesystem) then
    match backend_by_fstype filesystem with
    | None => Ret None
    | Some backend =>
        if probe then
          let* identified := backend_identified_filesystem backend path in
          Ret (if is_empty identified then None else Some (backend, identified))
        else Ret (Some (backend, EmptyString))
    end
  else first_identified registry path.

Definition on_map {A} (p : prog mapE A) : prog mapperE A := interp (fun X e => call (MapperCall e)) p.

Definition refuse_with (text : string) : prog mapperE Z := call (PutsErr text) ;;; Ret 2%Z.

(** [std::puts], or the message of what was thrown. *)
Definition finish (printed : exc string) : prog mapperE Z :=
  match printed with
  | Value text => call (Puts text) ;;; Ret 0%Z
  | Throw what => call (PutsErr ("Defragmenter mapper: " ++ what)) ;;; Ret 1%Z
  end.

Definition usage : prog mapperE Z :=
  refuse_with ("usage: defragmenter-mapper-cpp " ++ "[PATH] [--fstype TYPE] [--cells N] [--probe] [--list-backends]").

Definition probe_volume (backend : BackendInfo) (path identified : string) : prog mapperE Z :=
  let* identified :=
    if is_empty identified then on_map (backend_identified_filesystem backend path) else Ret identified in
  if is_empty identified then refuse_with "The selected backend did not recognise this volume."
  else finish (made ← probe_result backend identified; dump made).

(** The map with the backend's own members. *)
Definition final_map (backend : BackendInfo) (result : Json) : exc Json :=
  throw_if (negb (is_object result)) "allocation mapper produced non-object result" ≫= fun _ =>
  set_all [("capabilities", unsigned_integer (capabilities backend)); ("backend_id", JString (id backend))] result.

Definition map_volume (backend : BackendInfo) (path : string) (cells : Z) : prog mapperE Z :=
  let* result := on_map (map_backend backend path (Z.max 1 cells)) in
  finish (made ← result; made ← final_map backend made; dump made).

Definition run_mapper (o : Options) : prog mapperE Z :=
  let* found := on_map (select_backend (o_path o) (o_filesystem o) (o_probe o)) in
  match found with
  | None => refuse_with "No self-contained filesystem plugin recognised this volume."
  | Some (backend, identified) =>
      if o_probe o then probe_volume backend (o_path o) identified
      else map_volume backend (o_path o) (o_cells o)
  end.

Definition mapper_main (arguments : list string) : prog mapperE Z :=
  match mapper_arguments no_options arguments with
  | CVersion => call (Puts ("defragmenter-mapper-cpp " ++ LD_VERSION)) ;;; Ret 0%Z
  | CUsage => usage
  | CRun o =>
      if o_list o then
        match registry_manifest_json 2 with
        | Value text => call (Puts text) ;;; Ret 0%Z
        | Throw what => Die what
        end
      else if is_empty (o_path o) then usage
      else run_mapper o
  end.

(** ** Lemmas: what is printed *)

Definition lift (ev : event mapE) : event mapperE := match ev with Event e x => Event (MapperCall e) x end.

Definition print_of (ev : event mapperE) : list string :=
  match ev with Event e _ => match e with Puts line => [line] | _ => [] end end.

(** The lines on the standard output. *)
Definition printed_lines (t : list (event mapperE)) : list string := flat_map print_of t.

Lemma printed_lines_app a b : printed_lines (a ++ b)%list = (printed_lines a ++ printed_lines b)%list.
Proof. apply List.flat_map_app. Qed.

Lemma printed_lines_lift t : printed_lines (map lift t) = [].
Proof. induction t as [|[X e x] t IH]; [done|exact IH]. Qed.

Lemma on_map_runs {A} (p : prog mapE A) t o :
  runs (on_map p) t o -> exists t', t = map lift t' /\ runs p t' o.
Proof.
  unfold on_map. revert t. induction p as [a|m|X e k IH]; intros t H; cbn [interp] in H.
  - apply runs_inv in H as [-> ->]. exists []. split; [done|constructor].
  - apply runs_inv in H as [-> ->]. exists []. split; [done|constructor].
  - apply runs_inv in H as (x & u & -> & H). apply IH in H as (t' & -> & H).
    exists (Event e x :: t'). split; [done|by constructor].
Qed.

(** A text refused, and a text finished. *)
Lemma refuse_runs text t code : runs (refuse_with text) t (Returned code) -> code = 2%Z /\ printed_lines t = [].
Proof. intros H. apply runs_inv in H as ([] & u & -> & H). by apply runs_inv in H as [-> [= ->]]. Qed.

Lemma finish_runs r t code :
  runs (finish r) t (Returned code) ->
  (exists text, r = Value text /\ code = 0%Z /\ printed_lines t = [text]) \/ (code = 1%Z /\ printed_lines t = []).
Proof.
  destruct r as [text|w]; intros H; apply runs_inv in H as ([] & u & -> & H); apply runs_inv in H as [-> [= ->]];
    [left; by exists text|by right].
Qed.

(** ** Lemmas: identification *)

(** The answer of the backend's worker that recognises the volume. *)
Definition identified_by (backend : BackendInfo) (path filesystem : string) (t : list (event mapE)) : Prop :=
  exists program r payload name resolved,
    In (Event (RunCapture [program; "identify"; path] 1048576 30000) (Value r)) t /\ return_code r = 0%Z /\
    parse (standard_output r) = Value payload /\ find "filesystem" payload = Some (JString name) /\
    lower_ascii name = filesystem /\ backend_by_fstype filesystem = Some resolved /\ id resolved = id backend.

Lemma worker_program_runs program_id mode path options limit timeout t result :
  runs (worker_program program_id mode path options limit timeout) t (Returned (Value result)) ->
  exists program r, In (Event (RunCapture ([program; mode; path] ++ options)%list limit timeout) (Value r)) t /\
    return_code result = return_code r /\ standard_output result = standard_output r.
Proof.
  intros H. apply ebind_runs in H as (program & t1 & t2 & -> & _ & H).
  apply ebind_runs in H as (r & t3 & t4 & -> & H & H4). apply call_runs in H as (x & -> & [= <-]).
  apply runs_inv in H4 as [-> [= ->]]. exists program, r. split; [|done].
  rewrite !in_app_iff. right. left. by left.
Qed.

Lemma parse_worker_value r action payload :
  parse_worker_json r action = Value payload -> return_code r = 0%Z /\ parse (standard_output r) = Value payload.
Proof.
  unfold parse_worker_json. destruct (Z.eqb_spec (return_code r) 0) as [E|E]; [|done]. cbn [negb].
  intros H. apply bind_value in H as (parsed & Hp & H). destruct (is_object parsed); [|done].
  injection H as ->. done.
Qed.

Lemma identified_runs backend path t filesystem :
  runs (backend_identified_filesystem backend path) t (Returned filesystem) ->
  filesystem = EmptyString \/ identified_by backend path filesystem t.
Proof.
  intros H. apply pbind_runs in H as [(m & _ & ?)|(r & t1 & t2 & -> & H1 & H2)]; [done|].
  apply runs_inv in H2 as [-> [= ->]]. rewrite app_nil_r. destruct r as [payload|w]; [|by left].
  destruct (find "filesystem" payload) as [[| | |name| |]|] eqn:Ef; try (by left).
  destruct (backend_by_fstype (lower_ascii name)) as [resolved|] eqn:Er; [|by left].
  destruct (String.eqb_spec (id resolved) (id backend)) as [Ei|]; [|by left]. right.
  apply ebind_runs in H1 as (result & t3 & t4 & -> & H & Hp). apply runs_inv in Hp as [-> [= Hp]].
  rewrite app_nil_r. symmetry in Hp. apply parse_worker_value in Hp as [Hc Hp].
  apply worker_program_runs in H as (program & r & Hin & Hrc & Hro). rewrite app_nil_r in Hin.
  exists program, r, payload, name, resolved. split_and!; try done; [by rewrite <- Hrc|by rewrite <- Hro].
Qed.

(** The search: every candidate before the one found was asked and denied. *)
Lemma first_identified_runs candidates path t found :
  runs (first_identified candidates path) t (Returned found) ->
  exists asked traces rest last, candidates = (asked ++ rest)%list /\ t = (concat traces ++ last)%list /\
    Forall2 (fun c u => runs (backend_identified_filesystem c path) u (Returned EmptyString)) asked traces /\
    match found with
    | None => rest = [] /\ last = []
    | Some (backend, identified) => head rest = Some backend /\ identified <> EmptyString /\
        runs (backend_identified_filesystem backend path) last (Returned identified)
    end.
Proof.
  revert t. induction candidates as [|c candidates IH]; intros t H; cbn [first_identified] in H.
  - apply runs_inv in H as [-> [= ->]]. by exists [], [], [], [].
  - apply pbind_runs in H as [(m & _ & ?)|(identified & t1 & t2 & -> & H1 & H2)]; [done|].
    destruct (is_empty identified) eqn:E; cbn [negb] in H2.
    + destruct identified; [|done]. apply IH in H2 as (asked & traces & rest & last & -> & -> & Hf & Hm).
      exists (c :: asked), (t1 :: traces), rest, last. split; [done|]. split; [cbn [concat]; by rewrite <- app_assoc|].
      split; [by constructor|done].
    + apply runs_inv in H2 as [-> [= ->]]. exists [], [], (c :: candidates), t1. rewrite app_nil_r.
      split_and!; try done. by destruct identified.
Qed.

Lemma fstype_registered filesystem backend : backend_by_fstype filesystem = Some backend -> In backend registry.
Proof. intros H. by apply List.find_some in H as [H _]. Qed.

Lemma fat_candidates_registered backend : In backend fat_candidates -> In backend registry.
Proof.
  unfold fat_candidates. intros H. apply list_elem_of_In, list_elem_of_omap in H as (f & _ & H).
  by apply fstype_registered in H.
Qed.

(** What is selected is registered, and recognised unless the user named it. *)
Lemma select_backend_runs path filesystem probe t backend identified :
  runs (select_backend path filesystem probe) t (Returned (Some (backend, identified))) ->
  In backend registry /\ (identified_by backend path identified t \/
    (identified = EmptyString /\ probe = false /\ backend_by_fstype filesystem = Some backend)).
Proof.
  assert (G : forall candidates, (forall b, In b candidates -> In b registry) ->
    runs (first_identified candidates path) t (Returned (Some (backend, identified))) ->
    In backend registry /\ identified_by backend path identified t).
  { intros candidates Hc H. apply first_identified_runs in H as (asked & traces & rest & last & -> & -> & _ & Hh & Hne & H).
    split.
    - apply Hc, in_app_iff. right. destruct rest; [done|]. injection Hh as ->. by left.
    - apply identified_runs in H as [?|(pr & r & pl & nm & rs & Hin & Hrest)]; [done|].
      exists pr, r, pl, nm, rs. split; [|exact Hrest]. apply in_app_iff. by right. }
  unfold select_backend. intros H. destruct (generic_fat_name filesystem).
  { apply G in H as [H1 H2]; [tauto|apply fat_candidates_registered]. }
  destruct (is_empty filesystem) eqn:Ef; cbn [negb] in H; [apply G in H as [H1 H2]; [tauto|done]|].
  destruct (backend_by_fstype filesystem) as [b|] eqn:Eb; [|by apply runs_inv in H as [_ ?]].
  pose proof (fstype_registered _ _ Eb) as Hin. destruct probe.
  - apply pbind_runs in H as [(m & _ & ?)|(i & t1 & t2 & -> & H1 & H2)]; [done|].
    apply runs_inv in H2 as [-> [= H2]]. destruct (is_empty i) eqn:Ei; [done|]. injection H2 as -> ->.
    apply identified_runs in H1 as [->|H1]; [done|]. rewrite app_nil_r. tauto.
  - apply runs_inv in H as [-> [= -> ->]]. split; [done|]. by right.
Qed.

(** ** Lemmas: the probe *)

Lemma registry_ids : NoDup (map id registry).
Proof. apply (bool_decide_unpack _). vm_compute. exact I. Qed.

Lemma manifest_operations_found l b :
  NoDup (map id l) -> In b l ->
  manifest_operations (id b) (map backend_value l) = Value (JArray (map operation_value (operations b))).
Proof.
  induction l as [|c l IH]; intros Hn Hin; [done|]. cbn [map manifest_operations] in *.
  inversion Hn as [|? ? Hc Hn']. subst. clear Hn. rename Hn' into Hn. change (at_key "id" (backend_value c)) with (Value (JString (id c))).
  cbn [mbind exc_bind string_or]. destruct (String.eqb_spec (id c) (id b)) as [E|E].
  - destruct Hin as [->|Hin]; [reflexivity|]. exfalso. apply Hc. rewrite E. by apply list_elem_of_In, in_map.
  - destruct Hin as [->|Hin]; [done|]. by apply IH.
Qed.

(** What a probe says. *)
Definition probe_value (backend : BackendInfo) (identified : string) : Json :=
  JObject (object_of
    [("filesystem", JString identified); ("backend_id", JString (id backend));
     ("capabilities", unsigned_integer (capabilities backend)); ("map_accuracy", JString (map_accuracy backend));
     ("operations", JArray (map operation_value (operations backend)))]).

Lemma manifest_backends schema :
  at_key "backends" (manifest_value schema) = Value (JArray (map backend_value registry)).
Proof. reflexivity. Qed.

Lemma probe_result_value {L : InfiltratrLaws common} backend identified v :
  In backend registry -> probe_result backend identified = Value v -> v = probe_value backend identified.
Proof.
  intros Hin H. apply bind_value in H as (text & Ht & H). rewrite (manifest_reads 2 text Ht) in H.
  cbn [mbind exc_bind] in H. rewrite manifest_backends in H. cbn [mbind exc_bind array_items] in H.
  rewrite (manifest_operations_found _ _ registry_ids Hin) in H.
  cbn [mbind exc_bind] in H. by injection H as <-.
Qed.

(** ** Lemmas: the command line *)

Lemma parse_cell_count_iff text n :
  parse_cell_count text = Some n <->
  forall_char isdigit text = true /\ is_empty text = false /\ n = decimal_value text /\ 1 <= n <= kMaxMapCells.
Proof.
  unfold parse_cell_count, from_chars_unsigned. destruct (leading_digits text) as [d r] eqn:E. split.
  - destruct (is_empty text || _ || _) eqn:E1; [done|].
    destruct (is_empty d || negb (is_empty r) || _) eqn:E2; [done|]. cbn iota beta.
    destruct ((decimal_value d =? 0)%Z || _) eqn:E3; [done|]. intros [= <-].
    rewrite !orb_false_iff in E1. rewrite !orb_false_iff in E2. rewrite !orb_false_iff in E3.
    destruct E1 as [[E1 _] _]. destruct E2 as [[_ E2] _]. destruct r; [|done]. apply all_digits in E as [-> Hall].
    destruct E3 as [E3 E4]. apply Z.eqb_neq in E3. apply Z.ltb_ge in E4.
    pose proof (decimal_value_nonneg d Hall). split_and!; try done; lia.
  - intros (Hall & Hne & -> & Hr). pose proof (leading_digits_app text "" Hall eq_refl) as E'.
    rewrite append_nil_r in E'. rewrite E' in E. injection E as <- <-. rewrite Hne. cbn [orb].
    assert (Hh : isdigit (head_char text) = true).
    { destruct text; [done|]. cbn [forall_char] in Hall. by apply andb_true_iff in Hall as [? _]. }
    rewrite !bool_decide_eq_false_2 by (intros Hk; by rewrite Hk in Hh). cbn [orb negb is_empty].
    unfold kMaxMapCells in *. rewrite (proj2 (Z.ltb_ge _ _)) by lia.
    rewrite (proj2 (Z.eqb_neq _ _)), (proj2 (Z.ltb_ge _ _)) by lia. done.
Qed.

Lemma mapper_cells_bounds o tokens o' :
  1 <= o_cells o <= kMaxMapCells -> mapper_arguments o tokens = CRun o' -> 1 <= o_cells o' <= kMaxMapCells.
Proof.
  assert (G : forall value o1 o2, with_cells value o1 = Some o2 -> 1 <= o_cells o2 <= kMaxMapCells).
  { intros value o1 o2 H. unfold with_cells in H. destruct (parse_cell_count value) as [n|] eqn:E; [|done].
    injection H as <-. apply parse_cell_count_iff in E as (_ & _ & _ & E). exact E. }
  assert (F : forall value o1 o2, with_filesystem value o1 = Some o2 -> o_cells o2 = o_cells o1).
  { intros value o1 o2 H. unfold with_filesystem in H. destruct (is_empty value); [done|]. by injection H as <-. }
  remember (length tokens) as n eqn:Hn. assert (Hle : (length tokens <= n)%nat) by lia. clear Hn.
  revert o tokens Hle. induction n as [|n IH]; intros o tokens Hle Ho H.
  { destruct tokens; [|cbn in Hle; lia]. by injection H as <-. }
  destruct tokens as [|token tokens]; [by injection H as <-|]. cbn [length] in Hle. cbn [mapper_arguments] in H.
  repeat case_match; simplify_eq; cbn [length] in *;
    try (eapply IH; [| |exact H]; [lia|]; cbn [o_cells]; first [done | by eapply G | by erewrite F by eassumption]).
Qed.

(** ** Properties *)

Lemma finish_shape r t text :
  runs (finish r) t (Returned 0%Z) -> printed_lines t = [text] -> t = [Event (Puts text) tt] /\ r = Value text.
Proof.
  destruct r as [u|w]; intros H Hp; apply runs_inv in H as ([] & v & -> & H); apply runs_inv in H as [-> [=]].
  by injection Hp as ->.
Qed.

(** What the line printed for a probe, or for a map, is. *)
Definition answers (o : Options) (text : string) (t : list (event mapperE)) : Prop :=
  exists calls backend, t = (map lift calls ++ [Event (Puts text) tt])%list /\ In backend registry /\
    if o_probe o then
      exists identified, identified_by backend (o_path o) identified calls /\
                         dump (probe_value backend identified) = Value text
    else
      exists before mapping made final, calls = (before ++ mapping)%list /\
        ((exists identified, identified_by backend (o_path o) identified before) \/
         backend_by_fstype (o_filesystem o) = Some backend) /\
        1 <= o_cells o <= kMaxMapCells /\
        runs (map_backend backend (o_path o) (o_cells o)) mapping (Returned (Value made)) /\
        final_map backend made = Value final /\ dump final = Value text.

Lemma run_mapper_answers {L : InfiltratrLaws common} o t code :
  1 <= o_cells o <= kMaxMapCells -> runs (run_mapper o) t (Returned code) ->
  (code <> 0%Z /\ printed_lines t = []) \/ (code = 0%Z /\ exists text, printed_lines t = [text] /\ answers o text t).
Proof.
  intros Hcells H. apply pbind_runs in H as [(m & _ & ?)|(found & t1 & t2 & -> & H1 & H2)]; [done|].
  apply on_map_runs in H1 as (calls & -> & H1). rewrite printed_lines_app, printed_lines_lift. cbn [app].
  destruct found as [[backend identified]|]; [|apply refuse_runs in H2 as [-> ?]; by left].
  apply select_backend_runs in H1 as [Hreg Hid]. unfold answers. destruct (o_probe o) eqn:Ep.
  - destruct Hid as [Hid|(_ & ? & _)]; [|done].
    apply pbind_runs in H2 as [(m & _ & ?)|(i & t3 & t4 & -> & H3 & H4)]; [done|].
    assert (G : exists calls', t3 = map lift calls' /\ (i = EmptyString \/ identified_by backend (o_path o) i (calls ++ calls')%list)).
    { destruct (is_empty identified) eqn:E.
      - apply on_map_runs in H3 as (calls' & -> & H3). exists calls'. split; [done|].
        apply identified_runs in H3 as [->|(pr & r & pl & nm & rs & Hin & Hrest)]; [by left|]. right.
        exists pr, r, pl, nm, rs. split; [|exact Hrest]. apply in_app_iff. by right.
      - apply runs_inv in H3 as [-> [= ->]]. exists []. split; [done|]. right. by rewrite app_nil_r. }
    destruct G as (calls' & -> & G). rewrite printed_lines_app, printed_lines_lift. cbn [app].
    destruct (is_empty i) eqn:E; [apply refuse_runs in H4 as [-> ?]; by left|].
    destruct G as [-> |G]; [done|]. pose proof H4 as H5.
    apply finish_runs in H4 as [(text & Hr & -> & Hp)|[-> ?]]; [right|by left]. split; [done|].
    exists text. split; [done|]. destruct (finish_shape _ _ _ H5 Hp) as [-> _].
    exists (calls ++ calls')%list, backend. split; [by rewrite map_app, <- app_assoc|]. split; [done|].
    apply bind_value in Hr as (v & Hv & Hd). apply probe_result_value in Hv as ->; [|done]. by exists i.
  - apply pbind_runs in H2 as [(m & _ & ?)|(result & t3 & t4 & -> & H3 & H4)]; [done|].
    apply on_map_runs in H3 as (calls' & -> & H3). rewrite printed_lines_app, printed_lines_lift. cbn [app].
    rewrite Z.max_r in H3 by lia. pose proof H4 as H5.
    apply finish_runs in H4 as [(text & Hr & -> & Hp)|[-> ?]]; [right|by left]. split; [done|].
    exists text. split; [done|]. destruct (finish_shape _ _ _ H5 Hp) as [-> _].
    exists (calls ++ calls')%list, backend. split; [by rewrite map_app, <- app_assoc|]. split; [done|].
    apply bind_value in Hr as (made & -> & Hr). apply bind_value in Hr as (final & Hf & Hd).
    exists calls, calls', made, final. split_and!; try done; try lia.
    destruct Hid as [Hid|(_ & _ & Hid)]; [left; by exists identified|by right].
Qed.

(** C22: The mapper prints one line exactly when it ends with code 0, and what it
    prints is founded: the manifest of the registry when asked for it; for a probe
    the capabilities and the operations of a registered backend whose own worker
    recognised the volume in this run; otherwise the map that this backend made in
    this run with the asked number of cells, between 1 and 1048576, where the
    backend is the one the user named or one whose worker recognised the volume. *)
Theorem mapper_prints_founded {L : InfiltratrLaws common} arguments t code :
  runs (mapper_main arguments) t (Returned code) ->
  (code <> 0%Z /\ printed_lines t = []) \/
  (code = 0%Z /\ exists text, printed_lines t = [text] /\
     match mapper_arguments no_options arguments with
     | CVersion => text = "defragmenter-mapper-cpp " ++ LD_VERSION
     | CUsage => False
     | CRun o => if o_list o then registry_manifest_json 2 = Value text else answers o text t
     end).
Proof.
  unfold mapper_main. destruct (mapper_arguments no_options arguments) as [| |o] eqn:Ea; intros H.
  - apply runs_inv in H as ([] & u & -> & H). apply runs_inv in H as [-> [= ->]]. right. split; [done|]. eauto.
  - apply refuse_runs in H as [-> ?]. by left.
  - destruct (o_list o).
    + destruct (registry_manifest_json 2) as [text|w]; [|by apply runs_inv in H as [_ ?]].
      apply runs_inv in H as ([] & u & -> & H). apply runs_inv in H as [-> [= ->]]. right. split; [done|]. by exists text.
    + destruct (is_empty (o_path o)); [apply refuse_runs in H as [-> ?]; by left|].
      apply run_mapper_answers; [|done]. apply (mapper_cells_bounds no_options arguments); [|done].
      unfold kMaxMapCells. cbn. lia.
Qed.

(** The search for a backend is complete and in order: it ends, having asked
    candidates one after the other; the one it returns is the first that
    recognised the volume, every earlier one having been asked and denied it in
    this run, and it returns none only when all of them were asked and denied. *)
Theorem first_identified_exact candidates path t found :
  runs (first_identified candidates path) t (Returned found) ->
  exists asked traces rest last, candidates = (asked ++ rest)%list /\ t = (concat traces ++ last)%list /\
    Forall2 (fun c u => runs (backend_identified_filesystem c path) u (Returned EmptyString)) asked traces /\
    match found with
    | None => rest = [] /\ last = []
    | Some (backend, identified) => head rest = Some backend /\ identified_by backend path identified last
    end.
Proof.
  intros H. apply first_identified_runs in H as (asked & traces & rest & last & -> & -> & Hf & Hm).
  exists asked, traces, rest, last. split_and!; try done. destruct found as [[b i]|]; [|done].
  destruct Hm as (Hh & Hne & H). split; [done|]. by apply identified_runs in H as [?|?].
Qed.
End Mapper.

(** ** Witnesses *)

(** The host of [AllocationMap], whose XFS worker recognises the volume. *)
Definition identifying_worker (command : list string) : exc CommandResult :=
  match command with
  | [program; "identify"; _] =>
      if String.eqb program "/System/Commands/Defragmenter/xfs/defragmenter-xfs-worker"
      then Value (mkResult 0 (value_or (dump (JObject [("filesystem", JString "XFS")])) "") "")
      else Value (mkResult 1 "" "")
  | _ => demo_worker command
  end.

Definition mapper_host (X : Type) (e : mapperE X) (s : unit) : X * unit :=
  match e in mapperE X return X * unit with
  | MapperCall e =>
      match e in mapE X return X * unit with
      | RunCapture command _ _ => (identifying_worker command, tt)
      | e => demo_mapper _ e tt
      end
  | Puts _ => (tt, tt)
  | PutsErr _ => (tt, tt)
  end.

Definition demo_mapper_run (arguments : list string) :=
  execute mapper_host (mapper_main (common := infiltratr_reference) (doubles := demo_doubles) "1" arguments) tt.

Lemma mapper_prints_founded_witness :
  exists text, printed_lines (snd (demo_mapper_run ["/img"; "--probe"])) = [text] /\
    answers (common := infiltratr_reference) (doubles := demo_doubles)
      (mkOptions "/img" "" 4096 false true) text (snd (demo_mapper_run ["/img"; "--probe"])).
Proof.
  pose proof (execute_runs mapper_host
    (mapper_main (common := infiltratr_reference) (doubles := demo_doubles) "1" ["/img"; "--probe"]) tt) as Hr.
  change (execute _ _ _) with (demo_mapper_run ["/img"; "--probe"]) in Hr.
  replace (fst (demo_mapper_run ["/img"; "--probe"])) with (Returned 0%Z) in Hr by (vm_compute; reflexivity).
  destruct (mapper_prints_founded (common := infiltratr_reference) (doubles := demo_doubles) "1"
    (L := infiltratr_reference_laws) ["/img"; "--probe"] _ _ Hr) as [[Hc _]|(_ & text & Hp & Ha)].
  - exfalso. apply Hc. reflexivity.
  - exists text. split; [exact Hp|exact Ha].
Defined.

Lemma first_identified_exact_witness :
  exists asked rest, [demo_backend "swap"; demo_backend "xfs"] = (asked ++ rest)%list /\
    head rest = Some (demo_backend "xfs").
Proof.
  pose proof (execute_runs (fun X (e : mapE X) s => mapper_host X (MapperCall e) s)
    (first_identified (common := infiltratr_reference)
       [demo_backend "swap"; demo_backend "xfs"] "/img") tt) as Hr.
  replace (fst (execute _ _ _)) with (Returned (Some (demo_backend "xfs", "xfs"))) in Hr
    by (vm_compute; reflexivity).
  destruct (first_identified_exact (common := infiltratr_reference) _ _ _ _ Hr)
    as (asked & traces & rest & last & E & _ & _ & Hh & _).
  exists asked, rest. split; [exact E|exact Hh].
Defined.
