(* ===== verification/LiveMap.v ===== *)
(** Live updates of the allocation map, [native/desktop_live_map.cpp]: the events
    of a worker applied to the cells of a map.  The C++ functions stage their
    changes and publish them last; here they return them, or what was thrown, and
    then the caller keeps its old map and cells. *)
From stdpp Require Import gmap list_numbers.
From S2P Require Import Prelude CString Infiltratr Exceptions NativeJson Runtime MapRanges AllocationMap.
#[local] Open Scope Z_scope.

(** ** Numbers *)

(** A member as a number, zero when there is none. *)
Definition number (object : Json) (key : string) : Z :=
  match find key object with Some value => unsigned_or 0 value | None => 0 end.

Definition unit_size (m : Json) : exc Z :=
  let value := number m "unit_size" in
  let value := if value =? 0 then number m "cluster_size" else value in
  throw_if (value =? 0) "Allocation map has no unit size" ≫= fun _ => Value value.

Definition addition (first second : Z) : exc Z :=
  throw_if (UINT64_MAX - second <? first) "Live allocation range overflows" ≫= fun _ => Value (first +64 second).

Definition product (first second : Z) : exc Z :=
  throw_if (negb (second =? 0) && (UINT64_MAX / second <? first)) "Live allocation size overflows" ≫= fun _ =>
  Value (first *64 second).

Definition ceiling_units (bytes unit : Z) : Z := bytes / unit +64 (if bytes mod unit =? 0 then 0 else 1).

Definition pair_value (pair : Json) (index : nat) : exc Z :=
  match pair with
  | JArray values =>
      match values !! index with
      | Some value => Value (unsigned_or 0 value)
      | None => Throw "Invalid live allocation pair"
      end
  | _ => Throw "Invalid live allocation pair"
  end.

(** [std::round(moved * value / old_used)] in [long double]. *)
Class Rounding := rounded : Z -> Z -> Z -> Z.

(** It is not negative for counts. *)
Class RoundingLaws (R : Rounding) :=
  rounded_nonneg moved value old_used : 0 <= moved -> 0 <= value -> 0 < old_used -> 0 <= rounded moved value old_used.

(** ** Cells *)

Definition validate_cell_count (cells : list Json) : exc unit :=
  throw_if ((Z.of_nat (length cells) =? 0) || (1048576 <? Z.of_nat (length cells)))
    "Invalid live allocation cell count".

Definition unordered : string := "Live allocation cells are not ordered".

(** The loop of [validate_cells]; [previous] is empty at the first cell. *)
Fixpoint cells_ordered (previous : option Z) (cells : list Json) : exc unit :=
  match cells with
  | [] => Value tt
  | cell :: cells =>
      throw_if (negb (is_object cell) || (number cell "end" <? number cell "start") ||
                match previous with Some previous => number cell "start" <=? previous | None => false end)
        unordered ≫= fun _ =>
      cells_ordered (Some (number cell "end")) cells
  end.

Definition validate_cells (cells : list Json) : exc unit :=
  validate_cell_count cells ≫= fun _ => cells_ordered None cells.

(** [CellPatches]: the cells an event changes, by their index. *)
Abbreviation CellPatches := (gmap nat Json).

Definition effective_cell (cells : list Json) (patches : CellPatches) (index : nat) : option Json :=
  match patches !! index with Some cell => Some cell | None => cells !! index end.

Definition commit_patches (cells : list Json) (patches : CellPatches) : list Json :=
  imap (fun index cell => default cell (patches !! index)) cells.

(** [std::lower_bound] on cells ordered by their end: the first that ends at
    [first] or later, with its index.  The search by halves of the source finds the
    same cell when they are so ordered. *)
Fixpoint lower_bound (first : Z) (index : nat) (cells : list Json) : nat * list Json :=
  match cells with
  | [] => (index, [])
  | cell :: rest => if number cell "end" <? first then lower_bound first (S index) rest else (index, cells)
  end.

Section Live.
  Context {rounding : Rounding}.

(** *** Ranges *)

Definition proportional (changed : Json) (key : string) (moved old_used : Z) : Z :=
  Z.min (number changed key) (rounded moved (number changed key) old_used).

(** The fragmented or directory units left when [moved] used units go. *)
Definition shrink (changed : Json) (key : string) (amount left : Z) : Z :=
  Z.min (number changed key -64 Z.min (number changed key) amount) left.

(** One cell of the loop of [apply_range]. *)
Definition apply_cell (first last : Z) (used : bool) (changed : Json) : exc Json :=
  let begin := number changed "start" in
  end_ ← addition (number changed "end") 1;
  let overlap := Z.min end_ last -64 Z.max begin first in
  if overlap =? 0 then Value changed
  else
    let from := if used then "free" else "used" in
    let other := if used then "used" else "free" in
    let available := number changed from in
    let moved := Z.min overlap available in
    changed ←
      (if used then Value changed
       else
         let old_used := Z.max 1 available in
         let fragments := proportional changed "fragmented" moved old_used in
         let directories := proportional changed "directory" moved old_used in
         let left := available -64 moved in
         changed' ← set "fragmented" (unsigned_integer (shrink changed "fragmented" fragments left)) changed;
         set "directory" (unsigned_integer (shrink changed "directory" directories left)) changed');
    changed ← set from (unsigned_integer (available -64 moved)) changed;
    total ← addition (number changed other) moved;
    set other (unsigned_integer total) changed.

Fixpoint apply_cells (first last : Z) (used : bool) (index : nat) (cells : list Json) (patches : CellPatches) :
    exc CellPatches :=
  match cells with
  | [] => Value patches
  | cell :: cells =>
      if number cell "start" <? last then
        changed ← apply_cell first last used (default cell (patches !! index));
        apply_cells first last used (S index) cells (<[index := changed]> patches)
      else Value patches
  end.

Definition apply_range (cells : list Json) (patches : CellPatches) (first_byte length unit : Z) (used : bool) :
    exc CellPatches :=
  if length =? 0 then Value patches
  else
    let first := first_byte / unit in
    end_byte ← addition first_byte length;
    let last := ceiling_units end_byte unit in
    let '(index, rest) := lower_bound first 0 cells in
    apply_cells first last used index rest patches.

(** The lambda [move]. *)
Definition move (allocate_only : bool) (unit : Z) (cells : list Json) (patches : CellPatches)
    (source destination length : Z) : exc CellPatches :=
  patches ← (if allocate_only then Value patches else apply_range cells patches source length unit false);
  apply_range cells patches destination length unit true.

Fixpoint move_ranges (allocate_only : bool) (unit : Z) (cells : list Json) (patches : CellPatches)
    (ranges : list Json) : exc CellPatches :=
  match ranges with
  | [] => Value patches
  | range :: ranges =>
      patches ←
        match range with
        | JArray [_; _; _] =>
            source ← pair_value range 0;
            destination ← pair_value range 1;
            length ← pair_value range 2;
            move allocate_only unit cells patches source destination length
        | _ => Value patches
        end;
      move_ranges allocate_only unit cells patches ranges
  end.

Definition allocates_only (payload : Json) : bool :=
  match find "mode" payload with
  | Some mode => String.eqb (string_or EmptyString mode) "allocate-only"
  | None => false
  end.

Definition desktop_live_ranges (m : Json) (cells : list Json) (payload : Json) (plural : bool) : exc (list Json) :=
  validate_cell_count cells ≫= fun _ =>
  unit ← unit_size m;
  let allocate_only := allocates_only payload in
  patches ←
    (if negb plural then
       move allocate_only unit cells ∅ (number payload "source_start_byte")
         (number payload "destination_start_byte") (number payload "length_bytes")
     else
       match find "ranges" payload with
       | Some (JArray ranges) =>
           throw_if (1048576 <? Z.of_nat (length ranges)) "Too many live ranges" ≫= fun _ =>
           move_ranges allocate_only unit cells ∅ ranges
       | _ => Value ∅
       end);
  Value (commit_patches cells patches).
End Live.

(** *** Cells reported by the worker *)

Definition cell_keys : list string :=
  ["start"; "end"; "free"; "used"; "unknown"; "outside"; "fragmented"; "directory"; "bad"]%string.

Definition cell_of_update (update : Json) : Json :=
  JObject (object_of (map (fun key => (key, unsigned_integer (number update key))) cell_keys)).

Definition patch_cell (count : Z) (patches : CellPatches) (update : Json) : CellPatches :=
  if negb (is_object update) then patches
  else
    let index := number update "i" in
    if count <=? index then patches else <[Z.to_nat index := cell_of_update update]> patches.

Definition patch_ordered (cells : list Json) (patches : CellPatches) (index : nat) (cell : Json) : bool :=
  is_object cell && (number cell "start" <=? number cell "end") &&
  match index with
  | O => true
  | S previous =>
      match effective_cell cells patches previous with
      | Some before => number before "end" <? number cell "start"
      | None => true
      end
  end &&
  match effective_cell cells patches (S index) with
  | Some after => number cell "end" <? number after "start"
  | None => true
  end.

(** The test of the changed cells and their neighbours only. *)
Definition validate_patched_cell_order (cells : list Json) (patches : CellPatches) : exc unit :=
  throw_if (negb (forallb (fun ic => patch_ordered cells patches (fst ic) (snd ic)) (map_to_list patches))) unordered.

Definition copied_keys : list string :=
  ["fragmented_files"; "fragmented_directories"; "free_clusters"; "free_gaps_below_highest"]%string.

(** The members of the payload that the map takes. *)
Fixpoint copy_members (keys : list string) (payload m : Json) : exc Json :=
  match keys with
  | [] => Value m
  | key :: keys => m ← copy_member key payload m; copy_members keys payload m
  end.

Definition desktop_live_cells (m : Json) (cells : list Json) (payload : Json) : exc (Json * list Json) :=
  validate_cell_count cells ≫= fun _ =>
  throw_if (negb (is_object m)) "Invalid live allocation map" ≫= fun _ =>
  patches ←
    match find "cells" payload with
    | Some (JArray updates) =>
        throw_if (length cells <? length updates)%nat "Too many live cells" ≫= fun _ =>
        Value (foldl (patch_cell (Z.of_nat (length cells))) ∅ updates)
    | _ => Value ∅
    end;
  validate_patched_cell_order cells patches ≫= fun _ =>
  m ← copy_members copied_keys payload m;
  Value (m, commit_patches cells patches).

(** *** A new start *)

Definition reset_cell (total : Z) (cell : Json) : exc Json :=
  let begin := number cell "start" in
  end_ ← addition (number cell "end") 1;
  let inside := if total <=? begin then 0 else Z.min end_ total -64 begin in
  set_all [("free", unsigned_integer inside); ("used", unsigned_integer 0); ("unknown", unsigned_integer 0);
           ("outside", unsigned_integer (end_ -64 begin -64 inside)); ("fragmented", unsigned_integer 0);
           ("directory", unsigned_integer 0); ("bad", unsigned_integer 0)]%string cell.

Definition mark_cell (first last : Z) (cell : Json) : exc Json :=
  end_ ← addition (number cell "end") 1;
  let overlap := Z.min end_ last -64 Z.max (number cell "start") first in
  if overlap =? 0 then Value cell
  else
    let available := number cell "free" in
    let moved := Z.min overlap available in
    cell ← set "free" (unsigned_integer (available -64 moved)) cell;
    total ← addition (number cell "used") moved;
    set "used" (unsigned_integer total) cell.

(** The cells from the first on that start before [last]. *)
Fixpoint mark_cells (first last : Z) (cells : list Json) : exc (list Json) :=
  match cells with
  | [] => Value []
  | cell :: rest =>
      if number cell "start" <? last then
        cell ← mark_cell first last cell;
        rest ← mark_cells first last rest;
        Value (cell :: rest)
      else Value cells
  end.

(** After the cells [std::lower_bound] passes over. *)
Fixpoint mark_from (first last : Z) (cells : list Json) : exc (list Json) :=
  match cells with
  | [] => Value []
  | cell :: rest =>
      if number cell "end" <? first then rest ← mark_from first last rest; Value (cell :: rest)
      else mark_cells first last cells
  end.

(** The lambda [mark]. *)
Definition mark (total unit begin length : Z) (cells : list Json) : exc (list Json) :=
  limit ← product total unit;
  if limit <=? begin then Value cells
  else
    let first := begin / unit in
    end_byte ← addition begin (Z.min length (limit -64 begin));
    mark_from first (ceiling_units end_byte unit) cells.

Fixpoint mark_ranges (total unit : Z) (ranges : list Json) (cells : list Json) : exc (list Json) :=
  match ranges with
  | [] => Value cells
  | range :: ranges =>
      match range with
      | JArray [_; _] =>
          begin ← pair_value range 0;
          length ← pair_value range 1;
          cells ← mark total unit begin length cells;
          mark_ranges total unit ranges cells
      | _ => Throw "Invalid live reset used range"
      end
  end.

Definition reset_map (m : Json) (total unit : Z) : exc Json :=
  bytes ← product total unit;
  outside ← product (if total <? number m "total_units" then number m "total_units" -64 total else 0) unit;
  set_all [("filesystem_units", unsigned_integer total); ("filesystem_bytes", unsigned_integer bytes);
           ("outside_bytes", unsigned_integer outside)]%string m.

Definition desktop_live_reset (m : Json) (cells : list Json) (payload : Json) : exc (Json * list Json) :=
  validate_cells cells ≫= fun _ =>
  if has_key "reason" payload && negb (has_key "filesystem_units" payload) then Value (m, cells)
  else
    unit ← (if number payload "unit_size" =? 0 then unit_size m else Value (number payload "unit_size"));
    let total := number payload "filesystem_units" in
    past ← (if total =? 0 then Value 0
            else addition (number (List.last cells JNull) "end") 1);
    throw_if ((total =? 0) || (past <? total)) "Invalid live reset filesystem extent" ≫= fun _ =>
    changed ← mapM (reset_cell total) cells;
    match find "used_ranges" payload with
    | Some (JArray ranges) =>
        throw_if (1048576 <? Z.of_nat (length ranges)) "Too many used ranges" ≫= fun _ =>
        changed ← mark_ranges total unit ranges changed;
        m ← reset_map m total unit;
        Value (m, changed)
    | _ => Throw "Live reset has no used-range list"
    end.

(** ** Lemmas: numbers *)

Lemma addition_value a b n : is_u64 a -> is_u64 b -> addition a b = Value n -> n = a + b /\ is_u64 (a + b).
Proof.
  unfold addition, is_u64. intros Ha Hb H. apply guard_value in H as [Hg [= <-]]. breflect.
  rewrite u64_small by (unfold is_u64; lia). lia.
Qed.

Lemma number_required v key n : required_u64 v key = Value n -> number v key = n.
Proof.
  intros H. apply bind_value in H as (x & Hx & H). unfold at_key in Hx. unfold number.
  destruct (find key v) as [y|]; [|done]. injection Hx as ->. destruct x; try done. cbn [unsigned_or].
  by rewrite H.
Qed.

Lemma number_optional v key n : optional_u64 v key 0 = Value n -> number v key = n.
Proof.
  unfold optional_u64, number. destruct (find key v) as [x|]; [|by intros [= ->]].
  destruct x; try done. intros H. cbn [unsigned_or]. by rewrite H.
Qed.

Lemma number_set key' key n v v' :
  set key' (unsigned_integer n) v = Value v' -> is_u64 n ->
  number v' key = if String.eqb key key' then n else number v key.
Proof.
  intros H Hn. unfold number. rewrite (find_set _ _ _ _ _ H). destruct (String.eqb key key'); [|done].
  pose proof (unsigned_value_integer n Hn) as E. unfold unsigned_integer in *. cbn [unsigned_or]. by rewrite E.
Qed.

Lemma required_set key' key n v v' :
  set key' (unsigned_integer n) v = Value v' -> is_u64 n ->
  required_u64 v' key = if String.eqb key key' then Value n else required_u64 v key.
Proof.
  intros H Hn. unfold required_u64, at_key. rewrite (find_set _ _ _ _ _ H). destruct (String.eqb key key'); [|done].
  by apply unsigned_value_integer.
Qed.

Lemma optional_set key' key n v v' :
  set key' (unsigned_integer n) v = Value v' -> is_u64 n ->
  optional_u64 v' key 0 = if String.eqb key key' then Value n else optional_u64 v key 0.
Proof.
  intros H Hn. unfold optional_u64. rewrite (find_set _ _ _ _ _ H). destruct (String.eqb key key'); [|done].
  by apply unsigned_value_integer.
Qed.

Lemma number_u64 v key : is_u64 (number v key).
Proof.
  unfold number. pose proof zero_u64. destruct (find key v) as [w|]; [|done]. destruct w; try done.
  cbn [unsigned_or]. destruct (unsigned_value (JNumber text)) as [n|] eqn:E; [|done]. by apply unsigned_value_range in E.
Qed.

(** The numbers a cell reads as. *)
Lemma reads_numbers v c :
  reads_cell v c ->
  number v "start" = r_start c /\ number v "end" = r_end c /\ number v "free" = r_free c /\
  number v "used" = r_used c /\ number v "unknown" = r_unknown c /\ number v "outside" = r_outside c /\
  number v "bad" = r_bad c /\ number v "fragmented" = r_fragmented c /\ number v "directory" = r_directory c.
Proof.
  intros []. split_and!; first [by apply number_required | by apply number_optional].
Qed.

(** ** Lemmas: what a range moves *)

(** Units that change hands inside a cell: its place, its other counts and the
    sum of free and used stay. *)
Record conserved (c c' : Report) : Prop := {
  cv_start : r_start c' = r_start c;
  cv_end : r_end c' = r_end c;
  cv_unknown : r_unknown c' = r_unknown c;
  cv_outside : r_outside c' = r_outside c;
  cv_bad : r_bad c' = r_bad c;
  cv_sum : r_free c' + r_used c' = r_free c + r_used c;
  cv_fragmented : r_fragmented c' <= r_used c';
  cv_directory : r_directory c' <= r_used c';
}.

Lemma conserved_balanced c c' : conserved c c' -> balanced c -> balanced c'.
Proof. intros [] [H1 H2]. unfold balanced. split; [lia|]. split; lia. Qed.

Lemma conserved_trans a b c : conserved a b -> conserved b c -> conserved a c.
Proof. intros [] []. split; congruence || lia. Qed.

(** A cell that reads as a balanced one still does. *)
Definition kept (v v' : Json) : Prop :=
  forall c, reads_cell v c -> balanced c -> exists c', reads_cell v' c' /\ conserved c c'.

Lemma kept_refl v : kept v v.
Proof. intros c Hc [_ [H1 H2]]. exists c. split; [done|]. by split. Qed.

Lemma kept_trans a b c : kept a b -> kept b c -> kept a c.
Proof.
  intros H1 H2 x Hx Hb. destruct (H1 x Hx Hb) as (y & Hy & Cy).
  destruct (H2 y Hy (conserved_balanced _ _ Cy Hb)) as (z & Hz & Cz).
  exists z. split; [done|by eapply conserved_trans].
Qed.

Lemma divides_kept lo hi cells cells' :
  Forall2 kept cells cells' -> divides lo hi cells -> divides lo hi cells'.
Proof.
  intros H. revert lo. induction H as [|v v' cells cells' Hv _ IH]; intros lo Hd; [done|].
  cbn [divides] in *. destruct Hd as (c & Hc & Hs & He & Hb & Hd). destruct (Hv c Hc Hb) as (c' & Hc' & Cc).
  exists c'. pose proof (conserved_balanced _ _ Cc Hb). destruct Cc. split_and!; try done; try lia.
  rewrite cv_end0. by apply IH.
Qed.

(** The fields of a cell after [set] of some of them. *)
Ltac read_sets :=
  repeat match goal with
  | H : set _ _ _ = Value ?v |- context [required_u64 ?v ?k] => rewrite (required_set _ k _ _ _ H) by (unfold is_u64 in *; lia)
  | H : set _ _ _ = Value ?v |- context [optional_u64 ?v ?k 0] => rewrite (optional_set _ k _ _ _ H) by (unfold is_u64 in *; lia)
  end; cbn [String.eqb Ascii.eqb Bool.eqb].

Section Moves.
  Context {rounding : Rounding} {laws : RoundingLaws rounding}.

(** Both directions end by moving [moved] units from one count to the other. *)
Lemma take_used_kept v c moved v1 total v' :
  reads_cell v c -> balanced c -> 0 <= moved <= r_free c ->
  set "free" (unsigned_integer (r_free c -64 moved)) v = Value v1 ->
  addition (number v1 "used") moved = Value total -> set "used" (unsigned_integer total) v1 = Value v' ->
  exists c', reads_cell v' c' /\ conserved c c'.
Proof.
  intros Hc Hb Hm H1 Ha H2. destruct (reads_cell_ranges _ _ Hc) as [R1 R2 R3 R4 R5 R6 R7 R8 R9].
  destruct (reads_numbers _ _ Hc) as (_ & _ & _ & Nu & _).
  unfold is_u64 in R3. rewrite (u64_small (r_free c - moved)) in H1 by (unfold is_u64; lia).
  rewrite (number_set _ _ _ _ _ H1) in Ha by (unfold is_u64; lia). cbn [String.eqb Ascii.eqb Bool.eqb] in Ha.
  rewrite Nu in Ha. apply addition_value in Ha as [-> Ht]; [|done|unfold is_u64; lia].
  exists (mkReport (r_start c) (r_end c) (r_free c - moved) (r_used c + moved) (r_unknown c) (r_outside c) (r_bad c)
            (r_fragmented c) (r_directory c)).
  destruct Hb as (Hb1 & Hb2 & Hb3). split.
  - destruct Hc. split; cbn [r_start r_end r_free r_used r_unknown r_outside r_bad r_fragmented r_directory];
      [by apply set_object in H2 as [_ ?]|read_sets; done..].
  - split; cbn; lia.
Qed.

Lemma take_free_kept v c moved fg di v1 v2 v3 total v' :
  reads_cell v c -> balanced c -> 0 <= moved <= r_used c ->
  0 <= fg <= r_used c - moved -> 0 <= di <= r_used c - moved ->
  set "fragmented" (unsigned_integer fg) v = Value v1 -> set "directory" (unsigned_integer di) v1 = Value v2 ->
  set "used" (unsigned_integer (r_used c -64 moved)) v2 = Value v3 ->
  addition (number v3 "free") moved = Value total -> set "free" (unsigned_integer total) v3 = Value v' ->
  exists c', reads_cell v' c' /\ conserved c c'.
Proof.
  intros Hc Hb Hm Hfg Hdi E1 E2 E3 Ha E4. destruct (reads_cell_ranges _ _ Hc) as [R1 R2 R3 R4 R5 R6 R7 R8 R9].
  destruct (reads_numbers _ _ Hc) as (_ & _ & Nf & _).
  unfold is_u64 in R4. rewrite (u64_small (r_used c - moved)) in E3 by (unfold is_u64; lia).
  rewrite (number_set _ _ _ _ _ E3), (number_set _ _ _ _ _ E2), (number_set _ _ _ _ _ E1) in Ha by (unfold is_u64; lia).
  cbn [String.eqb Ascii.eqb Bool.eqb] in Ha.
  rewrite Nf in Ha. apply addition_value in Ha as [-> Ht]; [|done|unfold is_u64; lia].
  exists (mkReport (r_start c) (r_end c) (r_free c + moved) (r_used c - moved) (r_unknown c) (r_outside c) (r_bad c) fg di).
  split.
  - destruct Hc. split; cbn [r_start r_end r_free r_used r_unknown r_outside r_bad r_fragmented r_directory];
      [by apply set_object in E4 as [_ ?]|read_sets; done..].
  - split; cbn; lia.
Qed.

Lemma shrink_bounds v key amount left :
  is_u64 (number v key) -> 0 <= amount -> 0 <= left -> 0 <= shrink v key amount left <= left.
Proof.
  unfold shrink, is_u64. intros Hn Ha Hl. rewrite u64_small by (unfold is_u64; lia). lia.
Qed.

Lemma apply_cell_kept first last used v v' : apply_cell first last used v = Value v' -> kept v v'.
Proof.
  intros H c Hc Hb. destruct (reads_cell_ranges _ _ Hc) as [R1 R2 R3 R4 R5 R6 R7 R8 R9].
  destruct (reads_numbers _ _ Hc) as (Ns & Ne & Nf & Nu & _ & _ & _ & Ng & Nd).
  unfold apply_cell in H. apply bind_value in H as (end_ & _ & H). cbv zeta in H.
  pose proof (u64_range (Z.min end_ last - Z.max (number v "start") first)) as Ro.
  set (overlap := Z.min end_ last -64 Z.max (number v "start") first) in *.
  destruct (overlap =? 0); [injection H as <-; by apply kept_refl|]. unfold is_u64 in Ro, R3, R4, R8, R9.
  destruct used.
  - rewrite Nf in H. cbn [mbind exc_bind] in H. apply bind_value in H as (v1 & H1 & H).
    apply bind_value in H as (total & Ha & H2).
    eapply (take_used_kept v c (Z.min overlap (r_free c))); try eassumption. lia.
  - rewrite Nu in H. apply bind_value in H as (v2 & H12 & H). apply bind_value in H12 as (v1 & H1 & H2).
    apply bind_value in H as (v3 & H3 & H). apply bind_value in H as (total & Ha & H4).
    set (moved := Z.min overlap (r_used c)) in *.
    rewrite (u64_small (r_used c - moved)) in H1, H2 by (unfold is_u64; lia).
    assert (P : forall key, is_u64 (number v key) -> 0 <= proportional v key moved (Z.max 1 (r_used c))).
    { intros key Hk. unfold proportional, is_u64 in *.
      pose proof (rounded_nonneg moved (number v key) (Z.max 1 (r_used c)) ltac:(lia) ltac:(lia) ltac:(lia)). lia. }
    eapply (take_free_kept v c moved); [eassumption|eassumption|lia| | |exact H1|exact H2|exact H3|exact Ha|exact H4];
      (apply shrink_bounds; [|apply P|lia]; rewrite ?Ng, ?Nd; unfold is_u64; lia).
Qed.

(** *** Patches *)

Lemma commit_lookup cells (patches : CellPatches) i :
  commit_patches cells patches !! i = (fun cell => default cell (patches !! i)) <$> cells !! i.
Proof. unfold commit_patches. apply list_lookup_imap. Qed.

(** Every cell is kept by the patches. *)
Definition patches_keep (cells : list Json) (patches : CellPatches) : Prop :=
  forall i v, cells !! i = Some v -> kept v (default v (patches !! i)).

Lemma commit_kept cells patches :
  patches_keep cells patches -> Forall2 kept cells (commit_patches cells patches).
Proof.
  intros H. apply Forall2_lookup. intros i. rewrite commit_lookup.
  destruct (cells !! i) as [v|] eqn:E; cbn; constructor. by apply H.
Qed.

Lemma patches_keep_empty cells : patches_keep cells ∅.
Proof. intros i v _. rewrite lookup_empty. apply kept_refl. Qed.

Lemma lower_bound_suffix first index cells i rest :
  lower_bound first index cells = (i, rest) -> exists k, i = (index + k)%nat /\ rest = drop k cells.
Proof.
  revert index. induction cells as [|cell cells IH]; intros index H; cbn [lower_bound] in H.
  - injection H as <- <-. exists 0%nat. split; [lia|done].
  - destruct (number cell "end" <? first).
    + apply IH in H as (k & -> & ->). exists (S k). split; [lia|done].
    + injection H as <- <-. exists 0%nat. split; [lia|done].
Qed.

Lemma apply_cells_keep first last used cells index rest patches patches' :
  rest = drop index cells -> patches_keep cells patches ->
  apply_cells first last used index rest patches = Value patches' -> patches_keep cells patches'.
Proof.
  revert index patches. induction rest as [|cell rest IH]; intros index patches Hr Hk H; cbn [apply_cells] in H.
  - by injection H as <-.
  - destruct (number cell "start" <? last); [|by injection H as <-].
    apply bind_value in H as (changed & Hc & H).
    assert (Hi : cells !! index = Some cell).
    { rewrite <- (Nat.add_0_r index), <- lookup_drop, <- Hr. done. }
    eapply IH; [| |exact H].
    + rewrite <- Nat.add_1_r, <- drop_drop, <- Hr. done.
    + intros i v Hv. destruct (decide (i = index)) as [->|Hne].
      * rewrite lookup_insert. rewrite Hi in Hv. injection Hv as <-. rewrite decide_True by done. cbn.
        eapply kept_trans; [by apply Hk|by eapply apply_cell_kept].
      * rewrite lookup_insert_ne by done. by apply Hk.
Qed.

Lemma apply_range_keep cells patches first_byte length unit used patches' :
  patches_keep cells patches -> apply_range cells patches first_byte length unit used = Value patches' ->
  patches_keep cells patches'.
Proof.
  unfold apply_range. intros Hk H. destruct (length =? 0); [by injection H as <-|]. cbv zeta in H.
  apply bind_value in H as (end_byte & _ & H). destruct (lower_bound _ 0 cells) as [index rest] eqn:E.
  apply lower_bound_suffix in E as (k & -> & ->). by eapply apply_cells_keep in H.
Qed.

Lemma move_keep allocate unit cells patches source destination length patches' :
  patches_keep cells patches -> move allocate unit cells patches source destination length = Value patches' ->
  patches_keep cells patches'.
Proof.
  intros Hk H. apply bind_value in H as (p & Hp & H). eapply apply_range_keep; [|exact H].
  destruct allocate; [by injection Hp as <-|by eapply apply_range_keep].
Qed.

Lemma move_ranges_keep allocate unit cells patches ranges patches' :
  patches_keep cells patches -> move_ranges allocate unit cells patches ranges = Value patches' ->
  patches_keep cells patches'.
Proof.
  revert patches. induction ranges as [|r ranges IH]; intros patches Hk H; cbn [move_ranges] in H; [by injection H as <-|].
  apply bind_value in H as (p & Hp & H). eapply IH; [|exact H].
  destruct r as [| | | |[|a [|b [|d [|? ?]]]]|]; try (by injection Hp as <-).
  apply bind_value in Hp as (x & _ & Hp). apply bind_value in Hp as (y & _ & Hp).
  apply bind_value in Hp as (z & _ & Hp). by eapply move_keep.
Qed.
End Moves.

(** ** Lemmas: order *)

(** Ordered cells, by neighbours. *)
Definition sorted_cells (cells : list Json) : Prop :=
  (forall i v, cells !! i = Some v -> is_object v = true /\ number v "start" <= number v "end") /\
  (forall i a b, cells !! i = Some a -> cells !! S i = Some b -> number a "end" < number b "start").

Lemma cells_ordered_iff previous cells :
  cells_ordered previous cells = Value tt <->
  match previous, cells with Some p, v :: _ => p < number v "start" | _, _ => True end /\ sorted_cells cells.
Proof.
  revert previous. induction cells as [|v cells IH]; intros previous; cbn [cells_ordered].
  { split; [intros _|done]. split; [by destruct previous|]. by split; intros i; rewrite lookup_nil. }
  rewrite guard_value, !orb_false_iff, negb_false_iff, Z.ltb_ge, IH. unfold sorted_cells. split.
  - intros [[[Ho Hle] Hp] (Hh & Ha & Hn)]. split; [destruct previous; [by apply Z.leb_gt in Hp|done]|]. split.
    + intros [|i] w Hw; [injection Hw as <-; tauto|by apply (Ha i)].
    + intros [|i] a b Hia Hib; [|by apply (Hn i)]. injection Hia as <-. destruct cells; [done|]. by injection Hib as <-.
  - intros (Hp & Ha & Hn). destruct (Ha 0%nat v eq_refl) as [Ho Hle]. split; [split; [tauto|]|].
    + destruct previous; [by apply Z.leb_gt|done].
    + split; [destruct cells as [|w cells]; [done|]; by apply (Hn 0%nat)|]. split.
      * intros i w Hw. by apply (Ha (S i)).
      * intros i a b Hia Hib. by apply (Hn (S i) a b).
Qed.

Lemma commit_length cells (patches : CellPatches) : length (commit_patches cells patches) = length cells.
Proof. unfold commit_patches. apply length_imap. Qed.

Lemma validate_cells_iff cells :
  validate_cells cells = Value tt <-> validate_cell_count cells = Value tt /\ sorted_cells cells.
Proof.
  unfold validate_cells. rewrite bind_value. split.
  - intros ([] & Hc & H). split; [done|]. by apply (cells_ordered_iff None).
  - intros [Hc H]. exists tt. split; [done|]. apply (cells_ordered_iff None). by split.
Qed.

(** The patches are inside the cells. *)
Definition patches_inside (cells : list Json) (patches : CellPatches) : Prop :=
  forall i v, patches !! i = Some v -> (i < length cells)%nat.

Lemma effective_commit cells (patches : CellPatches) i :
  patches_inside cells patches -> effective_cell cells patches i = commit_patches cells patches !! i.
Proof.
  intros Hin. rewrite commit_lookup. unfold effective_cell. destruct (patches !! i) as [v|] eqn:E.
  - apply Hin in E as Hi. apply lookup_lt_is_Some in Hi as [w Hw]. rewrite Hw. by cbn.
  - by destruct (cells !! i).
Qed.

(** One patched cell between its neighbours. *)
Lemma patch_ordered_iff cells patches i v :
  patches_inside cells patches -> patches !! i = Some v ->
  let after := commit_patches cells patches in
  patch_ordered cells patches i v = true <->
  is_object v = true /\ number v "start" <= number v "end" /\
  (forall j b, i = S j -> after !! j = Some b -> number b "end" < number v "start") /\
  (forall b, after !! S i = Some b -> number v "end" < number b "start").
Proof.
  intros Hin Hv after. unfold patch_ordered. rewrite !andb_true_iff, Z.leb_le, (effective_commit _ _ (S i) Hin).
  fold after. split.
  - intros [[[Ho Hle] Hb] Ha]. split; [done|]. split; [done|]. split.
    + intros j b -> Hj. rewrite (effective_commit _ _ j Hin) in Hb. fold after in Hb. rewrite Hj in Hb. by apply Z.ltb_lt.
    + intros b Hb'. rewrite Hb' in Ha. by apply Z.ltb_lt.
  - intros (Ho & Hle & Hb & Ha). split; [split; [done|]|].
    + destruct i as [|j]; [done|]. rewrite (effective_commit _ _ j Hin). fold after.
      destruct (after !! j) eqn:E; [|done]. apply Z.ltb_lt. by eapply Hb.
    + destruct (after !! S i) eqn:E; [|done]. apply Z.ltb_lt. by apply Ha.
Qed.

Lemma patched_sorted cells patches :
  sorted_cells cells -> patches_inside cells patches ->
  validate_patched_cell_order cells patches = Value tt <-> sorted_cells (commit_patches cells patches).
Proof.
  intros [Sa Sn] Hin. unfold validate_patched_cell_order.
  rewrite (throw_if_value _ _ (fun _ => Value tt)), negb_false_iff, forallb_forall. split.
  - intros H. assert (P : forall i v, patches !! i = Some v -> patch_ordered cells patches i v = true).
    { intros i v Hv. apply (H (i, v)). by apply list_elem_of_In, elem_of_map_to_list. }
    split.
    + intros i v Hv. rewrite commit_lookup in Hv. destruct (cells !! i) as [w|] eqn:Ew; [|done]. injection Hv as <-.
      destruct (patches !! i) as [u|] eqn:Eu; cbn; [|by eapply Sa].
      specialize (P _ _ Eu). apply patch_ordered_iff in P; [tauto|done|done].
    + intros i a b Ha Hb. destruct (patches !! i) as [u|] eqn:Eu.
      * pose proof Ha as Ha'. rewrite commit_lookup, Eu in Ha'. destruct (cells !! i); [|done]. injection Ha' as <-.
        specialize (P _ _ Eu). apply patch_ordered_iff in P as (_ & _ & _ & P); [|done|done]. by apply P.
      * destruct (patches !! S i) as [u|] eqn:Eu'.
        -- pose proof Hb as Hb'. rewrite commit_lookup, Eu' in Hb'. destruct (cells !! S i); [|done]. injection Hb' as <-.
           specialize (P _ _ Eu'). apply patch_ordered_iff in P as (_ & _ & P & _); [|done|done]. by eapply P.
        -- rewrite commit_lookup, Eu in Ha. rewrite commit_lookup, Eu' in Hb.
           destruct (cells !! i) eqn:Ei; [|done]. destruct (cells !! S i) eqn:Ej; [|done].
           injection Ha as <-. injection Hb as <-. cbn. by eapply Sn.
  - intros [Ca Cn] [i v] Hv. apply list_elem_of_In, elem_of_map_to_list in Hv. cbn [fst snd].
    apply patch_ordered_iff; [done|done|]. cbv zeta.
    assert (Hiv : commit_patches cells patches !! i = Some v).
    { rewrite commit_lookup, Hv. apply Hin in Hv as Hi. apply lookup_lt_is_Some in Hi as [w ->]. done. }
    destruct (Ca _ _ Hiv) as [Ho Hle]. split_and!; [done|done| |].
    + intros j b -> Hj. by eapply Cn.
    + intros b Hb. by eapply Cn.
Qed.

Lemma patch_cell_inside cells patches update :
  patches_inside cells patches -> patches_inside cells (patch_cell (Z.of_nat (length cells)) patches update).
Proof.
  unfold patch_cell. intros Hin. destruct (negb _); [done|]. cbv zeta.
  destruct (Z.leb_spec (Z.of_nat (length cells)) (number update "i")) as [|Hlt]; [done|].
  intros i v Hv. apply lookup_insert_Some in Hv as [[<- _]|[_ Hv]]; [|by eapply Hin].
  pose proof (number_u64 update "i") as Hu. unfold is_u64 in Hu. lia.
Qed.

Lemma patch_cells_inside cells updates patches :
  patches_inside cells patches -> patches_inside cells (foldl (patch_cell (Z.of_nat (length cells))) patches updates).
Proof.
  revert patches. induction updates as [|u updates IH]; intros patches H; [done|]. cbn [foldl]. apply IH.
  by apply patch_cell_inside.
Qed.

Lemma validate_count_commit cells (patches : CellPatches) :
  validate_cell_count (commit_patches cells patches) = validate_cell_count cells.
Proof. unfold validate_cell_count. by rewrite commit_length. Qed.

(** ** Lemmas: a reset *)

(** The units of a cell below the end of the filesystem, and in a span of units. *)
Definition inside (total : Z) (c : Report) : Z := Z.max 0 (Z.min (r_end c + 1) total - r_start c).
Definition overlap (span : Z * Z) (c : Report) : Z :=
  Z.max 0 (Z.min (r_end c + 1) (snd span) - Z.max (r_start c) (fst span)).

(** A cell of a reset map with [used] units in use. *)
Definition reset_report (total used : Z) (c : Report) : Report :=
  mkReport (r_start c) (r_end c) (inside total c - used) used 0 (r_end c + 1 - r_start c - inside total c) 0 0 0.

Lemma reset_balanced total used c :
  r_start c <= r_end c -> 0 <= used <= inside total c -> balanced (reset_report total used c).
Proof. unfold balanced, reset_report. cbn. lia. Qed.

Lemma reset_cell_spec total v v' c :
  is_u64 total -> reads_cell v c -> r_start c <= r_end c -> reset_cell total v = Value v' ->
  reads_cell v' (reset_report total 0 c).
Proof.
  intros Ht Hc Hle H. destruct (reads_numbers _ _ Hc) as (Ns & Ne & _).
  destruct (reads_cell_ranges _ _ Hc) as [R1 R2 _ _ _ _ _ _ _].
  unfold reset_cell in H. cbv zeta in H. rewrite Ns, Ne in H. apply bind_value in H as (e & He & H).
  apply addition_value in He as [-> Hu]; [|done|unfold is_u64; lia].
  set (i := if total <=? r_start c then 0 else Z.min (r_end c + 1) total -64 r_start c) in *. unfold is_u64 in *.
  assert (Hi : i = inside total c).
  { subst i. unfold inside. destruct (Z.leb_spec total (r_start c)); [lia|]. rewrite u64_small by (unfold is_u64; lia). lia. }
  assert (Hin : 0 <= inside total c <= r_end c + 1 - r_start c) by (unfold inside; lia).
  rewrite Hi, (u64_small (r_end c + 1 - r_start c)), u64_small in H by (unfold is_u64; lia). cbn [set_all] in H.
  repeat (apply bind_value in H as (? & ? & H)). injection H as <-.
  destruct Hc. split; unfold reset_report;
    cbn [r_start r_end r_free r_used r_unknown r_outside r_bad r_fragmented r_directory];
    [match goal with H : set _ _ _ = Value ?w |- is_object ?w = true => by apply set_object in H as [_ ?] end|
     read_sets; rewrite ?Z.sub_0_r; done..].
Qed.

Lemma mark_cell_spec first last total used v v' c :
  is_u64 last -> is_u64 total -> 0 <= first <= last -> reads_cell v (reset_report total used c) ->
  r_start c <= r_end c -> r_start c < last -> first <= r_end c -> is_u64 (r_start c) -> is_u64 (r_end c) -> 0 <= used <= inside total c ->
  mark_cell first last v = Value v' ->
  reads_cell v' (reset_report total (Z.min (inside total c) (used + overlap (first, last) c)) c).
Proof.
  intros Hl Ht Hf Hc Hle Hs He R1 R2 Hu H. destruct (reads_numbers _ _ Hc) as (Ns & Ne & Nf & Nu & _).
  unfold reset_report in Ns, Ne, Nf, Nu. cbn [r_start r_end r_free r_used] in Ns, Ne, Nf, Nu.
  unfold mark_cell in H. rewrite Ne in H. apply bind_value in H as (e & Hb & H).
  apply addition_value in Hb as [-> Hue]; [|done|unfold is_u64; lia]. rewrite Ns in H. cbv zeta in H. unfold is_u64 in *.
  assert (Ho : overlap (first, last) c = Z.min (r_end c + 1) last - Z.max (r_start c) first)
    by (unfold overlap; cbn [fst snd]; lia).
  assert (Hin : 0 <= inside total c <= r_end c + 1 - r_start c) by (unfold inside; lia).
  rewrite u64_small, <- Ho in H by (unfold is_u64; lia). set (ov := overlap (first, last) c) in *.
  destruct (Z.eqb_spec ov 0) as [E|E].
  - injection H as <-. rewrite E, Z.add_0_r, Z.min_r by lia. done.
  - rewrite Nf in H. set (moved := Z.min ov (inside total c - used)) in *.
    rewrite (u64_small (_ - _ - moved)) in H by (unfold is_u64; lia).
    apply bind_value in H as (v1 & H1 & H). apply bind_value in H as (n & Ha & H2).
    rewrite (number_set _ _ _ _ _ H1) in Ha by (unfold is_u64; lia). cbn [String.eqb Ascii.eqb Bool.eqb] in Ha.
    rewrite Nu in Ha. apply addition_value in Ha as [-> Hn]; [|unfold is_u64; lia..].
    replace (Z.min (inside total c) (used + ov)) with (used + moved) by lia. unfold reset_report.
    destruct Hc. split; cbn [r_start r_end r_free r_used r_unknown r_outside r_bad r_fragmented r_directory];
      [by apply set_object in H2 as [_ ?]|read_sets; try done..].
    f_equal. lia.
Qed.

(** Consecutive reports. *)
Fixpoint chain (lo hi : Z) (cs : list Report) : Prop :=
  match cs with
  | [] => lo = hi
  | c :: cs => r_start c = lo /\ lo <= r_end c < hi /\ is_u64 (r_end c) /\ chain (r_end c + 1) hi cs
  end.

Lemma chain_start lo hi cs : chain lo hi cs -> Forall (fun c => lo <= r_start c) cs.
Proof.
  revert lo. induction cs as [|c cs IH]; intros lo H; [constructor|]. cbn [chain] in H.
  destruct H as (Hs & He & _ & H). constructor; [lia|]. eapply List.Forall_impl; [|by apply IH]. simpl. lia.
Qed.

(** The cells of a reset map with their used units. *)
Definition shows_reset (total : Z) (v : Json) (cu : Report * Z) : Prop :=
  reads_cell v (reset_report total (snd cu) (fst cu)) /\ 0 <= snd cu <= inside total (fst cu).

Definition add_span (total : Z) (span : Z * Z) (cu : Report * Z) : Report * Z :=
  (fst cu, Z.min (inside total (fst cu)) (snd cu + overlap span (fst cu))).

Lemma add_span_none total span cus :
  Forall (fun cu => 0 <= snd cu <= inside total (fst cu) /\ overlap span (fst cu) = 0) cus ->
  map (add_span total span) cus = cus.
Proof.
  induction 1 as [|[c u] cus [Hu Ho] _ IH]; [done|]. cbn [map]. rewrite IH. unfold add_span. cbn [fst snd] in *.
  rewrite Ho, Z.add_0_r, Z.min_r by lia. done.
Qed.

Lemma shows_reset_used total vs cus :
  Forall2 (shows_reset total) vs cus -> Forall (fun cu => 0 <= snd cu <= inside total (fst cu)) cus.
Proof. induction 1 as [|v cu vs cus [_ Hu] _ IH]; by constructor. Qed.

Lemma overlap_nonneg span c : 0 <= overlap span c.
Proof. unfold overlap. lia. Qed.

Lemma mark_cells_spec first last total lo hi vs cus vs' :
  is_u64 last -> is_u64 total -> 0 <= first <= last -> 0 <= lo -> Forall (fun cu => first <= r_end (fst cu)) cus ->
  Forall2 (shows_reset total) vs cus -> chain lo hi (map fst cus) -> mark_cells first last vs = Value vs' ->
  Forall2 (shows_reset total) vs' (map (add_span total (first, last)) cus).
Proof.
  intros Hl Ht Hf Hlo Hv H. revert lo Hlo Hv vs'. induction H as [|v [c u] vs cus Hcu Hvs IH]; intros lo Hlo Hv vs' Hch Hm;
    cbn [mark_cells] in Hm; [injection Hm as <-; constructor|].
  cbn [map chain] in Hch. cbn [fst] in Hch. destruct Hch as (Hs & He & Hu & Hch). pose proof Hcu as [Hr Hb]. cbn [fst snd] in Hr, Hb.
  destruct (reads_numbers _ _ Hr) as (Ns & _). cbn [reset_report r_start] in Ns. rewrite Ns in Hm.
  apply Forall_cons_1 in Hv as [Hfe Hv]. cbn [fst] in Hfe.
  destruct (Z.ltb_spec (r_start c) last) as [Hlt|Hge].
  - apply bind_value in Hm as (v1 & H1 & Hm). apply bind_value in Hm as (rest & H2 & Hm). injection Hm as <-.
    cbn [map]. constructor.
    + unfold shows_reset, add_span. cbn [fst snd]. split; [|pose proof (overlap_nonneg (first, last) c); lia].
      apply (mark_cell_spec first last total u v); try done; unfold is_u64 in *; lia.
    + apply (IH (r_end c + 1)); try done; try lia.
  - injection Hm as <-. rewrite (add_span_none total (first, last) ((c, u) :: cus)); [by constructor|].
    assert (G : forall c', r_start c <= r_start c' -> overlap (first, last) c' = 0) by (intros; unfold overlap; cbn; lia).
    constructor; [split; [done|by apply G]|]. apply chain_start in Hch. rewrite List.Forall_map in Hch.
    apply shows_reset_used in Hvs. apply (List.Forall_and Hvs) in Hch. eapply List.Forall_impl; [|exact Hch].
    intros [c' u'] [Hb' Hs']. cbn [fst snd] in *. split; [done|]. apply G. lia.
Qed.

Lemma chain_ends first lo hi cs : first <= lo -> chain lo hi cs -> Forall (fun c => first <= r_end c) cs.
Proof.
  revert lo. induction cs as [|c cs IH]; intros lo Hf H; [constructor|]. cbn [chain] in H.
  destruct H as (Hs & He & _ & H). constructor; [lia|]. apply (IH (r_end c + 1)); [lia|done].
Qed.

Lemma mark_from_spec first last total lo hi vs cus vs' :
  is_u64 last -> is_u64 total -> 0 <= first <= last -> 0 <= lo ->
  Forall2 (shows_reset total) vs cus -> chain lo hi (map fst cus) -> mark_from first last vs = Value vs' ->
  Forall2 (shows_reset total) vs' (map (add_span total (first, last)) cus).
Proof.
  intros Hl Ht Hf Hlo H. revert lo Hlo vs'. induction H as [|v [c u] vs cus Hcu Hvs IH]; intros lo Hlo vs' Hch Hm;
    cbn [mark_from] in Hm; [injection Hm as <-; constructor|].
  pose proof Hch as Hch'. cbn [map chain fst] in Hch. destruct Hch as (Hs & He & Hu & Hch).
  pose proof Hcu as [Hr Hb]. cbn [fst snd] in Hr, Hb.
  destruct (reads_numbers _ _ Hr) as (_ & Ne & _). cbn [reset_report r_end] in Ne. rewrite Ne in Hm.
  destruct (Z.ltb_spec (r_end c) first) as [Hlt|Hge].
  - apply bind_value in Hm as (rest & H2 & Hm). injection Hm as <-. cbn [map].
    assert (E : add_span total (first, last) (c, u) = (c, u)).
    { unfold add_span. cbn [fst snd]. f_equal. unfold overlap. cbn [fst snd]. lia. }
    rewrite E. constructor; [done|]. apply (IH (r_end c + 1)); try done; lia.
  - apply (mark_cells_spec first last total lo hi (v :: vs)); try done.
    + apply (chain_ends first) in Hch; [|lia]. rewrite List.Forall_map in Hch. by constructor.
    + by constructor.
Qed.

(** *** Spans of units *)

(** The units of a reported byte range, cut at the end of the filesystem. *)
Definition reset_span (total unit : Z) (range : Json) : Z * Z :=
  match range with
  | JArray [a; b] =>
      let begin := unsigned_or 0 a in
      if total * unit <=? begin then (0, 0)
      else (begin / unit, (begin + Z.min (unsigned_or 0 b) (total * unit - begin) + unit - 1) / unit)
  | _ => (0, 0)
  end.

Lemma product_value a b p : is_u64 a -> is_u64 b -> product a b = Value p -> p = a * b /\ is_u64 (a * b).
Proof.
  unfold product, is_u64. intros Ha Hb H. apply guard_value in H as [Hg [= <-]].
  assert (Hp : a * b <= UINT64_MAX).
  { destruct (Z.eqb_spec b 0) as [->|Hne]; [lia|]. cbn [negb andb] in Hg. apply Z.ltb_ge in Hg.
    pose proof (Z.mul_div_le UINT64_MAX b ltac:(lia)). nia. }
  rewrite u64_small by (unfold is_u64; nia). nia.
Qed.

Lemma ceiling_units_exact bytes unit :
  is_u64 bytes -> 0 < unit -> ceiling_units bytes unit = (bytes + unit - 1) / unit /\ is_u64 (ceiling_units bytes unit) /\
  bytes / unit <= ceiling_units bytes unit.
Proof.
  unfold ceiling_units, is_u64. intros Hb Hu. pose proof (Z.div_mod bytes unit ltac:(lia)) as E.
  pose proof (Z.mod_pos_bound bytes unit Hu) as Hm. set (q := bytes / unit) in *. set (r := bytes mod unit) in *.
  assert (Hq : 0 <= q) by (apply Z.div_pos; lia).
  destruct (Z.eqb_spec r 0) as [Er|Er].
  - rewrite Z.add_0_r, u64_small by (unfold is_u64; nia). split_and!; try nia.
    apply (Z.div_unique _ _ _ (unit - 1)); nia.
  - rewrite u64_small by (unfold is_u64; nia). split_and!; try nia.
    apply (Z.div_unique _ _ _ (r - 1)); nia.
Qed.

Lemma unsigned_or_u64 v : is_u64 (unsigned_or 0 v).
Proof.
  pose proof zero_u64. destruct v; try done. cbn [unsigned_or].
  destruct (unsigned_value (JNumber text)) as [n|] eqn:E; [|done]. by apply unsigned_value_range in E.
Qed.

Lemma mark_spec total unit a b lo hi vs cus vs' :
  is_u64 total -> is_u64 unit -> 0 < unit -> 0 <= lo ->
  Forall2 (shows_reset total) vs cus -> chain lo hi (map fst cus) ->
  mark total unit (unsigned_or 0 a) (unsigned_or 0 b) vs = Value vs' ->
  Forall2 (shows_reset total) vs' (map (add_span total (reset_span total unit (JArray [a; b]))) cus).
Proof.
  intros Ht Hun Hu0 Hlo Hvs Hch H. pose proof (unsigned_or_u64 a) as Ha. pose proof (unsigned_or_u64 b) as Hb.
  unfold mark in H. unfold reset_span. set (begin := unsigned_or 0 a) in *. set (len := unsigned_or 0 b) in *.
  apply bind_value in H as (limit & Hlim & H). apply product_value in Hlim as [-> Hlim]; [|done|done].
  destruct (Z.leb_spec (total * unit) begin) as [Hle|Hgt].
  - injection H as <-. rewrite add_span_none; [done|]. apply shows_reset_used in Hvs.
    apply chain_start in Hch. rewrite List.Forall_map in Hch. apply (List.Forall_and Hvs) in Hch.
    eapply List.Forall_impl; [|exact Hch]. intros [c u] [Hb' Hs']. split; [done|]. unfold overlap. cbn [fst snd] in *. lia.
  - unfold is_u64 in *. rewrite (u64_small (total * unit - begin)) in H by (unfold is_u64; lia).
    apply bind_value in H as (e & He & H). apply addition_value in He as [-> He]; [|unfold is_u64; lia..].
    destruct (ceiling_units_exact (begin + Z.min len (total * unit - begin)) unit He Hu0) as (E & Hce & Hfl).
    rewrite <- E. eapply mark_from_spec; try done; try exact H.
    split; [apply Z.div_pos; lia|]. etransitivity; [|exact Hfl]. apply Z.div_le_mono; lia.
Qed.

(** The used units after all ranges. *)
Definition used_units (total unit : Z) (ranges : list Json) (c : Report) : Z :=
  Z.min (inside total c) (fold_right Z.add 0 (map (fun r => overlap (reset_span total unit r) c) ranges)).

Lemma add_spans total spans cus :
  Forall (fun cu => 0 <= snd cu <= inside total (fst cu)) cus ->
  foldl (fun cus span => map (add_span total span) cus) cus spans =
  map (fun cu => (fst cu, Z.min (inside total (fst cu))
    (snd cu + fold_right Z.add 0 (map (fun span => overlap span (fst cu)) spans)))) cus.
Proof.
  revert cus. induction spans as [|span spans IH]; intros cus H; cbn [foldl map fold_right].
  - induction H as [|[c u] cus Hu _ IH]; [done|]. cbn [map fst snd] in *. rewrite <- IH. f_equal. f_equal. lia.
  - rewrite IH.
    + rewrite map_map. apply map_ext_in. intros [c u] _. unfold add_span. cbn [fst snd]. f_equal.
      assert (0 <= fold_right Z.add 0 (map (fun s => overlap s c) spans)); [|lia].
      clear. induction spans as [|s l IH]; cbn [map fold_right]; [lia|]. pose proof (overlap_nonneg s c). lia.
    + apply List.Forall_map. eapply List.Forall_impl; [|exact H]. intros [c u] Hu. unfold add_span. cbn [fst snd] in *.
      pose proof (overlap_nonneg span c). lia.
Qed.

Lemma mark_ranges_spec total unit ranges lo hi vs cus vs' :
  is_u64 total -> is_u64 unit -> 0 < unit -> 0 <= lo ->
  Forall2 (shows_reset total) vs cus -> chain lo hi (map fst cus) -> mark_ranges total unit ranges vs = Value vs' ->
  Forall2 (shows_reset total) vs' (foldl (fun cus span => map (add_span total span) cus) cus (map (reset_span total unit) ranges)).
Proof.
  intros Ht Hu Hu0 Hlo. revert vs cus. induction ranges as [|r ranges IH]; intros vs cus Hvs Hch H; cbn [mark_ranges] in H.
  - by injection H as <-.
  - destruct r as [| | | |[|a [|b [|? ?]]]|]; try done. cbn [pair_value] in H.
    change ([a; b] !! 0%nat) with (Some a) in H. change ([a; b] !! 1%nat) with (Some b) in H. cbn [mbind exc_bind] in H.
    apply bind_value in H as (vs1 & H1 & H). eapply mark_spec in H1; try done. cbn [map foldl].
    apply (IH vs1); [exact H1| |exact H]. rewrite map_map. exact Hch.
Qed.

(** The reports of cells that divide an interval. *)
Lemma divides_chain lo hi cells :
  divides lo hi cells -> exists cs, Forall2 reads_cell cells cs /\ chain lo hi cs.
Proof.
  revert lo. induction cells as [|v cells IH]; intros lo H; cbn [divides] in H; [by exists []|].
  destruct H as (c & Hc & Hs & He & _ & H). destruct (IH _ H) as (cs & Hcs & Hch). exists (c :: cs).
  split; [by constructor|]. destruct (reads_cell_ranges _ _ Hc). by cbn [chain].
Qed.

Lemma reset_cells_spec total lo hi cells cs changed :
  is_u64 total -> Forall2 reads_cell cells cs -> chain lo hi cs -> mapM (reset_cell total) cells = Value changed ->
  Forall2 (shows_reset total) changed (map (fun c => (c, 0)) cs).
Proof.
  intros Ht H Hch Hm. apply mapM_value in Hm. revert lo changed Hch Hm.
  induction H as [|v c cells cs Hc _ IH]; intros lo changed Hch Hm; inversion Hm as [|? w ? ws Hw Hws]; subst; constructor.
  - cbn [chain] in Hch. destruct Hch as (Hs & He & _ & _). split; cbn [fst snd]; [|unfold inside; lia].
    eapply reset_cell_spec; try done. lia.
  - cbn [chain] in Hch. destruct Hch as (_ & _ & _ & Hch). by eapply IH.
Qed.

Lemma chain_divides total lo hi vs cus :
  Forall2 (shows_reset total) vs cus -> chain lo hi (map fst cus) -> divides lo hi vs.
Proof.
  intros H. revert lo. induction H as [|v [c u] vs cus [Hr Hu] _ IH]; intros lo Hch; [exact Hch|].
  cbn [map chain fst snd] in *. destruct Hch as (Hs & He & _ & Hch). cbn [divides].
  exists (reset_report total u c). split; [done|]. split; [done|]. split; [done|].
  split; [apply reset_balanced; [lia|done]|]. by apply IH.
Qed.

Lemma reset_map_value m total unit m' :
  is_u64 total -> is_u64 unit -> reset_map m total unit = Value m' ->
  number m' "filesystem_units" = total /\ number m' "filesystem_bytes" = total * unit /\
  number m' "outside_bytes" = Z.max 0 (number m "total_units" - total) * unit.
Proof.
  intros Ht Hu H. apply bind_value in H as (bytes & Hb & H). apply bind_value in H as (out & Ho & H).
  pose proof (number_u64 m "total_units") as Hn. set (all := number m "total_units") in *.
  apply product_value in Hb as [-> Rb]; [|done|done].
  assert (E : (if total <? all then all -64 total else 0) = Z.max 0 (all - total)).
  { unfold is_u64 in *. destruct (Z.ltb_spec total all); [rewrite u64_small by (unfold is_u64; lia)|]; lia. }
  rewrite E in Ho. apply product_value in Ho as [-> Ro]; [|unfold is_u64 in *; lia|done].
  apply bind_value in H as (m1 & H1 & H). apply bind_value in H as (m2 & H2 & H). apply bind_value in H as (m3 & H3 & H).
  injection H as <-. rewrite !(number_set _ _ _ _ _ H3), !(number_set _ _ _ _ _ H2), !(number_set _ _ _ _ _ H1) by done.
  done.
Qed.

(** ** Properties *)

(** C29: A live range moves units and makes or loses none: when the event succeeds,
    every cell that was balanced stays so at the same place with the same unknown,
    outside and bad units and the same sum of free and used units, its fragmented
    and directory units never above its used ones, whatever the ranges and the
    rounding; so cells that divide the map still do, and the desktop's map stays
    one the mapper would accept. *)
Theorem live_ranges_conserve {rounding : Rounding} {laws : RoundingLaws rounding} m cells payload plural cells' :
  desktop_live_ranges m cells payload plural = Value cells' ->
  Forall2 kept cells cells' /\ forall lo hi, divides lo hi cells -> divides lo hi cells'.
Proof.
  intros H. assert (K : Forall2 kept cells cells').
  { apply bind_value in H as ([] & _ & H). apply bind_value in H as (unit & _ & H). cbv zeta in H.
    apply bind_value in H as (patches & Hp & H). injection H as <-. apply commit_kept.
    destruct plural; cbn [negb] in Hp.
    - destruct (find "ranges" payload) as [[| | | |ranges|]|]; try (injection Hp as <-; apply patches_keep_empty).
      apply guard_value in Hp as [_ Hp]. eapply move_ranges_keep; [apply patches_keep_empty|exact Hp].
    - eapply move_keep; [apply patches_keep_empty|exact Hp]. }
  split; [exact K|]. intros lo hi. by apply divides_kept.
Qed.

(** The test of changed cells against their neighbours is enough: on ordered
    cells it accepts patches exactly when the whole new map passes the full
    check. *)
Theorem patched_order_exact cells patches :
  validate_cells cells = Value tt -> patches_inside cells patches ->
  validate_patched_cell_order cells patches = Value tt <-> validate_cells (commit_patches cells patches) = Value tt.
Proof.
  intros H Hin. apply validate_cells_iff in H as [Hc Hs].
  rewrite (patched_sorted _ _ Hs Hin), validate_cells_iff, validate_count_commit. tauto.
Qed.

(** Accepted cell events keep the cells ordered and their number. *)
Theorem live_cells_ordered m cells payload m' cells' :
  validate_cells cells = Value tt -> desktop_live_cells m cells payload = Value (m', cells') ->
  validate_cells cells' = Value tt /\ length cells' = length cells.
Proof.
  intros Hv H. apply bind_value in H as ([] & _ & H). apply guard_value in H as [_ H].
  apply bind_value in H as (patches & Hp & H). apply bind_value in H as ([] & Ho & H).
  apply bind_value in H as (m1 & _ & H). injection H as <- <-. split; [|apply commit_length].
  pose proof Hv as Hv'. apply validate_cells_iff in Hv' as [Hc Hs]. apply validate_cells_iff.
  rewrite validate_count_commit. split; [done|]. apply patched_sorted; [done| |done].
  assert (E0 : patches_inside cells ∅) by (intros i v Hi; by rewrite lookup_empty in Hi).
  destruct (find "cells" payload) as [[| | | |updates|]|]; try (by injection Hp as <-).
  apply guard_value in Hp as [_ Hp]. injection Hp as <-. by apply patch_cells_inside.
Qed.

(** A reset is exact: on cells that divide the map from 0, every cell keeps its
    place, its units below the new end are free or used and the others outside,
    and its used units are its units in the reported byte ranges, each cut at the
    end of the filesystem and rounded to whole units, at most all of them; the new
    cells divide the map, and the map's sizes are those of the new end, no product
    wrapping.  An event with a reason and no extent changes nothing. *)
Theorem live_reset_exact m cells payload m' cells' hi :
  divides 0 hi cells -> desktop_live_reset m cells payload = Value (m', cells') ->
  if has_key "reason" payload && negb (has_key "filesystem_units" payload) then m' = m /\ cells' = cells
  else
    exists ranges unit, find "used_ranges" payload = Some (JArray ranges) /\ 0 < unit /\
      let total := number payload "filesystem_units" in
      divides 0 hi cells' /\
      Forall2 (fun v v' => exists c, reads_cell v c /\
        reads_cell v' (reset_report total (used_units total unit ranges c) c)) cells cells' /\
      number m' "filesystem_units" = total /\ number m' "filesystem_bytes" = total * unit /\
      number m' "outside_bytes" = Z.max 0 (number m "total_units" - total) * unit.
Proof.
  intros Hd H. apply bind_value in H as ([] & _ & H).
  destruct (has_key "reason" payload && negb (has_key "filesystem_units" payload)); [by injection H as <- <-|].
  apply bind_value in H as (unit & Hunit & H). cbv zeta in H. apply bind_value in H as (past & _ & H).
  apply guard_value in H as [_ H]. apply bind_value in H as (changed & Hch & H).
  destruct (find "used_ranges" payload) as [[| | | |ranges|]|]; try done. apply guard_value in H as [_ H].
  apply bind_value in H as (marked & Hm & H). apply bind_value in H as (m1 & Hm1 & H). injection H as <- <-.
  set (total := number payload "filesystem_units") in *. pose proof (number_u64 payload "filesystem_units") as Ht.
  fold total in Ht.
  assert (Hu : is_u64 unit /\ 0 < unit).
  { pose proof (number_u64 payload "unit_size") as P1. pose proof (number_u64 m "unit_size") as P2.
    pose proof (number_u64 m "cluster_size") as P3. unfold is_u64 in *.
    destruct (Z.eqb_spec (number payload "unit_size") 0) as [E|E].
    - unfold unit_size in Hunit. cbv zeta in Hunit. apply guard_value in Hunit as [Hg Hunit]. injection Hunit as <-.
      apply Z.eqb_neq in Hg. destruct (number m "unit_size" =? 0); lia.
    - injection Hunit as <-. lia. }
  destruct Hu as [Hu Hu0]. destruct (divides_chain _ _ _ Hd) as (cs & Hcs & Hchain).
  pose proof (reset_cells_spec _ _ _ _ _ _ Ht Hcs Hchain Hch) as Hr.
  assert (Hfst : map fst (map (fun c : Report => (c, 0)) cs) = cs) by (rewrite map_map; apply map_id).
  pose proof (mark_ranges_spec total unit ranges 0 hi changed _ marked Ht Hu Hu0 (Z.le_refl 0) Hr) as Hs.
  rewrite Hfst in Hs. specialize (Hs Hchain Hm). rewrite add_spans in Hs by (by eapply shows_reset_used).
  rewrite map_map in Hs. cbn [fst snd] in Hs.
  exists ranges, unit. split; [done|]. split; [done|]. cbv zeta. split; [|split].
  - eapply chain_divides; [exact Hs|]. rewrite map_map. cbn [fst]. by rewrite map_id.
  - assert (L : length cells = length marked).
    { rewrite (List.Forall2_length Hs), length_map. by rewrite (List.Forall2_length Hcs). }
    clear -Hs Hcs L. revert marked Hs L. induction Hcs as [|v c cells cs Hc _ IH]; intros marked Hs L; destruct marked; try done;
      constructor; inversion Hs as [|? ? ? ? [Hr _] Hs']; subst.
    + exists c. split; [done|]. cbn [fst snd] in Hr. rewrite Z.add_0_l, map_map in Hr. exact Hr.
    + apply IH; [done|]. cbn in L. lia.
  - by apply reset_map_value.
Qed.

(** ** Witnesses *)

(** Rounding half up in integers. *)
Definition demo_rounding : Rounding := fun moved value old_used => (2 * moved * value + old_used) / (2 * old_used).

Lemma demo_rounding_laws : RoundingLaws demo_rounding.
Proof. intros moved value old_used H1 H2 H3. unfold rounded, demo_rounding. apply Z.div_pos; nia. Qed.

(** The cells of the demonstration map: ten blocks in three cells. *)
Definition demo_cells : list Json := Eval vm_compute in
  match find "cells" demo_xfs_map with Some (JArray cells) => cells | _ => [] end.

Lemma demo_cells_divide : divides 0 10 demo_cells.
Proof. apply native_cells_iff; [unfold is_u64; lia|]. vm_compute. reflexivity. Qed.

(** One block moves from 3 to 0. *)
Definition demo_move : Json := JObject (object_of
  [("source_start_byte", unsigned_integer 12288); ("destination_start_byte", unsigned_integer 0);
   ("length_bytes", unsigned_integer 4096)])%string.

Definition demo_moved : list Json := Eval vm_compute in
  value_or (desktop_live_ranges (rounding := demo_rounding) demo_xfs_map demo_cells demo_move false) [].

Lemma live_ranges_conserve_witness : divides 0 10 demo_moved /\ map (fun v => number v "used") demo_moved = [2; 1; 1].
Proof.
  destruct (live_ranges_conserve (laws := demo_rounding_laws) demo_xfs_map demo_cells demo_move false demo_moved)
    as [_ H]; [vm_compute; reflexivity|]. split; [exact (H 0 10 demo_cells_divide)|]. vm_compute. reflexivity.
Defined.

Definition demo_patches : CellPatches := {[ 1%nat := demo_fat_cell 3 6 2 2 ]}.

Lemma patched_order_exact_witness : validate_patched_cell_order demo_cells demo_patches <> Value tt.
Proof.
  intros H. destruct (patched_order_exact demo_cells demo_patches) as [Hf _].
  - vm_compute. reflexivity.
  - intros i v Hv. unfold demo_patches in Hv. apply lookup_singleton_Some in Hv as [<- _]. cbn. lia.
  - apply Hf in H. vm_compute in H. discriminate H.
Defined.

(** A reset to eight blocks, three of them used. *)
Definition demo_reset : Json := JObject (object_of
  [("filesystem_units", unsigned_integer 8); ("unit_size", unsigned_integer 4096);
   ("used_ranges", JArray [demo_pair 4096 8192; demo_pair 28672 9000])])%string.

Lemma live_reset_exact_witness :
  match desktop_live_reset demo_xfs_map demo_cells demo_reset with
  | Value (m', cells') => divides 0 10 cells' /\ number m' "filesystem_bytes" = 32768
  | Throw _ => False
  end.
Proof.
  destruct (desktop_live_reset demo_xfs_map demo_cells demo_reset) as [[m' cells']|w] eqn:E;
    [|vm_compute in E; discriminate E].
  pose proof (live_reset_exact demo_xfs_map demo_cells demo_reset m' cells' 10 demo_cells_divide E) as H.
  change (has_key "reason" demo_reset && _) with false in H.
  destruct H as (ranges & unit & _ & _ & Hd & _ & _ & _ & _). split; [exact Hd|].
  vm_compute in E. injection E as <- _. vm_compute. reflexivity.
Defined.
