(* ===== verification/HelperProcess.v ===== *)
(** The process of the privileged helper, [native/privileged_helper.cpp]: its
    request protocol, and the three threads (the reader of requests, the worker of
    the active operation, the stop watchdog) that share its state, one critical
    section, system call or line of output per step, in any order.  The children,
    the signals and the clock are part of the system; what the kernel may answer
    is a choice. *)
From S2P Require Import Prelude CString Infiltratr Exceptions NativeJson HelperPath HelperPolicy.
#[local] Open Scope Z_scope.

(** ** Requests *)

Definition kProtocolVersion : Z := 1.
Definition kMaxRequestBytes : Z := 65536.
Definition kMaxArgumentCount : Z := 128.
Definition kMaxArgumentBytes : Z := 4096.

(** In milliseconds. *)
Definition kStopGracePeriod : Z := 300000.

(** [LD_STOP_READY_MARKER] of [ld_stop.h]. *)
Definition stop_ready_marker : string := "@@STOP_READY".

Inductive RequestLineStatus := LineEnd | LineOk | LineTooLarge.

Fixpoint discard_line (s : string) : string :=
  match s with
  | EmptyString => EmptyString
  | String c s => if bool_decide (c = LF) then s else discard_line s
  end.

(** The status, the line and the rest of the stream. *)
Fixpoint read_request_line (line s : string) : RequestLineStatus * string * string :=
  match s with
  | EmptyString => (if is_empty line then LineEnd else LineOk, line, EmptyString)
  | String c s =>
      if bool_decide (c = LF) then (LineOk, line, s)
      else if kMaxRequestBytes <=? strlen line then (LineTooLarge, EmptyString, discard_line s)
      else read_request_line (line ++ String c EmptyString) s
  end.

#[local] Open Scope string_scope.

Definition id_value (message : Json) : Json := default JNull (find "id" message).

Definition request_id (message : Json) : exc Z :=
  match find "id" message with None => Value 0%Z | Some id => integer_value id end.

Definition argument_text (item : Json) : exc string :=
  match item with
  | JString s =>
      if (kMaxArgumentBytes <? strlen s)%Z then Throw "argv argument exceeds protocol limit" else Value s
  | _ => Throw "argv must be a list of strings"
  end.

Definition string_array (value : Json) : exc (list string) :=
  match value with
  | JArray items =>
      throw_if (kMaxArgumentCount <? Z.of_nat (length items))%Z "argv contains too many arguments" ≫= fun _ =>
      mapM argument_text items
  | _ => Throw "argv must be a list of strings"
  end.

Inductive Request :=
| Run (id : Z) (program : string) (arguments : list string)
| RunRefused (id : Z) (message : string)
| Stop (id : Json)
| Ping (id : Json)
| Quit
| Unknown (id : Json)
| Invalid (message : string).

(** The part of [handle_run] before the state is looked at. *)
Definition run_of (message : Json) : Request :=
  match request_id message with
  | Throw w => Invalid w
  | Value id =>
      let program := match find "program" message with Some p => string_or "" p | None => "" end in
      match find "argv" message with
      | None => RunRefused id "argv must be a list of strings"
      | Some raw =>
          match string_array raw with
          | Throw w => RunRefused id w
          | Value arguments => Run id program arguments
          end
      end
  end.

Section Requests.
  Context {common : Infiltratr}.

(** The body of the loop of [Helper::run]. *)
Definition request_of (line : string) : Request :=
  match parse line with
  | Throw w => Invalid w
  | Value (JObject members) =>
      let message := JObject members in
      match find "action" message with
      | None => Invalid "request is missing action"
      | Some (JString action) =>
          if String.eqb action "run" then run_of message
          else if String.eqb action "stop" then Stop (id_value message)
          else if String.eqb action "ping" then Ping (id_value message)
          else if String.eqb action "quit" then Quit
          else Unknown (id_value message)
      | Some _ => Invalid "JSON value is not a string"
      end
  | Value _ => Invalid "request must be an object"
  end.
End Requests.

(** ** Replies *)

Inductive Reply :=
| Ready (pid : Z)
| Pong (id : Json)
| Bye
| Error (id : Json) (message : string)
| Started (id pid : Z)
| Progress (id : Z) (percent : Json)
| Output (id : Z) (line : string)
| StopResult (id : Json) (active_id : Z) (delivered : bool) (message : string)
| Finished (id returncode : Z).

Definition reply_json (r : Reply) : Json :=
  JObject
    match r with
    | Ready pid => [("pid", unsigned_integer pid); ("protocol", unsigned_integer kProtocolVersion); ("type", JString "ready")]
    | Pong id => [("id", id); ("type", JString "pong")]
    | Bye => [("type", JString "bye")]
    | Error id message => [("id", id); ("message", JString message); ("type", JString "error")]
    | Started id pid =>
        [("id", integer id); ("pgid", unsigned_integer pid); ("pid", unsigned_integer pid); ("type", JString "started")]
    | Progress id percent => [("id", integer id); ("percent", percent); ("type", JString "progress")]
    | Output id line => [("id", integer id); ("line", JString line); ("type", JString "output")]
    | StopResult id active_id delivered message =>
        [("active_id", integer active_id); ("delivered", JBool delivered); ("id", id); ("message", JString message);
         ("type", JString "stop-result")]
    | Finished id returncode => [("id", integer id); ("returncode", integer returncode); ("type", JString "finished")]
    end.

(** ** The shared state *)

#[local] Open Scope Z_scope.

(** The members guarded by [active_mutex_]. *)
Record Active := mkActive {
  active_pid : Z;
  active_id : Z;
  active_stop_ready : bool;
  active_waits_for_output : bool;
  pending_stop : bool;
  worker_running : bool;
}.

Record Watch := mkWatch {
  watchdog_shutdown : bool;
  watchdog_armed : bool;
  watchdog_pid : Z;
  watchdog_deadline : Z;
}.

(** With [transport_failed_], and what the kernel knows: the children spawned and
    not yet reaped, the clock, and the input still to be read. *)
Record Shared := mkShared {
  active : Active;
  watch : Watch;
  transport_failed : bool;
  owned : list Z;
  now : Z;
  input : string;
}.

Definition with_active (a : Active) (s : Shared) : Shared :=
  mkShared a (watch s) (transport_failed s) (owned s) (now s) (input s).
Definition with_watch (w : Watch) (s : Shared) : Shared :=
  mkShared (active s) w (transport_failed s) (owned s) (now s) (input s).
Definition transport_fails (s : Shared) : Shared :=
  mkShared (active s) (watch s) true (owned s) (now s) (input s).
Definition with_owned (pids : list Z) (s : Shared) : Shared :=
  mkShared (active s) (watch s) (transport_failed s) pids (now s) (input s).
Definition with_input (text : string) (s : Shared) : Shared :=
  mkShared (active s) (watch s) (transport_failed s) (owned s) (now s) text.
Definition with_pending (b : bool) (a : Active) : Active :=
  mkActive (active_pid a) (active_id a) (active_stop_ready a) (active_waits_for_output a) b (worker_running a).

(** ** Events and answers *)

(** Who sends a signal: a stop request, the worker for a queued one, the end of the
    session, the worker for a child it gives up, or the watchdog. *)
Inductive Sender := ByRequest | ByQueue | ByDrain | ByCleanup | ByWatchdog.
Inductive Signal := SIGINT | SIGKILL.

Inductive Event :=
| Emit (r : Reply)
(** [kill]: its result, and whether the target was still an unreaped child. *)
| Kill (by_ : Sender) (pid : Z) (sig : Signal) (ok alive : bool)
| Spawn (command : HelperCommand) (pid : Z)
| Reap (pid : Z).

(** What a call may answer. *)
Inductive Answer :=
| Go
| Yes
| No
(** [ESRCH], [ECHILD]. *)
| Gone
(** Another failure, with its message. *)
| Fails (message : string)
| Pid (pid : Z)
(** A line of the child, one that reports progress too soon after the last, or
    the end. *)
| Line (text : string)
| Throttled (text : string)
| EndOfOutput
| Exited (code : Z)
| Signalled (signal : Z).

Definition is_owned (pid : Z) (s : Shared) : bool := existsb (Z.eqb pid) (owned s).

(** A signal and the answers it may get: a child that is not reaped can always be
    signalled. *)
Definition send (by_ : Sender) (pid : Z) (sig : Signal) (a : Answer) (s : Shared) : option (bool * list Event) :=
  match a with
  | Yes => Some (true, [Kill by_ pid sig true (is_owned pid s)])
  | Gone => if is_owned pid s then None else Some (false, [Kill by_ pid sig false false])
  | Fails _ => Some (false, [Kill by_ pid sig false (is_owned pid s)])
  | _ => None
  end.

(** [emit]: whether the line was delivered. *)
Definition emit (r : Reply) (a : Answer) (s : Shared) : option (bool * Shared * list Event) :=
  if transport_failed s then Some (false, s, [])
  else
    match dump (reply_json r), a with
    | Throw _, _ => Some (false, transport_fails s, [])
    | Value _, Yes => Some (true, s, [Emit r])
    | Value _, No => Some (false, transport_fails s, [])
    | Value _, _ => None
    end.

(** ** Threads *)

(** Where the main thread goes on after [stop_active_and_wait]. *)
Inductive After := AfterLoop | AfterQuit | AfterRun (code : Z).

Inductive Main :=
| MReady
| MLoop
| MEmit (r : Reply) (finished : option Z) (quit : bool)
| MRun (id : Z) (program : string) (arguments : list string)
| MJoin (id : Z) (program : string) (arguments : list string)
| MLaunch (id : Z) (program : string) (arguments : list string)
| MThread (id : Z) (program : string) (arguments : list string)
| MStop (id : Json)
| MKill (pid : Z) (id : Json) (active_id : Z)
| MArm (pid : Z) (id : Json) (active_id : Z)
| MDrain (signalled : Z) (after : After)
| MDrainKill (pid signalled : Z) (after : After)
| MDrainArm (pid : Z) (after : After)
| MDrainWait (signalled : Z) (after : After)
| MDrainJoin (after : After)
| MShutdown (code : Z)
| MJoinWatchdog (code : Z)
| MDone (code : Z).

(** Where the worker goes on after [deliver_stop]. *)
Inductive Worker :=
| WNone
| WPolicy (id : Z) (program : string) (arguments : list string)
| WAccess (id : Z) (command : HelperCommand)
| WPipe (id : Z) (command : HelperCommand)
| WSpawn (id : Z) (command : HelperCommand)
| WPublish (id child : Z)
| WStarted (id child : Z) (stop_on_start : bool)
| WKill (id child : Z) (message : string) (opened : bool)
| WArm (id child : Z) (message : string) (opened : bool)
| WStopResult (id child : Z) (r : Reply) (opened : bool)
| WOpen (id child : Z)
| WRead (id child : Z)
| WMarker (id child : Z)
| WReport (id child : Z) (r : Reply)
| WWait (id child : Z)
| WInterrupt (id child : Z) (message : string)
| WPoll (id child deadline : Z) (message : string)
| WKillGroup (id child : Z) (message : string)
| WKillChild (id child : Z) (message : string)
| WReapKilled (id child : Z) (message : string)
| WFail (id child : Z) (message : string)
| WIdle (id child code : Z)
| WFinish (id code : Z)
| WExited.

Inductive Watchdog :=
| DWait
| DTimed (pid deadline : Z)
| DCheck (pid : Z)
| DKillGroup (pid : Z)
| DCheckAgain (pid : Z)
| DKillChild (pid : Z)
| DExit.

Definition arm_stop_watchdog (pid : Z) (s : Shared) : Shared :=
  if pid <=? 0 then s
  else if negb (worker_running (active s)) || negb (active_pid (active s) =? pid) then s
  else with_watch (mkWatch (watchdog_shutdown (watch s)) true pid (now s + kStopGracePeriod)) s.

Definition stop_result (ok : bool) (a : Answer) (id : Json) (active_id : Z) (success : string) : Reply :=
  StopResult id active_id ok
    (if ok then success
     else match a with Fails message => message | _ => "operation already exited"%string end).

Section Threads.
  Context {common : Infiltratr}.
  (** [getpid], the uid of the caller, and the percentage of a progress line. *)
  Variable self : Z.
  Variable invoking_uid : Z.
  Variable progress_percent : string -> option Json.

(** *** The main thread *)

Definition after_drain (after : After) (s : Shared) : Main :=
  match after with
  | AfterLoop => MDrain (-1) (AfterRun (if transport_failed s then 1 else 0))
  | AfterQuit => MEmit Bye None true
  | AfterRun code => MShutdown code
  end.

Definition dispatch (r : Request) : Main :=
  match r with
  | Run id program arguments => MRun id program arguments
  | RunRefused id message => MEmit (Error (integer id) message) (Some id) false
  | Stop id => MStop id
  | Ping id => MEmit (Pong id) None false
  | Quit => MDrain (-1) AfterQuit
  | Unknown id => MEmit (Error id "unknown helper action") None false
  | Invalid message => MEmit (Error JNull ("invalid request: " ++ message)) None false
  end%string.

(** [handle_stop]: its critical section, and what follows. *)
Definition handle_stop (id : Json) (s : Shared) : Main * Shared :=
  let a := active s in
  let defer := worker_running a &&
    ((active_pid a <=? 0) || (active_waits_for_output a && negb (active_stop_ready a))) in
  let s := if defer then with_active (with_pending true a) s else s in
  if negb (worker_running a) && (active_pid a <=? 0) then
    (MEmit (StopResult id (active_id a) false "no active operation") None false, s)
  else if defer then
    (MEmit (StopResult id (active_id a) true "safe stop queued until worker Stop readiness") None false, s)
  else (MKill (active_pid a) id (active_id a), s).

Definition launch_state (id : Z) (program : string) (s : Shared) : Shared :=
  let a := active s in
  with_active (mkActive (active_pid a) id (active_stop_ready a) (String.eqb program "operation-engine") false true) s.

(** [handle_run] from its second half on. *)
Definition handle_run (m : Main) (w : Worker) (a : Answer) (s : Shared) : option (Main * Worker * Shared * list Event) :=
  match m with
  | MRun id program arguments =>
      if worker_running (active s) || (0 <? active_pid (active s))
      then Some (MEmit (Error (integer id) "another privileged operation is already active") (Some id) false, w, s, [])
      else Some (MJoin id program arguments, w, s, [])
  | MJoin id program arguments =>
      match w with
      | WNone | WExited => Some (MLaunch id program arguments, WNone, s, [])
      | _ => None
      end
  | MLaunch id program arguments => Some (MThread id program arguments, w, launch_state id program s, [])
  | MThread id program arguments =>
      match a with
      | Yes => Some (MLoop, WPolicy id program arguments, s, [])
      | Fails what =>
          let old := active s in
          Some (MEmit (Error JNull ("invalid request: " ++ what)%string) None false, w,
            with_active (mkActive (active_pid old) (active_id old) (active_stop_ready old)
              (active_waits_for_output old) (pending_stop old) false) s, [])
      | _ => None
      end
  | _ => None
  end.

Definition stop_active_and_wait (m : Main) (w : Worker) (a : Answer) (s : Shared) :
    option (Main * Worker * Shared * list Event) :=
  match m with
  | MDrain signalled after =>
      if negb (worker_running (active s)) then Some (MDrainJoin after, w, s, [])
      else
        let pid := active_pid (active s) in
        if pid <=? 0 then Some (MDrain signalled after, w, s, [])
        else if negb (pid =? signalled) then Some (MDrainKill pid signalled after, w, s, [])
        else Some (MDrainWait signalled after, w, s, [])
  | MDrainKill pid signalled after =>
      '(ok, log) ← send ByDrain pid SIGINT a s;
      Some (if ok : bool then MDrainArm pid after
            else MDrainWait (match a with Gone => pid | _ => signalled end) after, w, s, log)
  | MDrainArm pid after => Some (MDrainWait pid after, w, arm_stop_watchdog pid s, [])
  | MDrainWait signalled after => Some (MDrain signalled after, w, s, [])
  | MDrainJoin after =>
      match w with
      | WNone | WExited => Some (after_drain after s, WNone, s, [])
      | _ => None
      end
  | _ => None
  end.

(** One step: the new state, and the events. *)
Definition main_step (m : Main) (w : Worker) (d : Watchdog) (a : Answer) (s : Shared) :
    option (Main * Worker * Shared * list Event) :=
  match m with
  | MReady =>
      '(ok, s, log) ← emit (Ready self) a s;
      Some (if ok : bool then MLoop else MDrain (-1) (AfterRun 1), w, s, log)
  | MLoop =>
      if transport_failed s then Some (MDrain (-1) AfterLoop, w, s, [])
      else
        let '(status, line, rest) := read_request_line EmptyString (input s) in
        let m := match status with
                 | LineEnd => MDrain (-1) AfterLoop
                 | LineTooLarge =>
                     MEmit (Error JNull "invalid request: protocol frame exceeds size limit") None false
                 | LineOk => dispatch (request_of line)
                 end in
        Some (m, w, with_input rest s, [])
  | MEmit r finished quit =>
      '(ok, s, log) ← emit r a s;
      Some (match finished with
            | Some id => MEmit (Finished id 127) None false
            | None => if quit : bool then MDrain (-1) (AfterRun 0) else MLoop
            end, w, s, log)
  | MRun _ _ _ | MJoin _ _ _ | MLaunch _ _ _ | MThread _ _ _ => handle_run m w a s
  | MStop id => let '(m, s) := handle_stop id s in Some (m, w, s, [])
  | MKill pid id active_id =>
      '(ok, log) ← send ByRequest pid SIGINT a s;
      Some (if ok : bool then MArm pid id active_id
            else MEmit (stop_result false a id active_id EmptyString) None false, w, s, log)
  | MArm pid id active_id =>
      Some (MEmit (stop_result true a id active_id "SIGINT delivered") None false, w, arm_stop_watchdog pid s, [])
  | MDrain _ _ | MDrainKill _ _ _ | MDrainArm _ _ | MDrainWait _ _ | MDrainJoin _ => stop_active_and_wait m w a s
  | MShutdown code =>
      let old := watch s in
      Some (MJoinWatchdog code, w, with_watch (mkWatch true false (watchdog_pid old) (watchdog_deadline old)) s, [])
  | MJoinWatchdog code => match d with DExit => Some (MDone code, w, s, []) | _ => None end
  | MDone _ => None
  end.

(** *** The worker *)

Definition published (id child : Z) (s : Shared) : Shared * bool :=
  let a := active s in
  let stop_on_start := pending_stop a && negb (active_waits_for_output a) in
  (with_active (mkActive child id false (active_waits_for_output a)
     (if stop_on_start then false else pending_stop a) (worker_running a)) s, stop_on_start).

(** The readiness marker: a stop that was queued is delivered once. *)
Definition announce_ready (s : Shared) : Shared * bool :=
  let a := active s in
  if active_stop_ready a then (s, false)
  else (with_active (mkActive (active_pid a) (active_id a) true (active_waits_for_output a) false (worker_running a)) s,
        pending_stop a).

(** The last critical section of [run_request]. *)
Definition idle_state (child : Z) (s : Shared) : Shared :=
  let w := watch s in
  with_active (mkActive (-1) 0 false false false false)
    (if watchdog_pid w =? child
     then with_watch (mkWatch (watchdog_shutdown w) false (-1) (watchdog_deadline w)) s else s).

Definition queued_message : string := "queued SIGINT delivered after worker Stop readiness".

(** The [catch] clause: a child that runs is stopped and reaped first. *)
Definition thrown (id child : Z) (message : string) : Worker :=
  if 0 <? child then WInterrupt id child message else WFail id child message.

Definition after_stop (id child : Z) (opened : bool) : Worker := if opened then WRead id child else WOpen id child.

(** A line of the child without its ends. *)
Definition clean_line (line : string) : string := Infiltratr.strip_line_end (cut_nul line).

Definition read_line (id child : Z) (line : string) : Worker :=
  let clean := clean_line line in
  if String.eqb clean stop_ready_marker then WMarker id child
  else match progress_percent clean with
       | Some percent => WReport id child (Progress id percent)
       | None => WReport id child (Output id clean)
       end.

(** [waitpid] of a child that ended. *)
Definition reap (child : Z) (a : Answer) (s : Shared) : option (Z * Shared * list Event) :=
  if is_owned child s then
    match a with
    | Exited code => Some (code, with_owned (List.filter (fun p => negb (p =? child)) (owned s)) s, [Reap child])
    | Signalled signal =>
        Some (128 + signal, with_owned (List.filter (fun p => negb (p =? child)) (owned s)) s, [Reap child])
    | _ => None
    end
  else None.

Definition stop_and_reap (w : Worker) (a : Answer) (s : Shared) : option (Worker * Shared * list Event) :=
  match w with
  | WInterrupt id child message =>
      '(_, log) ← send ByCleanup child SIGINT a s;
      Some (WPoll id child (now s + kStopGracePeriod) message, s, log)
  | WPoll id child deadline message =>
      match a with
      | Gone => if is_owned child s then None else Some (WFail id child message, s, [])
      | Fails _ => if is_owned child s then None else Some (WKillGroup id child message, s, [])
      | Go => Some (if deadline <=? now s then WKillGroup id child message else WPoll id child deadline message, s, [])
      | _ => '(_, s, log) ← reap child a s; Some (WFail id child message, s, log)
      end
  | WKillGroup id child message =>
      '(_, log) ← send ByCleanup child SIGKILL a s;
      Some (match a with Gone => WKillChild id child message | _ => WReapKilled id child message end, s, log)
  | WKillChild id child message =>
      '(_, log) ← send ByCleanup child SIGKILL a s;
      Some (WReapKilled id child message, s, log)
  | WReapKilled id child message =>
      match a with
      | Gone => if is_owned child s then None else Some (WFail id child message, s, [])
      | _ => '(_, s, log) ← reap child a s; Some (WFail id child message, s, log)
      end
  | _ => None
  end.

Definition worker_step (w : Worker) (a : Answer) (s : Shared) : option (Worker * Shared * list Event) :=
  match w with
  | WNone | WExited => None
  | WPolicy id program arguments =>
      Some (match helper_command program arguments invoking_uid with
            | Throw what => WFail id (-1) what
            | Value command => WAccess id command
            end, s, [])
  | WAccess id command =>
      match a with
      | Yes => Some (WPipe id command, s, [])
      | No => Some (WFail id (-1) ("helper command is unavailable: " ++ executable command)%string, s, [])
      | _ => None
      end
  | WPipe id command =>
      match a with
      | Yes => Some (WSpawn id command, s, [])
      | Fails what => Some (WFail id (-1) ("creating helper pipe failed: " ++ what)%string, s, [])
      | _ => None
      end
  | WSpawn id command =>
      match a with
      | Pid child =>
          if (0 <? child) && negb (is_owned child s)
          then Some (WPublish id child, with_owned (child :: owned s) s, [Spawn command child])
          else None
      | Fails what => Some (WFail id (-1) what, s, [])
      | _ => None
      end
  | WPublish id child => let '(s, stop_on_start) := published id child s in Some (WStarted id child stop_on_start, s, [])
  | WStarted id child stop_on_start =>
      '(ok, s, log) ← emit (Started id child) a s;
      Some (if ok : bool then (if stop_on_start then WKill id child "SIGINT delivered" false else WOpen id child)
            else thrown id child "GUI protocol output closed", s, log)
  | WKill id child message opened =>
      '(ok, log) ← send ByQueue child SIGINT a s;
      Some (if ok : bool then WArm id child message opened
            else WStopResult id child (stop_result false a JNull id message) opened, s, log)
  | WArm id child message opened =>
      Some (WStopResult id child (stop_result true a JNull id message) opened, arm_stop_watchdog child s, [])
  | WStopResult id child r opened =>
      '(_, s, log) ← emit r a s;
      Some (after_stop id child opened, s, log)
  | WOpen id child =>
      match a with
      | Yes => Some (WRead id child, s, [])
      | Fails what => Some (thrown id child ("fdopen failed: " ++ what)%string, s, [])
      | _ => None
      end
  | WRead id child =>
      match a with
      | Line line => Some (read_line id child line, s, [])
      | Throttled line =>
          if negb (String.eqb (clean_line line) stop_ready_marker) &&
             match progress_percent (clean_line line) with Some _ => true | None => false end
          then Some (WRead id child, s, []) else None
      | EndOfOutput => Some (WWait id child, s, [])
      | _ => None
      end
  | WMarker id child =>
      let '(s, deliver) := announce_ready s in
      Some (if deliver then WKill id child queued_message true else WRead id child, s, [])
  | WReport id child r =>
      '(ok, s, log) ← emit r a s;
      Some (if ok : bool then WRead id child else thrown id child "GUI protocol output closed", s, log)
  | WWait id child =>
      match a with
      | Fails what =>
          if is_owned child s then None else Some (thrown id child ("waitpid failed: " ++ what)%string, s, [])
      | _ => '(code, s, log) ← reap child a s; Some (WIdle id child code, s, log)
      end
  | WInterrupt _ _ _ | WPoll _ _ _ _ | WKillGroup _ _ _ | WKillChild _ _ _ | WReapKilled _ _ _ => stop_and_reap w a s
  | WFail id child message =>
      if transport_failed s then Some (WIdle id child 127, s, [])
      else
        '(_, s, log) ← emit (Error (integer id) message) a s;
        Some (WIdle id child 127, s, log)
  | WIdle id child code => Some (WFinish id code, idle_state child s, [])
  | WFinish id code => '(_, s, log) ← emit (Finished id code) a s; Some (WExited, s, log)
  end.
End Threads.

(** *** The watchdog *)

Definition watch_changed (pid : Z) (s : Shared) : bool :=
  negb (watchdog_armed (watch s)) || negb (watchdog_pid (watch s) =? pid) ||
  negb (worker_running (active s)) || negb (active_pid (active s) =? pid).

Definition owned_child_is_running (pid : Z) (a : Answer) (s : Shared) : option bool :=
  match a with
  | Yes => if is_owned pid s then Some true else None
  | No => Some false
  | _ => None
  end.

Definition watchdog_step (d : Watchdog) (a : Answer) (s : Shared) : option (Watchdog * Shared * list Event) :=
  let w := watch s in
  match d with
  | DWait =>
      if watchdog_shutdown w then Some (DExit, s, [])
      else if watchdog_armed w then Some (DTimed (watchdog_pid w) (watchdog_deadline w), s, [])
      else None
  | DTimed pid deadline =>
      if watchdog_shutdown w then Some (DExit, s, [])
      else if watch_changed pid s then Some (DWait, s, [])
      else if deadline <=? now s
      then Some (DCheck pid, with_watch (mkWatch (watchdog_shutdown w) false (watchdog_pid w) (watchdog_deadline w)) s, [])
      else None
  | DCheck pid => running ← owned_child_is_running pid a s; Some (if running : bool then DKillGroup pid else DWait, s, [])
  | DKillGroup pid =>
      '(_, log) ← send ByWatchdog pid SIGKILL a s;
      Some (match a with Gone => DCheckAgain pid | _ => DWait end, s, log)
  | DCheckAgain pid => running ← owned_child_is_running pid a s; Some (if running : bool then DKillChild pid else DWait, s, [])
  | DKillChild pid => '(_, log) ← send ByWatchdog pid SIGKILL a s; Some (DWait, s, log)
  | DExit => None
  end.

(** *** The system *)

Record System := mkSystem {
  shared : Shared;
  main_thread : Main;
  worker_thread : Worker;
  watchdog_thread : Watchdog;
  (** With the time of each event, the last first. *)
  history : list (Z * Event);
}.

Inductive Choice :=
| MainGoes (a : Answer)
| WorkerGoes (a : Answer)
| WatchdogGoes (a : Answer)
| TimePasses (ms : Z).

Definition record_events (s : Shared) (events : list Event) (past : list (Z * Event)) : list (Z * Event) :=
  (map (fun e => (now s, e)) events ++ past)%list.

Section System.
  Context {common : Infiltratr}.
  Variable self invoking_uid : Z.
  Variable progress_percent : string -> option Json.

Definition system_step (c : Choice) (y : System) : option System :=
  let s := shared y in
  match c with
  | MainGoes a =>
      '(m, w, s', events) ← main_step self (main_thread y) (worker_thread y) (watchdog_thread y) a s;
      Some (mkSystem s' m w (watchdog_thread y) (record_events s events (history y)))
  | WorkerGoes a =>
      '(w, s', events) ← worker_step invoking_uid progress_percent (worker_thread y) a s;
      Some (mkSystem s' (main_thread y) w (watchdog_thread y) (record_events s events (history y)))
  | WatchdogGoes a =>
      '(d, s', events) ← watchdog_step (watchdog_thread y) a s;
      Some (mkSystem s' (main_thread y) (worker_thread y) d (record_events s events (history y)))
  | TimePasses ms =>
      if 0 <=? ms
      then Some (mkSystem (mkShared (active s) (watch s) (transport_failed s) (owned s) (now s + ms) (input s))
             (main_thread y) (worker_thread y) (watchdog_thread y) (history y))
      else None
  end.

(** The helper at its start, with all it will be sent. *)
Definition start (text : string) : System :=
  mkSystem (mkShared (mkActive (-1) 0 false false false false) (mkWatch false false (-1) 0) false [] 0 text)
    MReady WNone DWait [].

Fixpoint schedule (choices : list Choice) (y : System) : option System :=
  match choices with [] => Some y | c :: choices => y ← system_step c y; schedule choices y end.

(** The states some schedule reaches. *)
Inductive reachable : System -> Prop :=
| reachable_start text : reachable (start text)
| reachable_step c y y' : reachable y -> system_step c y = Some y' -> reachable y'.

Lemma schedule_reachable choices y y' : reachable y -> schedule choices y = Some y' -> reachable y'.
Proof.
  revert y. induction choices as [|c choices IH]; intros y Hy H; cbn [schedule] in H; [by injection H as <-|].
  apply bind_Some in H as (z & Hz & H). apply (IH z); [by eapply reachable_step|done].
Qed.
End System.

(** ** The framing of requests *)

Lemma discard_line_rest t rest : has_char LF t = false -> discard_line (t ++ String LF rest) = rest.
Proof.
  induction t as [|c t IH]; cbn [has_char append discard_line]; intros H; [by rewrite bool_decide_true|].
  destruct (ascii_dec c LF) as [|n]; [done|]. rewrite bool_decide_false by done. by apply IH.
Qed.

Lemma read_request_line_from acc t rest :
  has_char LF t = false -> strlen acc <= kMaxRequestBytes ->
  read_request_line acc (t ++ String LF rest) =
    if strlen (acc ++ t) <=? kMaxRequestBytes then (LineOk, (acc ++ t)%string, rest) else (LineTooLarge, EmptyString, rest).
Proof.
  revert acc. induction t as [|c t IH]; intros acc H Hacc.
  - cbn. rewrite bool_decide_true by done. rewrite append_nil_r. by rewrite (proj2 (Z.leb_le _ _) Hacc).
  - cbn [has_char] in H. destruct (ascii_dec c LF) as [|n]; [done|]. cbn [append read_request_line].
    rewrite bool_decide_false by done. rewrite strlen_app, strlen_cons.
    pose proof (strlen_nonneg t). destruct (kMaxRequestBytes <=? strlen acc) eqn:E.
    + apply Z.leb_le in E. rewrite (discard_line_rest _ _ H). by destruct (Z.leb_spec (strlen acc + (strlen t + 1)) kMaxRequestBytes); [lia|].
    + apply Z.leb_gt in E. rewrite IH; [|done|rewrite strlen_app, strlen_cons; change (strlen EmptyString) with 0; lia].
      rewrite append_assoc, !strlen_app, (Z.add_comm (strlen t)). done.
Qed.

(** A request is read whole or refused, and never runs into the next: of a
    stream that starts with a line, the line is returned when it has at most 65,536
    bytes and is refused as too large otherwise, and in both cases the next read
    starts after its end. *)
Theorem request_line_exact line rest :
  has_char LF line = false ->
  read_request_line EmptyString (line ++ String LF rest) =
    if strlen line <=? kMaxRequestBytes then (LineOk, line, rest) else (LineTooLarge, EmptyString, rest).
Proof. intros H. by apply (read_request_line_from EmptyString). Qed.

Lemma request_line_exact_witness :
  has_char LF "ab" = false /\ read_request_line EmptyString ("ab" ++ String LF "cd") = (LineOk, "ab", "cd")%string.
Proof. split; [reflexivity|]. exact (request_line_exact "ab" "cd" eq_refl). Defined.

(** ** The threads and the state they share *)

(** The worker is between its start and its last critical section. *)
Definition busy (w : Worker) : bool :=
  match w with WNone | WFinish _ _ | WExited => false | _ => true end.

(** The child that is not reaped. *)
Definition child_of (w : Worker) : option Z :=
  match w with
  | WPublish _ c | WStarted _ c _ | WKill _ c _ _ | WArm _ c _ _ | WStopResult _ c _ _ | WOpen _ c | WRead _ c
  | WMarker _ c | WReport _ c _ | WWait _ c | WInterrupt _ c _ | WPoll _ c _ _ | WKillGroup _ c _
  | WKillChild _ c _ | WReapKilled _ c _ => Some c
  | _ => None
  end.

(** The value of [active_pid_]. *)
Definition published_pid (w : Worker) : Z :=
  match w with
  | WFail _ c _ | WIdle _ c _ => c
  | WPublish _ _ => -1
  | _ => default (-1) (child_of w)
  end.

(** No child is published yet. *)
Definition fresh (w : Worker) : bool :=
  match w with WPolicy _ _ _ | WAccess _ _ | WPipe _ _ | WSpawn _ _ | WPublish _ _ => true | _ => false end.

Definition main_agrees (m : Main) (w : Worker) (a : Active) : Prop :=
  match m with
  | MJoin _ _ _ | MDrainJoin _ => worker_running a = false
  | MLaunch _ _ _ => w = WNone
  | MThread _ _ _ => w = WNone /\ pending_stop a = false
  | MKill pid _ _ => 0 < pid /\ fresh w = false /\ (active_pid a = pid -> active_waits_for_output a = true -> active_stop_ready a = true)
  | MShutdown _ | MJoinWatchdog _ | MDone _ => w = WNone
  | _ => True
  end.

Definition worker_agrees (w : Worker) (a : Active) : Prop :=
  match w with
  | WStarted _ _ true => active_waits_for_output a = false
  | WKill _ _ _ _ => active_waits_for_output a = true -> active_stop_ready a = true
  | WFail _ c _ | WIdle _ c _ => c = -1 \/ 0 < c
  | _ => True
  end.

Record agreement (m : Main) (w : Worker) (s : Shared) : Prop := {
  ag_running : worker_running (active s) = match m with MThread _ _ _ => true | _ => busy w end;
  ag_pid : active_pid (active s) = published_pid w;
  ag_owned : owned s = match child_of w with Some c => [c] | None => [] end;
  ag_child : forall c, child_of w = Some c -> 0 < c;
  ag_pending : pending_stop (active s) = true ->
    worker_running (active s) = true /\
    (active_pid (active s) <= 0 \/ (active_waits_for_output (active s) = true /\ active_stop_ready (active s) = false));
  ag_main : main_agrees m w (active s);
  ag_worker : worker_agrees w (active s);
}.

(** Two states that differ outside these members. *)
Definition same_core (s s' : Shared) : Prop := active s' = active s /\ owned s' = owned s.

Lemma agreement_core m w s s' : same_core s s' -> agreement m w s -> agreement m w s'.
Proof. intros [E1 E2] []. split; rewrite ?E1, ?E2; done. Qed.

Lemma emit_core r a s ok s' l : emit r a s = Some (ok, s', l) -> same_core s s'.
Proof. unfold emit, same_core. intros H. repeat case_match; by simplify_eq. Qed.

Lemma arm_core pid s : same_core s (arm_stop_watchdog pid s).
Proof. unfold arm_stop_watchdog, same_core. by repeat case_match. Qed.

(** Split the results of the calls of a step. *)
Ltac split_step :=
  repeat match goal with
  | H : (_ ≫= _) = Some _ |- _ => apply bind_Some in H as ([? ?] & ? & H)
  | p : _ * _ |- _ => destruct p
  | H : emit _ _ _ = Some _ |- _ => apply emit_core in H
  end.

(** A step that leaves the core of the state alone. *)
Lemma agreement_main m m' w s s' :
  same_core s s' -> agreement m w s -> main_agrees m' w (active s) ->
  match m with MThread _ _ _ => true | _ => busy w end = match m' with MThread _ _ _ => true | _ => busy w end ->
  agreement m' w s'.
Proof.
  intros Hc [] Hm Hr. eapply agreement_core; [exact Hc|]. split; try done. congruence.
Qed.

Lemma agreement_worker m w w' s s' :
  same_core s s' -> agreement m w s -> busy w' = busy w -> busy w = true -> published_pid w' = published_pid w ->
  child_of w' = child_of w -> (fresh w = false -> fresh w' = false) -> worker_agrees w' (active s) -> agreement m w' s'.
Proof.
  intros Hc [] Hb Hb' Hp Hch Hf Hw. eapply agreement_core; [exact Hc|].
  assert (Hm : forall P : Prop, w = WNone -> P) by (intros P ->; done).
  split; rewrite ?Hb, ?Hp, ?Hch; try done.
  destruct m; try done; cbn in *; first [by apply Hm | by destruct ag_main0 as [? _]; apply Hm | tauto].
Qed.

Lemma core_refl s : same_core s s.
Proof. done. Qed.

(** The states in which no operation runs. *)
Lemma idle_worker m w s :
  agreement m w s -> worker_running (active s) = false ->
  busy w = false /\ active_pid (active s) = -1 /\ owned s = [] /\ pending_stop (active s) = false.
Proof.
  intros [] Hr. rewrite Hr in *. assert (Hb : busy w = false) by (by destruct m).
  split; [done|]. rewrite ag_pid0, ag_owned0. split; [by destruct w|]. split; [by destruct w|].
  destruct (pending_stop (active s)); [|done]. by destruct (ag_pending0 eq_refl).
Qed.

(** The worker thread that is joined is gone. *)
Lemma agreement_join m m' w s :
  agreement m w s -> worker_running (active s) = false -> match m' with MThread _ _ _ => False | _ => True end ->
  main_agrees m' WNone (active s) -> agreement m' WNone s.
Proof.
  intros Ha Hr Hm Hm'. destruct (idle_worker _ _ _ Ha Hr) as (Hb & Hp & Ho & Hpend). destruct Ha.
  split; try done; rewrite ?Hr, ?Hp, ?Ho, ?Hpend; try done. by destruct m'.
Qed.

Lemma dispatch_agrees r w a : main_agrees (dispatch r) w a /\ match dispatch r with MThread _ _ _ => False | _ => True end.
Proof. by destruct r. Qed.

Lemma handle_stop_agrees id w s m' s' :
  agreement (MStop id) w s -> handle_stop id s = (m', s') -> agreement m' w s'.
Proof.
  unfold handle_stop. intros Ha H. pose proof Ha as []. cbv zeta in H.
  set (defer := worker_running (active s) && _) in H.
  destruct (negb (worker_running (active s)) && (active_pid (active s) <=? 0)) eqn:E1.
  { injection H as <- <-. apply andb_true_iff in E1 as [E1 _]. apply negb_true_iff in E1. subst defer. rewrite E1. cbn [andb].
    by apply (agreement_main (MStop id)) with (2 := Ha). }
  destruct defer eqn:Ed; injection H as <- <-.
  - subst defer. apply andb_true_iff in Ed as [Hr Hd]. split; try done; cbn.
    intros _. split; [done|]. apply orb_true_iff in Hd as [Hd|Hd]; [left; by apply Z.leb_le|right].
    apply andb_true_iff in Hd as [? Hd]. by apply negb_true_iff in Hd.
  - apply (agreement_main (MStop id)) with (2 := Ha); try done. cbn [main_agrees]. subst defer.
    assert (Hp : 0 < active_pid (active s)).
    { destruct (worker_running (active s)) eqn:Er; cbn in E1, Ed.
      - apply orb_false_iff in Ed as [Ed _]. by apply Z.leb_gt in Ed.
      - by apply Z.leb_gt in E1. }
    split; [done|]. split; [rewrite ag_pid0 in Hp; by destruct w|]. intros _ Hw. rewrite Hw in Ed. destruct (worker_running (active s)) eqn:Er; cbn in Ed.
    + apply orb_false_iff in Ed as [_ Ed]. by apply negb_false_iff in Ed.
    + apply Z.lt_nge in Hp. exfalso. apply Hp. destruct (idle_worker _ _ _ Ha Er) as (_ & -> & _). done.
Qed.

Lemma main_step_agrees self m w d a s m' w' s' l `{Infiltratr} :
  agreement m w s -> main_step self m w d a s = Some (m', w', s', l) -> agreement m' w' s'.
Proof.
  intros Ha Hs. pose proof Ha as [Hrun Hpid Hown Hchild Hpend Hm Hw].
  destruct m; cbn [main_step handle_run stop_active_and_wait] in Hs; try done.
  - split_step. simplify_eq. destruct b; by eapply agreement_main.
  - destruct (transport_failed s); [simplify_eq; by apply (agreement_main MLoop) with (2 := Ha)|].
    destruct (read_request_line _ _) as [[status line] rest]. simplify_eq.
    destruct status; try (by apply (agreement_main MLoop) with (2 := Ha)).
    destruct (dispatch_agrees (request_of line) w' (active s)) as [D1 D2].
    apply (agreement_main MLoop) with (2 := Ha); try done. by destruct (dispatch _).
  - split_step. simplify_eq. destruct finished; [by eapply agreement_main|]. destruct quit; by eapply agreement_main.
  - destruct (worker_running (active s) || _) eqn:E; simplify_eq; apply (agreement_main (MRun id program arguments)) with (2 := Ha); try done.
    cbn. by apply orb_false_iff in E as [E _].
  - assert (Hr : worker_running (active s) = false) by done.
    destruct w; simplify_eq; by eapply agreement_join.
  - simplify_eq. cbn in Hm. subst w'. cbn in Hpid, Hown. split; try done; by cbn.
  - destruct Hm as [-> Hpe]. cbn in Hpid, Hown. destruct a; simplify_eq.
    + split; try done; cbn; rewrite ?Hpe; try done.
    + split; try done; cbn; rewrite ?Hpe; try done.
  - destruct (handle_stop id s) as [m1 s1] eqn:E. simplify_eq. by eapply handle_stop_agrees.
  - split_step. simplify_eq. destruct b; by apply (agreement_main (MKill pid id active_id0)) with (2 := Ha).
  - simplify_eq. by apply (agreement_main (MArm pid id active_id0)) with (2 := Ha); [apply arm_core|..].
  - destruct (worker_running (active s)) eqn:Er; cbn in Hs.
    + destruct (active_pid (active s) <=? 0); [by simplify_eq|].
      destruct (negb _); simplify_eq; by apply (agreement_main (MDrain signalled after)) with (2 := Ha).
    + simplify_eq. apply (agreement_main (MDrain signalled after)) with (2 := Ha); try done.
  - split_step. simplify_eq. destruct b; [|destruct a]; by apply (agreement_main (MDrainKill pid signalled after)) with (2 := Ha).
  - simplify_eq. by apply (agreement_main (MDrainArm pid after)) with (2 := Ha); [apply arm_core|..].
  - simplify_eq. by apply (agreement_main (MDrainWait signalled after)) with (2 := Ha).
  - destruct w; simplify_eq; (eapply agreement_join; [exact Ha|done|destruct after; done|destruct after; done]).
  - simplify_eq. cbn in Hm. subst. by apply (agreement_main (MShutdown code)) with (2 := Ha).
  - destruct d; simplify_eq. by apply (agreement_main (MJoinWatchdog code)) with (2 := Ha).
Qed.

Lemma thrown_child id child message : 0 < child -> thrown id child message = WInterrupt id child message.
Proof. intros H. unfold thrown. by rewrite (proj2 (Z.ltb_lt _ _) H). Qed.

Lemma reap_only child a s code s' l :
  owned s = [child] -> reap child a s = Some (code, s', l) ->
  active s' = active s /\ owned s' = [] /\ now s' = now s /\ watch s' = watch s /\ l = [Reap child].
Proof.
  unfold reap, is_owned. intros E H. rewrite E in H. cbn [existsb List.filter] in H. rewrite Z.eqb_refl in H. cbn [orb negb] in H.
  destruct a; simplify_eq; by cbn.
Qed.

Lemma owned_alone child s : owned s = [child] -> is_owned child s = true.
Proof. unfold is_owned. intros ->. cbn. by rewrite Z.eqb_refl. Qed.

(** The child is reaped, its number still published. *)
Lemma agreement_reaped m w w' s s' child :
  agreement m w s -> child_of w = Some child -> fresh w = false -> active s' = active s -> owned s' = [] ->
  (exists id message, w' = WFail id child message) \/ (exists id code, w' = WIdle id child code) ->
  agreement m w' s'.
Proof.
  intros [] Hc Hf Ea Eo Hw'. pose proof (ag_child0 _ Hc) as H0.
  assert (Hb : busy w = true) by (by destruct w). assert (Hn : w <> WNone) by (by intros ->).
  assert (Hp : published_pid w = child) by (destruct w; cbn in *; congruence).
  assert (P : published_pid w' = child /\ busy w' = true /\ child_of w' = None /\ fresh w' = false /\
              worker_agrees w' (active s)).
  { destruct Hw' as [(id & msg & ->)|(id & code & ->)]; cbn; split_and!; try done; by right. }
  destruct P as (P1 & P2 & P3 & P4 & P5). split; rewrite ?Ea, ?Eo, ?P1, ?P2, ?P3; try done; try congruence.
  all: destruct m; cbn in *; try done; first [congruence | tauto].
Qed.

Lemma worker_step_agrees uid pp m w a s w' s' l `{Infiltratr} :
  agreement m w s -> worker_step uid pp w a s = Some (w', s', l) -> agreement m w' s'.
Proof.
  intros Ha Hs. pose proof Ha as [Hrun Hpid Hown Hchild Hpend Hm Hw].
  assert (P : forall c, child_of w = Some c -> 0 < c /\ owned s = [c]) by (intros c Hc; rewrite Hc in Hown; split; auto).
  destruct w; cbn [worker_step stop_and_reap] in Hs; try done; try (destruct (P _ eq_refl) as [Hc Ho]; clear P;
    rewrite ?(thrown_child _ _ _ Hc), ?(owned_alone _ _ Ho) in Hs).
  - simplify_eq. destruct (helper_command _ _ _); (eapply agreement_worker; [apply core_refl|exact Ha|done..|]); cbn; auto.
  - destruct a; simplify_eq; (eapply agreement_worker; [apply core_refl|exact Ha|done..|]); cbn; auto.
  - destruct a; simplify_eq; (eapply agreement_worker; [apply core_refl|exact Ha|done..|]); cbn; auto.
  - destruct a; simplify_eq; [eapply agreement_worker; [apply core_refl|exact Ha|done..|]; cbn; auto|].
    destruct ((0 <? pid) && _) eqn:E; [|done]. simplify_eq. apply andb_true_iff in E as [E _]. apply Z.ltb_lt in E.
    split; try done; cbn; [by rewrite Hown|by intros c [= <-]|].
    destruct m; cbn in *; try done; by destruct Hm as [? _].
  - unfold published in Hs. cbv zeta in Hs. injection Hs as <- <- <-. cbn in Hpid.
    assert (Hmf : match m with MThread _ _ _ => False | MKill _ _ _ => False | _ => True end)
      by (destruct m; try done; cbn in Hm; [by destruct Hm|by destruct Hm as (_ & ? & _)]).
    split; try done; cbn.
    + intros Hq. destruct (pending_stop (active s)) eqn:Ep; [|by destruct (_ && _)].
      destruct (active_waits_for_output (active s)); [|done]. cbn in Hq. destruct (Hpend eq_refl) as [Hr _].
      split; [done|]. by right.
    + destruct m; try done; cbn in *; try (by destruct Hm).
    + destruct (pending_stop (active s) && _) eqn:E; [|done]. apply andb_true_iff in E as [_ E]. by apply negb_true_iff in E.
  - split_step. simplify_eq. destruct b; [destruct stop_on_start|]; rewrite ?(thrown_child _ _ _ Hc); (eapply agreement_worker; [eassumption|exact Ha|done..|]); cbn; auto.
    cbn in Hw. by rewrite Hw.
  - split_step. simplify_eq. destruct b; (eapply agreement_worker; [apply core_refl|exact Ha|done..|]); done.
  - simplify_eq. eapply agreement_worker; [apply arm_core|exact Ha|done..].
  - split_step. simplify_eq. destruct opened; (eapply agreement_worker; [eassumption|exact Ha|done..]).
  - destruct a; simplify_eq; rewrite ?(thrown_child _ _ _ Hc); (eapply agreement_worker; [apply core_refl|exact Ha|done..]).
  - destruct a; simplify_eq; try (eapply agreement_worker; [apply core_refl|exact Ha|done..]).
    + unfold read_line. destruct (String.eqb _ _); [|destruct (pp _)]; (eapply agreement_worker; [apply core_refl|exact Ha|done..]).
    + destruct (_ && _); [|done]. by simplify_eq.
  - destruct (announce_ready s) as [s1 deliver] eqn:E. simplify_eq. unfold announce_ready in E.
    assert (Hmt : match m with MThread _ _ _ => False | _ => True end) by (destruct m; try done; by destruct Hm).
    destruct (active_stop_ready (active s)) eqn:Er; simplify_eq; [by eapply agreement_worker; [apply core_refl|exact Ha|..]|].
    destruct (pending_stop (active s)); cbn in *; split; try done; cbn; try (by intros c [= <-]);
      destruct m; try done; cbn in *; tauto.
  - split_step. simplify_eq. destruct b; rewrite ?(thrown_child _ _ _ Hc); (eapply agreement_worker; [eassumption|exact Ha|done..]).
  - destruct a; try done; split_step; simplify_eq;
      (match goal with H : reap _ _ _ = Some _ |- _ => apply (reap_only _ _ _ _ _ _ Ho) in H as (E1 & E2 & _) end;
       eapply agreement_reaped; [exact Ha|done|done|exact E1|exact E2|]; right; eauto).
  - split_step. simplify_eq. eapply agreement_worker; [apply core_refl|exact Ha|done..].
  - destruct a; try done; split_step; simplify_eq;
      try (match goal with H : reap _ _ _ = Some _ |- _ => apply (reap_only _ _ _ _ _ _ Ho) in H as (E1 & E2 & _) end;
           eapply agreement_reaped; [exact Ha|done|done|exact E1|exact E2|]; left; eauto).
    destruct (deadline <=? now s'); (eapply agreement_worker; [apply core_refl|exact Ha|done..]).
  - split_step. simplify_eq. destruct a; (eapply agreement_worker; [apply core_refl|exact Ha|done..]).
  - split_step. simplify_eq. eapply agreement_worker; [apply core_refl|exact Ha|done..].
  - destruct a; try done; split_step; simplify_eq;
      (match goal with H : reap _ _ _ = Some _ |- _ => apply (reap_only _ _ _ _ _ _ Ho) in H as (E1 & E2 & _) end;
       eapply agreement_reaped; [exact Ha|done|done|exact E1|exact E2|]; left; eauto).
  - destruct (transport_failed s); [simplify_eq; by eapply agreement_worker; [apply core_refl|exact Ha|..]|].
    split_step. simplify_eq. eapply agreement_worker; [eassumption|exact Ha|done..].
  - simplify_eq.
    assert (Hmt : match m with MThread _ _ _ => False | _ => True end) by (destruct m; try done; by destruct Hm).
    split; cbn; try done; [by destruct m|by destruct (_ =? _)|].
    destruct m; try done; cbn in *; try tauto; try (by destruct Hm).
  - split_step. simplify_eq. eapply agreement_core; [eassumption|].
    assert (Hmt : match m with MThread _ _ _ => False | _ => True end) by (destruct m; try done; by destruct Hm).
    split; try done. destruct m; try done.
Qed.

Lemma watchdog_core d a s d' s' l :
  watchdog_step d a s = Some (d', s', l) -> same_core s s' /\ now s' = now s.
Proof.
  unfold watchdog_step. intros H. destruct d; try done;
    try (apply bind_Some in H as (? & _ & H); repeat case_match; by simplify_eq);
    repeat case_match; by simplify_eq.
Qed.

(** ** What the history says *)

(** [pid] was interrupted a grace period before [t]. *)
Definition interrupted (pid t : Z) (past : list (Z * Event)) : Prop :=
  exists t0 by_ alive, In (t0, Kill by_ pid SIGINT true alive) past /\ t0 + kStopGracePeriod <= t.

Lemma interrupted_more pid t t' new past :
  interrupted pid t past -> t <= t' -> interrupted pid t' (new ++ past)%list.
Proof.
  intros (t0 & by_ & alive & Hin & Hle) Ht. exists t0, by_, alive. split; [apply in_app_iff; by right|lia].
Qed.

Definition permitted (uid : Z) (command : HelperCommand) : Prop :=
  exists program arguments, helper_command program arguments uid = Value command.

Definition main_timed (m : Main) (t : Z) (past : list (Z * Event)) : Prop :=
  match m with MArm pid _ _ | MDrainArm pid _ => interrupted pid (t + kStopGracePeriod) past | _ => True end.

Definition worker_timed (uid : Z) (w : Worker) (t : Z) (past : list (Z * Event)) : Prop :=
  match w with
  | WArm _ child _ _ => interrupted child (t + kStopGracePeriod) past
  | WAccess _ command | WPipe _ command | WSpawn _ command => permitted uid command
  | _ => True
  end.

Definition watchdog_timed (d : Watchdog) (t : Z) (past : list (Z * Event)) : Prop :=
  match d with
  | DTimed pid deadline => interrupted pid deadline past
  | DCheck pid | DKillGroup pid | DCheckAgain pid | DKillChild pid => interrupted pid t past
  | _ => True
  end.

Definition watch_timed (w : Watch) (past : list (Z * Event)) : Prop :=
  watchdog_armed w = true -> interrupted (watchdog_pid w) (watchdog_deadline w) past.

(** One event after a past. *)
Definition event_founded (uid t : Z) (e : Event) (past : list (Z * Event)) : Prop :=
  match e with
  | Kill ByWatchdog pid SIGKILL _ _ => interrupted pid t past
  | Kill ByQueue _ _ _ alive | Kill ByCleanup _ _ _ alive => alive = true
  | Spawn command _ => permitted uid command
  | _ => True
  end.

Record founded (uid : Z) (y : System) : Prop := {
  fo_main : main_timed (main_thread y) (now (shared y)) (history y);
  fo_worker : worker_timed uid (worker_thread y) (now (shared y)) (history y);
  fo_watchdog : watchdog_timed (watchdog_thread y) (now (shared y)) (history y);
  fo_watch : watch_timed (watch (shared y)) (history y);
  fo_history : forall t e, In (t, e) (history y) -> event_founded uid t e (history y);
}.

Lemma timed_more new past t t' : t <= t' ->
  (forall m, main_timed m t past -> main_timed m t' (new ++ past)%list) /\
  (forall uid w, worker_timed uid w t past -> worker_timed uid w t' (new ++ past)%list) /\
  (forall d, watchdog_timed d t past -> watchdog_timed d t' (new ++ past)%list) /\
  (forall w, watch_timed w past -> watch_timed w (new ++ past)%list).
Proof.
  intros Ht. split_and!.
  - intros [] H; try done; (eapply interrupted_more; [exact H|lia]).
  - intros uid [] H; try done. eapply interrupted_more; [exact H|lia].
  - intros [] H; try done; (eapply interrupted_more; [exact H|lia]).
  - intros w H Ha. eapply interrupted_more; [by apply H|lia].
Qed.

Lemma event_founded_more uid t e new past : event_founded uid t e past -> event_founded uid t e (new ++ past)%list.
Proof.
  destruct e as [| [] ? [] | |]; try done. intros H. eapply interrupted_more; [exact H|lia].
Qed.

(** Adding founded events. *)
Lemma founded_step uid y m w d s events :
  founded uid y -> now s = now (shared y) ->
  let past := record_events (shared y) events (history y) in
  main_timed m (now s) past -> worker_timed uid w (now s) past -> watchdog_timed d (now s) past ->
  watch_timed (watch s) past ->
  Forall (fun e => event_founded uid (now s) e (history y)) events ->
  founded uid (mkSystem s m w d past).
Proof.
  intros [] Hn past H1 H2 H3 H4 He. split; cbn; try done. intros t e Hin. unfold past, record_events in Hin |- *.
  apply in_app_iff in Hin as [Hin|Hin]; apply event_founded_more; [|by apply fo_history0].
  apply in_map_iff in Hin as (e' & [= <- <-] & Hin). rewrite List.Forall_forall in He. rewrite <- Hn. by apply He.
Qed.

Lemma emit_quiet r a s ok s' l :
  emit r a s = Some (ok, s', l) -> now s' = now s /\ watch s' = watch s /\ owned s' = owned s /\
  (l = [] \/ l = [Emit r]).
Proof. unfold emit. intros H. repeat case_match; simplify_eq; auto. Qed.

Lemma send_event by_ pid sig a s ok l :
  send by_ pid sig a s = Some (ok, l) -> l = [Kill by_ pid sig ok (is_owned pid s)].
Proof. unfold send. intros H. destruct a; try done; [|destruct (is_owned pid s)|]; by simplify_eq. Qed.

(** The events a thread other than the watchdog may add. *)
Lemma quiet_founded uid t r past l : l = [] \/ l = [Emit r] -> Forall (fun e => event_founded uid t e past) l.
Proof. by intros [-> | ->]; repeat constructor. Qed.

Lemma watch_timed_arm pid s past :
  watch_timed (watch s) past -> interrupted pid (now s + kStopGracePeriod) past ->
  watch_timed (watch (arm_stop_watchdog pid s)) past /\ now (arm_stop_watchdog pid s) = now s.
Proof. unfold arm_stop_watchdog. intros Hw Hi. repeat case_match; (split; [|done]); try done. by intros _.  Qed.

Lemma interrupted_now pid t by_ alive past :
  interrupted pid (t + kStopGracePeriod) ((t, Kill by_ pid SIGINT true alive) :: past).
Proof. exists t, by_, alive. split; [by left|lia]. Qed.

Ltac found_emit :=
  match goal with H : emit _ _ _ = Some (_, _, _) |- _ => apply emit_quiet in H as (En & Ew & _ & Hq) end.

Lemma main_step_founded uid self m w d a y m' w' s' l `{Infiltratr} :
  founded uid y -> main_thread y = m -> worker_thread y = w ->
  main_step self m w d a (shared y) = Some (m', w', s', l) ->
  now s' = now (shared y) /\
  let past := record_events (shared y) l (history y) in
  main_timed m' (now s') past /\ worker_timed uid w' (now s') past /\ watch_timed (watch s') past /\
  Forall (fun e => event_founded uid (now s') e (history y)) l.
Proof.
  intros Hf Em Ewk Hs. destruct Hf as [Fm Fw Fd Ft Fh]. rewrite Em in Fm. rewrite Ewk in Fw. set (s := shared y) in *.
  assert (Quiet : forall l', (l' = [] \/ exists r, l' = [Emit r]) ->
    worker_timed uid w (now s) (record_events s l' (history y)) /\ watch_timed (watch s) (record_events s l' (history y)) /\
    forall t, Forall (fun e => event_founded uid t e (history y)) l').
  { intros l' Hl'. destruct (timed_more (map (fun e => (now s, e)) l') (history y) (now s) (now s) ltac:(lia)) as (_ & T2 & _ & T4).
    split; [by apply T2|]. split; [by apply T4|]. intros t. destruct Hl' as [->|[r ->]]; repeat constructor. }
  assert (Loud : forall e, worker_timed uid w (now s) (record_events s [e] (history y)) /\
    watch_timed (watch s) (record_events s [e] (history y))).
  { intros e. destruct (timed_more [(now s, e)] (history y) (now s) (now s) ltac:(lia)) as (_ & T2 & _ & T4).
    split; [by apply T2|by apply T4]. }
  assert (Q0 := Quiet [] (or_introl eq_refl)). destruct Q0 as (Q1 & Q2 & Q3).
  destruct m; cbn [main_step handle_run stop_active_and_wait] in Hs; try done.
  - apply bind_Some in Hs as ([[ok s1] l1] & He & Hs). apply emit_quiet in He as (En & Ew & _ & Hq).
    destruct (Quiet l1) as (R1 & R2 & R3); [destruct Hq; eauto|]. simplify_eq. rewrite Ew, En.
    destruct ok; split_and!; try done; apply R3.
  - destruct (transport_failed s); [by simplify_eq|]. destruct (read_request_line _ _) as [[status line] rest].
    simplify_eq. split; [done|]. split; [|by split_and!]. by destruct status, (request_of line).
  - apply bind_Some in Hs as ([[ok s1] l1] & He & Hs). apply emit_quiet in He as (En & Ew & _ & Hq).
    destruct (Quiet l1) as (R1 & R2 & R3); [destruct Hq; eauto|]. simplify_eq. rewrite Ew, En.
    destruct finished as [z|]; [|destruct quit]; split_and!; try done; apply R3.
  - destruct (worker_running (active s) || _); by simplify_eq.
  - destruct w; by simplify_eq.
  - by simplify_eq.
  - destruct a; by simplify_eq.
  - destruct (handle_stop id s) as [m1 s1] eqn:E. unfold handle_stop in E. simplify_eq.
    repeat case_match; simplify_eq; by split_and!.
  - apply bind_Some in Hs as ([ok l1] & He & Hs). apply send_event in He as ->.
    destruct (Loud (Kill ByRequest pid SIGINT ok (is_owned pid s))) as [R1 R2]. simplify_eq.
    split; [done|]. split; [|split_and!; try done; by repeat constructor].
    destruct ok; [|done]. apply interrupted_now.
  - simplify_eq. destruct (watch_timed_arm pid s _ Q2) as [R1 R2]; [exact Fm|]. rewrite R2. by split_and!.
  - destruct (negb (worker_running (active s))); [by simplify_eq|].
    destruct (active_pid (active s) <=? 0); [by simplify_eq|]. destruct (negb _); by simplify_eq.
  - apply bind_Some in Hs as ([ok l1] & He & Hs). apply send_event in He as ->.
    destruct (Loud (Kill ByDrain pid SIGINT ok (is_owned pid s))) as [R1 R2]. simplify_eq.
    split; [done|]. split; [|split_and!; try done; by repeat constructor].
    destruct ok; [|done]. apply interrupted_now.
  - simplify_eq. destruct (watch_timed_arm pid s _ Q2) as [R1 R2]; [exact Fm|]. rewrite R2. by split_and!.
  - by simplify_eq.
  - destruct w; simplify_eq; (split; [done|]; split; [by destruct after|by split_and!]).
  - by simplify_eq.
  - destruct d; by simplify_eq.
Qed.

Lemma reap_event child a s code s' l :
  reap child a s = Some (code, s', l) -> now s' = now s /\ watch s' = watch s /\ l = [Reap child].
Proof. unfold reap. intros H. destruct (is_owned child s); [|done]. destruct a; by simplify_eq. Qed.

Lemma thrown_timed uid id child message t past : worker_timed uid (thrown id child message) t past.
Proof. unfold thrown. by destruct (0 <? child). Qed.

Lemma worker_step_founded uid pp m w a y w' s' l `{Infiltratr} :
  agreement m w (shared y) -> founded uid y -> worker_thread y = w ->
  worker_step uid pp w a (shared y) = Some (w', s', l) ->
  now s' = now (shared y) /\
  let past := record_events (shared y) l (history y) in
  worker_timed uid w' (now s') past /\ watch_timed (watch s') past /\
  Forall (fun e => event_founded uid (now s') e (history y)) l.
Proof.
  intros Ha Hf Ewk Hs. destruct Hf as [Fm Fw Fd Ft Fh]. rewrite Ewk in Fw. set (s := shared y) in *.
  pose proof Ha as [_ _ Hown Hchild _ _ _].
  assert (P : forall c, child_of w = Some c -> is_owned c s = true).
  { intros c Hc. rewrite Hc in Hown. by apply owned_alone. }
  assert (Wt : forall l', watch_timed (watch s) (record_events s l' (history y)) /\
                          worker_timed uid w (now s) (record_events s l' (history y))).
  { intros l'. destruct (timed_more (map (fun e => (now s, e)) l') (history y) (now s) (now s) ltac:(lia)) as (_ & T2 & _ & T4).
    split; [by apply T4|by apply T2]. }
  assert (Silent : forall w1 s1 l', now s1 = now s -> watch s1 = watch s -> l' = [] \/ (exists r, l' = [Emit r]) \/ (exists c, l' = [Reap c]) ->
    worker_timed uid w1 (now s) (record_events s l' (history y)) ->
    now s1 = now s /\ worker_timed uid w1 (now s1) (record_events s l' (history y)) /\
    watch_timed (watch s1) (record_events s l' (history y)) /\
    Forall (fun e => event_founded uid (now s1) e (history y)) l').
  { intros w1 s1 l' E1 E2 Hl Hw1. rewrite E1, E2. split_and!; [done|done|apply Wt|].
    destruct Hl as [->|[(r & ->)|(c & ->)]]; repeat constructor. }
  assert (Quiet : forall w1, worker_timed uid w1 (now s) (history y) ->
    now s = now s /\ worker_timed uid w1 (now s) (history y) /\ watch_timed (watch s) (history y) /\
    Forall (fun e => event_founded uid (now s) e (history y)) []) by (intros w1 Hw1; by split_and!).
  assert (Sent : forall by_ c sig ok l1 w1, send by_ c sig a s = Some (ok, l1) -> child_of w = Some c ->
    (by_ = ByQueue \/ by_ = ByCleanup) -> worker_timed uid w1 (now s) (record_events s l1 (history y)) ->
    now s = now s /\ worker_timed uid w1 (now s) (record_events s l1 (history y)) /\
    watch_timed (watch s) (record_events s l1 (history y)) /\
    Forall (fun e => event_founded uid (now s) e (history y)) l1).
  { intros by_ c sig ok l1 w1 Hsend Hc Hby Hw1. apply send_event in Hsend as ->. rewrite (P _ Hc) in *.
    split_and!; [done|done|apply Wt|]. destruct Hby as [-> | ->]; by repeat constructor. }
  clearbody s. destruct w; cbn [worker_step stop_and_reap] in Hs; try done.
  - destruct (helper_command _ _ _) as [command|what] eqn:E; simplify_eq; apply Quiet; [by eexists _, _|done].
  - destruct a; simplify_eq; apply Quiet; done.
  - destruct a; simplify_eq; apply Quiet; done.
  - destruct a; try done; [by simplify_eq; apply Quiet|]. destruct (_ && _); simplify_eq.
    cbn. split_and!; [done|done|by apply (Wt [_])|]. by repeat constructor.
  - unfold published in Hs. cbv zeta in Hs. simplify_eq. apply Silent; eauto.
  - apply bind_Some in Hs as ([[ok s1] l1] & He & Hs). apply emit_quiet in He as (En & Ew & _ & Hq).
    assert (Hl : l1 = [] \/ (exists r, l1 = [Emit r]) \/ (exists c, l1 = [Reap c])) by (destruct Hq; eauto).
    simplify_eq. apply Silent; eauto. destruct ok; [by destruct stop_on_start|]. apply thrown_timed.
  - apply bind_Some in Hs as ([ok l1] & He & Hs). simplify_eq. eapply Sent; [exact He|done|auto|].
    apply send_event in He as ->. destruct ok; [|done]. apply interrupted_now.
  - simplify_eq. destruct (watch_timed_arm child s _ Ft) as [R1 R2]; [exact Fw|]. rewrite R2. by split_and!.
  - apply bind_Some in Hs as ([[ok s1] l1] & He & Hs). apply emit_quiet in He as (En & Ew & _ & Hq).
    assert (Hl : l1 = [] \/ (exists r, l1 = [Emit r]) \/ (exists c, l1 = [Reap c])) by (destruct Hq; eauto).
    simplify_eq. apply Silent; eauto. by destruct opened.
  - destruct a; simplify_eq; apply Quiet; try done; apply thrown_timed.
  - destruct a; simplify_eq; try (by apply Quiet).
    + apply Quiet. unfold read_line. repeat case_match; done.
    + destruct (_ && _); simplify_eq. by apply Quiet.
  - destruct (announce_ready s) as [s1 deliver] eqn:E. unfold announce_ready in E. simplify_eq.
    destruct (active_stop_ready (active s)); simplify_eq; apply Silent; eauto; by destruct (pending_stop _).
  - apply bind_Some in Hs as ([[ok s1] l1] & He & Hs). apply emit_quiet in He as (En & Ew & _ & Hq).
    assert (Hl : l1 = [] \/ (exists r, l1 = [Emit r]) \/ (exists c, l1 = [Reap c])) by (destruct Hq; eauto).
    simplify_eq. apply Silent; eauto. destruct ok; [done|]. apply thrown_timed.
  - destruct a; try done;
      try (apply bind_Some in Hs as ([[? s1] l1] & He & Hs); apply reap_event in He as (E1 & E2 & ->); simplify_eq; by (apply Silent; eauto)).
    destruct (is_owned _ _); simplify_eq. apply Quiet. apply thrown_timed.
  - apply bind_Some in Hs as ([ok l1] & He & Hs). simplify_eq. by eapply Sent; [exact He|done|auto|].
  - destruct a; try done;
      try (apply bind_Some in Hs as ([[? s1] l1] & He & Hs); apply reap_event in He as (E1 & E2 & ->); simplify_eq; by (apply Silent; eauto)).
    + simplify_eq. apply Quiet. by destruct (_ <=? _).
    + destruct (is_owned _ _); simplify_eq. by apply Quiet.
    + destruct (is_owned _ _); simplify_eq. by apply Quiet.
  - apply bind_Some in Hs as ([ok l1] & He & Hs). simplify_eq. eapply Sent; [exact He|done|auto|]. by destruct a.
  - apply bind_Some in Hs as ([ok l1] & He & Hs). simplify_eq. by eapply Sent; [exact He|done|auto|].
  - destruct a; try done;
      try (apply bind_Some in Hs as ([[? s1] l1] & He & Hs); apply reap_event in He as (E1 & E2 & ->); simplify_eq; by (apply Silent; eauto)).
    destruct (is_owned _ _); simplify_eq. by apply Quiet.
  - destruct (transport_failed s); [simplify_eq; by apply Quiet|].
    apply bind_Some in Hs as ([[ok s1] l1] & He & Hs). apply emit_quiet in He as (En & Ew & _ & Hq).
    assert (Hl : l1 = [] \/ (exists r, l1 = [Emit r]) \/ (exists c, l1 = [Reap c])) by (destruct Hq; eauto).
    simplify_eq. apply Silent; eauto.
  - simplify_eq. cbn. destruct (watchdog_pid (watch s) =? child); cbn; split_and!; done.
  - apply bind_Some in Hs as ([[ok s1] l1] & He & Hs). apply emit_quiet in He as (En & Ew & _ & Hq).
    assert (Hl : l1 = [] \/ (exists r, l1 = [Emit r]) \/ (exists c, l1 = [Reap c])) by (destruct Hq; eauto).
    simplify_eq. apply Silent; eauto.
Qed.

Lemma watchdog_step_founded uid d a y d' s' l :
  founded uid y -> watchdog_thread y = d -> watchdog_step d a (shared y) = Some (d', s', l) ->
  let past := record_events (shared y) l (history y) in
  watchdog_timed d' (now s') past /\ watch_timed (watch s') past /\
  Forall (fun e => event_founded uid (now s') e (history y)) l.
Proof.
  intros [_ _ Fd Ft _] Ed Hs. rewrite Ed in Fd. set (s := shared y) in *.
  assert (Wt : forall l' w1, (watchdog_armed w1 = true -> w1 = watch s) ->
    watch_timed w1 (record_events s l' (history y))).
  { intros l' w1 Hw1 E. pose proof (Hw1 E) as ->. eapply interrupted_more; [by apply Ft|lia]. }
  assert (Sent : forall pid ok l1 d1, send ByWatchdog pid SIGKILL a s = Some (ok, l1) ->
    interrupted pid (now s) (history y) -> (d1 = DWait \/ d1 = DCheckAgain pid) ->
    watchdog_timed d1 (now s) (record_events s l1 (history y)) /\ watch_timed (watch s) (record_events s l1 (history y)) /\
    Forall (fun e => event_founded uid (now s) e (history y)) l1).
  { intros pid ok l1 d1 He Hi Hd1. apply send_event in He as ->. split_and!; [|by apply Wt|by constructor].
    destruct Hd1 as [-> | ->]; [done|]. by apply (interrupted_more pid _ _ [_] _ Hi). }
  clearbody s. destruct d; cbn [watchdog_step] in Hs; try done.
  - destruct (watchdog_shutdown _); [simplify_eq; by split_and!|].
    destruct (watchdog_armed (watch s)) eqn:E; simplify_eq. split_and!; [by apply Ft|done|done].
  - destruct (watchdog_shutdown _); [simplify_eq; by split_and!|].
    destruct (watch_changed _ _); [simplify_eq; by split_and!|].
    destruct (deadline <=? now s) eqn:E; simplify_eq. apply Z.leb_le in E. split_and!; [|by apply Wt|done].
    by apply (interrupted_more _ _ _ [] _ Fd).
  - apply bind_Some in Hs as (running & _ & Hs). simplify_eq. by destruct running; split_and!.
  - apply bind_Some in Hs as ([ok l1] & He & Hs). simplify_eq. eapply Sent; [exact He|done|]. destruct a; auto.
  - apply bind_Some in Hs as (running & _ & Hs). simplify_eq. by destruct running; split_and!.
  - apply bind_Some in Hs as ([ok l1] & He & Hs). simplify_eq. eapply Sent; [exact He|done|auto].
Qed.

(** A system some schedule reaches: its threads agree with the shared state, and
    its history is founded. *)
Lemma reachable_sound `{Infiltratr} self uid pp y :
  reachable self uid pp y -> agreement (main_thread y) (worker_thread y) (shared y) /\ founded uid y.
Proof.
  induction 1 as [text|c y y' _ [Ha Hf] Hs].
  - split; split; try done; cbn; try lia.
  - pose proof Hf as [Fm Fw Fd Ft Fh].
    assert (More : forall l t, t = now (shared y) ->
      main_timed (main_thread y) t (record_events (shared y) l (history y)) /\
      worker_timed uid (worker_thread y) t (record_events (shared y) l (history y)) /\
      watchdog_timed (watchdog_thread y) t (record_events (shared y) l (history y))).
    { intros l t ->. split_and!; by apply timed_more with (t := now (shared y)). } destruct c as [a|a|a|ms]; cbn [system_step] in Hs.
    + apply bind_Some in Hs as ([[[m w] s'] l] & Hs & [= <-]). split; [by eapply main_step_agrees|].
      apply (main_step_founded uid) in Hs as (En & R1 & R2 & R3 & R4); [|done..].
      apply founded_step; try done. by apply More.
    + apply bind_Some in Hs as ([[w s'] l] & Hs & [= <-]). split; [by eapply worker_step_agrees|].
      destruct (worker_step_founded uid pp _ _ _ _ _ _ _ Ha Hf eq_refl Hs) as (En & R1 & R2 & R3).
      apply founded_step; try done; by apply More.
    + apply bind_Some in Hs as ([[d s'] l] & Hs & [= <-]).
      pose proof (watchdog_core _ _ _ _ _ _ Hs) as [Hc En]. split; [by eapply agreement_core|].
      apply (watchdog_step_founded uid) in Hs as (R1 & R2 & R3); [|done..].
      apply founded_step; try done; by apply More.
    + destruct (0 <=? ms) eqn:E; simplify_eq. apply Z.leb_le in E. split; [by apply (agreement_core _ _ (shared y))|].
      destruct (timed_more [] (history y) (now (shared y)) (now (shared y) + ms) ltac:(lia)) as (T1 & T2 & T3 & T4).
      split; cbn; auto.
Qed.

(** *** Who signals, who drops a queued stop *)

Lemma record_one s l h t e : record_events s l h = (t, e) :: h -> l = [e].
Proof.
  unfold record_events. intros E. assert (Hl := f_equal length E). rewrite length_app, length_map in Hl. cbn in Hl.
  destruct l as [|e' [|? ?]]; cbn in *; try lia. by injection E as _ ->.
Qed.

Lemma main_step_kill `{Infiltratr} self m w d a s m' w' s' by_ pid sig ok alive :
  main_step self m w d a s = Some (m', w', s', [Kill by_ pid sig ok alive]) ->
  (exists id active_id, m = MKill pid id active_id /\ by_ = ByRequest) \/ by_ = ByDrain.
Proof.
  intros Hs. destruct m; cbn [main_step handle_run stop_active_and_wait] in Hs; try done;
    try (apply bind_Some in Hs as ([[? ?] ?] & He & Hs); apply emit_quiet in He as (_ & _ & _ & [-> | ->]); by simplify_eq).
  - by repeat (case_match; simplify_eq).
  - by repeat (case_match; simplify_eq).
  - by repeat (case_match; simplify_eq).
  - by repeat (case_match; simplify_eq).
  - by repeat (case_match; simplify_eq).
  - apply bind_Some in Hs as ([? ?] & He & Hs). apply send_event in He as ->. simplify_eq. by left; eexists _, _.
  - by repeat (case_match; simplify_eq).
  - apply bind_Some in Hs as ([? ?] & He & Hs). apply send_event in He as ->. simplify_eq. by right.
  - by repeat (case_match; simplify_eq).
  - by repeat (case_match; simplify_eq).
Qed.

Lemma worker_step_queue `{Infiltratr} uid pp w a s w' s' pid sig ok alive by_ :
  worker_step uid pp w a s = Some (w', s', [Kill by_ pid sig ok alive]) ->
  (exists id message opened, w = WKill id pid message opened) \/ by_ = ByCleanup.
Proof.
  assert (Reaped : forall child (f : Z -> Worker), (reap child a s ≫= fun '(code, s, log) => Some (f code, s, log)) =
    Some (w', s', [Kill by_ pid sig ok alive]) -> False).
  { intros child f Hs. apply bind_Some in Hs as ([[? ?] ?] & He & Hs). apply reap_event in He as (_ & _ & ->). by simplify_eq. }
  assert (Emitted : forall r (f : bool -> Worker), (emit r a s ≫= fun '(b, s, log) => Some (f b, s, log)) =
    Some (w', s', [Kill by_ pid sig ok alive]) -> False).
  { intros r f Hs. apply bind_Some in Hs as ([[? ?] ?] & He & Hs).
    apply emit_quiet in He as (_ & _ & _ & [-> | ->]); by simplify_eq. }
  intros Hs. destruct w; cbn [worker_step stop_and_reap] in Hs; try done; try (by destruct (Emitted _ _ Hs));
    try (apply bind_Some in Hs as ([? ?] & He & Hs); apply send_event in He as ->; simplify_eq; (by right) || (by left; eexists _, _, _));
    try (by repeat (case_match; simplify_eq)).
  - destruct a; try (by destruct (Reaped _ _ Hs)). by case_match.
  - destruct a; try (by destruct (Reaped _ (fun _ => _) Hs)); by repeat (case_match; simplify_eq).
  - destruct a; try (by destruct (Reaped _ (fun _ => _) Hs)). by case_match.
  - destruct (transport_failed s); [by simplify_eq|]. by destruct (Emitted _ (fun _ => _) Hs).
Qed.

Lemma watchdog_step_kill d a s d' s' by_ pid sig ok alive :
  watchdog_step d a s = Some (d', s', [Kill by_ pid sig ok alive]) -> by_ = ByWatchdog.
Proof.
  unfold watchdog_step. intros Hs. destruct d; try done;
    try (apply bind_Some in Hs as ([? ?] & He & Hs); apply send_event in He as ->; by simplify_eq);
    try (apply bind_Some in Hs as (? & _ & Hs); by simplify_eq);
    by repeat (case_match; simplify_eq).
Qed.

Lemma main_keeps_pending `{Infiltratr} self m w d a s m' w' s' l :
  agreement m w s -> main_step self m w d a s = Some (m', w', s', l) ->
  pending_stop (active s) = true -> pending_stop (active s') = true.
Proof.
  intros Ha Hs Hp.
  assert (Same : same_core s s' -> pending_stop (active s') = true) by by intros [-> _].
  assert (L : forall id program arguments, m = MLaunch id program arguments -> False).
  { intros id program arguments ->. destruct Ha as [Hrun _ _ _ Hpend Hm _]. cbn in *. subst. by destruct (Hpend Hp) as [E _]; rewrite E in Hrun. }
  clear Ha. destruct m; cbn [main_step handle_run stop_active_and_wait] in Hs; try done; try (by destruct (L _ _ _ eq_refl)); clear L;
    split_step; simplify_eq; cbn in *; try done; try (apply Same; done || apply arm_core).
  - destruct (transport_failed s); [by simplify_eq|]. destruct (read_request_line _ _) as [[? ?] ?]. by simplify_eq.
  - destruct (_ || _); by simplify_eq.
  - destruct w; by simplify_eq.
  - destruct a; by simplify_eq.
  - unfold handle_stop in Hs. destruct (worker_running _ && _), (negb _ && _); by simplify_eq.
  - destruct (negb _); [by simplify_eq|]. destruct (_ <=? _); [by simplify_eq|]. destruct (negb _); by simplify_eq.
  - destruct w; by simplify_eq.
  - destruct d; by simplify_eq.
Qed.

(** The worker changes the shared members in its critical sections only. *)
Lemma worker_step_active `{Infiltratr} uid pp w a s w' s' l :
  worker_step uid pp w a s = Some (w', s', l) ->
  match w with WPublish _ _ | WMarker _ _ | WIdle _ _ _ => True | _ => active s' = active s end.
Proof.
  assert (Reaped : forall child (f : Z -> Worker), (reap child a s ≫= fun '(code, s, log) => Some (f code, s, log)) =
    Some (w', s', l) -> active s' = active s).
  { intros child f Hs. apply bind_Some in Hs as ([[? ?] ?] & He & Hs). unfold reap in He.
    destruct (is_owned _ _); [|done]. by destruct a; simplify_eq. }
  assert (Emitted : forall r (f : bool -> Worker), (emit r a s ≫= fun '(b, s, log) => Some (f b, s, log)) =
    Some (w', s', l) -> active s' = active s).
  { intros r f Hs. apply bind_Some in Hs as ([[? ?] ?] & He & Hs). apply emit_core in He as [E _]. by simplify_eq. }
  intros Hs. destruct w; cbn [worker_step stop_and_reap] in Hs; try done; try (by apply (Emitted _ _ Hs));
    try (apply bind_Some in Hs as ([? ?] & He & Hs); by simplify_eq).
  - by simplify_eq.
  - destruct a; by simplify_eq.
  - destruct a; by simplify_eq.
  - destruct a; try destruct (_ && _); by simplify_eq.
  - simplify_eq. apply arm_core.
  - destruct a; by simplify_eq.
  - destruct a; try destruct (_ && _); by simplify_eq.
  - destruct a; try (by apply (Reaped _ _ Hs)). destruct (is_owned _ _); by simplify_eq.
  - destruct a; try (by apply (Reaped _ (fun _ => _) Hs)); try destruct (is_owned _ _); by simplify_eq.
  - destruct a; try (by apply (Reaped _ (fun _ => _) Hs)); try destruct (is_owned _ _); by simplify_eq.
  - destruct (transport_failed s); [by simplify_eq|]. apply (Emitted _ (fun _ => _) Hs).
Qed.

Lemma worker_drops_pending `{Infiltratr} uid pp w a s w' s' l :
  worker_step uid pp w a s = Some (w', s', l) ->
  pending_stop (active s) = true -> pending_stop (active s') = false ->
  exists id child, w' = WStarted id child true \/ w' = WKill id child queued_message true \/ w' = WFinish id child.
Proof.
  intros Hs Hp Hq. pose proof (worker_step_active _ _ _ _ _ _ _ _ Hs) as Hact.
  destruct w; try (rewrite Hact in Hq; congruence); cbn [worker_step stop_and_reap] in Hs.
  - unfold published in Hs. simplify_eq. cbn in Hq. rewrite Hp in *.
    destruct (active_waits_for_output (active s)); [done|]. eauto.
  - unfold announce_ready in Hs. rewrite Hp in Hs. destruct (active_stop_ready (active s)); simplify_eq; eauto. congruence.
  - simplify_eq. eauto.
Qed.

Lemma main_step_done `{Infiltratr} self m w d a s code w' s' l :
  main_step self m w d a s = Some (MDone code, w', s', l) -> d = DExit.
Proof.
  intros Hs. destruct m; cbn [main_step handle_run stop_active_and_wait] in Hs; try done; split_step; simplify_eq; try done;
    try (destruct b; done).
  - destruct (transport_failed s); [done|]. destruct (read_request_line _ _) as [[status line] rest]. simplify_eq.
    destruct status; try done. by destruct (request_of line).
  - destruct finished; [done|]. by destruct quit.
  - destruct (_ || _); by simplify_eq.
  - destruct w; by simplify_eq.
  - destruct a; by simplify_eq.
  - unfold handle_stop in Hs. destruct (worker_running _ && _), (negb _ && _); by simplify_eq.
  - destruct (negb _); [by simplify_eq|]. destruct (_ <=? _); [by simplify_eq|]. destruct (negb _); by simplify_eq.
  - destruct w; try done; by destruct after.
  - destruct d; by simplify_eq.
Qed.

Section Properties.
  Context `{Infiltratr}.
  Variable self uid : Z.
  Variable pp : string -> option Json.

(** C15: a child is killed by the watchdog only when a SIGINT was delivered to it at
    least the five minutes of grace before: whatever the requests, the schedule of
    the threads and the answers of the kernel, a SIGKILL of the watchdog in the
    history is preceded by that SIGINT, [kStopGracePeriod] earlier or more. *)
Theorem hard_kill_after_grace y t pid ok alive :
  reachable self uid pp y -> In (t, Kill ByWatchdog pid SIGKILL ok alive) (history y) ->
  exists t0 by_ alive0, In (t0, Kill by_ pid SIGINT true alive0) (history y) /\ t0 + kStopGracePeriod <= t.
Proof. intros Hr Hin. apply reachable_sound in Hr as [_ []]. exact (fo_history0 _ _ Hin). Qed.

(** C16: nothing is spawned that the policy refuses: each process the helper ever
    spawns is the command [HelperPolicy.helper_command] builds for some request
    and the uid of the caller. *)
Theorem spawns_authorised y t command pid :
  reachable self uid pp y -> In (t, Spawn command pid) (history y) ->
  exists program arguments, helper_command program arguments uid = Value command.
Proof. intros Hr Hin. apply reachable_sound in Hr as [_ []]. exact (fo_history0 _ _ Hin). Qed.

(** The worker never signals a process it does not own: the signals it sends,
    for a stop that was queued and to clean up after a failure, go to the child it
    spawned and has not reaped, so the number cannot have been reused. *)
Theorem worker_signals_own_child y t by_ pid sig ok alive :
  reachable self uid pp y -> In (t, Kill by_ pid sig ok alive) (history y) ->
  by_ = ByQueue \/ by_ = ByCleanup -> alive = true.
Proof.
  intros Hr Hin Hby. apply reachable_sound in Hr as [_ []]. specialize (fo_history0 _ _ Hin).
  by destruct Hby as [-> | ->].
Qed.


(** C27: a stop that was queued is not lost: it is kept until the child can be
    interrupted or the operation ends.  The step that drops it leaves the worker
    about to interrupt a child that just started, or one that announced its
    readiness, or about to report the end. *)
Theorem queued_stop_not_lost c y y' :
  reachable self uid pp y -> system_step self uid pp c y = Some y' ->
  pending_stop (active (shared y)) = true -> pending_stop (active (shared y')) = false ->
  exists id child, worker_thread y' = WStarted id child true \/
    worker_thread y' = WKill id child queued_message true \/ worker_thread y' = WFinish id child.
Proof.
  intros Hr Hs Hp Hq. apply reachable_sound in Hr as [Ha _]. destruct c as [a|a|a|ms]; cbn [system_step] in Hs.
  - apply bind_Some in Hs as ([[[m w] s'] l] & Hs & [= <-]).
    apply main_keeps_pending in Hs; [cbn in Hq; congruence|done..].
  - apply bind_Some in Hs as ([[w s'] l] & Hs & [= <-]). by apply worker_drops_pending in Hs.
  - apply bind_Some in Hs as ([[d s'] l] & Hs & [= <-]). apply watchdog_core in Hs as [[E _] _].
    cbn in Hq. rewrite E in Hq. congruence.
  - destruct (0 <=? ms); simplify_eq. cbn in Hq. congruence.
Qed.

Lemma done_watchdog y : reachable self uid pp y ->
  match main_thread y with MDone _ => watchdog_thread y = DExit | _ => True end.
Proof.
  induction 1 as [text|c y y' _ IH Hs]; [done|]. destruct c as [a|a|a|ms]; cbn [system_step] in Hs.
  - apply bind_Some in Hs as ([[[m w] s'] l] & Hs & [= <-]). cbn. destruct m; try done. by eapply main_step_done.
  - by apply bind_Some in Hs as ([[w s'] l] & Hs & [= <-]).
  - apply bind_Some in Hs as ([[d s'] l] & Hs & [= <-]). cbn. destruct (main_thread y); try done. by rewrite IH in Hs.
  - by destruct (0 <=? ms); simplify_eq.
Qed.

(** C28: when the helper has ended, nothing is left behind: every process it
    spawned has been reaped, no operation is active and both threads have
    ended. *)
Theorem helper_ends_clean y code :
  reachable self uid pp y -> main_thread y = MDone code ->
  owned (shared y) = [] /\ worker_running (active (shared y)) = false /\
  worker_thread y = WNone /\ watchdog_thread y = DExit.
Proof.
  intros Hr Em. pose proof (done_watchdog _ Hr) as Hd. rewrite Em in Hd.
  apply reachable_sound in Hr as [[Hrun _ Hown _ _ Hm _] _]. rewrite Em in Hrun, Hm. cbn in Hm. by rewrite Hm in *.
Qed.

(** An operation is refused as already active exactly when one is: a run
    request that meets a worker between its start and the end of its last critical
    section is refused with the status 127, and one that meets a worker about to
    report the end, or none, starts. *)
Theorem run_refused_iff_busy y id program arguments a :
  reachable self uid pp y -> main_thread y = MRun id program arguments ->
  exists y', system_step self uid pp (MainGoes a) y = Some y' /\
  main_thread y' =
    if busy (worker_thread y)
    then MEmit (Error (integer id) "another privileged operation is already active") (Some id) false
    else MJoin id program arguments.
Proof.
  intros Hr Em. apply reachable_sound in Hr as [[Hrun Hpid _ Hchild _ _ _] _]. rewrite Em in Hrun.
  unfold system_step. rewrite Em. cbn [main_step handle_run stop_active_and_wait]. rewrite Hrun, Hpid.
  destruct (busy (worker_thread y)) eqn:E; [by eexists|].
  destruct (worker_thread y); try done; by eexists.
Qed.
End Properties.

(** *** A session *)

(** The lines of a request stream; the quotes of JSON are written as apostrophes. *)
Fixpoint stream (s : string) : string :=
  match s with
  | EmptyString => EmptyString
  | String c s =>
      String (if bool_decide (c = "'"%char) then QUOTE else if bool_decide (c = ";"%char) then LF else c) (stream s)
  end.

Definition engine_session : string := stream
  ("{'action':'run','id':1,'program':'operation-engine','argv':['defrag','/dev/sda1','--filesystem','ext4'," ++
   "'--write','--confirm','/dev/sda1','--journal','/var/lib/defragmenter/state/1000/a.journal']};" ++
   "{'action':'stop','id':2};").

(** The engine is started, a stop arrives before its readiness marker and is
    queued, the marker delivers it; the child does not end, and is killed after the
    grace period; the session ends. *)
Definition engine_choices : list Choice :=
  [MainGoes Yes; MainGoes Go; MainGoes Go; MainGoes Go; MainGoes Go; MainGoes Yes;
   WorkerGoes Go; WorkerGoes Yes; WorkerGoes Yes; WorkerGoes (Pid 42); WorkerGoes Go; WorkerGoes Yes;
   MainGoes Go; MainGoes Go; MainGoes Yes;
   WorkerGoes Yes; WorkerGoes (Line "@@STOP_READY"); WorkerGoes Go; WorkerGoes Yes; WorkerGoes Go; WorkerGoes Yes;
   WatchdogGoes Go; TimePasses 300000; WatchdogGoes Go; WatchdogGoes Yes; WatchdogGoes Yes;
   WorkerGoes EndOfOutput; WorkerGoes (Signalled 9); WorkerGoes Go; WorkerGoes Yes;
   MainGoes Go; MainGoes Go; MainGoes Go; MainGoes Go; MainGoes Go; MainGoes Go; WatchdogGoes Go; MainGoes Go].

Definition engine_after (steps : nat) : option System :=
  schedule (common := infiltratr_reference) 7 1000 (fun _ => None) (take steps engine_choices) (start engine_session).

Definition unmount_session : string := stream
  ("{'action':'run','id':1,'program':'udisksctl','argv':['unmount','-b','/dev/sda1']};{'action':'stop','id':2};").

(** A stop request is taken while the child ends: the worker reaps it before the
    signal is sent. *)
Definition late_stop : list Choice :=
  [MainGoes Yes; MainGoes Go; MainGoes Go; MainGoes Go; MainGoes Go; MainGoes Yes;
   WorkerGoes Go; WorkerGoes Yes; WorkerGoes Yes; WorkerGoes (Pid 42); WorkerGoes Go; WorkerGoes Yes; WorkerGoes Yes;
   MainGoes Go; MainGoes Go; WorkerGoes EndOfOutput; WorkerGoes (Exited 0); MainGoes Yes].

Definition engine_at (steps : nat) : System := default (start EmptyString) (engine_after steps).

Lemma engine_reachable n : engine_after n = Some (engine_at n) ->
  reachable (common := infiltratr_reference) 7 1000 (fun _ => None) (engine_at n).
Proof. intros H. eapply schedule_reachable; [apply reachable_start|exact H]. Qed.

Lemma hard_kill_after_grace_witness :
  In (300000, Kill ByWatchdog 42 SIGKILL true true) (history (engine_at 26)) /\
  exists t0 by_ alive0, In (t0, Kill by_ 42 SIGINT true alive0) (history (engine_at 26)) /\
    t0 + kStopGracePeriod <= 300000.
Proof.
  assert (H : In (300000, Kill ByWatchdog 42 SIGKILL true true) (history (engine_at 26)))
    by (vm_compute; left; reflexivity).
  split; [exact H|]. eapply hard_kill_after_grace; [|exact H]. by apply engine_reachable; vm_compute.
Defined.

Lemma spawns_authorised_witness :
  exists command, In (0, Spawn command 42) (history (engine_at 10)) /\
  exists program arguments, helper_command program arguments 1000 = Value command.
Proof.
  eexists. assert (H : In (0, Spawn (mkCommand kOperationEngine
    ["defrag"; "/dev/sda1"; "--filesystem"; "ext4"; "--write"; "--confirm"; "/dev/sda1"; "--journal";
     "/var/lib/defragmenter/state/1000/a.journal"]%string) 42) (history (engine_at 10)))
    by (vm_compute; left; reflexivity).
  split; [exact H|]. eapply spawns_authorised; [|exact H]. by apply (engine_reachable 10); vm_compute.
Defined.

Lemma worker_signals_own_child_witness :
  In (0, Kill ByQueue 42 SIGINT true true) (history (engine_at 19)) /\ true = true.
Proof.
  assert (H : In (0, Kill ByQueue 42 SIGINT true true) (history (engine_at 19))) by (vm_compute; left; reflexivity).
  split; [exact H|]. eapply worker_signals_own_child; [|exact H|by left].
  by apply engine_reachable; vm_compute.
Defined.


Lemma queued_stop_not_lost_witness :
  pending_stop (active (shared (engine_at 17))) = true /\ pending_stop (active (shared (engine_at 18))) = false /\
  exists id child, worker_thread (engine_at 18) = WStarted id child true \/
    worker_thread (engine_at 18) = WKill id child queued_message true \/ worker_thread (engine_at 18) = WFinish id child.
Proof.
  split; [vm_compute; reflexivity|]. split; [vm_compute; reflexivity|].
  eapply (queued_stop_not_lost 7 1000 (fun _ => None) (WorkerGoes Go) (engine_at 17)).
  - by apply engine_reachable; vm_compute.
  - vm_compute. reflexivity.
  - vm_compute. reflexivity.
  - vm_compute. reflexivity.
Defined.

Lemma helper_ends_clean_witness :
  main_thread (engine_at 38) = MDone 0 /\ owned (shared (engine_at 38)) = [] /\
  worker_running (active (shared (engine_at 38))) = false /\
  worker_thread (engine_at 38) = WNone /\ watchdog_thread (engine_at 38) = DExit.
Proof.
  assert (H : main_thread (engine_at 38) = MDone 0) by (vm_compute; reflexivity).
  split; [exact H|]. eapply helper_ends_clean; [|exact H]. by apply engine_reachable; vm_compute.
Defined.

Lemma run_refused_iff_busy_witness :
  exists id program arguments, main_thread (engine_at 2) = MRun id program arguments /\
  exists y', system_step 7 1000 (fun _ => None) (MainGoes Go) (engine_at 2) = Some y' /\
    main_thread y' = MJoin id program arguments.
Proof.
  eexists _, _, _. assert (H : main_thread (engine_at 2) = MRun 1 "operation-engine"
    ["defrag"; "/dev/sda1"; "--filesystem"; "ext4"; "--write"; "--confirm"; "/dev/sda1"; "--journal";
     "/var/lib/defragmenter/state/1000/a.journal"]) by (vm_compute; reflexivity).
  split; [exact H|]. eapply (run_refused_iff_busy 7 1000 (fun _ => None) (engine_at 2)); [|exact H].
  by apply engine_reachable; vm_compute.
Defined.

(** A stop request may signal a process the helper no longer owns: the target
    is read in the critical section and signalled after it, and a child that ends
    in between is reaped by the worker first, so the number may be another
    process's by then. *)
Theorem stop_may_signal_reaped :
  exists text choices y,
    schedule (common := infiltratr_reference) 7 1000 (fun _ => None) choices (start text) = Some y /\
    In (0, Reap 42) (history y) /\ In (0, Kill ByRequest 42 SIGINT true false) (history y) /\
    owned (shared y) = [].
Proof.
  exists unmount_session, late_stop. eexists. split; [vm_compute; reflexivity|]. cbn. auto.
Qed.
