(* ===== verification/DesktopTransport.v ===== *)
(** The transports of the desktop, [native/desktop_process_session.cpp]: the session
    with the privileged helper and the local analysis process.  Both are objects
    whose asynchronous calls are in flight while the main loop runs; a call is
    completed by a step that says what it answered.  What GLib does (pipes,
    processes, line splitting) is in the answers. *)
From S2P Require Import Prelude CString Infiltratr Exceptions NativeJson HelperPath HelperPolicy HelperProcess.
#[local] Open Scope Z_scope.

(** Once the object is shut down its callbacks are gone: [bound] is whether they
    are there. *)

(** ** Bounded text *)

Definition kLimit : Z := 4096.

Definition drop_bytes (n : Z) (s : string) : string :=
  String.substring (Z.to_nat n) (String.length s - Z.to_nat n) s.

Definition append_bounded (text line : string) : string :=
  let text := (text ++ line)%string in
  if kLimit <? strlen text then drop_bytes (strlen text - kLimit) text else text.

(** ** The local analysis *)

(** A call in flight: a line of one of the two streams (the second carries the
    diagnostics), or the end of the process. *)
Inductive Pending := PendingLine (diagnostics : bool) | PendingWait.

#[export] Instance pending_eq_dec : EqDecision Pending.
Proof. solve_decision. Defined.

Record LocalState := mkLocal {
  local_bound : bool;
  local_process : bool;
  local_detail : string;
  local_waited : bool;
  local_shutting_down : bool;
  local_code : Z;
  local_streams : Z;
  local_pending : list Pending;
}.

Inductive LocalEvent :=
| LocalStarted
| LocalLine (line : string) (diagnostics : bool)
| LocalFinished (code : Z) (detail : string)
| SignalGroup (pid signal : Z)
| SignalProcess (signal : Z).

Definition local_new : LocalState := mkLocal true false EmptyString false false 127 0 [].

Definition local_active (s : LocalState) : bool := local_process s.

(** [spawned] is the message when the process cannot be started. *)
Definition local_start (arguments : list string) (spawned : option string) (s : LocalState) : exc unit * LocalState :=
  if local_active s then (Throw "local analysis process is already active", s)
  else
    match arguments with
    | [] => (Throw "local analysis command is empty", s)
    | _ =>
        match spawned with
        | Some message =>
            (Throw message, mkLocal (local_bound s) false EmptyString false false 127 0 (local_pending s))
        | None =>
            (Value tt, mkLocal (local_bound s) true EmptyString false false 127 2
               (local_pending s ++ [PendingLine false; PendingLine true; PendingWait]))
        end
    end.

Definition finish_if_ready (s : LocalState) : LocalState * list LocalEvent :=
  if negb (local_waited s) || negb (local_streams s =? 0) || negb (local_process s) then (s, [])
  else
    (mkLocal (local_bound s) false (local_detail s) (local_waited s) (local_shutting_down s) (local_code s)
       (local_streams s) (local_pending s),
     if negb (local_shutting_down s) && local_bound s then [LocalFinished (local_code s) (local_detail s)] else []).

(** The process ended; [exited] is its exit status when it exited, [error] what the
    wait reported. *)
Definition local_wait_done (exited : option Z) (error : option string) (s : LocalState) : LocalState * list LocalEvent :=
  finish_if_ready (mkLocal (local_bound s) (local_process s)
    match error with Some message => append_bounded (local_detail s) message | None => local_detail s end
    true (local_shutting_down s) (default 127 exited) (local_streams s) (local_pending s)).

Definition with_detail (text : string) (s : LocalState) : LocalState :=
  mkLocal (local_bound s) (local_process s) text (local_waited s) (local_shutting_down s) (local_code s)
    (local_streams s) (local_pending s).
Definition with_pending_calls (calls : list Pending) (s : LocalState) : LocalState :=
  mkLocal (local_bound s) (local_process s) (local_detail s) (local_waited s) (local_shutting_down s) (local_code s)
    (local_streams s) calls.

Definition local_line_read (diagnostics : bool) (line : string) (s : LocalState) : LocalState * list LocalEvent :=
  let s := if diagnostics
           then with_detail (append_bounded (append_bounded (local_detail s) line) (String LF EmptyString)) s else s in
  (with_pending_calls (local_pending s ++ [PendingLine diagnostics]) s,
   if negb (local_shutting_down s) && local_bound s then [LocalLine line diagnostics] else []).

Definition local_stream_done (error : option string) (s : LocalState) : LocalState * list LocalEvent :=
  finish_if_ready (mkLocal (local_bound s) (local_process s)
    match error with Some message => append_bounded (local_detail s) message | None => local_detail s end
    (local_waited s) (local_shutting_down s) (local_code s)
    (if negb (local_streams s =? 0) then local_streams s - 1 else local_streams s) (local_pending s)).

(** *** Signals *)

Definition INT_MAX : Z := 2147483647.
Definition LONG_MAX : Z := 9223372036854775807.

Fixpoint skip_white (s : string) : string :=
  match s with String c t => if isspace c then skip_white t else s | EmptyString => s end.

(** [strtol] in base ten, for a text that starts with digits or has none: the
    value (saturated), and the rest; a sign is accepted. *)
Definition strtol (s : string) : Z * string :=
  let t := skip_white s in
  let '(negative, body) :=
    match t with
    | String c u => if bool_decide (c = "-"%char) then (true, u) else if bool_decide (c = "+"%char) then (false, u) else (false, t)
    | EmptyString => (false, t)
    end in
  match leading_digits body with
  | (EmptyString, _) => (0, s)
  | (digits, rest) =>
      let n := decimal_value digits in
      (if negative : bool then Z.max (- n) (- LONG_MAX - 1) else Z.min n LONG_MAX, rest)
  end.

Inductive Sent := SentOk | SentGone | SentFails.

(** [identifier] is what GLib says of the process, [sent] what [kill] answered. *)
Definition local_signal (identifier : option string) (sent : Sent) (signal : Z) (s : LocalState) : list LocalEvent :=
  if negb (local_active s) then []
  else
    match identifier with
    | None => [SignalProcess signal]
    | Some text =>
        let '(pid, rest) := strtol text in
        if (0 <? pid) && (pid <=? INT_MAX) && is_empty rest
        then SignalGroup pid signal :: match sent with SentGone => [SignalProcess signal] | _ => [] end
        else [SignalProcess signal]
    end.

Definition local_shutdown (s : LocalState) : LocalState :=
  mkLocal false false (local_detail s) (local_waited s) true (local_code s) (local_streams s) (local_pending s).

(** *** One use of the object *)

Inductive LocalChoice :=
| LStart (arguments : list string) (spawned : option string)
| LLine (diagnostics : bool) (line : string)
| LStreamDone (diagnostics : bool) (error : option string)
| LWaitDone (exited : option Z) (error : option string)
| LSignal (identifier : option string) (sent : Sent) (signal : Z)
| LShutdown.

(** A call in flight answers once. *)
Fixpoint take_call (p : Pending) (calls : list Pending) : option (list Pending) :=
  match calls with
  | [] => None
  | q :: calls => if decide (p = q) then Some calls else cons q <$> take_call p calls
  end.

Definition local_step (c : LocalChoice) (s : LocalState) : option (LocalState * list LocalEvent) :=
  match c with
  | LStart arguments spawned =>
      let '(result, s) := local_start arguments spawned s in
      Some (s, match result with Value _ => [LocalStarted] | Throw _ => [] end)
  | LLine d line => calls ← take_call (PendingLine d) (local_pending s); Some (local_line_read d line (with_pending_calls calls s))
  | LStreamDone d error =>
      calls ← take_call (PendingLine d) (local_pending s); Some (local_stream_done error (with_pending_calls calls s))
  | LWaitDone exited error =>
      calls ← take_call PendingWait (local_pending s); Some (local_wait_done exited error (with_pending_calls calls s))
  | LSignal identifier sent signal => Some (s, local_signal identifier sent signal s)
  | LShutdown => Some (local_shutdown s, [])
  end.

Fixpoint local_run (choices : list LocalChoice) (s : LocalState) : option (LocalState * list LocalEvent) :=
  match choices with
  | [] => Some (s, [])
  | c :: choices =>
      '(s, events) ← local_step c s;
      '(s, later) ← local_run choices s;
      Some (s, (events ++ later)%list)
  end.

(** ** The session with the helper *)

Record HelperSession := mkHelper {
  helper_path : string;
  helper_bound : bool;
  helper_process : bool;
  helper_input : bool;
  helper_shutting_down : bool;
  (** Reads in flight. *)
  helper_reads : nat;
}.

Inductive HelperEvent :=
| HelperStarted
| HelperLine (line : string)
| HelperClosed (detail : string).

Definition helper_new (path : string) : HelperSession := mkHelper path true false false false 0.

Definition helper_active (s : HelperSession) : bool := helper_process s.

Definition read_next (s : HelperSession) : HelperSession :=
  if negb (helper_input s) || helper_shutting_down s then s
  else mkHelper (helper_path s) (helper_bound s) (helper_process s) (helper_input s) (helper_shutting_down s)
         (S (helper_reads s)).

Definition helper_start (spawned : option string) (s : HelperSession) : exc unit * HelperSession :=
  if helper_active s then (Value tt, s)
  else if is_empty (helper_path s) then (Throw "administrator helper path is unavailable", s)
  else
    match spawned with
    | Some message =>
        (Throw message, mkHelper (helper_path s) (helper_bound s) false (helper_input s) false (helper_reads s))
    | None => (Value tt, read_next (mkHelper (helper_path s) (helper_bound s) true true false (helper_reads s)))
    end.

Definition helper_shutdown (s : HelperSession) : HelperSession :=
  mkHelper (helper_path s) false false false true (helper_reads s).

(** [shuts] is whether the callback shuts the session down. *)
Definition helper_line_read (line : string) (shuts : bool) (s : HelperSession) : HelperSession * list HelperEvent :=
  let told := negb (helper_shutting_down s) && helper_bound s in
  (read_next (if told && shuts then helper_shutdown s else s), if told then [HelperLine line] else []).

Definition helper_read_failed (error : option string) (s : HelperSession) : HelperSession * list HelperEvent :=
  (mkHelper (helper_path s) (helper_bound s) false false (helper_shutting_down s) (helper_reads s),
   if negb (helper_shutting_down s) && helper_bound s
   then [HelperClosed (default "administrator session ended" error)] else []).

Section Send.
  Context {common : Infiltratr}.

(** The bytes written, or what is thrown; [failure] is the message when the pipe
    does not take them. *)
Definition helper_send (request : Json) (failure : option string) (s : HelperSession) : exc string :=
  throw_if (negb (helper_active s)) "Administrator helper is unavailable" ≫= fun _ =>
  text ← dump request;
  match failure with Some message => Throw message | None => Value (text ++ String LF EmptyString)%string end.
End Send.

Inductive HelperChoice :=
| HStart (spawned : option string)
| HLine (line : string) (shuts : bool)
| HFailed (error : option string)
| HShutdown.

Definition read_answered (s : HelperSession) : option HelperSession :=
  match helper_reads s with
  | O => None
  | S n => Some (mkHelper (helper_path s) (helper_bound s) (helper_process s) (helper_input s) (helper_shutting_down s) n)
  end.

Definition helper_step (c : HelperChoice) (s : HelperSession) : option (HelperSession * list HelperEvent) :=
  match c with
  | HStart spawned =>
      let '(result, s') := helper_start spawned s in
      Some (s', match result with Value _ => if helper_active s then [] else [HelperStarted] | Throw _ => [] end)
  | HLine line shuts => s ← read_answered s; Some (helper_line_read line shuts s)
  | HFailed error => s ← read_answered s; Some (helper_read_failed error s)
  | HShutdown => Some (helper_shutdown s, [])
  end.

Fixpoint helper_run (choices : list HelperChoice) (s : HelperSession) : option (HelperSession * list HelperEvent) :=
  match choices with
  | [] => Some (s, [])
  | c :: choices =>
      '(s, events) ← helper_step c s;
      '(s, later) ← helper_run choices s;
      Some (s, (events ++ later)%list)
  end.

(** ** The local analysis is reported once *)

Definition is_line (p : Pending) : bool := match p with PendingLine _ => true | PendingWait => false end.
Definition lines (calls : list Pending) : nat := length (List.filter is_line calls).
Definition waits (calls : list Pending) : nat := length (List.filter (fun p => negb (is_line p)) calls).

Definition local_starts (events : list LocalEvent) : nat :=
  length (List.filter (fun e => match e with LocalStarted => true | _ => false end) events).
Definition local_reports (events : list LocalEvent) : nat :=
  length (List.filter (fun e => match e with LocalFinished _ _ => true | _ => false end) events).

Lemma counts_app p q :
  lines (p ++ q) = (lines p + lines q)%nat /\ waits (p ++ q) = (waits p + waits q)%nat.
Proof. unfold lines, waits. by rewrite !List.filter_app, !length_app. Qed.

Lemma events_app p q :
  local_starts (p ++ q) = (local_starts p + local_starts q)%nat /\
  local_reports (p ++ q) = (local_reports p + local_reports q)%nat.
Proof. unfold local_starts, local_reports. by rewrite !List.filter_app, !length_app. Qed.

Lemma take_call_counts p calls calls' :
  take_call p calls = Some calls' ->
  lines calls = ((if is_line p then 1 else 0) + lines calls')%nat /\
  waits calls = ((if is_line p then 0 else 1) + waits calls')%nat.
Proof.
  revert calls'. induction calls as [|q calls IH]; intros calls' H; [done|]. cbn [take_call] in H.
  destruct (decide (p = q)) as [->|_].
  - injection H as <-. unfold lines, waits. cbn. by destruct (is_line q).
  - apply fmap_Some in H as (rest & H & ->). destruct (IH _ H) as [E1 E2]. unfold lines, waits in *. cbn.
    destruct (is_line q), (is_line p); cbn in *; lia.
Qed.

Record local_good (s : LocalState) : Prop := {
  lg_bound : local_bound s = true;
  lg_up : local_shutting_down s = false;
  lg_lines : local_process s = true -> local_streams s = Z.of_nat (lines (local_pending s));
  lg_wait : local_process s = true -> waits (local_pending s) = (if local_waited s then 0 else 1)%nat;
  lg_open : local_process s = true -> local_waited s = true -> local_streams s <> 0;
  lg_idle : local_process s = false -> local_pending s = [];
}.

Lemma counts_nil calls : lines calls = O -> waits calls = O -> calls = [].
Proof. destruct calls as [|[d|] calls]; done. Qed.

(** What is left after a call answered, before the end is looked at. *)
Lemma finish_good s :
  local_bound s = true -> local_shutting_down s = false -> local_process s = true ->
  local_streams s = Z.of_nat (lines (local_pending s)) ->
  waits (local_pending s) = (if local_waited s then 0 else 1)%nat ->
  let '(s', events) := finish_if_ready s in
  local_good s' /\ (local_starts events = 0 /\ local_reports events + (if local_active s' then 1 else 0) = 1)%nat.
Proof.
  intros Hb Hu Hp Hl Hw. unfold finish_if_ready. rewrite Hp, Hb, Hu.
  destruct (local_waited s) eqn:Ew; cbn [negb orb].
  - destruct (Z.eqb_spec (local_streams s) 0) as [E|E]; cbn [negb orb].
    + split; [|done]. split; cbn; try done. intros _. apply counts_nil; [lia|done].
    + split; [|unfold local_active; by rewrite Hp]. split; try done; rewrite ?Ew; try done. congruence.
  - split; [|unfold local_active; by rewrite Hp]. split; try done; rewrite ?Ew; try done. congruence.
Qed.

(** An idle object has no call in flight, so no call can answer. *)
Lemma local_call_active p s calls :
  local_good s -> take_call p (local_pending s) = Some calls -> local_process s = true.
Proof. intros Hg Ht. destruct (local_process s) eqn:E; [done|]. by rewrite (lg_idle s Hg E) in Ht. Qed.

Lemma local_step_good c s s' events :
  local_good s -> c <> LShutdown -> local_step c s = Some (s', events) ->
  local_good s' /\
  (local_starts events + (if local_active s then 1 else 0) = local_reports events + (if local_active s' then 1 else 0))%nat.
Proof.
  intros Hg Hc Hs. pose proof Hg as [Hb Hu Hl Hw Ho Hi]. destruct c as [arguments spawned|d line|d error|exited error|i sent signal|]; cbn [local_step] in Hs; try done.
  - unfold local_start, local_active in *. destruct (local_process s) eqn:E.
    + simplify_eq. by rewrite E.
    + rewrite (Hi eq_refl) in *. destruct arguments as [|x arguments]; [simplify_eq; by rewrite E|].
      destruct spawned; simplify_eq; (split; [|done]); split; try done.
  - apply bind_Some in Hs as (calls & Ht & [= <- <-]). pose proof (local_call_active _ _ _ Hg Ht) as Hp.
    apply take_call_counts in Ht as [E1 E2]. specialize (Hl Hp). specialize (Hw Hp). cbn [is_line] in *.
    assert (L : lines (calls ++ [PendingLine d]) = lines (local_pending s) /\ waits (calls ++ [PendingLine d]) = waits (local_pending s)).
    { destruct (counts_app calls [PendingLine d]) as [-> ->]. unfold lines, waits in *. cbn. lia. }
    unfold local_active. split; [split|]; destruct d; cbn -[lines waits]; rewrite ?Hp, ?Hu, ?Hb, ?(proj1 L), ?(proj2 L); try done; intros _; by apply Ho.
  - apply bind_Some in Hs as (calls & Ht & [= Hs]). pose proof (local_call_active _ _ _ Hg Ht) as Hp.
    apply take_call_counts in Ht as [E1 E2]. specialize (Hl Hp). specialize (Hw Hp). cbn [is_line] in *.
    unfold local_stream_done in Hs. cbn in Hs. rewrite (proj2 (Z.eqb_neq (local_streams s) 0)) in Hs by lia. cbn in Hs.
    match type of Hs with finish_if_ready ?x = _ => pose proof (finish_good x) as F end. cbn -[lines waits] in F.
    rewrite Hs in F. destruct F as (G & -> & F); try done; [lia|lia|]. split; [done|]. unfold local_active at 1. rewrite Hp. lia.
  - apply bind_Some in Hs as (calls & Ht & [= Hs]). pose proof (local_call_active _ _ _ Hg Ht) as Hp.
    apply take_call_counts in Ht as [E1 E2]. specialize (Hl Hp). specialize (Hw Hp). cbn [is_line] in *.
    unfold local_wait_done in Hs. cbn in Hs.
    match type of Hs with finish_if_ready ?x = _ => pose proof (finish_good x) as F end. cbn -[lines waits] in F.
    rewrite Hs in F. destruct F as (G & -> & F); try done; [lia|destruct (local_waited s); lia|].
    split; [done|]. unfold local_active at 1. rewrite Hp. lia.
  - simplify_eq. split; [done|].
    assert (Q : local_starts (local_signal i sent signal s') = 0%nat /\ local_reports (local_signal i sent signal s') = 0%nat).
    { unfold local_signal. destruct (negb _), i; try done. destruct (strtol s) as [pid rest]. destruct (_ && _); [|done].
      by destruct sent. }
    by destruct Q as [-> ->].
Qed.

(** C20: Each run of the local analysis is reported once, and only when it is over:
    whatever the order in which the two streams and the wait answer, and however
    often the object is used, the runs started are those reported and the one
    active; while a run is active a call is in flight, and when it has been
    reported none is. *)
Theorem local_reported_once choices s events :
  local_run choices local_new = Some (s, events) -> Forall (fun c => c <> LShutdown) choices ->
  (local_starts events = local_reports events + (if local_active s then 1 else 0))%nat /\
  (local_active s = false <-> local_pending s = []).
Proof.
  assert (H : forall choices s0 s events, local_good s0 -> local_run choices s0 = Some (s, events) ->
    Forall (fun c => c <> LShutdown) choices ->
    local_good s /\ (local_starts events + (if local_active s0 then 1 else 0) = local_reports events + (if local_active s then 1 else 0))%nat).
  { clear. induction choices as [|c choices IH]; intros s0 s events Hg Hr Hf; cbn [local_run] in Hr; [by simplify_eq|].
    apply bind_Some in Hr as ([s1 e1] & Hs & Hr). apply bind_Some in Hr as ([s2 e2] & Hr & [= <- <-]).
    inversion_clear Hf. destruct (local_step_good _ _ _ _ Hg H Hs) as [G1 E1]. destruct (IH _ _ _ G1 Hr H0) as [G2 E2].
    split; [done|]. destruct (events_app e1 e2) as [-> ->]. lia. }
  intros Hr Hf. destruct (H choices local_new s events) as [Hg E]; [by split|done..|].
  split; [cbn in E; lia|]. unfold local_active. destruct (local_process s) eqn:Ep; [|split; [intros _; by apply (lg_idle s Hg)|done]].
  split; [done|]. intros En. pose proof (lg_lines _ Hg Ep) as Hl. pose proof (lg_wait _ Hg Ep) as Hw. pose proof (lg_open _ Hg Ep) as Ho.
  rewrite En in Hl, Hw. cbn in Hl, Hw. destruct (local_waited s); [|done]. by destruct Ho.
Qed.

(** What a run says after the object is shut down: nothing. *)
Definition is_told (e : LocalEvent) : bool :=
  match e with LocalLine _ _ | LocalFinished _ _ => true | _ => false end.

Lemma local_silent c s s' events :
  local_bound s = false -> local_step c s = Some (s', events) ->
  local_bound s' = false /\ forallb (fun e => negb (is_told e)) events = true.
Proof.
  intros Hb Hs.
  assert (F : forall x, local_bound x = false -> local_bound (fst (finish_if_ready x)) = false /\
    forallb (fun e => negb (is_told e)) (snd (finish_if_ready x)) = true).
  { intros x Hx. unfold finish_if_ready. rewrite Hx, andb_false_r. by destruct (_ || _). }
  destruct c as [arguments spawned|d line|d error|exited error|i sent signal|]; cbn [local_step] in Hs.
  - unfold local_start in Hs. destruct (local_active s), arguments, spawned; by simplify_eq.
  - apply bind_Some in Hs as (calls & _ & [= <- <-]). rewrite andb_comm. destruct d; cbn; by rewrite Hb.
  - apply bind_Some in Hs as (calls & _ & [= Hs]). unfold local_stream_done in Hs.
    match type of Hs with finish_if_ready ?x = _ => destruct (F x) as [F1 F2]; [done|]; by rewrite Hs in F1, F2 end.
  - apply bind_Some in Hs as (calls & _ & [= Hs]). unfold local_wait_done in Hs.
    match type of Hs with finish_if_ready ?x = _ => destruct (F x) as [F1 F2]; [done|]; by rewrite Hs in F1, F2 end.
  - simplify_eq. split; [done|]. unfold local_signal. destruct (negb _), i; try done.
    destruct (strtol s) as [pid rest]. destruct (_ && _); [|done]. by destruct sent.
  - by simplify_eq.
Qed.

(** A local analysis that was shut down calls nothing back: no line and no end
    is told afterwards, whatever its calls in flight answer. *)
Theorem local_shut_down_silent choices s s' events :
  local_run choices (local_shutdown s) = Some (s', events) -> forallb (fun e => negb (is_told e)) events = true.
Proof.
  assert (H : forall choices s s' events, local_bound s = false -> local_run choices s = Some (s', events) ->
    forallb (fun e => negb (is_told e)) events = true).
  { clear. induction choices as [|c choices IH]; intros s s' events Hb Hr; cbn [local_run] in Hr; [by simplify_eq|].
    apply bind_Some in Hr as ([s1 e1] & Hs & Hr). apply bind_Some in Hr as ([s2 e2] & Hr & [= <- <-]).
    destruct (local_silent _ _ _ _ Hb Hs) as [Hb1 H1]. rewrite forallb_app, H1. by eapply IH. }
  by apply H.
Qed.

(** ** The session is closed once *)

Definition helper_starts (events : list HelperEvent) : nat :=
  length (List.filter (fun e => match e with HelperStarted => true | _ => false end) events).
Definition helper_ends (events : list HelperEvent) : nat :=
  length (List.filter (fun e => match e with HelperClosed _ => true | _ => false end) events).

(** While nothing is shut down. *)
Definition helper_good (s : HelperSession) : Prop :=
  helper_bound s = true /\ helper_shutting_down s = false /\ helper_input s = helper_process s /\
  helper_reads s = (if helper_process s then 1 else 0)%nat.

Definition shuts_down (c : HelperChoice) : bool :=
  match c with HShutdown => true | HLine _ shuts => shuts | _ => false end.

Lemma helper_step_good c s s' events :
  helper_good s -> shuts_down c = false -> helper_step c s = Some (s', events) ->
  helper_good s' /\
  (helper_starts events + (if helper_active s then 1 else 0) = helper_ends events + (if helper_active s' then 1 else 0))%nat.
Proof.
  intros (Hb & Hu & Hi & Hr) Hc Hs. unfold helper_active.
  destruct c as [spawned|line shuts|error|]; cbn [helper_step] in Hs; try done.
  - unfold helper_start, helper_active in Hs. destruct (helper_process s) eqn:Ep;
      [simplify_eq; split; [by repeat split; rewrite ?Ep|by rewrite Ep]|].
    destruct (is_empty _); [simplify_eq; split; [by repeat split; rewrite ?Ep|by rewrite Ep]|].
    destruct spawned; simplify_eq; (split; [|done]); repeat split; try done; cbn. by rewrite Hr.
  - apply bind_Some in Hs as (s1 & Hr1 & [= <- <-]). unfold read_answered in Hr1.
    destruct (helper_process s) eqn:Ep; rewrite Hr in Hr1; [|done]. injection Hr1 as <-. cbn in Hc. subst shuts.
    unfold helper_line_read, read_next. unfold helper_good. cbn. rewrite ?Hu, ?Hb, ?Hi. cbn. rewrite ?Hu, ?Hb, ?Hi. by repeat split.
  - apply bind_Some in Hs as (s1 & Hr1 & [= <- <-]). unfold read_answered in Hr1.
    destruct (helper_process s) eqn:Ep; rewrite Hr in Hr1; [|done]. injection Hr1 as <-. cbn.
    rewrite Hu, Hb. cbn. split; [|done]. by repeat split.
Qed.

(** Each session with the helper is closed once: as long as the desktop does
    not shut it down, the sessions started are those reported closed and the one
    that is open, and an open session always waits for a line. *)
Theorem session_closed_once path choices s events :
  helper_run choices (helper_new path) = Some (s, events) -> forallb (fun c => negb (shuts_down c)) choices = true ->
  (helper_starts events = helper_ends events + (if helper_active s then 1 else 0))%nat /\
  helper_reads s = (if helper_active s then 1 else 0)%nat.
Proof.
  assert (H : forall choices s0 s events, helper_good s0 -> helper_run choices s0 = Some (s, events) ->
    forallb (fun c => negb (shuts_down c)) choices = true -> helper_good s /\
    (helper_starts events + (if helper_active s0 then 1 else 0) = helper_ends events + (if helper_active s then 1 else 0))%nat).
  { clear. induction choices as [|c choices IH]; intros s0 s events Hg Hr Hf; cbn [helper_run] in Hr; [by simplify_eq|].
    apply bind_Some in Hr as ([s1 e1] & Hs & Hr). apply bind_Some in Hr as ([s2 e2] & Hr & [= <- <-]).
    cbn [forallb] in Hf. apply andb_true_iff in Hf as [Hf1 Hf]. apply negb_true_iff in Hf1.
    destruct (helper_step_good _ _ _ _ Hg Hf1 Hs) as [G1 E1]. destruct (IH _ _ _ G1 Hr Hf) as [G2 E2].
    split; [done|]. unfold helper_starts, helper_ends in *. rewrite !List.filter_app, !length_app. lia. }
  intros Hr Hf. destruct (H choices (helper_new path) s events) as [(_ & _ & _ & Hg) E]; [by repeat split|done..|].
  split; [cbn in E; lia|done].
Qed.

(** ** A request is one line *)

Lemma digits_one_line ds : digits ds -> has_char LF ds = false.
Proof. intros [_ H]. by apply (forall_char_has _ _ _ H). Qed.

Lemma number_one_line t : number_grammar t -> has_char LF t = false.
Proof.
  intros [m i f e [-> | ->] Hi Hf He]; rewrite ?has_char_app.
  all: assert (Ei : has_char LF i = false)
    by (destruct Hi as [->|(d & ds & -> & Hd & H)]; [done|]; cbn [has_char];
        destruct (ascii_dec d LF) as [->|_]; [by destruct Hd as [Hd _]; vm_compute in Hd|by apply (forall_char_has _ _ _ H)]).
  all: assert (Ef : has_char LF f = false)
    by (destruct Hf as [->|(ds & -> & H)]; [done|]; cbn; by apply digits_one_line).
  all: assert (Ee : has_char LF e = false)
    by (destruct He as [->|(x & sign & ds & -> & Hx & Hs & H)]; [done|]; cbn [has_char];
        destruct (ascii_dec x LF) as [->|_]; [done|]; rewrite has_char_app, (digits_one_line _ H);
        destruct Hs as [->|[-> | ->]]; done).
  all: by rewrite Ei, Ef, Ee.
Qed.

Lemma hex4_one_line h u : hex4 h u -> has_char LF h = false.
Proof.
  intros [a b c d Ha Hb Hc Hd]. cbn [has_char].
  assert (N : forall x, isxdigit x = true -> x <> LF) by (intros x Hx ->; done).
  destruct (ascii_dec a LF); [by destruct (N a)|]. destruct (ascii_dec b LF); [by destruct (N b)|].
  destruct (ascii_dec c LF); [by destruct (N c)|]. by destruct (ascii_dec d LF); [destruct (N d)|].
Qed.

Lemma json_text_one_line utf8 e s : json_text utf8 e s -> has_char LF e = false.
Proof.
  induction 1 as [|c e s Hc _ _ _ IH|x c e s Hx _ IH|h u t e s Hh _ _ _ _ IH|h u l v t e s Hh _ Hl _ _ _ IH]; [done| | | |].
  - cbn [has_char]. destruct (ascii_dec c LF) as [->|_]; [by vm_compute in Hc|done].
  - cbn [has_char]. destruct (ascii_dec BACKSLASH LF) as [E|_]; [done|]. destruct (ascii_dec x LF) as [->|_]; [by vm_compute in Hx|done].
  - cbn [has_char append]. destruct (ascii_dec BACKSLASH LF) as [E|_]; [done|]. destruct (ascii_dec "u" LF) as [E|_]; [done|].
    by rewrite has_char_app, (hex4_one_line _ _ Hh).
  - cbn [has_char append]. destruct (ascii_dec BACKSLASH LF) as [E|_]; [done|]. destruct (ascii_dec "u" LF) as [E|_]; [done|].
    rewrite has_char_app, (hex4_one_line _ _ Hh). cbn [has_char append orb].
    destruct (ascii_dec BACKSLASH LF) as [E|_]; [done|]. destruct (ascii_dec "u" LF) as [E|_]; [done|].
    by rewrite has_char_app, (hex4_one_line _ _ Hl).
Qed.

Section OneLine.
  Context {common : Infiltratr} {L : InfiltratrLaws common}.

Lemma quoted_one_line s t : has_char NUL s = false -> quoted s = Value t -> has_char LF t = false.
Proof.
  intros Hs. unfold quoted. rewrite (cut_nul_none _ Hs).
  destruct (infiltratr_escape_json s) as [e|] eqn:E; [|done]. intros [= <-].
  apply (escape_json_spec _ _ Hs) in E. apply json_text_one_line in E. cbn [has_char].
  destruct (ascii_dec QUOTE LF); [done|]. by rewrite has_char_app, E.
Qed.

Lemma comma_one_line ts : Forall (fun t => has_char LF t = false) ts -> has_char LF (comma_separated ts) = false.
Proof.
  induction 1 as [|t ts Ht Hts IH]; [done|]. destruct ts as [|t' ts]; [done|].
  rewrite comma_separated_cons by done. by rewrite has_char_app, Ht.
Qed.

(** Printed JSON is one line. *)
Lemma dump_one_line v : printable v = true -> forall t, dump v = Value t -> has_char LF t = false.
Proof.
  induction v as [|b|text|s|values IH|members IH] using Json_induction; intros Hp t Hd.
  - by injection Hd as <-.
  - injection Hd as <-. by destruct b.
  - injection Hd as <-. cbn in Hp. destruct (number text) eqn:E; [|done]. apply number_value in E as [_ Hg].
    by apply number_one_line.
  - cbn in Hp. apply negb_true_iff in Hp. by eapply quoted_one_line.
  - rewrite dump_array in Hd. apply bind_value in Hd as (ts & Hts & [= <-]). apply mapM_value in Hts.
    cbn in Hp. rewrite forallb_forall in Hp. cbn [has_char append]. destruct (ascii_dec _ LF) as [E|_]; [done|].
    rewrite has_char_app, comma_one_line; [done|].
    rewrite List.Forall_forall in IH. clear - Hts Hp IH. induction Hts as [|v t values ts Hv Hts IHt]; constructor.
    + apply (IH v (or_introl eq_refl) (Hp v (or_introl eq_refl)) t Hv).
    + apply IHt; [intros x Hx; apply IH|intros x Hx; apply Hp]; by right.
  - rewrite dump_object in Hd. apply bind_value in Hd as (ts & Hts & [= <-]). apply mapM_value in Hts.
    cbn in Hp. rewrite forallb_forall in Hp. cbn [has_char append]. destruct (ascii_dec _ LF) as [E|_]; [done|].
    rewrite has_char_app, comma_one_line; [done|].
    rewrite List.Forall_forall in IH. clear - Hts Hp IH L.
    induction Hts as [|[k v] t members ts Hm Hts IHt]; constructor.
    + unfold dump_member in Hm. apply bind_value in Hm as (key & Hk & Hm). apply bind_value in Hm as (tv & Hv & [= <-]).
      specialize (Hp (k, v) (or_introl eq_refl)). apply andb_true_iff in Hp as [Hp1 Hp2]. apply negb_true_iff in Hp1.
      rewrite !has_char_app, (quoted_one_line _ _ Hp1 Hk). cbn. by eapply (IH (k, v)); [left| |].
    + apply IHt; [intros x Hx; apply IH|intros x Hx; apply Hp]; by right.
Qed.

(** A printed message and the end of its line, as the helper reads them. *)
Lemma line_is_read message line rest :
  well_formed message = true -> printable message = true -> (depth message <= 64)%nat ->
  dump message = Value line -> strlen line <= kMaxRequestBytes ->
  read_request_line EmptyString ((line ++ String LF EmptyString) ++ rest) = (LineOk, line, rest) /\
  parse line = Value message.
Proof.
  intros Hw Hp Hd Hdump Hl. split.
  - rewrite append_assoc. cbn [append].
    rewrite (read_request_line_from EmptyString _ _ (dump_one_line _ Hp _ Hdump)) by (vm_compute; discriminate).
    cbn [append]. by rewrite (proj2 (Z.leb_le _ _)) by lia.
  - apply (canonical_read message); [done..|]. by apply canonical_id.
Qed.

(** The desktop and the helper agree on the protocol: what the desktop sends is
    one line, which the helper reads whole, whatever follows it, and reads as the
    message that was sent, when the message is well formed and its line is within
    the helper's limit. *)
Theorem sent_request_is_read message bytes s rest :
  well_formed message = true -> printable message = true -> (depth message <= 64)%nat ->
  helper_send message None s = Value bytes -> strlen bytes <= kMaxRequestBytes + 1 ->
  exists line, read_request_line EmptyString (bytes ++ rest) = (LineOk, line, rest) /\
    parse line = Value message.
Proof.
  intros Hw Hp Hd Hs Hl. unfold helper_send in Hs. apply guard_value in Hs as [_ Hs].
  apply bind_value in Hs as (line & Hdump & [= <-]). exists line.
  rewrite strlen_app in Hl. change (strlen (String LF EmptyString)) with 1 in Hl. apply line_is_read; [done..|lia].
Qed.
End OneLine.

(** ** Bounded details *)

Lemma drop_bytes_app a b : drop_bytes (strlen a) (a ++ b) = b.
Proof.
  pose proof (strlen_app a b) as E. unfold drop_bytes, strlen in *. rewrite Nat2Z.id.
  replace (String.length (a ++ b) - String.length a)%nat with (String.length b) by lia.
  apply substring_after.
Qed.

Lemma split_at n (s : string) : 0 <= n <= strlen s -> exists a b, s = (a ++ b)%string /\ strlen a = n.
Proof.
  unfold strlen. revert n. induction s as [|c s IH]; intros n Hn; cbn in Hn.
  - exists EmptyString, EmptyString. split; [done|cbn; lia].
  - destruct (Z.eq_dec n 0) as [->|]; [by exists EmptyString, (String c s)|].
    destruct (IH (n - 1)) as (a & b & -> & Ha); [lia|]. exists (String c a), b. split; [done|]. cbn. lia.
Qed.

(** What is kept is the end of the text, up to 4,096 bytes. *)
Lemma append_bounded_tail text line :
  exists dropped, (text ++ line = dropped ++ append_bounded text line)%string /\
    strlen (append_bounded text line) = Z.min kLimit (strlen (text ++ line)).
Proof.
  unfold append_bounded. destruct (Z.ltb_spec kLimit (strlen (text ++ line))) as [H|H].
  - destruct (split_at (strlen (text ++ line) - kLimit) (text ++ line)) as (a & b & E & Ha); [unfold kLimit in *; lia|].
    exists a. rewrite <- Ha, E, drop_bytes_app. split; [done|]. rewrite E in Ha, H. rewrite strlen_app in *. lia.
  - exists EmptyString. split; [done|]. lia.
Qed.

(** What a failed analysis reports is the end of its diagnostics: the lines
    appended to the detail one by one leave the last 4,096 bytes of their
    concatenation, or all of it when it is shorter. *)
Theorem detail_is_tail parts :
  let whole := String.concat EmptyString parts in
  let detail := fold_left append_bounded parts EmptyString in
  exists dropped, whole = (dropped ++ detail)%string /\ strlen detail = Z.min kLimit (strlen whole).
Proof.
  cbv zeta.
  assert (H : forall parts text before, strlen text = Z.min kLimit (strlen (before ++ text)) ->
    exists dropped, ((before ++ text) ++ String.concat EmptyString parts = dropped ++ fold_left append_bounded parts text)%string /\
      strlen (fold_left append_bounded parts text) = Z.min kLimit (strlen ((before ++ text) ++ String.concat EmptyString parts))).
  { clear. induction parts as [|line parts IH]; intros text before Ht.
    - exists before. cbn. by rewrite append_nil_r.
    - destruct (append_bounded_tail text line) as (dropped & E & El).
      destruct (IH (append_bounded text line) (before ++ dropped)%string) as (d & Ed & Hd).
      + rewrite El, append_assoc, <- E, !strlen_app in *.
        pose proof (strlen_nonneg line). pose proof (strlen_nonneg before). lia.
      + exists d. assert (W : ((before ++ text) ++ String.concat "" (line :: parts) =
          ((before ++ dropped) ++ append_bounded text line) ++ String.concat "" parts)%string).
        { rewrite (append_assoc before dropped), <- E, !append_assoc. do 2 f_equal.
          destruct parts; cbn; [by rewrite append_nil_r|done]. }
        rewrite W. by split. }
  destruct (H parts EmptyString EmptyString) as (d & E & Ed); [done|]. by exists d.
Qed.

(** A signal to the analysis goes to its process group: when GLib names the
    process by its number, the group of that number is signalled, and the process
    itself only when the group is gone. *)
Theorem signal_reaches_group pid sent signal s :
  0 < pid <= INT_MAX -> local_active s = true ->
  local_signal (Some (utoa pid)) sent signal s =
    SignalGroup pid signal :: match sent with SentGone => [SignalProcess signal] | _ => [] end.
Proof.
  intros Hp Ha. unfold local_signal. rewrite Ha. cbn [negb].
  assert (E : strtol (utoa pid) = (pid, EmptyString)).
  { unfold strtol. pose proof (leading_digits_utoa pid) as Hl. pose proof (decimal_value_utoa pid) as Hv.
    destruct (utoa pid) as [|c u] eqn:Eu; [by cbn in Hv; lia|].
    assert (Hc : isdigit c = true).
    { pose proof (utoa_digits pid) as Hd. rewrite Eu in Hd. cbn in Hd. by apply andb_true_iff in Hd as [? _]. }
    assert (W : skip_white (String c u) = String c u).
    { cbn [skip_white]. destruct (isspace c) eqn:Es; [|done]. by destruct c as [[] [] [] [] [] [] [] []]. }
    rewrite W. rewrite !bool_decide_false by (intros ->; done). rewrite Hl, Hv by lia.
    f_equal. unfold LONG_MAX, INT_MAX in *. lia. }
  rewrite E. rewrite (proj2 (Z.ltb_lt 0 pid)), (proj2 (Z.leb_le pid INT_MAX)) by lia. done.
Qed.

(** ** Instances *)

Definition one_analysis : list LocalChoice :=
  [LStart ["mapper"%string] None; LLine true "reading"; LStreamDone false None; LWaitDone (Some 0) None;
   LLine true "done"; LStreamDone true None].

Definition ended_analysis : LocalState * list LocalEvent := default (local_new, []) (local_run one_analysis local_new).

Lemma local_reported_once_witness :
  local_reports (snd ended_analysis) = 1%nat /\
  local_starts (snd ended_analysis) = (local_reports (snd ended_analysis) + 0)%nat.
Proof.
  split; [vm_compute; reflexivity|]. apply (local_reported_once one_analysis (fst ended_analysis) (snd ended_analysis)); [vm_compute; reflexivity|].
  repeat constructor; discriminate.
Defined.

Lemma local_shut_down_silent_witness :
  exists s' events, local_run [LStreamDone true None; LLine false "late"; LWaitDone None None]
    (local_shutdown (snd (local_start ["mapper"%string] None local_new))) = Some (s', events) /\
  forallb (fun e => negb (is_told e)) events = true.
Proof.
  eexists _, _. split; [vm_compute; reflexivity|].
  eapply (local_shut_down_silent [LStreamDone true None; LLine false "late"%string; LWaitDone None None]
    (snd (local_start ["mapper"%string] None local_new))). vm_compute. reflexivity.
Defined.

Lemma session_closed_once_witness :
  exists s events, helper_run [HStart None; HLine "{}" false; HFailed None] (helper_new "/helper") = Some (s, events) /\
  (helper_starts events = helper_ends events + (if helper_active s then 1 else 0))%nat.
Proof.
  eexists _, _. split; [vm_compute; reflexivity|].
  eapply (session_closed_once "/helper"%string [HStart None; HLine "{}"%string false; HFailed None]); vm_compute; reflexivity.
Defined.

Definition ping : Json := JObject [("action", JString "ping"); ("id", integer 7)]%string.

Definition open_session : HelperSession := snd (helper_start None (helper_new "/helper")).

Definition ping_line : string := value_or (helper_send (common := infiltratr_reference) ping None open_session) EmptyString.

Lemma sent_request_is_read_witness :
  helper_send (common := infiltratr_reference) ping None open_session = Value ping_line /\
  exists line, read_request_line EmptyString (ping_line ++ "rest") = (LineOk, line, "rest"%string) /\
    parse (common := infiltratr_reference) line = Value ping.
Proof.
  assert (H : helper_send (common := infiltratr_reference) ping None open_session = Value ping_line)
    by (vm_compute; reflexivity).
  split; [exact H|]. apply (sent_request_is_read (L := infiltratr_reference_laws) ping ping_line open_session "rest");
    [reflexivity|vm_compute; reflexivity|cbn; lia|exact H|vm_compute; discriminate].
Defined.

Lemma signal_reaches_group_witness :
  0 < 42 <= INT_MAX /\
  local_signal (Some (utoa 42)) SentOk 2 (snd (local_start ["mapper"%string] None local_new)) = [SignalGroup 42 2].
Proof. split; [done|]. by apply signal_reaches_group. Defined.
