(* ===== verification/DesktopSession.v ===== *)
(** The operations of the desktop, the class [Desktop] of [native/desktop.cpp]: one
    step per callback of the main loop.  What is drawn and logged is left out; what
    decides (the volumes and their qualifications, the operation in progress, the
    requests sent, the dialogs) is here.  A dialog runs the main loop inside the
    function that raised it: it is a frame that holds what is left of that function,
    and the steps taken before it is answered are nested ones. *)
From S2P Require Import Prelude CString Infiltratr Exceptions NativeJson Runtime HelperPath HelperPolicy DesktopPolicy.
From S2P Require Import AllocationMap LiveMap DesktopTransport.
#[local] Open Scope Z_scope.

(** ** Texts and numbers of a message *)

Definition field (data : Json) (key : string) : string :=
  match find key data with Some (JString s) => cut_nul s | _ => EmptyString end.

(** [static_cast<int>] of a 64-bit number. *)
Definition int_of (x : Z) : Z :=
  let low := x mod 4294967296 in if low <? 2147483648 then low else low - 4294967296.

Fixpoint strip_newlines (s : string) : string :=
  match s with
  | EmptyString => EmptyString
  | String c t =>
      let r := strip_newlines t in
      if is_empty r && (bool_decide (c = LF) || bool_decide (c = CR)) then EmptyString else String c r
  end.

Definition kMaxFailureDetail : Z := 4096.

Definition failure_detail (output : string) : string :=
  let detail := strip_newlines output in
  if kMaxFailureDetail <? strlen detail then drop_bytes (strlen detail - kMaxFailureDetail) detail else detail.

Definition SIGINT_number : Z := 2.
Definition SIGKILL_number : Z := 9.

(** ** State *)

(** The volumes and the map shown.  [storage] changes whenever the elements of
    [volumes_] may move, so that a pointer to one is dangling. *)
Record Shown := mkShown {
  volumes : list DesktopVolume;
  storage : nat;
  selection : option nat;
  map_data : Json;
  cells : list Json;
}.

Record Task := mkTask {
  purpose : string;
  pending_program : string;
  pending_args : list string;
  output : string;
  result_status : string;
}.

Record Flags := mkFlags {
  helper_ready : bool;
  busy : bool;
  stopping : bool;
  closing : bool;
  discovering : bool;
  probing : bool;
  (** The idle call of a new selection, and the timer of a local stop. *)
  selection_pending : bool;
  stop_timer : bool;
  window : bool;
}.

(** What a function still does once a dialog it raised is closed.  After the message
    of a failure [completed] looks at the result once more; it can have become
    [stopped] only by a request to close, and then nothing is analysed again. *)
Inductive Rest :=
| RClose
| RStatus
| RReadNext
| RDiscovered
| RProbed.

(** What a confirmation starts. *)
Inductive Accepted :=
| AcceptMutation (operation : string) (arguments : list string)
| AcceptUnmount (storage : nat) (index : nat)
| AcceptImage.

Record Frame := mkFrame {
  on_accept : option Accepted;
  rests : list Rest;
}.

Record Desktop := mkDesktop {
  shown : Shown;
  task : Task;
  flags : Flags;
  helper : HelperSession;
  analysis : LocalState;
  request_id : Z;
  active_id : Z;
  refresh_selected_path : string;
  dialogs : list Frame;
}.

Definition set_shown (x : Shown) (s : Desktop) : Desktop :=
  mkDesktop x (task s) (flags s) (helper s) (analysis s) (request_id s) (active_id s) (refresh_selected_path s) (dialogs s).
Definition set_task (x : Task) (s : Desktop) : Desktop :=
  mkDesktop (shown s) x (flags s) (helper s) (analysis s) (request_id s) (active_id s) (refresh_selected_path s) (dialogs s).
Definition set_flags (x : Flags) (s : Desktop) : Desktop :=
  mkDesktop (shown s) (task s) x (helper s) (analysis s) (request_id s) (active_id s) (refresh_selected_path s) (dialogs s).
Definition set_helper (x : HelperSession) (s : Desktop) : Desktop :=
  mkDesktop (shown s) (task s) (flags s) x (analysis s) (request_id s) (active_id s) (refresh_selected_path s) (dialogs s).
Definition set_analysis (x : LocalState) (s : Desktop) : Desktop :=
  mkDesktop (shown s) (task s) (flags s) (helper s) x (request_id s) (active_id s) (refresh_selected_path s) (dialogs s).
Definition set_ids (request active : Z) (s : Desktop) : Desktop :=
  mkDesktop (shown s) (task s) (flags s) (helper s) (analysis s) request active (refresh_selected_path s) (dialogs s).
Definition set_refresh_path (x : string) (s : Desktop) : Desktop :=
  mkDesktop (shown s) (task s) (flags s) (helper s) (analysis s) (request_id s) (active_id s) x (dialogs s).
Definition set_dialogs (x : list Frame) (s : Desktop) : Desktop :=
  mkDesktop (shown s) (task s) (flags s) (helper s) (analysis s) (request_id s) (active_id s) (refresh_selected_path s) x.

Definition set_ready (b : bool) (f : Flags) : Flags :=
  mkFlags b (busy f) (stopping f) (closing f) (discovering f) (probing f) (selection_pending f) (stop_timer f) (window f).
Definition set_busy (b stop : bool) (f : Flags) : Flags :=
  mkFlags (helper_ready f) b stop (closing f) (discovering f) (probing f) (selection_pending f) (stop_timer f) (window f).
Definition set_stopping (b : bool) (f : Flags) : Flags := set_busy (busy f) b f.
Definition set_closing (f : Flags) : Flags :=
  mkFlags (helper_ready f) (busy f) (stopping f) true (discovering f) (probing f) (selection_pending f) (stop_timer f) (window f).
Definition set_discovering (b : bool) (f : Flags) : Flags :=
  mkFlags (helper_ready f) (busy f) (stopping f) (closing f) b (probing f) (selection_pending f) (stop_timer f) (window f).
Definition set_probing (b : bool) (f : Flags) : Flags :=
  mkFlags (helper_ready f) (busy f) (stopping f) (closing f) (discovering f) b (selection_pending f) (stop_timer f) (window f).
Definition set_selection_pending (b : bool) (f : Flags) : Flags :=
  mkFlags (helper_ready f) (busy f) (stopping f) (closing f) (discovering f) (probing f) b (stop_timer f) (window f).
Definition set_stop_timer (b : bool) (f : Flags) : Flags :=
  mkFlags (helper_ready f) (busy f) (stopping f) (closing f) (discovering f) (probing f) (selection_pending f) b (window f).
Definition no_window (f : Flags) : Flags :=
  mkFlags (helper_ready f) (busy f) (stopping f) (closing f) (discovering f) (probing f) (selection_pending f) (stop_timer f) false.

Definition set_result (status : string) (s : Desktop) : Desktop :=
  let t := task s in set_task (mkTask (purpose t) (pending_program t) (pending_args t) (output t) status) s.
Definition add_output (line : string) (s : Desktop) : Desktop :=
  let t := task s in
  set_task (mkTask (purpose t) (pending_program t) (pending_args t) (output t ++ line ++ String LF EmptyString)%string
    (result_status t)) s.

(** The member initialisers, with the path of the helper. *)
Definition new_desktop (helper_path : string) : Desktop :=
  mkDesktop (mkShown [] 0 None JNull []) (mkTask EmptyString EmptyString [] EmptyString EmptyString)
    (mkFlags false false false false false false false false true) (helper_new helper_path) local_new 0 0 EmptyString [].

(** ** What the desktop does to the outside, and what it answers *)

Inductive Act :=
| ASubmitted (id : Z)
| ASend (request : Json) (bytes : string)
| AStarted (arguments : list string)
| ASignal (e : LocalEvent)
(** The end of an operation: the id of the request it had. *)
| ADone (id : Z)
(** A map is put on the screen, for the volume of that path. *)
| APresented (path : string) (map : Json)
| AStatus (text : string)
| AAsked (operation : string) (v : DesktopVolume) (arguments : list string)
| AAskedUnmount (v : DesktopVolume)
| AAskedImage
| AAccepted (operation : string) (arguments : list string)
| AError (title text : string)
| AUseAfterFree
| AQuit.

(** What one step finds outside: the state of the files, the spawns (a message
    when they fail), the pipe, the process of the analysis and the canvas. *)
Record World := mkWorld {
  executable_deleted : bool;
  readable : string -> bool;
  present : string -> bool;
  send_failure : option string;
  helper_spawn : option string;
  local_spawn : option string;
  lsblk_spawn : option string;
  probe_spawn : option string;
  process_name : option string;
  kill_answer : Sent;
  map_cells : Z;
}.

(** A function of the class: the state it leaves and what it did. *)
Definition Handler := Desktop -> Desktop * list Act.

Definition skip : Handler := fun s => (s, []).

Definition and_then (f g : Handler) : Handler := fun s =>
  let '(s, a) := f s in let '(s, b) := g s in (s, (a ++ b)%list).

Definition error (title text : string) : Handler := fun s =>
  (set_dialogs (mkFrame None [] :: dialogs s) s, [AError title text]).

Definition ask (accepted : Accepted) (act : Act) : Handler := fun s =>
  (set_dialogs (mkFrame (Some accepted) [] :: dialogs s) s, [act]).

Definition current (s : Desktop) : option DesktopVolume :=
  match selection (shown s) with Some index => nth_error (volumes (shown s)) index | None => None end.

Definition closes : Handler := fun s =>
  if closing (flags s) && negb (busy (flags s)) then (set_flags (no_window (flags s)) s, [AQuit]) else (s, []).

Definition maybe_finish_close : Handler := fun s =>
  let f := flags s in
  if closing f && negb (busy f) && negb (discovering f) && negb (probing f)
  then (set_flags (no_window f) s, [AQuit]) else (s, []).

Definition is_success (code : Z) (result : string) : bool :=
  (code =? 0) && negb (String.eqb result "failed") && negb (String.eqb result "stopped").

Definition final_status (code : Z) (result : string) : string :=
  if is_success code result then (if String.eqb result "not-needed" then "No changes needed" else "Completed")
  else if String.eqb result "stopped" then "Stopped safely" else "Operation failed".

Definition run_rest (r : Rest) : Handler := fun s =>
  match r with
  | RClose => closes s
  | RStatus => (s, [AStatus (final_status 0 (result_status (task s)))])
  | RReadNext => (set_helper (read_next (helper s)) s, [])
  | RDiscovered => maybe_finish_close (set_flags (set_discovering false (flags s)) s)
  | RProbed => maybe_finish_close (set_flags (set_probing false (flags s)) s)
  end.

(** [f], then what is left: at once, or once the dialog [f] raised is closed. *)
Definition then_rest (f : Handler) (r : Rest) : Handler := fun s =>
  let '(s', a) := f s in
  match dialogs s' with
  | top :: below =>
      if Nat.ltb (length (dialogs s)) (length (dialogs s'))
      then (set_dialogs (mkFrame (on_accept top) (rests top ++ [r]) :: below) s', a)
      else let '(s', b) := run_rest r s' in (s', (a ++ b)%list)
  | [] => let '(s', b) := run_rest r s' in (s', (a ++ b)%list)
  end.

Definition then_rests (f : Handler) (rs : list Rest) : Handler := fold_left then_rest rs f.

Section Session.
  Context {common : Infiltratr} {digest : Sha256} {rounding : Rounding}.
  (** [getuid] and the paths of the mapper and the engine. *)
  Variable uid : Z.
  Variable mapper engine : string.

(** ** The allocation map *)

(** The loop over the cells: the end of the one before. *)
Fixpoint cells_in_order (before : option Z) (cells : list Json) : bool :=
  match cells with
  | [] => true
  | cell :: cells =>
      is_object cell && (number cell "start" <=? number cell "end") &&
      match before with Some last => last <? number cell "start" | None => true end &&
      cells_in_order (Some (number cell "end")) cells
  end.

(** The volume after its map: [desktop_verify_identity], then the qualifications. *)
Definition qualified_volume (v : DesktopVolume) (map : Json) : exc DesktopVolume :=
  v ← desktop_verify_identity v (field map "filesystem");
  let accuracy := field map "map_accuracy" in
  let exact := negb (is_empty accuracy) && negb (String.eqb accuracy "summary") && (number map "unknown_bytes" =? 0) in
  let qualified key := exact && match find key map with Some q => bool_or false q | None => false end in
  Value (mkVolume (path v) (filesystem v) (label v) (filesystem_uuid v) (partition_uuid v) (serial v) (wwn v) (size v)
    (start_sector v) (mounted v) (readonly v) (image v) (verified v) exact (qualified "defrag_qualified")
    (qualified "growth_qualified") (field map "defrag_reason") (field map "growth_reason")).

Definition present_map (map : Json) (s : Desktop) : exc (Desktop * list Act) :=
  match find "cells" map with
  | Some (JArray raw) =>
      throw_if (match raw with [] => true | _ => false end || (1048576 <? Z.of_nat (length raw)) ||
                negb (number map "cell_count" =? Z.of_nat (length raw)) || (number map "total_units" =? 0))
        "Missing or inconsistent allocation cells" ≫= fun _ =>
      throw_if (negb (cells_in_order None raw)) "Allocation cells overlap or are out of order" ≫= fun _ =>
      match selection (shown s), current s with
      | Some index, Some v =>
          v ← qualified_volume v map;
          Value (set_shown (mkShown (<[index := v]> (volumes (shown s))) (storage (shown s)) (selection (shown s)) map raw) s,
                 [APresented (path v) map])
      | _, _ => Value (s, [])
      end
  | _ => Throw "Missing or inconsistent allocation cells"
  end.

(** ** Discovery *)

(** [refresh] before its dialog: the message when lsblk cannot be started. *)
Definition start_discovery (w : World) (s : Desktop) : Desktop * option string :=
  let f := flags s in
  if busy f || discovering f || probing f then (s, None)
  else
    let s := set_refresh_path match current s with Some v => path v | None => EmptyString end s in
    match lsblk_spawn w with
    | Some message => (s, Some message)
    | None => (set_flags (set_discovering true f) s, None)
    end.

Definition refresh (w : World) : Handler := fun s =>
  match start_discovery w s with
  | (s, Some message) => error "Unable to discover volumes" message s
  | (s, None) => (s, [])
  end.

(** ** The end of an operation *)

Definition is_mutation (purpose : string) : bool :=
  String.eqb purpose "defrag" || String.eqb purpose "growth-defrag" || String.eqb purpose "recover".

(** [completed]; [again] is the analysis that follows a mutation. *)
Definition completed_with (again : Handler) (w : World) (code : Z) (detail : string) : Handler := fun s =>
  let t := task s in
  let analysed := String.eqb (purpose t) "analysis" in
  let result := if analysed && stopping (flags s) && negb (code =? 0) then "stopped" else result_status t in
  let started := negb (active_id s =? 0) || local_active (analysis s) in
  let done := ADone (active_id s) in
  let s := set_ids (request_id s) 0 (set_flags (set_busy false false (flags s)) (set_result result s)) in
  let '(code, reason, s, drawn) :=
    if (code =? 0) && analysed then
      match parse (output t) ≫= fun map => present_map map s with
      | Value (s, drawn) => (code, detail, s, drawn)
      | Throw what => (127, ("Invalid allocation map: " ++ what)%string, s, [])
      end
    else (code, detail, s, []) in
  let '(s, refused) := if (code =? 0) && String.eqb (purpose t) "unmount" then start_discovery w s else (s, None) in
  match refused with
  | Some message =>
      let '(s, acts) := then_rests (error "Unable to discover volumes" message) [RStatus; RClose] s in (s, done :: drawn ++ acts)%list
  | None =>
      let status := AStatus (final_status code result) in
      let rest :=
        if negb (code =? 0) && negb (String.eqb result "stopped") then
          error "Operation failed" (if is_empty reason then "Exit status " ++ itoa code else reason)%string
        else if negb (closing (flags s)) && started && (is_success code result || String.eqb result "stopped") &&
                is_mutation (purpose t)
        then again else skip in
      let '(s, acts) := then_rest rest RClose s in (s, done :: drawn ++ status :: acts)%list
  end.

(** ** Requests to the helper *)

Definition run_request (id : Z) (program : string) (arguments : list string) : Json :=
  JObject [("action", JString "run"); ("argv", JArray (map JString arguments)); ("id", integer id);
           ("program", JString program)]%string.

Definition stop_request (id : Z) : Json := JObject [("action", JString "stop"); ("id", integer id)]%string.

Definition submit_with (again : Handler) (w : World) : Handler := fun s =>
  let f := flags s in
  if negb (busy f) || negb (helper_ready f) || negb (active_id s =? 0) || local_active (analysis s) then (s, [])
  else if stopping f then
    completed_with again w 0 "Cancelled before the operation started" (set_result "stopped" s)
  else
    let id := request_id s + 1 in
    let s := set_ids id id s in
    let request := run_request id (pending_program (task s)) (tail (pending_args (task s))) in
    match helper_send request (send_failure w) (helper s) with
    | Value bytes => (s, [ASubmitted id; ASend request bytes])
    | Throw what => let '(s, acts) := completed_with again w 127 what s in (s, ASubmitted id :: acts)
    end.

Definition start_helper_with (again : Handler) (w : World) : Handler := fun s =>
  if helper_active (helper s) || helper_ready (flags s) then (s, [])
  else
    match helper_start (helper_spawn w) (helper s) with
    | (Value _, h) => (set_helper h s, [])
    | (Throw what, h) =>
        let s := set_helper h s in
        if busy (flags s) then completed_with again w 127 what s else (s, [])
    end.

Definition start_with (again : Handler) (w : World) (arguments : list string) (program why : string) : Handler := fun s =>
  if executable_deleted w then
    error "Restart Defragmenter" "Defragmenter was updated while this window was open. Close and reopen it to use the matching desktop and filesystem workers." s
  else
    let s := set_task (mkTask why program arguments EmptyString EmptyString) (set_flags (set_busy true false (flags s)) s) in
    let analysed := String.eqb why "analysis" in
    let shown' := shown s in
    let s := if analysed
             then set_shown (mkShown (volumes shown') (storage shown') (selection shown') JNull []) s else s in
    if analysed && match current s with Some v => readable w (path v) | None => false end then
      match local_start arguments (local_spawn w) (analysis s) with
      | (Value _, l) => (set_analysis l s, [AStarted arguments])
      | (Throw what, l) => completed_with again w 127 what (set_analysis l s)
      end
    else if helper_ready (flags s) then submit_with again w s
    else start_helper_with again w s.

(** [action("analyse")].  What it starts is an analysis, after which nothing is
    analysed again. *)
Definition analyse_action (w : World) : Handler := fun s =>
  match selection (shown s), current s with
  | Some index, Some v =>
      if busy (flags s) then (s, [])
      else
        let v' := mkVolume (path v) (filesystem v) (label v) (filesystem_uuid v) (partition_uuid v) (serial v) (wwn v)
                    (size v) (start_sector v) (mounted v) (readonly v) (image v) (verified v) false false false
                    EmptyString EmptyString in
        let x := shown s in
        let s := set_shown (mkShown (<[index := v']> (volumes x)) (storage x) (selection x) (map_data x) (cells x)) s in
        start_with skip w [mapper; path v; "--fstype"; filesystem v; "--cells"; utoa (map_cells w)]%string "mapper" "analysis" s
  | _, _ => (s, [])
  end.

Definition completed (w : World) := completed_with (analyse_action w) w.
Definition submit (w : World) := submit_with (analyse_action w) w.
Definition start_helper (w : World) := start_helper_with (analyse_action w) w.
Definition start_operation (w : World) := start_with (analyse_action w) w.

(** ** What the helper says *)

Definition progress_prefix : string := "@@ANALYSIS ".

(** [consume_analysis_progress]: whether the line is a progress event. *)
Definition consumes_progress (line : string) : bool := String.prefix progress_prefix line.

Definition apply_live (line : string) (s : Desktop) : exc Desktop :=
  match split_char " "%char line with
  | None => Value s
  | Some (kind, text) =>
      payload ← parse text;
      let x := shown s in
      let with_map m c := set_shown (mkShown (volumes x) (storage x) (selection x) m c) s in
      let drawn := match cells x with [] => false | _ => true end in
      if negb (is_object payload) then Value s
      else if String.eqb kind "@@RESULT" then Value (set_result (field payload "status") s)
      else if negb drawn then Value s
      else if String.eqb kind "@@LIVE_MAP" then
        '(m, c) ← desktop_live_cells (map_data x) (cells x) payload; Value (with_map m c)
      else if String.eqb kind "@@LIVE_RANGE" || String.eqb kind "@@LIVE_RANGES" then
        c ← desktop_live_ranges (map_data x) (cells x) payload (String.eqb kind "@@LIVE_RANGES");
        Value (with_map (map_data x) c)
      else if String.eqb kind "@@LIVE_RESET" then
        '(m, c) ← desktop_live_reset (map_data x) (cells x) payload; Value (with_map m c)
      else Value s
  end.

(** The part of [receive] for the operation in progress. *)
Definition receive_active (w : World) (message : Json) : Handler := fun s =>
  let type := field message "type" in
  if String.eqb type "output" then
    let line := field message "line" in
    if String.eqb (purpose (task s)) "analysis" then
      (if consumes_progress line then s else add_output line s, [])
    else if String.prefix "@@" line then (match apply_live line s with Value s => s | Throw _ => s end, [])
    else (s, [])
  else if String.eqb type "finished" then
    let code := int_of (number message "returncode") in
    let detail := if negb (code =? 0) && String.eqb (purpose (task s)) "analysis"
                  then failure_detail (output (task s)) else EmptyString in
    completed w code detail s
  else (s, []).

Definition receive (w : World) (message : Json) : Handler := fun s =>
  let type := field message "type" in
  if negb (is_object message) then (s, [])
  else if String.eqb type "ready" then submit w (set_flags (set_ready true (flags s)) s)
  else
    let refused := match find "delivered" message with Some d => negb (bool_or false d) | None => false end in
    let s := if String.eqb type "stop-result" && refused then set_flags (set_stopping false (flags s)) s else s in
    if negb (int_of (number message "id") =? active_id s) || negb (busy (flags s)) then (s, [])
    else receive_active w message s.

(** ** Stop *)

Definition request_stop (w : World) : Handler := fun s =>
  let f := flags s in
  if negb (busy f) || stopping f then (s, [])
  else
    let s := set_flags (set_stopping true f) s in
    if local_active (analysis s) then
      (set_flags (set_stop_timer true (flags s)) s,
       map ASignal (local_signal (process_name w) (kill_answer w) SIGINT_number (analysis s)))
    else if active_id s =? 0 then (if helper_ready (flags s) then submit w s else (s, []))
    else
      let id := request_id s + 1 in
      let s := set_ids id (active_id s) s in
      let request := stop_request id in
      match helper_send request (send_failure w) (helper s) with
      | Value bytes => (s, [ASend request bytes])
      | Throw what => error "Unable to stop" what (set_flags (set_stopping false (flags s)) s)
      end.

(** ** Callbacks of the transports *)

Definition local_callback (w : World) (e : LocalEvent) : Handler := fun s =>
  match e with
  | LocalLine line diagnostics =>
      (if consumes_progress line || diagnostics then s else add_output line s, [])
  | LocalFinished code detail =>
      let s := set_flags (set_stop_timer false (flags s)) s in
      completed w code detail (if stopping (flags s) then set_result "stopped" s else s)
  | _ => (s, [])
  end.

Definition helper_callback (w : World) (e : HelperEvent) : Handler := fun s =>
  match e with
  | HelperLine line => match parse line with Value message => receive w message s | Throw _ => (s, []) end
  | HelperClosed detail =>
      let s := set_flags (set_ready false (flags s)) s in
      if busy (flags s) && negb (local_active (analysis s)) then completed w 127 detail s else (s, [])
  | HelperStarted => (s, [])
  end.

Definition callbacks {E} (call : E -> Handler) (events : list E) : Handler :=
  fold_right (fun e f => and_then (call e) f) skip events.

(** ** The steps of the main loop *)

Definition selected (index : option nat) (s : Desktop) : Desktop :=
  let x := shown s in
  set_flags (set_selection_pending (match index with Some _ => true | None => false end) (flags s))
    (set_shown (mkShown (volumes x) (storage x) index JNull []) s).

(** The volumes of [refresh]'s answer: the images stay, the selected path is
    selected again. *)
Definition position_of (p : string) (l : list DesktopVolume) : nat :=
  fold_left (fun best iv => if String.eqb (path (snd iv)) p then fst iv else best) (combine (seq 0 (length l)) l) 0%nat.

Definition discovered (lsblk : exc Json) (s : Desktop) : exc Desktop :=
  tree ← lsblk;
  let x := shown s in
  let found := (desktop_discover tree ++ List.filter image (volumes x))%list in
  let s := set_shown (mkShown found (S (storage x)) (selection x) (map_data x) (cells x)) s in
  let s := match selection x with Some _ => selected None s | None => s end in
  Value match found with
        | [] => s
        | _ => selected (Some (position_of (refresh_selected_path s) found)) s
        end.

(** The volume of an image once its probe answered; [size] is its size, unless the
    file went away. *)
Definition probed_volume (image_path : string) (size : option Z) (writable : bool) (probe : exc Json) : exc DesktopVolume :=
  probe ← probe;
  let filesystem := field probe "filesystem" in
  throw_if (is_null (backend_by_fstype filesystem)) "Unsupported filesystem image." ≫= fun _ =>
  match size with
  | None => Throw "Filesystem image changed during probing"
  | Some size =>
      Value (mkVolume image_path filesystem EmptyString EmptyString EmptyString EmptyString EmptyString size 0 false
        (negb writable) true true false false false EmptyString EmptyString)
  end.

Definition append_volume (v : DesktopVolume) (s : Desktop) : Desktop :=
  let x := shown s in
  let s := set_shown (mkShown (volumes x ++ [v]) (S (storage x)) (selection x) (map_data x) (cells x)) s in
  let s := selected (Some (length (volumes x))) s in
  let x := shown s in
  set_shown (mkShown (volumes x) (storage x) (selection x) JNull []) s.

Inductive Choice :=
(** Buttons: an operation, the unmount, the analysis, the refresh, an image that
    was chosen, the stop. *)
| Click (action : string)
| ChooseImage
| Select (index : option nat)
| Close
(** The answer to the dialog on top. *)
| Respond (accept : bool)
(** What is pending in the main loop. *)
| SelectionIdle
| StopTimeout
| Lsblk (answer : exc Json)
| Probe (image_path : string) (size : option Z) (writable : bool) (answer : exc Json)
| LocalSays (c : LocalChoice)
| HelperSays (c : HelperChoice).

Definition mutation_action (w : World) (operation : string) : Handler := fun s =>
  match current s with
  | None => (s, [])
  | Some v =>
      let journal := desktop_journal v uid in
      match desktop_mutation v operation engine journal 4096 (present w journal) with
      | Value arguments => ask (AcceptMutation operation arguments) (AAsked operation v arguments) s
      | Throw what => error "Operation unavailable" what s
      end
  end.

Definition unmount_action : Handler := fun s =>
  match selection (shown s), current s with
  | Some index, Some v => ask (AcceptUnmount (storage (shown s)) index) (AAskedUnmount v) s
  | _, _ => (s, [])
  end.

(** [action], for the actions that act on volumes. *)
Definition action (w : World) (name : string) : Handler := fun s =>
  if busy (flags s) && negb (String.eqb name "stop") then (s, [])
  else if String.eqb name "refresh" then refresh w s
  else if String.eqb name "stop" then request_stop w s
  else if String.eqb name "analyse" then analyse_action w s
  else if String.eqb name "unmount" then unmount_action s
  else mutation_action w name s.

Definition open_image : Handler := fun s =>
  let f := flags s in
  if busy f || discovering f || probing f then (s, []) else ask AcceptImage AAskedImage s.

(** [open_image] once a file was chosen; [probe_spawn] is the message when it
    cannot be used or the probe cannot be started. *)
Definition start_probe (w : World) : Handler := fun s =>
  match probe_spawn w with
  | Some message => error "Unable to open image" message s
  | None => (set_flags (set_probing true (flags s)) s, [])
  end.

Definition accept (w : World) (a : Accepted) : Handler := fun s =>
  match a with
  | AcceptMutation operation arguments =>
      let '(s, acts) := start_operation w arguments "operation-engine" operation s in
      (s, AAccepted operation arguments :: acts)
  | AcceptUnmount at_ index =>
      if negb (Nat.eqb at_ (storage (shown s))) then (set_flags (no_window (flags s)) s, [AUseAfterFree])
      else
        match nth_error (volumes (shown s)) index with
        | Some v => start_operation w ["udisksctl"; "unmount"; "-b"; path v]%string "udisksctl" "unmount" s
        | None => (set_flags (no_window (flags s)) s, [AUseAfterFree])
        end
  | AcceptImage => start_probe w s
  end.

Definition close_requested (w : World) : Handler := fun s =>
  let f := flags s in
  if busy f then request_stop w (set_flags (set_closing f) s)
  else if discovering f || probing f then (set_flags (set_closing f) s, [])
  else (set_flags (no_window f) s, [AQuit]).

(** A modal dialog keeps the clicks from the window. *)
Definition modal (s : Desktop) : bool := match dialogs s with [] => false | _ => true end.

(** A callback that waits for its own dialog has been called already. *)
Definition waits_in (r : Rest) (s : Desktop) : bool :=
  existsb (fun f => existsb (fun r' => match r, r' with RDiscovered, RDiscovered | RProbed, RProbed => true | _, _ => false end)
                      (rests f)) (dialogs s).

Definition handle (w : World) (c : Choice) (s : Desktop) : option (Desktop * list Act) :=
  let f := flags s in
  match c with
  | Click name => if modal s then None else Some (action w name s)
  | ChooseImage => if modal s then None else Some (open_image s)
  | Select index =>
      if modal s || busy f || discovering f || probing f ||
         negb match index with Some i => Nat.ltb i (length (volumes (shown s))) | None => true end
      then None else Some (selected index s, [])
  | Close => Some (close_requested w s)
  | Respond yes =>
      match dialogs s with
      | [] => None
      | top :: below =>
          let s := set_dialogs below s in
          let f := match on_accept top with Some a => if yes then accept w a else skip | None => skip end in
          Some (then_rests f (rests top) s)
      end
  | SelectionIdle =>
      if negb (selection_pending f) then None
      else
        let s := set_flags (set_selection_pending false f) s in
        if closing f || busy f || discovering f || probing f then Some (s, []) else Some (analyse_action w s)
  | StopTimeout =>
      if negb (stop_timer f) then None
      else
        let s := set_flags (set_stop_timer false f) s in
        Some (s, if local_active (analysis s) && busy f && stopping f
                 then map ASignal (local_signal (process_name w) (kill_answer w) SIGKILL_number (analysis s)) else [])
  | Lsblk answer =>
      if negb (discovering f) || waits_in RDiscovered s then None
      else
        let show := fun s => match discovered answer s with
                             | Value s => (s, [])
                             | Throw what => if closing (flags s) then (s, []) else error "Unable to discover volumes" what s
                             end in
        Some (then_rest show RDiscovered s)
  | Probe image_path size writable answer =>
      if negb (probing f) || waits_in RProbed s then None
      else
        let show := fun s => match probed_volume image_path size writable answer with
                             | Value v => (append_volume v s, [])
                             | Throw what => if closing (flags s) then (s, []) else error "Unable to open image" what s
                             end in
        Some (then_rest show RProbed s)
  | LocalSays (LStart _ _) | LocalSays (LSignal _ _ _) | LocalSays LShutdown => None
  | LocalSays c =>
      '(l, events) ← local_step c (analysis s);
      Some (callbacks (local_callback w) events (set_analysis l s))
  | HelperSays (HLine line _) =>
      h ← read_answered (helper s);
      Some (then_rest (helper_callback w (HelperLine line)) RReadNext (set_helper h s))
  | HelperSays (HFailed error) =>
      '(h, events) ← helper_step (HFailed error) (helper s);
      Some (callbacks (helper_callback w) events (set_helper h s))
  | HelperSays _ => None
  end.

(** The system: the desktop and what it did, the last first. *)
Definition desktop_step (w : World) (c : Choice) (y : Desktop * list Act) : option (Desktop * list Act) :=
  if negb (window (flags (fst y))) then None
  else '(s, acts) ← handle w c (fst y); Some (s, (rev acts ++ snd y)%list).

Fixpoint session (choices : list (World * Choice)) (y : Desktop * list Act) : option (Desktop * list Act) :=
  match choices with
  | [] => Some y
  | (w, c) :: choices => y ← desktop_step w c y; session choices y
  end.

Variable helper_path : string.

Inductive attained : Desktop * list Act -> Prop :=
| attained_start : attained (new_desktop helper_path, [])
| attained_step w c y y' : attained y -> desktop_step w c y = Some y' -> attained y'.

Lemma session_attained choices y y' : attained y -> session choices y = Some y' -> attained y'.
Proof.
  revert y. induction choices as [|[w c] choices IH]; intros y Hy H; cbn [session] in H; [by injection H as <-|].
  apply bind_Some in H as (z & Hz & H). apply (IH z); [by eapply attained_step|done].
Qed.
End Session.
