(* ===== verification/DesktopSafety.v ===== *)
(** What the operations of the desktop (DesktopSession) keep, whatever the user, the
    helper, the analysis and the files do, and in whatever order: the requests that
    are sent, the qualifications of the volumes, the closing of the window. *)
From Stdlib Require Import Sorting.Sorted.
From S2P Require Import Prelude CString Infiltratr Exceptions NativeJson Runtime HelperPath HelperPolicy HelperProcess DesktopPolicy.
From S2P Require Import AllocationMap LiveMap DesktopTransport DesktopSession.
#[local] Open Scope Z_scope.

(** ** The invariant *)

(** The identifiers of the requests to run, and of the operations that ended with
    one, the last first. *)
Definition submitted (h : list Act) : list Z :=
  flat_map (fun a => match a with ASubmitted id => [id] | _ => [] end) h.
Definition ended (h : list Act) : list Z :=
  flat_map (fun a => match a with ADone id => if id =? 0 then [] else [id] | _ => [] end) h.

(** A map that says of a volume what the volume is shown with: it accounts for every
    byte, and not in summary; it names a filesystem the volume now has; and it grants
    the operations the volume is qualified for, no more and no less. *)
Record exact_map (v : DesktopVolume) (map : Json) : Prop := {
  em_accuracy : field map "map_accuracy" <> EmptyString /\ field map "map_accuracy" <> "summary"%string;
  em_known : number map "unknown_bytes" = 0;
  em_filesystem : exists backend, backend_by_fstype (field map "filesystem") = Some backend /\ filesystem v = Runtime.id backend;
  em_defrag : defrag_qualified v = true <-> find "defrag_qualified" map = Some (JBool true);
  em_growth : growth_qualified v = true <-> find "growth_qualified" map = Some (JBool true);
}.

(** A volume is taken for exactly analysed when its identity was verified and such a
    map was presented for its path, and it is qualified for nothing when it is not. *)
Definition sound_volume (h : list Act) (v : DesktopVolume) : Prop :=
  (exact_analysis v = true -> verified v = true /\ exists map, In (APresented (path v) map) h /\ exact_map v map) /\
  (exact_analysis v = false -> defrag_qualified v = false /\ growth_qualified v = false).

Lemma sound_more g h v : sound_volume h v -> sound_volume (g ++ h)%list v.
Proof.
  intros [H1 H2]. split; [|done]. intros E. destruct (H1 E) as (Hv & map & Hin & Hm).
  split; [done|]. exists map. split; [apply in_app_iff; by right|done].
Qed.

(** A volume that was not analysed. *)
Lemma unanalysed_sound h v :
  exact_analysis v = false -> defrag_qualified v = false -> growth_qualified v = false -> sound_volume h v.
Proof. intros H1 H2 H3. split; [by rewrite H1|done]. Qed.

(** Acts that are about neither requests nor operations. *)
Definition neutral (a : Act) : bool :=
  match a with ASubmitted _ | ASend _ _ | ADone _ => false | _ => true end.

Lemma submitted_app g h : submitted (g ++ h) = (submitted g ++ submitted h)%list.
Proof. apply flat_map_app. Qed.

Lemma ended_app g h : ended (g ++ h) = (ended g ++ ended h)%list.
Proof. apply flat_map_app. Qed.

Lemma neutral_silent acts :
  forallb neutral acts = true -> submitted acts = [] /\ ended acts = [] /\
  forall request bytes, ~ In (ASend request bytes) acts.
Proof.
  induction acts as [|a acts IH]; [intros _; split_and!; [done|done|by intros r b []]|]. cbn [forallb]. intros H. apply andb_true_iff in H as [Ha H].
  destruct (IH H) as (E1 & E2 & E3). destruct a; try done; cbn; (split_and!; [done..|]); intros r b [H'|H']; try done; by apply (E3 r b).
Qed.

Section Safety.
  Context {common : Infiltratr} {digest : Sha256} {rounding : Rounding}.
  Variable uid : Z.
  Variable mapper engine helper_path : string.

(** The desktop asked for the command, which the guards of the policy let it
    build for the volume that was current. *)
Definition asked (operation : string) (arguments : list string) (h : list Act) : Prop :=
  exists v journal_exists, In (AAsked operation v arguments) h /\
    desktop_mutation v operation engine (desktop_journal v uid) 4096 journal_exists = Value arguments.

(** And the user accepted. *)
Definition confirmed (arguments : list string) (h : list Act) : Prop :=
  exists operation, asked operation arguments h /\ In (AAccepted operation arguments) h.

Definition request_sound (request : Json) (h : list Act) : Prop :=
  (exists id, request = stop_request id) \/
  exists id program arguments, request = run_request id program arguments /\
    (program = "operation-engine"%string -> exists command, arguments = tail command /\ confirmed command h).

(** The bytes of a request: its text and the end of the line. *)
Definition printed (request : Json) (bytes : string) : Prop :=
  exists text, dump request = Value text /\ bytes = (text ++ String LF EmptyString)%string.

Definition frame_sound (f : Frame) (h : list Act) : Prop :=
  match on_accept f with Some (AcceptMutation operation arguments) => asked operation arguments h | _ => True end.

Record invariant (s : Desktop) (h : list Act) : Prop := {
  iv_task : pending_program (task s) = "operation-engine"%string -> confirmed (pending_args (task s)) h;
  iv_frames : Forall (fun f => frame_sound f h) (dialogs s);
  iv_sent : forall request bytes, In (ASend request bytes) h -> request_sound request h;
  iv_bytes : forall request bytes, In (ASend request bytes) h -> printed request bytes;
  iv_volumes : Forall (sound_volume h) (volumes (shown s));
  iv_ids : submitted h = ((if active_id s =? 0 then [] else [active_id s]) ++ ended h)%list;
  iv_sorted : StronglySorted Z.gt (submitted h);
  iv_bound : Forall (fun id => 0 < id <= request_id s) (submitted h);
  iv_request : 0 <= request_id s;
}.

Definition keeps (f : Handler) : Prop :=
  forall s h, invariant s h -> invariant (fst (f s)) (rev (snd (f s)) ++ h)%list.

Lemma asked_more operation arguments g h : asked operation arguments h -> asked operation arguments (g ++ h)%list.
Proof. intros (v & e & Hin & H). exists v, e. split; [apply in_app_iff; by right|done]. Qed.

Lemma confirmed_more arguments g h : confirmed arguments h -> confirmed arguments (g ++ h)%list.
Proof. intros (o & Ha & Hin). exists o. split; [by apply asked_more|apply in_app_iff; by right]. Qed.

Lemma request_more request g h : request_sound request h -> request_sound request (g ++ h)%list.
Proof.
  intros [H|(id & p & a & E & H)]; [by left|right]. exists id, p, a. split; [done|]. intros Ep.
  destruct (H Ep) as (c & Ec & Ha). exists c. split; [done|]. by apply confirmed_more.
Qed.

Lemma volumes_more g h l : Forall (sound_volume h) l -> Forall (sound_volume (g ++ h)%list) l.
Proof. apply List.Forall_impl. intros v. apply sound_more. Qed.

Lemma frame_more f g h : frame_sound f h -> frame_sound f (g ++ h)%list.
Proof. unfold frame_sound. destruct (on_accept f) as [[]|]; try done. apply asked_more. Qed.

(** What the invariant looks at. *)
Lemma invariant_same s s' h :
  task s' = task s -> dialogs s' = dialogs s -> shown s' = shown s -> active_id s' = active_id s ->
  request_id s <= request_id s' -> invariant s h -> invariant s' h.
Proof.
  intros E1 E2 E3 E4 E5 []. split; rewrite ?E1, ?E2, ?E3, ?E4; try done; [|lia].
  revert iv_bound0. apply List.Forall_impl. intros id Hid. lia.
Qed.

(** More acts that are neutral. *)
Lemma invariant_neutral s g h : forallb neutral g = true -> invariant s h -> invariant s (g ++ h)%list.
Proof.
  intros Hg []. destruct (neutral_silent _ Hg) as (E1 & E2 & E3).
  split; rewrite ?submitted_app, ?ended_app, ?E1, ?E2; try done.
  - intros E. by apply confirmed_more, iv_task0.
  - revert iv_frames0. apply List.Forall_impl. intros f. apply frame_more.
  - intros r b Hin. apply in_app_iff in Hin as [Hin|Hin]; [by destruct (E3 _ _ Hin)|]. apply request_more. by eapply iv_sent0.
  - intros r b Hin. apply in_app_iff in Hin as [Hin|Hin]; [by destruct (E3 _ _ Hin)|]. by apply iv_bytes0.
  - by apply volumes_more.
Qed.

Lemma neutral_rev g : forallb neutral g = true -> forallb neutral (rev g) = true.
Proof.
  rewrite !forallb_forall. intros H a Hin. apply H. by apply in_rev.
Qed.

(** A handler that changes nothing the invariant looks at. *)
Lemma keeps_quiet f :
  (forall s, let s' := fst (f s) in
     task s' = task s /\ dialogs s' = dialogs s /\ shown s' = shown s /\ active_id s' = active_id s /\
     request_id s <= request_id s' /\ forallb neutral (snd (f s)) = true) -> keeps f.
Proof.
  intros H s h Hi. destruct (H s) as (E1 & E2 & E3 & E4 & E5 & E6). apply invariant_neutral; [by apply neutral_rev|].
  by eapply invariant_same.
Qed.

Lemma keeps_skip : keeps skip.
Proof. apply keeps_quiet. intros s. by repeat split. Qed.

Lemma keeps_and_then f g : keeps f -> keeps g -> keeps (and_then f g).
Proof.
  intros Hf Hg s h Hi. unfold and_then. specialize (Hf s h Hi). destruct (f s) as [s1 a]. cbn in Hf.
  specialize (Hg s1 _ Hf). destruct (g s1) as [s2 b]. cbn in *. by rewrite rev_app_distr, <- app_assoc.
Qed.

(** A dialog that only informs. *)
Lemma keeps_error title text : keeps (error title text).
Proof.
  intros s h Hi. apply (invariant_neutral _ [_]); [done|]. destruct Hi. split; try done. cbn. by constructor.
Qed.

Lemma keeps_run_rest r : keeps (run_rest r).
Proof.
  apply keeps_quiet. intros s. unfold run_rest, closes, maybe_finish_close, read_next.
  destruct r; repeat case_match; by repeat split.
Qed.

Lemma then_rest_from f r s h :
  invariant (fst (f s)) (rev (snd (f s)) ++ h)%list ->
  invariant (fst (then_rest f r s)) (rev (snd (then_rest f r s)) ++ h)%list.
Proof.
  intros Hf. unfold then_rest. destruct (f s) as [s1 a]. cbn in Hf.
  assert (Run : invariant (fst (let '(s2, b) := run_rest r s1 in (s2, (a ++ b)%list)))
    (rev (snd (let '(s2, b) := run_rest r s1 in (s2, (a ++ b)%list))) ++ h)%list).
  { pose proof (keeps_run_rest r s1 _ Hf) as Hr. destruct (run_rest r s1) as [s2 b]. cbn in *.
    by rewrite rev_app_distr, <- app_assoc. }
  destruct (dialogs s1) as [|top below] eqn:Ed; [done|]. destruct (Nat.ltb _ _); [|done]. cbn.
  destruct Hf as [? Hfr]. rewrite Ed in Hfr. inversion_clear Hfr. split; try done. cbn. by constructor.
Qed.

Lemma then_rests_from f rs s h :
  invariant (fst (f s)) (rev (snd (f s)) ++ h)%list ->
  invariant (fst (then_rests f rs s)) (rev (snd (then_rests f rs s)) ++ h)%list.
Proof.
  unfold then_rests. revert f. induction rs as [|r rs IH]; intros f H; [done|]. cbn [fold_left]. by apply IH, then_rest_from.
Qed.

Lemma keeps_then_rest f r : keeps f -> keeps (then_rest f r).
Proof. intros Hf s h Hi. by apply then_rest_from, Hf. Qed.

Lemma keeps_then_rests f rs : keeps f -> keeps (then_rests f rs).
Proof. intros Hf s h Hi. by apply then_rests_from, Hf. Qed.

Lemma keeps_callbacks {E} (call : E -> Handler) events : (forall e, keeps (call e)) -> keeps (callbacks call events).
Proof. intros H. induction events as [|e events IH]; cbn; [apply keeps_skip|by apply keeps_and_then]. Qed.

(** *** The operations *)

(** Other volumes, sound ones. *)
Lemma invariant_shown x s h : Forall (sound_volume h) (volumes x) -> invariant s h -> invariant (set_shown x s) h.
Proof. intros Hx []. by split. Qed.

Lemma invariant_task t s h :
  (pending_program t = "operation-engine"%string -> confirmed (pending_args t) h) -> invariant s h -> invariant (set_task t s) h.
Proof. intros Ht []. by split. Qed.

Lemma invariant_flags f s h : invariant s h -> invariant (set_flags f s) h.
Proof. by apply invariant_same. Qed.

Lemma invariant_result status s h : invariant s h -> invariant (set_result status s) h.
Proof. intros Hi. apply invariant_task; [|done]. exact (iv_task _ _ Hi). Qed.

Lemma invariant_output line s h : invariant s h -> invariant (add_output line s) h.
Proof. intros Hi. apply invariant_task; [|done]. exact (iv_task _ _ Hi). Qed.

Lemma granted_true key map :
  match find key map with Some q => bool_or false q | None => false end = true <-> find key map = Some (JBool true).
Proof. split; [|by intros ->]. destruct (find key map) as [[|b| | | |]|]; try done. by destruct b. Qed.

(** A map qualifies the volume it is presented for as it says itself, and only when
    it is exact. *)
Lemma qualified_sound v map v' h : qualified_volume v map = Value v' -> sound_volume (APresented (path v') map :: h) v'.
Proof.
  unfold qualified_volume. intros H. apply bind_value in H as (u & Hu & H). cbv zeta in H. injection H as <-.
  unfold desktop_verify_identity in Hu.
  destruct (backend_by_fstype (field map "filesystem")) as [backend|] eqn:Hb; [|done].
  apply guard_value in Hu as [_ Hu]. injection Hu as <-. split; cbn; [|by intros ->].
  intros He. split; [done|]. exists map. split; [by left|]. rewrite He.
  apply andb_true_iff in He as [He Hk]. apply andb_true_iff in He as [Ha Hs]. apply Z.eqb_eq in Hk.
  split; [split| | |apply granted_true|apply granted_true]; try done.
  - intros E. by rewrite E in Ha.
  - intros E. by rewrite E in Hs.
  - by exists backend.
Qed.

Lemma present_map_keeps map s s' drawn h :
  present_map map s = Value (s', drawn) -> invariant s h -> invariant s' (rev drawn ++ h)%list.
Proof.
  unfold present_map. intros H Hi. destruct (find "cells" map) as [[| | | |raw|]|]; try done.
  apply guard_value in H as [_ H]. apply guard_value in H as [_ H].
  destruct (selection (shown s)) as [index|]; [|by injection H as <- <-].
  destruct (current s) as [v|]; [|by injection H as <- <-].
  apply bind_value in H as (v' & Hv & H). injection H as <- <-.
  pose proof (invariant_neutral _ [APresented (path v') map] _ eq_refl Hi) as H1.
  apply invariant_shown; [|exact H1]. cbn. apply Forall_insert; [exact (iv_volumes _ _ H1)|].
  by eapply qualified_sound.
Qed.

Lemma start_discovery_keeps w s h : invariant s h -> invariant (fst (start_discovery w s)) h.
Proof.
  intros Hi. unfold start_discovery. destruct (_ || _); [done|]. destruct (lsblk_spawn w); cbn.
  - by apply (invariant_same s).
  - by apply (invariant_same s).
Qed.

Lemma keeps_refresh w : keeps (refresh w).
Proof.
  intros s h Hi. unfold refresh. pose proof (start_discovery_keeps w s h Hi) as H.
  destruct (start_discovery w s) as [s1 [message|]]; cbn in H; [|done]. by apply keeps_error.
Qed.

(** An operation ends: its request is no longer active. *)
Lemma invariant_done s f status h :
  invariant s h ->
  invariant (set_ids (request_id s) 0 (set_flags f (set_result status s))) (ADone (active_id s) :: h).
Proof.
  intros []. split; cbn; try done.
  - intros E. by apply (confirmed_more _ [_]), iv_task0.
  - revert iv_frames0. apply List.Forall_impl. intros x. by apply (frame_more _ [_]).
  - intros r b [?|Hin]; [done|]. apply (request_more _ [_]). by eapply iv_sent0.
  - intros r b [?|Hin]; [done|]. by apply iv_bytes0.
  - by apply (volumes_more [_]).
Qed.

Lemma keeps_completed again w code detail : keeps again -> keeps (completed_with again w code detail).
Proof.
  intros Ha s h Hi. unfold completed_with. cbv zeta.
  set (result := if String.eqb _ _ && _ && _ then _ else _).
  pose proof (invariant_done s (set_busy false false (flags s)) result h Hi) as I1.
  set (s1 := set_ids _ _ _) in *. set (h1 := ADone (active_id s) :: h) in *. clearbody s1 result.
  assert (I2 : forall code0 reason s2 drawn,
    (if (code =? 0) && String.eqb (purpose (task s)) "analysis"
     then match parse (output (task s)) ≫= fun map => present_map map s1 with
          | Value (s0, drawn) => (code, detail, s0, drawn)
          | Throw what => (127, ("Invalid allocation map: " ++ what)%string, s1, [])
          end
     else (code, detail, s1, [])) = (code0, reason, s2, drawn) -> invariant s2 (rev drawn ++ h1)%list).
  { intros code0 reason s2 drawn E. destruct ((code =? 0) && String.eqb (purpose (task s)) "analysis"); [|by injection E as _ _ <- <-].
    destruct (parse _ ≫= _) as [[s0 acts]|what] eqn:Ep; injection E as _ _ <- <-; [|done].
    apply bind_value in Ep as (map & _ & Ep). by eapply present_map_keeps. }
  destruct (if (code =? 0) && _ then _ else _) as [[[code0 reason] s2] drawn]. specialize (I2 _ _ _ _ eq_refl).
  set (h2 := (rev drawn ++ h1)%list) in *.
  assert (Hh : forall acts, (rev (ADone (active_id s) :: drawn ++ acts) ++ h)%list = (rev acts ++ h2)%list)
    by (intros acts; unfold h2, h1; cbn [rev]; by rewrite rev_app_distr, <- !app_assoc).
  assert (I3 : forall s3 refused, (if (code0 =? 0) && String.eqb (purpose (task s)) "unmount" then start_discovery w s2 else (s2, None)) = (s3, refused) ->
    invariant s3 h2).
  { intros s3 refused E. destruct ((code0 =? 0) && String.eqb (purpose (task s)) "unmount"); [|by injection E as <- _].
    pose proof (start_discovery_keeps w s2 h2 I2) as Hd. by rewrite E in Hd. }
  destruct (if (code0 =? 0) && _ then _ else _) as [s3 refused]. specialize (I3 _ _ eq_refl). clearbody h2. destruct refused as [message|].
  - pose proof (keeps_then_rests _ [RStatus; RClose] (keeps_error "Unable to discover volumes" message) s3 h2 I3) as I4.
    destruct (then_rests _ _ s3) as [s4 acts]. cbn [fst snd] in *. by rewrite Hh.
  - set (rest := if negb (code0 =? 0) && _ then _ else _).
    assert (Hr : keeps rest) by (unfold rest; case_match; [apply keeps_error|case_match; [done|apply keeps_skip]]).
    pose proof (keeps_then_rest _ RClose Hr s3 (AStatus (final_status code0 result) :: h2)) as I4.
    destruct (then_rest rest RClose s3) as [s4 acts]. cbn [fst snd] in *. rewrite Hh. cbn [rev]. rewrite <- app_assoc. apply I4.
    by apply (invariant_neutral _ [_]).
Qed.

(** A request that is sent. *)
Lemma invariant_sent request bytes s h :
  request_sound request h -> printed request bytes -> invariant s h -> invariant s (ASend request bytes :: h).
Proof.
  intros Hr Hp []. split; try done.
  - intros E. by apply (confirmed_more _ [_]), iv_task0.
  - revert iv_frames0. apply List.Forall_impl. intros x. by apply (frame_more _ [_]).
  - intros r b [[= <- <-]|Hin]; apply (request_more _ [_]); [done|]. by eapply iv_sent0.
  - intros r b [[= <- <-]|Hin]; [done|by apply iv_bytes0].
  - by apply (volumes_more [_]).
Qed.

(** The next identifier, for an operation that starts. *)
Lemma invariant_submitted s h :
  active_id s = 0 -> invariant s h ->
  invariant (set_ids (request_id s + 1) (request_id s + 1) s) (ASubmitted (request_id s + 1) :: h).
Proof.
  intros E []. rewrite E in *. unfold submitted, ended in *. split; cbn; try done; [| | | | | | | |lia].
  - intros Et. by apply (confirmed_more _ [_]), iv_task0.
  - revert iv_frames0. apply List.Forall_impl. intros x. by apply (frame_more _ [_]).
  - intros r b [?|Hin]; [done|]. apply (request_more _ [_]). by eapply iv_sent0.
  - intros r b [?|Hin]; [done|]. by apply iv_bytes0.
  - by apply (volumes_more [_]).
  - rewrite (proj2 (Z.eqb_neq _ 0)) by lia. cbn. by rewrite iv_ids0.
  - constructor; [done|]. revert iv_bound0. apply List.Forall_impl. intros id Hid. lia.
  - constructor; [lia|]. revert iv_bound0. apply List.Forall_impl. intros id Hid. lia.
Qed.

Lemma send_printed request failure x bytes : helper_send request failure x = Value bytes -> printed request bytes.
Proof.
  intros H. apply guard_value in H as [_ H]. apply bind_value in H as (text & Hd & H).
  destruct failure; [done|]. injection H as <-. by exists text.
Qed.

Lemma keeps_submit again w : keeps again -> keeps (submit_with again w).
Proof.
  intros Ha s h Hi. unfold submit_with. destruct (_ || _ || _ || _) eqn:E; [done|].
  apply orb_false_iff in E as [E _]. apply orb_false_iff in E as [_ E]. apply negb_false_iff, Z.eqb_eq in E.
  destruct (stopping (flags s)).
  { by apply keeps_completed; [|apply invariant_result]. }
  cbv zeta. pose proof (invariant_submitted s h E Hi) as I1. set (s1 := set_ids _ _ _) in *.
  assert (Hr : request_sound (run_request (request_id s + 1) (pending_program (task s1)) (tail (pending_args (task s1))))
    (ASubmitted (request_id s + 1) :: h)).
  { right. eexists _, _, _. split; [reflexivity|]. intros Ep. eexists. split; [reflexivity|]. by apply (iv_task _ _ I1). }
  destruct (helper_send _ _ _) as [bytes|what] eqn:Es.
  - apply invariant_sent; [done|by eapply send_printed|done].
  - pose proof (keeps_completed again w 127 what Ha s1 _ I1) as I2.
    destruct (completed_with again w 127 what s1) as [s2 acts]. cbn in *. by rewrite <- app_assoc.
Qed.

Lemma keeps_start_helper again w : keeps again -> keeps (start_helper_with again w).
Proof.
  intros Ha s h Hi. unfold start_helper_with. destruct (_ || _); [done|].
  assert (H : forall x, invariant (set_helper x s) h) by (intros x; by apply (invariant_same s)).
  destruct (helper_start _ _) as [[?|what] x]; [apply H|]. destruct (busy _); [|apply H]. by apply keeps_completed.
Qed.

Lemma keeps_start again w arguments program why s h :
  keeps again -> (program = "operation-engine"%string -> confirmed arguments h) -> invariant s h ->
  invariant (fst (start_with again w arguments program why s)) (rev (snd (start_with again w arguments program why s)) ++ h)%list.
Proof.
  intros Ha Hp Hi. unfold start_with. destruct (executable_deleted w); [by apply keeps_error|]. cbv zeta.
  assert (I1 : invariant (set_task (mkTask why program arguments EmptyString EmptyString) (set_flags (set_busy true false (flags s)) s)) h)
    by (by apply invariant_task; [|apply invariant_flags]).
  set (s1 := set_task _ _) in *.
  assert (I2 : invariant (if String.eqb why "analysis"
      then set_shown (mkShown (volumes (shown s1)) (storage (shown s1)) (selection (shown s1)) JNull []) s1 else s1) h).
  { destruct (String.eqb why _); [|done]. apply invariant_shown; [|done]. exact (iv_volumes _ _ I1). }
  set (s2 := if String.eqb why _ then _ else _) in *. clearbody s2.
  destruct (_ && _).
  - assert (H : forall l, invariant (set_analysis l s2) h) by (intros l; by apply (invariant_same s2)).
    destruct (local_start _ _ _) as [[?|what] l]; [apply (invariant_neutral _ [AStarted arguments]); [done|apply H]|apply keeps_completed; [done|apply H]].
  - destruct (helper_ready _); [by apply keeps_submit|by apply keeps_start_helper].
Qed.

Lemma keeps_analyse w : keeps (analyse_action mapper w).
Proof.
  intros s h Hi. unfold analyse_action. destruct (selection _) as [index|]; [|done]. destruct (current s) as [v|]; [|done].
  destruct (busy _); [done|]. apply keeps_start; [apply keeps_skip|done|]. apply invariant_shown; [|done]. cbn.
  apply Forall_insert; [exact (iv_volumes _ _ Hi)|by apply unanalysed_sound].
Qed.

Lemma keeps_completes w code detail : keeps (completed mapper w code detail).
Proof. apply keeps_completed, keeps_analyse. Qed.

Lemma apply_live_keeps line s s' h : apply_live line s = Value s' -> invariant s h -> invariant s' h.
Proof.
  unfold apply_live. intros H Hi. destruct (split_char _ _) as [[kind text]|]; [|by simplify_eq].
  apply bind_value in H as (payload & _ & H). cbv zeta in H.
  assert (W : forall m c, invariant (set_shown (mkShown (volumes (shown s)) (storage (shown s)) (selection (shown s)) m c) s) h)
    by (intros m c; apply invariant_shown; [exact (iv_volumes _ _ Hi)|done]).
  destruct (negb (is_object payload)); [by simplify_eq|].
  destruct (String.eqb kind "@@RESULT"); [simplify_eq; by apply invariant_result|].
  destruct (negb _); [by simplify_eq|].
  destruct (String.eqb kind "@@LIVE_MAP"); [apply bind_value in H as ([m c] & _ & H); by simplify_eq|].
  destruct (_ || _); [apply bind_value in H as (c & _ & H); by simplify_eq|].
  destruct (String.eqb kind "@@LIVE_RESET"); [apply bind_value in H as ([m c] & _ & H)|]; by simplify_eq.
Qed.

Lemma keeps_receive w message : keeps (receive mapper w message).
Proof.
  intros s h Hi. unfold receive. destruct (negb (is_object _)); [done|].
  destruct (String.eqb _ "ready"); [apply keeps_submit; [apply keeps_analyse|by apply invariant_flags]|].
  set (refused := String.eqb _ _ && _). set (s1 := if refused then _ else s).
  assert (I1 : invariant s1 h) by (unfold s1; destruct refused; [by apply invariant_flags|done]). clearbody s1.
  destruct (_ || _); [done|]. unfold receive_active.
  destruct (String.eqb _ "output").
  - destruct (String.eqb (purpose _) _); [destruct (consumes_progress _); [done|by apply invariant_output]|].
    destruct (String.prefix _ _); [|done]. destruct (apply_live _ _) eqn:E; [by eapply apply_live_keeps|done].
  - destruct (String.eqb _ "finished"); [by apply keeps_completes|done].
Qed.

Lemma signals_neutral l : forallb neutral (map ASignal l) = true.
Proof. by induction l. Qed.

Lemma keeps_request_stop w : keeps (request_stop mapper w).
Proof.
  intros s h Hi. unfold request_stop. destruct (_ || _); [done|]. cbv zeta.
  assert (I1 : invariant (set_flags (set_stopping true (flags s)) s) h) by (by apply invariant_flags).
  set (s1 := set_flags _ s) in *. clearbody s1. destruct (local_active _).
  - apply invariant_neutral; [apply neutral_rev, signals_neutral|by apply invariant_flags].
  - destruct (active_id s1 =? 0).
    + destruct (helper_ready _); [apply keeps_submit; [apply keeps_analyse|done]|done].
    + assert (I2 : invariant (set_ids (request_id s1 + 1) (active_id s1) s1) h) by (apply (invariant_same s1); cbn; [done..|lia|done]).
      destruct (helper_send _ _ _) as [bytes|what] eqn:Es.
      * apply invariant_sent; [left; by eexists|by eapply send_printed|done].
      * by apply (keeps_error "Unable to stop" what), invariant_flags.
Qed.

Lemma keeps_local_callback w e : keeps (local_callback mapper w e).
Proof.
  intros s h Hi. destruct e; cbn [local_callback]; try done.
  - destruct (_ || _); [done|by apply invariant_output].
  - cbv zeta. apply keeps_completes. destruct (stopping _); [apply invariant_result|]; by apply invariant_flags.
Qed.

Lemma keeps_helper_callback w e : keeps (helper_callback mapper w e).
Proof.
  intros s h Hi. destruct e; cbn [helper_callback]; try done.
  - destruct (parse line); [by apply keeps_receive|done].
  - cbv zeta. destruct (_ && _); [apply keeps_completes|]; by apply invariant_flags.
Qed.

Lemma selected_keeps index s h : invariant s h -> invariant (selected index s) h.
Proof.
  intros Hi. unfold selected. apply invariant_flags. apply invariant_shown; [exact (iv_volumes _ _ Hi)|done].
Qed.

(** A volume without qualifications. *)
Lemma unproved_sound h v : unproved v -> sound_volume h v.
Proof. intros (_ & H1 & H2 & H3 & _). by apply unanalysed_sound. Qed.

Lemma discovered_keeps answer s s' h : discovered answer s = Value s' -> invariant s h -> invariant s' h.
Proof.
  unfold discovered. intros H Hi. apply bind_value in H as (tree & _ & H). cbv zeta in H.
  set (found := (desktop_discover tree ++ _)%list) in *. set (s1 := set_shown _ s) in *.
  assert (I1 : invariant s1 h).
  { apply invariant_shown; [|done]. cbn. apply Forall_app. split.
    - apply List.Forall_forall. intros v Hv. apply unproved_sound. by apply (discovery_grants_nothing tree v) in Hv as [Hu _].
    - apply List.Forall_forall. intros v Hv. apply List.filter_In in Hv as [Hv _].
      pose proof (iv_volumes _ _ Hi) as Hall. rewrite List.Forall_forall in Hall. by apply Hall. }
  assert (I2 : invariant (match selection (shown s) with Some _ => selected None s1 | None => s1 end) h)
    by (destruct (selection (shown s)); [by apply selected_keeps|done]).
  injection H as <-. destruct found; [done|by apply selected_keeps].
Qed.

Lemma probed_sound p size writable answer v h : probed_volume p size writable answer = Value v -> sound_volume h v.
Proof.
  intros H. apply bind_value in H as (probe & _ & H). apply guard_value in H as [_ H].
  destruct size; [|done]. injection H as <-. by apply unanalysed_sound.
Qed.

Lemma append_keeps v s h : sound_volume h v -> invariant s h -> invariant (append_volume v s) h.
Proof.
  intros Hv Hi. unfold append_volume. cbv zeta.
  assert (I1 : invariant (selected (Some (length (volumes (shown s))))
    (set_shown (mkShown (volumes (shown s) ++ [v]) (S (storage (shown s))) (selection (shown s)) (map_data (shown s)) (cells (shown s))) s)) h).
  { apply selected_keeps, invariant_shown; [|done]. cbn. apply Forall_app. split; [exact (iv_volumes _ _ Hi)|by constructor]. }
  apply invariant_shown; [exact (iv_volumes _ _ I1)|done].
Qed.

Lemma keeps_ask accepted act s h :
  neutral act = true ->
  match accepted with AcceptMutation operation arguments => asked operation arguments (act :: h) | _ => True end ->
  invariant s h -> invariant (fst (ask accepted act s)) (rev (snd (ask accepted act s)) ++ h)%list.
Proof.
  intros Hn Hf Hi. unfold ask. cbn [fst snd rev app].
  pose proof (invariant_neutral _ [act] _ ltac:(cbn; by rewrite Hn) Hi) as []. split; try done. cbn. by constructor.
Qed.

Lemma keeps_action w name : keeps (action uid mapper engine w name).
Proof.
  intros s h Hi. unfold action. destruct (_ && _); [done|].
  destruct (String.eqb name "refresh"); [by apply keeps_refresh|].
  destruct (String.eqb name "stop"); [by apply keeps_request_stop|].
  destruct (String.eqb name "analyse"); [by apply keeps_analyse|].
  destruct (String.eqb name "unmount").
  - unfold unmount_action. destruct (selection _); [|done]. destruct (current s); [|done]. by apply keeps_ask.
  - unfold mutation_action. destruct (current s) as [v|]; [|done]. cbv zeta.
    destruct (desktop_mutation _ _ _ _ _ _) as [arguments|what] eqn:E; [|by apply keeps_error].
    apply keeps_ask; [done| |done]. exists v, (present w (desktop_journal v uid)). split; [by left|done].
Qed.

Lemma keeps_accept w a s h :
  match a with AcceptMutation operation arguments => asked operation arguments h | _ => True end -> invariant s h ->
  invariant (fst (accept mapper w a s)) (rev (snd (accept mapper w a s)) ++ h)%list.
Proof.
  intros Ha Hi. destruct a as [operation arguments|at_ index|]; cbn [accept].
  - pose proof (keeps_start (analyse_action mapper w) w arguments "operation-engine" operation s (AAccepted operation arguments :: h)) as H.
    unfold start_operation. destruct (start_with _ _ _ _ _ s) as [s1 acts]. cbn in *. rewrite <- app_assoc. apply H.
    + apply keeps_analyse.
    + intros _. exists operation. split; [by apply (asked_more _ _ [_])|by left].
    + by apply (invariant_neutral _ [_]).
  - assert (G : invariant (set_flags (no_window (flags s)) s) (AUseAfterFree :: h))
      by (by apply (invariant_neutral _ [_]), invariant_flags).
    destruct (negb _); [done|]. destruct (nth_error _ _); [|done]. by apply keeps_start; [apply keeps_analyse| |].
  - unfold start_probe. destruct (probe_spawn w); [by apply keeps_error|by apply invariant_flags].
Qed.

(** *** The steps *)

(** What was popped is what was pushed. *)
Lemma handle_keeps w c s s' acts h :
  invariant s h -> handle uid mapper engine w c s = Some (s', acts) -> invariant s' (rev acts ++ h)%list.
Proof.
  intros Hi H.
  assert (K : forall f x, keeps f -> invariant x h -> Some (f x) = Some (s', acts) -> invariant s' (rev acts ++ h)%list)
    by (intros f x Hf Hx [= E]; specialize (Hf x h Hx); by rewrite E in Hf).
  destruct c as [name| |index| |yes| | |answer|p size writable answer|c|c]; cbn [handle] in H; cbv zeta in H.
  - destruct (modal s); [done|]. eapply (K (action uid mapper engine w name)); [apply keeps_action|exact Hi|exact H].
  - destruct (modal s); [done|]. eapply (K open_image); [|exact Hi|exact H]. intros x g Hx. unfold open_image.
    destruct (_ || _); [done|]. by apply keeps_ask.
  - destruct (_ || _); [done|]. injection H as <- <-. by apply selected_keeps.
  - eapply (K (close_requested mapper w)); [|exact Hi|exact H]. intros x g Hx. unfold close_requested.
    destruct (busy _); [by apply keeps_request_stop, invariant_flags|].
    destruct (_ || _); [by apply invariant_flags|]. by apply (invariant_neutral _ [AQuit]), invariant_flags.
  - destruct (dialogs s) as [|top below] eqn:Ed; [done|].
    pose proof Hi as [_ Hfr _ _ _ _ _ _ _]. rewrite Ed in Hfr. inversion_clear Hfr.
    assert (I1 : invariant (set_dialogs below s) h) by (destruct Hi; by split).
    injection H as H.
    set (f := match on_accept top with Some a => if yes then accept mapper w a else skip | None => skip end) in *.
    assert (G : invariant (fst (f (set_dialogs below s))) (rev (snd (f (set_dialogs below s))) ++ h)%list).
    { unfold f. unfold frame_sound in *. destruct (on_accept top) as [a|]; [|by apply keeps_skip].
      destruct yes; [|by apply keeps_skip]. by apply keeps_accept. }
    pose proof (then_rests_from f (rests top) _ h G) as G'. by rewrite H in G'.
  - destruct (selection_pending _); [|done]. cbn [negb] in H.
    destruct (_ || _); [injection H as <- <-; by apply invariant_flags|].
    eapply (K (analyse_action mapper w)); [apply keeps_analyse| |exact H]. by apply invariant_flags.
  - destruct (stop_timer _); [|done]. injection H as <- <-. apply invariant_neutral; [|by apply invariant_flags].
    apply neutral_rev. case_match; [apply signals_neutral|done].
  - destruct (_ || _); [done|]. eapply K; [|exact Hi|exact H]. apply keeps_then_rest. intros x g Hx. cbn beta.
    destruct (discovered answer x) eqn:E; [by eapply discovered_keeps|]. destruct (closing _); [done|by apply keeps_error].
  - destruct (_ || _); [done|]. eapply K; [|exact Hi|exact H]. apply keeps_then_rest. intros x g Hx. cbn beta.
    destruct (probed_volume _ _ _ _) eqn:E; [apply append_keeps; [by eapply probed_sound|done]|]. destruct (closing _); [done|by apply keeps_error].
  - assert (L : forall l events, Some (callbacks (local_callback mapper w) events (set_analysis l s)) = Some (s', acts) -> invariant s' (rev acts ++ h)%list).
    { intros l events E. eapply K; [|by eapply (invariant_same s (set_analysis l s))|exact E].
      apply keeps_callbacks. intros e. apply keeps_local_callback. }
    destruct c; try done; apply bind_Some in H as ([l events] & _ & H); by apply (L l events).
  - destruct c; try done.
    + apply bind_Some in H as (x & _ & H). eapply K; [|by eapply (invariant_same s (set_helper x s))|exact H].
      apply keeps_then_rest, keeps_helper_callback.
    + apply bind_Some in H as ([x events] & _ & H). eapply K; [|by eapply (invariant_same s (set_helper x s))|exact H].
      apply keeps_callbacks. intros e. apply keeps_helper_callback.
Qed.

Theorem attained_invariant y : attained uid mapper engine helper_path y -> invariant (fst y) (snd y).
Proof.
  induction 1 as [|w c y y' _ IH Hs].
  - split; try done; cbn; constructor.
  - unfold desktop_step in Hs. destruct (negb _); [done|]. apply bind_Some in Hs as ([s acts] & Hs & [= <-]).
    by eapply handle_keeps.
Qed.

(** *** Properties *)

Lemma desktop_mutation_head v operation e journal n journal_exists command :
  desktop_mutation v operation e journal n journal_exists = Value command -> exists rest, command = e :: rest.
Proof.
  unfold desktop_mutation. intros H. cbv zeta in H. destruct (_ ≫= _); [|done]. unthrow. injection H as <-. by eexists.
Qed.

Lemma run_request_inj id program arguments id' program' arguments' :
  run_request id program arguments = run_request id' program' arguments' -> program = program' /\ arguments = arguments'.
Proof.
  unfold run_request. intros [= Ea _ Ep]. split; [done|]. clear - Ea. revert arguments' Ea.
  induction arguments as [|a l IH]; intros [|a' l'] E; try done. injection E as -> E. f_equal. by apply IH.
Qed.

Lemma engine_request_confirmed s h id arguments bytes :
  invariant s h -> In (ASend (run_request id "operation-engine" arguments) bytes) h -> confirmed (engine :: arguments) h.
Proof.
  intros Hi Hin. destruct (iv_sent _ _ Hi _ _ Hin) as [[i E]|(i & p & a & E & H)]; [done|].
  apply run_request_inj in E as [<- <-]. destruct (H eq_refl) as (command & -> & Hc).
  pose proof Hc as (o & (v & e & _ & Hm) & _). by destruct (desktop_mutation_head _ _ _ _ _ _ _ Hm) as [rest ->].
Qed.


(** C9: Operations follow one another: the requests to run that were given an
    identifier are exactly those whose operation has ended and the one in progress,
    in the same order, and their identifiers increase, so that a second one is never
    sent before the first has ended. *)
Theorem operations_are_sequential s h :
  attained uid mapper engine helper_path (s, h) ->
  submitted h = ((if active_id s =? 0 then [] else [active_id s]) ++ ended h)%list /\
  StronglySorted Z.gt (submitted h).
Proof. intros Hr. apply attained_invariant in Hr. exact (conj (iv_ids _ _ Hr) (iv_sorted _ _ Hr)). Qed.

(** C17: A qualification has an exact analysis behind it: whatever is discovered,
    opened, analysed and done, a volume shown is taken for exactly analysed only when
    its identity was verified and a map was presented for its path that is not a
    summary, leaves no byte unknown and names the filesystem the volume is shown with;
    it is then qualified for exactly the operations this map grants, and a volume not
    exactly analysed is qualified for none. *)
Theorem qualified_volumes_analysed s h v :
  attained uid mapper engine helper_path (s, h) -> In v (volumes (shown s)) ->
  (exact_analysis v = true ->
   verified v = true /\
   exists map backend,
     In (APresented (path v) map) h /\
     field map "map_accuracy" <> EmptyString /\ field map "map_accuracy" <> "summary"%string /\
     number map "unknown_bytes" = 0 /\
     backend_by_fstype (field map "filesystem") = Some backend /\ filesystem v = Runtime.id backend /\
     (defrag_qualified v = true <-> find "defrag_qualified" map = Some (JBool true)) /\
     (growth_qualified v = true <-> find "growth_qualified" map = Some (JBool true))) /\
  (exact_analysis v = false -> defrag_qualified v = false /\ growth_qualified v = false).
Proof.
  intros Hr Hin. apply attained_invariant in Hr. pose proof (iv_volumes _ _ Hr) as Hv.
  rewrite List.Forall_forall in Hv. destruct (Hv v Hin) as [H1 H2]. split; [|done]. intros E.
  destruct (H1 E) as (Hid & map & Hp & [[] ? (backend & ? & ?) ? ?]). split; [done|]. by exists map, backend.
Qed.

(** *** Closing *)

Definition closes_later (f : Frame) : bool := existsb (fun r => match r with RClose => true | _ => false end) (rests f).

(** A window that is to be closed has something to wait for. *)
Definition waiting (s : Desktop) : Prop :=
  window (flags s) = true -> closing (flags s) = true ->
  busy (flags s) = true \/ discovering (flags s) = true \/ probing (flags s) = true \/ existsb closes_later (dialogs s) = true.

Definition waits_for (f : Handler) : Prop := forall s, waiting s -> waiting (fst (f s)).

Lemma waiting_same s s' : flags s' = flags s -> dialogs s' = dialogs s -> waiting s -> waiting s'.
Proof. unfold waiting. by intros -> ->. Qed.

Lemma waiting_busy s : busy (flags s) = true -> waiting s.
Proof. intros H _ _. by left. Qed.

Lemma waiting_error title text s : waiting s -> waiting (fst (error title text s)).
Proof. by intros H. Qed.

Lemma closes_waiting s : waiting (fst (closes s)).
Proof. unfold closes, waiting. destruct (closing (flags s)) eqn:Ec, (busy (flags s)) eqn:Eb; cbn; rewrite ?Ec, ?Eb; auto; done. Qed.

Lemma maybe_close_waiting s : waiting (fst (maybe_finish_close s)).
Proof.
  unfold maybe_finish_close, waiting.
  destruct (closing (flags s)) eqn:Ec, (busy (flags s)) eqn:Eb, (discovering (flags s)) eqn:Ed, (probing (flags s)) eqn:Ep; cbn;
    rewrite ?Ec, ?Eb, ?Ed, ?Ep; auto; done.
Qed.

Lemma run_rest_waiting r s : (r = RClose \/ waiting s) -> waiting (fst (run_rest r s)).
Proof.
  intros H. destruct r; cbn [run_rest fst]; try apply maybe_close_waiting; [apply closes_waiting| |];
    (destruct H as [?|H]; [done|]); by apply (waiting_same s).
Qed.

Lemma then_rest_waiting f r s : (r = RClose \/ waiting (fst (f s))) -> waiting (fst (then_rest f r s)).
Proof.
  intros H. unfold then_rest. destruct (f s) as [s1 a]. cbn in H.
  assert (Run : waiting (fst (let '(s2, b) := run_rest r s1 in (s2, (a ++ b)%list)))).
  { pose proof (run_rest_waiting r s1 H) as Hr. by destruct (run_rest r s1). }
  destruct (dialogs s1) as [|top below] eqn:Ed; [done|]. destruct (Nat.ltb _ _); [|done]. unfold waiting. cbn [fst flags dialogs set_dialogs existsb].
  assert (Top : closes_later (mkFrame (on_accept top) (rests top ++ [r])) = closes_later top || match r with RClose => true | _ => false end).
  { unfold closes_later. cbn [rests]. rewrite existsb_app. cbn [existsb]. by rewrite orb_false_r. }
  rewrite Top. intros Hw Hc. destruct H as [->|H]; [right; right; right; by rewrite orb_true_r|].
  destruct (H Hw Hc) as [?|[?|[?|Hd]]]; auto. rewrite Ed in Hd. cbn [existsb] in Hd. right; right; right.
  apply orb_true_iff in Hd as [Hd|Hd]; rewrite Hd; [done|]. by rewrite !orb_true_r.
Qed.

Lemma then_rests_waiting f rs s : (In RClose rs \/ waiting (fst (f s))) -> waiting (fst (then_rests f rs s)).
Proof.
  unfold then_rests. revert f. induction rs as [|r rs IH]; intros f H; cbn [fold_left].
  - by destruct H as [[]|H].
  - apply IH. destruct H as [[->|H]|H]; [right; apply then_rest_waiting; by left|by left|].
    right. apply then_rest_waiting. by right.
Qed.

(** The end of an operation leaves nothing behind. *)
Lemma completed_waiting again w code detail s : waiting (fst (completed_with again w code detail s)).
Proof.
  unfold completed_with. cbv zeta. set (result := if String.eqb _ _ && _ && _ then _ else _).
  set (s1 := set_ids _ _ _). clearbody s1 result.
  destruct (if (code =? 0) && _ then _ else _) as [[[code0 reason] s2] drawn].
  destruct (if (code0 =? 0) && _ then _ else _) as [s3 [message|]].
  - assert (H : waiting (fst (then_rests (error "Unable to discover volumes" message) [RStatus; RClose] s3)))
      by (apply then_rests_waiting; left; right; by left).
    by destruct (then_rests _ _ s3).
  - match goal with |- context [then_rest ?f RClose s3] => set (rest := f) end.
    assert (H : waiting (fst (then_rest rest RClose s3))) by (apply then_rest_waiting; by left).
    by destruct (then_rest rest RClose s3).
Qed.

Lemma submit_waiting again w : waits_for (submit_with again w).
Proof.
  intros s H. unfold submit_with. destruct (_ || _ || _ || _); [done|]. destruct (stopping _); [apply completed_waiting|].
  cbv zeta. destruct (helper_send _ _ _); [by apply (waiting_same s)|].
  match goal with |- context [completed_with ?a ?b ?c ?d ?x] => pose proof (completed_waiting a b c d x) as Hc;
    by destruct (completed_with a b c d x) end.
Qed.

Lemma start_helper_waiting again w : waits_for (start_helper_with again w).
Proof.
  intros s H. unfold start_helper_with. destruct (_ || _); [done|].
  destruct (helper_start _ _) as [[?|what] x]; [by apply (waiting_same s)|].
  destruct (busy _); [apply completed_waiting|by apply (waiting_same s)].
Qed.

Lemma start_waiting again w arguments program why : waits_for (start_with again w arguments program why).
Proof.
  intros s H. unfold start_with. destruct (executable_deleted w); [done|]. cbv zeta.
  set (s1 := set_task _ _). set (s2 := if String.eqb why _ then _ else _).
  assert (Hb : busy (flags s2) = true) by (unfold s2, s1; by destruct (String.eqb why _)). clearbody s2.
  destruct (_ && _).
  - destruct (local_start _ _ _) as [[?|what] l]; [by apply waiting_busy|apply completed_waiting].
  - destruct (helper_ready _); [apply submit_waiting|apply start_helper_waiting]; by apply waiting_busy.
Qed.

Lemma analyse_waiting w : waits_for (analyse_action mapper w).
Proof.
  intros s H. unfold analyse_action. destruct (selection _); [|done]. destruct (current s); [|done].
  destruct (busy _); [done|]. apply start_waiting. by apply (waiting_same s).
Qed.

Lemma request_stop_waiting w : waits_for (request_stop mapper w).
Proof.
  intros s H. unfold request_stop. destruct (_ || _) eqn:E; [done|]. apply orb_false_iff in E as [E _]. apply negb_false_iff in E.
  cbv zeta. set (s1 := set_flags _ s). assert (Hb : busy (flags s1) = true) by done. clearbody s1.
  destruct (local_active _); [by apply waiting_busy|]. destruct (active_id s1 =? 0).
  - destruct (helper_ready _); [apply submit_waiting|]; by apply waiting_busy.
  - destruct (helper_send _ _ _); by apply waiting_busy.
Qed.

Lemma apply_live_waiting line s s' : apply_live line s = Value s' -> flags s' = flags s /\ dialogs s' = dialogs s.
Proof.
  unfold apply_live. intros H. destruct (split_char _ _) as [[kind text]|]; [|by simplify_eq].
  apply bind_value in H as (payload & _ & H). cbv zeta in H.
  destruct (negb (is_object payload)); [by simplify_eq|].
  destruct (String.eqb kind "@@RESULT"); [by simplify_eq|].
  destruct (negb _); [by simplify_eq|].
  destruct (String.eqb kind "@@LIVE_MAP"); [apply bind_value in H as ([m c] & _ & H); by simplify_eq|].
  destruct (_ || _); [apply bind_value in H as (c & _ & H); by simplify_eq|].
  destruct (String.eqb kind "@@LIVE_RESET"); [apply bind_value in H as ([m c] & _ & H)|]; by simplify_eq.
Qed.

Lemma receive_waiting w message : waits_for (receive mapper w message).
Proof.
  intros s H. unfold receive. destruct (negb (is_object _)); [done|].
  destruct (String.eqb _ "ready"); [by apply submit_waiting|].
  set (refused := String.eqb _ _ && _). set (s1 := if refused then _ else s).
  assert (H1 : waiting s1) by (unfold s1; by destruct refused). clearbody s1.
  destruct (_ || _); [done|]. unfold receive_active. destruct (String.eqb _ "output").
  - destruct (String.eqb (purpose _) _); [destruct (consumes_progress _); [done|by apply (waiting_same s1)]|].
    destruct (String.prefix _ _); [|done]. destruct (apply_live _ _) eqn:E; [|done].
    apply apply_live_waiting in E as [E1 E2]. by apply (waiting_same s1).
  - destruct (String.eqb _ "finished"); [apply completed_waiting|done].
Qed.

Lemma callbacks_waiting {E} (call : E -> Handler) events : (forall e, waits_for (call e)) -> waits_for (callbacks call events).
Proof.
  intros H. induction events as [|e events IH]; intros s Hs; [done|].
  change (callbacks call (e :: events)) with (and_then (call e) (callbacks call events)). unfold and_then.
  pose proof (H e s Hs) as H1. destruct (call e s) as [s1 a]. pose proof (IH s1 H1) as H2. by destruct (callbacks call events s1).
Qed.

Lemma local_callback_waiting w e : waits_for (local_callback mapper w e).
Proof.
  intros s H. destruct e; cbn [local_callback]; try done; [|apply completed_waiting].
  destruct (_ || _); [done|by apply (waiting_same s)].
Qed.

Lemma helper_callback_waiting w e : waits_for (helper_callback mapper w e).
Proof.
  intros s H. destruct e; cbn [helper_callback]; try done.
  - destruct (parse line); [by apply receive_waiting|done].
  - cbv zeta. destruct (_ && _); [apply completed_waiting|done].
Qed.

Lemma discovery_waiting w s : waiting s -> waiting (fst (start_discovery w s)).
Proof.
  intros H. unfold start_discovery. destruct (_ || _); [done|].
  destruct (lsblk_spawn w); [done|]. intros _ _. cbn. auto.
Qed.

Lemma action_waiting w name : waits_for (action uid mapper engine w name).
Proof.
  intros s H. unfold action. destruct (_ && _); [done|].
  destruct (String.eqb name "refresh").
  { unfold refresh. pose proof (discovery_waiting w s H) as Hd. by destruct (start_discovery w s) as [s1 [message|]]. }
  destruct (String.eqb name "stop"); [by apply request_stop_waiting|].
  destruct (String.eqb name "analyse"); [by apply analyse_waiting|].
  destruct (String.eqb name "unmount").
  - unfold unmount_action. destruct (selection _); [|done]. by destruct (current s).
  - unfold mutation_action. destruct (current s); [|done]. cbv zeta. by destruct (desktop_mutation _ _ _ _ _ _).
Qed.

Lemma accept_waiting w a : waits_for (accept mapper w a).
Proof.
  intros s H. destruct a as [operation arguments|at_ index|]; cbn [accept].
  - pose proof (start_waiting (analyse_action mapper w) w arguments "operation-engine" operation s H) as Hs.
    unfold start_operation. by destruct (start_with _ _ _ _ _ s).
  - destruct (negb _); [done|]. destruct (nth_error _ _); [by apply start_waiting|done].
  - unfold start_probe. destruct (probe_spawn w); [done|]. intros _ _. cbn. auto.
Qed.

Lemma discovered_flags answer s s' : discovered answer s = Value s' ->
  dialogs s' = dialogs s /\ busy (flags s') = busy (flags s) /\ closing (flags s') = closing (flags s) /\
  discovering (flags s') = discovering (flags s) /\ probing (flags s') = probing (flags s) /\ window (flags s') = window (flags s).
Proof.
  intros H. apply bind_value in H as (tree & _ & H). cbv zeta in H. injection H as <-.
  destruct (desktop_discover tree ++ _)%list, (selection (shown s)); by repeat split.
Qed.

Lemma handle_waiting w c s s' acts :
  waiting s -> handle uid mapper engine w c s = Some (s', acts) -> waiting s'.
Proof.
  intros Hi H.
  assert (K : forall (f : Handler) x, waiting (fst (f x)) -> Some (f x) = Some (s', acts) -> waiting s')
    by (intros f x Hf [= E]; by rewrite E in Hf).
  destruct c as [name| |index| |yes| | |answer|p size writable answer|c|c]; cbn [handle] in H; cbv zeta in H.
  - destruct (modal s); [done|]. eapply (K (action uid mapper engine w name)); [by apply action_waiting|exact H].
  - destruct (modal s); [done|]. eapply (K open_image); [|exact H]. unfold open_image. by destruct (_ || _).
  - destruct (_ || _); [done|]. by injection H as <- <-.
  - eapply (K (close_requested mapper w)); [|exact H]. unfold close_requested.
    destruct (busy (flags s)) eqn:Eb; [by apply request_stop_waiting, waiting_busy|].
    destruct (discovering (flags s)) eqn:Ed, (probing (flags s)) eqn:Ep; cbn; intros Hw ?; cbn in *; try discriminate; auto.
  - destruct (dialogs s) as [|top below] eqn:Ed; [done|]. injection H as H.
    set (f := match on_accept top with Some a => if yes then accept mapper w a else skip | None => skip end) in *.
    pose proof (then_rests_waiting f (rests top) (set_dialogs below s)) as G. rewrite H in G. apply G.
    assert (Hf : waits_for f) by (unfold f; destruct (on_accept top) as [a|]; [destruct yes; [apply accept_waiting|]|]; by intros x Hx).
    destruct (existsb (fun r => match r with RClose => true | _ => false end) (rests top)) eqn:Er.
    + left. apply existsb_exists in Er as (r & Hin & Er). by destruct r.
    + right. apply Hf. intros Hw Hc. destruct (Hi Hw Hc) as [?|[?|[?|Hd]]]; auto. right; right; right. cbn.
      rewrite Ed in Hd. cbn [existsb] in Hd. unfold closes_later at 1 in Hd. by rewrite Er in Hd.
  - destruct (selection_pending _); [|done]. cbn [negb] in H.
    destruct (_ || _); [by injection H as <- <-|]. eapply (K (analyse_action mapper w)); [|exact H].
    apply analyse_waiting. exact Hi.
  - destruct (stop_timer _); [|done]. by injection H as <- <-.
  - destruct (_ || _); [done|]. eapply K; [|exact H]. apply then_rest_waiting. right. cbn beta.
    destruct (discovered answer s) as [s1|] eqn:E; [|by destruct (closing _)].
    apply discovered_flags in E as (E1 & E2 & E3 & E4 & E5 & E6). unfold waiting. cbn. by rewrite E1, E2, E3, E4, E5, E6.
  - destruct (_ || _); [done|]. eapply K; [|exact H]. apply then_rest_waiting. right. cbn beta.
    destruct (probed_volume _ _ _ _); [done|by destruct (closing _)].
  - assert (L : forall l events, Some (callbacks (local_callback mapper w) events (set_analysis l s)) = Some (s', acts) -> waiting s').
    { intros l events E. eapply K; [|exact E]. apply callbacks_waiting; [|by apply (waiting_same s)].
      intros e. apply local_callback_waiting. }
    destruct c; try done; apply bind_Some in H as ([l events] & _ & H); by apply (L l events).
  - destruct c; try done.
    + apply bind_Some in H as (x & _ & H). eapply K; [|exact H]. apply then_rest_waiting. right.
      apply helper_callback_waiting. by apply (waiting_same s).
    + apply bind_Some in H as ([x events] & _ & H). eapply K; [|exact H]. apply callbacks_waiting; [|by apply (waiting_same s)].
      intros e. apply helper_callback_waiting.
Qed.

(** C18: Closing is not forgotten: once the user asked to close the window, and as
    long as it is open, an operation, a discovery or a probe is running, or a dialog
    whose answer closes it is shown; so it closes with the last of them. *)
Theorem closing_is_honoured s h :
  attained uid mapper engine helper_path (s, h) ->
  window (flags s) = true -> closing (flags s) = true ->
  busy (flags s) = true \/ discovering (flags s) = true \/ probing (flags s) = true \/ dialogs s <> [].
Proof.
  assert (H : forall y, attained uid mapper engine helper_path y -> waiting (fst y)).
  { induction 1 as [|w c y y' _ IH Hs]; [done|]. unfold desktop_step in Hs. destruct (negb _); [done|].
    apply bind_Some in Hs as ([s1 acts] & Hs & [= <-]). by eapply handle_waiting. }
  intros Hr Hw Hc. destruct (H _ Hr Hw Hc) as [?|[?|[?|Hd]]]; auto. right; right; right. cbn in Hd. by destruct (dialogs s).
Qed.

(** C19: A reply about another request changes nothing: it is not taken for the
    output, the progress or the end of the operation in progress. *)
Theorem stale_replies_ignored w message s :
  field message "type" <> "ready"%string -> int_of (number message "id") <> active_id s ->
  snd (receive mapper w message s) = [] /\
  let s' := fst (receive mapper w message s) in
  task s' = task s /\ shown s' = shown s /\ dialogs s' = dialogs s /\ busy (flags s') = busy (flags s) /\
  active_id s' = active_id s /\ request_id s' = request_id s /\ analysis s' = analysis s.
Proof.
  intros Ht Hid. unfold receive. destruct (negb (is_object message)); [done|].
  rewrite (proj2 (String.eqb_neq _ _) Ht). set (refused := String.eqb _ _ && _). set (s1 := if refused then _ else s).
  assert (E : active_id s1 = active_id s) by (unfold s1; by destruct refused).
  rewrite E, (proj2 (Z.eqb_neq _ _) Hid). cbn [negb orb]. unfold s1. by destruct refused.
Qed.
End Safety.

(** ** One session *)

Section Instances.
  #[local] Existing Instance infiltratr_reference.
  #[local] Existing Instance sha256_zero.
#[local] Instance demo_rounding : Rounding := fun moved value old_used => moved * value / old_used.

(** Every file is there and readable, no journal is left, every call succeeds. *)
Definition calm : World :=
  mkWorld false (fun _ => true) (fun _ => false) None None None None None (Some "42"%string) SentOk 4096.

Definition calmly (choices : list Choice) : list (World * Choice) := map (pair calm) choices.

Definition disk (path : string) : Json :=
  JObject [("fstype", JString "ext4"); ("path", JString path); ("size", integer 1048576); ("uuid", JString "1-2")]%string.
Definition disks (paths : list string) : exc Json := Value (JObject [("blockdevices", JArray (map disk paths))]%string).

Definition map_line : string := stream
  ("{'cell_count':1,'cells':[{'end':7,'start':0}],'defrag_qualified':true,'filesystem':'ext4'," ++
   "'growth_qualified':false,'map_accuracy':'exact','total_units':8,'unknown_bytes':0}").

(** A local analysis that ends well with that map. *)
Definition analysis_ends : list Choice :=
  [LocalSays (LLine false map_line); LocalSays (LStreamDone false None); LocalSays (LStreamDone true None);
   LocalSays (LWaitDone (Some 0) None)].

Definition ready_line : string := stream "{'type':'ready'}".

(** The volume is found and analysed, the user asks to defragment it, accepts, and
    the helper gets ready. *)
Definition one_session : list Choice :=
  ([Click "refresh"; Lsblk (disks ["/dev/sda1"]); SelectionIdle]%string ++ analysis_ends ++
   [Click "defrag"; Respond true; HelperSays (HLine ready_line false)]%string)%list.

Definition after (choices : list Choice) : Desktop * list Act :=
  default (new_desktop "/helper", []) (session 1000 "/mapper" "/engine" (calmly choices) (new_desktop "/helper", [])).
(** A session from the start of the program, as [attained] has it. *)
Lemma after_attained choices y :
  session 1000 "/mapper" "/engine" (calmly choices) (new_desktop "/helper", []) = Some y ->
  attained 1000 "/mapper" "/engine" "/helper" y.
Proof. apply session_attained, attained_start. Qed.

Definition demo_arguments : list string :=
  ["defrag"; "/dev/sda1"; "--filesystem"; "ext4"; "--write"; "--confirm"; "/dev/sda1"; "--journal";
   "/var/lib/defragmenter/state/1000/volume-0000000000000000.journal"; "--batch-clusters"; "4096";
   "--live-map-cells"; "4096"]%string.

Definition demo_request : string := value_or (dump (run_request 1 "operation-engine" demo_arguments)) EmptyString.

Lemma after_one_session : attained 1000 "/mapper" "/engine" "/helper" (fst (after one_session), snd (after one_session)).
Proof. apply (after_attained one_session). vm_compute. reflexivity. Qed.


Lemma operations_are_sequential_witness :
  submitted (snd (after one_session)) = [1] /\ ended (snd (after one_session)) = [].
Proof.
  destruct (operations_are_sequential 1000 "/mapper" "/engine" "/helper" (fst (after one_session))
    (snd (after one_session)) after_one_session) as [H _].
  split; [rewrite H|]; vm_compute; reflexivity.
Defined.

Lemma qualified_volumes_analysed_witness :
  exists v map,
    volumes (shown (fst (after one_session))) = [v] /\ defrag_qualified v = true /\
    In (APresented "/dev/sda1" map) (snd (after one_session)) /\ number map "unknown_bytes" = 0 /\
    find "defrag_qualified" map = Some (JBool true).
Proof.
  destruct (volumes (shown (fst (after one_session)))) as [|v [|]] eqn:E; [vm_compute in E; discriminate| |vm_compute in E; discriminate].
  destruct (qualified_volumes_analysed 1000 "/mapper" "/engine" "/helper" _ _ v after_one_session
    ltac:(rewrite E; left; reflexivity)) as [H _].
  assert (F : exact_analysis v = true /\ defrag_qualified v = true /\ path v = "/dev/sda1"%string)
    by (vm_compute in E; injection E as <-; split_and!; reflexivity).
  destruct F as (F1 & F2 & F3). destruct (H F1) as (_ & map & backend & Hp & _ & _ & Hk & _ & _ & Hd & _).
  exists v, map. rewrite <- F3. split_and!; [reflexivity|exact F2|exact Hp|exact Hk|exact (proj1 Hd F2)].
Defined.

(** The window is closed while the operation runs; the helper ends it. *)
Definition closed_session : list Choice := (one_session ++ [Close])%list.

Lemma closing_is_honoured_witness :
  closing (flags (fst (after closed_session))) = true /\
  (busy (flags (fst (after closed_session))) = true \/ discovering (flags (fst (after closed_session))) = true \/
   probing (flags (fst (after closed_session))) = true \/ dialogs (fst (after closed_session)) <> []).
Proof.
  split; [vm_compute; reflexivity|].
  apply (closing_is_honoured 1000 "/mapper" "/engine" "/helper" _ (snd (after closed_session)));
    [apply (after_attained closed_session)|..]; vm_compute; reflexivity.
Defined.

Definition stale_reply : Json := JObject [("id", integer 7); ("returncode", integer 0); ("type", JString "finished")]%string.

Lemma stale_replies_ignored_witness :
  snd (receive "/mapper" calm stale_reply (fst (after one_session))) = [] /\
  busy (flags (fst (receive "/mapper" calm stale_reply (fst (after one_session))))) = true.
Proof.
  destruct (stale_replies_ignored "/mapper" calm stale_reply (fst (after one_session))) as (H1 & _ & _ & _ & H2 & _);
    [vm_compute; discriminate..|].
  split; [exact H1|]. rewrite H2. vm_compute. reflexivity.
Defined.
End Instances.
