(* ===== verification/DesktopRaces.v ===== *)
(** Three interleavings of the desktop (DesktopSession) that its guards let through.
    A refresh answers while an analysis or a dialog is open, because [busy_] does
    not count the discovery; and what was decided before is used after: the map of
    one volume for another, a confirmed operation over one in progress, a volume
    that is no longer stored.  Every click of these sessions is one whose button
    [update] leaves enabled. *)
From S2P Require Import Prelude CString Infiltratr Exceptions NativeJson Runtime HelperPath HelperPolicy HelperProcess DesktopPolicy.
From S2P Require Import AllocationMap LiveMap DesktopTransport DesktopSession DesktopSafety.
#[local] Open Scope Z_scope.

(** ** Enabled buttons *)

Section Buttons.
  Context {common : Infiltratr} {digest : Sha256} {rounding : Rounding}.
  Variable uid : Z.
  Variable mapper engine : string.

(** [update]: the buttons of the operations and that of the stop. *)
Definition update (w : World) (s : Desktop) : DesktopControls :=
  desktop_controls (current s) (busy (flags s)) (stopping (flags s))
    match current s with Some v => present w (desktop_journal v uid) | None => false end.

(** And the refresh, the image and the list of volumes. *)
Definition idle_selection (s : Desktop) : bool :=
  negb (busy (flags s)) && negb (discovering (flags s)) && negb (probing (flags s)).

(** Whether the user can make that choice: what is pending is not theirs. *)
Definition enabled (w : World) (c : Choice) (s : Desktop) : bool :=
  match c with
  | Click name =>
      if String.eqb name "refresh" then idle_selection s
      else if String.eqb name "stop" then stop (update w s)
      else if String.eqb name "analyse" then analyse (update w s)
      else if String.eqb name "unmount" then unmount (update w s)
      else if String.eqb name "defrag" then defrag (update w s)
      else if String.eqb name "growth-defrag" then growth_defrag (update w s)
      else String.eqb name "recover" && recover (update w s)
  | ChooseImage | Select _ => idle_selection s
  | _ => true
  end.

(** A session of enabled choices only. *)
Fixpoint pressed (choices : list (World * Choice)) (y : Desktop * list Act) : option (Desktop * list Act) :=
  match choices with
  | [] => Some y
  | (w, c) :: choices =>
      if enabled w c (fst y) then y ← desktop_step uid mapper engine w c y; pressed choices y else None
  end.

Lemma pressed_session choices y y' : pressed choices y = Some y' -> session uid mapper engine choices y = Some y'.
Proof.
  revert y. induction choices as [|[w c] choices IH]; intros y H; cbn [pressed session] in *; [done|].
  destruct (enabled w c (fst y)); [|done]. apply bind_Some in H as (z & Hz & H). rewrite Hz. by apply IH.
Qed.
End Buttons.

(** ** The sessions *)

Section Races.
  #[local] Existing Instance infiltratr_reference.
  #[local] Existing Instance sha256_zero.
  #[local] Existing Instance demo_rounding.

Definition begin : Desktop * list Act := (new_desktop "/helper", []).

Definition first_analysis : list Choice :=
  ([Click "refresh"; Lsblk (disks ["/dev/sda1"]); SelectionIdle]%string ++ analysis_ends)%list.

Lemma pressed_attained choices y :
  pressed 1000 "/mapper" "/engine" (calmly choices) begin = Some y -> attained 1000 "/mapper" "/engine" "/helper" y.
Proof. intros H. apply pressed_session in H. revert H. apply after_attained. Qed.

(** The defragmentation is confirmed while the volume that the refresh selected
    again is analysed. *)
Definition overridden : list Choice :=
  (first_analysis ++ [Click "refresh"; Click "defrag"; Lsblk (disks ["/dev/sda1"]); SelectionIdle; Respond true]%string ++
   analysis_ends)%list.

(** The volume being analysed goes away, and another one is selected. *)
Definition replaced : list Choice :=
  (first_analysis ++ [Click "refresh"; Click "analyse"; Lsblk (disks ["/dev/sdb1"]); SelectionIdle]%string ++ analysis_ends ++
   [Click "defrag"; Respond true; HelperSays (HLine ready_line false)]%string)%list.

(** The volumes are listed again before the unmount is confirmed. *)
Definition mounted_disk : exc Json :=
  Value (JObject [("blockdevices", JArray [JObject [("fstype", JString "ext4"); ("mountpoints", JArray [JString "/mnt"]);
    ("path", JString "/dev/sda1")]])]%string).

Definition refreshed : list Choice :=
  [Click "refresh"; Lsblk mounted_disk; Click "refresh"; Click "unmount"; Lsblk mounted_disk; Respond true]%string.

Definition outcome (choices : list Choice) : Desktop * list Act :=
  default begin (pressed 1000 "/mapper" "/engine" (calmly choices) begin).

Definition sends (h : list Act) : list string := flat_map (fun a => match a with ASend _ bytes => [bytes] | _ => [] end) h.
Definition analysed (h : list Act) : list (list string) := flat_map (fun a => match a with AStarted c => [c] | _ => [] end) h.

(** An operation is reported as completed that never ran: the user confirmed
    it, no request was ever sent to the helper, and the status that follows is
    [Completed]; the end of the analysis the confirmation overrode was taken for
    its own. *)
Theorem completion_without_run :
  exists s h command later earlier,
    pressed 1000 "/mapper" "/engine" (calmly overridden) begin = Some (s, h) /\
    attained 1000 "/mapper" "/engine" "/helper" (s, h) /\
    h = (later ++ AAccepted "defrag" command :: earlier)%list /\ In (AStatus "Completed") later /\
    purpose (task s) = "defrag"%string /\ busy (flags s) = false /\ sends h = [].
Proof.
  exists (fst (outcome overridden)), (snd (outcome overridden)), ("/engine" :: demo_arguments)%string,
    [AStatus "Completed"; ADone 0]%string, (drop 3 (snd (outcome overridden))).
  split_and!; [vm_compute; reflexivity|apply (pressed_attained overridden); vm_compute; reflexivity|
    vm_compute; reflexivity|left; reflexivity|vm_compute; reflexivity..].
Qed.

(** A volume is written that was never analysed: the map that qualifies it,
    exactly and with its identity verified, is that of the volume that was selected
    when the analysis was started, and the request for it is sent. *)
Theorem map_qualifies_other_volume :
  exists s h v operation arguments bytes,
    pressed 1000 "/mapper" "/engine" (calmly replaced) begin = Some (s, h) /\
    attained 1000 "/mapper" "/engine" "/helper" (s, h) /\
    current s = Some v /\ path v = "/dev/sdb1"%string /\ exact_analysis v = true /\ verified v = true /\
    sends h = [bytes] /\ In (ASend (run_request 1 "operation-engine" (operation :: path v :: arguments)) bytes) h /\
    Forall (fun command => ~ In (path v) command) (analysed h).
Proof.
  exists (fst (outcome replaced)), (snd (outcome replaced)),
    (default (mkVolume EmptyString EmptyString EmptyString EmptyString EmptyString EmptyString EmptyString 0 0 false false false false false false false EmptyString EmptyString) (current (fst (outcome replaced)))),
    "defrag"%string,
    ["--filesystem"; "ext4"; "--write"; "--confirm"; "/dev/sdb1"; "--journal";
     "/var/lib/defragmenter/state/1000/volume-0000000000000000.journal"; "--batch-clusters"; "4096";
     "--live-map-cells"; "4096"]%string,
    (default EmptyString (head (sends (snd (outcome replaced))))).
  split_and!; [vm_compute; reflexivity|apply (pressed_attained replaced); vm_compute; reflexivity|vm_compute; reflexivity..| |].
  - vm_compute. left. reflexivity.
  - vm_compute. repeat constructor; intros H; repeat destruct H as [H|H]; try discriminate H; exact H.
Qed.

(** The unmount of a volume that is no longer stored: the function holds a
    pointer to the volume while its dialog runs the main loop, and the refresh that
    answers there replaces the volumes. *)
Theorem unmount_uses_replaced_volume :
  exists s h, pressed 1000 "/mapper" "/engine" (calmly refreshed) begin = Some (s, h) /\
    attained 1000 "/mapper" "/engine" "/helper" (s, h) /\ In AUseAfterFree h.
Proof.
  exists (fst (outcome refreshed)), (snd (outcome refreshed)).
  split_and!; [vm_compute; reflexivity|apply (pressed_attained refreshed); vm_compute; reflexivity|vm_compute; left; reflexivity].
Qed.
End Races.
