(* ===== verification/DesktopHelper.v ===== *)
(** The desktop (DesktopSession) and the privileged helper (HelperProcess,
    HelperPolicy) together: the requests of the one are requests the other reads
    whole, understands and authorises. *)
From S2P Require Import Prelude CString Infiltratr Exceptions NativeJson Runtime HelperPath HelperPolicy HelperProcess DesktopPolicy.
From S2P Require Import AllocationMap LiveMap DesktopTransport DesktopSession DesktopSafety.
#[local] Open Scope Z_scope.

(** ** Arguments *)

(** The most a command of the registry has: its fixed arguments, and two options
    with their values after the defaults of its operation. *)
Definition few_options (b : BackendInfo) : bool :=
  forallb (fun op => Nat.leb (length (default_options op)) 100) (operations b).

Lemma registry_few_options : forallb few_options registry = true.
Proof. vm_compute. reflexivity. Qed.

Lemma mutation_arguments v operation engine journal cells journal_exists arguments :
  desktop_mutation v operation engine journal cells journal_exists = Value (engine :: arguments) ->
  Z.of_nat (length arguments) <= kMaxArgumentCount /\ nth 1 arguments EmptyString = path v.
Proof.
  unfold desktop_mutation. intros H. cbv zeta in H. destruct (_ ≫= _) as [spec|] eqn:E; [|done]. unthrow.
  apply bind_Some in E as (backend & Hb & Ho). apply backend_found in Hb as [Hb _]. apply find_some in Ho as [Ho _].
  pose proof registry_few_options as Hf. rewrite forallb_forall in Hf. specialize (Hf _ Hb).
  unfold few_options in Hf. rewrite forallb_forall in Hf. specialize (Hf _ Ho). apply Nat.leb_le in Hf.
  injection H as <-. split; [|done]. unfold kMaxArgumentCount. cbn [length app].
  rewrite !length_app. destruct (String.eqb operation "growth-defrag"), (String.eqb operation "recover"); cbn [length negb]; lia.
Qed.

Lemma string_array_texts arguments :
  Z.of_nat (length arguments) <= kMaxArgumentCount -> Forall (fun a => strlen a <= kMaxArgumentBytes) arguments ->
  string_array (JArray (map JString arguments)) = Value arguments.
Proof.
  intros Hn Ha. unfold string_array. rewrite length_map, (proj2 (Z.ltb_ge _ _)) by done. cbn [throw_if mbind exc_bind].
  clear Hn. induction Ha as [|a l H Hl IH]; [done|]. cbn [map mapM argument_text].
  rewrite (proj2 (Z.ltb_ge _ _)) by done. cbn [mbind exc_bind]. by rewrite IH.
Qed.

(** ** Requests *)

Section Requests.
  Context {common : Infiltratr} {laws : InfiltratrLaws common}.

Lemma itoa_natural n : 0 <= n -> itoa n = utoa n.
Proof. intros H. unfold itoa. by rewrite (proj2 (Z.ltb_ge _ _)). Qed.

Lemma run_request_well_formed id program arguments :
  0 <= id -> has_char NUL program = false -> Forall (fun a => has_char NUL a = false) arguments ->
  let request := run_request id program arguments in
  well_formed request = true /\ printable request = true /\ (depth request <= 64)%nat.
Proof.
  intros Hid Hp Ha. cbv zeta. unfold run_request, integer. rewrite itoa_natural by done.
  assert (N : NativeJson.number (utoa id) = Value (JNumber (utoa id))) by (apply number_complete, utoa_number).
  assert (W : forallb well_formed (map JString arguments) = true) by (clear; by induction arguments).
  assert (P : forallb printable (map JString arguments) = true).
  { induction Ha as [|a l H Hl IH]; [done|]. cbn [map forallb printable]. by rewrite H, IH. }
  assert (D : foldr (fun n m => Nat.max (S n) m) O (map depth (map JString arguments)) = O \/
              foldr (fun n m => Nat.max (S n) m) O (map depth (map JString arguments)) = 1%nat).
  { clear. induction arguments as [|a l [IH|IH]]; [by left|right..]; cbn [map foldr depth]; by rewrite IH. }
  split_and!; cbn [well_formed printable depth map forallb fst snd foldr].
  - rewrite N, W. done.
  - rewrite N, P, Hp. done.
  - destruct D as [-> | ->]; cbn; lia.
Qed.

(** What the helper takes the line for. *)
Lemma run_request_understood id program arguments line :
  0 <= id <= INT_MAX -> Z.of_nat (length arguments) <= kMaxArgumentCount ->
  Forall (fun a => strlen a <= kMaxArgumentBytes) arguments ->
  parse line = Value (run_request id program arguments) ->
  request_of line = Run id program arguments.
Proof.
  intros Hid Hn Ha H. unfold request_of. rewrite H. cbn -[integer_value string_array integer run_of].
  unfold run_of, HelperProcess.request_id. cbn -[integer_value string_array integer].
  assert (I : integer_value (integer id) = Value id).
  { apply (integer_accessors_exact (itoa id) id); [rewrite itoa_natural by lia; apply utoa_number|].
    split; [unfold INT_MAX in *; lia|by left]. }
  rewrite I. by rewrite string_array_texts.
Qed.
End Requests.

Section Agreement.
  Context {common : Infiltratr} {laws : InfiltratrLaws common} {digest : Sha256} {digest_laws : Sha256Laws digest}.
  Context {rounding : Rounding}.
  Variable uid : Z.
  Variable mapper engine helper_path : string.

(** C2: From the click to the command: every request for the operation engine that
    the desktop ever sends, for a volume with an absolute path and within the limits
    of the protocol, is read whole by the helper, whatever follows it in the pipe,
    is understood as the run of exactly those arguments under that identifier, and
    is authorised for the user without a change. *)
Theorem desktop_requests_are_authorised s h id arguments bytes rest :
  attained uid mapper engine helper_path (s, h) ->
  In (ASend (run_request id "operation-engine" arguments) bytes) h ->
  0 <= id <= INT_MAX -> head_char (nth 1 arguments EmptyString) = "/"%char ->
  Forall (fun a => has_char NUL a = false /\ strlen a <= kMaxArgumentBytes) arguments ->
  strlen bytes <= kMaxRequestBytes + 1 ->
  exists line, read_request_line EmptyString (bytes ++ rest) = (LineOk, line, rest) /\
    request_of line = Run id "operation-engine" arguments /\
    helper_command "operation-engine" arguments uid = Value (mkCommand kOperationEngine arguments).
Proof.
  intros Hr Hin Hid Hpath Hargs Hlen. apply attained_invariant in Hr.
  destruct (engine_request_confirmed _ _ _ _ _ _ _ Hr Hin) as (operation & (v & e & _ & Hm) & _).
  destruct (iv_bytes _ _ _ _ Hr _ _ Hin) as (line & Hdump & ->).
  destruct (mutation_arguments _ _ _ _ _ _ _ Hm) as [Hn Hv]. apply List.Forall_and_inv in Hargs as [Hnul Hbytes].
  destruct (run_request_well_formed id "operation-engine" arguments) as (Hw & Hp & Hd); [lia|done|done|].
  rewrite strlen_app in Hlen. change (strlen (String LF EmptyString)) with 1 in Hlen.
  destruct (line_is_read _ line rest Hw Hp Hd Hdump) as [Hread Hparse]; [lia|].
  exists line. split_and!; [done|by apply run_request_understood|].
  eapply mutation_authorised; [|exact Hm]. by rewrite <- Hv.
Qed.
End Agreement.

(** ** One request *)

Lemma desktop_requests_are_authorised_witness :
  exists line, read_request_line EmptyString ((demo_request ++ String LF EmptyString) ++ "rest") = (LineOk, line, "rest"%string) /\
    request_of (common := infiltratr_reference) line = Run 1 "operation-engine" demo_arguments /\
    helper_command "operation-engine" demo_arguments 1000 = Value (mkCommand kOperationEngine demo_arguments).
Proof.
  apply (desktop_requests_are_authorised (common := infiltratr_reference) (laws := infiltratr_reference_laws)
    (digest := sha256_zero) (digest_laws := sha256_zero_laws) (rounding := demo_rounding) 1000 "/mapper" "/engine" "/helper"
    (fst (after one_session)) (snd (after one_session)) 1 demo_arguments (demo_request ++ String LF EmptyString) "rest");
    [exact after_one_session|vm_compute; left; reflexivity|vm_compute; split; discriminate|reflexivity| |vm_compute; discriminate].
  repeat (constructor; [split; [reflexivity|vm_compute; discriminate]|]). constructor.
Defined.
